(* ===== verification/_CoqProject ===== *)
-Q . S2P
Prelude.v
NetTypes.v
TunnelTypes.v
FirewallPolicy.v
Nftables.v
FirewallLinux.v
FirewallSpec.v
FirewallRefine.v
FirewallApply.v
FirewallProps.v
TunnelMonitor.v
TunnelStateMachine.v
TunnelWp.v
TunnelHandlers.v
TunnelProps.v
TunnelLiveness.v
LinuxPlatform.v
TunnelExamples.v
Masque.v
MasqueProps.v
RelayTypes.v
RelayTypesProps.v
RelaySelector.v
RelayProps.v
RelayExamples.v
Version.v
VersionProps.v
Retry.v
VersionUpdate.v
VersionRouter.v
VersionUpdateProps.v
VersionRouterProps.v
EncryptedDns.v
EncryptedDnsProps.v
Lwo.v
Multiplexer.v
MultiplexerProps.v
SettingsPatch.v
SettingsPatchProps.v
Connectivity.v
ConnectivityProps.v
MtuDetection.v
AccessMethods.v
AccessMethodsProps.v
TargetState.v
Availability.v
DeviceService.v
DeviceManager.v
DeviceProps.v
Migrations.v
MigrationsProps.v
Settings.v
SettingsPersister.v
Daemon.v
SettingsProps.v
DaemonSteps.v
TunnelTold.v
DaemonSync.v
DaemonReplies.v
DaemonTunnel.v
DaemonLinux.v
ParametersGenerator.v
DaemonExamples.v
Routing.v
RoutingProps.v
WireguardTunnel.v
WireguardProps.v
WireguardRouting.v
WireguardMtu.v
OfflineMonitor.v
WireguardExamples.v
DnsLinux.v
DnsProps.v
DnsRefine.v
ProtoSettings.v
ProtoState.v
ProtoProps.v
ManagementInterface.v
ManagementProps.v
ClientCalls.v
