(* ===== verification/Prelude.v ===== *)
(** * A verification library for the VPN client's daemon

    The repository is a desktop VPN client: a daemon that keeps a WireGuard tunnel up and, whatever
    happens to the tunnel, keeps traffic from leaving outside of it.  This library models, in the Linux
    build, the two parts that keep that promise, those that choose, carry and watch the tunnel's traffic,
    and the parts of the daemon around them that keep state of their own:

    - the tunnel state machine ([src/talpid-core/src/tunnel_state_machine/]), which reacts to
      commands of the daemon, to events of the tunnel and to the end of the tunnel thread by moving
      between disconnected, connecting, connected, disconnecting and error;
    - the firewall ([src/talpid-core/src/firewall/]), which turns the policy the machine asks for into
      an nftables batch, sends it to the kernel over netlink and verifies it;
    - the relay selector ([src/mullvad-relay-selector/]), which picks the relays, the endpoint and the
      obfuscation of each connection attempt from the relay list and the user's constraints;
    - the MASQUE proxy ([src/mullvad-masque-proxy/]), which carries the tunnel in QUIC datagrams, and the
      other obfuscation of [src/tunnel-obfuscation/]: LWO and the multiplexer that tries several transports;
    - the connectivity monitor and the MTU detection of [src/talpid-wireguard/], which decide that a tunnel
      has died and how large its packets may be;
    - versions and upgrades ([src/mullvad-version/], [src/mullvad-update/], [src/mullvad-daemon/src/version/]):
      signed metadata is fetched, verified, cached, announced and downloaded;
    - the ways to the API ([src/mullvad-api/], [src/mullvad-encrypted-dns-proxy/]): the access methods and
      their rotation, the encrypted DNS proxy, and waiting until the API may be used;
    - the daemon's persistent state ([src/mullvad-daemon/src/]): the target state, settings patches, the
      migrations of settings, and the account manager, which keeps the device and its key;
    - the daemon itself ([src/mullvad-daemon/src/lib.rs]): the loop that handles every command of a client and
      every event of its parts, the settings, and the generator of tunnel parameters;
    - the WireGuard tunnel and routing ([src/talpid-wireguard/src/], [src/talpid-routing/src/]): the configuration,
      the exchange of ephemeral keys, the rules and routes that send traffic into the tunnel, the order of
      all this, and the monitor that finds the host offline ([src/talpid-core/src/offline/]).

    - name servers ([src/talpid-dns/]): how the tunnel's are put in place and the user's restored;
    - the management interface ([src/mullvad-management-interface/], [src/mullvad-daemon/src/management_interface.rs]):
      the messages, the service that turns requests into commands, the broadcast of events, and the client.

    The machine calls the firewall, the DNS monitor, the route manager, NetworkManager, the generator
    of tunnel parameters and the tunnel threads; the daemon sees the machine only through commands
    and the transitions it reports, and [DaemonSync] puts the two together.

    ** Files

    - [Prelude]: results and their notation, [u32] arithmetic, shared lemmas and tactics.
    - [NetTypes]: [src/talpid-types/src/net/]: addresses, endpoints, allowed clients and tunnel
      traffic, connectivity, obfuscators, tunnel parameters, address blocks.
    - [TunnelTypes]: [src/talpid-types/src/tunnel.rs], [src/talpid-tunnel/src/lib.rs] and the
      configuration half of [src/talpid-dns/src/lib.rs].
    - [FirewallPolicy]: [src/talpid-core/src/firewall/mod.rs].
    - [Nftables]: the syntax of rules and batches, and the class [Nftables] with its laws, for the
      [nftnl] crate and the kernel's packet filter; [nft_reference] implements it.
    - [FirewallLinux]: the rule builders of [src/talpid-core/src/firewall/linux.rs], up to
      [PolicyBatch::finalize].
    - [FirewallSpec]: which packets a policy permits, read off [docs/security.md] and the policy type,
      with less to be forwarded than that document says: the abstract specification.
    - [FirewallRefine]: the rules implement the specification, chain by chain.
    - [FirewallApply]: [Firewall::apply_policy] and [reset_policy]: the netlink exchange, the files
      under [/proc/sys] and the verification; the class [Netfilter] with its laws is the kernel side.
    - [FirewallProps]: the theorems about the firewall.
    - [TunnelMonitor]: [tunnel_monitor.rs], the error kinds of [talpid-wireguard] and
      [talpid-routing], and the result of the tunnel thread.
    - [TunnelStateMachine]: the states, their entry functions and handlers, the event loop; the class
      [TunnelPlatform] is everything the machine calls.
    - [TunnelWp]: the laws the machine expects of its platform ([TunnelPlatformLaws]) and the weakest
      precondition rules for its monad.
    - [TunnelHandlers]: one lemma per handler against a common postcondition.
    - [TunnelProps], [TunnelLiveness]: the theorems about executions of the machine.
    - [LinuxPlatform]: the firewall of [FirewallApply] discharges [TunnelPlatformLaws]; the machine's
      theorems become theorems about what the kernel accepts.
    - [TunnelExamples]: a concrete host, and the theorems applied to executions on it.
    - [Masque], [MasqueProps]: [src/mullvad-masque-proxy/src/]: a transport that carries the tunnel's
      UDP packets in QUIC datagrams, with fragmentation and reassembly.
    - [RelayTypes], [RelayTypesProps]: the parts of [src/mullvad-types/src/] the selector works on:
      constraints and their intersection, matching, obfuscation settings, overrides, custom lists, the
      relay list; the laws of intersection and the uniqueness of custom lists.
    - [RelaySelector]: [src/mullvad-relay-selector/src/relay_selector/]: endpoint sets and verdicts,
      partitions, weighted choice, queries, endpoints, [get_relay] with its retry order.
    - [RelayProps], [RelayExamples]: the theorems about the selector and a concrete relay list.
    - [Version], [VersionProps]: [src/mullvad-version/src/lib.rs]: versions, their order, text and parser.
    - [Retry]: [src/talpid-future/src/retry.rs].
    - [VersionUpdate]: [src/mullvad-update/src/]: rollouts, signed metadata, the selection of versions; and
      [src/mullvad-daemon/src/version/check.rs], the task that checks for versions.
    - [VersionRouter], [VersionUpdateProps], [VersionRouterProps]:
      [src/mullvad-daemon/src/version/]: the router that announces versions and runs upgrades, in the build
      with in-app upgrades.
    - [EncryptedDns], [EncryptedDnsProps]: [src/mullvad-encrypted-dns-proxy/src/].
    - [Lwo], [Multiplexer], [MultiplexerProps]: [src/tunnel-obfuscation/src/lwo.rs] and [multiplexer.rs].
    - [SettingsPatch], [SettingsPatchProps]: [src/mullvad-daemon/src/settings/patch.rs].
    - [Connectivity], [ConnectivityProps], [MtuDetection]: [src/talpid-wireguard/src/connectivity/] and
      [mtu_detection.rs].
    - [AccessMethods], [AccessMethodsProps]: [src/mullvad-types/src/access_method.rs] and
      [src/mullvad-api/src/access_mode.rs], without the [api-override] feature.
    - [TargetState]: [src/mullvad-daemon/src/target_state.rs].
    - [Availability]: [src/mullvad-api/src/availability.rs].
    - [DeviceService]: [src/mullvad-daemon/src/device/service.rs], [src/mullvad-types/src/device.rs] and
      [account.rs]: the calls to the API about devices and accounts, each with its retries.
    - [DeviceManager]: [src/mullvad-daemon/src/device/mod.rs], [api.rs]: the account manager, one
      [run_round] for each turn of its loop, and [TunnelStateChangeHandler].
    - [DeviceProps]: its theorems, and concrete runs.
    - [Migrations], [MigrationsProps]: [src/mullvad-daemon/src/migrations/]: the
      migrations of settings of all versions, on JSON values.
    - [Settings]: [src/mullvad-types/src/settings/], [features.rs], [states.rs] and [src/mullvad-daemon/src/dns.rs]:
      the settings, their operations, the name servers and the feature indicators they give.
    - [SettingsPersister]: [src/mullvad-daemon/src/settings/mod.rs]: loading, changing, saving and resetting;
      [persisted] is what of settings is written and read.
    - [Daemon]: [src/mullvad-daemon/src/lib.rs], [custom_list.rs], [access_method.rs], [account_history.rs]: the
      start, one handler for every event and every command, the event loop and the end.
    - [DaemonSteps]: a logic for the handlers: what a handler leaves alone, what it tells and what it answers.
    - [SettingsProps], [DaemonSync], [DaemonReplies]: the theorems about settings and the daemon.
    - [TunnelTold], [DaemonSync]: the machine takes over what it is told; the daemon and the machine as one
      system with the channels between them.
    - [DaemonTunnel], [DaemonLinux]: the theorems about that system, and about the kernel below it.
    - [ParametersGenerator]: [src/mullvad-daemon/src/tunnel.rs] and
      [src/mullvad-types/src/custom_tunnel.rs]: the parameters of each connection attempt.
    - [DaemonExamples]: a concrete daemon, and runs of it.
    - [Routing]: [src/talpid-routing/src/lib.rs], [unix/mod.rs] and [unix/linux.rs]: the route manager, its rules
      and routes, its task; the class [Rtnetlink] is the kernel, and [fib_lookup] how it decides.
    - [RoutingProps]: what the rules and the added routes make of that decision.
    - [WireguardTunnel]: [src/talpid-wireguard/src/config.rs], [obfuscation.rs], [ephemeral.rs] and [lib.rs]: the
      configuration of a tunnel and the future that sets it up, over the class [TunnelServices].
    - [WireguardProps], [WireguardRouting], [WireguardMtu]: the theorems about reports, traffic and packet sizes.
    - [OfflineMonitor]: [src/talpid-core/src/offline/]: when the host is offline.
    - [WireguardExamples]: a kernel that meets the laws, a tunnel over two hops on it, and corners of the code.
    - [DnsLinux]: [src/talpid-dns/src/linux/]: who manages name servers, what each of them sets and resets, the
      watcher of [/etc/resolv.conf] and its backup; [DnsProps], [DnsRefine]: what happens to the user's file,
      with a format of the file, and what is not promised.
    - [ProtoSettings], [ProtoState]: [src/mullvad-management-interface/]: the messages of the interface between
      the daemon and its front ends, and the conversions of settings, constraints, states, relays, devices,
      versions and events from and to them, field by field, with every error.
    - [ProtoProps]: what is read from what was written, with the values that types can have.
    - [ManagementInterface]: [src/mullvad-daemon/src/management_interface.rs], a definition for every procedure,
      with the statuses of errors; [relay_selector.rs]; and [src/mullvad-management-interface/src/client.rs], a
      definition for every method.
    - [ManagementProps]: the theorems about single calls and about listeners.
    - [ClientCalls]: the client, the service and the daemon's handlers put together, and corners of the interface.

    ** What the theorems show

    - Kill switch and lockdown ([TunnelProps.kill_switch], [LinuxPlatform.linux_kill_switch],
      [LinuxPlatform.linux_lockdown]): over every sequence of events the kernel keeps accepting packets
      as some policy permits until a disconnect is requested, or, with lockdown mode, until it is
      turned off, also when policies fail to apply.
    - The rules ([FirewallProps.filter_chains_refine] and the theorems after it): every packet gets
      the verdict of the specification; DNS, TCP and probing leaks are excluded; excluded processes
      keep their path; building fails exactly when an interface is missing; applying is atomic.
    - Agreement with settings and reports ([TunnelProps.policy_follows_settings],
      [transitions_truthful], [no_tunnel_while_offline], [refines_state_diagram]).
    - Progress ([TunnelLiveness]): shutdown ends within three events, every command's sender is
      completed, attempts are counted.
    - The QUIC transport ([MasqueProps]): packets arrive unchanged in both directions whatever the order
      of their fragments, and upstream whatever arrives between them, the reassembly buffer is bounded, and what a failed receive does.
    - The relay selector ([RelayProps], [RelayTypesProps]): on every attempt and for every sequence of
      random numbers the selected relays, endpoint and obfuscation satisfy the user's own query, because
      retries only intersect with it; the partitions are exact; a pair of relays is found whenever there
      is one and the entry's location is chosen; the verdicts agree with the endpoints that can be built;
      the choice is proportional to the weights; and where an automatic entry is never found.
    - Versions and upgrades ([VersionUpdateProps], [VersionRouterProps], [VersionProps]): nothing reaches the
      daemon that a trusted key has not signed or that has expired, metadata is not rolled back by checks
      that do not overlap, the suggested versions are the greatest offered, upgrades are never downgrades,
      no request is lost, and the order and text of versions are exact.
    - Transports ([Lwo], [MultiplexerProps], [EncryptedDnsProps]): obfuscation is undone at the other end,
      the multiplexer keeps to the transport that answered first, configurations are read exactly as they
      are documented and tried fairly.
    - The tunnel's health ([ConnectivityProps], [MtuDetection]): a tunnel is given up only after a ping has
      gone unanswered, and a dead one is; the MTU is only lowered, to a size that was answered.
    - The daemon's state ([TargetState], [SettingsPatchProps], [AccessMethodsProps], [Availability]): the
      target state survives crashes once it was saved, patches change nothing they may not, an access method is always
      enabled and every enabled one gets its turn, waiting misses no change.
    - Accounts and devices ([DeviceProps]): every request is answered once or still waits, listeners and
      the file agree with the manager, no device is leaked on the account, a rotated key is stored with the
      addresses it was exchanged for, and the device is checked at bounded rate.
    - Migrations ([MigrationsProps]): settings of every known version reach the current one and are then
      stable, lockdown mode survives, and the names of access methods become unique.
    - The daemon ([DaemonReplies], [SettingsProps]): every client is answered once, changed
      settings lead to a new tunnel, settings survive restarts and unreadable ones lock the device down.
    - The whole system ([DaemonTunnel], [DaemonLinux]): however the steps of the daemon, the machine, the tunnel
      and the host interleave, the machine goes where the user wants it, the firewall has what the settings
      say, clients see the machine's state and its details, the kernel stays guarded until the user disconnects, and a
      shutdown leaves no gap.
    - The parameters ([ParametersGenerator]): the tunnel is the one the settings and the device ask for.
    - The tunnel's set up ([WireguardProps], [WireguardRouting], [WireguardMtu], [RoutingProps]): the tunnel is
      reported in the right order and only as it is, whatever fails and wherever it is stopped; once it is
      up, unmarked traffic goes through it unless the main table has a more specific route for it, and marked
      traffic by the host's own rules; its packets fit the link.
    - Being offline ([OfflineMonitor.offline_reported]): what is reported last is what the routes give.
    - Name servers ([DnsProps], [DnsRefine]): the user's are not lost while writes are atomic, wherever the
      daemon is killed, and where they can be; the tunnel's are enforced against other programs that write in
      place.
    - The management interface ([ManagementProps], [ClientCalls]): a method of the client gives the daemon exactly
      the command of its contract and returns its answer, or the error its error is mapped to; no client is left waiting by a
      procedure; listeners read all events since they began; custom lists behave for a client as abstract lists.
    ** How the code is modelled

    - Linux build, release profile: [cfg] branches of other systems are left out, [u32] wraps.
    - A handler is a function of a state monad over [St]: the shared values, the platform's state, the
      oneshot senders completed so far (each a number, so completing one twice would show) and whether
      the command stream has ended.  The order of the platform calls is the order of the code.  A call
      whose error is only logged keeps its result, which is dropped as in the code; logging itself is
      left out.
    - Channels are inputs: [handle_event] takes the next thing that happens on one of the machine's
      streams, [iterate] is one round of the loop and [run] a list of them.  Which streams a state
      waits for is part of the model ([poll_tunnel], [poll_disconnecting], [poll_commands]).
    - Rules are the lists of [nftnl] expressions the code pushes, with registers and masks kept as
      numbers; an address is its numeric value, at 32 or 128 bits.
    - Netlink: [recv] yields a list of datagrams; a call with no datagram left blocks, so the outcome
      of [send_and_process] is [Done], [Panicked] (the [expect] of the source) or [Hung], and that it is
      [Done] is proved.
    - Recursion is structural, so no fuel is used, with these exceptions.  [Masque.search_base] and
      [Masque.chunks_from] have the length of the list they halve or consume as fuel, and that it is enough
      is part of their specifications.  [Retry.retry_future] counts rounds: [Retry.retry_terminates] shows
      that one more than the limit of retries is enough, which is what [VersionUpdate] passes.
      [SettingsPatch.validate_patch_value] and [merge_patch_to_value] count the levels of nesting as the code
      does, from [RECURSE_LIMIT].  [AccessMethods.find_from] looks at as many methods as there are, as the
      code does.
    - A task of the daemon that selects between channels is a step function of its state and of what
      arrives, and its runs are sequences of steps; times are numbers of nanoseconds read from a clock that
      is an input.

    ** What is a parameter

    The kernel's packet filter, netlink and [/proc] ([Nftables], [Netfilter]), the [ipnetwork] crate
    ([IpNetworkOps]) and the services around the machine ([TunnelPlatform], [HostServices]) are classes,
    with what their documentation promises as the laws of a second class; [nft_reference],
    [netfilter_reference], [ipnetwork_reference] and the host of [TunnelExamples] are instances, so the
    laws can hold.
    The encodings of the [h3] and [bytes] crates are the class [Wire], implemented by [wire_reference].
    The [rand] crate is the class [Rng] with the laws [RngLaws], implemented by [rng_reference] in
    [RelayExamples]; distances between relays, [f64] in the source, are the class [Geography], of which
    only the order is used.  A panic of the selector is the outermost [None] of a result.  The retry
    order is an iterator that cycles: [nth_relay] recurses on the attempt number, and a round without
    a relay ends the search, so no fuel is needed.
    Regular expressions are the class [VersionRegex] with the behaviour documented by the [regex] crate for
    the one expression used, implemented by [regex_reference]; JSON, its canonical form and ed25519 are the
    class [MetadataCodec], implemented by [codec_example]; [hex::decode], the conversions of [serde_json]
    for the settings, the resolver of access methods, the order of a hash set, random bytes, sockets and
    clocks are arguments.
    Key generation is the class [Curve], the API the records of proxies in [DeviceService]: any function of
    the call and the number of the attempt.  The conversions of [serde_json] in the migrations are the
    class [Serde], implemented by [serde_example].  Fuel: [action] retries a bounded number of times as its
    strategy says; [generate_access_method_name] tries one name more than there are, which
    [generate_total] proves enough.
    The JSON of the settings is the class [SettingsJson] with the laws [SettingsJsonLaws], implemented in
    [DaemonExamples].  What the daemon's services answer (the device manager, the relay list, the API, the
    results of writes) is the record [Env], given anew for each event; [StartEnv] is what it finds when it
    starts.  Tasks the daemon spawns are effects in the order the code starts them, with their own functions
    ([login_task], [migration_task] and others) from the answers of the services to what they send.
    Netlink's routes and rules are the class [Rtnetlink] with the laws [RtnetlinkLaws], implemented by
    [fib_reference]; the devices, obfuscators, the configuration service and the connectivity check are the
    class [TunnelServices], of which no law is needed, implemented by [ex_services].  [mtu_for_route] counts
    down from the code's own [RECURSION_LIMIT].
    The [resolv_conf] crate is the class [ResolvConf] with the laws [ResolvConfLaws], and the services that can
    manage name servers are the class [DnsServices]; both have instances in [DnsRefine].
    How addresses, networks, identifiers and durations are written and read is the class [Formats], dates are the
    class [Dates] and paths the class [Paths], with the laws [FormatsLaws] and [DatesLaws];
    instances are in [ClientCalls].  What is around the service is the record [Outside]: whether the daemon's channel is
    open, what each command is answered, and whether a log filter is accepted.
    ** What is not modelled

    Other operating systems; the front ends and installers; gRPC as a transport, the start and end of its server, and
    its streams of log messages and upgrade events; D-Bus services;
    WireGuard itself, its devices and key handling; serialization of types, but for the fields it skips.
    Of the selector, bridges and the locks around its configuration; of the transports, setting up a
    connection and those that only call other crates; of updates, the downloads and the tool that signs. *)

From stdpp Require Import base list strings option numbers.
From stdpp Require Import relations sets.

(** ** Results of fallible code

    Rust's [Result<T, E>].  A computation that returns early with [?] is a chain of [bind]s. *)
Inductive result (A E : Type) : Type :=
| Ok (a : A)
| Err (e : E).
Arguments Ok {A E} a.
Arguments Err {A E} e.

Definition bind_result {A B E} (r : result A E) (k : A -> result B E) : result B E :=
  match r with
  | Ok a => k a
  | Err e => Err e
  end.

Definition is_ok {A E} (r : result A E) : bool :=
  match r with Ok _ => true | Err _ => false end.

(** [Result::ok] and [Result::err]. *)
Definition result_ok {A E} (r : result A E) : option A :=
  match r with Ok a => Some a | Err _ => None end.

Definition result_err {A E} (r : result A E) : option E :=
  match r with Ok _ => None | Err e => Some e end.

Definition map_err {A E F} (f : E -> F) (r : result A E) : result A F :=
  match r with Ok a => Ok a | Err e => Err (f e) end.

Declare Scope vpn_scope.
Delimit Scope vpn_scope with vpn.

Notation "x <-? c ; k" := (bind_result c (fun x => k))
  (at level 100, c at next level, right associativity) : vpn_scope.
Notation "c ;? k" := (bind_result c (fun _ => k))
  (at level 100, right associativity) : vpn_scope.

#[global] Instance result_eq_dec {A E} `{EqDecision A} `{EqDecision E} : EqDecision (result A E).
Proof. solve_decision. Defined.

(** [bind_result] succeeds exactly when both of its halves do. *)
Lemma bind_result_Ok {A B E} (r : result A E) (k : A -> result B E) (b : B) :
  bind_result r k = Ok b <-> exists a, r = Ok a /\ k a = Ok b.
Proof. destruct r; simpl; naive_solver. Qed.

(** Like [injection], without reducing the values. *)
Lemma Ok_inj {A E} (a b : A) : @Ok A E a = Ok b -> a = b.
Proof. by intros [=]. Qed.

Lemma bind_result_Err {A B E} (r : result A E) (k : A -> result B E) (e : E) :
  bind_result r k = Err e <-> r = Err e \/ exists a, r = Ok a /\ k a = Err e.
Proof. destruct r; simpl; naive_solver. Qed.

(** ** Machine integers

    A [u32] is a [Z] in [0 .. 2^32).  The release profile compiles [+] without overflow checks, so
    an addition wraps. *)
Definition u32_max : Z := 2 ^ 32 - 1.
Definition u32_add (a b : Z) : Z := (a + b) mod 2 ^ 32.
Definition is_u32 (z : Z) : Prop := (0 <= z < 2 ^ 32)%Z.

Lemma u32_add_range a b : is_u32 (u32_add a b).
Proof. unfold is_u32, u32_add. apply Z.mod_pos_bound. lia. Qed.

Lemma u32_add_small a b : (0 <= a -> 0 <= b -> a + b < 2 ^ 32 -> u32_add a b = a + b)%Z.
Proof. intros. unfold u32_add. apply Z.mod_small. lia. Qed.

(** ** Booleans, options and lists shared by the components *)
Lemma eqb_decide (a b : Z) : (a =? b)%Z = bool_decide (a = b).
Proof. destruct (Z.eqb_spec a b); [by rewrite bool_decide_eq_true_2 | by rewrite bool_decide_eq_false_2]. Qed.

Lemma existsb_app {A} (f : A -> bool) (l k : list A) :
  existsb f (l ++ k) = existsb f l || existsb f k.
Proof. apply List.existsb_app. Qed.

Lemma existsb_map {A B} (f : B -> bool) (g : A -> B) (l : list A) :
  existsb f (map g l) = existsb (fun a => f (g a)) l.
Proof. induction l as [|a l IH]; simpl; [done | by rewrite IH]. Qed.

Lemma existsb_false {A} (f : A -> bool) (l : list A) :
  (forall a, a ∈ l -> f a = false) -> existsb f l = false.
Proof.
  induction l as [|a l IH]; simpl; intros Hf; [done|].
  rewrite Hf by set_solver. apply IH. set_solver.
Qed.

Lemma filter_nil_iff {A} (f : A -> bool) (l : list A) :
  List.filter f l = [] <-> forall a, a ∈ l -> f a = false.
Proof.
  induction l as [|a l IH]; simpl; [set_solver|].
  destruct (f a) eqn:E; [split; [done|]; intros H; by rewrite H in E by set_solver|].
  rewrite IH. set_solver.
Qed.

Lemma omap_concat_map {A B C} (f : B -> option C) (g : A -> list B) (l : list A) :
  omap f (concat (map g l)) = concat (map (fun a => omap f (g a)) l).
Proof. induction l as [|a l IH]; simpl; [done|]. by rewrite omap_app, IH. Qed.

(** ** Automation

    [destruct_match] splits on the innermost match of the goal; [solve_cases] finishes the case
    analyses the handlers of the components produce. *)
Ltac destruct_match :=
  match goal with
  | |- context [match ?x with _ => _ end] =>
      lazymatch x with
      | context [match _ with _ => _ end] => fail
      | _ => destruct x eqn:?
      end
  end.

Ltac destruct_match_in H :=
  match type of H with
  | context [match ?x with _ => _ end] =>
      lazymatch x with
      | context [match _ with _ => _ end] => fail
      | _ => destruct x eqn:?
      end
  end.

Ltac solve_cases := repeat (destruct_match; simplify_eq/=; try done).

Create HintDb vpn.
#[export] Hint Resolve u32_add_range : vpn.
