(* ===== verification/NetTypes.v ===== *)
(** * Network types shared by the tunnel state machine and the firewall

    The types of [src/talpid-types/src/net/] on Linux: IP and socket addresses, endpoints, the
    clients and tunnel traffic a policy allows, host connectivity, obfuscation configurations and
    the parameters a tunnel is started with, with the methods the state machine calls on them.

    An IPv4 address is a [Z] in [0 .. 2^32), an IPv6 address a [Z] in [0 .. 2^128), both in network
    order (the first octet is the most significant byte). *)

From stdpp Require Import base list strings option numbers sets sorting.
From S2P Require Import Prelude.

(** ** Addresses *)
Inductive IpAddr : Type :=
| V4 (a : Z)
| V6 (a : Z).

(** [Ipv4Addr::new(a, b, c, d)] and [Ipv6Addr::new(a, .., h)]. *)
Definition Ipv4Addr_new (a b c d : Z) : Z :=
  Z.lor (Z.shiftl a 24) (Z.lor (Z.shiftl b 16) (Z.lor (Z.shiftl c 8) d)).

Definition Ipv6Addr_new (a b c d e f g h : Z) : Z :=
  Z.lor (Z.shiftl a 112) (Z.lor (Z.shiftl b 96) (Z.lor (Z.shiftl c 80) (Z.lor (Z.shiftl d 64)
    (Z.lor (Z.shiftl e 48) (Z.lor (Z.shiftl f 32) (Z.lor (Z.shiftl g 16) h)))))).

Definition Ipv4Addr_BROADCAST : Z := Ipv4Addr_new 255 255 255 255.

#[global] Instance IpAddr_eq_dec : EqDecision IpAddr.
Proof. solve_decision. Defined.

Definition is_ipv4 (ip : IpAddr) : bool := match ip with V4 _ => true | V6 _ => false end.

(** [SocketAddr::new(ip, port)]: the flow label and the scope id of an IPv6 socket address are 0. *)
Record SocketAddr : Type := { sa_ip : IpAddr; sa_port : Z }.

#[global] Instance SocketAddr_eq_dec : EqDecision SocketAddr.
Proof. solve_decision. Defined.

Inductive IpVersion : Type := IpVersion_V4 | IpVersion_V6.

#[global] Instance IpVersion_eq_dec : EqDecision IpVersion.
Proof. solve_decision. Defined.

Definition IpVersion_from (value : IpAddr) : IpVersion :=
  match value with
  | V4 _ => IpVersion_V4
  | V6 _ => IpVersion_V6
  end.

Inductive TransportProtocol : Type := Udp | Tcp.

#[global] Instance TransportProtocol_eq_dec : EqDecision TransportProtocol.
Proof. solve_decision. Defined.

Record Endpoint : Type := { address : SocketAddr; protocol : TransportProtocol }.

#[global] Instance Endpoint_eq_dec : EqDecision Endpoint.
Proof. solve_decision. Defined.

Definition Endpoint_new (ip : IpAddr) (port : Z) (proto : TransportProtocol) : Endpoint :=
  {| address := {| sa_ip := ip; sa_port := port |}; protocol := proto |}.

(** ** The derived orders

    [#[derive(PartialOrd, Ord)]]: the variants of an enum in declaration order, the fields of a
    struct lexicographically. *)
Definition lexico (c d : comparison) : comparison :=
  match c with Eq => d | _ => c end.

Definition IpAddr_cmp (x y : IpAddr) : comparison :=
  match x, y with
  | V4 a, V4 b => (a ?= b)%Z
  | V4 _, V6 _ => Lt
  | V6 _, V4 _ => Gt
  | V6 a, V6 b => (a ?= b)%Z
  end.

Definition SocketAddr_cmp (x y : SocketAddr) : comparison :=
  lexico (IpAddr_cmp (sa_ip x) (sa_ip y)) (sa_port x ?= sa_port y)%Z.

Definition TransportProtocol_cmp (x y : TransportProtocol) : comparison :=
  match x, y with
  | Udp, Udp => Eq
  | Udp, Tcp => Lt
  | Tcp, Udp => Gt
  | Tcp, Tcp => Eq
  end.

Definition Endpoint_cmp (x y : Endpoint) : comparison :=
  lexico (SocketAddr_cmp (address x) (address y)) (TransportProtocol_cmp (protocol x) (protocol y)).

Definition Endpoint_leb (x y : Endpoint) : bool :=
  match Endpoint_cmp x y with Gt => false | _ => true end.

(** ** Who and what a policy lets through *)
Inductive AllowedClients : Type := Root | AllClients.

Definition allow_all (c : AllowedClients) : bool :=
  match c with AllClients => true | Root => false end.

#[global] Instance AllowedClients_eq_dec : EqDecision AllowedClients.
Proof. solve_decision. Defined.

Record AllowedEndpoint : Type := { ae_endpoint : Endpoint; clients : AllowedClients }.

#[global] Instance AllowedEndpoint_eq_dec : EqDecision AllowedEndpoint.
Proof. solve_decision. Defined.

Inductive AllowedTunnelTraffic : Type :=
| TrafficNone
| TrafficAll
| TrafficOne (e : Endpoint)
| TrafficTwo (e1 e2 : Endpoint).

#[global] Instance AllowedTunnelTraffic_eq_dec : EqDecision AllowedTunnelTraffic.
Proof. solve_decision. Defined.

(** ** Connectivity of the host *)
Inductive IpAvailability : Type := AvailIpv4 | AvailIpv6 | AvailIpv4AndIpv6.

Definition IpAvailability_default : IpAvailability := AvailIpv4.

Definition IpAvailability_has_ipv4 (a : IpAvailability) : bool :=
  match a with AvailIpv4 | AvailIpv4AndIpv6 => true | _ => false end.

Definition IpAvailability_has_ipv6 (a : IpAvailability) : bool :=
  match a with AvailIpv6 | AvailIpv4AndIpv6 => true | _ => false end.

Inductive Connectivity : Type :=
| Offline
| PresumeOnline
| Online (a : IpAvailability).

#[global] Instance IpAvailability_eq_dec : EqDecision IpAvailability.
Proof. solve_decision. Defined.
#[global] Instance Connectivity_eq_dec : EqDecision Connectivity.
Proof. solve_decision. Defined.

Definition is_offline (c : Connectivity) : bool := bool_decide (c = Offline).
Definition is_online (c : Connectivity) : bool := negb (is_offline c).

Definition availability (c : Connectivity) : option IpAvailability :=
  match c with
  | Online a => Some a
  | PresumeOnline => Some IpAvailability_default
  | Offline => None
  end.

Definition has_ipv4 (c : Connectivity) : bool :=
  default false (IpAvailability_has_ipv4 <$> availability c).

Definition has_ipv6 (c : Connectivity) : bool :=
  default false (IpAvailability_has_ipv6 <$> availability c).

Definition has_family (c : Connectivity) (v : IpVersion) : bool :=
  match v with
  | IpVersion_V4 => has_ipv4 c
  | IpVersion_V6 => has_ipv6 c
  end.

Definition Connectivity_new (ipv4 ipv6 : bool) : Connectivity :=
  match ipv4, ipv6 with
  | true, true => Online AvailIpv4AndIpv6
  | true, false => Online AvailIpv4
  | false, true => Online AvailIpv6
  | false, false => Offline
  end.

(** ** Obfuscation *)
Inductive ObfuscatorConfig : Type :=
| Udp2Tcp (endpoint : SocketAddr)
| Shadowsocks (endpoint : SocketAddr)
| Quic (hostname : string) (endpoint : SocketAddr) (auth_token : string)
| Lwo (endpoint : SocketAddr).

Inductive Obfuscators : Type :=
| Single (c : ObfuscatorConfig)
| Multiplexer (direct : option SocketAddr) (first : ObfuscatorConfig)
    (remaining : list ObfuscatorConfig).

Definition ObfuscatorConfig_endpoint (c : ObfuscatorConfig) : Endpoint :=
  match c with
  | Udp2Tcp e => {| address := e; protocol := Tcp |}
  | Shadowsocks e => {| address := e; protocol := Udp |}
  | Quic _ e _ => {| address := e; protocol := Udp |}
  | Lwo e => {| address := e; protocol := Udp |}
  end.

Definition multiplexer (direct : option SocketAddr) (obfuscators : list ObfuscatorConfig)
  : option Obfuscators :=
  match obfuscators with
  | [] => None
  | first :: remaining => Some (Multiplexer direct first remaining)
  end.

(** [slice::sort] is a stable sort, [Vec::dedup] drops an element equal to the one kept before it. *)
Fixpoint sort_insert (e : Endpoint) (l : list Endpoint) : list Endpoint :=
  match l with
  | [] => [e]
  | x :: r => if Endpoint_leb e x then e :: l else x :: sort_insert e r
  end.

Definition sort_endpoints (l : list Endpoint) : list Endpoint := foldr sort_insert [] l.

Fixpoint dedup_from (last : Endpoint) (l : list Endpoint) : list Endpoint :=
  match l with
  | [] => []
  | x :: r => if decide (x = last) then dedup_from last r else x :: dedup_from x r
  end.

Definition dedup (l : list Endpoint) : list Endpoint :=
  match l with
  | [] => []
  | x :: r => x :: dedup_from x r
  end.

Definition Obfuscators_endpoints (o : Obfuscators) : list Endpoint :=
  match o with
  | Single config => [ObfuscatorConfig_endpoint config]
  | Multiplexer direct first_config remaining_configs =>
      let endpoints :=
        match direct with
        | Some d => [{| address := d; protocol := Udp |}]
        | None => []
        end in
      let endpoints := endpoints ++ [ObfuscatorConfig_endpoint first_config] in
      let endpoints := endpoints ++ map ObfuscatorConfig_endpoint remaining_configs in
      dedup (sort_endpoints endpoints)
  end.

Inductive ObfuscationType : Type := TypeUdp2Tcp | TypeShadowsocks | TypeQuic | TypeLwo.

Record ObfuscationEndpoint : Type :=
  { oe_endpoint : Endpoint; obfuscation_type : ObfuscationType }.

Definition ObfuscationEndpoint_from (config : ObfuscatorConfig) : ObfuscationEndpoint :=
  {| oe_endpoint := ObfuscatorConfig_endpoint config;
     obfuscation_type :=
       match config with
       | Udp2Tcp _ => TypeUdp2Tcp
       | Shadowsocks _ => TypeShadowsocks
       | Quic _ _ _ => TypeQuic
       | Lwo _ => TypeLwo
       end |}.

Inductive ObfuscationInfo : Type :=
| InfoSingle (e : ObfuscationEndpoint)
| InfoMultiplexer (direct : option Endpoint) (obfuscators : list ObfuscationEndpoint).

Definition ObfuscationInfo_from (config : Obfuscators) : ObfuscationInfo :=
  match config with
  | Multiplexer direct first_obfs remaining_obfs =>
      InfoMultiplexer ((fun d => {| address := d; protocol := Udp |}) <$> direct)
        (map ObfuscationEndpoint_from (first_obfs :: remaining_obfs))
  | Single obfs => InfoSingle (ObfuscationEndpoint_from obfs)
  end.

Definition get_endpoints (i : ObfuscationInfo) : list Endpoint :=
  match i with
  | InfoSingle ep => [oe_endpoint ep]
  | InfoMultiplexer direct obfuscators =>
      let v := match direct with Some d => [d] | None => [] end in
      v ++ map oe_endpoint obfuscators
  end.

(** ** Networks

    [ipnetwork::IpNetwork] is an address with a prefix length. *)
Record IpNetwork : Type := { net_ip : IpAddr; net_prefix : Z }.

(** ** Tunnel parameters

    Keys are opaque byte strings. *)
Record PeerConfig : Type := {
  public_key : string;
  allowed_ips : list IpNetwork;
  peer_endpoint : SocketAddr;
  psk : option string;
  constant_packet_size : bool;
}.

Record TunnelConfig : Type := { private_key : string; addresses : list IpAddr }.

Record ConnectionConfig : Type := {
  cc_tunnel : TunnelConfig;
  peer : PeerConfig;
  exit_peer : option PeerConfig;
  cc_ipv4_gateway : Z;
  cc_ipv6_gateway : option Z;
  cc_fwmark : option Z;
}.

Record TunnelOptions : Type := {
  mtu : option Z;
  quantum_resistant : bool;
  daita : bool;
  userspace : bool;
}.

Record GenericTunnelOptions : Type := { enable_ipv6 : bool }.

Record TunnelParameters : Type := {
  connection : ConnectionConfig;
  options : TunnelOptions;
  generic_options : GenericTunnelOptions;
  obfuscation : option Obfuscators;
}.

Definition get_endpoint (c : ConnectionConfig) : Endpoint :=
  {| address := peer_endpoint (peer c); protocol := Udp |}.

Definition get_exit_endpoint (c : ConnectionConfig) : option Endpoint :=
  (fun p => {| address := peer_endpoint p; protocol := Udp |}) <$> exit_peer c.

Definition get_next_hop_endpoints (p : TunnelParameters) : list Endpoint :=
  match obfuscation p with
  | Some proxy => Obfuscators_endpoints proxy
  | None => [get_endpoint (connection p)]
  end.

Record TunnelEndpoint : Type := {
  te_endpoint : Endpoint;
  te_quantum_resistant : bool;
  te_obfuscation : option ObfuscationInfo;
  entry_endpoint : option Endpoint;
  tunnel_interface : option string;
  te_daita : bool;
}.

Definition get_tunnel_endpoint (p : TunnelParameters) : TunnelEndpoint :=
  {| te_quantum_resistant := quantum_resistant (options p);
     te_endpoint :=
       match get_exit_endpoint (connection p) with
       | Some e => e
       | None => get_endpoint (connection p)
       end;
     te_obfuscation := ObfuscationInfo_from <$> obfuscation p;
     entry_endpoint :=
       (fun _ => get_endpoint (connection p)) <$> get_exit_endpoint (connection p);
     tunnel_interface := None;
     te_daita := daita (options p) |}.

(** What the code relies on of the [ipnetwork] crate: [mask] is the netmask of the prefix and
    [contains] compares the masked addresses within one family. *)
Definition addr_bits (ip : IpAddr) : Z := match ip with V4 _ => 32 | V6 _ => 128 end.

Definition addr_value (ip : IpAddr) : Z := match ip with V4 a | V6 a => a end.

Class IpNetworkOps : Type := {
  net_mask : IpNetwork -> Z;
  net_contains : IpNetwork -> IpAddr -> bool;
}.

Class IpNetworkLaws (O : IpNetworkOps) : Prop := {
  net_mask_spec n :
    (0 <= net_prefix n <= addr_bits (net_ip n))%Z ->
    net_mask n
    = Z.shiftl (Z.ones (net_prefix n)) (addr_bits (net_ip n) - net_prefix n);
  net_contains_spec n ip :
    net_contains n ip
    = bool_decide (IpVersion_from (net_ip n) = IpVersion_from ip)
      && (Z.land (addr_value ip) (net_mask n) =? Z.land (addr_value (net_ip n)) (net_mask n))%Z;
}.

Definition v4 (a : Z) (prefix : Z) : IpNetwork := {| net_ip := V4 a; net_prefix := prefix |}.
Definition v6 (a : Z) (prefix : Z) : IpNetwork := {| net_ip := V6 a; net_prefix := prefix |}.

Definition ALLOWED_LAN_NETS : list IpNetwork :=
  [v4 (Ipv4Addr_new 10 0 0 0) 8;
   v4 (Ipv4Addr_new 172 16 0 0) 12;
   v4 (Ipv4Addr_new 192 168 0 0) 16;
   v4 (Ipv4Addr_new 169 254 0 0) 16;
   v6 (Ipv6Addr_new 0xfe80 0 0 0 0 0 0 0) 10;
   v6 (Ipv6Addr_new 0xfc00 0 0 0 0 0 0 0) 7].

Definition ALLOWED_LAN_MULTICAST_NETS : list IpNetwork :=
  [v4 (Ipv4Addr_new 255 255 255 255) 32;
   v4 (Ipv4Addr_new 224 0 0 0) 24;
   v4 (Ipv4Addr_new 239 0 0 0) 8;
   v6 (Ipv6Addr_new 0xff01 0 0 0 0 0 0 0) 16;
   v6 (Ipv6Addr_new 0xff02 0 0 0 0 0 0 0) 16;
   v6 (Ipv6Addr_new 0xff03 0 0 0 0 0 0 0) 16;
   v6 (Ipv6Addr_new 0xff04 0 0 0 0 0 0 0) 16;
   v6 (Ipv6Addr_new 0xff05 0 0 0 0 0 0 0) 16].

(** ** The order on endpoints is a total order *)
Lemma lexico_Eq c d : lexico c d = Eq <-> c = Eq /\ d = Eq.
Proof. destruct c; simpl; naive_solver. Qed.

Lemma IpAddr_cmp_Eq x y : IpAddr_cmp x y = Eq <-> x = y.
Proof. destruct x, y; simpl; rewrite ?Z.compare_eq_iff; naive_solver. Qed.

Lemma SocketAddr_cmp_Eq x y : SocketAddr_cmp x y = Eq <-> x = y.
Proof.
  unfold SocketAddr_cmp. rewrite lexico_Eq, IpAddr_cmp_Eq, Z.compare_eq_iff.
  destruct x, y; simpl; naive_solver.
Qed.

Lemma TransportProtocol_cmp_Eq x y : TransportProtocol_cmp x y = Eq <-> x = y.
Proof. destruct x, y; simpl; naive_solver. Qed.

Lemma Endpoint_cmp_Eq x y : Endpoint_cmp x y = Eq <-> x = y.
Proof.
  unfold Endpoint_cmp. rewrite lexico_Eq, SocketAddr_cmp_Eq, TransportProtocol_cmp_Eq.
  destruct x, y; simpl; naive_solver.
Qed.

(** A comparison that is antisymmetric and whose [Lt] is transitive; the lexicographic combination
    of two such comparisons is one. *)
Definition cmp_antisym {A} (f : A -> A -> comparison) : Prop :=
  forall x y, f y x = CompOpp (f x y).

Definition cmp_trans {A} (f : A -> A -> comparison) : Prop :=
  forall x y z, f x y = Lt -> f y z = Lt -> f x z = Lt.

Definition cmp_eq {A} (f : A -> A -> comparison) : Prop :=
  forall x y, f x y = Eq -> x = y.

Lemma lexico_antisym c d c' d' :
  c' = CompOpp c -> d' = CompOpp d -> lexico c' d' = CompOpp (lexico c d).
Proof. intros -> ->. by destruct c. Qed.

Lemma lexico_trans {A B C} (f : A -> A -> comparison) (g : B -> B -> comparison)
    (pa : C -> A) (pb : C -> B) :
  cmp_trans f -> cmp_eq f -> cmp_trans g ->
  cmp_trans (fun x y => lexico (f (pa x) (pa y)) (g (pb x) (pb y))).
Proof.
  intros Hf He Hg x y z.
  destruct (f (pa x) (pa y)) eqn:E1, (f (pa y) (pa z)) eqn:E2; simpl; try done.
  - apply He in E1 as ->. rewrite E2. simpl. apply Hg.
  - apply He in E1 as ->. by rewrite E2.
  - apply He in E2 as <-. by rewrite E1.
  - by rewrite (Hf _ _ _ E1 E2).
Qed.

Lemma Z_cmp_trans : cmp_trans Z.compare.
Proof. intros x y z. rewrite !Z.compare_lt_iff. lia. Qed.

Lemma IpAddr_cmp_antisym : cmp_antisym IpAddr_cmp.
Proof. intros [a|a] [b|b]; simpl; [apply Z.compare_antisym | done | done | apply Z.compare_antisym]. Qed.

Lemma IpAddr_cmp_trans : cmp_trans IpAddr_cmp.
Proof. intros [] [] []; simpl; try done; apply Z_cmp_trans. Qed.

Lemma Endpoint_cmp_antisym : cmp_antisym Endpoint_cmp.
Proof.
  intros x y. apply lexico_antisym; [apply lexico_antisym|].
  - apply IpAddr_cmp_antisym.
  - apply Z.compare_antisym.
  - by destruct (protocol x), (protocol y).
Qed.

Lemma Endpoint_cmp_trans : cmp_trans Endpoint_cmp.
Proof.
  apply (lexico_trans SocketAddr_cmp TransportProtocol_cmp address protocol).
  - apply (lexico_trans IpAddr_cmp Z.compare sa_ip sa_port);
      [apply IpAddr_cmp_trans | by intros ?? ?%IpAddr_cmp_Eq | apply Z_cmp_trans].
  - by intros ?? ?%SocketAddr_cmp_Eq.
  - by intros [] [] [].
Qed.

Definition Endpoint_lt (x y : Endpoint) : Prop := Endpoint_cmp x y = Lt.

Lemma Endpoint_leb_spec x y : Endpoint_leb x y = true <-> x = y \/ Endpoint_lt x y.
Proof.
  unfold Endpoint_leb, Endpoint_lt. rewrite <- Endpoint_cmp_Eq.
  destruct (Endpoint_cmp x y); naive_solver.
Qed.

Lemma Endpoint_leb_false x y : Endpoint_leb x y = false -> Endpoint_lt y x.
Proof.
  unfold Endpoint_leb, Endpoint_lt. rewrite (Endpoint_cmp_antisym x y).
  by destruct (Endpoint_cmp x y).
Qed.

Lemma Endpoint_lt_irrefl x : ~ Endpoint_lt x x.
Proof. unfold Endpoint_lt. by rewrite (proj2 (Endpoint_cmp_Eq x x) eq_refl). Qed.

Definition Endpoint_le (x y : Endpoint) : Prop := x = y \/ Endpoint_lt x y.

Lemma Endpoint_le_trans x y z : Endpoint_le x y -> Endpoint_le y z -> Endpoint_le x z.
Proof.
  unfold Endpoint_le, Endpoint_lt. intros [->|H1] [->|H2]; auto. right. by eapply Endpoint_cmp_trans.
Qed.

Lemma Endpoint_le_lt_trans x y z : Endpoint_le x y -> Endpoint_lt y z -> Endpoint_lt x z.
Proof. intros [->|H1] H2; [done|]. by eapply Endpoint_cmp_trans. Qed.

(** ** Sorting and deduplicating the endpoints of a multiplexer *)
Lemma elem_of_sort_insert x e l : x ∈ sort_insert e l <-> x = e \/ x ∈ l.
Proof.
  induction l as [|a l IH]; simpl; [set_solver|].
  destruct (Endpoint_leb e a); set_solver.
Qed.

Lemma elem_of_sort_endpoints x l : x ∈ sort_endpoints l <-> x ∈ l.
Proof. induction l as [|a l IH]; simpl; [done|]. rewrite elem_of_sort_insert. set_solver. Qed.

Lemma sort_insert_sorted e l :
  StronglySorted Endpoint_le l -> StronglySorted Endpoint_le (sort_insert e l).
Proof.
  induction 1 as [|a l Hs IH Ha]; simpl; [repeat constructor|].
  destruct (Endpoint_leb e a) eqn:E.
  - apply Endpoint_leb_spec in E. constructor; [by constructor|].
    constructor; [done|]. eapply Forall_impl; [done|]. intros y Hy. by eapply Endpoint_le_trans.
  - apply Endpoint_leb_false in E. constructor; [done|].
    apply Forall_forall. intros y [->|Hy]%elem_of_sort_insert; [by right|].
    by eapply Forall_forall in Ha.
Qed.

Lemma sort_endpoints_sorted l : StronglySorted Endpoint_le (sort_endpoints l).
Proof. induction l; simpl; [constructor | by apply sort_insert_sorted]. Qed.

Lemma elem_of_dedup_from x last l :
  x = last \/ x ∈ dedup_from last l <-> x = last \/ x ∈ l.
Proof.
  revert last. induction l as [|a l IH]; intros last; simpl; [done|].
  case_decide as E; [subst; rewrite IH; set_solver|].
  rewrite !elem_of_cons, IH. set_solver.
Qed.

Lemma elem_of_dedup x l : x ∈ dedup l <-> x ∈ l.
Proof. destruct l; simpl; [done|]. rewrite !elem_of_cons. apply elem_of_dedup_from. Qed.

Lemma dedup_from_sorted last l :
  Forall (Endpoint_le last) l -> StronglySorted Endpoint_le l ->
  StronglySorted Endpoint_lt (last :: dedup_from last l).
Proof.
  revert last. induction l as [|a l IH]; intros last Hall Hs; simpl; [repeat constructor|].
  inversion Hs as [|?? Hs' Ha]; subst. inversion Hall as [|?? Hla Hall']; subst.
  case_decide as E; [by apply IH|].
  destruct Hla as [->|Hlt]; [done|].
  specialize (IH a Ha Hs') as IH'. constructor; [done|].
  inversion IH' as [|?? ? Hf]; subst. constructor; [done|].
  eapply Forall_impl; [exact Hf|]. intros y Hy. by eapply Endpoint_cmp_trans.
Qed.

Lemma dedup_sorted l : StronglySorted Endpoint_le l -> StronglySorted Endpoint_lt (dedup l).
Proof. destruct 1; simpl; [constructor | by apply dedup_from_sorted]. Qed.

Lemma StronglySorted_lt_NoDup l : StronglySorted Endpoint_lt l -> NoDup l.
Proof.
  induction 1 as [|a l Hs IH Ha]; constructor; [|done].
  intros Hin. eapply Forall_forall in Hin; [|exact Ha]. by eapply Endpoint_lt_irrefl.
Qed.

(** [Obfuscators::endpoints] of a multiplexer returns every endpoint the multiplexer may connect
    to (the direct one, the first and the remaining configurations), each exactly once and in
    increasing order. *)
Theorem multiplexer_endpoints_exact direct first remaining :
  let eps := Obfuscators_endpoints (Multiplexer direct first remaining) in
  StronglySorted Endpoint_lt eps /\ NoDup eps /\
  forall e, e ∈ eps <->
    direct = Some (address e) /\ protocol e = Udp
    \/ exists c, c ∈ first :: remaining /\ e = ObfuscatorConfig_endpoint c.
Proof.
  intros eps. assert (StronglySorted Endpoint_lt eps) as Hs.
  { apply dedup_sorted, sort_endpoints_sorted. }
  split; [done|]. split; [by apply StronglySorted_lt_NoDup|]. intros e. subst eps. simpl.
  rewrite elem_of_dedup, elem_of_sort_endpoints, !elem_of_app, list_elem_of_singleton, list_elem_of_fmap.
  destruct e as [a p], direct; simpl; set_solver.
Qed.
