(* ===== verification/TunnelTypes.v ===== *)
(** * Tunnel events, transitions and DNS configuration

    [src/talpid-types/src/tunnel.rs] (transitions and error causes), [src/talpid-tunnel/src/lib.rs]
    (tunnel metadata and events) and [src/talpid-dns/src/lib.rs] (the DNS configuration and how it
    is resolved against the tunnel's gateways), with the variants Linux has. *)

From stdpp Require Import base list strings option numbers sets.
From S2P Require Import Prelude NetTypes.

(** ** DNS configuration *)
Inductive DnsConfig : Type :=
| DnsDefault
| DnsOverride (tunnel_addrs non_tunnel_addrs : list IpAddr).

#[global] Instance DnsConfig_eq_dec : EqDecision DnsConfig.
Proof. solve_decision. Defined.

Record ResolvedDnsConfig : Type := {
  tunnel_config : list IpAddr;
  non_tunnel_config : list IpAddr;
}.

Definition DnsConfig_from_addresses (tunnel_addrs non_tunnel_addrs : list IpAddr) : DnsConfig :=
  DnsOverride tunnel_addrs non_tunnel_addrs.

Definition DnsConfig_resolve (c : DnsConfig) (default_tun_config : list IpAddr)
  : ResolvedDnsConfig :=
  match c with
  | DnsDefault => {| tunnel_config := default_tun_config; non_tunnel_config := [] |}
  | DnsOverride t n => {| tunnel_config := t; non_tunnel_config := n |}
  end.

Definition dns_addresses (c : ResolvedDnsConfig) : list IpAddr :=
  non_tunnel_config c ++ tunnel_config c.

(** [IpAddr::is_loopback]: 127.0.0.0/8 or ::1. *)
Definition ip_is_loopback (ip : IpAddr) : bool :=
  match ip with
  | V4 a => (Z.shiftr a 24 =? 127)%Z
  | V6 a => (a =? 1)%Z
  end.

Definition dns_is_loopback (c : ResolvedDnsConfig) : bool :=
  let '(loopback_addrs, non_loopback_addrs) :=
    List.partition ip_is_loopback (tunnel_config c ++ non_tunnel_config c) in
  negb (bool_decide (loopback_addrs = [])) && bool_decide (non_loopback_addrs = []).

(** ** Tunnel metadata and events *)
Record TunnelMetadata : Type := {
  interface : string;
  ips : list IpAddr;
  ipv4_gateway : Z;
  ipv6_gateway : option Z;
}.

#[global] Instance TunnelMetadata_eq_dec : EqDecision TunnelMetadata.
Proof. solve_decision. Defined.

Definition gateways (m : TunnelMetadata) : list IpAddr :=
  V4 (ipv4_gateway m) :: match ipv6_gateway m with Some g => [V6 g] | None => [] end.

Inductive TunnelEvent : Type :=
| EvAuthFailed (reason : option string)
| EvInterfaceUp (metadata : TunnelMetadata) (traffic : AllowedTunnelTraffic)
| EvUp (metadata : TunnelMetadata)
| EvDown.

(** ** Error causes and transitions *)
Inductive ParameterGenerationError : Type :=
| NoMatchingRelayEntry
| NoMatchingRelayExit
| NoMatchingRelay
| NoMatchingBridgeRelay
| CustomTunnelHostResolutionError
| IpVersionUnavailable (family : IpVersion).

Inductive FirewallPolicyError : Type := Generic.

Inductive ErrorStateCause : Type :=
| AuthFailed (reason : option string)
| Ipv6Unavailable
| SetFirewallPolicyError (e : FirewallPolicyError)
| SetDnsError
| StartTunnelError
| TunnelParameterError (e : ParameterGenerationError)
| IsOffline.

#[global] Instance ParameterGenerationError_eq_dec : EqDecision ParameterGenerationError.
Proof. solve_decision. Defined.
#[global] Instance FirewallPolicyError_eq_dec : EqDecision FirewallPolicyError.
Proof. solve_decision. Defined.
#[global] Instance ErrorStateCause_eq_dec : EqDecision ErrorStateCause.
Proof. solve_decision. Defined.

Inductive ActionAfterDisconnect : Type := ActionNothing | ActionBlock | ActionReconnect.

(** [talpid_types::tunnel::ErrorState], the payload of an error transition. *)
Record ErrorStateInfo : Type := {
  cause : ErrorStateCause;
  block_failure : option FirewallPolicyError;
}.

Definition is_blocking (e : ErrorStateInfo) : bool :=
  match block_failure e with None => true | Some _ => false end.

Inductive TunnelStateTransition : Type :=
| TrDisconnected (locked_down : bool)
| TrConnecting (e : TunnelEndpoint)
| TrConnected (e : TunnelEndpoint)
| TrDisconnecting (a : ActionAfterDisconnect)
| TrError (e : ErrorStateInfo).

(** [DnsConfig::resolve] with the default configuration sends DNS only to the tunnel's gateways,
    and a custom configuration overrides both address sets; [is_loopback] holds exactly when there
    is an address and every address is a loopback address. *)
Theorem dns_resolve_addresses c m :
  let r := DnsConfig_resolve c (gateways m) in
  (c = DnsDefault -> tunnel_config r = gateways m /\ non_tunnel_config r = []) /\
  (forall t n, c = DnsConfig_from_addresses t n -> tunnel_config r = t /\ non_tunnel_config r = n) /\
  (dns_is_loopback r = true <->
     dns_addresses r <> [] /\ forall ip, ip ∈ dns_addresses r -> ip_is_loopback ip = true).
Proof.
  intros r. split_and!; [by subst r; intros -> | by subst r; intros ?? -> |].
  clearbody r. unfold dns_is_loopback, dns_addresses. rewrite List.partition_as_filter.
  rewrite andb_true_iff, negb_true_iff, bool_decide_eq_false, bool_decide_eq_true.
  rewrite !filter_nil_iff. setoid_rewrite negb_false_iff.
  assert (forall ip, ip ∈ non_tunnel_config r ++ tunnel_config r
                     <-> ip ∈ tunnel_config r ++ non_tunnel_config r) as Heq by set_solver.
  setoid_rewrite Heq. setoid_rewrite app_nil. split.
  - intros [Hex Hall]. split; [|done]. intros [E1 E2]. apply Hex. rewrite E1, E2. set_solver.
  - intros [Hne Hall]. split; [|done]. intros Hf. apply Hne.
    destruct (tunnel_config r) as [|a l], (non_tunnel_config r) as [|b k]; try done;
      [specialize (Hf b); specialize (Hall b) | specialize (Hf a); specialize (Hall a) ..];
      rewrite Hall in Hf by set_solver; discriminate Hf; set_solver.
Qed.
