(* ===== verification/FirewallPolicy.v ===== *)
(** * Firewall policies

    [src/talpid-core/src/firewall/mod.rs]: the policy the state machine asks the firewall to enforce,
    its accessors, and the address constants of the always allowed traffic. *)

From stdpp Require Import base list strings option numbers sets.
From S2P Require Import Prelude NetTypes TunnelTypes.

Inductive FirewallPolicy : Type :=
| Connecting (peer_endpoints : list AllowedEndpoint) (tunnel : option TunnelMetadata)
    (allow_lan : bool) (allowed_endpoint : AllowedEndpoint)
    (allowed_tunnel_traffic : AllowedTunnelTraffic)
| Connected (peer_endpoints : list AllowedEndpoint) (tunnel : TunnelMetadata)
    (allow_lan : bool) (dns_config : ResolvedDnsConfig)
| Blocked (allow_lan : bool) (allowed_endpoint : option AllowedEndpoint).

Definition policy_peer_endpoints (p : FirewallPolicy) : option (list AllowedEndpoint) :=
  match p with
  | Connecting peer_endpoints _ _ _ _ | Connected peer_endpoints _ _ _ => Some peer_endpoints
  | _ => None
  end.

Definition policy_allowed_endpoint (p : FirewallPolicy) : option AllowedEndpoint :=
  match p with
  | Connecting _ _ _ allowed_endpoint _ | Blocked _ (Some allowed_endpoint) =>
      Some allowed_endpoint
  | _ => None
  end.

Definition policy_tunnel (p : FirewallPolicy) : option TunnelMetadata :=
  match p with
  | Connecting _ (Some tunnel) _ _ _ | Connected _ tunnel _ _ => Some tunnel
  | _ => None
  end.

Definition policy_allowed_tunnel_traffic (p : FirewallPolicy) : AllowedTunnelTraffic :=
  match p with
  | Connecting _ _ _ _ allowed_tunnel_traffic => allowed_tunnel_traffic
  | Connected _ _ _ _ => TrafficAll
  | _ => TrafficNone
  end.

Definition policy_allow_lan (p : FirewallPolicy) : bool :=
  match p with
  | Connecting _ _ allow_lan _ _ | Connected _ _ allow_lan _ | Blocked allow_lan _ => allow_lan
  end.

(** ** Constants *)
Definition IPV6_LINK_LOCAL : IpNetwork := v6 (Ipv6Addr_new 0xfe80 0 0 0 0 0 0 0) 10.

Definition DHCPV6_SERVER_ADDRS : list IpAddr :=
  [V6 (Ipv6Addr_new 0xff02 0 0 0 0 0 1 2); V6 (Ipv6Addr_new 0xff05 0 0 0 0 0 1 3)].

Definition ROUTER_SOLICITATION_OUT_DST_ADDR : IpAddr := V6 (Ipv6Addr_new 0xff02 0 0 0 0 0 0 2).

Definition SOLICITED_NODE_MULTICAST : IpNetwork :=
  v6 (Ipv6Addr_new 0xff02 0 0 0 0 1 0xFF00 0) 104.

Definition LOOPBACK_NETS : list IpNetwork :=
  [v4 (Ipv4Addr_new 127 0 0 0) 8; v6 (Ipv6Addr_new 0 0 0 0 0 0 0 1) 128].

Definition DHCPV4_SERVER_PORT : Z := 67.
Definition DHCPV4_CLIENT_PORT : Z := 68.
Definition DHCPV6_SERVER_PORT : Z := 547.
Definition DHCPV6_CLIENT_PORT : Z := 546.
Definition ROOT_UID : Z := 0.

(** [is_local_address]: the address is in a LAN network or a loopback network. *)
Definition is_local_address `{IpNetworkOps} (ip : IpAddr) : bool :=
  existsb (fun net => net_contains net ip) (ALLOWED_LAN_NETS ++ LOOPBACK_NETS).

(** ** The [ipnetwork] interface has an implementation *)
#[export] Instance ipnetwork_reference : IpNetworkOps := {
  net_mask n := Z.shiftl (Z.ones (net_prefix n)) (addr_bits (net_ip n) - net_prefix n);
  net_contains n ip :=
    let m := Z.shiftl (Z.ones (net_prefix n)) (addr_bits (net_ip n) - net_prefix n) in
    bool_decide (IpVersion_from (net_ip n) = IpVersion_from ip)
    && (Z.land (addr_value ip) m =? Z.land (addr_value (net_ip n)) m)%Z;
}.

#[export] Instance ipnetwork_reference_laws : IpNetworkLaws ipnetwork_reference.
Proof. by split. Qed.

(** Membership in a network is agreement on the leading [prefix] bits. *)
Lemma land_mask_eq (bits prefix a b : Z) :
  (0 <= prefix <= bits)%Z -> (0 <= a < 2 ^ bits)%Z -> (0 <= b < 2 ^ bits)%Z ->
  Z.land a (Z.shiftl (Z.ones prefix) (bits - prefix))
  = Z.land b (Z.shiftl (Z.ones prefix) (bits - prefix))
  <-> (a / 2 ^ (bits - prefix) = b / 2 ^ (bits - prefix))%Z.
Proof.
  intros Hp Ha Hb. rewrite <- !Z.shiftr_div_pow2 by lia.
  assert (forall c, 0 <= c < 2 ^ bits ->
    Z.land c (Z.shiftl (Z.ones prefix) (bits - prefix))
    = Z.shiftl (Z.shiftr c (bits - prefix)) (bits - prefix))%Z as Hc.
  { intros c Hc. apply Z.bits_inj'. intros i Hi.
    rewrite Z.land_spec.
    destruct (Z.ltb_spec i (bits - prefix)).
    - rewrite !Z.shiftl_spec_low by lia. by rewrite andb_false_r.
    - rewrite !Z.shiftl_spec, Z.shiftr_spec by lia.
      destruct (Z.ltb_spec i bits).
      + rewrite Z.ones_spec_low by lia. rewrite andb_true_r. f_equal. lia.
      + rewrite Z.ones_spec_high by lia. rewrite andb_false_r. symmetry.
        replace (i - (bits - prefix) + (bits - prefix))%Z with i by lia.
        destruct (decide (c = 0)%Z) as [->|]; [by rewrite Z.bits_0|].
        apply Z.bits_above_log2; [lia|]. apply Z.log2_lt_pow2; [lia|].
        eapply Z.lt_le_trans; [apply Hc|]. apply Z.pow_le_mono_r; lia. }
  rewrite !Hc by done. split; [|by intros ->].
  intros E. apply (f_equal (fun z => Z.shiftr z (bits - prefix))) in E.
  by rewrite !Z.shiftr_shiftl_l, Z.sub_diag, !Z.shiftl_0_r in E by lia.
Qed.

Section local_addresses.
Context `{O : IpNetworkOps} {L : IpNetworkLaws O}.

Lemma contains_v4 base prefix a :
  (0 <= prefix <= 32)%Z -> (0 <= base < 2 ^ 32)%Z -> (0 <= a < 2 ^ 32)%Z ->
  net_contains (v4 base prefix) (V4 a) = true
  <-> (a / 2 ^ (32 - prefix) = base / 2 ^ (32 - prefix))%Z.
Proof.
  intros Hp Hb Ha. rewrite net_contains_spec, net_mask_spec by done. simpl.
  rewrite Z.eqb_eq. by apply land_mask_eq.
Qed.

Lemma contains_v6_v4 base prefix a : net_contains (v6 base prefix) (V4 a) = false.
Proof. by rewrite net_contains_spec. Qed.

(** [is_local_address] on IPv4: exactly 10/8, 172.16/12, 192.168/16, 169.254/16 and 127/8, as
    conditions on the leading octets. *)
Theorem is_local_address_v4 a b c d :
  (0 <= a < 256)%Z -> (0 <= b < 256)%Z -> (0 <= c < 256)%Z -> (0 <= d < 256)%Z ->
  is_local_address (V4 (a * 2 ^ 24 + b * 2 ^ 16 + c * 2 ^ 8 + d)) = true
  <-> (a = 10 \/ (a = 172 /\ 16 <= b < 32) \/ (a = 192 /\ b = 168) \/ (a = 169 /\ b = 254)
       \/ a = 127)%Z.
Proof.
  intros Ha Hb Hc Hd. unfold is_local_address, ALLOWED_LAN_NETS, LOOPBACK_NETS. simpl.
  change (Ipv4Addr_new 10 0 0 0) with 167772160%Z.
  change (Ipv4Addr_new 172 16 0 0) with 2886729728%Z.
  change (Ipv4Addr_new 192 168 0 0) with 3232235520%Z.
  change (Ipv4Addr_new 169 254 0 0) with 2851995648%Z.
  change (Ipv4Addr_new 127 0 0 0) with 2130706432%Z.
  rewrite !contains_v6_v4, !orb_true_iff, !contains_v4 by lia.
  simpl Z.pow. Z.to_euclidean_division_equations. split; intros; lia.
Qed.
End local_addresses.

Lemma is_local_address_v4_witness : is_local_address (V4 (Ipv4Addr_new 172 20 1 1)) = true.
Proof. apply (is_local_address_v4 172 20 1 1); lia. Defined.
