(* ===== verification/Nftables.v ===== *)
(** * The nftables interface

    The Linux firewall is built from the messages, chains, rules and expressions of the [nftnl]
    crate and evaluated by the kernel.  Neither is part of the repository: the syntax below is what
    [src/talpid-core/src/firewall/linux.rs] constructs, and the kernel is a parameter, the class
    [Nftables], with the documented behaviour of base chains, rules and expressions as its laws.
    [nft_reference] is an implementation, so the laws can hold. *)

From stdpp Require Import base list strings option numbers sets.
From S2P Require Import Prelude.

(** ** Syntax *)

(** What an expression loads into the register: meta data of the packet, state of its connection
    tracking entry, its socket's cgroup, or a header field. *)
Inductive nft_field : Type :=
| MetaNfproto | MetaL4proto | MetaIif | MetaOif | MetaMark | MetaSkuid | MetaCgroup
| CtState | CtMark
| SocketCgroupv2 (level : Z)
| Ipv4Saddr | Ipv4Daddr | Ipv6Saddr | Ipv6Daddr
| UdpSport | UdpDport | TcpSport | TcpDport
| Icmpv6Type | Icmpv6Code.

#[global] Instance nft_field_eq_dec : EqDecision nft_field.
Proof. solve_decision. Defined.

Inductive RejectionType : Type := RejectIcmpPortUnreach | RejectTcpRst.

Inductive nft_verdict : Type := Accept | Drop | Reject (t : RejectionType).

Inductive nft_expr : Type :=
| Load (f : nft_field)
| Immediate (v : Z)
| CmpEq (v : Z)
| CmpNeq (v : Z)
| Bitwise (mask xor : Z)
| MetaMarkSet
| CtMarkSet
| Counter
| Masquerade
| Verdict (v : nft_verdict).

Definition nft_rule : Type := list nft_expr.

Inductive ProtoFamily : Type := Inet.
Inductive nft_hook : Type := HookPreRouting | HookIn | HookForward | HookOut | HookPostRouting.
Inductive nft_chain_type : Type := TypeFilter | TypeRoute | TypeNat.
Inductive nft_policy : Type := PolicyAccept | PolicyDrop.

(** A chain declaration; a type or policy the code does not set is [None]. *)
Record chain_decl : Type := {
  hook : nft_hook;
  priority : Z;
  chain_type : option nft_chain_type;
  chain_policy : option nft_policy;
}.

Inductive chain_name : Type :=
| PREROUTING_CHAIN | OUT_CHAIN | IN_CHAIN | FORWARD_CHAIN | MANGLE_CHAIN | NAT_CHAIN.

#[global] Instance chain_name_eq_dec : EqDecision chain_name.
Proof. solve_decision. Defined.

Inductive batch_msg : Type :=
| AddTable (table : string)
| DelTable (table : string)
| AddChain (c : chain_name) (d : chain_decl)
| AddRule (c : chain_name) (r : nft_rule).

(** The rules a batch adds to one chain, in the order they are added. *)
Definition rule_of (c : chain_name) (m : batch_msg) : option nft_rule :=
  match m with
  | AddRule c' r => if decide (c' = c) then Some r else None
  | _ => None
  end.

Definition chain_rules (c : chain_name) (b : list batch_msg) : list nft_rule := omap (rule_of c) b.

Definition decl_of (c : chain_name) (m : batch_msg) : option chain_decl :=
  match m with
  | AddChain c' d => if decide (c' = c) then Some d else None
  | _ => None
  end.

(** A base chain whose policy is not set accepts. *)
Definition chain_default (c : chain_name) (b : list batch_msg) : nft_verdict :=
  match chain_policy <$> head (omap (decl_of c) b) with
  | Some (Some PolicyDrop) => Drop
  | _ => Accept
  end.

(** ** The kernel

    A packet is seen through what each load yields: [None] where the packet has no such field (the
    load breaks the rule).  [run_rule] is given the register's contents; it returns a verdict when
    the rule reaches one, and the packet, whose marks the rule may have set. *)
Definition pview : Type := nft_field -> option Z.

Definition set_field (f : nft_field) (v : Z) (p : pview) : pview :=
  fun g => if decide (g = f) then Some v else p g.

Class Nftables : Type := {
  run_rule : nft_rule -> Z -> pview -> option nft_verdict * pview;
  run_chain : list nft_rule -> nft_verdict -> pview -> nft_verdict * pview;
}.

(** The laws, from the nftables manual: expressions are evaluated left to right; a load of an absent
    field or a comparison that fails ends the evaluation of the rule; a verdict statement ends the
    evaluation of the chain; the rules of a chain are evaluated in order and the policy of the base
    chain applies to a packet that reached its end. *)
Class NftablesLaws (N : Nftables) : Prop := {
  run_rule_nil reg p : run_rule [] reg p = (None, p);
  run_rule_load f es reg p :
    run_rule (Load f :: es) reg p
    = match p f with Some v => run_rule es v p | None => (None, p) end;
  run_rule_immediate v es reg p : run_rule (Immediate v :: es) reg p = run_rule es v p;
  run_rule_cmp_eq v es reg p :
    run_rule (CmpEq v :: es) reg p = if (reg =? v)%Z then run_rule es reg p else (None, p);
  run_rule_cmp_neq v es reg p :
    run_rule (CmpNeq v :: es) reg p = if (reg =? v)%Z then (None, p) else run_rule es reg p;
  run_rule_bitwise m x es reg p :
    run_rule (Bitwise m x :: es) reg p = run_rule es (Z.lxor (Z.land reg m) x) p;
  run_rule_meta_mark es reg p :
    run_rule (MetaMarkSet :: es) reg p = run_rule es reg (set_field MetaMark reg p);
  run_rule_ct_mark es reg p :
    run_rule (CtMarkSet :: es) reg p = run_rule es reg (set_field CtMark reg p);
  run_rule_counter es reg p : run_rule (Counter :: es) reg p = run_rule es reg p;
  run_rule_verdict v es reg p : run_rule (Verdict v :: es) reg p = (Some v, p);
  run_chain_nil d p : run_chain [] d p = (d, p);
  run_chain_cons r rs d p :
    run_chain (r :: rs) d p
    = match run_rule r 0 p with
      | (Some v, p') => (v, p')
      | (None, p') => run_chain rs d p'
      end;
}.

(** ** An implementation *)
Fixpoint ref_rule (r : nft_rule) (reg : Z) (p : pview) : option nft_verdict * pview :=
  match r with
  | [] => (None, p)
  | Load f :: es => match p f with Some v => ref_rule es v p | None => (None, p) end
  | Immediate v :: es => ref_rule es v p
  | CmpEq v :: es => if (reg =? v)%Z then ref_rule es reg p else (None, p)
  | CmpNeq v :: es => if (reg =? v)%Z then (None, p) else ref_rule es reg p
  | Bitwise m x :: es => ref_rule es (Z.lxor (Z.land reg m) x) p
  | MetaMarkSet :: es => ref_rule es reg (set_field MetaMark reg p)
  | CtMarkSet :: es => ref_rule es reg (set_field CtMark reg p)
  | Counter :: es => ref_rule es reg p
  | Masquerade :: es => (Some Accept, p)
  | Verdict v :: es => (Some v, p)
  end.

Fixpoint ref_chain (rs : list nft_rule) (d : nft_verdict) (p : pview) : nft_verdict * pview :=
  match rs with
  | [] => (d, p)
  | r :: rs =>
      match ref_rule r 0 p with
      | (Some v, p') => (v, p')
      | (None, p') => ref_chain rs d p'
      end
  end.

#[export] Instance nft_reference : Nftables := { run_rule := ref_rule; run_chain := ref_chain }.

#[export] Instance nft_reference_laws : NftablesLaws nft_reference.
Proof. by split. Qed.

(** ** Matching rules

    A filter rule is a list of matches that only read the packet, followed by a verdict.  [matches es
    c] says that running [es] and then any rule that starts afresh (one that does not read the
    register) continues exactly when the condition [c] holds of the packet, and leaves the packet
    alone. *)
Section matching.
Context `{N : Nftables} {NL : NftablesLaws N}.

Definition fresh (es : nft_rule) : Prop :=
  forall r1 r2 p, run_rule es r1 p = run_rule es r2 p.

Definition matches (es : nft_rule) (c : pview -> bool) : Prop :=
  forall rest reg p, fresh rest ->
    run_rule (es ++ rest) reg p = if c p then run_rule rest 0 p else (None, p).

Definition has (f : nft_field) (v : Z) (p : pview) : bool :=
  match p f with Some x => (x =? v)%Z | None => false end.

Definition has_not (f : nft_field) (v : Z) (p : pview) : bool :=
  match p f with Some x => negb (x =? v)%Z | None => false end.

Definition masked (f : nft_field) (mask v : Z) (p : pview) : bool :=
  match p f with Some x => (Z.land x mask =? v)%Z | None => false end.

Definition masked_nonzero (f : nft_field) (mask : Z) (p : pview) : bool :=
  match p f with Some x => negb (Z.land x mask =? 0)%Z | None => false end.

Lemma matches_has f v : matches [Load f; CmpEq v] (has f v).
Proof.
  intros rest reg p Hf. simpl. rewrite run_rule_load. unfold has.
  destruct (p f); [|done]. rewrite run_rule_cmp_eq. case_match; [apply Hf | done].
Qed.

Lemma matches_has_not f v : matches [Load f; CmpNeq v] (has_not f v).
Proof.
  intros rest reg p Hf. simpl. rewrite run_rule_load. unfold has_not.
  destruct (p f) as [x|]; [|done]. rewrite run_rule_cmp_neq.
  destruct (x =? v)%Z; [done | apply Hf].
Qed.

Lemma matches_masked f m v : matches [Load f; Bitwise m 0; CmpEq v] (masked f m v).
Proof.
  intros rest reg p Hf. simpl. rewrite run_rule_load. unfold masked.
  destruct (p f); [|done]. rewrite run_rule_bitwise, run_rule_cmp_eq, Z.lxor_0_r.
  case_match; [apply Hf | done].
Qed.

Lemma matches_masked_nonzero f m :
  matches [Load f; Bitwise m 0; CmpNeq 0] (masked_nonzero f m).
Proof.
  intros rest reg p Hf. simpl. rewrite run_rule_load. unfold masked_nonzero.
  destruct (p f); [|done]. rewrite run_rule_bitwise, run_rule_cmp_neq, Z.lxor_0_r.
  case_match; [done | apply Hf].
Qed.

Lemma matches_nil : matches [] (fun _ => true).
Proof. intros rest reg p Hf. apply Hf. Qed.

Lemma matches_fresh es c rest : matches es c -> fresh rest -> fresh (es ++ rest).
Proof. intros Hm Hf r1 r2 p. by rewrite !Hm. Qed.

Lemma matches_app es1 es2 c1 c2 :
  matches es1 c1 -> matches es2 c2 -> matches (es1 ++ es2) (fun p => c1 p && c2 p).
Proof.
  intros H1 H2 rest reg p Hf. rewrite <- app_assoc, H1 by (by eapply matches_fresh).
  destruct (c1 p); simpl; [by rewrite H2 | done].
Qed.

(** A rule that matches and then gives a verdict, without setting marks. *)
Definition decides (r : nft_rule) (c : pview -> bool) (v : nft_verdict) : Prop :=
  forall reg p, run_rule r reg p = if c p then (Some v, p) else (None, p).

Lemma decides_fresh r c v : decides r c v -> fresh r.
Proof. intros H r1 r2 p. by rewrite !H. Qed.

Lemma decides_step es rest c c' v :
  matches es c -> decides rest c' v -> decides (es ++ rest) (fun p => c p && c' p) v.
Proof.
  intros Hm Hd reg p. rewrite Hm by (by eapply decides_fresh). rewrite Hd. by destruct (c p).
Qed.

Lemma decides_ext r c c' v : decides r c v -> (forall p, c p = c' p) -> decides r c' v.
Proof. intros H Hc reg p. by rewrite H, Hc. Qed.

Lemma decides_verdict v : decides [Verdict v] (fun _ => true) v.
Proof. intros reg p. apply run_rule_verdict. Qed.

Lemma decides_counter r c v : decides r c v -> decides (Counter :: r) c v.
Proof. intros H reg p. by rewrite run_rule_counter, H. Qed.

(** A chain of such rules: the first rule whose condition holds decides. *)
Fixpoint first_match (l : list ((pview -> bool) * nft_verdict)) (d : nft_verdict) (p : pview)
  : nft_verdict :=
  match l with
  | [] => d
  | (c, v) :: l => if c p then v else first_match l d p
  end.

Lemma run_chain_first_match rs l d p :
  Forall2 (fun r cv => decides r cv.1 cv.2) rs l ->
  run_chain rs d p = (first_match l d p, p).
Proof.
  induction 1 as [|r [c v] rs l Hr _ IH]; simpl; [apply run_chain_nil|].
  rewrite run_chain_cons, Hr. simpl. by destruct (c p).
Qed.

Lemma first_match_app l k d p : first_match (l ++ k) d p = first_match l (first_match k d p) p.
Proof. induction l as [|[c v] l IH]; simpl; [done|]. by rewrite IH. Qed.

(** A block of rules with one verdict acts as one rule with the disjunction of the conditions. *)
Lemma first_match_block l v d p :
  Forall (fun cv => cv.2 = v) l ->
  first_match l d p = if existsb (fun cv => cv.1 p) l then v else d.
Proof.
  induction 1 as [|[c v'] l Hv _ IH]; simpl in *; [done|]. subst. rewrite IH. by destruct (c p).
Qed.
End matching.

#[export] Hint Resolve matches_has matches_has_not matches_masked matches_masked_nonzero matches_nil
  matches_app decides_verdict decides_counter decides_step : vpn.
