(* ===== verification/FirewallLinux.v ===== *)
(** * The Linux firewall

    [src/talpid-core/src/firewall/linux.rs]: from a policy to the nftables batch that enforces it.
    Every function that appends to [self.batch] returns the messages it appends, in order; a function
    that looks up an interface returns a [result], and a failed lookup abandons the batch.  The
    environment variables, the cargo feature, the interface index lookup ([if_nametoindex]) and the
    connection tracking flag of the [nftnl] crate are fields of [fw_env]. *)

From stdpp Require Import base list strings option numbers sets.
From S2P Require Import Prelude NetTypes TunnelTypes FirewallPolicy Nftables.

Local Open Scope vpn_scope.

Inductive fw_error : Type :=
| NetlinkOpenError | NetlinkSendError | NetlinkRecvError | ProcessNetlinkError
| NetfilterTableNotSetError
| LookupIfaceIndexError (iface : string).

Inductive Direction : Type := In | Out.
Inductive End_ : Type := Src | Dst.

Record fw_env : Type := {
  ADD_COUNTERS : bool;
  DONT_SET_SRC_VALID_MARK : bool;
  DONT_SET_ARP_IGNORE : bool;
  feature_cgroup2 : bool;
  iface_index : string -> option Z;
  ct_ESTABLISHED : Z;
}.

(** [Firewall]: the mark that bypasses the tunnel and the cgroups used for split tunneling (the
    cgroup2 by its inode). *)
Record Firewall : Type := {
  fwmark : Z;
  excluded_cgroup2 : option Z;
  net_cls : option Z;
}.

Definition MANGLE_CHAIN_PRIORITY : Z := -150.
Definition PREROUTING_CHAIN_PRIORITY : Z := -200 + 1.
Definition NF_IP_PRI_NAT_SRC : Z := 100.
Definition NFPROTO_IPV4 : Z := 2.
Definition NFPROTO_IPV6 : Z := 10.
Definition IPPROTO_TCP : Z := 6.
Definition IPPROTO_UDP : Z := 17.
Definition IPPROTO_ICMPV6 : Z := 58.
Definition TABLE_NAME : string := "mullvad".
Definition table_family : ProtoFamily := Inet.
(** [split_tunnel::MARK]. *)
Definition MARK : Z := 0xf41.

(** ** Matches *)
Definition l3proto (addr : IpAddr) : Z :=
  match addr with V4 _ => NFPROTO_IPV4 | V6 _ => NFPROTO_IPV6 end.

Definition l4proto (p : TransportProtocol) : Z :=
  match p with Udp => IPPROTO_UDP | Tcp => IPPROTO_TCP end.

Definition check_l3proto (ip : IpAddr) : nft_rule := [Load MetaNfproto; CmpEq (l3proto ip)].
Definition check_l4proto (p : TransportProtocol) : nft_rule := [Load MetaL4proto; CmpEq (l4proto p)].

Definition ip_field (ip : IpAddr) (e : End_) : nft_field :=
  match ip, e with
  | V4 _, Src => Ipv4Saddr
  | V4 _, Dst => Ipv4Daddr
  | V6 _, Src => Ipv6Saddr
  | V6 _, Dst => Ipv6Daddr
  end.

Definition port_field (p : TransportProtocol) (e : End_) : nft_field :=
  match p, e with
  | Udp, Src => UdpSport
  | Udp, Dst => UdpDport
  | Tcp, Src => TcpSport
  | Tcp, Dst => TcpDport
  end.

Definition iface_field (d : Direction) : nft_field :=
  match d with In => MetaIif | Out => MetaOif end.

(** The data of a comparison is written in network order, as the header field is: both are the
    number they encode. *)
Definition check_port (p : TransportProtocol) (e : End_) (port : Z) : nft_rule :=
  check_l4proto p ++ [Load (port_field p e); CmpEq port].

Definition check_ip (e : End_) (ip : IpAddr) : nft_rule :=
  check_l3proto ip ++ [Load (ip_field ip e); CmpEq (addr_value ip)].

Definition check_endpoint (e : End_) (endpoint : Endpoint) : nft_rule :=
  check_ip e (sa_ip (address endpoint))
  ++ check_port (protocol endpoint) e (sa_port (address endpoint)).

Definition check_icmpv6 (type code : Z) : nft_rule :=
  [Load MetaL4proto; CmpEq IPPROTO_ICMPV6;
   Load Icmpv6Type; CmpEq type;
   Load Icmpv6Code; CmpEq code].

Section linux.
Context `{IpNetworkOps}.
Variable env : fw_env.

Definition check_net (e : End_) (net : IpNetwork) : nft_rule :=
  check_l3proto (net_ip net)
  ++ [Load (ip_field (net_ip net) e); Bitwise (net_mask net) 0; CmpEq (addr_value (net_ip net))].

Definition add_verdict (v : nft_verdict) : nft_rule :=
  (if ADD_COUNTERS env then [Counter] else []) ++ [Verdict v].

Definition lookup_iface (iface : string) : result Z fw_error :=
  match iface_index env iface with
  | Some i => Ok i
  | None => Err (LookupIfaceIndexError iface)
  end.

Definition check_iface (d : Direction) (iface : string) : result nft_rule fw_error :=
  i <-? lookup_iface iface; Ok [Load (iface_field d); CmpEq i].

Definition check_not_iface (d : Direction) (iface : string) : result nft_rule fw_error :=
  i <-? lookup_iface iface; Ok [Load (iface_field d); CmpNeq i].

Definition check_established : nft_rule :=
  [Load CtState; Bitwise (ct_ESTABLISHED env) 0; CmpNeq 0].

Definition allow_interface_rule (d : Direction) (iface : string) : result nft_rule fw_error :=
  m <-? check_iface d iface; Ok (m ++ add_verdict Accept).

Definition allow_tunnel_dns_rule (iface : string) (p : TransportProtocol) (host : IpAddr)
  : result nft_rule fw_error :=
  m <-? check_iface Out iface;
  Ok (m ++ check_port p Dst 53
      ++ (match table_family with Inet => check_l3proto host end)
      ++ [Load (ip_field host Dst); CmpEq (addr_value host)]
      ++ add_verdict Accept).

(** ** The batch *)
Definition PolicyBatch_new : list batch_msg :=
  [AddTable TABLE_NAME; DelTable TABLE_NAME; AddTable TABLE_NAME;
   AddChain PREROUTING_CHAIN
     {| hook := HookPreRouting; priority := PREROUTING_CHAIN_PRIORITY;
        chain_type := Some TypeFilter; chain_policy := None |};
   AddChain OUT_CHAIN
     {| hook := HookOut; priority := 0; chain_type := None; chain_policy := Some PolicyDrop |};
   AddChain IN_CHAIN
     {| hook := HookIn; priority := 0; chain_type := None; chain_policy := Some PolicyDrop |};
   AddChain FORWARD_CHAIN
     {| hook := HookForward; priority := 0; chain_type := None; chain_policy := Some PolicyDrop |};
   AddChain MANGLE_CHAIN
     {| hook := HookOut; priority := MANGLE_CHAIN_PRIORITY;
        chain_type := Some TypeRoute; chain_policy := Some PolicyAccept |};
   AddChain NAT_CHAIN
     {| hook := HookPostRouting; priority := NF_IP_PRI_NAT_SRC;
        chain_type := Some TypeNat; chain_policy := Some PolicyAccept |}].

Definition add_loopback_rules : result (list batch_msg) fw_error :=
  o <-? allow_interface_rule Out "lo";
  i <-? allow_interface_rule In "lo";
  Ok [AddRule OUT_CHAIN o; AddRule IN_CHAIN i].

Definition add_dhcp_client_rules : list batch_msg :=
  (* Outgoing DHCPv4 request *)
  map (fun chain => AddRule chain
    (check_port Udp Src DHCPV4_CLIENT_PORT ++ check_ip Dst (V4 Ipv4Addr_BROADCAST)
     ++ check_port Udp Dst DHCPV4_SERVER_PORT ++ add_verdict Accept))
    [OUT_CHAIN; FORWARD_CHAIN]
  (* Incoming DHCPv4 response *)
  ++ map (fun chain => AddRule chain
    (check_port Udp Src DHCPV4_SERVER_PORT ++ check_port Udp Dst DHCPV4_CLIENT_PORT
     ++ add_verdict Accept))
    [IN_CHAIN; FORWARD_CHAIN]
  (* Outgoing DHCPv6 request *)
  ++ concat (map (fun chain => map (fun dhcpv6_server => AddRule chain
    (check_net Src IPV6_LINK_LOCAL ++ check_port Udp Src DHCPV6_CLIENT_PORT
     ++ check_ip Dst dhcpv6_server ++ check_port Udp Dst DHCPV6_SERVER_PORT
     ++ add_verdict Accept)) DHCPV6_SERVER_ADDRS)
    [OUT_CHAIN; FORWARD_CHAIN])
  (* Incoming DHCPv6 response *)
  ++ map (fun chain => AddRule chain
    (check_net Src IPV6_LINK_LOCAL ++ check_port Udp Src DHCPV6_SERVER_PORT
     ++ check_net Dst IPV6_LINK_LOCAL ++ check_port Udp Dst DHCPV6_CLIENT_PORT
     ++ add_verdict Accept))
    [IN_CHAIN; FORWARD_CHAIN].

Definition add_ndp_rules : list batch_msg :=
  (* Outgoing Router solicitation *)
  map (fun chain => AddRule chain
    (check_ip Dst ROUTER_SOLICITATION_OUT_DST_ADDR ++ check_icmpv6 133 0 ++ add_verdict Accept))
    [OUT_CHAIN; FORWARD_CHAIN]
  (* Incoming Router advertisement *)
  ++ map (fun chain => AddRule chain
    (check_net Src IPV6_LINK_LOCAL ++ check_icmpv6 134 0 ++ add_verdict Accept))
    [IN_CHAIN; FORWARD_CHAIN]
  (* Incoming Redirect *)
  ++ map (fun chain => AddRule chain
    (check_net Src IPV6_LINK_LOCAL ++ check_icmpv6 137 0 ++ add_verdict Accept))
    [IN_CHAIN; FORWARD_CHAIN]
  (* Outgoing Neighbor solicitation *)
  ++ map (fun chain => AddRule chain
    (check_net Dst SOLICITED_NODE_MULTICAST ++ check_icmpv6 135 0 ++ add_verdict Accept))
    [OUT_CHAIN; FORWARD_CHAIN]
  ++ map (fun chain => AddRule chain
    (check_net Dst IPV6_LINK_LOCAL ++ check_icmpv6 135 0 ++ add_verdict Accept))
    [OUT_CHAIN; FORWARD_CHAIN]
  (* Incoming Neighbor solicitation *)
  ++ map (fun chain => AddRule chain
    (check_net Src IPV6_LINK_LOCAL ++ check_icmpv6 135 0 ++ add_verdict Accept))
    [IN_CHAIN; FORWARD_CHAIN]
  (* Outgoing Neighbor advertisement *)
  ++ map (fun chain => AddRule chain
    (check_net Dst IPV6_LINK_LOCAL ++ check_icmpv6 136 0 ++ add_verdict Accept))
    [OUT_CHAIN; FORWARD_CHAIN]
  (* Incoming Neighbor advertisement *)
  ++ map (fun chain => AddRule chain (check_icmpv6 136 0 ++ add_verdict Accept))
    [IN_CHAIN; FORWARD_CHAIN].

Definition counter_expr : nft_rule := if ADD_COUNTERS env then [Counter] else [].

(** The messages of a [for] loop whose body may fail. *)
Fixpoint for_each {A} (l : list A) (body : A -> result (list batch_msg) fw_error)
  : result (list batch_msg) fw_error :=
  match l with
  | [] => Ok []
  | a :: l => m <-? body a; ms <-? for_each l body; Ok (m ++ ms)
  end.

Definition add_actual_split_tunneling_rules (policy : FirewallPolicy) (fwmark : Z)
    (selector : nft_rule) : result (list batch_msg) fw_error :=
  (* Send select DNS requests in the tunnel *)
  dns <-? match policy with
          | Connected _ tunnel _ dns_config =>
              for_each (tunnel_config dns_config) (fun server =>
                udp <-? allow_tunnel_dns_rule (interface tunnel) Udp server;
                tcp <-? allow_tunnel_dns_rule (interface tunnel) Tcp server;
                Ok [AddRule MANGLE_CHAIN udp; AddRule MANGLE_CHAIN tcp])
          | _ => Ok []
          end;
  let mangle :=
    AddRule MANGLE_CHAIN
      (selector ++ [Immediate MARK; CtMarkSet; Immediate fwmark; MetaMarkSet] ++ counter_expr) in
  let accept :=
    map (fun chain => AddRule chain ([Load CtMark; CmpEq MARK] ++ add_verdict Accept))
      [IN_CHAIN; OUT_CHAIN; FORWARD_CHAIN] in
  (* Block remaining marked outgoing in-tunnel traffic *)
  block <-? match policy with
            | Connected _ tunnel _ _ =>
                m <-? check_iface Out (interface tunnel);
                Ok [AddRule NAT_CHAIN (m ++ [Load CtMark; CmpEq MARK] ++ add_verdict Drop)]
            | _ => Ok []
            end;
  (* Fix source IP address in rerouted packets using masquerade *)
  lo <-? lookup_iface "lo";
  let masq :=
    AddRule NAT_CHAIN
      ([Load MetaOif; CmpNeq lo; Load CtMark; CmpEq MARK; Masquerade] ++ counter_expr) in
  (* Route incoming traffic correctly to prevent strict rpf from rejecting packets *)
  prerouting <-? match policy with
                 | Connected _ tunnel _ _ =>
                     m <-? check_not_iface In (interface tunnel);
                     Ok [AddRule PREROUTING_CHAIN
                           (m ++ [Load CtMark; CmpEq MARK; Immediate fwmark; MetaMarkSet]
                            ++ counter_expr)]
                 | _ => Ok []
                 end;
  Ok (dns ++ [mangle] ++ accept ++ block ++ [masq] ++ prerouting).

Definition add_split_tunneling_rules (policy : FirewallPolicy) (fw : Firewall)
  : result (list batch_msg) fw_error :=
  match feature_cgroup2 env, excluded_cgroup2 fw with
  | true, Some inode =>
      add_actual_split_tunneling_rules policy (fwmark fw) [Load (SocketCgroupv2 1); CmpEq inode]
  | _, _ =>
      match net_cls fw with
      | Some cls =>
          add_actual_split_tunneling_rules policy (fwmark fw) [Load MetaCgroup; CmpEq cls]
      | None => Ok []
      end
  end.

Definition add_allow_tunnel_endpoint_rules (endpoint : AllowedEndpoint) (fwmark : Z)
  : list batch_msg :=
  [AddRule PREROUTING_CHAIN
     (check_endpoint Src (ae_endpoint endpoint) ++ [Immediate fwmark; MetaMarkSet] ++ counter_expr);
   AddRule IN_CHAIN
     (check_endpoint Src (ae_endpoint endpoint) ++ check_established ++ add_verdict Accept);
   AddRule OUT_CHAIN
     (check_endpoint Dst (ae_endpoint endpoint) ++ [Load MetaMark; CmpEq fwmark]
      ++ add_verdict Accept)]
  ++ (if allow_all (clients endpoint) then
        [AddRule MANGLE_CHAIN
           (check_endpoint Dst (ae_endpoint endpoint)
            ++ [Immediate MARK; CtMarkSet; Immediate fwmark; MetaMarkSet])]
      else []).

Definition check_clients (c : AllowedClients) : nft_rule :=
  if negb (allow_all c) then [Load MetaSkuid; CmpEq ROOT_UID] else [].

Definition add_allow_endpoint_rules (endpoint : AllowedEndpoint) : list batch_msg :=
  [AddRule IN_CHAIN
     (check_endpoint Src (ae_endpoint endpoint) ++ check_established
      ++ check_clients (clients endpoint) ++ add_verdict Accept);
   AddRule OUT_CHAIN
     (check_endpoint Dst (ae_endpoint endpoint) ++ check_clients (clients endpoint)
      ++ add_verdict Accept)].

Definition add_allow_tunnel_dns_rule (iface : string) (p : TransportProtocol) (host : IpAddr)
  : result (list batch_msg) fw_error :=
  for_each [OUT_CHAIN; FORWARD_CHAIN] (fun chain =>
    r <-? allow_tunnel_dns_rule iface p host; Ok [AddRule chain r]).

Definition add_allow_local_dns_rule (tunnel_interface : string) (p : TransportProtocol)
    (host : IpAddr) : result (list batch_msg) fw_error :=
  for_each [(OUT_CHAIN, Out); (FORWARD_CHAIN, Out); (IN_CHAIN, In); (FORWARD_CHAIN, In)]
    (fun '(chain, direction) =>
       let port_dir := match direction with In => Src | Out => Dst end in
       let addr := ip_field host (match direction with Out => Dst | In => Src end) in
       m <-? check_not_iface direction tunnel_interface;
       Ok [AddRule chain
             (m ++ check_port p port_dir 53 ++ check_l3proto host
              ++ [Load addr; CmpEq (addr_value host)] ++ add_verdict Accept)]).

Definition add_drop_dns_rule : list batch_msg :=
  concat (map (fun chain =>
    [AddRule chain (check_port Udp Dst 53 ++ add_verdict (Reject RejectIcmpPortUnreach));
     AddRule chain (check_port Tcp Dst 53 ++ add_verdict (Reject RejectTcpRst))])
    [OUT_CHAIN; FORWARD_CHAIN]).

Definition add_allow_in_tunnel_endpoint_rules (tunnel_interface : string) (endpoint : Endpoint)
  : result (list batch_msg) fw_error :=
  for_each [(OUT_CHAIN, Out, Dst); (IN_CHAIN, In, Src)] (fun '(chain, dir, e) =>
    m <-? check_iface dir tunnel_interface;
    Ok [AddRule chain
          (m ++ check_ip e (sa_ip (address endpoint))
           ++ check_port (protocol endpoint) e (sa_port (address endpoint))
           ++ add_verdict Accept)]).

Definition add_allow_tunnel_rules (tunnel_interface : string) : result (list batch_msg) fw_error :=
  o <-? allow_interface_rule Out tunnel_interface;
  f <-? allow_interface_rule Out tunnel_interface;
  i <-? allow_interface_rule In tunnel_interface;
  m <-? check_iface In tunnel_interface;
  Ok [AddRule OUT_CHAIN o; AddRule FORWARD_CHAIN f; AddRule IN_CHAIN i;
      AddRule FORWARD_CHAIN (m ++ check_established ++ add_verdict Accept)].

Definition add_block_cve_2019_14899 (tunnel : TunnelMetadata) : list batch_msg :=
  map (fun tunnel_ip => AddRule IN_CHAIN (check_ip Dst tunnel_ip ++ add_verdict Drop))
    (ips tunnel).

Definition add_dhcp_server_rules : list batch_msg :=
  [AddRule OUT_CHAIN
     (check_port Udp Src DHCPV4_SERVER_PORT ++ check_port Udp Dst DHCPV4_CLIENT_PORT
      ++ add_verdict Accept);
   AddRule IN_CHAIN
     (check_port Udp Src DHCPV4_CLIENT_PORT
      ++ check_endpoint Dst (Endpoint_new (V4 Ipv4Addr_BROADCAST) DHCPV4_SERVER_PORT Udp)
      ++ add_verdict Accept)].

Definition add_allow_lan_rules : list batch_msg :=
  concat (map (fun chain =>
    map (fun net => AddRule chain (check_net Dst net ++ add_verdict Accept)) ALLOWED_LAN_NETS
    ++ map (fun net => AddRule chain (check_net Dst net ++ add_verdict Accept))
         ALLOWED_LAN_MULTICAST_NETS)
    [OUT_CHAIN; FORWARD_CHAIN])
  ++ map (fun net => AddRule IN_CHAIN (check_net Src net ++ add_verdict Accept)) ALLOWED_LAN_NETS
  ++ add_dhcp_server_rules.

Definition add_policy_specific_rules (policy : FirewallPolicy) (fwmark : Z)
  : result (list batch_msg) fw_error :=
  specific <-?
    match policy with
    | Connecting peer_endpoints tunnel allow_lan allowed_endpoint allowed_tunnel_traffic =>
        let peers :=
          concat (map (fun e => add_allow_tunnel_endpoint_rules e fwmark) peer_endpoints) in
        in_tunnel <-?
          match tunnel with
          | Some tunnel =>
              traffic <-?
                match allowed_tunnel_traffic with
                | TrafficAll => add_allow_tunnel_rules (interface tunnel)
                | TrafficNone => Ok []
                | TrafficOne endpoint =>
                    add_allow_in_tunnel_endpoint_rules (interface tunnel) endpoint
                | TrafficTwo endpoint1 endpoint2 =>
                    a <-? add_allow_in_tunnel_endpoint_rules (interface tunnel) endpoint1;
                    b <-? add_allow_in_tunnel_endpoint_rules (interface tunnel) endpoint2;
                    Ok (a ++ b)
                end;
              Ok (traffic ++ if allow_lan then add_block_cve_2019_14899 tunnel else [])
          | None => Ok []
          end;
        Ok (peers ++ add_allow_endpoint_rules allowed_endpoint ++ add_drop_dns_rule ++ in_tunnel)
    | Connected peer_endpoints tunnel allow_lan dns_config =>
        let peers :=
          concat (map (fun e => add_allow_tunnel_endpoint_rules e fwmark) peer_endpoints) in
        tun_dns <-? for_each (tunnel_config dns_config) (fun server =>
          u <-? add_allow_tunnel_dns_rule (interface tunnel) Udp server;
          t <-? add_allow_tunnel_dns_rule (interface tunnel) Tcp server;
          Ok (u ++ t));
        local_dns <-? for_each (non_tunnel_config dns_config) (fun server =>
          u <-? add_allow_local_dns_rule (interface tunnel) Udp server;
          t <-? add_allow_local_dns_rule (interface tunnel) Tcp server;
          Ok (u ++ t));
        tunnel_rules <-? add_allow_tunnel_rules (interface tunnel);
        Ok (peers ++ tun_dns ++ local_dns ++ add_drop_dns_rule ++ tunnel_rules
            ++ if allow_lan then add_block_cve_2019_14899 tunnel else [])
    | Blocked allow_lan allowed_endpoint =>
        Ok (match allowed_endpoint with
            | Some endpoint => add_allow_endpoint_rules endpoint
            | None => []
            end ++ add_drop_dns_rule)
    end;
  let lan := if policy_allow_lan policy then add_allow_lan_rules else [] in
  (* Reject any remaining outgoing traffic *)
  let reject :=
    map (fun chain => AddRule chain (add_verdict (Reject RejectIcmpPortUnreach)))
      [OUT_CHAIN; FORWARD_CHAIN] in
  Ok (specific ++ lan ++ reject).

Definition finalize (policy : FirewallPolicy) (fw : Firewall) : result (list batch_msg) fw_error :=
  loopback <-? add_loopback_rules;
  split <-? add_split_tunneling_rules policy fw;
  specific <-? add_policy_specific_rules policy (fwmark fw);
  Ok (PolicyBatch_new ++ loopback ++ split ++ add_dhcp_client_rules ++ add_ndp_rules ++ specific).
End linux.
