(* ===== verification/FirewallSpec.v ===== *)
(** * What the Linux firewall lets through

    [docs/security.md] says which packets each state of the app allows to go out and to come in.  This
    file states it as decidable conditions on a packet ([out_permitted], [in_permitted]).  For
    forwarding the document says that whatever may go out or come in may also be forwarded; the rules
    forward less ([FirewallProps.forwarding_is_narrower]), and [forward_permitted] says what: name
    server requests that may go out, other packets into the tunnel or, established, out of it, and
    those to the local network.  [FirewallRefine] proves that the rules [FirewallLinux.finalize]
    builds accept exactly those packets, for every policy, whatever implements the nftables
    interface. *)

From stdpp Require Import base list strings option numbers sets.
From S2P Require Import Prelude NetTypes TunnelTypes FirewallPolicy Nftables FirewallLinux.

Section conditions.
Context `{IpNetworkOps}.
Variable env : fw_env.
Variable fw : Firewall.

Definition on_iface (d : Direction) (iface : string) (p : pview) : bool :=
  match iface_index env iface with Some i => has (iface_field d) i p | None => false end.

Definition off_iface (d : Direction) (iface : string) (p : pview) : bool :=
  match iface_index env iface with Some i => has_not (iface_field d) i p | None => false end.

Definition is_port (pr : TransportProtocol) (e : End_) (port : Z) (p : pview) : bool :=
  has MetaL4proto (l4proto pr) p && has (port_field pr e) port p.

Definition is_ip (e : End_) (ip : IpAddr) (p : pview) : bool :=
  has MetaNfproto (l3proto ip) p && has (ip_field ip e) (addr_value ip) p.

Definition in_net (e : End_) (net : IpNetwork) (p : pview) : bool :=
  has MetaNfproto (l3proto (net_ip net)) p
  && masked (ip_field (net_ip net) e) (net_mask net) (addr_value (net_ip net)) p.

Definition at_endpoint (e : End_) (ep : Endpoint) (p : pview) : bool :=
  is_ip e (sa_ip (address ep)) p && is_port (protocol ep) e (sa_port (address ep)) p.

Definition is_icmpv6 (type code : Z) (p : pview) : bool :=
  has MetaL4proto IPPROTO_ICMPV6 p && (has Icmpv6Type type p && has Icmpv6Code code p).

Definition established (p : pview) : bool := masked_nonzero CtState (ct_ESTABLISHED env) p.

Definition by_clients (c : AllowedClients) (p : pview) : bool :=
  allow_all c || has MetaSkuid ROOT_UID p.

(** Traffic of a process excluded from the tunnel, where a cgroup is available. *)
Definition split_tunneling : bool :=
  match feature_cgroup2 env, excluded_cgroup2 fw, net_cls fw with
  | true, Some _, _ => true
  | _, _, Some _ => true
  | _, _, None => false
  end.

Definition excluded (p : pview) : bool := split_tunneling && has CtMark MARK p.

(** ** Allowed in every state *)
Definition dhcp_request (p : pview) : bool :=
  (is_port Udp Src 68 p && is_ip Dst (V4 Ipv4Addr_BROADCAST) p && is_port Udp Dst 67 p)
  || existsb (fun server =>
       in_net Src IPV6_LINK_LOCAL p && is_port Udp Src 546 p && is_ip Dst server p
       && is_port Udp Dst 547 p) DHCPV6_SERVER_ADDRS.

Definition dhcp_response (p : pview) : bool :=
  (is_port Udp Src 67 p && is_port Udp Dst 68 p)
  || (in_net Src IPV6_LINK_LOCAL p && is_port Udp Src 547 p && in_net Dst IPV6_LINK_LOCAL p
      && is_port Udp Dst 546 p).

Definition ndp_out (p : pview) : bool :=
  (is_ip Dst ROUTER_SOLICITATION_OUT_DST_ADDR p && is_icmpv6 133 0 p)
  || (in_net Dst SOLICITED_NODE_MULTICAST p && is_icmpv6 135 0 p)
  || (in_net Dst IPV6_LINK_LOCAL p && is_icmpv6 135 0 p)
  || (in_net Dst IPV6_LINK_LOCAL p && is_icmpv6 136 0 p).

Definition ndp_in (p : pview) : bool :=
  (in_net Src IPV6_LINK_LOCAL p && is_icmpv6 134 0 p)
  || (in_net Src IPV6_LINK_LOCAL p && is_icmpv6 137 0 p)
  || (in_net Src IPV6_LINK_LOCAL p && is_icmpv6 135 0 p)
  || is_icmpv6 136 0 p.

Definition always_out (p : pview) : bool :=
  on_iface Out "lo" p || excluded p || dhcp_request p || ndp_out p.

Definition always_in (p : pview) : bool :=
  on_iface In "lo" p || excluded p || dhcp_response p || ndp_in p.

Definition always_forward (p : pview) : bool :=
  excluded p || dhcp_request p || dhcp_response p || ndp_out p || ndp_in p.

(** ** Allowed by the policy *)
Definition to_peer (eps : list AllowedEndpoint) (p : pview) : bool :=
  existsb (fun e => at_endpoint Dst (ae_endpoint e) p && has MetaMark (fwmark fw) p) eps.

Definition from_peer (eps : list AllowedEndpoint) (p : pview) : bool :=
  existsb (fun e => at_endpoint Src (ae_endpoint e) p && established p) eps.

Definition to_api (e : AllowedEndpoint) (p : pview) : bool :=
  at_endpoint Dst (ae_endpoint e) p && by_clients (clients e) p.

Definition from_api (e : AllowedEndpoint) (p : pview) : bool :=
  at_endpoint Src (ae_endpoint e) p && established p && by_clients (clients e) p.

Definition dns_port (e : End_) (p : pview) : bool := is_port Udp e 53 p || is_port Tcp e 53 p.

Definition tunnel_dns (tun : string) (servers : list IpAddr) (p : pview) : bool :=
  existsb (fun s => on_iface Out tun p && dns_port Dst p && is_ip Dst s p) servers.

Definition local_dns (d : Direction) (tun : string) (servers : list IpAddr) (p : pview) : bool :=
  let e := match d with In => Src | Out => Dst end in
  existsb (fun s => off_iface d tun p && dns_port e p && is_ip e s p) servers.

Definition in_tunnel (d : Direction) (tunnel : option TunnelMetadata) (t : AllowedTunnelTraffic)
    (p : pview) : bool :=
  let e := match d with In => Src | Out => Dst end in
  match tunnel with
  | None => false
  | Some tun =>
      match t with
      | TrafficNone => false
      | TrafficAll => on_iface d (interface tun) p
      | TrafficOne e1 => on_iface d (interface tun) p && at_endpoint e e1 p
      | TrafficTwo e1 e2 =>
          on_iface d (interface tun) p && (at_endpoint e e1 p || at_endpoint e e2 p)
      end
  end.

Definition lan_out (p : pview) : bool :=
  existsb (fun n => in_net Dst n p) (ALLOWED_LAN_NETS ++ ALLOWED_LAN_MULTICAST_NETS).

Definition lan_in (p : pview) : bool := existsb (fun n => in_net Src n p) ALLOWED_LAN_NETS.

Definition dhcp_server_out (p : pview) : bool := is_port Udp Src 67 p && is_port Udp Dst 68 p.

Definition dhcp_server_in (p : pview) : bool :=
  is_port Udp Src 68 p && at_endpoint Dst (Endpoint_new (V4 Ipv4Addr_BROADCAST) 67 Udp) p.

Definition to_tunnel_ip (tunnel : option TunnelMetadata) (p : pview) : bool :=
  match tunnel with
  | Some tun => existsb (fun ip => is_ip Dst ip p) (ips tun)
  | None => false
  end.

(** ** The specification of the three filter chains *)
Definition policy_out (policy : FirewallPolicy) (p : pview) : bool :=
  match policy with
  | Connecting peers tunnel lan api traffic =>
      to_peer peers p || to_api api p
      || negb (dns_port Dst p)
         && (in_tunnel Out tunnel traffic p || lan && (lan_out p || dhcp_server_out p))
  | Connected peers tunnel lan dns =>
      to_peer peers p || tunnel_dns (interface tunnel) (tunnel_config dns) p
      || local_dns Out (interface tunnel) (non_tunnel_config dns) p
      || negb (dns_port Dst p)
         && (on_iface Out (interface tunnel) p || lan && (lan_out p || dhcp_server_out p))
  | Blocked lan api =>
      match api with Some e => to_api e p | None => false end
      || negb (dns_port Dst p) && (lan && (lan_out p || dhcp_server_out p))
  end.

Definition policy_in (policy : FirewallPolicy) (p : pview) : bool :=
  match policy with
  | Connecting peers tunnel lan api traffic =>
      from_peer peers p || from_api api p || in_tunnel In tunnel traffic p
      || lan && negb (to_tunnel_ip tunnel p) && (lan_in p || dhcp_server_in p)
  | Connected peers tunnel lan dns =>
      from_peer peers p || local_dns In (interface tunnel) (non_tunnel_config dns) p
      || on_iface In (interface tunnel) p
      || lan && negb (to_tunnel_ip (Some tunnel) p) && (lan_in p || dhcp_server_in p)
  | Blocked lan api =>
      match api with Some e => from_api e p | None => false end
      || lan && (lan_in p || dhcp_server_in p)
  end.

Definition forward_tunnel (tun : string) (p : pview) : bool :=
  on_iface Out tun p || on_iface In tun p && established p.

Definition policy_forward (policy : FirewallPolicy) (p : pview) : bool :=
  match policy with
  | Connecting peers tunnel lan api traffic =>
      negb (dns_port Dst p)
      && (match tunnel, traffic with
          | Some tun, TrafficAll => forward_tunnel (interface tun) p
          | _, _ => false
          end || lan && lan_out p)
  | Connected peers tunnel lan dns =>
      tunnel_dns (interface tunnel) (tunnel_config dns) p
      || local_dns Out (interface tunnel) (non_tunnel_config dns) p
      || local_dns In (interface tunnel) (non_tunnel_config dns) p
      || negb (dns_port Dst p) && (forward_tunnel (interface tunnel) p || lan && lan_out p)
  | Blocked lan api => negb (dns_port Dst p) && (lan && lan_out p)
  end.

Definition out_permitted (policy : FirewallPolicy) (p : pview) : bool :=
  always_out p || policy_out policy p.

Definition in_permitted (policy : FirewallPolicy) (p : pview) : bool :=
  always_in p || policy_in policy p.

Definition forward_permitted (policy : FirewallPolicy) (p : pview) : bool :=
  always_forward p || policy_forward policy p.
End conditions.
