(* ===== verification/FirewallRefine.v ===== *)
(** * The rules implement the specification

    The refinement proof: the messages of each [add_*] function act on the three filter chains as
    the conditions of [FirewallSpec] say, appended batches act one after the other, and so the
    finalized batch of a policy accepts exactly the permitted packets. *)

From stdpp Require Import base list strings option numbers sets.
From S2P Require Import Prelude NetTypes TunnelTypes FirewallPolicy Nftables FirewallLinux.
From S2P Require Import FirewallSpec.
From Stdlib Require Import Btauto.

Definition orelse {A} (a b : option A) : option A := match a with Some _ => a | None => b end.

Definition accept_if (c : pview -> bool) (p : pview) : option nft_verdict :=
  if c p then Some Accept else None.

Section refinement.
Context `{O : IpNetworkOps} `{N : Nftables} {NL : NftablesLaws N}.
Variable env : fw_env.
Variable fw : Firewall.

(** ** Matches *)
Lemma matches_port pr e port : matches (check_port pr e port) (is_port pr e port).
Proof. apply matches_app; apply matches_has. Qed.

Lemma matches_ip e ip : matches (check_ip e ip) (is_ip e ip).
Proof. apply matches_app; apply matches_has. Qed.

Lemma matches_net e net : matches (check_net e net) (in_net e net).
Proof. apply matches_app; [apply matches_has | apply matches_masked]. Qed.

Lemma matches_endpoint e ep : matches (check_endpoint e ep) (at_endpoint e ep).
Proof. apply matches_app; [apply matches_ip | apply matches_port]. Qed.

Lemma matches_icmpv6 t c : matches (check_icmpv6 t c) (is_icmpv6 t c).
Proof.
  apply (matches_app [_; _] [_; _; _; _]); [apply matches_has|].
  apply (matches_app [_; _] [_; _]); apply matches_has.
Qed.

Lemma matches_established : matches (check_established env) (established env).
Proof. apply matches_masked_nonzero. Qed.

Lemma matches_clients c : matches (check_clients c) (by_clients c).
Proof. destruct c; [apply matches_has | apply matches_nil]. Qed.

Lemma check_iface_Ok d iface es : check_iface env d iface = Ok es -> matches es (on_iface env d iface).
Proof.
  unfold check_iface, lookup_iface, on_iface. destruct (iface_index env iface); [|done].
  intros [= <-]. apply matches_has.
Qed.

Lemma check_not_iface_Ok d iface es :
  check_not_iface env d iface = Ok es -> matches es (off_iface env d iface).
Proof.
  unfold check_not_iface, lookup_iface, off_iface. destruct (iface_index env iface); [|done].
  intros [= <-]. apply matches_has_not.
Qed.

Lemma decides_add_verdict v : decides (add_verdict env v) (fun _ => true) v.
Proof.
  unfold add_verdict. destruct (ADD_COUNTERS env);
    [apply decides_counter|]; apply decides_verdict.
Qed.

(** ** Batches acting on the filter chains *)
Definition acts (c : chain_name) (ms : list batch_msg) (f : pview -> option nft_verdict) : Prop :=
  forall rest d p, run_chain (chain_rules c ms ++ rest) d p
    = match f p with Some v => (v, p) | None => run_chain rest d p end.

Definition acts3 (ms : list batch_msg) (o i f : pview -> option nft_verdict) : Prop :=
  acts OUT_CHAIN ms o /\ acts IN_CHAIN ms i /\ acts FORWARD_CHAIN ms f.

Definition accepts (ms : list batch_msg) (o i f : pview -> bool) : Prop :=
  acts3 ms (accept_if o) (accept_if i) (accept_if f).

Definition never (p : pview) : bool := false.

Lemma acts_app c a b f g : acts c a f -> acts c b g -> acts c (a ++ b) (fun p => orelse (f p) (g p)).
Proof.
  intros Ha Hb rest d p. unfold chain_rules. rewrite omap_app, <- app_assoc.
  setoid_rewrite Ha. destruct (f p); simpl; [done | apply Hb].
Qed.

Lemma acts3_app a b o i f o' i' f' :
  acts3 a o i f -> acts3 b o' i' f' ->
  acts3 (a ++ b) (fun p => orelse (o p) (o' p)) (fun p => orelse (i p) (i' p))
    (fun p => orelse (f p) (f' p)).
Proof. intros (?&?&?) (?&?&?). split_and!; by apply acts_app. Qed.

Lemma acts_ext c a f g : acts c a f -> (forall p, f p = g p) -> acts c a g.
Proof. intros H E rest d p. by rewrite H, E. Qed.

Lemma accept_if_or o o' p :
  orelse (accept_if o p) (accept_if o' p) = accept_if (fun p => o p || o' p) p.
Proof. unfold accept_if. by destruct (o p). Qed.

Lemma accepts_app a b o i f o' i' f' :
  accepts a o i f -> accepts b o' i' f' ->
  accepts (a ++ b) (fun p => o p || o' p) (fun p => i p || i' p) (fun p => f p || f' p).
Proof.
  intros Ha Hb. destruct (acts3_app _ _ _ _ _ _ _ _ Ha Hb) as (H1&H2&H3).
  split_and!; (eapply acts_ext; [eassumption|]); intros p; apply accept_if_or.
Qed.

Lemma accepts_ext a o i f o' i' f' :
  accepts a o i f -> (forall p, o p = o' p) -> (forall p, i p = i' p) -> (forall p, f p = f' p) ->
  accepts a o' i' f'.
Proof.
  intros (H1&H2&H3) Eo Ei Ef.
  split_and!; (eapply acts_ext; [eassumption|]); intros p; unfold accept_if; by rewrite ?Eo, ?Ei, ?Ef.
Qed.

Lemma accepts_nil : accepts [] never never never.
Proof. by split_and!; intros rest d p. Qed.

Lemma acts_cons_rule c r cond v :
  decides r cond v -> acts c [AddRule c r] (fun p => if cond p then Some v else None).
Proof.
  intros Hd rest d p. simpl. unfold chain_rules. simpl. rewrite decide_True by done. simpl.
  rewrite run_chain_cons, Hd. by destruct (cond p).
Qed.

Lemma acts_other c c' r : c <> c' -> acts c' [AddRule c r] (fun _ => None).
Proof. intros Hc rest d p. unfold chain_rules. simpl. by rewrite decide_False. Qed.

Lemma accepts_out r cond : decides r cond Accept -> accepts [AddRule OUT_CHAIN r] cond never never.
Proof. intros H. split_and!; [by apply acts_cons_rule | by apply acts_other ..]. Qed.

Lemma accepts_in r cond : decides r cond Accept -> accepts [AddRule IN_CHAIN r] never cond never.
Proof. intros H. split_and!; [by apply acts_other | by apply acts_cons_rule | by apply acts_other]. Qed.

Lemma accepts_forward r cond :
  decides r cond Accept -> accepts [AddRule FORWARD_CHAIN r] never never cond.
Proof. intros H. split_and!; [by apply acts_other .. | by apply acts_cons_rule]. Qed.

Lemma accepts_other c r :
  c <> OUT_CHAIN -> c <> IN_CHAIN -> c <> FORWARD_CHAIN -> accepts [AddRule c r] never never never.
Proof. intros ???. split_and!; by apply acts_other. Qed.

Lemma accepts_cons m ms o i f o' i' f' :
  accepts [m] o i f -> accepts ms o' i' f' ->
  accepts (m :: ms) (fun p => o p || o' p) (fun p => i p || i' p) (fun p => f p || f' p).
Proof. apply (accepts_app [m] ms). Qed.

Lemma accepts_concat_map {A} (g : A -> list batch_msg) (o i f : A -> pview -> bool) l :
  (forall a, accepts (g a) (o a) (i a) (f a)) ->
  accepts (concat (map g l)) (fun p => existsb (fun a => o a p) l)
    (fun p => existsb (fun a => i a p) l) (fun p => existsb (fun a => f a p) l).
Proof.
  intros Hg. induction l as [|a l IH]; simpl; [apply accepts_nil | by apply accepts_app].
Qed.

Lemma accepts_map {A} (g : A -> batch_msg) (o i f : A -> pview -> bool) l :
  (forall a, accepts [g a] (o a) (i a) (f a)) ->
  accepts (map g l) (fun p => existsb (fun a => o a p) l)
    (fun p => existsb (fun a => i a p) l) (fun p => existsb (fun a => f a p) l).
Proof.
  intros Hg. induction l as [|a l IH]; simpl; [apply accepts_nil | by apply accepts_cons].
Qed.

Lemma accepts_for_each {A} (body : A -> result (list batch_msg) fw_error)
    (o i f : A -> pview -> bool) l ms :
  (forall a ms, body a = Ok ms -> accepts ms (o a) (i a) (f a)) ->
  for_each l body = Ok ms ->
  accepts ms (fun p => existsb (fun a => o a p) l)
    (fun p => existsb (fun a => i a p) l) (fun p => existsb (fun a => f a p) l).
Proof.
  intros Hb. revert ms. induction l as [|a l IH]; intros ms; simpl.
  - intros <-%Ok_inj. apply accepts_nil.
  - intros (m & Ha & Hl)%bind_result_Ok. apply bind_result_Ok in Hl as (ms' & Hl & <-%Ok_inj).
    apply accepts_app; eauto.
Qed.

(** ** What each function accepts *)
Ltac build_rule :=
  repeat (eapply decides_step;
          [first [eassumption | apply matches_port | apply matches_ip | apply matches_net
                  | apply matches_endpoint | apply matches_icmpv6 | apply matches_established
                  | apply matches_clients | apply matches_has
                  | eapply check_iface_Ok; eassumption | eapply check_not_iface_Ok; eassumption]|]);
  apply decides_add_verdict.

Ltac build_accepts :=
  repeat first
    [ apply accepts_nil
    | eapply accepts_cons;
      [first [eapply accepts_out; build_rule | eapply accepts_in; build_rule
              | eapply accepts_forward; build_rule | apply accepts_other; discriminate]|]
    | eapply accepts_app ].

(** Boolean equality of the conditions. *)
Ltac cond_eq := intros p; unfold never; cbn [existsb]; btauto.

Lemma accepts_loopback ms :
  add_loopback_rules env = Ok ms ->
  accepts ms (on_iface env Out "lo") (on_iface env In "lo") never.
Proof.
  unfold add_loopback_rules, allow_interface_rule.
  intros (o & (mo & Ho & <-%Ok_inj)%bind_result_Ok & H)%bind_result_Ok.
  apply bind_result_Ok in H as (i & (mi & Hi & <-%Ok_inj)%bind_result_Ok & <-%Ok_inj).
  eapply accepts_ext; [build_accepts | cond_eq ..].
Qed.

Lemma accepts_dhcp_client :
  accepts (add_dhcp_client_rules env) dhcp_request dhcp_response
    (fun p => dhcp_request p || dhcp_response p).
Proof.
  unfold add_dhcp_client_rules. cbn [map concat app DHCPV6_SERVER_ADDRS].
  eapply accepts_ext; [build_accepts | ..];
    unfold dhcp_request, dhcp_response, DHCPV6_SERVER_ADDRS, DHCPV4_CLIENT_PORT,
      DHCPV4_SERVER_PORT, DHCPV6_CLIENT_PORT, DHCPV6_SERVER_PORT; cond_eq.
Qed.

Lemma accepts_ndp : accepts (add_ndp_rules env) ndp_out ndp_in (fun p => ndp_out p || ndp_in p).
Proof.
  unfold add_ndp_rules. cbn [map app].
  eapply accepts_ext; [build_accepts | ..]; unfold ndp_out, ndp_in; cond_eq.
Qed.

Lemma accepts_tunnel_endpoint e m :
  accepts (add_allow_tunnel_endpoint_rules env e m)
    (fun p => at_endpoint Dst (ae_endpoint e) p && has MetaMark m p)
    (fun p => at_endpoint Src (ae_endpoint e) p && established env p) never.
Proof.
  unfold add_allow_tunnel_endpoint_rules. destruct (allow_all (clients e));
    (eapply accepts_ext; [build_accepts | cond_eq ..]).
Qed.

Lemma accepts_peers eps :
  accepts (concat (map (fun e => add_allow_tunnel_endpoint_rules env e (fwmark fw)) eps))
    (to_peer fw eps) (from_peer env eps) never.
Proof.
  eapply accepts_ext.
  - apply (accepts_concat_map _
             (fun e p => at_endpoint Dst (ae_endpoint e) p && has MetaMark (fwmark fw) p)
             (fun e p => at_endpoint Src (ae_endpoint e) p && established env p)
             (fun _ => never)).
    intros e. apply accepts_tunnel_endpoint.
  - done.
  - done.
  - intros p. by apply existsb_false.
Qed.

Lemma accepts_api e : accepts (add_allow_endpoint_rules env e) (to_api e) (from_api env e) never.
Proof.
  unfold add_allow_endpoint_rules.
  eapply accepts_ext; [build_accepts | ..]; unfold to_api, from_api; cond_eq.
Qed.

Lemma accepts_tunnel_rules tun ms :
  add_allow_tunnel_rules env tun = Ok ms ->
  accepts ms (on_iface env Out tun) (on_iface env In tun) (forward_tunnel env tun).
Proof.
  unfold add_allow_tunnel_rules, allow_interface_rule.
  intros (o & (mo & Ho & <-%Ok_inj)%bind_result_Ok & H)%bind_result_Ok.
  apply bind_result_Ok in H as (f & (mf & Hf & <-%Ok_inj)%bind_result_Ok & H).
  apply bind_result_Ok in H as (i & (mi & Hi & <-%Ok_inj)%bind_result_Ok & H).
  apply bind_result_Ok in H as (m & Hm & <-%Ok_inj).
  eapply accepts_ext; [build_accepts | ..]; unfold forward_tunnel; cond_eq.
Qed.

Lemma accepts_in_tunnel_endpoint tun e ms :
  add_allow_in_tunnel_endpoint_rules env tun e = Ok ms ->
  accepts ms (fun p => on_iface env Out tun p && at_endpoint Dst e p)
    (fun p => on_iface env In tun p && at_endpoint Src e p) never.
Proof.
  unfold add_allow_in_tunnel_endpoint_rules. cbn [for_each].
  intros (a & (mo & Ho & <-%Ok_inj)%bind_result_Ok & H)%bind_result_Ok.
  apply bind_result_Ok in H as (b & H & <-%Ok_inj).
  apply bind_result_Ok in H as (c & (mi & Hi & <-%Ok_inj)%bind_result_Ok & <-%Ok_inj).
  eapply accepts_ext; [build_accepts | ..]; unfold at_endpoint; cond_eq.
Qed.

Lemma accepts_tunnel_dns_rule tun pr host ms :
  add_allow_tunnel_dns_rule env tun pr host = Ok ms ->
  accepts ms (fun p => on_iface env Out tun p && is_port pr Dst 53 p && is_ip Dst host p) never
    (fun p => on_iface env Out tun p && is_port pr Dst 53 p && is_ip Dst host p).
Proof.
  unfold add_allow_tunnel_dns_rule, allow_tunnel_dns_rule. cbn [for_each table_family].
  intros (a & (r & (mo & Ho & <-%Ok_inj)%bind_result_Ok & <-%Ok_inj)%bind_result_Ok & H)%bind_result_Ok.
  apply bind_result_Ok in H as (b & H & <-%Ok_inj).
  apply bind_result_Ok in H as (c & (r & (mi & Hi & <-%Ok_inj)%bind_result_Ok & <-%Ok_inj)%bind_result_Ok
                               & <-%Ok_inj).
  eapply accepts_ext; [build_accepts | ..]; unfold is_ip; cond_eq.
Qed.

Lemma accepts_local_dns_rule tun pr host ms :
  add_allow_local_dns_rule env tun pr host = Ok ms ->
  accepts ms (fun p => off_iface env Out tun p && is_port pr Dst 53 p && is_ip Dst host p)
    (fun p => off_iface env In tun p && is_port pr Src 53 p && is_ip Src host p)
    (fun p => off_iface env Out tun p && is_port pr Dst 53 p && is_ip Dst host p
              || off_iface env In tun p && is_port pr Src 53 p && is_ip Src host p).
Proof.
  unfold add_allow_local_dns_rule. cbn [for_each].
  intros (a & (m1 & H1 & <-%Ok_inj)%bind_result_Ok & H)%bind_result_Ok.
  apply bind_result_Ok in H as (b & H & <-%Ok_inj).
  apply bind_result_Ok in H as (c & (m2 & H2 & <-%Ok_inj)%bind_result_Ok & H).
  apply bind_result_Ok in H as (d & H & <-%Ok_inj).
  apply bind_result_Ok in H as (e & (m3 & H3 & <-%Ok_inj)%bind_result_Ok & H).
  apply bind_result_Ok in H as (f & H & <-%Ok_inj).
  apply bind_result_Ok in H as (g & (m4 & H4 & <-%Ok_inj)%bind_result_Ok & <-%Ok_inj).
  eapply accepts_ext; [build_accepts | ..]; unfold is_ip; cond_eq.
Qed.

Lemma accepts_lan :
  accepts (add_allow_lan_rules env) (fun p => lan_out p || dhcp_server_out p)
    (fun p => lan_in p || dhcp_server_in p) lan_out.
Proof.
  unfold add_allow_lan_rules, add_dhcp_server_rules.
  cbn [map concat app ALLOWED_LAN_NETS ALLOWED_LAN_MULTICAST_NETS].
  eapply accepts_ext; [build_accepts | ..];
    unfold lan_out, lan_in, dhcp_server_out, dhcp_server_in, DHCPV4_CLIENT_PORT,
      DHCPV4_SERVER_PORT, ALLOWED_LAN_NETS, ALLOWED_LAN_MULTICAST_NETS; cbn [app]; cond_eq.
Qed.

Lemma existsb_or {A} (f g : A -> bool) l :
  existsb (fun a => f a || g a) l = existsb f l || existsb g l.
Proof. induction l as [|a l IH]; simpl; [done|]. rewrite IH. btauto. Qed.

Lemma accepts_tunnel_dns tun servers ms :
  for_each servers (fun server =>
    bind_result (add_allow_tunnel_dns_rule env tun Udp server) (fun u =>
    bind_result (add_allow_tunnel_dns_rule env tun Tcp server) (fun t => Ok (u ++ t)))) = Ok ms ->
  accepts ms (tunnel_dns env tun servers) never (tunnel_dns env tun servers).
Proof.
  intros H. eapply accepts_ext.
  - eapply (accepts_for_each _
      (fun s p => on_iface env Out tun p && dns_port Dst p && is_ip Dst s p)
      (fun _ => never)
      (fun s p => on_iface env Out tun p && dns_port Dst p && is_ip Dst s p)); [|exact H].
    intros s ms' (u & Hu & Ht)%bind_result_Ok. apply bind_result_Ok in Ht as (t & Ht & <-%Ok_inj).
    apply accepts_tunnel_dns_rule in Hu, Ht.
    eapply accepts_ext; [by apply accepts_app | ..]; unfold dns_port; cond_eq.
  - done.
  - intros p. by apply existsb_false.
  - done.
Qed.

Lemma accepts_local_dns tun servers ms :
  for_each servers (fun server =>
    bind_result (add_allow_local_dns_rule env tun Udp server) (fun u =>
    bind_result (add_allow_local_dns_rule env tun Tcp server) (fun t => Ok (u ++ t)))) = Ok ms ->
  accepts ms (local_dns env Out tun servers) (local_dns env In tun servers)
    (fun p => local_dns env Out tun servers p || local_dns env In tun servers p).
Proof.
  intros H. eapply accepts_ext.
  - eapply (accepts_for_each _
      (fun s p => off_iface env Out tun p && dns_port Dst p && is_ip Dst s p)
      (fun s p => off_iface env In tun p && dns_port Src p && is_ip Src s p)
      (fun s p => off_iface env Out tun p && dns_port Dst p && is_ip Dst s p
                  || off_iface env In tun p && dns_port Src p && is_ip Src s p)); [|exact H].
    intros s ms' (u & Hu & Ht)%bind_result_Ok. apply bind_result_Ok in Ht as (t & Ht & <-%Ok_inj).
    apply accepts_local_dns_rule in Hu, Ht.
    eapply accepts_ext; [by apply accepts_app | ..]; unfold dns_port; cond_eq.
  - done.
  - done.
  - intros p. apply existsb_or.
Qed.

Lemma accepts_mangle_dns tun servers ms :
  for_each servers (fun server =>
    bind_result (allow_tunnel_dns_rule env tun Udp server) (fun u =>
    bind_result (allow_tunnel_dns_rule env tun Tcp server) (fun t =>
      Ok [AddRule MANGLE_CHAIN u; AddRule MANGLE_CHAIN t]))) = Ok ms ->
  accepts ms never never never.
Proof.
  intros H. eapply accepts_ext.
  - eapply (accepts_for_each _ (fun _ => never) (fun _ => never) (fun _ => never)); [|exact H].
    intros s ms' (u & Hu & Ht)%bind_result_Ok. apply bind_result_Ok in Ht as (t & Ht & <-%Ok_inj).
    eapply accepts_ext; [build_accepts | cond_eq ..].
  - intros p. by apply existsb_false.
  - intros p. by apply existsb_false.
  - intros p. by apply existsb_false.
Qed.

Lemma accepts_actual_split policy m sel ms :
  add_actual_split_tunneling_rules env policy m sel = Ok ms ->
  accepts ms (has CtMark MARK) (has CtMark MARK) (has CtMark MARK).
Proof.
  unfold add_actual_split_tunneling_rules.
  intros (dns & Hdns & H)%bind_result_Ok. apply bind_result_Ok in H as (blk & Hblk & H).
  apply bind_result_Ok in H as (lo & _ & H). apply bind_result_Ok in H as (pre & Hpre & <-%Ok_inj).
  assert (accepts dns never never never) as Adns.
  { destruct policy; first [by eapply accepts_mangle_dns | apply Ok_inj in Hdns as <-; apply accepts_nil]. }
  assert (accepts blk never never never) as Ablk.
  { destruct policy; try (apply Ok_inj in Hblk as <-; apply accepts_nil).
    apply bind_result_Ok in Hblk as (r & _ & <-%Ok_inj). by apply accepts_other. }
  assert (accepts pre never never never) as Apre.
  { destruct policy; try (apply Ok_inj in Hpre as <-; apply accepts_nil).
    apply bind_result_Ok in Hpre as (r & _ & <-%Ok_inj). by apply accepts_other. }
  eapply accepts_ext.
  - eapply accepts_app; [exact Adns|]. eapply accepts_app; [by apply accepts_other|].
    cbn [map]. eapply accepts_app; [build_accepts|]. eapply accepts_app; [exact Ablk|].
    eapply accepts_app; [by apply accepts_other | exact Apre].
  - cond_eq.
  - cond_eq.
  - cond_eq.
Qed.

Lemma accepts_split policy ms :
  add_split_tunneling_rules env policy fw = Ok ms ->
  accepts ms (excluded env fw) (excluded env fw) (excluded env fw).
Proof.
  unfold add_split_tunneling_rules, excluded, split_tunneling.
  destruct (feature_cgroup2 env), (excluded_cgroup2 fw), (net_cls fw); simpl;
    try apply accepts_actual_split; intros [= <-]; apply accepts_nil.
Qed.

Lemma accepts_traffic tun traffic ms :
  match traffic with
  | TrafficAll => add_allow_tunnel_rules env (interface tun)
  | TrafficNone => Ok []
  | TrafficOne endpoint => add_allow_in_tunnel_endpoint_rules env (interface tun) endpoint
  | TrafficTwo endpoint1 endpoint2 =>
      bind_result (add_allow_in_tunnel_endpoint_rules env (interface tun) endpoint1) (fun a =>
      bind_result (add_allow_in_tunnel_endpoint_rules env (interface tun) endpoint2) (fun b =>
        Ok (a ++ b)))
  end = Ok ms ->
  accepts ms (in_tunnel env Out (Some tun) traffic) (in_tunnel env In (Some tun) traffic)
    (fun p => match traffic with TrafficAll => forward_tunnel env (interface tun) p | _ => false end).
Proof.
  destruct traffic as [| |e|e1 e2].
  - intros <-%Ok_inj. apply accepts_nil.
  - apply accepts_tunnel_rules.
  - apply accepts_in_tunnel_endpoint.
  - intros (a & Ha & H)%bind_result_Ok. apply bind_result_Ok in H as (b & Hb & <-%Ok_inj).
    apply accepts_in_tunnel_endpoint in Ha, Hb.
    eapply accepts_ext; [by apply accepts_app | ..]; unfold in_tunnel; cond_eq.
Qed.

(** ** Rules that reject *)
Definition reject_dns (p : pview) : option nft_verdict :=
  if is_port Udp Dst 53 p then Some (Reject RejectIcmpPortUnreach)
  else if is_port Tcp Dst 53 p then Some (Reject RejectTcpRst) else None.

Definition none_ (p : pview) : option nft_verdict := None.

Definition verdict_if (c : pview -> bool) (v : nft_verdict) (p : pview) : option nft_verdict :=
  if c p then Some v else None.

Lemma acts3_ext a o i f o' i' f' :
  acts3 a o i f -> (forall p, o p = o' p) -> (forall p, i p = i' p) -> (forall p, f p = f' p) ->
  acts3 a o' i' f'.
Proof. intros (?&?&?) ???. split_and!; by eapply acts_ext. Qed.

Lemma acts3_cons m ms o i f o' i' f' :
  acts3 [m] o i f -> acts3 ms o' i' f' ->
  acts3 (m :: ms) (fun p => orelse (o p) (o' p)) (fun p => orelse (i p) (i' p))
    (fun p => orelse (f p) (f' p)).
Proof. apply (acts3_app [m] ms). Qed.

Lemma acts3_nil : acts3 [] none_ none_ none_.
Proof. by split_and!; intros rest d p. Qed.

Lemma acts3_out r c v : decides r c v -> acts3 [AddRule OUT_CHAIN r] (verdict_if c v) none_ none_.
Proof. intros H. split_and!; [by apply acts_cons_rule | by apply acts_other ..]. Qed.

Lemma acts3_in r c v : decides r c v -> acts3 [AddRule IN_CHAIN r] none_ (verdict_if c v) none_.
Proof. intros H. split_and!; [by apply acts_other | by apply acts_cons_rule | by apply acts_other]. Qed.

Lemma acts3_forward r c v :
  decides r c v -> acts3 [AddRule FORWARD_CHAIN r] none_ none_ (verdict_if c v).
Proof. intros H. split_and!; [by apply acts_other .. | by apply acts_cons_rule]. Qed.

Ltac build_acts :=
  repeat first
    [ apply acts3_nil
    | eapply acts3_cons;
      [first [eapply acts3_out; build_rule | eapply acts3_in; build_rule
              | eapply acts3_forward; build_rule]|]].

Lemma acts_drop_dns : acts3 (add_drop_dns_rule env) reject_dns none_ reject_dns.
Proof.
  unfold add_drop_dns_rule. cbn [map concat app].
  eapply acts3_ext; [build_acts | ..]; intros p; unfold reject_dns, verdict_if, none_; simpl;
    rewrite ?andb_true_r; by repeat case_match.
Qed.

Definition drop_tunnel_ip (tunnel : option TunnelMetadata) (p : pview) : option nft_verdict :=
  if to_tunnel_ip tunnel p then Some Drop else None.

Lemma acts_block_cve tun :
  acts3 (add_block_cve_2019_14899 env tun) none_ (drop_tunnel_ip (Some tun)) none_.
Proof.
  unfold add_block_cve_2019_14899, drop_tunnel_ip, to_tunnel_ip.
  induction (ips tun) as [|ip l IH]; cbn [map existsb]; [apply acts3_nil|].
  eapply acts3_ext; [eapply acts3_cons; [eapply acts3_in; build_rule | exact IH] | done | | done].
  intros p. unfold verdict_if. rewrite andb_true_r. by destruct (is_ip Dst ip p).
Qed.

Lemma acts_reject_rest :
  acts3 (map (fun chain => AddRule chain (add_verdict env (Reject RejectIcmpPortUnreach)))
           [OUT_CHAIN; FORWARD_CHAIN])
    (fun _ => Some (Reject RejectIcmpPortUnreach)) none_
    (fun _ => Some (Reject RejectIcmpPortUnreach)).
Proof. cbn [map]. eapply acts3_ext; [build_acts | done ..]. Qed.

(** ** The whole batch *)

(** The verdict of an outgoing or forwarded packet that is not permitted. *)
Definition refused (p : pview) : nft_verdict :=
  match reject_dns p with Some v => v | None => Reject RejectIcmpPortUnreach end.

Lemma accepts_acts ms o i f : accepts ms o i f -> acts3 ms (accept_if o) (accept_if i) (accept_if f).
Proof. done. Qed.

Lemma dns_port_reject p : dns_port Dst p = match reject_dns p with Some _ => true | None => false end.
Proof.
  unfold dns_port, reject_dns. by destruct (is_port Udp Dst 53 p), (is_port Tcp Dst 53 p).
Qed.

Lemma reject_dns_not_accept p v : reject_dns p = Some v -> v <> Accept.
Proof. unfold reject_dns. intros. by repeat case_match; simplify_eq. Qed.

Lemma acts_lan_rest (lan : bool) :
  acts3 ((if lan then add_allow_lan_rules env else [])
         ++ map (fun chain => AddRule chain (add_verdict env (Reject RejectIcmpPortUnreach)))
              [OUT_CHAIN; FORWARD_CHAIN])
    (fun p => Some (if lan && (lan_out p || dhcp_server_out p) then Accept
                    else Reject RejectIcmpPortUnreach))
    (accept_if (fun p => lan && (lan_in p || dhcp_server_in p)))
    (fun p => Some (if lan && lan_out p then Accept else Reject RejectIcmpPortUnreach)).
Proof.
  destruct lan; [|by apply acts_reject_rest].
  eapply acts3_ext; [apply acts3_app; [apply accepts_acts, accepts_lan | apply acts_reject_rest]|..];
    intros p; unfold accept_if, none_; simpl; by repeat case_match.
Qed.

Lemma acts_cve (lan : bool) tun :
  acts3 (if lan then add_block_cve_2019_14899 env tun else []) none_
    (fun p => if lan && to_tunnel_ip (Some tun) p then Some Drop else None) none_.
Proof. destruct lan; [apply acts_block_cve | apply acts3_nil]. Qed.

Lemma acts_always loopback split policy :
  add_loopback_rules env = Ok loopback -> add_split_tunneling_rules env policy fw = Ok split ->
  acts3 (PolicyBatch_new ++ loopback ++ split ++ add_dhcp_client_rules env ++ add_ndp_rules env)
    (accept_if (always_out env fw)) (accept_if (always_in env fw)) (accept_if (always_forward env fw)).
Proof.
  intros Hl%accepts_loopback Hs%accepts_split.
  assert (accepts PolicyBatch_new never never never) as Hn by (by split_and!; intros rest d p).
  eapply accepts_ext.
  - apply accepts_app; [exact Hn|]. apply accepts_app; [exact Hl|].
    apply accepts_app; [exact Hs|]. apply accepts_app; [apply accepts_dhcp_client | apply accepts_ndp].
  - unfold always_out. cond_eq.
  - unfold always_in. cond_eq.
  - unfold always_forward. cond_eq.
Qed.

Definition refines_policy (policy : FirewallPolicy) (ms : list batch_msg) : Prop :=
  exists vi,
    acts3 ms (fun p => Some (if policy_out env fw policy p then Accept else refused p)) vi
      (fun p => Some (if policy_forward env policy p then Accept else refused p))
    /\ forall p, default Drop (vi p) = if policy_in env policy p then Accept else Drop.

(** Split on the atomic conditions a goal tests. *)
Ltac atom b :=
  lazymatch b with
  | andb _ _ => fail | orb _ _ => fail | negb _ => fail | context [if _ then _ else _] => fail
  | _ => idtac
  end.

Ltac split_conds :=
  repeat (match goal with
    | |- context [andb ?b _] => atom b; destruct b
    | |- context [orb ?b _] => atom b; destruct b
    | |- context [negb ?b] => atom b; destruct b
    | |- context [if ?b then _ else _] => atom b; destruct b
    end; simpl; try done); try done.

Ltac refine_conds :=
  intros p; unfold policy_out, policy_in, policy_forward, accept_if, none_, refused; simpl;
  rewrite ?dns_port_reject; try (destruct (reject_dns p); simpl); split_conds.

Lemma refines_blocked lan api ms :
  add_policy_specific_rules env (Blocked lan api) (fwmark fw) = Ok ms ->
  refines_policy (Blocked lan api) ms.
Proof.
  unfold add_policy_specific_rules. cbn [bind_result policy_allow_lan]. intros <-%Ok_inj.
  assert (accepts (match api with Some e => add_allow_endpoint_rules env e | None => [] end)
            (fun p => match api with Some e => to_api e p | None => false end)
            (fun p => match api with Some e => from_api env e p | None => false end) never) as Hapi.
  { destruct api; [apply accepts_api | apply accepts_nil]. }
  eexists. split.
  - eapply acts3_ext;
      [apply acts3_app; [apply acts3_app; [exact Hapi | apply acts_drop_dns] | apply acts_lan_rest]
      |..]; [refine_conds | done | refine_conds].
  - refine_conds.
Qed.

Lemma refines_connected peers tun lan dns ms :
  add_policy_specific_rules env (Connected peers tun lan dns) (fwmark fw) = Ok ms ->
  refines_policy (Connected peers tun lan dns) ms.
Proof.
  unfold add_policy_specific_rules. cbn [policy_allow_lan].
  intros (sp & H & <-%Ok_inj)%bind_result_Ok.
  apply bind_result_Ok in H as (td & Htd%accepts_tunnel_dns & H).
  apply bind_result_Ok in H as (ld & Hld%accepts_local_dns & H).
  apply bind_result_Ok in H as (tr & Htr%accepts_tunnel_rules & <-%Ok_inj).
  eexists. split.
  - eapply acts3_ext; [apply acts3_app;
      [apply acts3_app; [apply accepts_acts, accepts_peers|];
       apply acts3_app; [apply accepts_acts, Htd|]; apply acts3_app; [apply accepts_acts, Hld|];
       apply acts3_app; [apply acts_drop_dns|]; apply acts3_app; [apply accepts_acts, Htr|];
       apply acts_cve
      | apply acts_lan_rest] |..]; [refine_conds | done | refine_conds].
  - refine_conds.
Qed.

Lemma refines_connecting peers tunnel lan api traffic ms :
  add_policy_specific_rules env (Connecting peers tunnel lan api traffic) (fwmark fw) = Ok ms ->
  refines_policy (Connecting peers tunnel lan api traffic) ms.
Proof.
  unfold add_policy_specific_rules. cbn [policy_allow_lan].
  intros (sp & H & <-%Ok_inj)%bind_result_Ok.
  apply bind_result_Ok in H as (it & Hit & <-%Ok_inj).
  assert (acts3 it (accept_if (in_tunnel env Out tunnel traffic))
    (fun p => orelse (accept_if (in_tunnel env In tunnel traffic) p)
                (if lan && to_tunnel_ip tunnel p then Some Drop else None))
    (accept_if (fun p => match tunnel, traffic with
                         | Some tun, TrafficAll => forward_tunnel env (interface tun) p
                         | _, _ => false
                         end))) as Hit'.
  { destruct tunnel as [tun|].
    - apply bind_result_Ok in Hit as (t & Ht%accepts_traffic & <-%Ok_inj).
      eapply acts3_ext; [apply acts3_app; [apply accepts_acts, Ht | apply acts_cve]|..];
        intros p; unfold accept_if, none_; by repeat case_match.
    - apply Ok_inj in Hit as <-. eapply acts3_ext; [apply acts3_nil|..]; intros p; unfold none_; simpl;
        by rewrite ?andb_false_r. }
  eexists. split.
  - eapply acts3_ext; [apply acts3_app;
      [apply acts3_app; [apply accepts_acts, accepts_peers|];
       apply acts3_app; [apply accepts_acts, accepts_api|];
       apply acts3_app; [apply acts_drop_dns | exact Hit']
      | apply acts_lan_rest] |..]; [refine_conds | done | refine_conds].
  - refine_conds.
Qed.

Lemma refines_specific policy ms :
  add_policy_specific_rules env policy (fwmark fw) = Ok ms -> refines_policy policy ms.
Proof.
  destruct policy; [apply refines_connecting | apply refines_connected | apply refines_blocked].
Qed.

(** The three filter chains of a finalized batch. *)
Lemma finalize_acts policy b :
  finalize env policy fw = Ok b ->
  exists vi,
    acts3 b
      (fun p => Some (if out_permitted env fw policy p then Accept else refused p)) vi
      (fun p => Some (if forward_permitted env fw policy p then Accept else refused p))
    /\ forall p, default Drop (vi p) = if in_permitted env fw policy p then Accept else Drop.
Proof.
  unfold finalize. intros (lo & Hlo & H)%bind_result_Ok.
  apply bind_result_Ok in H as (sp & Hsp & H).
  apply bind_result_Ok in H as (ms & (vi & Hms & Hvi)%refines_specific & <-%Ok_inj).
  exists (fun p => orelse (accept_if (always_in env fw) p) (vi p)). split.
  - replace (PolicyBatch_new ++ lo ++ sp ++ add_dhcp_client_rules env ++ add_ndp_rules env ++ ms)
      with ((PolicyBatch_new ++ lo ++ sp ++ add_dhcp_client_rules env ++ add_ndp_rules env) ++ ms)
      by (by rewrite <- !app_assoc).
    eapply acts3_ext; [apply acts3_app; [by eapply acts_always | exact Hms]|..];
      intros p; unfold accept_if, out_permitted, forward_permitted; split_conds.
  - intros p. unfold accept_if, in_permitted. destruct (always_in env fw p); simpl; [done | apply Hvi].
Qed.
Lemma acts_run c ms f d p :
  acts c ms f -> run_chain (chain_rules c ms) d p = (default d (f p), p).
Proof.
  intros H. rewrite <- (app_nil_r (chain_rules c ms)), H. rewrite run_chain_nil. by destruct (f p).
Qed.

Lemma finalize_prefix policy b :
  finalize env policy fw = Ok b -> exists rules, b = PolicyBatch_new ++ rules.
Proof.
  unfold finalize. intros (lo & Hlo & H)%bind_result_Ok.
  apply bind_result_Ok in H as (sp & Hsp & H). apply bind_result_Ok in H as (ms & _ & <-%Ok_inj).
  by eexists.
Qed.

(** The input, output and forward chains drop what no rule decides. *)
Lemma finalize_default policy b c :
  finalize env policy fw = Ok b -> c = OUT_CHAIN \/ c = IN_CHAIN \/ c = FORWARD_CHAIN ->
  chain_default c b = Drop.
Proof.
  intros (rules & ->)%finalize_prefix Hc. unfold chain_default. rewrite omap_app.
  by destruct Hc as [-> | [-> | ->]].
Qed.
End refinement.

#[export] Hint Resolve matches_port matches_ip matches_net matches_endpoint matches_icmpv6
  matches_established matches_clients check_iface_Ok check_not_iface_Ok decides_add_verdict : vpn.
