(* ===== verification/FirewallApply.v ===== *)
(** * Applying a policy

    [Firewall::apply_policy] and [reset_policy] of [src/talpid-core/src/firewall/linux.rs]: build the
    batch, send it to netfilter, adjust the kernel's network settings, and verify that the table is
    there.  The kernel is a parameter, the class [Netfilter]: netlink transactions (through the [mnl]
    crate), the list of tables, and the files under [/proc/sys].  Its laws are what the kernel
    documents: a batch is one transaction, applied completely or not at all. *)

From stdpp Require Import base list strings option numbers sets.
From S2P Require Import Prelude NetTypes TunnelTypes FirewallPolicy Nftables FirewallLinux.
From S2P Require Import FirewallSpec FirewallRefine.

(** The messages the kernel answers with are opaque; [None] in a received datagram is a message that
    does not parse, [None] for a datagram is a failed [recv]. *)
Class Netfilter (K : Type) : Type := {
  nl_message : Type;
  (** [mnl::Socket::new] and [portid]. *)
  socket_new : K -> option Z;
  (** [send_all] of a finalized batch; the sequence numbers of its messages. *)
  send_all : list batch_msg -> K -> K * bool;
  sequence_numbers : list batch_msg -> list Z;
  (** What successive calls of [recv] on the socket of the batch return; a call after the last one
      blocks. *)
  recvs : K -> list (option (list (option nl_message)));
  (** [mnl::cb_run] accepts a message as an acknowledgement of a sequence number. *)
  cb_run : nl_message -> Z -> Z -> bool;
  (** The listing of tables: [send], one [recv], and [cb_run2] with [get_tables_cb], which adds the
      names in a message to the set. *)
  send_get_tables : Z -> K -> bool;
  recv_tables : K -> option (list (option nl_message));
  cb_run2 : nl_message -> Z -> Z -> option (list string);
  read_to_string : string -> K -> option string;
  write_file : string -> string -> K -> K * bool;
  (** The index of a network interface, by name. *)
  if_nametoindex : K -> string -> option Z;
  (** The messages of the table [mullvad] that are in force, none when the table is absent. *)
  installed : K -> option (list batch_msg);
}.

(** What a batch leaves in the table: everything after the last removal of the table. *)
Fixpoint batch_effect (old : option (list batch_msg)) (b : list batch_msg)
  : option (list batch_msg) :=
  match b with
  | [] => old
  | AddTable _ :: b => batch_effect (Some (default [] old)) b
  | DelTable _ :: b => batch_effect None b
  | m :: b => batch_effect ((fun ms => ms ++ [m]) <$> old) b
  end.

(** All the messages of the received datagrams, in order. *)
Definition received {M} (rs : list (option (list (option M)))) : list (option M) :=
  concat (map (default []) rs).

(** A batch is one transaction; each of its messages is answered once, unless receiving fails; when
    every message was answered positively the transaction is committed. *)
Class NetfilterLaws (K : Type) (NF : Netfilter K) : Prop := {
  send_atomic b k k' ok :
    send_all b k = (k', ok) ->
    installed k' = installed k \/ installed k' = batch_effect (installed k) b;
  send_answered b k k' :
    send_all b k = (k', true) ->
    length (received (recvs k')) = length (sequence_numbers b)
    \/ None ∈ recvs k' /\ length (received (recvs k')) <= length (sequence_numbers b);
  send_commits b k k' portid ms rest :
    socket_new k = Some portid -> send_all b k = (k', true) ->
    received (recvs k') = map Some ms ++ rest ->
    Forall2 (fun m s => cb_run m s portid = true) ms (sequence_numbers b) ->
    installed k' = batch_effect (installed k) b;
  write_file_installed path content k : installed (write_file path content k).1 = installed k;
  write_file_read path content k k' :
    write_file path content k = (k', true) -> read_to_string path k' = Some content;
  write_file_read_other path path' content k :
    path <> path' -> read_to_string path' (write_file path content k).1 = read_to_string path' k;
}.

(** How a call that talks to the kernel ends: with a result, with a panic ([expect]), or waiting
    forever for a datagram. *)
Inductive outcome : Type :=
| Done (r : result unit fw_error)
| Panicked
| Hung.

Definition is_done_ok (o : outcome) : bool := match o with Done (Ok _) => true | _ => false end.

Definition PROC_SYS_NET_IPV4_CONF_SRC_VALID_MARK : string :=
  "/proc/sys/net/ipv4/conf/all/src_valid_mark".
Definition PROC_SYS_NET_IPV4_CONF_ARP_IGNORE : string :=
  "/proc/sys/net/ipv4/conf/all/arp_ignore".

(** [str::trim] on the ASCII text the kernel writes into these files. *)
Definition is_whitespace (c : Ascii.ascii) : bool :=
  let n := Ascii.nat_of_ascii c in
  (Nat.eqb n 32 || (Nat.leb 9 n && Nat.leb n 13))%bool.

Fixpoint trim_start (l : list Ascii.ascii) : list Ascii.ascii :=
  match l with
  | c :: r => if is_whitespace c then trim_start r else l
  | [] => []
  end.

Definition trim (s : string) : string :=
  String.string_of_list_ascii
    (rev (trim_start (rev (trim_start (String.list_ascii_of_string s))))).

Section apply.
Context `{IpNetworkOps} {K : Type} `{NF : Netfilter K}.
Variable env : fw_env.
Variable fw : Firewall.

(** The environment with the interface indices of the running kernel. *)
Definition env_at (k : K) : fw_env :=
  {| ADD_COUNTERS := ADD_COUNTERS env;
     DONT_SET_SRC_VALID_MARK := DONT_SET_SRC_VALID_MARK env;
     DONT_SET_ARP_IGNORE := DONT_SET_ARP_IGNORE env;
     feature_cgroup2 := feature_cgroup2 env;
     iface_index := if_nametoindex k;
     ct_ESTABLISHED := ct_ESTABLISHED env |}.

Definition set_src_valid_mark_sysctl (k : K) : K * bool :=
  write_file PROC_SYS_NET_IPV4_CONF_SRC_VALID_MARK "1" k.

Definition lock_down_arp_ignore_sysctl (k : K) : K * bool :=
  match read_to_string PROC_SYS_NET_IPV4_CONF_ARP_IGNORE k with
  | None => (k, false)
  | Some current_arp_ignore =>
      let t := trim current_arp_ignore in
      if decide (t = "0" \/ t = "1")
      then write_file PROC_SYS_NET_IPV4_CONF_ARP_IGNORE "2" k
      else (k, true)
  end.

(** A failure to adjust a setting is only logged. *)
Definition apply_kernel_config (policy : FirewallPolicy) (k : K) : K :=
  let k :=
    if DONT_SET_SRC_VALID_MARK env then k
    else match policy with
         | Connecting _ _ _ _ _ => (set_src_valid_mark_sysctl k).1
         | _ => k
         end in
  if DONT_SET_ARP_IGNORE env then k
  else match policy with
       | Connecting _ _ _ _ _ | Connected _ _ _ _ => (lock_down_arp_ignore_sysctl k).1
       | Blocked _ _ => k
       end.

(** The body of the [for] over one datagram's messages: the sequence numbers left, or how the
    function ends. *)
Fixpoint process_messages (portid : Z) (msgs : list (option nl_message)) (expected_seqs : list Z)
  : list Z + outcome :=
  match msgs with
  | [] => inl expected_seqs
  | None :: _ => inr (Done (Err ProcessNetlinkError))
  | Some message :: msgs =>
      match expected_seqs with
      | [] => inr Panicked
      | expected_seq :: expected_seqs =>
          if cb_run message expected_seq portid
          then process_messages portid msgs expected_seqs
          else inr (Done (Err ProcessNetlinkError))
      end
  end.

(** The [while] loop, over the datagrams [recv] returns. *)
Fixpoint process_acks (portid : Z) (rs : list (option (list (option nl_message))))
    (expected_seqs : list Z) : outcome :=
  match expected_seqs with
  | [] => Done (Ok tt)
  | _ =>
      match rs with
      | [] => Hung
      | None :: _ => Done (Err NetlinkSendError)
      | Some msgs :: rs =>
          match process_messages portid msgs expected_seqs with
          | inl expected_seqs => process_acks portid rs expected_seqs
          | inr o => o
          end
      end
  end.

Definition send_and_process (batch : list batch_msg) (k : K) : K * outcome :=
  match socket_new k with
  | None => (k, Done (Err NetlinkOpenError))
  | Some portid =>
      match send_all batch k with
      | (k, false) => (k, Done (Err NetlinkSendError))
      | (k, true) => (k, process_acks portid (recvs k) (sequence_numbers batch))
      end
  end.

Fixpoint collect_tables (portid seq : Z) (msgs : list (option nl_message))
    (table_set : list string) : result (list string) fw_error :=
  match msgs with
  | [] => Ok table_set
  | None :: _ => Err ProcessNetlinkError
  | Some message :: msgs =>
      match cb_run2 message seq portid with
      | Some names => collect_tables portid seq msgs (table_set ++ names)
      | None => Err ProcessNetlinkError
      end
  end.

Definition verify_tables (expected_tables : list string) (k : K) : result unit fw_error :=
  match socket_new k with
  | None => Err NetlinkOpenError
  | Some portid =>
      let seq := 1%Z in
      if send_get_tables seq k then
        match recv_tables k with
        | None => Err NetlinkRecvError
        | Some msgs =>
            match collect_tables portid seq msgs [] with
            | Err e => Err e
            | Ok table_set =>
                if forallb (fun t => bool_decide (t ∈ table_set)) expected_tables
                then Ok tt else Err NetfilterTableNotSetError
            end
        end
      else Err NetlinkSendError
  end.

Definition apply_policy (policy : FirewallPolicy) (k : K) : K * outcome :=
  match finalize (env_at k) policy fw with
  | Err e => (k, Done (Err e))
  | Ok batch =>
      match send_and_process batch k with
      | (k, Done (Ok _)) =>
          let k := apply_kernel_config policy k in
          (k, Done (verify_tables [TABLE_NAME] k))
      | ko => ko
      end
  end.

Definition reset_policy (k : K) : K * outcome :=
  send_and_process [AddTable TABLE_NAME; DelTable TABLE_NAME] k.
End apply.

(** ** The messages after the table's creation *)
Definition is_table_msg (m : batch_msg) : bool :=
  match m with AddTable _ | DelTable _ => true | _ => false end.

Definition no_tables (ms : list batch_msg) : Prop := Forall (fun m => is_table_msg m = false) ms.

Lemma batch_effect_rules ms old : no_tables ms -> batch_effect (Some old) ms = Some (old ++ ms).
Proof.
  intros H. revert old. induction H as [|m ms Hm _ IH]; intros old; simpl; [by rewrite app_nil_r|].
  destruct m; simpl in *; try done; by rewrite IH, <- app_assoc.
Qed.

Lemma no_tables_app a b : no_tables a -> no_tables b -> no_tables (a ++ b).
Proof. apply Forall_app_2. Qed.

Lemma no_tables_concat_map {A} (g : A -> list batch_msg) l :
  (forall a, no_tables (g a)) -> no_tables (concat (map g l)).
Proof. intros H. induction l; simpl; [constructor | by apply no_tables_app]. Qed.

Lemma no_tables_map {A} (c : A -> chain_name) (r : A -> nft_rule) l :
  no_tables (map (fun a => AddRule (c a) (r a)) l).
Proof. induction l; simpl; by constructor. Qed.

Lemma no_tables_for_each {A} (body : A -> result (list batch_msg) fw_error) l ms :
  (forall a ms, body a = Ok ms -> no_tables ms) -> for_each l body = Ok ms -> no_tables ms.
Proof.
  intros Hb. revert ms. induction l as [|a l IH]; intros ms; simpl.
  - intros <-%Ok_inj. constructor.
  - intros (m & Ha & H)%bind_result_Ok. apply bind_result_Ok in H as (ms' & Hl & <-%Ok_inj).
    apply no_tables_app; eauto.
Qed.

Ltac solve_no_tables :=
  repeat first
    [ match goal with
      | H : bind_result _ _ = Ok _ |- _ => apply bind_result_Ok in H as (? & ? & H)
      | H : Ok _ = Ok _ |- _ => apply Ok_inj in H as <-
      | H : for_each _ _ = Ok _ |- _ => eapply no_tables_for_each; [|exact H]; clear H; intros; cbv beta in *
      | H : context [match ?x with _ => _ end] |- _ => is_var x; destruct x
      | |- context [match ?x with _ => _ end] => is_var x; destruct x
      | |- context [if ?b then _ else _] => destruct b
      end
    | apply no_tables_app | apply no_tables_concat_map; intros
    | apply no_tables_map | (constructor; [done|]) | constructor ].

Section installs.
Context `{O : IpNetworkOps}.

Lemma no_tables_split env policy fw ms :
  add_split_tunneling_rules env policy fw = Ok ms -> no_tables ms.
Proof.
  unfold add_split_tunneling_rules, add_actual_split_tunneling_rules.
  intros Hs. destruct (feature_cgroup2 env), (excluded_cgroup2 fw), (net_cls fw), policy;
    solve_no_tables.
Qed.

Lemma no_tables_specific env policy mark ms :
  add_policy_specific_rules env policy mark = Ok ms -> no_tables ms.
Proof.
  unfold add_policy_specific_rules, add_allow_tunnel_rules, add_allow_in_tunnel_endpoint_rules,
    add_allow_tunnel_dns_rule, add_allow_local_dns_rule.
  intros Hs. destruct policy; solve_no_tables.
Qed.

Lemma finalize_no_tables env policy fw b :
  finalize env policy fw = Ok b ->
  no_tables (drop 3 b) /\
  b = [AddTable TABLE_NAME; DelTable TABLE_NAME; AddTable TABLE_NAME] ++ drop 3 b.
Proof.
  unfold finalize, add_loopback_rules. intros Hf. split_and!.
  - solve_no_tables; repeat apply no_tables_app; try (by repeat constructor);
      eauto using no_tables_split, no_tables_specific.
  - solve_no_tables; done.
Qed.
End installs.

(** ** What applying a policy achieves *)
Section enforcement.
Context `{O : IpNetworkOps} {K : Type} `{NF : Netfilter K} {NFL : NetfilterLaws K NF}.
Variable env : fw_env.
Variable fw : Firewall.

(** The table in force is the one built for [policy], with the interface indices the kernel had
    when it was built. *)
Definition linux_enforces (k : K) (policy : FirewallPolicy) : Prop :=
  exists k0 b, finalize (env_at env k0) policy fw = Ok b /\ installed k = Some (drop 3 b).

Lemma batch_installs k0 policy b old :
  finalize (env_at env k0) policy fw = Ok b -> batch_effect old b = Some (drop 3 b).
Proof.
  intros Hf. destruct (finalize_no_tables _ _ _ _ Hf) as [Hn Hb].
  rewrite Hb at 1. simpl. by rewrite batch_effect_rules.
Qed.

Lemma write_file_keeps path content k :
  installed (write_file path content k).1 = installed k.
Proof. apply write_file_installed. Qed.

Lemma kernel_config_installed policy k :
  installed (apply_kernel_config env policy k) = installed k.
Proof.
  unfold apply_kernel_config, lock_down_arp_ignore_sysctl, set_src_valid_mark_sysctl.
  destruct (DONT_SET_SRC_VALID_MARK env), (DONT_SET_ARP_IGNORE env), policy; try done;
    repeat case_match; simpl; by rewrite ?write_file_keeps.
Qed.

(** A loop that ends well consumed one positive acknowledgement per sequence number. *)
Lemma process_messages_ok portid msgs seqs seqs' :
  process_messages portid msgs seqs = inl seqs' ->
  exists ms done, msgs = map Some ms /\ seqs = done ++ seqs'
    /\ Forall2 (fun m s => cb_run m s portid = true) ms done.
Proof.
  revert seqs. induction msgs as [|[m|] msgs IH]; intros seqs; simpl; [| |done].
  - intros [= ->]. by exists [], [].
  - destruct seqs as [|s seqs]; [done|]. destruct (cb_run m s portid) eqn:E; [|done].
    intros (ms&d&->&->&HF)%IH. exists (m :: ms), (s :: d). split_and!; [done..|by constructor].
Qed.

Lemma process_messages_stops portid msgs seqs u :
  process_messages portid msgs seqs <> inr (Done (Ok u)).
Proof.
  revert seqs. induction msgs as [|[m|] msgs IH]; intros [|s seqs]; simpl; try done.
  case_match; [apply IH | done].
Qed.

Lemma process_acks_ok portid rs seqs u :
  process_acks portid rs seqs = Done (Ok u) ->
  exists ms rest, received rs = map Some ms ++ rest
    /\ Forall2 (fun m s => cb_run m s portid = true) ms seqs.
Proof.
  revert seqs. induction rs as [|[msgs|] rs IH]; intros [|s seqs]; simpl; try done;
    try (intros _; eexists [], _; by split).
  destruct (process_messages portid msgs (s :: seqs)) as [seqs'|o] eqn:E;
    [|by intros ->; destruct (process_messages_stops _ _ _ _ E)].
  intros (ms&rest&Hr&HF)%IH. apply process_messages_ok in E as (ms'&d&->&->&HF').
  exists (ms' ++ ms), rest. unfold received in *. simpl. rewrite Hr, map_app, app_assoc.
  split; [done | by apply Forall2_app].
Qed.

(** One answer per message: the loop neither panics nor waits for a datagram that never comes. *)
Lemma process_messages_fits portid msgs seqs :
  length msgs <= length seqs ->
  match process_messages portid msgs seqs with
  | inl seqs' => length seqs = length msgs + length seqs'
  | inr o => exists r, o = Done r
  end.
Proof.
  revert seqs. induction msgs as [|[m|] msgs IH]; intros seqs Hl; simpl in *; [done| |by eauto].
  destruct seqs as [|s seqs]; simpl in *; [lia|]. destruct (cb_run m s portid); [|by eauto].
  specialize (IH seqs ltac:(lia)). destruct (process_messages portid msgs seqs); [lia | done].
Qed.

Lemma process_acks_done portid rs seqs :
  length (received rs) = length seqs \/ None ∈ rs /\ length (received rs) <= length seqs ->
  exists r, process_acks portid rs seqs = Done r.
Proof.
  revert seqs. induction rs as [|[msgs|] rs IH]; intros [|s seqs] Hl; simpl; try by eauto.
  - unfold received in Hl. simpl in Hl. set_solver by lia.
  - unfold received in *. simpl in *. rewrite length_app in Hl.
    pose proof (process_messages_fits portid msgs (s :: seqs) ltac:(simpl; lia)) as Hf.
    destruct (process_messages portid msgs (s :: seqs)) as [seqs'|o]; [|by destruct Hf; eauto].
    simpl in Hf. apply IH. destruct Hl as [Hl | [Hn Hl]]; [left; lia | right].
    split; [by set_solver | lia].
Qed.

Lemma send_and_process_done b k : exists k' r, send_and_process b k = (k', Done r).
Proof.
  unfold send_and_process. destruct (socket_new k) as [portid|]; [|by eauto].
  destruct (send_all b k) as [k' [|]] eqn:E; [|by eauto].
  apply send_answered in E. destruct (process_acks_done portid _ _ E) as [r ->]. by eauto.
Qed.

Lemma send_and_process_outcome b k k' o :
  send_and_process b k = (k', o) ->
  (is_done_ok o = true -> installed k' = batch_effect (installed k) b)
  /\ (installed k' = installed k \/ installed k' = batch_effect (installed k) b).
Proof.
  unfold send_and_process. destruct (socket_new k) as [portid|] eqn:Ep;
    [|intros [= <- <-]; split; [done | by left]].
  destruct (send_all b k) as [k1 [|]] eqn:E; intros [= <- <-].
  - split; [|by eapply send_atomic].
    destruct (process_acks portid (recvs k1) (sequence_numbers b)) as [[u|]| |] eqn:Ea; try done.
    intros _. destruct (process_acks_ok _ _ _ _ Ea) as (ms&rest&?&?). by eapply send_commits.
  - split; [done | by eapply send_atomic].
Qed.

(** A successful [apply_policy] leaves the policy in force; a failed one leaves what was in force
    or, when the failure is noticed after the transaction, the new policy. *)
Lemma apply_policy_outcome policy k k' o :
  apply_policy env fw policy k = (k', o) ->
  (is_done_ok o = true -> linux_enforces k' policy)
  /\ (installed k' = installed k \/ linux_enforces k' policy).
Proof.
  unfold apply_policy.
  destruct (finalize (env_at env k) policy fw) as [b|e] eqn:Hf;
    [|intros [= <- <-]; split; [done | by left]].
  assert (forall k', installed k' = batch_effect (installed k) b -> linux_enforces k' policy) as Hi.
  { intros k1 E. exists k, b. split; [done|]. by rewrite E, (batch_installs k policy). }
  destruct (send_and_process b k) as [k1 o1] eqn:Hs. apply send_and_process_outcome in Hs as [Hok Hat].
  rewrite <- !(kernel_config_installed policy k1) in Hok.
  destruct o1 as [[u|e]| |]; intros [= <- <-]; split; try done; try naive_solver.
Qed.

Lemma apply_policy_done policy k : exists k' r, apply_policy env fw policy k = (k', Done r).
Proof.
  unfold apply_policy. destruct (finalize (env_at env k) policy fw) as [b|e]; [|by eauto].
  destruct (send_and_process_done b k) as (k1 & [u|e] & ->); by eauto.
Qed.

Lemma linux_enforces_installed k k' policy :
  installed k' = installed k -> linux_enforces k policy -> linux_enforces k' policy.
Proof. intros E (k0&b&?&?). exists k0, b. by rewrite E. Qed.

(** [reset_policy] removes the table or leaves it as it was. *)
Lemma reset_policy_outcome k k' o :
  reset_policy k = (k', o) ->
  (is_done_ok o = true -> installed k' = None) /\ (installed k' = installed k \/ installed k' = None).
Proof. apply send_and_process_outcome. Qed.
End enforcement.

(** ** The kernel interface has an implementation *)
Record RefKernel : Type := {
  rk_table : option (list batch_msg);
  rk_acks : list Z;
  rk_files : string -> option string;
  rk_ifaces : string -> option Z;
}.

Definition ref_seqs (b : list batch_msg) : list Z := Z.of_nat <$> seq 0 (length b).

#[export] Instance netfilter_reference : Netfilter RefKernel := {
  nl_message := Z;
  socket_new k := Some 7%Z;
  send_all b k :=
    ({| rk_table := batch_effect (rk_table k) b; rk_acks := ref_seqs b; rk_files := rk_files k;
        rk_ifaces := rk_ifaces k |}, true);
  sequence_numbers := ref_seqs;
  recvs k := [Some (Some <$> rk_acks k)];
  cb_run m s portid := (m =? s)%Z;
  send_get_tables seq k := true;
  recv_tables k := Some (match rk_table k with Some _ => [Some 0%Z] | None => [] end);
  cb_run2 m s portid := Some ["mullvad"];
  read_to_string path k := rk_files k path;
  write_file path content k :=
    ({| rk_table := rk_table k; rk_acks := rk_acks k;
        rk_files := fun p => if decide (p = path) then Some content else rk_files k p;
        rk_ifaces := rk_ifaces k |}, true);
  if_nametoindex := rk_ifaces;
  installed := rk_table;
}.

#[export] Instance netfilter_reference_laws : NetfilterLaws RefKernel netfilter_reference.
Proof.
  split; simpl; intros; simplify_eq/=; eauto.
  - left. unfold received. simpl. by rewrite app_nil_r, length_fmap.
  - by rewrite decide_True.
  - by rewrite decide_False.
Qed.
