(* ===== verification/FirewallProps.v ===== *)
(** * What the Linux firewall guarantees

    The theorems about the rules [FirewallLinux.finalize] builds and about [apply_policy]: the filter
    chains accept exactly the permitted packets, name server traffic cannot leave by another way than
    the configured one, the blocked state is closed, the tunnel's addresses cannot be probed from
    outside, and the batch is built exactly when the interfaces it names exist. *)

From stdpp Require Import base list strings option numbers sets.
From S2P Require Import Prelude NetTypes TunnelTypes FirewallPolicy Nftables FirewallLinux.
From S2P Require Import FirewallSpec FirewallRefine FirewallApply.

(** The verdict of one of the table's chains. *)
Definition verdict `{Nftables} (c : chain_name) (b : list batch_msg) (p : pview) : nft_verdict :=
  (run_chain (chain_rules c b) (chain_default c b) p).1.

(** The interfaces a policy's rules name. *)
Definition named_interfaces (policy : FirewallPolicy) : list string :=
  "lo" ::
  match policy with
  | Connecting _ (Some tunnel) _ _ TrafficNone => []
  | Connecting _ (Some tunnel) _ _ _ | Connected _ tunnel _ _ => [interface tunnel]
  | _ => []
  end.

(** The ways a name server request may leave. *)
Definition dns_exception (env : fw_env) (fw : Firewall) (policy : FirewallPolicy) (p : pview) : bool :=
  on_iface env Out "lo" p || excluded env fw p
  || match policy with
     | Connecting peers _ _ api _ => to_peer fw peers p || to_api api p
     | Connected peers tun _ dns =>
         to_peer fw peers p || tunnel_dns env (interface tun) (tunnel_config dns) p
         || local_dns env Out (interface tun) (non_tunnel_config dns) p
     | Blocked _ (Some api) => to_api api p
     | Blocked _ None => false
     end.

(** What a rule that marks a packet does to it. *)
Definition marked (mark : Z) (p : pview) : pview := set_field MetaMark mark (set_field CtMark MARK p).

(** The packets of excluded processes. *)
Definition selected (env : fw_env) (fw : Firewall) (p : pview) : bool :=
  match feature_cgroup2 env, excluded_cgroup2 fw, net_cls fw with
  | true, Some inode, _ => has (SocketCgroupv2 1) inode p
  | _, _, Some cls => has MetaCgroup cls p
  | _, _, None => false
  end.

(** The packets to a peer that any process may reach. *)
Definition to_shared_peer (policy : FirewallPolicy) (p : pview) : bool :=
  existsb (fun e => allow_all (clients e) && at_endpoint Dst (ae_endpoint e) p)
    (default [] (policy_peer_endpoints policy)).

Lemma has_unique f v w p : v <> w -> has f v p = true -> has f w p = false.
Proof. unfold has. destruct (p f) as [x|]; [|done]. rewrite !Z.eqb_eq, Z.eqb_neq. congruence. Qed.

Lemma is_port_unique pr e v w p : v <> w -> is_port pr e v p = true -> is_port pr e w p = false.
Proof.
  unfold is_port. intros Hv [_ Hp]%andb_true_iff. apply andb_false_iff. right. by eapply has_unique.
Qed.

(** A packet of one transport protocol has no ports of the other. *)
Lemma is_port_proto pr pr' e e' v w p :
  pr <> pr' -> is_port pr e v p = true -> is_port pr' e' w p = false.
Proof.
  unfold is_port. intros Hpr [Hp _]%andb_true_iff. apply andb_false_iff. left.
  eapply has_unique; [|done]. by destruct pr, pr'.
Qed.

Lemma is_icmpv6_proto t c p v :
  v <> IPPROTO_ICMPV6 -> has MetaL4proto v p = true -> is_icmpv6 t c p = false.
Proof. unfold is_icmpv6. intros Hv Hp. by rewrite (has_unique _ v). Qed.

Lemma is_port_l4 pr v p e port :
  v <> l4proto pr -> has MetaL4proto v p = true -> is_port pr e port p = false.
Proof. unfold is_port. intros Hv Hp. by rewrite (has_unique _ v). Qed.

Section udp_tcp.
Context `{O : IpNetworkOps}.

Lemma ndp_out_l4 v p : v <> IPPROTO_ICMPV6 -> has MetaL4proto v p = true -> ndp_out p = false.
Proof. intros. unfold ndp_out. by rewrite !(is_icmpv6_proto _ _ _ v), !andb_false_r. Qed.

Lemma ndp_in_l4 v p : v <> IPPROTO_ICMPV6 -> has MetaL4proto v p = true -> ndp_in p = false.
Proof. intros. unfold ndp_in. by rewrite !(is_icmpv6_proto _ _ _ v), !andb_false_r. Qed.

Lemma dhcp_request_l4 v p : v <> IPPROTO_UDP -> has MetaL4proto v p = true -> dhcp_request p = false.
Proof.
  intros. unfold dhcp_request. simpl.
  by rewrite !(is_port_l4 Udp v), !andb_false_r.
Qed.

Lemma dhcp_response_l4 v p : v <> IPPROTO_UDP -> has MetaL4proto v p = true -> dhcp_response p = false.
Proof.
  intros. unfold dhcp_response. simpl.
  by rewrite !(is_port_l4 Udp v), !andb_false_r.
Qed.

Lemma dns_port_l4 e p :
  dns_port e p = true -> exists v, has MetaL4proto v p = true /\ v <> IPPROTO_ICMPV6.
Proof.
  unfold dns_port, is_port. intros [[? _]%andb_true_iff|[? _]%andb_true_iff]%orb_true_iff; eauto.
Qed.

Lemma dhcp_request_dns p : dns_port Dst p = true -> dhcp_request p = false.
Proof.
  intros Hd. assert (forall port, port <> 53%Z -> is_port Udp Dst port p = false) as Hp.
  { intros port Hne. unfold dns_port in Hd. apply orb_true_iff in Hd as [Hd|Hd].
    - eapply is_port_unique; [|done]. congruence.
    - by eapply (is_port_proto Tcp Udp). }
  unfold dhcp_request. simpl. by rewrite !Hp, !andb_false_r.
Qed.
End udp_tcp.

Section guarantees.
Context `{O : IpNetworkOps} `{N : Nftables} {NL : NftablesLaws N}.
Variable env : fw_env.
Variable fw : Firewall.

Lemma chain_runs policy b p :
  finalize env policy fw = Ok b ->
  run_chain (chain_rules OUT_CHAIN b) (chain_default OUT_CHAIN b) p
    = (if out_permitted env fw policy p then Accept else refused p, p)
  /\ run_chain (chain_rules IN_CHAIN b) (chain_default IN_CHAIN b) p
    = (if in_permitted env fw policy p then Accept else Drop, p)
  /\ run_chain (chain_rules FORWARD_CHAIN b) (chain_default FORWARD_CHAIN b) p
    = (if forward_permitted env fw policy p then Accept else refused p, p).
Proof.
  intros Hf. destruct (finalize_acts env fw policy b Hf) as (vi & (Ho & Hi & Hw) & Hvi).
  rewrite !(finalize_default env fw policy b _ Hf) by auto.
  erewrite !acts_run by eassumption. by rewrite Hvi.
Qed.

Lemma refused_not_accept p : refused p <> Accept.
Proof.
  unfold refused. destruct (reject_dns p) eqn:E; [by eapply reject_dns_not_accept | done].
Qed.

Lemma out_accepted policy b p :
  finalize env policy fw = Ok b ->
  verdict OUT_CHAIN b p = Accept <-> out_permitted env fw policy p = true.
Proof.
  intros Hf. unfold verdict. destruct (chain_runs policy b p Hf) as (-> & _ & _). simpl.
  pose proof (refused_not_accept p). destruct (out_permitted env fw policy p); naive_solver.
Qed.

Lemma in_accepted policy b p :
  finalize env policy fw = Ok b ->
  verdict IN_CHAIN b p = Accept <-> in_permitted env fw policy p = true.
Proof.
  intros Hf. unfold verdict. destruct (chain_runs policy b p Hf) as (_ & -> & _). simpl.
  destruct (in_permitted env fw policy p); naive_solver.
Qed.

Lemma forward_accepted policy b p :
  finalize env policy fw = Ok b ->
  verdict FORWARD_CHAIN b p = Accept <-> forward_permitted env fw policy p = true.
Proof.
  intros Hf. unfold verdict. destruct (chain_runs policy b p Hf) as (_ & _ & ->). simpl.
  pose proof (refused_not_accept p). destruct (forward_permitted env fw policy p); naive_solver.
Qed.

(** C3. The kernel's verdict in each filter chain of the finalized batch: a packet is accepted exactly
    when the specification permits it; an outgoing or forwarded packet that is not permitted is
    rejected with the code the firewall chose, an incoming one is dropped, and no filter chain
    alters a packet.  What may be forwarded is less than [docs/security.md] says: see
    [forwarding_is_narrower]. *)
Theorem filter_chains_refine policy b p :
  finalize env policy fw = Ok b ->
  run_chain (chain_rules OUT_CHAIN b) (chain_default OUT_CHAIN b) p
    = (if out_permitted env fw policy p then Accept else refused p, p)
  /\ run_chain (chain_rules IN_CHAIN b) (chain_default IN_CHAIN b) p
    = (if in_permitted env fw policy p then Accept else Drop, p)
  /\ run_chain (chain_rules FORWARD_CHAIN b) (chain_default FORWARD_CHAIN b) p
    = (if forward_permitted env fw policy p then Accept else refused p, p).
Proof. apply chain_runs. Qed.

(** C12. No DNS leak: under every policy a packet to port 53 leaves exactly when it stays on the
    loopback interface, belongs to an excluded process, goes to an endpoint the policy names, or
    goes to a configured name server (inside the tunnel, or outside for a local one); the LAN
    exception and the tunnel interface as a whole do not let it out. *)
Theorem no_dns_leak policy b p :
  finalize env policy fw = Ok b -> dns_port Dst p = true ->
  verdict OUT_CHAIN b p = Accept <-> dns_exception env fw policy p = true.
Proof.
  intros Hf Hd. rewrite (out_accepted _ _ _ Hf).
  destruct (dns_port_l4 _ _ Hd) as (v & Hv & Hne).
  unfold out_permitted, always_out, dns_exception, policy_out.
  rewrite dhcp_request_dns, (ndp_out_l4 v), Hd by done. simpl.
  destruct policy as [| |lan [api|]]; by rewrite ?orb_false_r, ?orb_assoc.
Qed.

(** The blocked state is closed: without the LAN exception and without an API endpoint, no TCP
    packet passes in any direction unless it is on the loopback interface or belongs to an excluded
    process. *)
Theorem blocked_rejects_tcp b p :
  finalize env (Blocked false None) fw = Ok b -> has MetaL4proto IPPROTO_TCP p = true ->
  (verdict OUT_CHAIN b p = Accept <-> on_iface env Out "lo" p || excluded env fw p = true)
  /\ (verdict IN_CHAIN b p = Accept <-> on_iface env In "lo" p || excluded env fw p = true)
  /\ (verdict FORWARD_CHAIN b p = Accept <-> excluded env fw p = true).
Proof.
  intros Hf Ht.
  rewrite (out_accepted _ _ _ Hf), (in_accepted _ _ _ Hf), (forward_accepted _ _ _ Hf).
  unfold out_permitted, always_out, in_permitted, always_in, forward_permitted, always_forward.
  rewrite (ndp_out_l4 IPPROTO_TCP), (ndp_in_l4 IPPROTO_TCP), (dhcp_request_l4 IPPROTO_TCP),
    (dhcp_response_l4 IPPROTO_TCP) by done.
  simpl. by rewrite andb_false_r, !orb_false_r.
Qed.

(** While connected without the LAN exception, a TCP packet leaves outside the tunnel interface
    only to a peer and with the bypass mark, to a configured local name server, on the loopback
    interface, or for an excluded process. *)
Theorem connected_no_tcp_leak peers tun dns b p :
  finalize env (Connected peers tun false dns) fw = Ok b ->
  has MetaL4proto IPPROTO_TCP p = true -> on_iface env Out (interface tun) p = false ->
  verdict OUT_CHAIN b p = Accept <->
    on_iface env Out "lo" p || excluded env fw p || to_peer fw peers p
    || local_dns env Out (interface tun) (non_tunnel_config dns) p = true.
Proof.
  intros Hf Ht Hi. rewrite (out_accepted _ _ _ Hf). unfold out_permitted, always_out. simpl.
  rewrite (ndp_out_l4 IPPROTO_TCP), (dhcp_request_l4 IPPROTO_TCP) by done.
  assert (tunnel_dns env (interface tun) (tunnel_config dns) p = false) as ->.
  { unfold tunnel_dns. apply existsb_false. intros s _. by rewrite Hi. }
  by rewrite Hi, andb_false_r, !orb_false_r, orb_assoc.
Qed.

(** CVE-2019-14899: with the LAN exception, a TCP packet for an address of the tunnel that did
    not arrive through the tunnel is accepted only on the loopback interface, for an excluded
    process, from a peer of an established connection, or from a configured local name server:
    never because its source is in a local network. *)
Theorem tunnel_ip_not_probed peers tun dns b p :
  finalize env (Connected peers tun true dns) fw = Ok b ->
  has MetaL4proto IPPROTO_TCP p = true -> on_iface env In (interface tun) p = false ->
  to_tunnel_ip (Some tun) p = true ->
  verdict IN_CHAIN b p = Accept <->
    on_iface env In "lo" p || excluded env fw p || from_peer env peers p
    || local_dns env In (interface tun) (non_tunnel_config dns) p = true.
Proof.
  intros Hf Ht Hi Hip. rewrite (in_accepted _ _ _ Hf). unfold in_permitted, always_in, policy_in.
  rewrite (ndp_in_l4 IPPROTO_TCP), (dhcp_response_l4 IPPROTO_TCP), Hi, Hip by done.
  simpl. by rewrite !orb_false_r, orb_assoc.
Qed.
End guarantees.

(** ** When the batch can be built *)
Section building.
Context `{O : IpNetworkOps}.
Variable env : fw_env.
Variable fw : Firewall.

Lemma for_each_Ok {A} (l : list A) body :
  (forall a, exists ms, body a = Ok ms) -> exists ms, for_each l body = Ok ms.
Proof.
  intros Hb. induction l as [|a l [ms IH]]; simpl; [by eauto|].
  destruct (Hb a) as [m ->]. simpl. rewrite IH. simpl. by eauto.
Qed.

Lemma for_each_Err {A} (l : list A) body e :
  (forall a, body a = Err e) -> for_each l body = match l with [] => Ok [] | _ => Err e end.
Proof. intros Hb. destruct l; simpl; [done | by rewrite Hb]. Qed.

Lemma resolved_iface iface i : iface_index env iface = Some i -> lookup_iface env iface = Ok i.
Proof. unfold lookup_iface. by intros ->. Qed.

Lemma unresolved_iface iface :
  iface_index env iface = None -> lookup_iface env iface = Err (LookupIfaceIndexError iface).
Proof. unfold lookup_iface. by intros ->. Qed.

Ltac unfold_lookups :=
  unfold add_allow_tunnel_rules, add_allow_in_tunnel_endpoint_rules, add_allow_tunnel_dns_rule,
    add_allow_local_dns_rule, allow_tunnel_dns_rule, allow_interface_rule, check_iface,
    check_not_iface.

Ltac run_lookups :=
  repeat first
    [ match goal with
      | |- context [for_each ?l ?f] =>
          let ms := fresh "ms" in
          let E := fresh in
          destruct (for_each_Ok l f) as [ms E]; [intros; simpl; run_lookups; by eauto | rewrite E; clear E]
      end
    | progress simpl ].

Lemma split_succeeds policy :
  (forall i, i ∈ named_interfaces policy -> is_Some (iface_index env i)) ->
  exists ms, add_split_tunneling_rules env policy fw = Ok ms.
Proof.
  intros Hr. assert (exists lo, lookup_iface env "lo" = Ok lo) as [lo Hlo].
  { destruct (Hr "lo") as [i Hi]; [set_solver|]. exists i. by apply resolved_iface. }
  unfold add_split_tunneling_rules.
  assert (forall sel, exists ms, add_actual_split_tunneling_rules env policy (fwmark fw) sel = Ok ms) as Ha.
  { intros sel. unfold add_actual_split_tunneling_rules. rewrite Hlo.
    destruct policy as [|peers tun lan dns|]; simpl; [by eauto| |by eauto].
    destruct (Hr (interface tun)) as [i Hi%resolved_iface]; [set_solver|].
    unfold_lookups. rewrite Hi. run_lookups. by eauto. }
  destruct (feature_cgroup2 env), (excluded_cgroup2 fw), (net_cls fw); eauto.
Qed.

Lemma specific_succeeds policy :
  (forall i, i ∈ named_interfaces policy -> is_Some (iface_index env i)) ->
  exists ms, add_policy_specific_rules env policy (fwmark fw) = Ok ms.
Proof.
  intros Hr. unfold add_policy_specific_rules.
  destruct policy as [peers [tun|] lan api traffic|peers tun lan dns|lan api]; simpl;
    [destruct traffic|..]; simpl; try by eauto;
    destruct (Hr (interface tun)) as [i Hi%resolved_iface]; try set_solver;
    unfold_lookups; rewrite Hi; run_lookups; by eauto.
Qed.

Lemma specific_fails policy i :
  named_interfaces policy = ["lo"; i] -> iface_index env i = None ->
  add_policy_specific_rules env policy (fwmark fw) = Err (LookupIfaceIndexError i).
Proof.
  intros Hn Hi%unresolved_iface. unfold add_policy_specific_rules. revert Hn.
  destruct policy as [peers [tun|] lan api traffic|peers tun lan dns|lan api]; simpl;
    [destruct traffic|..]; simpl; intros [=]; subst; unfold_lookups; rewrite ?Hi; simpl; try done.
  rewrite (for_each_Err _ _ (LookupIfaceIndexError (interface tun))) by done.
  destruct (tunnel_config dns); simpl; [|done].
  rewrite (for_each_Err _ _ (LookupIfaceIndexError (interface tun))) by done.
  by destruct (non_tunnel_config dns).
Qed.

Lemma split_fails policy i lo :
  named_interfaces policy = ["lo"; i] -> iface_index env i = None ->
  lookup_iface env "lo" = Ok lo ->
  add_split_tunneling_rules env policy fw = Err (LookupIfaceIndexError i)
  \/ exists ms, add_split_tunneling_rules env policy fw = Ok ms.
Proof.
  intros Hn Hi%unresolved_iface Hlo.
  assert (forall sel, add_actual_split_tunneling_rules env policy (fwmark fw) sel
      = Err (LookupIfaceIndexError i)
    \/ exists ms, add_actual_split_tunneling_rules env policy (fwmark fw) sel = Ok ms) as Ha.
  { intros sel. unfold add_actual_split_tunneling_rules. rewrite Hlo.
    destruct policy as [|peers tun lan dns|]; simpl; [by eauto| |by eauto].
    left. injection Hn as <-. unfold_lookups. rewrite Hi. simpl.
    rewrite (for_each_Err _ _ (LookupIfaceIndexError (interface tun))) by done.
    by destruct (tunnel_config dns). }
  unfold add_split_tunneling_rules.
  destruct (feature_cgroup2 env), (excluded_cgroup2 fw), (net_cls fw); eauto.
Qed.

(** [finalize] succeeds exactly when every interface the policy's rules name has an index, and
    otherwise fails with the first interface that has none: no other error, and never a partial
    batch. *)
Theorem finalize_exact policy :
  match List.find (fun i => bool_decide (iface_index env i = None)) (named_interfaces policy) with
  | None => exists b, finalize env policy fw = Ok b
  | Some i => finalize env policy fw = Err (LookupIfaceIndexError i)
  end.
Proof.
  destruct (List.find _ _) as [i|] eqn:E.
  - apply List.find_some in E as E'. destruct E' as [_ Hi%bool_decide_eq_true].
    simpl in E. case_bool_decide as Hlo.
    + injection E as <-. apply unresolved_iface in Hlo. unfold finalize, add_loopback_rules.
      unfold_lookups. by rewrite Hlo.
    + assert (named_interfaces policy = ["lo"; i]) as Hn.
      { revert E. unfold named_interfaces. repeat case_match; simpl; try done;
          case_bool_decide; intros [= ->]; done. }
      destruct (iface_index env "lo") as [lo|] eqn:El; [|done]. apply resolved_iface in El.
      unfold finalize, add_loopback_rules. unfold_lookups. rewrite El. simpl.
      destruct (split_fails policy i lo) as [-> | [ms ->]]; try done. simpl.
      by rewrite (specific_fails policy i).
  - assert (forall i, i ∈ named_interfaces policy -> is_Some (iface_index env i)) as Hr.
    { intros i Hi%list_elem_of_In. apply not_eq_None_Some. intros Hn.
      pose proof (List.find_none _ _ E _ Hi) as Hf. simpl in Hf.
      by apply bool_decide_eq_false in Hf. }
    destruct (Hr "lo") as [lo Hlo%resolved_iface]; [set_solver|].
    destruct (split_succeeds policy Hr) as [s1 Hs1], (specific_succeeds policy Hr) as [s2 Hs2].
    unfold finalize, add_loopback_rules. unfold_lookups. rewrite Hlo. simpl.
    rewrite Hs1. simpl. rewrite Hs2. simpl. by eauto.
Qed.
End building.

(** ** The mangle chain: split tunneling *)
Definition no_mangle (ms : list batch_msg) : Prop := chain_rules MANGLE_CHAIN ms = [].

Lemma chain_rules_app c a b : chain_rules c (a ++ b) = chain_rules c a ++ chain_rules c b.
Proof. apply omap_app. Qed.

Lemma no_mangle_app a b : no_mangle a -> no_mangle b -> no_mangle (a ++ b).
Proof. unfold no_mangle, chain_rules. rewrite omap_app. by intros -> ->. Qed.

Lemma no_mangle_cons m ms : rule_of MANGLE_CHAIN m = None -> no_mangle ms -> no_mangle (m :: ms).
Proof. intros Hm Hms. unfold no_mangle in *. rewrite <- Hms. unfold chain_rules. simpl. by rewrite Hm. Qed.

Lemma no_mangle_nil : no_mangle [].
Proof. done. Qed.

Lemma no_mangle_map {A} (g : A -> batch_msg) l :
  (forall a, rule_of MANGLE_CHAIN (g a) = None) -> no_mangle (map g l).
Proof. intros Hg. induction l; simpl; [done | by apply no_mangle_cons]. Qed.

Lemma no_mangle_for_each {A} (body : A -> result (list batch_msg) fw_error) l ms :
  (forall a ms, a ∈ l -> body a = Ok ms -> no_mangle ms) -> for_each l body = Ok ms -> no_mangle ms.
Proof.
  revert ms. induction l as [|a l IH]; intros ms Hb; simpl.
  - by intros <-%Ok_inj.
  - intros (m & Ha & H)%bind_result_Ok. apply bind_result_Ok in H as (ms' & Hl & <-%Ok_inj).
    apply no_mangle_app; [eapply Hb; [|done]; set_solver | eapply IH; [|done]].
    intros a' m' Hin. apply Hb. set_solver.
Qed.

Ltac split_elem :=
  repeat match goal with
  | H : _ ∈ _ :: _ |- _ => apply elem_of_cons in H as [-> | H]
  | H : _ ∈ [] |- _ => by apply elem_of_nil in H
  end.

Ltac solve_no_mangle :=
  repeat first
    [ match goal with
      | H : bind_result _ _ = Ok _ |- _ => apply bind_result_Ok in H as (? & ? & H)
      | H : Ok _ = Ok _ |- _ => apply Ok_inj in H as <-
      | H : for_each _ _ = Ok _ |- _ =>
          eapply no_mangle_for_each; [|exact H]; clear H; intros ? ? ? ?; cbv beta in *
      | H : _ ∈ [_; _] |- _ => split_elem; cbv beta iota in *
      | H : _ ∈ [_; _; _; _] |- _ => split_elem; cbv beta iota in *
      end
    | apply no_mangle_app | apply no_mangle_map; done
    | (apply no_mangle_cons; [done|]) | apply no_mangle_nil
    | match goal with |- no_mangle (if ?b then _ else _) => destruct b end ].

Section mangle_rules.
Context `{O : IpNetworkOps}.

Lemma no_mangle_tunnel_dns env iface p host ms :
  add_allow_tunnel_dns_rule env iface p host = Ok ms -> no_mangle ms.
Proof. unfold add_allow_tunnel_dns_rule. intros. solve_no_mangle. Qed.

Lemma no_mangle_local_dns env iface p host ms :
  add_allow_local_dns_rule env iface p host = Ok ms -> no_mangle ms.
Proof. unfold add_allow_local_dns_rule. intros. solve_no_mangle. Qed.

Lemma no_mangle_in_tunnel env iface e ms :
  add_allow_in_tunnel_endpoint_rules env iface e = Ok ms -> no_mangle ms.
Proof. unfold add_allow_in_tunnel_endpoint_rules. intros. solve_no_mangle. Qed.

Lemma no_mangle_tunnel env iface ms : add_allow_tunnel_rules env iface = Ok ms -> no_mangle ms.
Proof. unfold add_allow_tunnel_rules. intros. solve_no_mangle. Qed.

Lemma no_mangle_drop_dns env : no_mangle (add_drop_dns_rule env).
Proof. done. Qed.

Lemma no_mangle_api env e : no_mangle (add_allow_endpoint_rules env e).
Proof. done. Qed.

Lemma no_mangle_cve env tun : no_mangle (add_block_cve_2019_14899 env tun).
Proof. by apply no_mangle_map. Qed.
End mangle_rules.

Section mangle.
Context `{O : IpNetworkOps} `{N : Nftables} {NL : NftablesLaws N}.
Variable env : fw_env.
Variable fw : Firewall.

Definition peer_rules (policy : FirewallPolicy) : list batch_msg :=
  concat (map (fun e => add_allow_tunnel_endpoint_rules env e (fwmark fw))
    (default [] (policy_peer_endpoints policy))).

(** The rules after the peers' leave the mangle chain alone. *)
Lemma specific_mangle policy ms :
  add_policy_specific_rules env policy (fwmark fw) = Ok ms ->
  exists rest, ms = peer_rules policy ++ rest /\ no_mangle rest.
Proof.
  unfold add_policy_specific_rules, peer_rules.
  intros (sp & H & <-%Ok_inj)%bind_result_Ok.
  assert (no_mangle ((if policy_allow_lan policy then add_allow_lan_rules env else [])
    ++ map (fun chain => AddRule chain (add_verdict env (Reject RejectIcmpPortUnreach)))
         [OUT_CHAIN; FORWARD_CHAIN])) as Hl by (by destruct (policy_allow_lan policy)).
  destruct policy as [peers tunnel lan api traffic|peers tun lan dns|lan api].
  - apply bind_result_Ok in H as (it & Hit & <-%Ok_inj).
    rewrite <- !app_assoc. eexists. split; [done|].
    apply no_mangle_app; [apply no_mangle_api|]. apply no_mangle_app; [apply no_mangle_drop_dns|]. apply no_mangle_app; [|done].
    destruct tunnel as [tun|]; [|by apply Ok_inj in Hit as <-].
    apply bind_result_Ok in Hit as (t & Ht & <-%Ok_inj). apply no_mangle_app;
      [|destruct lan; [apply no_mangle_cve | done]].
    destruct traffic; solve_no_mangle; eauto using no_mangle_in_tunnel, no_mangle_tunnel.
  - apply bind_result_Ok in H as (td & Htd & H). apply bind_result_Ok in H as (ld & Hld & H).
    apply bind_result_Ok in H as (tr & Htr & <-%Ok_inj).
    rewrite <- !app_assoc. eexists. split; [done|].
    apply no_mangle_app; [solve_no_mangle; eauto using no_mangle_tunnel_dns|].
    apply no_mangle_app; [solve_no_mangle; eauto using no_mangle_local_dns|].
    apply no_mangle_app; [apply no_mangle_drop_dns|].
    apply no_mangle_app; [by eapply no_mangle_tunnel|].
    apply no_mangle_app; [destruct lan; [apply no_mangle_cve | done] | done].
  - apply Ok_inj in H as <-. rewrite <- app_assoc. eexists. split; [done|].
    apply no_mangle_app; [destruct api; [apply no_mangle_api | done]|].
    by apply no_mangle_app; [apply no_mangle_drop_dns|].
Qed.

(** Marks set by a rule; no match of a header or meta field other than the marks sees them. *)
Lemma at_endpoint_marked e ep m p : at_endpoint e ep (marked m p) = at_endpoint e ep p.
Proof. unfold at_endpoint, is_ip, is_port, has. by destruct (sa_ip _), (protocol _), e. Qed.

Lemma mark_rule_fresh m :
  fresh [Immediate MARK; CtMarkSet; Immediate m; MetaMarkSet].
Proof. intros r1 r2 p. by rewrite !run_rule_immediate. Qed.

Lemma mark_rule_runs es c m p :
  matches es c ->
  run_rule (es ++ [Immediate MARK; CtMarkSet; Immediate m; MetaMarkSet]) 0 p
  = (None, if c p then marked m p else p).
Proof.
  intros Hm. rewrite Hm by apply mark_rule_fresh. destruct (c p); [|done].
  by rewrite run_rule_immediate, run_rule_ct_mark, run_rule_immediate, run_rule_meta_mark, run_rule_nil.
Qed.

Lemma endpoint_mangle e m :
  chain_rules MANGLE_CHAIN (add_allow_tunnel_endpoint_rules env e m)
  = if allow_all (clients e)
    then [check_endpoint Dst (ae_endpoint e) ++ [Immediate MARK; CtMarkSet; Immediate m; MetaMarkSet]]
    else [].
Proof. unfold add_allow_tunnel_endpoint_rules. by destruct (allow_all (clients e)). Qed.

Lemma peers_mangle eps p :
  exists p',
    (forall rest d, run_chain (chain_rules MANGLE_CHAIN
       (concat (map (fun e => add_allow_tunnel_endpoint_rules env e (fwmark fw)) eps)) ++ rest) d p
     = run_chain rest d p')
    /\ forall f, p' f = (if existsb (fun e => allow_all (clients e)
          && at_endpoint Dst (ae_endpoint e) p) eps then marked (fwmark fw) p else p) f.
Proof.
  revert p. induction eps as [|e eps IH]; intros p; [by exists p|].
  cbn [map concat existsb].
  set (p1 := if allow_all (clients e) && at_endpoint Dst (ae_endpoint e) p
             then marked (fwmark fw) p else p).
  destruct (IH p1) as (p' & Hrun & Hp'). exists p'. split.
  - intros rest d. rewrite chain_rules_app, <- app_assoc, <- Hrun, endpoint_mangle. subst p1.
    destruct (allow_all (clients e)); cbn [andb]; [|done].
    rewrite <- app_comm_cons, run_chain_cons.
    by rewrite (mark_rule_runs _ (at_endpoint Dst (ae_endpoint e))) by apply matches_endpoint.
  - intros f. rewrite Hp'. subst p1.
    destruct (allow_all (clients e) && at_endpoint Dst (ae_endpoint e) p); cbn [orb]; [|done].
    destruct (existsb _ eps); [|done].
    unfold marked, set_field. by repeat case_decide.
Qed.
(** The in-tunnel name server requests of an excluded process stay in the tunnel. *)
Definition kept_dns (policy : FirewallPolicy) (p : pview) : bool :=
  match policy with
  | Connected _ tun _ dns =>
      split_tunneling env fw && tunnel_dns env (interface tun) (tunnel_config dns) p
  | _ => false
  end.

Lemma decides_tunnel_dns_rule tun pr host r :
  allow_tunnel_dns_rule env tun pr host = Ok r ->
  decides r (fun p => on_iface env Out tun p && is_port pr Dst 53 p && is_ip Dst host p) Accept.
Proof.
  unfold allow_tunnel_dns_rule. cbn [table_family]. intros (m & Hm & <-%Ok_inj)%bind_result_Ok.
  eapply decides_ext; [eapply decides_step; [by eapply check_iface_Ok|];
    eapply decides_step; [apply matches_port|]; eapply decides_step; [apply matches_has|];
    eapply decides_step; [apply matches_has | apply decides_add_verdict] |].
  intros p. unfold is_ip. by rewrite andb_true_r, <- !andb_assoc.
Qed.

Lemma mangle_dns tun servers ms :
  for_each servers (fun server =>
    bind_result (allow_tunnel_dns_rule env tun Udp server) (fun u =>
    bind_result (allow_tunnel_dns_rule env tun Tcp server) (fun t =>
      Ok [AddRule MANGLE_CHAIN u; AddRule MANGLE_CHAIN t]))) = Ok ms ->
  acts MANGLE_CHAIN ms (accept_if (tunnel_dns env tun servers)).
Proof.
  revert ms. induction servers as [|s l IH]; intros ms; cbn [for_each].
  - intros <-%Ok_inj rest d p. done.
  - intros (m & (u & Hu & (t & Ht & <-%Ok_inj)%bind_result_Ok)%bind_result_Ok & H)%bind_result_Ok.
    apply bind_result_Ok in H as (ms' & Hl%IH & <-%Ok_inj).
    apply decides_tunnel_dns_rule in Hu, Ht.
    eapply acts_ext; [apply (acts_app _ [_] (_ :: _)); [by apply acts_cons_rule|];
      apply (acts_app _ [_]); [by apply acts_cons_rule | exact Hl]|].
    intros p. unfold accept_if, tunnel_dns, dns_port. simpl.
    by destruct (on_iface env Out tun p), (is_port Udp Dst 53 p), (is_port Tcp Dst 53 p),
      (is_ip Dst s p).
Qed.

Lemma select_rule_runs es c m p :
  matches es c ->
  run_rule (es ++ [Immediate MARK; CtMarkSet; Immediate m; MetaMarkSet] ++ counter_expr env) 0 p
  = (None, if c p then marked m p else p).
Proof.
  intros Hm. rewrite Hm by (intros r1 r2 q; by rewrite <- !app_comm_cons, !run_rule_immediate).
  destruct (c p); [|done].
  rewrite <- !app_comm_cons, run_rule_immediate, run_rule_ct_mark, run_rule_immediate,
    run_rule_meta_mark, app_nil_l.
  unfold counter_expr. destruct (ADD_COUNTERS env); by rewrite ?run_rule_counter, run_rule_nil.
Qed.

Lemma actual_split_mangle policy sel c ms rest d p :
  matches sel c -> add_actual_split_tunneling_rules env policy (fwmark fw) sel = Ok ms ->
  run_chain (chain_rules MANGLE_CHAIN ms ++ rest) d p
  = if match policy with
       | Connected _ tun _ dns => tunnel_dns env (interface tun) (tunnel_config dns) p
       | _ => false
       end
    then (Accept, p) else run_chain rest d (if c p then marked (fwmark fw) p else p).
Proof.
  intros Hc. unfold add_actual_split_tunneling_rules.
  intros (dns & Hdns & H)%bind_result_Ok. apply bind_result_Ok in H as (blk & Hblk & H).
  apply bind_result_Ok in H as (lo & _ & H). apply bind_result_Ok in H as (pre & Hpre & <-%Ok_inj).
  assert (no_mangle blk) as Eb by (destruct policy; solve_no_mangle).
  assert (no_mangle pre) as Ep by (destruct policy; solve_no_mangle).
  rewrite !chain_rules_app, Eb, Ep.
  assert (forall r, chain_rules MANGLE_CHAIN [AddRule MANGLE_CHAIN r] = [r]) as -> by done.
  assert (forall r, chain_rules MANGLE_CHAIN [AddRule NAT_CHAIN r] = []) as -> by done.
  assert (forall r, chain_rules MANGLE_CHAIN (map (fun chain => AddRule chain r)
    [IN_CHAIN; OUT_CHAIN; FORWARD_CHAIN]) = []) as -> by done.
  rewrite ?app_nil_l, ?app_nil_r, <- app_assoc, <- app_comm_cons, app_nil_l.
  assert (acts MANGLE_CHAIN dns (accept_if (fun p => match policy with
    | Connected _ tun _ dns => tunnel_dns env (interface tun) (tunnel_config dns) p
    | _ => false end))) as ->.
  { destruct policy; [apply Ok_inj in Hdns as <-; by intros ??? | by apply mangle_dns
                     | apply Ok_inj in Hdns as <-; by intros ???]. }
  unfold accept_if.
  match goal with |- context [if ?b then (Accept, p) else _] => destruct b end; [done|].
  rewrite run_chain_cons. by rewrite (select_rule_runs _ _ _ _ Hc).
Qed.

Lemma split_mangle policy ms rest d p :
  add_split_tunneling_rules env policy fw = Ok ms ->
  run_chain (chain_rules MANGLE_CHAIN ms ++ rest) d p
  = if kept_dns policy p then (Accept, p)
    else run_chain rest d (if selected env fw p then marked (fwmark fw) p else p).
Proof.
  unfold add_split_tunneling_rules, kept_dns, selected, split_tunneling.
  destruct (feature_cgroup2 env), (excluded_cgroup2 fw), (net_cls fw); cbn [andb];
    try (intros Hs; rewrite (actual_split_mangle _ _ _ _ _ _ _ (matches_has _ _) Hs);
         by destruct policy);
    intros <-%Ok_inj; by destruct policy.
Qed.

Lemma mangle_default policy b : finalize env policy fw = Ok b -> chain_default MANGLE_CHAIN b = Accept.
Proof.
  intros (rules & ->)%finalize_prefix. unfold chain_default. by rewrite omap_app.
Qed.

Lemma to_shared_peer_marked policy m p : to_shared_peer policy (marked m p) = to_shared_peer policy p.
Proof.
  unfold to_shared_peer. induction (default [] _) as [|e l IH]; simpl; [done|].
  by rewrite at_endpoint_marked, IH.
Qed.

Lemma mangle_runs policy b p :
  finalize env policy fw = Ok b ->
  exists p',
    run_chain (chain_rules MANGLE_CHAIN b) (chain_default MANGLE_CHAIN b) p = (Accept, p')
    /\ forall f, p' f = (if negb (kept_dns policy p)
                            && (selected env fw p || to_shared_peer policy p)
                        then marked (fwmark fw) p else p) f.
Proof.
  intros Hf. rewrite (mangle_default _ _ Hf). revert Hf. unfold finalize.
  intros (lo & Hlo & H)%bind_result_Ok. apply bind_result_Ok in H as (sp & Hsp & H).
  apply bind_result_Ok in H as (ms & (rest & -> & Hrest)%specific_mangle & <-%Ok_inj).
  assert (no_mangle lo) as Elo by (unfold add_loopback_rules in Hlo; solve_no_mangle).
  rewrite !chain_rules_app, Elo, Hrest.
  assert (chain_rules MANGLE_CHAIN PolicyBatch_new = []) as -> by done.
  assert (chain_rules MANGLE_CHAIN (add_dhcp_client_rules env) = []) as -> by done.
  assert (chain_rules MANGLE_CHAIN (add_ndp_rules env) = []) as -> by done.
  rewrite !app_nil_l, (split_mangle _ _ _ _ _ Hsp).
  destruct (kept_dns policy p); cbn [negb andb]; [by exists p|].
  destruct (peers_mangle (default [] (policy_peer_endpoints policy))
    (if selected env fw p then marked (fwmark fw) p else p)) as (p' & Hrun & Hp').
  exists p'. split; [by unfold peer_rules; rewrite Hrun, run_chain_nil|].
  intros f. rewrite Hp'. fold (to_shared_peer policy (if selected env fw p
    then marked (fwmark fw) p else p)).
  destruct (selected env fw p); cbn [orb]; [|done]. rewrite to_shared_peer_marked.
  destruct (to_shared_peer policy p); [|done]. unfold marked, set_field. by repeat case_decide.
Qed.

(** Split tunneling: the mangle chain marks exactly the packets of excluded processes and those
    to a peer open to all processes, except that an excluded process's requests to the tunnel's name
    servers keep their route; every packet an excluded process sends that way is then accepted by
    the output chain, under every policy. *)
Theorem split_tunnel_path policy b p :
  finalize env policy fw = Ok b ->
  exists p',
    run_chain (chain_rules MANGLE_CHAIN b) (chain_default MANGLE_CHAIN b) p = (Accept, p')
    /\ (forall f, p' f = (if negb (kept_dns policy p)
                             && (selected env fw p || to_shared_peer policy p)
                         then marked (fwmark fw) p else p) f)
    /\ (selected env fw p = true -> kept_dns policy p = false -> verdict OUT_CHAIN b p' = Accept).
Proof.
  intros Hf. destruct (mangle_runs policy b p Hf) as (p' & Hrun & Hp'). exists p'.
  split_and!; [done..|]. intros Hs Hk. rewrite (out_accepted env fw policy _ _ Hf).
  unfold out_permitted, always_out, excluded.
  assert (has CtMark MARK p' = true) as ->.
  { unfold has. rewrite Hp', Hs, Hk. done. }
  assert (split_tunneling env fw = true) as ->.
  { revert Hs. unfold selected, split_tunneling. by repeat case_match. }
  by destruct (on_iface env Out "lo" p').
Qed.
End mangle.

(** ** Applying a policy *)
Section applying.
Context `{O : IpNetworkOps} `{N : Nftables} {NL : NftablesLaws N}.
Context {K : Type} `{NF : Netfilter K} {NFL : NetfilterLaws K NF}.
Variable env : fw_env.
Variable fw : Firewall.

(** The verdict of a chain of the table in force. *)
Definition kernel_verdict (k : K) (c : chain_name) (p : pview) : nft_verdict :=
  match installed k with
  | Some ms => (run_chain (chain_rules c ms) (chain_default c ms) p).1
  | None => Accept
  end.

Lemma chains_of_drop b policy k0 c :
  finalize (env_at env k0) policy fw = Ok b ->
  chain_rules c (drop 3 b) = chain_rules c b /\ chain_default c (drop 3 b) = chain_default c b.
Proof. intros Hf. destruct (finalize_no_tables _ _ _ _ Hf) as [_ Hb]. by rewrite Hb. Qed.

(** What a policy in force means for packets. *)
Definition kernel_follows (k : K) (policy : FirewallPolicy) : Prop :=
  exists k0, forall p,
    (kernel_verdict k OUT_CHAIN p = Accept <-> out_permitted (env_at env k0) fw policy p = true)
    /\ (kernel_verdict k IN_CHAIN p = Accept <-> in_permitted (env_at env k0) fw policy p = true)
    /\ (kernel_verdict k FORWARD_CHAIN p = Accept
        <-> forward_permitted (env_at env k0) fw policy p = true).

Lemma enforced_packets k policy : linux_enforces env fw k policy -> kernel_follows k policy.
Proof.
  intros (k0 & b & Hf & Hi). exists k0. intros p. unfold kernel_verdict. rewrite Hi.
  destruct (chains_of_drop b policy k0 OUT_CHAIN Hf) as [-> ->],
    (chains_of_drop b policy k0 IN_CHAIN Hf) as [-> ->],
    (chains_of_drop b policy k0 FORWARD_CHAIN Hf) as [-> ->].
  split_and!; [by apply out_accepted | by apply in_accepted | by apply forward_accepted].
Qed.

(** C11. [apply_policy] always returns (the acknowledgement loop neither panics nor waits forever); when
    it succeeds, the running kernel accepts outgoing, incoming and forwarded packets exactly as the
    policy permits; when it fails, either the rules that were in force still are, untouched, or the
    new policy's rules are: never a mixture and never no rules where there were some. *)
Theorem apply_policy_atomic policy k :
  exists k' r, apply_policy env fw policy k = (k', Done r)
    /\ (installed k' = installed k \/ linux_enforces env fw k' policy)
    /\ (r = Ok tt -> kernel_follows k' policy).
Proof.
  destruct (apply_policy_done env fw policy k) as (k' & r & Ha). exists k', r. split; [done|].
  destruct (apply_policy_outcome env fw policy k k' _ Ha) as [Hok Hat]. split; [done|].
  intros ->. by apply enforced_packets, Hok.
Qed.

Lemma arp_path_differs :
  PROC_SYS_NET_IPV4_CONF_SRC_VALID_MARK <> PROC_SYS_NET_IPV4_CONF_ARP_IGNORE.
Proof. done. Qed.

Lemma mark_keeps_arp k :
  read_to_string PROC_SYS_NET_IPV4_CONF_ARP_IGNORE (set_src_valid_mark_sysctl k).1
  = read_to_string PROC_SYS_NET_IPV4_CONF_ARP_IGNORE k.
Proof. apply write_file_read_other, arp_path_differs. Qed.

Lemma lock_down_arp_value k s :
  read_to_string PROC_SYS_NET_IPV4_CONF_ARP_IGNORE k = Some s ->
  (trim s <> "0" -> trim s <> "1" -> (lock_down_arp_ignore_sysctl k).1 = k)
  /\ ((lock_down_arp_ignore_sysctl k).2 = true -> exists s',
        read_to_string PROC_SYS_NET_IPV4_CONF_ARP_IGNORE (lock_down_arp_ignore_sysctl k).1 = Some s'
        /\ trim s' <> "0" /\ trim s' <> "1").
Proof.
  intros Hs. unfold lock_down_arp_ignore_sysctl. rewrite Hs. case_decide as Ht; simpl.
  - split; [tauto|]. intros Hw. exists "2".
    destruct (write_file _ "2" k) as [k' [|]] eqn:E; [|done].
    apply write_file_read in E. by simpl.
  - split; [done|]. intros _. exists s. naive_solver.
Qed.

(** The kernel settings: the blocked policy leaves them alone; a value of [arp_ignore] other than 0
    and 1 is never changed; and when the settings can be written, applying a connecting or connected
    policy leaves [arp_ignore] at neither 0 nor 1, so that the machine does not answer ARP requests
    for the tunnel's address on other interfaces. *)
Theorem arp_ignore_locked_down policy k s :
  DONT_SET_ARP_IGNORE env = false ->
  read_to_string PROC_SYS_NET_IPV4_CONF_ARP_IGNORE k = Some s ->
  let k' := apply_kernel_config env policy k in
  (forall lan api, policy = Blocked lan api -> k' = k)
  /\ (trim s <> "0" -> trim s <> "1" ->
        read_to_string PROC_SYS_NET_IPV4_CONF_ARP_IGNORE k' = Some s)
  /\ ((forall path content k, (write_file path content k).2 = true) ->
        is_Some (policy_peer_endpoints policy) ->
        exists s', read_to_string PROC_SYS_NET_IPV4_CONF_ARP_IGNORE k' = Some s'
          /\ trim s' <> "0" /\ trim s' <> "1").
Proof.
  intros Hd Hs. unfold apply_kernel_config. rewrite Hd.
  set (k1 := if DONT_SET_SRC_VALID_MARK env then k else _).
  assert (read_to_string PROC_SYS_NET_IPV4_CONF_ARP_IGNORE k1 = Some s) as Hs1.
  { subst k1. destruct (DONT_SET_SRC_VALID_MARK env), policy; try done. by rewrite mark_keeps_arp. }
  destruct (lock_down_arp_value k1 s Hs1) as [Hkeep Hlock].
  assert ((forall path content k, (write_file path content k).2 = true) ->
    (lock_down_arp_ignore_sysctl k1).2 = true) as Hw.
  { intros Hw. unfold lock_down_arp_ignore_sysctl. rewrite Hs1. case_decide; [apply Hw | done]. }
  split_and!; simpl.
  - intros lan api ->. subst k1. by destruct (DONT_SET_SRC_VALID_MARK env).
  - intros H0 H1. destruct policy; [by rewrite Hkeep ..|done].
  - intros Hall Hp. destruct policy; [by apply Hlock, Hw ..|]. by destruct Hp.
Qed.
End applying.

(** ** The theorems at concrete inputs

    A machine with the interfaces [lo], [wg0] and [eth0], split tunneling by [net_cls], and a tunnel
    to 185.1.2.3:51820. *)
Definition ex_ifaces (i : string) : option Z :=
  if decide (i = "lo") then Some 1%Z else if decide (i = "wg0") then Some 2%Z
  else if decide (i = "eth0") then Some 3%Z else None.

Definition ex_env : fw_env :=
  {| ADD_COUNTERS := false; DONT_SET_SRC_VALID_MARK := false; DONT_SET_ARP_IGNORE := false;
     feature_cgroup2 := false; iface_index := ex_ifaces; ct_ESTABLISHED := 2 |}.

Definition ex_fw : Firewall :=
  {| fwmark := 0x6d6f6c65; excluded_cgroup2 := None; net_cls := Some 0x4d9f41%Z |}.

Definition ex_tunnel : TunnelMetadata :=
  {| interface := "wg0"; ips := [V4 (Ipv4Addr_new 10 64 0 2)];
     ipv4_gateway := Ipv4Addr_new 10 64 0 1; ipv6_gateway := None |}.

Definition ex_peer : AllowedEndpoint :=
  {| ae_endpoint := Endpoint_new (V4 (Ipv4Addr_new 185 1 2 3)) 51820 Udp; clients := Root |}.

Definition ex_dns : ResolvedDnsConfig :=
  {| tunnel_config := [V4 (Ipv4Addr_new 10 64 0 1)];
     non_tunnel_config := [V4 (Ipv4Addr_new 192 168 1 1)] |}.

Definition ex_connected (lan : bool) : FirewallPolicy := Connected [ex_peer] ex_tunnel lan ex_dns.

(** A TCP packet over IPv4. *)
Definition ex_tcp (iif oif cgroup saddr daddr dport : Z) : pview := fun f =>
  match f with
  | MetaNfproto => Some 2%Z
  | MetaL4proto => Some 6%Z
  | MetaIif => Some iif
  | MetaOif => Some oif
  | MetaCgroup => Some cgroup
  | MetaMark | CtMark => Some 0%Z
  | Ipv4Saddr => Some saddr
  | Ipv4Daddr => Some daddr
  | TcpSport => Some 40000%Z
  | TcpDport => Some dport
  | _ => None
  end.

Definition ex_batch (policy : FirewallPolicy) : list batch_msg :=
  match finalize ex_env policy ex_fw with Ok b => b | Err _ => [] end.

Lemma ex_connected_finalizes lan :
  finalize ex_env (ex_connected lan) ex_fw = Ok (ex_batch (ex_connected lan)).
Proof. by destruct lan. Qed.

Lemma ex_blocked_finalizes :
  finalize ex_env (Blocked false None) ex_fw = Ok (ex_batch (Blocked false None)).
Proof. done. Qed.

Definition ex_web : pview :=
  ex_tcp 0 3 0 (Ipv4Addr_new 192 168 1 7) (Ipv4Addr_new 93 184 216 34) 443.

Lemma filter_chains_refine_witness :
  run_chain (chain_rules OUT_CHAIN (ex_batch (ex_connected true)))
    (chain_default OUT_CHAIN (ex_batch (ex_connected true))) ex_web
  = (Reject RejectIcmpPortUnreach, ex_web).
Proof.
  destruct (filter_chains_refine ex_env ex_fw _ _ ex_web (ex_connected_finalizes true)) as [-> _].
  reflexivity.
Defined.

(** [docs/security.md] says that on Linux whatever may go out or come in may also be forwarded.  While blocked,
    a packet to the API may go out and is not forwarded; while connected with local network sharing, a packet
    from the local network to elsewhere may come in and is not forwarded. *)
Theorem forwarding_is_narrower :
  let blocked := ex_batch (Blocked false (Some {| ae_endpoint := Endpoint_new (V4 (Ipv4Addr_new 93 184 216 34)) 443 Tcp; clients := AllClients |})) in
  let connected := ex_batch (ex_connected true) in
  let from_lan := ex_tcp 3 3 0 (Ipv4Addr_new 192 168 1 7) (Ipv4Addr_new 93 184 216 34) 443 in
  (verdict OUT_CHAIN blocked ex_web = Accept /\ verdict FORWARD_CHAIN blocked ex_web <> Accept)
  /\ (verdict IN_CHAIN connected from_lan = Accept /\ verdict FORWARD_CHAIN connected from_lan <> Accept).
Proof. vm_compute. by split. Qed.

Lemma no_dns_leak_witness :
  let p := ex_tcp 0 3 0 (Ipv4Addr_new 192 168 1 7) (Ipv4Addr_new 192 168 1 9) 53 in
  verdict OUT_CHAIN (ex_batch (ex_connected true)) p <> Accept.
Proof.
  intros p.
  pose proof (no_dns_leak ex_env ex_fw _ _ p (ex_connected_finalizes true) eq_refl) as H.
  intros Hv. apply H in Hv. vm_compute in Hv. discriminate Hv.
Defined.

Lemma blocked_rejects_tcp_witness : verdict OUT_CHAIN (ex_batch (Blocked false None)) ex_web <> Accept.
Proof.
  destruct (blocked_rejects_tcp ex_env ex_fw _ ex_web ex_blocked_finalizes eq_refl) as [H _].
  intros Hv. apply H in Hv. vm_compute in Hv. discriminate Hv.
Defined.

Lemma connected_no_tcp_leak_witness : verdict OUT_CHAIN (ex_batch (ex_connected false)) ex_web <> Accept.
Proof.
  pose proof (connected_no_tcp_leak ex_env ex_fw _ _ _ _ ex_web (ex_connected_finalizes false)
    eq_refl eq_refl) as H.
  intros Hv. apply H in Hv. vm_compute in Hv. discriminate Hv.
Defined.

Lemma tunnel_ip_not_probed_witness :
  let p := ex_tcp 3 0 0 (Ipv4Addr_new 192 168 1 66) (Ipv4Addr_new 10 64 0 2) 443 in
  verdict IN_CHAIN (ex_batch (ex_connected true)) p <> Accept.
Proof.
  intros p.
  pose proof (tunnel_ip_not_probed ex_env ex_fw _ _ _ _ p (ex_connected_finalizes true)
    eq_refl eq_refl eq_refl) as H.
  intros Hv. apply H in Hv. vm_compute in Hv. discriminate Hv.
Defined.

Lemma split_tunnel_path_witness :
  let p := ex_tcp 0 3 0x4d9f41 (Ipv4Addr_new 192 168 1 7) (Ipv4Addr_new 93 184 216 34) 443 in
  exists p', p' CtMark = Some 0xf41%Z /\ verdict OUT_CHAIN (ex_batch (ex_connected true)) p' = Accept.
Proof.
  intros p.
  destruct (split_tunnel_path ex_env ex_fw _ _ p (ex_connected_finalizes true))
    as (p' & _ & Hm & Hv).
  exists p'. split; [by rewrite Hm | by apply Hv].
Defined.

Definition ex_kernel : RefKernel :=
  {| rk_table := None; rk_acks := []; rk_files := fun _ => Some "0"; rk_ifaces := ex_ifaces |}.

Lemma apply_policy_atomic_witness :
  exists k' r, apply_policy ex_env ex_fw (ex_connected true) ex_kernel = (k', Done r) /\ r = Ok tt.
Proof.
  destruct (apply_policy_atomic ex_env ex_fw (ex_connected true) ex_kernel) as (k' & r & Ha & _).
  exists k', r. split; [exact Ha|].
  assert ((apply_policy ex_env ex_fw (ex_connected true) ex_kernel).2 = Done (Ok tt)) as H
    by (vm_compute; reflexivity).
  rewrite Ha in H. by injection H.
Defined.

Lemma arp_ignore_locked_down_witness :
  exists s, read_to_string PROC_SYS_NET_IPV4_CONF_ARP_IGNORE
              (apply_kernel_config ex_env (ex_connected true) ex_kernel) = Some s
            /\ trim s <> "0" /\ trim s <> "1".
Proof.
  apply (arp_ignore_locked_down (NF := netfilter_reference) ex_env (ex_connected true) ex_kernel "0"
           eq_refl eq_refl); [done | by eexists].
Defined.
