(* ===== verification/TunnelMonitor.v ===== *)
(** * The tunnel monitor thread

    [src/talpid-core/src/tunnel_state_machine/tunnel_monitor.rs] and the thread that
    [ConnectingState::start_tunnel] spawns: which errors of a tunnel lead to another attempt and
    which to the error state.  The WireGuard implementation ([WireguardMonitor::start] and [wait]) is
    a parameter: its outcome.  The variants are those of the Linux build. *)

From stdpp Require Import base list strings option numbers.
From S2P Require Import Prelude NetTypes TunnelTypes FirewallApply.

(** [talpid_wireguard::TunnelError], with the causes of its variants left out. *)
Inductive TunnelError : Type :=
| RecoverableStartWireguardError
| FatalStartWireguardError
| StopWireguardError
| StatsError
| GetConfigError
| SetConfigError
| FdDuplicationError
| SetupTunnelDevice
| InterfaceNameError
| StartDaita
| DaitaNotSupported
| GotaTunDevice
| ConfigureGotaTunDevice.

(** [talpid_wireguard::Error]. *)
Inductive WireguardError : Type :=
| SetupRoutingError
| TimeoutError
| WireguardConfigError
| WgTunnelError (e : TunnelError)
| ObfuscationError
| ConnectivityMonitorError
| EphemeralPeerNegotiationError.

(** [talpid_routing::Error::is_recoverable] is constantly false outside macOS. *)
Definition routing_is_recoverable : bool := false.

Definition wireguard_is_recoverable (e : WireguardError) : bool :=
  match e with
  | ObfuscationError => true
  | EphemeralPeerNegotiationError => true
  | WgTunnelError RecoverableStartWireguardError => true
  | SetupRoutingError => routing_is_recoverable
  | _ => false
  end.

(** [tunnel_monitor::Error]. *)
Inductive MonitorError : Type :=
| EnableIpv6
| UnsupportedPlatform
| RotateLogError
| TunnelMonitoring (e : WireguardError).

Definition ErrorStateCause_from (e : MonitorError) : ErrorStateCause :=
  match e with
  | EnableIpv6 => Ipv6Unavailable
  | _ => StartTunnelError
  end.

Definition is_recoverable (e : MonitorError) : bool :=
  match e with
  | TunnelMonitoring error => wireguard_is_recoverable error
  | _ => false
  end.

Definition should_retry (e : MonitorError) (retry_attempt : Z) : bool := is_recoverable e.

(** [is_ipv6_enabled_in_os], given the contents of [disable_ipv6] where the file can be read. *)
Definition is_ipv6_enabled_in_os (disable_ipv6 : option string) : bool :=
  match disable_ipv6 with
  | Some s => bool_decide (trim s = "0")
  | None => false
  end.

Definition ensure_ipv6_can_be_used_if_enabled (disable_ipv6 : option string)
    (tunnel_parameters : TunnelParameters) : result unit MonitorError :=
  if enable_ipv6 (generic_options tunnel_parameters) && negb (is_ipv6_enabled_in_os disable_ipv6)
  then Err EnableIpv6 else Ok tt.

(** [TunnelMonitor::start] then [wait].  [wireguard] is what the WireGuard monitor does: it fails to
    start, or runs and ends with or without an error. *)
Definition TunnelMonitor_start (disable_ipv6 : option string) (tunnel_parameters : TunnelParameters)
    (wireguard : result (result unit WireguardError) WireguardError)
  : result (result unit WireguardError) MonitorError :=
  bind_result (ensure_ipv6_can_be_used_if_enabled disable_ipv6 tunnel_parameters)
    (fun _ => map_err TunnelMonitoring wireguard).

Definition TunnelMonitor_wait (monitor : result unit WireguardError) : result unit MonitorError :=
  map_err TunnelMonitoring monitor.

Definition wait_for_tunnel_monitor (monitor : result unit WireguardError) (retry_attempt : Z)
  : option ErrorStateCause :=
  match TunnelMonitor_wait monitor with
  | Ok _ => None
  | Err (TunnelMonitoring TimeoutError) => None
  | Err (TunnelMonitoring _ as error) =>
      if negb (should_retry error retry_attempt) then Some StartTunnelError else None
  | Err _ => None
  end.

(** The value the thread sends on [tunnel_close_event_tx]. *)
Definition block_reason (disable_ipv6 : option string) (tunnel_parameters : TunnelParameters)
    (wireguard : result (result unit WireguardError) WireguardError) (retry_attempt : Z)
  : option ErrorStateCause :=
  match TunnelMonitor_start disable_ipv6 tunnel_parameters wireguard with
  | Ok monitor => wait_for_tunnel_monitor monitor retry_attempt
  | Err error =>
      if should_retry error retry_attempt then None else Some (ErrorStateCause_from error)
  end.

(** The errors after which another attempt may work. *)
Definition transient (e : WireguardError) : bool :=
  match e with
  | ObfuscationError | EphemeralPeerNegotiationError
  | WgTunnelError RecoverableStartWireguardError => true
  | _ => false
  end.

(** When the tunnel thread ends, the machine retries exactly when the tunnel ended well, with a
    transient error, or by a timeout after it had started; it enters the error state because of IPv6
    exactly when the tunnel needs IPv6 and the system has it disabled (then the tunnel is not even
    started), and otherwise with the generic start error. *)
Theorem block_reason_cases disable_ipv6 params wireguard retry :
  let no_ipv6 := enable_ipv6 (generic_options params) && negb (is_ipv6_enabled_in_os disable_ipv6) in
  block_reason disable_ipv6 params wireguard retry
  = if no_ipv6 then Some Ipv6Unavailable
    else match wireguard with
         | Ok (Ok _) | Ok (Err TimeoutError) => None
         | Ok (Err e) | Err e => if transient e then None else Some StartTunnelError
         end.
Proof.
  intros no_ipv6. unfold block_reason, TunnelMonitor_start, ensure_ipv6_can_be_used_if_enabled.
  fold no_ipv6. destruct no_ipv6; [done|].
  destruct wireguard as [[[]|[| | |[]| | |]]|[| | |[]| | |]]; done.
Qed.
