(* ===== verification/TunnelStateMachine.v ===== *)
(** * The tunnel state machine

    [src/talpid-core/src/tunnel_state_machine/] in the Linux build: the five states, what entering
    each of them does, and how each handles commands, tunnel events and the end of the tunnel thread.

    Everything outside the machine is the class [TunnelPlatform]: the firewall, the DNS monitor, the
    route manager, NetworkManager, the parameter generator and the tunnel threads.  A handler is a
    function in a state monad over [St], which holds the shared values, the platform's state, the
    oneshot senders that were completed (in order), and whether the command stream has ended.  Calls
    whose failure is only logged keep their result, which the code ignores. *)

From stdpp Require Import base list strings option numbers sets.
From S2P Require Import Prelude NetTypes TunnelTypes FirewallPolicy FirewallLinux.

(** ** Commands, settings and shared values *)
Inductive LockdownMode : Type := LmDisabled | LmEnabled (persist : bool).

Definition LockdownMode_yes : LockdownMode := LmEnabled true.
Definition LockdownMode_no : LockdownMode := LmDisabled.

Definition lockdown_bool (m : LockdownMode) : bool :=
  match m with LmEnabled _ => true | LmDisabled => false end.

(** [impl PartialEq for LockdownMode]: the persist flag is ignored. *)
Definition lockdown_eq (a b : LockdownMode) : bool := Bool.eqb (lockdown_bool a) (lockdown_bool b).

Definition LockdownMode_from (block : bool) : LockdownMode :=
  if block then LockdownMode_yes else LockdownMode_no.

(** A command; a [nat] stands for the oneshot sender that reports its completion. *)
Inductive TunnelCommand : Type :=
| CmdAllowLan (allow : bool) (complete_tx : nat)
| CmdAllowEndpoint (endpoint : AllowedEndpoint) (tx : nat)
| CmdDns (servers : DnsConfig) (complete_tx : nat)
| CmdLockdownMode (mode : LockdownMode) (complete_tx : nat)
| CmdConnectivity (c : Connectivity)
| CmdConnect
| CmdDisconnect
| CmdBlock (reason : ErrorStateCause).

Record SharedTunnelStateValues : Type := {
  allow_lan : bool;
  lockdown_mode : LockdownMode;
  connectivity : Connectivity;
  dns_config : DnsConfig;
  allowed_endpoint : AllowedEndpoint;
  connectivity_check_was_enabled : option bool;
}.

Definition with_allow_lan (b : bool) (v : SharedTunnelStateValues) : SharedTunnelStateValues :=
  {| allow_lan := b; lockdown_mode := lockdown_mode v; connectivity := connectivity v;
     dns_config := dns_config v; allowed_endpoint := allowed_endpoint v;
     connectivity_check_was_enabled := connectivity_check_was_enabled v |}.

Definition with_lockdown_mode (m : LockdownMode) (v : SharedTunnelStateValues)
  : SharedTunnelStateValues :=
  {| allow_lan := allow_lan v; lockdown_mode := m; connectivity := connectivity v;
     dns_config := dns_config v; allowed_endpoint := allowed_endpoint v;
     connectivity_check_was_enabled := connectivity_check_was_enabled v |}.

Definition with_connectivity (c : Connectivity) (v : SharedTunnelStateValues)
  : SharedTunnelStateValues :=
  {| allow_lan := allow_lan v; lockdown_mode := lockdown_mode v; connectivity := c;
     dns_config := dns_config v; allowed_endpoint := allowed_endpoint v;
     connectivity_check_was_enabled := connectivity_check_was_enabled v |}.

Definition with_dns_config (c : DnsConfig) (v : SharedTunnelStateValues) : SharedTunnelStateValues :=
  {| allow_lan := allow_lan v; lockdown_mode := lockdown_mode v; connectivity := connectivity v;
     dns_config := c; allowed_endpoint := allowed_endpoint v;
     connectivity_check_was_enabled := connectivity_check_was_enabled v |}.

Definition with_allowed_endpoint (e : AllowedEndpoint) (v : SharedTunnelStateValues)
  : SharedTunnelStateValues :=
  {| allow_lan := allow_lan v; lockdown_mode := lockdown_mode v; connectivity := connectivity v;
     dns_config := dns_config v; allowed_endpoint := e;
     connectivity_check_was_enabled := connectivity_check_was_enabled v |}.

Definition with_connectivity_check (o : option bool) (v : SharedTunnelStateValues)
  : SharedTunnelStateValues :=
  {| allow_lan := allow_lan v; lockdown_mode := lockdown_mode v; connectivity := connectivity v;
     dns_config := dns_config v; allowed_endpoint := allowed_endpoint v;
     connectivity_check_was_enabled := o |}.

(** ** States *)

(** What the machine holds of a running tunnel: its identity (the close sender and the receivers of
    its events) and whether the close event has been received. *)
Record TunnelHandle : Type := { tunnel_id : nat; close_terminated : bool }.

Record ConnectingData : Type := {
  ct_parameters : TunnelParameters;
  ct_metadata : option TunnelMetadata;
  ct_traffic : AllowedTunnelTraffic;
  ct_tunnel : TunnelHandle;
  retry_attempt : Z;
}.

Record ConnectedData : Type := {
  cd_metadata : TunnelMetadata;
  cd_parameters : TunnelParameters;
  cd_tunnel : TunnelHandle;
}.

Inductive AfterDisconnect : Type :=
| AfterNothing
| AfterBlock (cause : ErrorStateCause)
| AfterReconnect (retry_attempt : Z).

Definition action (a : AfterDisconnect) : ActionAfterDisconnect :=
  match a with
  | AfterNothing => ActionNothing
  | AfterBlock _ => ActionBlock
  | AfterReconnect _ => ActionReconnect
  end.

Inductive TunnelState : Type :=
| DisconnectedState
| ConnectingState (c : ConnectingData)
| ConnectedState (c : ConnectedData)
| DisconnectingState (tunnel : TunnelHandle) (after_disconnect : AfterDisconnect)
| ErrorState (block_reason : ErrorStateCause).

Inductive EventConsequence : Type :=
| NewState (s : TunnelState) (t : TunnelStateTransition)
| SameState (s : TunnelState)
| Finished.

Inductive EventResult : Type :=
| RCommand (command : option TunnelCommand)
| REvent (event : option TunnelEvent)
| RClose (result : option (option ErrorStateCause)).

(** ** The platform *)
Class TunnelPlatform (W : Type) : Type := {
  fw_apply_policy : FirewallPolicy -> W -> W * result unit fw_error;
  fw_reset_policy : W -> W * result unit fw_error;
  dns_set : string -> ResolvedDnsConfig -> W -> W * bool;
  dns_reset : W -> W * bool;
  dns_reset_before_interface_removal : W -> W * bool;
  clear_routes : W -> W * bool;
  clear_routing_rules : W -> W * bool;
  (** [NetworkManager::new] and, where it succeeds, [disable_connectivity_check]. *)
  nm_disable_connectivity_check : W -> W * option (option bool);
  nm_enable_connectivity_check : W -> W * option bool;
  generate : Z -> IpAvailability -> W -> W * result TunnelParameters ParameterGenerationError;
  (** Spawn the thread of a tunnel; signal a thread to close its tunnel. *)
  spawn_tunnel : TunnelParameters -> Z -> W -> W * nat;
  send_close : nat -> W -> W * bool;
}.

Record St (W : Type) : Type := {
  sv : SharedTunnelStateValues;
  world : W;
  replies : list nat;
  commands_done : bool;
}.
Arguments sv {W} s.
Arguments world {W} s.
Arguments replies {W} s.
Arguments commands_done {W} s.

(** ** The monad of the handlers *)
Definition M (W A : Type) : Type := St W -> St W * A.

Definition ret {W A} (a : A) : M W A := fun st => (st, a).

Definition bindM {W A B} (m : M W A) (k : A -> M W B) : M W B :=
  fun st => let '(st', a) := m st in k a st'.

Notation "x <-- c ; k" := (bindM c (fun x => k))
  (at level 100, c at next level, right associativity) : vpn_scope.
Notation "c ;;; k" := (bindM c (fun _ => k))
  (at level 100, right associativity) : vpn_scope.

Definition on_world {W A} (f : W -> W * A) : M W A := fun st =>
  let '(w, a) := f (world st) in
  ({| sv := sv st; world := w; replies := replies st; commands_done := commands_done st |}, a).

Definition get_sv {W} : M W SharedTunnelStateValues := fun st => (st, sv st).

Definition set_sv {W} (f : SharedTunnelStateValues -> SharedTunnelStateValues) : M W unit := fun st =>
  ({| sv := f (sv st); world := world st; replies := replies st;
      commands_done := commands_done st |}, tt).

(** [oneshot::Sender::send]; a receiver that is gone is ignored by the code. *)
Definition send_tx {W} (tx : nat) : M W unit := fun st =>
  ({| sv := sv st; world := world st; replies := replies st ++ [tx];
      commands_done := commands_done st |}, tt).

Local Open Scope vpn_scope.

Section machine.
Context {W : Type} `{P : TunnelPlatform W}.

(** ** [SharedTunnelStateValues] *)
Definition set_allow_lan (b : bool) : M W bool :=
  v <-- get_sv;
  if negb (Bool.eqb (allow_lan v) b) then set_sv (with_allow_lan b) ;;; ret true else ret false.

Definition set_dns_config (c : DnsConfig) : M W bool :=
  v <-- get_sv;
  if bool_decide (dns_config v <> c) then set_sv (with_dns_config c) ;;; ret true else ret false.

Definition disable_connectivity_check : M W unit :=
  v <-- get_sv;
  match connectivity_check_was_enabled v with
  | None =>
      r <-- on_world nm_disable_connectivity_check;
      match r with
      | Some was_enabled => set_sv (with_connectivity_check was_enabled)
      | None => ret tt
      end
  | Some _ => ret tt
  end.

Definition reset_connectivity_check : M W unit :=
  v <-- get_sv;
  set_sv (with_connectivity_check None) ;;;
  (if bool_decide (connectivity_check_was_enabled v = Some true)
   then on_world nm_enable_connectivity_check ;;; ret tt
   else ret tt).

(** ** Entering a state *)
Definition blocked_policy (v : SharedTunnelStateValues) : FirewallPolicy :=
  Blocked (allow_lan v) (Some (allowed_endpoint v)).

Definition Error_set_firewall_policy : M W (result unit FirewallPolicyError) :=
  v <-- get_sv;
  let policy := blocked_policy v in
  disable_connectivity_check ;;;
  r <-- on_world (fw_apply_policy policy);
  ret (map_err (fun _ => Generic) r).

Definition Error_enter (block_reason : ErrorStateCause) : M W (TunnelState * TunnelStateTransition) :=
  r <-- Error_set_firewall_policy;
  ret (ErrorState block_reason, TrError {| cause := block_reason; block_failure := result_err r |}).

Definition Error_reset_dns : M W unit := on_world dns_reset ;;; ret tt.

Definition peer_endpoints_of (params : TunnelParameters) : list AllowedEndpoint :=
  map (fun endpoint => {| ae_endpoint := endpoint; clients := Root |})
    (get_next_hop_endpoints params).

Definition connecting_policy (v : SharedTunnelStateValues) (params : TunnelParameters)
    (tunnel_metadata : option TunnelMetadata) (traffic : AllowedTunnelTraffic) : FirewallPolicy :=
  Connecting (peer_endpoints_of params) tunnel_metadata (allow_lan v) (allowed_endpoint v) traffic.

Definition Connecting_set_firewall_policy (params : TunnelParameters)
    (tunnel_metadata : option TunnelMetadata) (traffic : AllowedTunnelTraffic)
  : M W (result unit FirewallPolicyError) :=
  disable_connectivity_check ;;;
  v <-- get_sv;
  r <-- on_world (fw_apply_policy (connecting_policy v params tunnel_metadata traffic));
  ret (map_err (fun _ => Generic) r).

Definition INITIAL_ALLOWED_TUNNEL_TRAFFIC : AllowedTunnelTraffic := TrafficNone.

Definition start_tunnel (parameters : TunnelParameters) (retry : Z) : M W ConnectingData :=
  id <-- on_world (spawn_tunnel parameters retry);
  ret {| ct_parameters := parameters; ct_metadata := None;
         ct_traffic := INITIAL_ALLOWED_TUNNEL_TRAFFIC;
         ct_tunnel := {| tunnel_id := id; close_terminated := false |};
         retry_attempt := retry |}.

Definition Connecting_enter (retry : Z) : M W (TunnelState * TunnelStateTransition) :=
  v <-- get_sv;
  match availability (connectivity v) with
  | None => Error_enter IsOffline
  | Some ip_availability =>
      g <-- on_world (generate retry ip_availability);
      match g with
      | Err err => Error_enter (TunnelParameterError err)
      | Ok tunnel_parameters =>
          r <-- Connecting_set_firewall_policy tunnel_parameters None TrafficNone;
          match r with
          | Err error => Error_enter (SetFirewallPolicyError error)
          | Ok _ =>
              connecting_state <-- start_tunnel tunnel_parameters retry;
              ret (ConnectingState connecting_state,
                   TrConnecting (get_tunnel_endpoint (ct_parameters connecting_state)))
          end
      end
  end.

Definition Disconnecting_enter (tunnel : TunnelHandle) (after_disconnect : AfterDisconnect)
  : M W (TunnelState * TunnelStateTransition) :=
  on_world (send_close (tunnel_id tunnel)) ;;;
  ret (DisconnectingState tunnel after_disconnect, TrDisconnecting (action after_disconnect)).

Definition resolve_dns (metadata : TunnelMetadata) (v : SharedTunnelStateValues)
  : ResolvedDnsConfig :=
  DnsConfig_resolve (dns_config v) (gateways metadata).

Definition get_firewall_policy (c : ConnectedData) (v : SharedTunnelStateValues) : FirewallPolicy :=
  Connected (peer_endpoints_of (cd_parameters c)) (cd_metadata c) (allow_lan v)
    (resolve_dns (cd_metadata c) v).

Definition Connected_set_firewall_policy (c : ConnectedData)
  : M W (result unit FirewallPolicyError) :=
  v <-- get_sv;
  r <-- on_world (fw_apply_policy (get_firewall_policy c v));
  ret (map_err (fun _ => Generic) r).

Definition set_dns (c : ConnectedData) : M W bool :=
  v <-- get_sv;
  on_world (dns_set (interface (cd_metadata c)) (resolve_dns (cd_metadata c) v)).

Definition connected_endpoint (c : ConnectedData) : TunnelEndpoint :=
  let e := get_tunnel_endpoint (cd_parameters c) in
  {| te_endpoint := te_endpoint e; te_quantum_resistant := te_quantum_resistant e;
     te_obfuscation := te_obfuscation e; entry_endpoint := entry_endpoint e;
     tunnel_interface := Some (interface (cd_metadata c)); te_daita := te_daita e |}.

Definition Connected_enter (c : ConnectedData) : M W (TunnelState * TunnelStateTransition) :=
  r <-- Connected_set_firewall_policy c;
  match r with
  | Err error => Disconnecting_enter (cd_tunnel c) (AfterBlock (SetFirewallPolicyError error))
  | Ok _ =>
      ok <-- set_dns c;
      if negb ok then Disconnecting_enter (cd_tunnel c) (AfterBlock SetDnsError)
      else ret (ConnectedState c, TrConnected (connected_endpoint c))
  end.

Definition construct_state_transition : M W (TunnelState * TunnelStateTransition) :=
  v <-- get_sv; ret (DisconnectedState, TrDisconnected (lockdown_bool (lockdown_mode v))).

(** A failure is only logged. *)
Definition Disconnected_set_firewall_policy (should_reset_firewall : bool) : M W unit :=
  v <-- get_sv;
  if lockdown_bool (lockdown_mode v) then on_world (fw_apply_policy (blocked_policy v)) ;;; ret tt
  else if should_reset_firewall then on_world fw_reset_policy ;;; ret tt
  else ret tt.

Definition Disconnected_enter (should_reset_firewall : bool)
  : M W (TunnelState * TunnelStateTransition) :=
  Disconnected_set_firewall_policy should_reset_firewall ;;;
  reset_connectivity_check ;;;
  construct_state_transition.

Definition Disconnected_reset_dns : M W unit := on_world dns_reset ;;; ret tt.
(** ** Handlers of the connecting state *)
Definition new_state (m : M W (TunnelState * TunnelStateTransition)) : M W EventConsequence :=
  x <-- m; ret (NewState x.1 x.2).

Definition reset_routes : M W unit :=
  on_world clear_routes ;;; on_world clear_routing_rules ;;; ret tt.

Definition Connecting_disconnect (c : ConnectingData) (after_disconnect : AfterDisconnect)
  : M W EventConsequence :=
  reset_routes ;;; new_state (Disconnecting_enter (ct_tunnel c) after_disconnect).

Definition Connecting_reset_firewall (c : ConnectingData) : M W EventConsequence :=
  r <-- Connecting_set_firewall_policy (ct_parameters c) (ct_metadata c) (ct_traffic c);
  match r with
  | Ok _ => ret (SameState (ConnectingState c))
  | Err error => Connecting_disconnect c (AfterBlock (SetFirewallPolicyError error))
  end.

Definition Connecting_handle_commands (c : ConnectingData) (command : option TunnelCommand)
  : M W EventConsequence :=
  match command with
  | Some (CmdAllowLan b complete_tx) =>
      changed <-- set_allow_lan b;
      consequence <-- (if changed then Connecting_reset_firewall c
                       else ret (SameState (ConnectingState c)));
      send_tx complete_tx ;;; ret consequence
  | Some (CmdAllowEndpoint endpoint tx) =>
      v <-- get_sv;
      if bool_decide (allowed_endpoint v <> endpoint) then
        set_sv (with_allowed_endpoint endpoint) ;;;
        r <-- Connecting_set_firewall_policy (ct_parameters c) (ct_metadata c) (ct_traffic c);
        match r with
        | Err error =>
            send_tx tx ;;; Connecting_disconnect c (AfterBlock (SetFirewallPolicyError error))
        | Ok _ => send_tx tx ;;; ret (SameState (ConnectingState c))
        end
      else send_tx tx ;;; ret (SameState (ConnectingState c))
  | Some (CmdDns servers complete_tx) =>
      set_dns_config servers ;;; send_tx complete_tx ;;; ret (SameState (ConnectingState c))
  | Some (CmdLockdownMode mode complete_tx) =>
      set_sv (with_lockdown_mode mode) ;;; send_tx complete_tx ;;;
      ret (SameState (ConnectingState c))
  | Some (CmdConnectivity conn) =>
      set_sv (with_connectivity conn) ;;;
      if is_offline conn then Connecting_disconnect c (AfterBlock IsOffline)
      else ret (SameState (ConnectingState c))
  | Some CmdConnect => Connecting_disconnect c (AfterReconnect 0)
  | Some CmdDisconnect | None => Connecting_disconnect c AfterNothing
  | Some (CmdBlock reason) => Connecting_disconnect c (AfterBlock reason)
  end.

Definition with_tunnel_metadata (c : ConnectingData) (m : option TunnelMetadata)
    (traffic : AllowedTunnelTraffic) : ConnectingData :=
  {| ct_parameters := ct_parameters c; ct_metadata := m; ct_traffic := traffic;
     ct_tunnel := ct_tunnel c; retry_attempt := retry_attempt c |}.

(** The sender that comes with an event is dropped when the handler returns. *)
Definition Connecting_handle_tunnel_events (c : ConnectingData) (event : option TunnelEvent)
  : M W EventConsequence :=
  match event with
  | Some (EvAuthFailed reason) => Connecting_disconnect c (AfterBlock (AuthFailed reason))
  | Some (EvInterfaceUp metadata traffic) =>
      let c := with_tunnel_metadata c (Some metadata) traffic in
      r <-- Connecting_set_firewall_policy (ct_parameters c) (ct_metadata c) (ct_traffic c);
      match r with
      | Ok _ => ret (SameState (ConnectingState c))
      | Err error => Connecting_disconnect c (AfterBlock (SetFirewallPolicyError error))
      end
  | Some (EvUp metadata) =>
      new_state (Connected_enter
        {| cd_metadata := metadata; cd_parameters := ct_parameters c; cd_tunnel := ct_tunnel c |})
  | Some EvDown =>
      ret (SameState (ConnectingState (with_tunnel_metadata c None INITIAL_ALLOWED_TUNNEL_TRAFFIC)))
  | None => Connecting_disconnect c (AfterReconnect (u32_add (retry_attempt c) 1))
  end.

Definition Connecting_handle_tunnel_close_event (c : ConnectingData)
    (block_reason : option ErrorStateCause) : M W EventConsequence :=
  match block_reason with
  | Some reason => reset_routes ;;; new_state (Error_enter reason)
  | None => reset_routes ;;; new_state (Connecting_enter (u32_add (retry_attempt c) 1))
  end.

(** ** Handlers of the connected state *)
Definition Connected_reset_dns : M W unit := on_world dns_reset_before_interface_removal ;;; ret tt.

Definition Connected_disconnect (c : ConnectedData) (after_disconnect : AfterDisconnect)
  : M W EventConsequence :=
  Connected_reset_dns ;;; reset_routes ;;;
  new_state (Disconnecting_enter (cd_tunnel c) after_disconnect).

Definition Connected_handle_commands (c : ConnectedData) (command : option TunnelCommand)
  : M W EventConsequence :=
  match command with
  | Some (CmdAllowLan b complete_tx) =>
      changed <-- set_allow_lan b;
      consequence <--
        (if changed then
           r <-- Connected_set_firewall_policy c;
           match r with
           | Ok _ => ret (SameState (ConnectedState c))
           | Err error => Connected_disconnect c (AfterBlock (SetFirewallPolicyError error))
           end
         else ret (SameState (ConnectedState c)));
      send_tx complete_tx ;;; ret consequence
  | Some (CmdAllowEndpoint endpoint tx) =>
      set_sv (with_allowed_endpoint endpoint) ;;; send_tx tx ;;; ret (SameState (ConnectedState c))
  | Some (CmdDns servers complete_tx) =>
      changed <-- set_dns_config servers;
      if changed then
        r <-- Connected_set_firewall_policy c;
        match r with
        | Err error =>
            (* an early return, without completing the command *)
            Connected_disconnect c (AfterBlock (SetFirewallPolicyError error))
        | Ok _ =>
            ok <-- set_dns c;
            consequence <-- (if (ok : bool) then ret (SameState (ConnectedState c))
                             else Connected_disconnect c (AfterBlock SetDnsError));
            send_tx complete_tx ;;; ret consequence
        end
      else send_tx complete_tx ;;; ret (SameState (ConnectedState c))
  | Some (CmdLockdownMode mode complete_tx) =>
      set_sv (with_lockdown_mode mode) ;;; send_tx complete_tx ;;;
      ret (SameState (ConnectedState c))
  | Some (CmdConnectivity conn) =>
      set_sv (with_connectivity conn) ;;;
      if is_offline conn then Connected_disconnect c (AfterBlock IsOffline)
      else ret (SameState (ConnectedState c))
  | Some CmdConnect => Connected_disconnect c (AfterReconnect 0)
  | Some CmdDisconnect | None => Connected_disconnect c AfterNothing
  | Some (CmdBlock reason) => Connected_disconnect c (AfterBlock reason)
  end.

Definition Connected_handle_tunnel_events (c : ConnectedData) (event : option TunnelEvent)
  : M W EventConsequence :=
  match event with
  | Some EvDown | None => Connected_disconnect c (AfterReconnect 0)
  | Some _ => ret (SameState (ConnectedState c))
  end.

Definition Connected_handle_tunnel_close_event (c : ConnectedData)
    (block_reason : option ErrorStateCause) : M W EventConsequence :=
  match block_reason with
  | Some reason => Connected_reset_dns ;;; reset_routes ;;; new_state (Error_enter reason)
  | None => Connected_reset_dns ;;; reset_routes ;;; new_state (Connecting_enter 0)
  end.
(** ** Handlers of the disconnecting state *)
Definition Disconnecting_handle_commands (t : TunnelHandle) (a : AfterDisconnect)
    (command : option TunnelCommand) : M W EventConsequence :=
  a' <--
    match command with
    | Some (CmdAllowLan b complete_tx) => set_allow_lan b ;;; send_tx complete_tx ;;; ret a
    | Some (CmdAllowEndpoint endpoint tx) =>
        set_sv (with_allowed_endpoint endpoint) ;;; send_tx tx ;;; ret a
    | Some (CmdDns servers complete_tx) => set_dns_config servers ;;; send_tx complete_tx ;;; ret a
    | Some (CmdLockdownMode mode complete_tx) =>
        set_sv (with_lockdown_mode mode) ;;; send_tx complete_tx ;;; ret a
    | Some (CmdConnectivity conn) =>
        set_sv (with_connectivity conn) ;;;
        ret match a with
            | AfterReconnect _ => if is_offline conn then AfterBlock IsOffline else a
            | AfterBlock IsOffline => if negb (is_offline conn) then AfterReconnect 0 else a
            | _ => a
            end
    | Some CmdConnect =>
        ret match a with AfterReconnect retry => AfterReconnect retry | _ => AfterReconnect 0 end
    | Some CmdDisconnect => ret AfterNothing
    | Some (CmdBlock reason) =>
        ret match a with AfterNothing => AfterNothing | _ => AfterBlock reason end
    | None => ret match a with AfterReconnect _ => AfterNothing | _ => a end
    end;
  ret (SameState (DisconnectingState t a')).

Definition after_disconnect (a : AfterDisconnect) (block_reason : option ErrorStateCause)
  : M W (TunnelState * TunnelStateTransition) :=
  match block_reason with
  | Some reason => Error_enter reason
  | None =>
      match a with
      | AfterNothing => Disconnected_enter true
      | AfterBlock cause => Error_enter cause
      | AfterReconnect retry => Connecting_enter retry
      end
  end.

(** ** Handlers of the disconnected and error states *)
Definition Disconnected_handle_commands (command : option TunnelCommand) : M W EventConsequence :=
  match command with
  | Some (CmdAllowLan b complete_tx) =>
      changed <-- set_allow_lan b;
      (if (changed : bool) then Disconnected_set_firewall_policy false else ret tt) ;;;
      send_tx complete_tx ;;; ret (SameState DisconnectedState)
  | Some (CmdAllowEndpoint endpoint tx) =>
      v <-- get_sv;
      (if bool_decide (allowed_endpoint v <> endpoint)
       then set_sv (with_allowed_endpoint endpoint) ;;; Disconnected_set_firewall_policy false
       else ret tt) ;;;
      send_tx tx ;;; ret (SameState DisconnectedState)
  | Some (CmdDns servers complete_tx) =>
      set_dns_config servers ;;; send_tx complete_tx ;;; ret (SameState DisconnectedState)
  | Some (CmdLockdownMode mode complete_tx) =>
      v <-- get_sv;
      if negb (lockdown_eq (lockdown_mode v) mode) then
        set_sv (with_lockdown_mode mode) ;;;
        Disconnected_set_firewall_policy true ;;;
        send_tx complete_tx ;;;
        new_state construct_state_transition
      else send_tx complete_tx ;;; ret (SameState DisconnectedState)
  | Some (CmdConnectivity conn) =>
      set_sv (with_connectivity conn) ;;; ret (SameState DisconnectedState)
  | Some CmdConnect => new_state (Connecting_enter 0)
  | Some (CmdBlock _) => ret (SameState DisconnectedState)
  | None => Disconnected_reset_dns ;;; ret Finished
  | Some CmdDisconnect => ret (SameState DisconnectedState)
  end.

Definition Error_handle_commands (reason : ErrorStateCause) (command : option TunnelCommand)
  : M W EventConsequence :=
  match command with
  | Some (CmdAllowLan b complete_tx) =>
      changed <-- set_allow_lan b;
      (if (changed : bool) then Error_set_firewall_policy ;;; ret tt else ret tt) ;;;
      send_tx complete_tx ;;; ret (SameState (ErrorState reason))
  | Some (CmdAllowEndpoint endpoint tx) =>
      v <-- get_sv;
      (if bool_decide (allowed_endpoint v <> endpoint)
       then set_sv (with_allowed_endpoint endpoint) ;;; Error_set_firewall_policy ;;; ret tt
       else ret tt) ;;;
      send_tx tx ;;; ret (SameState (ErrorState reason))
  | Some (CmdDns servers complete_tx) =>
      changed <-- set_dns_config servers;
      (if (changed : bool) then Error_set_firewall_policy ;;; ret tt else ret tt) ;;;
      send_tx complete_tx ;;; ret (SameState (ErrorState reason))
  | Some (CmdLockdownMode mode complete_tx) =>
      set_sv (with_lockdown_mode mode) ;;; send_tx complete_tx ;;;
      ret (SameState (ErrorState reason))
  | Some (CmdConnectivity conn) =>
      set_sv (with_connectivity conn) ;;;
      if negb (is_offline conn)
         && (bool_decide (reason = IsOffline)
             || match reason with
                | TunnelParameterError (IpVersionUnavailable family) => has_family conn family
                | _ => false
                end)
      then Error_reset_dns ;;; new_state (Connecting_enter 0)
      else ret (SameState (ErrorState reason))
  | Some CmdConnect => Error_reset_dns ;;; new_state (Connecting_enter 0)
  | Some CmdDisconnect | None =>
      reset_connectivity_check ;;; Error_reset_dns ;;; new_state (Disconnected_enter true)
  | Some (CmdBlock reason) => new_state (Error_enter reason)
  end.

(** ** Receiving an event

    What can happen while a state waits.  [InCommand None]: the command channel is closed and
    empty; [InEmpty]: it has no message, which only [try_recv] observes; [InClose None]: the close
    sender was dropped. *)
Inductive Input : Type :=
| InCommand (command : option TunnelCommand)
| InEmpty
| InEvent (event : option TunnelEvent)
| InClose (result : option (option ErrorStateCause)).

(** [futures::select!] polls a stream or future that has not ended: the command stream only before
    it returned [None], the close event only before it fired. *)
Definition poll_tunnel (commands_done : bool) (t : TunnelHandle) (i : Input) : option EventResult :=
  match i with
  | InCommand command => if commands_done then None else Some (RCommand command)
  | InEmpty => None
  | InEvent event => Some (REvent event)
  | InClose result => if close_terminated t then None else Some (RClose result)
  end.

(** The disconnecting state does not listen to tunnel events; once the close event was received it
    does not wait for a command. *)
Definition poll_disconnecting (commands_done : bool) (t : TunnelHandle) (i : Input)
  : option EventResult :=
  if close_terminated t then
    if commands_done then match i with InCommand None => Some (RClose (Some None)) | _ => None end
    else match i with
         | InCommand (Some command) => Some (RCommand (Some command))
         | InEmpty => Some (RCommand None)
         | InCommand None => Some (RClose (Some None))
         | _ => None
         end
  else match i with
       | InCommand command => if commands_done then None else Some (RCommand command)
       | InClose result => Some (RClose result)
       | _ => None
       end.

(** [commands.next()] on its own: a stream that has ended yields [None] again. *)
Definition poll_commands (commands_done : bool) (i : Input) : option (option TunnelCommand) :=
  match i with
  | InCommand None => Some None
  | InCommand (Some command) => if commands_done then None else Some (Some command)
  | _ => None
  end.

Definition is_closed_channel (i : Input) : bool :=
  match i with InCommand None => true | _ => false end.

(** The command stream is fused: it has ended once it returned [None]. *)
Definition note_input (i : Input) (st : St W) : St W :=
  {| sv := sv st; world := world st; replies := replies st;
     commands_done := commands_done st || is_closed_channel i |}.

Definition close_reason (result : option (option ErrorStateCause)) : option ErrorStateCause :=
  match result with Some reason => reason | None => None end.

(** [TunnelState::handle_event], for an input the state waits for; [None] for one it does not. *)
Definition handle_event (s : TunnelState) (i : Input) (st : St W)
  : option (St W * EventConsequence) :=
  let run (m : M W EventConsequence) := m (note_input i st) in
  match s with
  | DisconnectedState => run ∘ Disconnected_handle_commands <$> poll_commands (commands_done st) i
  | ErrorState reason =>
      (fun command => run (Error_handle_commands reason command)) <$> poll_commands (commands_done st) i
  | ConnectingState c =>
      (fun r => run match r with
                    | RCommand command => Connecting_handle_commands c command
                    | REvent event => Connecting_handle_tunnel_events c event
                    | RClose result => Connecting_handle_tunnel_close_event c (close_reason result)
                    end) <$> poll_tunnel (commands_done st) (ct_tunnel c) i
  | ConnectedState c =>
      (fun r => run match r with
                    | RCommand command => Connected_handle_commands c command
                    | REvent event => Connected_handle_tunnel_events c event
                    | RClose result => Connected_handle_tunnel_close_event c (close_reason result)
                    end) <$> poll_tunnel (commands_done st) (cd_tunnel c) i
  | DisconnectingState t a =>
      r ← poll_disconnecting (commands_done st) t i;
      match r with
      | RCommand command => Some (run (Disconnecting_handle_commands t a command))
      | RClose result => Some (run (new_state (after_disconnect a (close_reason result))))
      | REvent _ => None
      end
  end.

(** ** The machine *)
Record InitialTunnelState : Type := {
  init_allow_lan : bool;
  init_lockdown_mode : LockdownMode;
  init_dns_config : DnsConfig;
  init_allowed_endpoint : AllowedEndpoint;
  reset_firewall : bool;
}.

Inductive Machine : Type :=
| Running (s : TunnelState) (st : St W)
| Stopped (st : St W).

(** [TunnelStateMachine::new], given the connectivity the offline monitor reports; the Linux
    firewall does nothing when it is created. *)
Definition TunnelStateMachine_new (settings : InitialTunnelState) (c : Connectivity) (w : W)
  : Machine :=
  let st := {| sv := {| allow_lan := init_allow_lan settings;
                        lockdown_mode := init_lockdown_mode settings;
                        connectivity := c;
                        dns_config := init_dns_config settings;
                        allowed_endpoint := init_allowed_endpoint settings;
                        connectivity_check_was_enabled := None |};
               world := w; replies := []; commands_done := false |} in
  let '(st, (s, _)) := Disconnected_enter (reset_firewall settings) st in
  Running s st.

(** One iteration of the loop of [run]: the machine and the transition it reports.  [listening]
    says whether the receiver of transitions still exists; the loop ends when it does not. *)
Definition iterate (m : Machine) (i : Input) (listening : bool)
  : option (Machine * option TunnelStateTransition) :=
  match m with
  | Stopped _ => None
  | Running s st =>
      '(st, consequence) ← handle_event s i st;
      match consequence with
      | NewState s transition =>
          if (listening : bool) then Some (Running s st, Some transition) else Some (Stopped st, None)
      | SameState s => Some (Running s st, None)
      | Finished => Some (Stopped st, None)
      end
  end.

(** The loop over a sequence of inputs: the final machine and the reported transitions. *)
Fixpoint run (m : Machine) (inputs : list (Input * bool))
  : option (Machine * list TunnelStateTransition) :=
  match inputs with
  | [] => Some (m, [])
  | (i, listening) :: inputs =>
      '(m, t) ← iterate m i listening;
      '(m, ts) ← run m inputs;
      Some (m, option_list t ++ ts)
  end.
End machine.
