(* ===== verification/TunnelWp.v ===== *)
(** * Reasoning about the handlers

    The laws of the platform, and a weakest precondition calculus for the monad of
    [TunnelStateMachine]: [wp m Q st] says that running [m] in [st] ends in a state and a value that
    satisfy [Q].  Every handler is proved once against the postcondition a theorem needs, by the
    rules for [bindM], the primitives and the entry functions. *)

From stdpp Require Import base list strings option numbers sets.
From S2P Require Import Prelude NetTypes TunnelTypes FirewallPolicy FirewallLinux TunnelStateMachine.

Local Open Scope vpn_scope.

(** What can be observed of the platform: the policies in force and the resolver configuration. *)
Class TunnelView (W : Type) : Type := {
  enforces : W -> FirewallPolicy -> Prop;
  dns_active : W -> string -> ResolvedDnsConfig -> Prop;
}.

(** Every policy in force before is in force after. *)
Definition keeps_rules {W} `{TunnelView W} (w w' : W) : Prop :=
  forall q, enforces w q -> enforces w' q.

(** The interface the state machine relies on: a policy that was applied successfully is in force; a
    failed application leaves the old rules or the new ones, never none; nothing but the firewall's own
    operations touches the rules. *)
Class TunnelPlatformLaws (W : Type) (P : TunnelPlatform W) (V : TunnelView W) : Prop := {
  apply_ok q w w' u : fw_apply_policy q w = (w', Ok u) -> enforces w' q;
  apply_atomic q w w' r :
    fw_apply_policy q w = (w', r) -> enforces w' q \/ keeps_rules w w';
  dns_set_ok i c w w' : dns_set i c w = (w', true) -> dns_active w' i c;
  dns_set_keeps i c w : keeps_rules w (dns_set i c w).1;
  dns_reset_keeps w : keeps_rules w (dns_reset w).1;
  dns_reset_before_keeps w : keeps_rules w (dns_reset_before_interface_removal w).1;
  clear_routes_keeps w : keeps_rules w (clear_routes w).1;
  clear_routing_rules_keeps w : keeps_rules w (clear_routing_rules w).1;
  nm_disable_keeps w : keeps_rules w (nm_disable_connectivity_check w).1;
  nm_enable_keeps w : keeps_rules w (nm_enable_connectivity_check w).1;
  generate_keeps n a w : keeps_rules w (generate n a w).1;
  spawn_tunnel_keeps p n w : keeps_rules w (spawn_tunnel p n w).1;
  send_close_keeps t w : keeps_rules w (send_close t w).1;
}.

Definition wp {W A} (m : M W A) (Q : St W -> A -> Prop) (st : St W) : Prop := Q (m st).1 (m st).2.

Section rules.
Context {W : Type}.

Lemma wp_ret {A} (a : A) (Q : St W -> A -> Prop) st : Q st a -> wp (ret a) Q st.
Proof. done. Qed.

Lemma wp_bind {A B} (m : M W A) (k : A -> M W B) Q st :
  wp m (fun st a => wp (k a) Q st) st -> wp (bindM m k) Q st.
Proof. unfold wp, bindM. by destruct (m st). Qed.

Lemma wp_mono {A} (m : M W A) (Q R : St W -> A -> Prop) st :
  wp m Q st -> (forall st a, Q st a -> R st a) -> wp m R st.
Proof. unfold wp. auto. Qed.

Lemma wp_get_sv (Q : St W -> SharedTunnelStateValues -> Prop) st : Q st (sv st) -> wp get_sv Q st.
Proof. done. Qed.

Definition update_sv (f : SharedTunnelStateValues -> SharedTunnelStateValues) (st : St W) : St W :=
  {| sv := f (sv st); world := world st; replies := replies st; commands_done := commands_done st |}.

Definition update_world (w : W) (st : St W) : St W :=
  {| sv := sv st; world := w; replies := replies st; commands_done := commands_done st |}.

Definition add_reply (tx : nat) (st : St W) : St W :=
  {| sv := sv st; world := world st; replies := replies st ++ [tx];
     commands_done := commands_done st |}.

Lemma wp_set_sv f (Q : St W -> unit -> Prop) st : Q (update_sv f st) tt -> wp (set_sv f) Q st.
Proof. done. Qed.

Lemma wp_send_tx tx (Q : St W -> unit -> Prop) st : Q (add_reply tx st) tt -> wp (send_tx tx) Q st.
Proof. done. Qed.

Lemma wp_on_world {A} (f : W -> W * A) (Q : St W -> A -> Prop) st :
  (forall w a, f (world st) = (w, a) -> Q (update_world w st) a) -> wp (on_world f) Q st.
Proof. unfold wp, on_world. intros H. destruct (f (world st)) as [w a] eqn:E. by apply H. Qed.

Lemma wp_new_state (m : M W (TunnelState * TunnelStateTransition)) Q st :
  wp m (fun st x => Q st (NewState x.1 x.2)) st -> wp (new_state m) Q st.
Proof. intros H. by apply wp_bind. Qed.
End rules.

(** Run the calculus on the primitives; what is left are the entry functions, conditionals and the
    postcondition. *)
Ltac wp_step :=
  lazymatch goal with
  | |- wp (bindM _ _) _ _ => apply wp_bind
  | |- wp (ret _) _ _ => apply wp_ret
  | |- wp get_sv _ _ => apply wp_get_sv
  | |- wp (set_sv _) _ _ => apply wp_set_sv
  | |- wp (send_tx _) _ _ => apply wp_send_tx
  | |- wp (on_world _) _ _ => apply wp_on_world; intros ? ? ?
  | |- wp (new_state _) _ _ => apply wp_new_state
  end.

Ltac wp_steps := repeat (wp_step; cbv beta).

(** Split on the condition or the scrutinee the program branches on. *)
Ltac wp_split :=
  match goal with
  | |- wp (if ?b then _ else _) _ _ => destruct b eqn:?
  | |- wp (match ?x with _ => _ end) _ _ => destruct x eqn:?
  end.

Ltac wp_auto := repeat first [wp_step | wp_split | progress cbv beta].

(** ** What stays the same *)

(** The settings a policy is computed from. *)
Definition same_settings (v v' : SharedTunnelStateValues) : Prop :=
  allow_lan v' = allow_lan v /\ lockdown_mode v' = lockdown_mode v
  /\ connectivity v' = connectivity v /\ dns_config v' = dns_config v
  /\ allowed_endpoint v' = allowed_endpoint v.

#[export] Instance same_settings_preorder : PreOrder same_settings.
Proof. split; [done | intros u v w; unfold same_settings; intuition congruence]. Qed.

Lemma blocked_policy_settings v v' : same_settings v v' -> blocked_policy v' = blocked_policy v.
Proof. unfold blocked_policy. by intros (->&_&_&_&->). Qed.

Lemma connecting_policy_settings v v' p m t :
  same_settings v v' -> connecting_policy v' p m t = connecting_policy v p m t.
Proof. unfold connecting_policy. by intros (->&_&_&_&->). Qed.

Lemma get_firewall_policy_settings v v' c :
  same_settings v v' -> get_firewall_policy c v' = get_firewall_policy c v.
Proof. unfold get_firewall_policy, resolve_dns. by intros (->&_&_&->&_). Qed.

Section entries.
Context {W : Type} `{P : TunnelPlatform W} `{V : TunnelView W} {L : TunnelPlatformLaws W P V}.

(** Some policy is in force. *)
Definition secured (st : St W) : Prop := exists q, enforces (world st) q.

(** A computation that changes neither the settings nor the command stream, and under which a
    secured machine stays secured. *)
Definition frame (st st' : St W) : Prop :=
  same_settings (sv st) (sv st') /\ commands_done st' = commands_done st
  /\ (secured st -> secured st').

#[export] Instance frame_preorder : PreOrder frame.
Proof.
  split; [intros st; by split|].
  intros s1 s2 s3 (A1&B1&C1) (A2&B2&C2). unfold frame. rewrite B2, B1.
  split_and!; [by etrans | done | auto].
Qed.

Lemma secured_keeps st st' : keeps_rules (world st) (world st') -> secured st -> secured st'.
Proof. intros H [q Hq]. exists q. by apply H. Qed.

Lemma frame_world st w : keeps_rules (world st) w -> frame st (update_world w st).
Proof. intros Hk. split_and!; [done..|]. by apply secured_keeps. Qed.

Lemma frame_apply q st w r :
  fw_apply_policy q (world st) = (w, r) -> frame st (update_world w st).
Proof.
  intros Ha. split_and!; [done..|]. intros Hs.
  destruct (apply_atomic _ _ _ _ Ha) as [He|Hk]; [by exists q|]. by apply (secured_keeps st).
Qed.

Lemma frame_check st o : frame st (update_sv (with_connectivity_check o) st).
Proof. by split_and!. Qed.

Lemma frame_reply st tx : frame st (add_reply tx st).
Proof. by split_and!. Qed.

Lemma keeps_refl w : keeps_rules w w.
Proof. by intros q. Qed.

Lemma keeps_trans w1 w2 w3 : keeps_rules w1 w2 -> keeps_rules w2 w3 -> keeps_rules w1 w3.
Proof. intros H1 H2 q Hq. by apply H2, H1. Qed.

Lemma keeps_fst {A} (f : W -> W * A) w w' a :
  f w = (w', a) -> keeps_rules w (f w).1 -> keeps_rules w w'.
Proof. by intros E H; rewrite E in H. Qed.
End entries.

#[export] Hint Resolve keeps_refl dns_set_keeps dns_reset_keeps dns_reset_before_keeps
  clear_routes_keeps clear_routing_rules_keeps nm_disable_keeps nm_enable_keeps generate_keeps
  spawn_tunnel_keeps send_close_keeps : vpn.

(** The rules survive the platform operations that were run. *)
Ltac solve_keeps :=
  cbn [world update_world update_sv add_reply] in *;
  lazymatch goal with
  | |- keeps_rules ?w ?w => apply keeps_refl
  | H : keeps_rules ?w ?w' |- keeps_rules ?w ?w' => exact H
  | H : _ = (?w', _) |- keeps_rules ?w ?w' =>
      eapply keeps_trans; [|eapply keeps_fst; [exact H | by eauto with vpn]]; solve_keeps
  | H : keeps_rules ?w0 ?w' |- keeps_rules ?w ?w' => eapply keeps_trans; [|exact H]; solve_keeps
  end.

(** The state reached is a frame of the state left. *)
Ltac solve_frame :=
  lazymatch goal with
  | |- frame ?s ?s => reflexivity
  | H : frame ?s ?s' |- frame ?s ?s' => exact H
  | |- frame ?s (update_world ?w ?s1) =>
      transitivity s1;
      [solve_frame | first [eapply frame_apply; eassumption | apply frame_world; solve_keeps]]
  | |- frame ?s (update_sv (with_connectivity_check _) ?s1) =>
      transitivity s1; [solve_frame | apply frame_check]
  | |- frame ?s (add_reply _ ?s1) => transitivity s1; [solve_frame | apply frame_reply]
  | H : frame ?s0 ?s1 |- frame ?s ?s1 => transitivity s0; [solve_frame | exact H]
  end.

Section entry_specs.
Context {W : Type} `{P : TunnelPlatform W} `{V : TunnelView W} {L : TunnelPlatformLaws W P V}.

(** ** The connectivity check *)
Lemma disable_connectivity_check_frame st :
  wp disable_connectivity_check (fun st' _ => frame st st' /\ keeps_rules (world st) (world st')) st.
Proof.
  unfold disable_connectivity_check. wp_auto; (split; [solve_frame | solve_keeps]).
Qed.

Lemma reset_connectivity_check_frame st :
  wp reset_connectivity_check (fun st' _ => frame st st' /\ keeps_rules (world st) (world st')
    /\ connectivity_check_was_enabled (sv st') = None) st.
Proof.
  unfold reset_connectivity_check. wp_auto; (split_and!; [solve_frame | solve_keeps | done]).
Qed.

(** ** Entering the states *)
Lemma Error_set_firewall_policy_spec st :
  wp Error_set_firewall_policy
    (fun st' r => frame st st' /\ (r = Ok tt -> enforces (world st') (blocked_policy (sv st')))) st.
Proof.
  unfold Error_set_firewall_policy. wp_auto.
  eapply wp_mono; [apply disable_connectivity_check_frame|]. intros st1 _ [Hf Hk]. wp_auto.
  split; [solve_frame|]. destruct a as [[]|]; [|done]. intros _.
  rewrite (blocked_policy_settings (sv st)) by (apply Hf). by eapply apply_ok.
Qed.

Definition truthful (t : TunnelStateTransition) (s : TunnelState) (st : St W) : Prop :=
  match t with
  | TrDisconnected locked_down =>
      s = DisconnectedState /\ locked_down = lockdown_bool (lockdown_mode (sv st))
  | TrConnecting e =>
      exists c, s = ConnectingState c /\ e = get_tunnel_endpoint (ct_parameters c)
        /\ ct_metadata c = None /\ ct_traffic c = TrafficNone
        /\ enforces (world st) (connecting_policy (sv st) (ct_parameters c) None TrafficNone)
  | TrConnected e =>
      exists c, s = ConnectedState c /\ e = connected_endpoint c
        /\ enforces (world st) (get_firewall_policy c (sv st))
        /\ dns_active (world st) (interface (cd_metadata c)) (resolve_dns (cd_metadata c) (sv st))
  | TrDisconnecting a => exists h after, s = DisconnectingState h after /\ a = action after
  | TrError e =>
      s = ErrorState (cause e)
      /\ (is_blocking e = true -> enforces (world st) (blocked_policy (sv st)))
  end.

Lemma Error_enter_spec reason st :
  wp (Error_enter reason)
    (fun st' x => frame st st' /\ truthful x.2 x.1 st' /\ x.1 = ErrorState reason) st.
Proof.
  unfold Error_enter. wp_step. eapply wp_mono; [apply Error_set_firewall_policy_spec|].
  intros st' r [Hf He]. wp_auto. split_and!; [done| |done]. simpl. split; [done|].
  destruct r as [[]|e]; simpl; [auto | done].
Qed.

Lemma Connecting_set_firewall_policy_spec params m t st :
  wp (Connecting_set_firewall_policy params m t)
    (fun st' r => frame st st' /\ (r = Ok tt ->
       enforces (world st') (connecting_policy (sv st') params m t))) st.
Proof.
  unfold Connecting_set_firewall_policy. wp_step.
  eapply wp_mono; [apply disable_connectivity_check_frame|]. intros st1 _ [Hf Hk]. wp_auto.
  split; [solve_frame|]. destruct a as [[]|]; [|done]. intros _. by eapply apply_ok.
Qed.

(** Where [Connecting_enter] can lead. *)
Definition connecting_or_error (retry : Z) (s : TunnelState) : Prop :=
  match s with
  | ConnectingState c => retry_attempt c = retry /\ close_terminated (ct_tunnel c) = false
  | ErrorState _ => True
  | _ => False
  end.

Lemma Connecting_enter_spec retry st :
  wp (Connecting_enter retry)
    (fun st' x => frame st st' /\ truthful x.2 x.1 st' /\ connecting_or_error retry x.1) st.
Proof.
  assert (forall reason st1, frame st st1 -> wp (Error_enter reason)
    (fun st' x => frame st st' /\ truthful x.2 x.1 st' /\ connecting_or_error retry x.1) st1) as Herr.
  { intros reason st1 Hf. eapply wp_mono; [apply Error_enter_spec|].
    intros st2 x (Hf2 & Ht & Hx). split_and!; [by etrans | done | by rewrite Hx]. }
  unfold Connecting_enter. wp_auto; try (apply Herr; solve_frame).
  eapply wp_mono; [apply Connecting_set_firewall_policy_spec|]. intros st1 r [Hf He].
  assert (frame st st1) as Hf1 by (etrans; [|exact Hf]; solve_frame).
  destruct r as [[]|e]; [|by apply Herr]. unfold start_tunnel. wp_auto.
  split_and!; [solve_frame| |done]. simpl. eexists. split_and!; try done. simpl.
  eapply keeps_fst; [eassumption | apply spawn_tunnel_keeps |]. by apply He.
Qed.

Lemma Disconnecting_enter_spec h a st :
  wp (Disconnecting_enter h a)
    (fun st' x => frame st st' /\ truthful x.2 x.1 st' /\ x.1 = DisconnectingState h a) st.
Proof. unfold Disconnecting_enter. wp_auto. split_and!; [solve_frame | simpl; eauto | done]. Qed.

Lemma Connected_set_firewall_policy_spec c st :
  wp (Connected_set_firewall_policy c)
    (fun st' r => frame st st' /\ sv st' = sv st /\
       (r = Ok tt -> enforces (world st') (get_firewall_policy c (sv st')))) st.
Proof.
  unfold Connected_set_firewall_policy. wp_auto. split_and!; [solve_frame | done|].
  destruct a as [[]|]; [|done]. intros _. by eapply apply_ok.
Qed.

Lemma set_dns_spec c st :
  wp (set_dns c) (fun st' ok => frame st st' /\ sv st' = sv st
    /\ keeps_rules (world st) (world st')
    /\ (ok = true -> dns_active (world st') (interface (cd_metadata c))
                       (resolve_dns (cd_metadata c) (sv st')))) st.
Proof.
  unfold set_dns. wp_auto. split_and!; [solve_frame | done | solve_keeps|].
  intros ->. by eapply dns_set_ok.
Qed.

(** Where [Connected_enter] can lead. *)
Definition connected_or_disconnecting (c : ConnectedData) (s : TunnelState) : Prop :=
  s = ConnectedState c \/ exists e, s = DisconnectingState (cd_tunnel c) (AfterBlock e).

Lemma Connected_enter_spec c st :
  wp (Connected_enter c)
    (fun st' x => frame st st' /\ truthful x.2 x.1 st' /\ connected_or_disconnecting c x.1) st.
Proof.
  assert (forall e st1, frame st st1 -> wp (Disconnecting_enter (cd_tunnel c) (AfterBlock e))
    (fun st' x => frame st st' /\ truthful x.2 x.1 st' /\ connected_or_disconnecting c x.1) st1) as Hd.
  { intros e st1 Hf. eapply wp_mono; [apply Disconnecting_enter_spec|].
    intros st2 x (Hf2 & Ht & Hx). split_and!; [by etrans | done | rewrite Hx; right; eauto]. }
  unfold Connected_enter. wp_step. eapply wp_mono; [apply Connected_set_firewall_policy_spec|].
  intros st1 [[]|e] (Hf & Hsv & He); [|by apply Hd]. wp_step.
  eapply wp_mono; [apply set_dns_spec|]. intros st2 ok (Hf2 & Hsv2 & Hk & Hdns).
  assert (frame st st2) by (by etrans). wp_split; [by apply Hd|].
  destruct ok; [|done]. wp_auto. split_and!; [done| |by left].
  exists c. split_and!; [done..| |by apply Hdns].
  rewrite Hsv2. by apply Hk, He.
Qed.

Lemma Disconnected_set_firewall_policy_spec reset st :
  wp (Disconnected_set_firewall_policy reset)
    (fun st' _ => sv st' = sv st /\ commands_done st' = commands_done st
       /\ (reset = false \/ lockdown_bool (lockdown_mode (sv st)) = true -> frame st st')) st.
Proof.
  unfold Disconnected_set_firewall_policy. wp_auto; (split_and!; [done..|]); intros HH;
    try solve_frame; naive_solver.
Qed.

Lemma Disconnected_enter_spec reset st :
  wp (Disconnected_enter reset)
    (fun st' x => same_settings (sv st) (sv st') /\ commands_done st' = commands_done st
       /\ truthful x.2 x.1 st' /\ x.1 = DisconnectedState
       /\ connectivity_check_was_enabled (sv st') = None
       /\ (reset = false \/ lockdown_bool (lockdown_mode (sv st)) = true -> frame st st')) st.
Proof.
  unfold Disconnected_enter, construct_state_transition. wp_step.
  eapply wp_mono; [apply Disconnected_set_firewall_policy_spec|].
  intros st1 _ (Hsv & Hcd & Hf). wp_step.
  eapply wp_mono; [apply reset_connectivity_check_frame|]. intros st2 _ (Hf2 & Hk & Hn). wp_auto.
  rewrite <- Hsv, <- Hcd. split_and!; try done; try apply Hf2.
  rewrite Hsv. intros HH. etrans; [by apply Hf | done].
Qed.

Lemma reset_routes_spec st :
  wp reset_routes (fun st' _ => frame st st' /\ sv st' = sv st
    /\ keeps_rules (world st) (world st')) st.
Proof. unfold reset_routes. wp_auto. split_and!; [solve_frame | done | solve_keeps]. Qed.
End entry_specs.
