(* ===== verification/TunnelHandlers.v ===== *)
(** * What every handler does

    One lemma per handler of [TunnelStateMachine], against a common postcondition [handled]: the
    state machine's graph is respected, reported transitions are truthful, a secured machine stays
    secured unless it ends up disconnected, and the tunnel's close event stays unread. *)

From stdpp Require Import base list strings option numbers sets.
From S2P Require Import Prelude NetTypes TunnelTypes FirewallPolicy FirewallLinux TunnelStateMachine.
From S2P Require Import TunnelWp.

Local Open Scope vpn_scope.

(** ** The abstract machine *)
Inductive StateKind : Type := KDisconnected | KConnecting | KConnected | KDisconnecting | KError.

#[global] Instance StateKind_eq_dec : EqDecision StateKind.
Proof. solve_decision. Defined.

Definition kind (s : TunnelState) : StateKind :=
  match s with
  | DisconnectedState => KDisconnected
  | ConnectingState _ => KConnecting
  | ConnectedState _ => KConnected
  | DisconnectingState _ _ => KDisconnecting
  | ErrorState _ => KError
  end.

Definition reported_kind (t : TunnelStateTransition) : StateKind :=
  match t with
  | TrDisconnected _ => KDisconnected
  | TrConnecting _ => KConnecting
  | TrConnected _ => KConnected
  | TrDisconnecting _ => KDisconnecting
  | TrError _ => KError
  end.

(** The state diagram: the moves the code makes between states, on entering a state anew too. *)
Definition edge (k k' : StateKind) : bool :=
  match k, k' with
  | KDisconnected, (KDisconnected | KConnecting | KError) => true
  | KConnecting, (KConnecting | KConnected | KDisconnecting | KError) => true
  | KConnected, (KConnecting | KDisconnecting | KError) => true
  | KDisconnecting, (KDisconnected | KConnecting | KError) => true
  | KError, (KDisconnected | KConnecting | KError) => true
  | _, _ => false
  end.

(** The close event of the state's tunnel has not been received. *)
Definition live (s : TunnelState) : Prop :=
  match s with
  | ConnectingState c => close_terminated (ct_tunnel c) = false
  | ConnectedState c => close_terminated (cd_tunnel c) = false
  | DisconnectingState h _ => close_terminated h = false
  | _ => True
  end.

Section calmness.
Context {W : Type} `{V : TunnelView W}.

(** The settings may change; a secured machine stays secured. *)
Definition calm (st st' : St W) : Prop :=
  commands_done st' = commands_done st /\ (secured st -> secured st').

#[export] Instance calm_preorder : PreOrder calm.
Proof.
  split; [by intros st; split|]. intros s1 s2 s3 [A1 B1] [A2 B2]. unfold calm.
  rewrite A2, A1. auto.
Qed.
End calmness.

Section handlers.
Context {W : Type} `{P : TunnelPlatform W} `{V : TunnelView W} {L : TunnelPlatformLaws W P V}.

Lemma frame_calm st st' : frame st st' -> calm st st'.
Proof. intros (_ & ? & ?). by split. Qed.

Lemma calm_sv st f : calm st (update_sv f st).
Proof. by split. Qed.

Lemma calm_reply st tx : calm st (add_reply tx st).
Proof. by split. Qed.

Lemma set_allow_lan_spec b st :
  wp (set_allow_lan b) (fun st' _ => calm st st' /\ allow_lan (sv st') = b) st.
Proof.
  unfold set_allow_lan. wp_auto; [by split; [apply calm_sv|]|]. split; [done|].
  by apply negb_false_iff, eqb_prop in Heqb0.
Qed.

Lemma set_dns_config_spec c st :
  wp (set_dns_config c) (fun st' _ => calm st st' /\ dns_config (sv st') = c) st.
Proof.
  unfold set_dns_config. wp_auto; [by split; [apply calm_sv|]|]. split; [done|].
  apply bool_decide_eq_false in Heqb. by destruct (decide (dns_config (sv st) = c)).
Qed.

Definition handled (s : TunnelState) (st st' : St W) (cons : EventConsequence) : Prop :=
  commands_done st' = commands_done st /\
  match cons with
  | NewState s' t =>
      truthful t s' st' /\ edge (kind s) (kind s') = true /\ (live s -> live s')
      /\ (kind s' <> KDisconnected -> secured st -> secured st')
  | SameState s' => kind s' = kind s /\ (live s -> live s') /\ (secured st -> secured st')
  | Finished => s = DisconnectedState /\ (secured st -> secured st')
  end.

Lemma truthful_reply t s tx st : truthful t s st -> truthful t s (add_reply tx st).
Proof. by destruct t. Qed.

Lemma handled_reply s st st' cons tx : handled s st st' cons -> handled s st (add_reply tx st') cons.
Proof.
  intros [Hc H]. split; [done|]. destruct cons; [|done..].
  destruct H as (?&?&?&?). split_and!; [by apply truthful_reply | done..].
Qed.

Lemma handled_calm s st st1 st' cons :
  calm st st1 -> handled s st1 st' cons -> handled s st st' cons.
Proof.
  intros [Hc Hs] [Hc' H]. split; [congruence|]. destruct cons; naive_solver.
Qed.

Lemma handled_same s s' st st' :
  calm st st' -> kind s' = kind s -> (live s -> live s') -> handled s st st' (SameState s').
Proof. by intros [? ?] ? ?. Qed.

(** The consequence of an entry function. *)
Lemma handled_new s st st' s' t :
  calm st st' -> truthful t s' st' -> edge (kind s) (kind s') = true -> (live s -> live s') ->
  handled s st st' (NewState s' t).
Proof. intros [? ?] ???. by split_and!. Qed.

Lemma handled_error s reason st :
  edge (kind s) KError = true -> wp (new_state (Error_enter reason)) (handled s st) st.
Proof.
  intros He. wp_step. eapply wp_mono; [apply Error_enter_spec|].
  intros st' [s' t] (Hf & Ht & Hx). simpl in *. subst.
  apply handled_new; [by apply frame_calm | done..].
Qed.

Lemma handled_connecting s retry st :
  edge (kind s) KError = true -> edge (kind s) KConnecting = true ->
  wp (new_state (Connecting_enter retry)) (handled s st) st.
Proof.
  intros He Hc. wp_step. eapply wp_mono; [apply Connecting_enter_spec|].
  intros st' [s' t] (Hf & Ht & Hx). simpl in *. apply handled_new; [by apply frame_calm | done|..];
    destruct s'; naive_solver.
Qed.

Lemma handled_disconnecting s h a st :
  edge (kind s) KDisconnecting = true -> (live s -> close_terminated h = false) ->
  wp (new_state (Disconnecting_enter h a)) (handled s st) st.
Proof.
  intros He Hl. wp_step. eapply wp_mono; [apply Disconnecting_enter_spec|].
  intros st' [s' t] (Hf & Ht & Hx). simpl in *. subst.
  apply handled_new; [by apply frame_calm | done..].
Qed.

Lemma handled_disconnected s reset st :
  edge (kind s) KDisconnected = true -> wp (new_state (Disconnected_enter reset)) (handled s st) st.
Proof.
  intros He. wp_step. eapply wp_mono; [apply Disconnected_enter_spec|].
  intros st' [s' t] (Hs & Hc & Ht & Hx & _). simpl in *. subst. by split_and!.
Qed.

(** Computations under which a secured machine stays secured. *)
Definition calmly {A} (m : M W A) : Prop := forall st, wp m (fun st' _ => calm st st') st.

Lemma calmly_bind {A B} (m : M W A) (k : A -> M W B) :
  calmly m -> (forall a, calmly (k a)) -> calmly (bindM m k).
Proof.
  intros Hm Hk st. apply wp_bind. eapply wp_mono; [apply Hm|]. intros st1 a H1.
  eapply wp_mono; [apply Hk|]. intros st2 b H2. by transitivity st1.
Qed.

Lemma calmly_ret {A} (a : A) : calmly (ret a).
Proof. intros st. by apply wp_ret. Qed.

Lemma calmly_get_sv : calmly (@get_sv W).
Proof. intros st. by apply wp_get_sv. Qed.

Lemma calmly_set_sv f : calmly (@set_sv W f).
Proof. intros st. apply wp_set_sv, calm_sv. Qed.

Lemma calmly_send_tx tx : calmly (@send_tx W tx).
Proof. intros st. apply wp_send_tx, calm_reply. Qed.

Lemma calmly_on_world {A} (f : W -> W * A) :
  (forall w, keeps_rules w (f w).1) -> calmly (on_world f).
Proof.
  intros Hf st. apply wp_on_world. intros w a E. apply frame_calm, frame_world.
  eapply keeps_fst; [exact E | apply Hf].
Qed.

Lemma calmly_apply q : calmly (on_world (fw_apply_policy q)).
Proof. intros st. apply wp_on_world. intros w a E. apply frame_calm. by eapply frame_apply. Qed.

Lemma calmly_frame {A} (m : M W A) (Q : St W -> St W -> A -> Prop) :
  (forall st, wp m (Q st) st) -> (forall st st' a, Q st st' a -> frame st st') -> calmly m.
Proof.
  intros Hm HQ st. eapply wp_mono; [apply Hm|]. intros st' a Ha. apply frame_calm. by eapply HQ.
Qed.

Lemma calmly_set_allow_lan b : calmly (set_allow_lan b).
Proof. intros st. eapply wp_mono; [apply set_allow_lan_spec|]. by intros ?? [? _]. Qed.

Lemma calmly_set_dns_config c : calmly (set_dns_config c).
Proof. intros st. eapply wp_mono; [apply set_dns_config_spec|]. by intros ?? [? _]. Qed.

Lemma calmly_reset_connectivity_check : calmly reset_connectivity_check.
Proof. eapply calmly_frame; [apply reset_connectivity_check_frame | intros ???; cbv beta; tauto]. Qed.

Lemma calmly_Error_policy : calmly Error_set_firewall_policy.
Proof. eapply calmly_frame; [apply Error_set_firewall_policy_spec | intros ???; cbv beta; tauto]. Qed.

Lemma calmly_Connecting_policy p m t : calmly (Connecting_set_firewall_policy p m t).
Proof. eapply calmly_frame; [apply Connecting_set_firewall_policy_spec | intros ???; cbv beta; tauto]. Qed.

Lemma calmly_Connected_policy c : calmly (Connected_set_firewall_policy c).
Proof. eapply calmly_frame; [apply Connected_set_firewall_policy_spec | intros ???; cbv beta; tauto]. Qed.

Lemma calmly_set_dns c : calmly (set_dns c).
Proof. eapply calmly_frame; [apply set_dns_spec | intros ???; cbv beta; tauto]. Qed.

Lemma calmly_reset_routes : calmly reset_routes.
Proof. eapply calmly_frame; [apply reset_routes_spec | intros ???; cbv beta; tauto]. Qed.

Lemma calmly_Connected_reset_dns : calmly Connected_reset_dns.
Proof.
  apply calmly_bind; [apply calmly_on_world, dns_reset_before_keeps | intros; apply calmly_ret].
Qed.

Lemma calmly_dns_reset : calmly Error_reset_dns /\ calmly Disconnected_reset_dns.
Proof.
  split; (apply calmly_bind; [apply calmly_on_world, dns_reset_keeps | intros; apply calmly_ret]).
Qed.

Lemma calmly_Disconnected_policy : calmly (Disconnected_set_firewall_policy false).
Proof.
  intros st. eapply wp_mono; [apply Disconnected_set_firewall_policy_spec|].
  intros st' _ (_ & _ & Hf). apply frame_calm. auto.
Qed.

(** A handler that first runs something calm, and one that completes a command last. *)
Lemma wp_calm {A} (m : M W A) (k : A -> M W EventConsequence) s st :
  calmly m -> (forall st' a, wp (k a) (handled s st') st') -> wp (bindM m k) (handled s st) st.
Proof.
  intros Hm Hk. apply wp_bind. eapply wp_mono; [apply Hm|]. intros st' a Hc.
  eapply wp_mono; [apply Hk|]. intros st'' c. by apply handled_calm.
Qed.

Lemma wp_then_reply (m : M W EventConsequence) tx s st :
  wp m (handled s st) st -> wp (c <-- m; send_tx tx ;;; ret c) (handled s st) st.
Proof.
  intros Hm. apply wp_bind. eapply wp_mono; [exact Hm|]. intros st' c Hc.
  apply wp_bind, wp_send_tx, wp_ret. by apply handled_reply.
Qed.

Lemma wp_same s s' st :
  kind s' = kind s -> (live s -> live s') -> wp (ret (SameState s')) (handled s st) st.
Proof. intros. apply wp_ret. by apply handled_same. Qed.
End handlers.

#[export] Hint Resolve calmly_ret calmly_get_sv calmly_set_sv calmly_send_tx calmly_apply
  calmly_set_allow_lan calmly_set_dns_config calmly_reset_connectivity_check calmly_Error_policy
  calmly_Connecting_policy calmly_Connected_policy calmly_set_dns calmly_reset_routes
  calmly_Connected_reset_dns calmly_Disconnected_policy : vpn.
#[export] Hint Extern 1 (calmly Error_reset_dns) => apply calmly_dns_reset : vpn.
#[export] Hint Extern 1 (calmly Disconnected_reset_dns) => apply calmly_dns_reset : vpn.
#[export] Hint Extern 2 (calmly (bindM _ _)) => apply calmly_bind : vpn.
#[export] Hint Extern 2 (calmly (if ?b then _ else _)) => destruct b : vpn.

(** A handler against [handled]: calm steps, branches, entries. *)
Ltac solve_handled :=
  repeat first
    [ apply wp_same; [done | done]
    | apply handled_error; done
    | apply handled_connecting; done
    | apply handled_disconnected; done
    | apply handled_disconnecting; [done | by simpl]
    | apply wp_then_reply
    | apply wp_calm; [by eauto with vpn | intros ? ?]
    | wp_split ].

Section each_handler.
Context {W : Type} `{P : TunnelPlatform W} `{V : TunnelView W} {L : TunnelPlatformLaws W P V}.

Lemma Connecting_commands_handled c command st :
  wp (Connecting_handle_commands c command) (handled (ConnectingState c) st) st.
Proof.
  unfold Connecting_handle_commands, Connecting_reset_firewall, Connecting_disconnect.
  destruct command as [[]|]; solve_handled.
Qed.

Lemma Connecting_events_handled c event st :
  wp (Connecting_handle_tunnel_events c event) (handled (ConnectingState c) st) st.
Proof.
  unfold Connecting_handle_tunnel_events, Connecting_disconnect.
  destruct event as [[]|]; solve_handled.
  wp_step. eapply wp_mono; [apply Connected_enter_spec|].
  intros st' [s' t] (Hf & Ht & [Hx | [e Hx]]); simpl in *; subst;
    (apply handled_new; [by apply frame_calm | done..]).
Qed.

Lemma Connecting_close_handled c reason st :
  wp (Connecting_handle_tunnel_close_event c reason) (handled (ConnectingState c) st) st.
Proof. unfold Connecting_handle_tunnel_close_event. solve_handled. Qed.

Lemma Connected_commands_handled c command st :
  wp (Connected_handle_commands c command) (handled (ConnectedState c) st) st.
Proof.
  unfold Connected_handle_commands, Connected_disconnect. destruct command as [[]|]; solve_handled.
Qed.

Lemma Connected_events_handled c event st :
  wp (Connected_handle_tunnel_events c event) (handled (ConnectedState c) st) st.
Proof.
  unfold Connected_handle_tunnel_events, Connected_disconnect. destruct event as [[]|]; solve_handled.
Qed.

Lemma Connected_close_handled c reason st :
  wp (Connected_handle_tunnel_close_event c reason) (handled (ConnectedState c) st) st.
Proof. unfold Connected_handle_tunnel_close_event. solve_handled. Qed.

Lemma Disconnecting_commands_handled h a command st :
  wp (Disconnecting_handle_commands h a command) (handled (DisconnectingState h a) st) st.
Proof. unfold Disconnecting_handle_commands. destruct command as [[]|]; solve_handled. Qed.

Lemma Disconnecting_close_handled h a reason st :
  wp (new_state (after_disconnect a reason)) (handled (DisconnectingState h a) st) st.
Proof. unfold after_disconnect. destruct reason, a; solve_handled. Qed.

Lemma Disconnected_commands_handled command st :
  wp (Disconnected_handle_commands command) (handled DisconnectedState st) st.
Proof.
  unfold Disconnected_handle_commands. destruct command as [[]|]; solve_handled.
  - wp_step. eapply wp_mono; [apply Disconnected_set_firewall_policy_spec|].
    intros st1 _ (Hsv & Hc & _). unfold construct_state_transition. wp_auto. by split_and!.
  - apply wp_ret. by split_and!.
Qed.

Lemma Error_commands_handled reason command st :
  wp (Error_handle_commands reason command) (handled (ErrorState reason) st) st.
Proof. unfold Error_handle_commands. destruct command as [[]|]; solve_handled. Qed.
End each_handler.

(** ** Dispatch

    Which handler runs for which state and input. *)
Section dispatch.
Context {W : Type} `{P : TunnelPlatform W}.

Inductive dispatched : TunnelState -> Input -> M W EventConsequence -> Prop :=
| d_disconnected cmd :
    dispatched DisconnectedState (InCommand cmd) (Disconnected_handle_commands cmd)
| d_error reason cmd :
    dispatched (ErrorState reason) (InCommand cmd) (Error_handle_commands reason cmd)
| d_connecting_command c cmd :
    dispatched (ConnectingState c) (InCommand cmd) (Connecting_handle_commands c cmd)
| d_connecting_event c e :
    dispatched (ConnectingState c) (InEvent e) (Connecting_handle_tunnel_events c e)
| d_connecting_close c r :
    dispatched (ConnectingState c) (InClose r)
      (Connecting_handle_tunnel_close_event c (close_reason r))
| d_connected_command c cmd :
    dispatched (ConnectedState c) (InCommand cmd) (Connected_handle_commands c cmd)
| d_connected_event c e :
    dispatched (ConnectedState c) (InEvent e) (Connected_handle_tunnel_events c e)
| d_connected_close c r :
    dispatched (ConnectedState c) (InClose r)
      (Connected_handle_tunnel_close_event c (close_reason r))
| d_disconnecting_command h a cmd :
    dispatched (DisconnectingState h a) (InCommand cmd) (Disconnecting_handle_commands h a cmd)
| d_disconnecting_close h a r :
    dispatched (DisconnectingState h a) (InClose r) (new_state (after_disconnect a (close_reason r)))
| d_disconnecting_empty h a :
    close_terminated h = true ->
    dispatched (DisconnectingState h a) InEmpty (Disconnecting_handle_commands h a None)
| d_disconnecting_closed h a :
    close_terminated h = true ->
    dispatched (DisconnectingState h a) (InCommand None) (new_state (after_disconnect a None)).

Lemma handle_event_dispatched s i st r :
  handle_event s i st = Some r -> exists m, dispatched s i m /\ m (note_input i st) = r.
Proof.
  unfold handle_event, poll_commands, poll_tunnel, poll_disconnecting.
  destruct s as [|c|c|h a|reason], i as [[cmd|]| |e|res];
    cbv [fmap option_fmap option_map mbind option_bind compose]; intros H;
    repeat match type of H with
           | context [if ?b then _ else _] => destruct b eqn:?
           end;
    try discriminate H; injection H as H; eauto using dispatched.
Qed.
End dispatch.

Section handling.
Context {W : Type} `{P : TunnelPlatform W} `{V : TunnelView W} {L : TunnelPlatformLaws W P V}.

Lemma dispatched_handled s i (m : M W EventConsequence) st :
  dispatched s i m -> wp m (handled s st) st.
Proof.
  intros []; auto using Connecting_commands_handled, Connecting_events_handled,
    Connecting_close_handled, Connected_commands_handled, Connected_events_handled,
    Connected_close_handled, Disconnecting_commands_handled, Disconnecting_close_handled,
    Disconnected_commands_handled, Error_commands_handled.
Qed.

Lemma handle_event_handled s i st st' cons :
  handle_event s i st = Some (st', cons) -> handled s (note_input i st) st' cons.
Proof.
  intros (m & Hd & E)%handle_event_dispatched.
  pose proof (dispatched_handled _ _ _ (note_input i st) Hd) as Hw.
  unfold wp in Hw. by rewrite E in Hw.
Qed.
End handling.
