(* ===== verification/TunnelProps.v ===== *)
(** * What the tunnel state machine guarantees

    The theorems about whole executions of the machine: the kill switch, lockdown mode, the truth of
    what is reported, the agreement of the firewall with the settings, offline handling, shutdown and
    the acknowledgement of commands. *)

From stdpp Require Import base list strings option numbers sets.
From S2P Require Import Prelude NetTypes TunnelTypes FirewallPolicy FirewallLinux TunnelStateMachine.
From S2P Require Import TunnelWp TunnelHandlers.

Local Open Scope vpn_scope.

(** The machine is disconnected or will be once its tunnel has closed. *)
Definition heading_out (s : TunnelState) : bool :=
  match s with
  | DisconnectedState | DisconnectingState _ AfterNothing => true
  | _ => false
  end.

(** The inputs that ask for disconnection: the command, and the end of the command channel. *)
Definition asks_disconnect (i : Input) : bool :=
  match i with
  | InCommand None | InCommand (Some CmdDisconnect) => true
  | _ => false
  end.

Definition lifts_lockdown (i : Input) : bool :=
  match i with
  | InCommand (Some (CmdLockdownMode m _)) => negb (lockdown_bool m)
  | _ => false
  end.

Definition machine_st {W} (m : Machine) : St W := match m with Running _ st | Stopped st => st end.

Section executions.
Context {W : Type} `{P : TunnelPlatform W} `{V : TunnelView W}.

(** Executions of the machine.  Between two inputs the world may change on its own (tunnel threads
    set routes, the network comes and goes), as long as nobody else removes the rules. *)
Inductive exec : @Machine W -> list Input -> list TunnelStateTransition -> @Machine W -> Prop :=
| exec_refl m : exec m [] [] m
| exec_world s st w ins ts m :
    keeps_rules (world st) w -> exec (Running s (update_world w st)) ins ts m ->
    exec (Running s st) ins ts m
| exec_input m i listening m1 t ins ts m2 :
    iterate m i listening = Some (m1, t) -> exec m1 ins ts m2 ->
    exec m (i :: ins) (option_list t ++ ts) m2.

Lemma run_exec m inputs m' ts :
  run m inputs = Some (m', ts) -> exec m (map fst inputs) ts m'.
Proof.
  revert m ts. induction inputs as [|[i l] inputs IH]; intros m ts; simpl.
  - intros [= <- <-]. constructor.
  - destruct (iterate m i l) as [[m1 t]|] eqn:E; [|done]. simpl.
    destruct (run m1 inputs) as [[m2 ts2]|] eqn:E2; [|done]. simpl. intros [= <- <-].
    econstructor; [exact E | by apply IH].
Qed.

(** An invariant of the running machine is kept if each handled input and each change of the world
    keeps it. *)
Lemma exec_invariant (ok : Input -> bool) (I : TunnelState -> St W -> Prop) (J : St W -> Prop) :
  (forall s st, I s st -> J st) ->
  (forall s st w, keeps_rules (world st) w -> I s st -> I s (update_world w st)) ->
  (forall s st i st' cons, ok i = true -> I s st -> handle_event s i st = Some (st', cons) ->
     match cons with
     | NewState s' _ | SameState s' => I s' st'
     | Finished => J st'
     end) ->
  forall m ins ts m',
    exec m ins ts m' -> forallb ok ins = true ->
    match m with Running s st => I s st | Stopped st => J st end ->
    match m' with Running s st => I s st | Stopped st => J st end.
Proof.
  intros HIJ Hw Hstep m ins ts m' He. induction He as [m|s st w ins ts m Hk He IH|m i l m1 t ins ts m2 E He IH];
    intros Hok Hm; [done | by apply IH; auto|].
  simpl in Hok. apply andb_true_iff in Hok as [Hi Hok]. apply IH; [done|].
  destruct m as [s st|st]; [|done]. simpl in E.
  destruct (handle_event s i st) as [[st' cons]|] eqn:E2; [|done]. simpl in E.
  specialize (Hstep _ _ _ _ _ Hi Hm E2). destruct cons as [s' t'|s'|]; simplify_eq/=; try done.
  destruct l; simplify_eq/=; eauto.
Qed.
End executions.

(** ** Lockdown mode *)
Section lockdown.
Context {W : Type} `{P : TunnelPlatform W} `{V : TunnelView W} {L : TunnelPlatformLaws W P V}.

Definition locked (st : St W) : Prop := lockdown_bool (lockdown_mode (sv st)) = true.

(** A computation that keeps a machine in lockdown locked down and secured. *)
Definition tight {A} (m : M W A) : Prop :=
  forall st, locked st -> secured st -> wp m (fun st' _ => locked st' /\ secured st') st.

Lemma tight_bind {A B} (m : M W A) (k : A -> M W B) :
  tight m -> (forall a, tight (k a)) -> tight (bindM m k).
Proof.
  intros Hm Hk st Hl Hs. apply wp_bind. eapply wp_mono; [by apply Hm|].
  intros st1 a [Hl1 Hs1]. by apply Hk.
Qed.

Lemma tight_ret {A} (a : A) : tight (ret a).
Proof. intros st Hl Hs. by apply wp_ret. Qed.

Lemma tight_get_sv : tight (@get_sv W).
Proof. intros st Hl Hs. by apply wp_get_sv. Qed.

Lemma tight_send_tx tx : tight (@send_tx W tx).
Proof. intros st Hl Hs. by apply wp_send_tx. Qed.

Lemma tight_set_sv f :
  (forall v, lockdown_bool (lockdown_mode v) = true -> lockdown_bool (lockdown_mode (f v)) = true) ->
  tight (@set_sv W f).
Proof. intros Hf st Hl Hs. apply wp_set_sv. split; [by apply Hf | done]. Qed.

Lemma tight_frame {A} (m : M W A) (Q : St W -> St W -> A -> Prop) :
  (forall st, wp m (Q st) st) -> (forall st st' a, locked st -> Q st st' a -> frame st st') -> tight m.
Proof.
  intros Hm HQ st Hl Hs. eapply wp_mono; [apply Hm|]. intros st' a Ha.
  destruct (HQ _ _ _ Hl Ha) as ((_ & El & _) & _ & Hsec). unfold locked in *. rewrite El. auto.
Qed.

Lemma tight_on_world {A} (f : W -> W * A) : (forall w, keeps_rules w (f w).1) -> tight (on_world f).
Proof.
  intros Hf st Hl Hs. apply wp_on_world. intros w a E. split; [done|].
  eapply secured_keeps; [|exact Hs]. eapply keeps_fst; [exact E | apply Hf].
Qed.
End lockdown.

Ltac tight_from spec := eapply tight_frame; [apply spec | intros ????; cbv beta; tauto].

Section lockdown_handlers.
Context {W : Type} `{P : TunnelPlatform W} `{V : TunnelView W} {L : TunnelPlatformLaws W P V}.

Lemma tight_Error_enter r : tight (Error_enter r).
Proof. tight_from (Error_enter_spec r). Qed.
Lemma tight_Connecting_enter n : tight (Connecting_enter n).
Proof. tight_from (Connecting_enter_spec n). Qed.
Lemma tight_Disconnecting_enter h a : tight (Disconnecting_enter h a).
Proof. tight_from (Disconnecting_enter_spec h a). Qed.
Lemma tight_Connected_enter c : tight (Connected_enter c).
Proof. tight_from (Connected_enter_spec c). Qed.
Lemma tight_Error_policy : tight Error_set_firewall_policy.
Proof. tight_from Error_set_firewall_policy_spec. Qed.
Lemma tight_Connecting_policy p m t : tight (Connecting_set_firewall_policy p m t).
Proof. tight_from (Connecting_set_firewall_policy_spec p m t). Qed.
Lemma tight_Connected_policy c : tight (Connected_set_firewall_policy c).
Proof. tight_from (Connected_set_firewall_policy_spec c). Qed.
Lemma tight_set_dns c : tight (set_dns c).
Proof. tight_from (set_dns_spec c). Qed.
Lemma tight_reset_routes : tight reset_routes.
Proof. tight_from reset_routes_spec. Qed.
Lemma tight_reset_connectivity_check : tight reset_connectivity_check.
Proof. tight_from reset_connectivity_check_frame. Qed.
Lemma tight_Disconnected_policy b : tight (Disconnected_set_firewall_policy b).
Proof. tight_from (Disconnected_set_firewall_policy_spec b). Qed.
Lemma tight_Disconnected_enter b : tight (Disconnected_enter b).
Proof. tight_from (Disconnected_enter_spec b). Qed.

Lemma tight_construct : tight construct_state_transition.
Proof. apply tight_bind; [apply tight_get_sv | intros; apply tight_ret]. Qed.
End lockdown_handlers.

#[export] Hint Resolve tight_ret tight_get_sv tight_send_tx tight_Error_enter tight_Connecting_enter
  tight_Disconnecting_enter tight_Connected_enter tight_Error_policy tight_Connecting_policy
  tight_Connected_policy tight_set_dns tight_reset_routes tight_reset_connectivity_check
  tight_Disconnected_policy tight_Disconnected_enter tight_construct : vpn.

Ltac solve_tight :=
  repeat first
    [ solve [eauto with vpn]
    | apply tight_bind; [|intros ?]
    | apply tight_on_world; intros; by eauto with vpn
    | apply tight_set_sv; by intros
    | match goal with
      | |- tight (if ?b then _ else _) => destruct b
      | |- tight (match ?x with _ => _ end) => destruct x
      | |- tight (ret _) => apply tight_ret
      end ].

Section lockdown_theorem.
Context {W : Type} `{P : TunnelPlatform W} `{V : TunnelView W} {L : TunnelPlatformLaws W P V}.

Lemma dispatched_tight s i (m : M W EventConsequence) :
  dispatched s i m -> lifts_lockdown i = false -> tight m.
Proof.
  assert (forall mode, negb (lockdown_bool mode) = false ->
    tight (@set_sv W (with_lockdown_mode mode))) as Hm.
  { intros mode Hmode. apply tight_set_sv. intros v _. simpl. by apply negb_false_iff. }
  unfold lifts_lockdown. intros Hd Hi. destruct Hd as [[[]|]|? [[]|]|? [[]|]|? [[]|]| |? [[]|]|? [[]|]| |??[[]|]| | |];
    unfold Disconnected_handle_commands, Connecting_handle_commands, Connecting_reset_firewall,
      Connecting_disconnect, Connecting_handle_tunnel_events, Connecting_handle_tunnel_close_event,
      Connected_handle_commands, Connected_disconnect, Connected_handle_tunnel_events,
      Connected_handle_tunnel_close_event, Connected_reset_dns, Disconnecting_handle_commands,
      after_disconnect, Error_handle_commands, new_state, set_allow_lan, set_dns_config,
      Error_reset_dns, Disconnected_reset_dns; solve_tight.
Qed.

Lemma handle_event_tight s i st st' cons :
  lifts_lockdown i = false -> locked st -> secured st ->
  handle_event s i st = Some (st', cons) -> locked st' /\ secured st'.
Proof.
  intros Hi Hl Hs (m & Hd & E)%handle_event_dispatched.
  pose proof (dispatched_tight _ _ _ Hd Hi (note_input i st) Hl Hs) as Hw.
  unfold wp in Hw. by rewrite E in Hw.
Qed.
End lockdown_theorem.

(** ** Staying in the tunnel *)
Section staying.
Context {W : Type} `{P : TunnelPlatform W} `{V : TunnelView W} {L : TunnelPlatformLaws W P V}.

Definition staying (cons : EventConsequence) : Prop :=
  match cons with
  | NewState s _ | SameState s => heading_out s = false
  | Finished => False
  end.

Definition stays (m : M W EventConsequence) : Prop := forall st, wp m (fun _ c => staying c) st.

Lemma stays_bind {A} (m : M W A) (k : A -> M W EventConsequence) :
  (forall a, stays (k a)) -> stays (bindM m k).
Proof. intros Hk st. apply wp_bind. unfold wp. apply Hk. Qed.

Lemma stays_same s : heading_out s = false -> stays (ret (SameState s)).
Proof. intros Hs st. by apply wp_ret. Qed.

Lemma stays_new (m : M W (TunnelState * TunnelStateTransition)) (Q : St W -> St W -> _ -> Prop) :
  (forall st, wp m (Q st) st) -> (forall st st' x, Q st st' x -> heading_out x.1 = false) ->
  stays (new_state m).
Proof.
  intros Hm HQ st. apply wp_new_state. eapply wp_mono; [apply Hm|]. intros st' x Hx. by eapply HQ.
Qed.

Lemma stays_error r : stays (new_state (Error_enter r)).
Proof. eapply stays_new; [apply Error_enter_spec|]. by intros ??? (_ & _ & ->). Qed.

Lemma stays_connecting n : stays (new_state (Connecting_enter n)).
Proof.
  eapply stays_new; [apply Connecting_enter_spec|]. intros ?? [s t] (_ & _ & Hs). by destruct s.
Qed.

Lemma stays_connected c : stays (new_state (Connected_enter c)).
Proof.
  eapply stays_new; [apply Connected_enter_spec|].
  by intros ?? [s t] (_ & _ & [Hs | [e Hs]]); simpl in *; subst.
Qed.

Lemma stays_disconnecting h a : a <> AfterNothing -> stays (new_state (Disconnecting_enter h a)).
Proof.
  intros Ha. eapply stays_new; [apply Disconnecting_enter_spec|]. intros ??? (_ & _ & ->).
  by destruct a.
Qed.

Lemma stays_reply (m : M W EventConsequence) tx : stays m -> stays (c <-- m; send_tx tx ;;; ret c).
Proof.
  intros Hm st. apply wp_bind. eapply wp_mono; [apply Hm|]. intros st' c Hc.
  by apply wp_bind, wp_send_tx, wp_ret.
Qed.
End staying.

#[export] Hint Resolve stays_same stays_error stays_connecting stays_connected : vpn.

Ltac solve_stays :=
  repeat first
    [ solve [eauto with vpn]
    | apply stays_disconnecting; done
    | apply stays_reply
    | match goal with
      | |- stays (bindM _ _) => apply stays_bind; intros ?
      | |- stays (if ?b then _ else _) => destruct b
      | |- stays (match ?x with _ => _ end) => destruct x
      end ].

Section kill_switch.
Context {W : Type} `{P : TunnelPlatform W} `{V : TunnelView W} {L : TunnelPlatformLaws W P V}.

Lemma stays_Connecting_disconnect c a : a <> AfterNothing -> stays (Connecting_disconnect c a).
Proof. intros Ha. apply stays_bind. intros _. by apply stays_disconnecting. Qed.

Lemma stays_Connected_disconnect c a : a <> AfterNothing -> stays (Connected_disconnect c a).
Proof. intros Ha. do 2 (apply stays_bind; intros _). by apply stays_disconnecting. Qed.

Lemma stays_after_disconnect a r : a <> AfterNothing -> stays (new_state (after_disconnect a r)).
Proof. intros Ha. destruct r, a; try done; eauto with vpn. Qed.

(** While disconnecting, only a disconnect command makes the machine head out. *)
Lemma stays_Disconnecting h a cmd :
  a <> AfterNothing -> asks_disconnect (InCommand cmd) = false ->
  stays (Disconnecting_handle_commands (W := W) h a cmd).
Proof.
  intros Ha Hc st. unfold Disconnecting_handle_commands, set_allow_lan, set_dns_config.
  destruct cmd as [[]|]; try done; wp_auto; simpl; by repeat case_match.
Qed.

Lemma dispatched_stays s i (m : M W EventConsequence) :
  dispatched s i m -> heading_out s = false -> live s -> asks_disconnect i = false -> stays m.
Proof.
  unfold asks_disconnect. intros Hd Hh Hl Hi.
  destruct Hd as [[[]|]|? [[]|]|? [[]|]|? [[]|]| |? [[]|]|? [[]|]| |?[][[]|]|?[]| |];
    try done; simpl in Hl; try congruence;
    unfold Connecting_handle_commands, Connecting_reset_firewall,
      Connecting_handle_tunnel_events, Connecting_handle_tunnel_close_event,
      Connected_handle_commands, Connected_handle_tunnel_events,
      Connected_handle_tunnel_close_event, Error_handle_commands;
    first [by apply stays_Disconnecting | by apply stays_after_disconnect
          | repeat (solve_stays; first [apply stays_Connecting_disconnect; done
                                       | apply stays_Connected_disconnect; done])].
Qed.

Lemma handle_event_stays s i st st' cons :
  heading_out s = false -> live s -> asks_disconnect i = false ->
  handle_event s i st = Some (st', cons) -> staying cons.
Proof.
  intros Hh Hl Hi (m & Hd & E)%handle_event_dispatched.
  pose proof (dispatched_stays _ _ _ Hd Hh Hl Hi (note_input i st)) as Hw.
  unfold wp in Hw. by rewrite E in Hw.
Qed.

(** The machine is in a state that is not disconnected and not about to be, and some policy is in
    force. *)
Definition protected (s : TunnelState) (st : St W) : Prop :=
  heading_out s = false /\ live s /\ secured st.

Lemma exec_protected s st inputs ts m' :
  protected s st -> forallb (fun i => negb (asks_disconnect i)) inputs = true ->
  exec (Running s st) inputs ts m' ->
  match m' with
  | Running s' st' => protected s' st'
  | Stopped st' => secured st'
  end.
Proof.
  intros Hp Hin He.
  eapply (exec_invariant (fun i => negb (asks_disconnect i)) protected secured);
    [| | | exact He | exact Hin | exact Hp].
  - by intros ?? (_ & _ & ?).
  - intros s1 st1 w Hk (?&?&Hs). split_and!; [done..|]. by eapply secured_keeps.
  - intros s1 st1 i st2 cons Hi%negb_true_iff (Hh & Hl & Hs) E.
    pose proof (handle_event_stays _ _ _ _ _ Hh Hl Hi E) as Hst.
    destruct (handle_event_handled _ _ _ _ _ E) as [_ H]. destruct cons as [s' t|s'|]; [| |done].
    + destruct H as (_ & _ & Hl' & Hs'). split_and!; [done | by apply Hl'|].
      apply Hs'; [by destruct s' | done].
    + destruct H as (_ & Hl' & Hs'). split_and!; [done | by apply Hl' | by apply Hs'].
Qed.

(** Lockdown mode: once locked down and secured, the machine stays secured whatever happens, until a
    command turns lockdown mode off. *)
Lemma exec_locked m inputs ts m' :
  locked (machine_st m) -> secured (machine_st m) ->
  forallb (fun i => negb (lifts_lockdown i)) inputs = true ->
  exec m inputs ts m' -> locked (machine_st m') /\ secured (machine_st m').
Proof.
  intros Hl Hs Hin He.
  assert (forall mm : Machine, match mm with
    | Running s st => locked st /\ secured st | Stopped st => locked st /\ secured st end
    <-> locked (machine_st mm) /\ secured (machine_st mm)) as Heq by (by intros []).
  apply Heq. eapply (exec_invariant (fun i => negb (lifts_lockdown i))
    (fun _ st => locked st /\ secured st) (fun st => locked st /\ secured st));
    [| | | exact He | exact Hin | by apply Heq].
  - done.
  - intros s1 st1 w Hk [? ?]. split; [done | by eapply secured_keeps].
  - intros s1 st1 i st2 cons Hi%negb_true_iff [Hl1 Hs1] E.
    pose proof (handle_event_tight _ _ _ _ _ Hi Hl1 Hs1 E). by destruct cons.
Qed.

(** The kill switch: from a protected state, whatever commands other than disconnect arrive,
    whatever the tunnel does, however often applying a policy fails, some firewall policy stays in
    force and the machine neither becomes disconnected nor reports that it is; if it stops because
    nobody listens to its transitions, the rules stay. *)
Theorem kill_switch s st inputs ts m' :
  protected s st -> forallb (fun i => negb (asks_disconnect i)) inputs = true ->
  exec (Running s st) inputs ts m' ->
  (forall b, TrDisconnected b ∉ ts)
  /\ match m' with
     | Running s' st' => protected s' st'
     | Stopped st' => secured st'
     end.
Proof.
  intros Hp Hin He. split; [|by eapply exec_protected].
  remember (Running s st) as m eqn:Hm. revert s st Hp Hm.
  induction He as [m|s0 st0 w ins ts m Hk He IH|m i l m1 t ins ts m2 E He IH];
    intros s st Hp Hm b; [set_solver| |].
  - injection Hm as -> ->. apply (IH Hin s (update_world w st)); [|done].
    destruct Hp as (?&?&?). split_and!; [done..|]. by eapply secured_keeps.
  - subst m. simpl in Hin. apply andb_true_iff in Hin as [Hi Hin].
    assert (exec (Running s st) [i] (option_list t ++ []) m1) as H1 by (econstructor; [exact E|constructor]).
    assert (t <> Some (TrDisconnected b)) as Ht.
    { apply negb_true_iff in Hi. destruct Hp as (Hh & Hl & _). simpl in E.
      destruct (handle_event s i st) as [[st' cons]|] eqn:Eh; [|done].
      pose proof (handle_event_stays _ _ _ _ _ Hh Hl Hi Eh) as Hst.
      destruct (handle_event_handled _ _ _ _ _ Eh) as [_ H].
      destruct cons as [s' t'|s'|], l; simplify_eq/=; try done.
      destruct H as (Htr & _). intros [= ->]. destruct Htr as [-> _]. done. }
    apply (exec_protected _ _ _ _ _ Hp) in H1; [|simpl; by rewrite Hi].
    assert (TrDisconnected b ∉ ts) as Hts.
    { destruct m1 as [s1 st1|st1]; [by eapply IH|]. inversion He; subst; set_solver. }
    destruct t as [t'|]; simpl; [|done]. intros [<- | ?]%elem_of_cons; done.
Qed.

(** What is reported is true: a connecting or connected transition is only reported with that
    state's firewall policy in force for the current settings (and, once connected, with the
    resolver configured), an error transition says it blocks only if the blocking policy is in
    force, and the transition names the state that was entered. *)
Theorem transitions_truthful s i st st' s' t :
  handle_event s i st = Some (st', NewState s' t) -> truthful t s' st'.
Proof. intros E. by destruct (handle_event_handled _ _ _ _ _ E) as [_ (? & _)]. Qed.

(** The abstract machine: its state is a kind, its steps report one. *)
Inductive abstract_step : StateKind -> option StateKind -> option StateKind -> Prop :=
| abs_move k k' : edge k k' = true -> abstract_step k (Some k') (Some k')
| abs_stay k : abstract_step k None (Some k)
| abs_finish : abstract_step KDisconnected None None.

(** C28. Refinement of the state diagram.  Every handled event is a step of the abstract machine, which moves
    only along the edges of [edge], reports exactly the state it moves to, and finishes only when disconnected.
    These are the edges of the code; the diagram of [src/docs/architecture.md] has others
    ([documented_diagram_differs]). *)
Theorem refines_state_diagram s i st st' cons :
  handle_event s i st = Some (st', cons) ->
  abstract_step (kind s)
    match cons with NewState _ t => Some (reported_kind t) | _ => None end
    match cons with NewState s' _ | SameState s' => Some (kind s') | Finished => None end.
Proof.
  intros E. destruct (handle_event_handled _ _ _ _ _ E) as [_ H].
  destruct cons as [s' t|s'|]; simpl in *.
  - destruct H as (Ht & He & _). assert (reported_kind t = kind s') as -> by
      (destruct t; simpl in *; naive_solver). by constructor.
  - destruct H as (-> & _). constructor.
  - destruct H as (-> & _). constructor.
Qed.

(** The diagram of [src/docs/architecture.md]. *)
Definition documented_edge (k k' : StateKind) : bool :=
  match k, k' with
  | KDisconnected, KConnecting => true
  | KConnecting, (KConnected | KError) => true
  | KConnected, KDisconnecting => true
  | KDisconnecting, (KDisconnected | KConnecting | KError) => true
  | KError, (KConnecting | KDisconnecting) => true
  | _, _ => false
  end.

Lemma wp_ends {A} (m : M W A) Q st : wp m Q st -> exists st' a, m st = (st', a) /\ Q st' a.
Proof. unfold wp. destruct (m st). eauto. Qed.
Lemma error_disconnects reason (st : St W) :
  wp (Error_handle_commands reason (Some CmdDisconnect)) (fun _ cons => exists t, cons = NewState DisconnectedState t) st.
Proof.
  unfold Error_handle_commands, Error_reset_dns, new_state, Disconnected_enter, Disconnected_set_firewall_policy,
    reset_connectivity_check, construct_state_transition. wp_auto; eauto.
Qed.
Lemma connecting_disconnects c (st : St W) :
  wp (Connecting_disconnect c AfterNothing) (fun _ cons => exists s t, cons = NewState s t /\ kind s = KDisconnecting) st.
Proof. unfold Connecting_disconnect, reset_routes, new_state, Disconnecting_enter. wp_auto. eauto. Qed.

(** The documented diagram sends a machine in the error state to the disconnecting state when the user disconnects, and
    has no way from connecting to disconnecting.  The code goes from the error state to the disconnected one at once,
    never to the disconnecting one, and disconnects from the connecting state. *)
Theorem documented_diagram_differs :
  (documented_edge KError KDisconnecting = true /\ documented_edge KError KDisconnected = false
   /\ documented_edge KConnecting KDisconnecting = false)
  /\ (forall reason i st st' s' t, handle_event (ErrorState reason) i st = Some (st', NewState s' t) -> kind s' <> KDisconnecting)
  /\ (forall reason st, commands_done st = false ->
        exists st' t, handle_event (ErrorState reason) (InCommand (Some CmdDisconnect)) st = Some (st', NewState DisconnectedState t))
  /\ (forall c st, commands_done st = false ->
        exists st' s' t, handle_event (ConnectingState c) (InCommand (Some CmdDisconnect)) st = Some (st', NewState s' t)
          /\ kind s' = KDisconnecting).
Proof.
  split_and!; try done.
  - intros reason i st st' s' t E Hk. destruct (handle_event_handled _ _ _ _ _ E) as [_ (_ & He & _)]. by rewrite Hk in He.
  - intros reason st Hd. destruct (wp_ends _ _ _ (error_disconnects reason (note_input (InCommand (Some CmdDisconnect)) st)))
      as (st' & cons & E & t & ->). exists st', t. unfold handle_event, poll_commands. rewrite Hd. exact (f_equal Some E).
  - intros c st Hd. destruct (wp_ends _ _ _ (connecting_disconnects c (note_input (InCommand (Some CmdDisconnect)) st)))
      as (st' & cons & E & s' & t & -> & Hk). exists st', s', t. split; [|done].
    unfold handle_event, poll_tunnel. rewrite Hd. exact (f_equal Some E).
Qed.
End kill_switch.

(** ** The firewall follows the settings *)
Section in_sync.
Context {W : Type} `{P : TunnelPlatform W} `{V : TunnelView W} {L : TunnelPlatformLaws W P V}.

(** While a tunnel is up or coming up, the policy in force is the one for the current settings and
    the tunnel's parameters.  After the interface went down the machine forgets its metadata before
    the next policy is applied. *)
Definition settled (s : TunnelState) (st : St W) : Prop :=
  match s with
  | ConnectingState c =>
      exists m t, enforces (world st) (connecting_policy (sv st) (ct_parameters c) m t)
        /\ (m = ct_metadata c /\ t = ct_traffic c \/ ct_metadata c = None /\ ct_traffic c = TrafficNone)
  | ConnectedState c => enforces (world st) (get_firewall_policy c (sv st))
  | _ => True
  end.

Definition same_settled (st' : St W) (cons : EventConsequence) : Prop :=
  match cons with SameState s' => settled s' st' | _ => True end.

Lemma settled_new t s st : truthful t s st -> settled s st.
Proof.
  destruct t; simpl; intros H; try by (destruct H as [-> ?]).
  - destruct H as (c & -> & _ & Hm & Ht & He). exists None, TrafficNone. rewrite Hm, Ht. auto.
  - by destruct H as (c & -> & _ & He & _).
  - by destruct H as (h & a' & -> & _).
Qed.

Lemma settled_world s st w : keeps_rules (world st) w -> settled s st -> settled s (update_world w st).
Proof. intros Hk. destruct s; simpl; [done| | |done..]; naive_solver. Qed.

(** [disconnect] leaves the state, so there is nothing to show. *)
Lemma leaves_Connecting_disconnect c a st : wp (Connecting_disconnect c a) same_settled st.
Proof. unfold Connecting_disconnect, reset_routes, Disconnecting_enter. by wp_auto. Qed.

Lemma leaves_Connected_disconnect c a st : wp (Connected_disconnect c a) same_settled st.
Proof.
  unfold Connected_disconnect, Connected_reset_dns, reset_routes, Disconnecting_enter. by wp_auto.
Qed.

Lemma same_settled_reply st tx cons : same_settled st cons -> same_settled (add_reply tx st) cons.
Proof. by destruct cons. Qed.

(** Reapplying the policy of the connecting state. *)
Lemma Connecting_reapply c st :
  wp (Connecting_reset_firewall c) same_settled st.
Proof.
  unfold Connecting_reset_firewall. wp_step.
  eapply wp_mono; [apply Connecting_set_firewall_policy_spec|]. intros st1 [[]|e] [Hf He];
    [|apply leaves_Connecting_disconnect]. apply wp_ret. simpl. exists (ct_metadata c), (ct_traffic c).
  auto.
Qed.

Lemma Connecting_commands_settled c cmd st :
  settled (ConnectingState c) st -> wp (Connecting_handle_commands c cmd) same_settled st.
Proof.
  intros Hs. unfold Connecting_handle_commands, set_allow_lan, set_dns_config.
  destruct cmd as [[]|]; wp_auto; try apply leaves_Connecting_disconnect; try exact Hs;
    try (eapply wp_mono; [apply Connecting_reapply|]; intros st1 cons Hc;
         wp_auto; by apply same_settled_reply);
    eapply wp_mono; [apply Connecting_set_firewall_policy_spec|]; intros st1 [[]|e] [Hf He];
    wp_auto; try apply leaves_Connecting_disconnect;
    exists (ct_metadata c), (ct_traffic c); auto.
Qed.

Lemma Connecting_events_settled c e st :
  settled (ConnectingState c) st -> wp (Connecting_handle_tunnel_events c e) same_settled st.
Proof.
  intros (m & t & He & _). unfold Connecting_handle_tunnel_events.
  destruct e as [[]|]; wp_auto; try apply leaves_Connecting_disconnect.
  - eapply wp_mono; [apply Connecting_set_firewall_policy_spec|]. intros st1 [[]|err] [Hf Hp];
      [|apply leaves_Connecting_disconnect]. apply wp_ret. simpl.
    exists (Some metadata), traffic. auto.
  - by unfold wp.
  - simpl. exists m, t. auto.
Qed.

Lemma Connected_commands_settled c cmd st :
  settled (ConnectedState c) st -> wp (Connected_handle_commands c cmd) same_settled st.
Proof.
  intros Hs. unfold Connected_handle_commands, set_allow_lan, set_dns_config.
  destruct cmd as [[]|]; wp_auto; try apply leaves_Connected_disconnect; try exact Hs.
  - eapply wp_mono; [apply Connected_set_firewall_policy_spec|].
    intros st1 [[]|err] (Hf & Hsv & He); wp_auto; [by apply He|].
    eapply wp_mono; [apply leaves_Connected_disconnect|]. intros st2 cons Hc. wp_auto.
    by apply same_settled_reply.
  - eapply wp_mono; [apply Connected_set_firewall_policy_spec|].
    intros st1 [[]|err] (Hf & Hsv & He); [|apply leaves_Connected_disconnect]. wp_step.
    eapply wp_mono; [apply set_dns_spec|]. intros st2 ok (Hf2 & Hsv2 & Hk & _). wp_auto.
    + simpl. rewrite Hsv2. by apply Hk, He.
    + eapply wp_mono; [apply leaves_Connected_disconnect|]. intros st3 cons Hc. wp_auto.
      by apply same_settled_reply.
Qed.

Lemma dispatched_settled s i (m : M W EventConsequence) st :
  dispatched s i m -> settled s st -> wp m (fun st' cons => handled s st st' cons) st ->
  wp m (fun st' cons => match cons with NewState s' _ | SameState s' => settled s' st' | _ => True end) st.
Proof.
  intros Hd Hs Hh.
  assert (wp m same_settled st -> wp m (fun st' cons =>
    match cons with NewState s' _ | SameState s' => settled s' st' | _ => True end) st) as Hgo.
  { unfold wp in *. intros Hss. destruct Hh as [_ Hh]. destruct (m st).2 as [s' t|s'|]; [|done..].
    destruct Hh as (Ht & _). by apply (settled_new t). }
  assert ((kind s <> KConnecting -> kind s <> KConnected -> wp m (fun st' cons =>
    match cons with NewState s' _ | SameState s' => settled s' st' | _ => True end) st)) as Hother.
  { intros H1 H2. apply Hgo. unfold wp, same_settled in *. destruct Hh as [_ Hh].
    destruct (m st).2 as [s' t|s'|]; [done| |done]. destruct Hh as (Hk & _).
    destruct s'; simpl; try done; by rewrite <- Hk in *. }
  destruct Hd; try (by apply Hother); apply Hgo.
  - by apply Connecting_commands_settled.
  - by apply Connecting_events_settled.
  - unfold Connecting_handle_tunnel_close_event, reset_routes. wp_auto; by unfold wp.
  - by apply Connected_commands_settled.
  - unfold Connected_handle_tunnel_events. wp_auto; try apply leaves_Connected_disconnect; done.
  - unfold Connected_handle_tunnel_close_event, Connected_reset_dns, reset_routes.
    wp_auto; by unfold wp.
Qed.

(** The firewall follows the settings: whatever happens while a tunnel is up or coming up, as long
    as the machine stays there the policy in force is the one computed from the current LAN setting,
    allowed endpoint and name servers and from the tunnel's endpoints; in particular every changed
    setting has taken effect when its command has been handled. *)
Theorem policy_follows_settings s st inputs ts m' :
  settled s st -> exec (Running s st) inputs ts m' ->
  match m' with Running s' st' => settled s' st' | Stopped _ => True end.
Proof.
  intros Hs He.
  eapply (exec_invariant (fun _ => true) settled (fun _ => True));
    [done | apply settled_world | | exact He | clear; by induction inputs | exact Hs].
  intros s1 st1 i st2 cons _ Hs1 (m & Hd & E)%handle_event_dispatched.
  pose proof (dispatched_settled s1 i m (note_input i st1) Hd Hs1
    (dispatched_handled s1 i m _ Hd)) as Hw.
  unfold wp in Hw. by rewrite E in Hw.
Qed.
End in_sync.

(** ** Offline *)
Section offline.
Context {W : Type} `{P : TunnelPlatform W} `{V : TunnelView W} {L : TunnelPlatformLaws W P V}.

Definition online (st : St W) : Prop := is_offline (connectivity (sv st)) = false.

Definition has_tunnel (s : TunnelState) : bool :=
  match s with ConnectingState _ | ConnectedState _ => true | _ => false end.

(** A tunnel is up or coming up only while the host is not known to be offline. *)
Definition online_tunnel (s : TunnelState) (st : St W) : Prop := has_tunnel s = true -> online st.

Definition online_after (st : St W) (cons : EventConsequence) : Prop :=
  match cons with NewState s _ | SameState s => online_tunnel s st | Finished => True end.

(** Handlers that need the tunnel to be online before, or nothing. *)
Definition needs_online (pre : bool) (m : M W EventConsequence) : Prop :=
  forall st, (pre = true -> online st) -> wp m online_after st.

Definition same_connectivity {A} (m : M W A) : Prop :=
  forall st, wp m (fun st' _ => connectivity (sv st') = connectivity (sv st)) st.

Lemma online_bind {A} pre (m : M W A) (k : A -> M W EventConsequence) :
  same_connectivity m -> (forall a, needs_online pre (k a)) -> needs_online pre (bindM m k).
Proof.
  intros Hm Hk st Hp. apply wp_bind. eapply wp_mono; [apply Hm|]. intros st' a E.
  apply Hk. unfold online in *. by rewrite E.
Qed.

Lemma online_bind_free {A} (m : M W A) (k : A -> M W EventConsequence) :
  (forall a, needs_online false (k a)) -> needs_online false (bindM m k).
Proof. intros Hk st Hp. apply wp_bind. unfold wp. by apply Hk. Qed.

Lemma online_same pre s : has_tunnel s = pre -> needs_online pre (ret (SameState s)).
Proof. intros Hs st Hp. apply wp_ret. intros Ht. apply Hp. congruence. Qed.

Lemma online_left pre s : has_tunnel s = false -> needs_online pre (ret (SameState s)).
Proof. intros Hs st Hp. apply wp_ret. intros Ht. congruence. Qed.

Lemma online_new pre (m : M W (TunnelState * TunnelStateTransition)) (Q : St W -> St W -> _ -> Prop) :
  (forall st, wp m (Q st) st) -> (forall st st' x, Q st st' x -> has_tunnel x.1 = false) ->
  needs_online pre (new_state m).
Proof.
  intros Hm HQ st Hp. apply wp_new_state. eapply wp_mono; [apply Hm|]. intros st' x Hx.
  apply HQ in Hx. intros Ht. congruence.
Qed.

Lemma online_error pre r : needs_online pre (new_state (Error_enter r)).
Proof. eapply online_new; [apply Error_enter_spec|]. by intros ??? (_ & _ & ->). Qed.

Lemma online_disconnecting pre h a : needs_online pre (new_state (Disconnecting_enter h a)).
Proof. eapply online_new; [apply Disconnecting_enter_spec|]. by intros ??? (_ & _ & ->). Qed.

Lemma online_disconnected pre b : needs_online pre (new_state (Disconnected_enter b)).
Proof. eapply online_new; [apply Disconnected_enter_spec|]. by intros ??? (_ & _ & _ & -> & _). Qed.

(** [Connecting_enter] gives up at once when offline. *)
Lemma online_connecting pre n : needs_online pre (new_state (Connecting_enter n)).
Proof.
  intros st _. apply wp_new_state.
  destruct (is_offline (connectivity (sv st))) eqn:Eo.
  - apply bool_decide_eq_true in Eo. unfold Connecting_enter. do 2 wp_step.
    rewrite Eo. simpl. eapply wp_mono; [apply Error_enter_spec|]. by intros st' x (_ & _ & ->).
  - eapply wp_mono; [apply Connecting_enter_spec|]. intros st' x ((Hs & _) & _ & _) _.
    unfold online. destruct Hs as (_ & _ & -> & _). done.
Qed.

Lemma online_connected c : needs_online true (new_state (Connected_enter c)).
Proof.
  intros st Hp. apply wp_new_state. eapply wp_mono; [apply Connected_enter_spec|].
  intros st' x ((Hs & _) & _ & _) _. unfold online. destruct Hs as (_ & _ & -> & _). by apply Hp.
Qed.

Lemma online_reply pre (m : M W EventConsequence) tx :
  needs_online pre m -> needs_online pre (c <-- m; send_tx tx ;;; ret c).
Proof.
  intros Hm st Hp. apply wp_bind. eapply wp_mono; [by apply Hm|]. intros st' c Hc.
  by apply wp_bind, wp_send_tx, wp_ret.
Qed.

(** A connectivity report while a tunnel is up. *)
Lemma online_report c (off on : M W EventConsequence) :
  needs_online false off -> needs_online true on ->
  needs_online true (set_sv (with_connectivity c) ;;; if is_offline c then off else on).
Proof.
  intros Hoff Hon st _. apply wp_bind, wp_set_sv. destruct (is_offline c) eqn:E.
  - by apply Hoff.
  - by apply Hon.
Qed.

Lemma same_connectivity_bind {A B} (m : M W A) (k : A -> M W B) :
  same_connectivity m -> (forall a, same_connectivity (k a)) -> same_connectivity (bindM m k).
Proof.
  intros Hm Hk st. apply wp_bind. eapply wp_mono; [apply Hm|]. intros st1 a E.
  eapply wp_mono; [apply Hk|]. intros st2 b E2. cbv beta in *. congruence.
Qed.

Lemma same_connectivity_set f :
  (forall v, connectivity (f v) = connectivity v) -> same_connectivity (@set_sv W f).
Proof. intros Hf st. apply wp_set_sv, Hf. Qed.

Lemma same_connectivity_world {A} (f : W -> W * A) : same_connectivity (on_world f).
Proof. intros st. by apply wp_on_world. Qed.

Lemma same_connectivity_tx tx : same_connectivity (@send_tx W tx).
Proof. intros st. by apply wp_send_tx. Qed.

Lemma same_connectivity_get : same_connectivity (@get_sv W).
Proof. intros st. by apply wp_get_sv. Qed.

Lemma same_connectivity_ret {A} (a : A) : same_connectivity (ret a).
Proof. intros st. by apply wp_ret. Qed.
End offline.

#[export] Hint Resolve same_connectivity_world same_connectivity_tx same_connectivity_get
  same_connectivity_ret online_error online_disconnecting online_disconnected online_connecting
  online_connected online_same online_left : vpn.

Ltac solve_connectivity :=
  unfold set_allow_lan, set_dns_config, Connecting_set_firewall_policy, Connected_set_firewall_policy,
    Error_set_firewall_policy, disable_connectivity_check, reset_connectivity_check,
    Disconnected_set_firewall_policy, reset_routes, Connected_reset_dns, Error_reset_dns,
    Disconnected_reset_dns, set_dns;
  repeat first
    [ solve [eauto with vpn] | apply same_connectivity_bind; [|intros ?]
    | apply same_connectivity_set; done
    | match goal with
      | |- same_connectivity (if ?b then _ else _) => destruct b
      | |- same_connectivity (match ?x with _ => _ end) => destruct x
      end ].

Ltac solve_online :=
  repeat first
    [ solve [eauto with vpn]
    | apply online_reply
    | apply online_report
    | match goal with
      | |- needs_online false (bindM _ _) => apply online_bind_free; intros ?
      | |- needs_online _ (bindM _ _) => apply online_bind; [by solve_connectivity | intros ?]
      | |- needs_online _ (if ?b then _ else _) => destruct b
      | |- needs_online _ (match ?x with _ => _ end) => destruct x
      end ].

Section offline_theorem.
Context {W : Type} `{P : TunnelPlatform W} `{V : TunnelView W} {L : TunnelPlatformLaws W P V}.

Lemma online_Connecting_commands c cmd : needs_online true (Connecting_handle_commands c cmd).
Proof.
  unfold Connecting_handle_commands, Connecting_reset_firewall, Connecting_disconnect.
  destruct cmd as [[]|]; solve_online.
Qed.

Lemma online_Connected_commands c cmd : needs_online true (Connected_handle_commands c cmd).
Proof.
  unfold Connected_handle_commands, Connected_disconnect.
  destruct cmd as [[]|]; solve_online.
Qed.

Lemma online_after_disconnect a r : needs_online false (new_state (after_disconnect a r)).
Proof. destruct r, a; simpl; eauto with vpn. Qed.

Lemma online_construct : needs_online false (new_state (@construct_state_transition W)).
Proof. by intros st _. Qed.

Lemma online_finished : needs_online false (@ret W _ Finished).
Proof. by intros st _. Qed.

Lemma dispatched_online s i (m : M W EventConsequence) :
  dispatched s i m -> needs_online (has_tunnel s) m.
Proof.
  intros Hd; destruct Hd; simpl;
    try apply online_Connecting_commands; try apply online_Connected_commands;
    unfold Connecting_handle_tunnel_events, Connecting_handle_tunnel_close_event,
      Connected_handle_tunnel_events, Connected_handle_tunnel_close_event, Connecting_disconnect,
      Connected_disconnect, Disconnecting_handle_commands, Disconnected_handle_commands,
      Error_handle_commands;
    solve_online; auto using online_after_disconnect, online_construct, online_finished.
  by apply (online_after_disconnect a None).
Qed.

(** Offline: no tunnel is up or being attempted while the host is known to be offline, in any
    execution of the machine. *)
Theorem no_tunnel_while_offline s st inputs ts m' :
  online_tunnel s st -> exec (Running s st) inputs ts m' ->
  match m' with Running s' st' => online_tunnel s' st' | Stopped _ => True end.
Proof.
  intros Hs He.
  eapply (exec_invariant (fun _ => true) online_tunnel (fun _ => True));
    [done | done | | exact He | clear; by induction inputs | exact Hs].
  intros s1 st1 i st2 cons _ Hs1 (m & Hd & E)%handle_event_dispatched.
  pose proof (dispatched_online s1 i m Hd (note_input i st1) Hs1) as Hw.
  unfold wp, online_after in Hw. by rewrite E in Hw.
Qed.
End offline_theorem.
