(* ===== verification/TunnelLiveness.v ===== *)
(** * Shutdown, retries and acknowledgements

    The machine ends within a bounded number of events once its command channel is closed, counts
    its connection attempts, and completes the sender of every command it handles. *)

From stdpp Require Import base list strings option numbers sets.
From S2P Require Import Prelude NetTypes TunnelTypes FirewallPolicy FirewallLinux TunnelStateMachine.
From S2P Require Import TunnelWp TunnelHandlers TunnelProps.

Local Open Scope vpn_scope.

(** ** Shutdown *)
Definition reconnects (a : AfterDisconnect) : bool :=
  match a with AfterReconnect _ => true | _ => false end.

(** The states the machine can be in once its command channel has ended. *)
Definition winding_down (s : TunnelState) : Prop :=
  match s with
  | DisconnectedState | ErrorState _ => True
  | DisconnectingState h a => close_terminated h = false /\ reconnects a = false
  | _ => False
  end.

(** How many events are left at most. *)
Definition events_left (s : TunnelState) : nat :=
  match s with
  | DisconnectedState => 1
  | ErrorState _ => 2
  | _ => 3
  end.

Definition machine_events_left {W} (m : @Machine W) : nat :=
  match m with Running s _ => events_left s | Stopped _ => 0 end.

Definition starts_tunnel (t : TunnelStateTransition) : bool :=
  match t with TrConnecting _ | TrConnected _ => true | _ => false end.

Section shutdown.
Context {W : Type} `{P : TunnelPlatform W} `{V : TunnelView W} {L : TunnelPlatformLaws W P V}.

Definition closing (s : TunnelState) (st : St W) : Prop := winding_down s /\ commands_done st = true.

(** The consequences that end the tunnel. *)
Definition enters (k : StateKind) (st : St W) (cons : EventConsequence) : Prop :=
  match cons with
  | NewState s t => kind s = k /\ reported_kind t = k
  | _ => False
  end.

Lemma wp_result {A} (m : M W A) Q st st' a : m st = (st', a) -> wp m Q st = Q st' a.
Proof. unfold wp. by intros ->. Qed.

Lemma truthful_kind t s (st : St W) : truthful t s st -> reported_kind t = kind s.
Proof. destruct t; simpl; intros; by destruct_and?; naive_solver. Qed.

Lemma enters_error r st : wp (new_state (Error_enter r)) (enters KError) st.
Proof.
  apply wp_new_state. eapply wp_mono; [apply Error_enter_spec|].
  intros st' x (_ & Ht & Hx). apply truthful_kind in Ht. simpl. by rewrite Ht, Hx.
Qed.

Lemma enters_disconnected b st : wp (new_state (Disconnected_enter b)) (enters KDisconnected) st.
Proof.
  apply wp_new_state. eapply wp_mono; [apply Disconnected_enter_spec|].
  intros st' x (_ & _ & Ht & Hx & _). apply truthful_kind in Ht. simpl. by rewrite Ht, Hx.
Qed.

Lemma after_disconnect_ends a r st :
  reconnects a = false ->
  wp (new_state (after_disconnect a r))
    (fun st' cons => enters KError st' cons \/ enters KDisconnected st' cons) st.
Proof.
  intros Ha. destruct r, a; simpl; try done;
    (eapply wp_mono; [first [apply enters_error | apply enters_disconnected]|]); auto.
Qed.

Lemma Error_ends reason st : wp (Error_handle_commands reason None) (enters KDisconnected) st.
Proof.
  unfold Error_handle_commands. apply wp_bind. unfold wp at 1. apply wp_bind. unfold wp at 1.
  apply enters_disconnected.
Qed.

Lemma Disconnected_ends st : wp (Disconnected_handle_commands None) (fun _ c => c = Finished) st.
Proof. unfold Disconnected_handle_commands, Disconnected_reset_dns. by wp_auto. Qed.

(** An event while winding down moves the machine towards its end. *)
Lemma closing_step s i st st' cons :
  closing s st -> handle_event s i st = Some (st', cons) ->
  match cons with
  | NewState s' t => closing s' st' /\ events_left s' < events_left s /\ starts_tunnel t = false
  | SameState _ => False
  | Finished => True
  end.
Proof.
  intros [Hw Hd] E. assert (commands_done st' = true) as Hd'.
  { destruct (handle_event_handled _ _ _ _ _ E) as [-> _]. simpl. by rewrite Hd. }
  assert (enters KError st' cons /\ 2 < events_left s
    \/ enters KDisconnected st' cons /\ 1 < events_left s \/ cons = Finished) as Hc.
  { unfold handle_event, poll_commands, poll_disconnecting in E. rewrite Hd in E.
    destruct s as [| | |h a|reason]; try done; simpl in Hw.
    - destruct i as [[|]| | |]; try done. injection E as E.
      pose proof (Disconnected_ends (note_input (InCommand None) st)) as He.
      rewrite (wp_result _ _ _ _ _ E) in He. auto.
    - destruct Hw as [Hl Hr]. rewrite Hl in E. destruct i as [| | |r]; try done. injection E as E.
      pose proof (after_disconnect_ends a (close_reason r) (note_input (InClose r) st) Hr) as He.
      rewrite (wp_result _ _ _ _ _ E) in He. simpl in *. destruct He; eauto with lia.
    - destruct i as [[|]| | |]; try done. injection E as E.
      pose proof (Error_ends reason (note_input (InCommand None) st)) as He.
      rewrite (wp_result _ _ _ _ _ E) in He. simpl in *. eauto with lia. }
  destruct cons as [s' t|s'|]; [| |done]; destruct Hc as [[Hc Hl] | [[Hc Hl] | Hc]]; try done;
    destruct Hc as [Hk Ht]; unfold closing; (split_and!; [|done| |]);
    destruct s'; try done; by destruct t.
Qed.

(** While winding down, the machine always waits for something that can still come: the end of the
    tunnel, or the end of the command channel. *)
Lemma closing_progress s st :
  closing s st ->
  is_Some (handle_event s (match s with DisconnectingState _ _ => InClose None | _ => InCommand None end) st).
Proof.
  intros [Hw Hd]. unfold handle_event, poll_commands, poll_disconnecting.
  destruct s; try done; simpl in *; try by eexists. destruct Hw as [-> _]. by eexists.
Qed.


Definition winds_down (st : St W) (cons : EventConsequence) : Prop :=
  match cons with
  | NewState s _ | SameState s => winding_down s
  | Finished => True
  end.

Lemma winds_down_disconnecting h a st :
  close_terminated h = false -> reconnects a = false ->
  wp (new_state (Disconnecting_enter h a)) winds_down st.
Proof.
  intros Hh Ha. apply wp_new_state. eapply wp_mono; [apply Disconnecting_enter_spec|].
  intros st' x (_ & _ & Hx). simpl. by rewrite Hx.
Qed.

Lemma enters_winds_down k st cons :
  k = KError \/ k = KDisconnected -> enters k st cons -> winds_down st cons.
Proof. intros Hk. destruct cons as [s t| |]; try done. intros [Hs _]. destruct s, Hk; simplify_eq/=; done. Qed.

(** The end of the command channel is obeyed in every state: the event that reports it stops the
    machine or leaves it winding down, with a tunnel that was to be reconnected given up. *)
Theorem channel_end_winds_down s st st' cons :
  live s -> commands_done st = false -> handle_event s (InCommand None) st = Some (st', cons) ->
  commands_done st' = true /\ winds_down st' cons.
Proof.
  intros Hl Hd E. split.
  { by destruct (handle_event_handled _ _ _ _ _ E) as [-> _]; simpl; rewrite orb_true_r. }
  apply handle_event_dispatched in E as (m & Hm & E). rewrite <- (wp_result _ _ _ _ _ E).
  inversion Hm; subst; simpl in Hl; try congruence.
  - eapply wp_mono; [apply Disconnected_ends|]. by intros ?? ->.
  - eapply wp_mono; [apply Error_ends|]. intros st1 c. apply enters_winds_down. auto.
  - apply wp_bind. unfold wp at 1. by apply winds_down_disconnecting.
  - apply wp_bind. unfold wp at 1. apply wp_bind. unfold wp at 1. by apply winds_down_disconnecting.
  - apply wp_bind, wp_ret, wp_ret. simpl. by destruct a.
Qed.
End shutdown.

(** ** Acknowledgements *)
Definition command_tx (cmd : TunnelCommand) : option nat :=
  match cmd with
  | CmdAllowLan _ tx | CmdAllowEndpoint _ tx | CmdDns _ tx | CmdLockdownMode _ tx => Some tx
  | _ => None
  end.

Section acknowledgements.
Context {W : Type} `{P : TunnelPlatform W}.

(** The senders [m] completes. *)
Definition completes {A} (txs : list nat) (m : M W A) : Prop :=
  forall st, wp m (fun st' _ => replies st' = replies st ++ txs) st.

Lemma completes_bind {A B} txs txs' (m : M W A) (k : A -> M W B) :
  completes txs m -> (forall a, completes txs' (k a)) -> completes (txs ++ txs') (bindM m k).
Proof.
  intros Hm Hk st. apply wp_bind. eapply wp_mono; [apply Hm|]. intros st1 a E1.
  eapply wp_mono; [apply Hk|]. intros st2 b E2. cbv beta in *. by rewrite E2, E1, app_assoc.
Qed.

Lemma completes_quiet {A B} txs (m : M W A) (k : A -> M W B) :
  completes [] m -> (forall a, completes txs (k a)) -> completes txs (bindM m k).
Proof. intros Hm Hk. by apply (completes_bind [] txs). Qed.

Lemma completes_last {A B} txs (m : M W A) (k : A -> M W B) :
  completes txs m -> (forall a, completes [] (k a)) -> completes txs (bindM m k).
Proof. intros Hm Hk. rewrite <- (app_nil_r txs). by apply completes_bind. Qed.

Lemma quiet_ret {A} (a : A) : completes [] (ret a).
Proof. intros st. apply wp_ret. by rewrite app_nil_r. Qed.

Lemma quiet_get_sv : completes [] (@get_sv W).
Proof. intros st. apply wp_get_sv. by rewrite app_nil_r. Qed.

Lemma quiet_set_sv f : completes [] (@set_sv W f).
Proof. intros st. apply wp_set_sv. by rewrite app_nil_r. Qed.

Lemma quiet_on_world {A} (f : W -> W * A) : completes [] (on_world f).
Proof. intros st. apply wp_on_world. intros. by rewrite app_nil_r. Qed.

Lemma completes_send_tx tx : completes [tx] (@send_tx W tx).
Proof. by intros st. Qed.
End acknowledgements.

#[export] Hint Resolve quiet_ret quiet_get_sv quiet_set_sv quiet_on_world completes_send_tx : vpn.

Ltac unfold_calls :=
  unfold Connecting_reset_firewall, Connecting_disconnect, Connected_disconnect, new_state,
    Connected_enter, Connecting_enter, Disconnecting_enter, Disconnected_enter, Error_enter,
    start_tunnel, construct_state_transition, Connecting_set_firewall_policy,
    Connected_set_firewall_policy, Error_set_firewall_policy, Disconnected_set_firewall_policy,
    set_dns, Connected_reset_dns, Error_reset_dns, Disconnected_reset_dns, reset_routes,
    set_allow_lan, set_dns_config, disable_connectivity_check, reset_connectivity_check.

Ltac solve_quiet :=
  repeat first
    [ solve [eauto with vpn]
    | match goal with
      | |- completes [] (bindM _ _) => apply completes_quiet; [|intros ?]
      | |- completes [] (if ?b then _ else _) => destruct b
      | |- completes [] (match ?x with _ => _ end) => destruct x
      end ].

(** Quiet calls, then the sender, then quiet calls. *)
Ltac solve_completes :=
  repeat first
    [ solve [eauto with vpn]
    | match goal with
      | |- completes _ (if ?b then _ else _) => destruct b
      | |- completes _ (match ?x with _ => _ end) => destruct x
      | |- completes [_] (bindM (send_tx _) _) => apply completes_last; [|intros ?; by solve_quiet]
      | |- completes _ (bindM _ _) => apply completes_quiet; [by solve_quiet | intros ?]
      end ].

Section acknowledged.
Context {W : Type} `{P : TunnelPlatform W}.

Definition is_dns (cmd : TunnelCommand) : bool := match cmd with CmdDns _ _ => true | _ => false end.
Definition is_connected (s : TunnelState) : bool :=
  match s with ConnectedState _ => true | _ => false end.

Lemma dispatched_completes s cmd (m : M W EventConsequence) :
  dispatched s (InCommand (Some cmd)) m -> is_connected s && is_dns cmd = false ->
  completes (option_list (command_tx cmd)) m.
Proof.
  intros Hd Hc. inversion Hd; subst; simpl in Hc;
    unfold Disconnected_handle_commands, Connecting_handle_commands, Connected_handle_commands,
      Error_handle_commands, Disconnecting_handle_commands; destruct cmd; try done; simpl;
    unfold_calls; solve_completes;
    (apply completes_last; [solve_completes | intros; by solve_quiet]).
Qed.

(** The name server command while connected. *)
Definition dns_acknowledged (c : ConnectedData) (tx : nat) (st st' : St W) (cons : EventConsequence)
  : Prop :=
  replies st' = replies st ++ [tx]
  \/ replies st' = replies st
     /\ exists e t, cons = NewState (DisconnectingState (cd_tunnel c)
                             (AfterBlock (SetFirewallPolicyError e))) t.

Lemma Connected_dns_completes c servers tx st :
  wp (Connected_handle_commands c (Some (CmdDns servers tx))) (dns_acknowledged c tx st) st.
Proof.
  unfold Connected_handle_commands, dns_acknowledged. unfold_calls. wp_auto; simpl; eauto.
Qed.

(** Acknowledgements: every command that carries a sender has it completed exactly once, in the
    step that handles it, in every state and also when applying the firewall policy fails; the one
    exception is a name server change while connected whose policy could not be applied: its sender
    is dropped, and the machine leaves the connected state to block. *)
Theorem commands_acknowledged s cmd tx st st' cons :
  command_tx cmd = Some tx -> handle_event s (InCommand (Some cmd)) st = Some (st', cons) ->
  replies st' = replies st ++ [tx]
  \/ exists c servers e t, s = ConnectedState c /\ cmd = CmdDns servers tx /\ replies st' = replies st
       /\ cons = NewState (DisconnectingState (cd_tunnel c) (AfterBlock (SetFirewallPolicyError e))) t.
Proof.
  intros Htx (m & Hd & E)%handle_event_dispatched.
  destruct (is_connected s && is_dns cmd) eqn:Ec.
  - destruct s as [| |c| |], cmd; try done. simpl in *. injection Htx as ->.
    inversion Hd; subst.
    pose proof (Connected_dns_completes c servers tx (note_input (InCommand (Some (CmdDns servers tx))) st)) as Hw.
    rewrite (wp_result _ _ _ _ _ E) in Hw. destruct Hw as [Hw | (Hw & e & t & ->)]; [by left|].
    right. exists c, servers, e, t. done.
  - left. pose proof (dispatched_completes _ _ _ Hd Ec (note_input (InCommand (Some cmd)) st)) as Hw.
    rewrite (wp_result _ _ _ _ _ E) in Hw. by rewrite Htx in Hw.
Qed.
End acknowledged.

(** ** Retries *)
Section retries.
Context {W : Type} `{P : TunnelPlatform W} `{V : TunnelView W} {L : TunnelPlatformLaws W P V}.

Lemma close_retries c st :
  wp (Connecting_handle_tunnel_close_event c None)
    (fun _ cons => match cons with
       | NewState s _ => connecting_or_error (u32_add (retry_attempt c) 1) s
       | _ => False
       end) st.
Proof.
  apply wp_bind. unfold wp at 1. apply wp_new_state. eapply wp_mono; [apply Connecting_enter_spec|].
  by intros st' x (_ & _ & Hx).
Qed.

(** Retries: a tunnel that ends without a reason to block is attempted again with the attempt
    counter one higher: after [n] such ends in a row the machine is connecting with the counter [n]
    higher, modulo 2^32, unless the last attempt could not be started and it is in the error
    state. *)
Theorem retry_counter n c st m' ts :
  is_u32 (retry_attempt c) ->
  run (Running (ConnectingState c) st) (replicate n (InClose (Some None), true)) = Some (m', ts) ->
  match m' with
  | Running (ConnectingState c') _ =>
      retry_attempt c' = ((retry_attempt c + Z.of_nat n) mod 2 ^ 32)%Z
  | Running (ErrorState _) _ => True
  | _ => False
  end.
Proof.
  revert c st ts. induction n as [|n IH]; intros c st ts Hc; simpl.
  - intros [= <- _]. rewrite Z.add_0_r. symmetry. by apply Z.mod_small.
  - unfold poll_tunnel. destruct (close_terminated (ct_tunnel c)); [done|]. simpl.
    pose proof (close_retries c (note_input (InClose (Some None)) st)) as Hw.
    unfold wp, Connecting_handle_tunnel_close_event in Hw.
    destruct ((reset_routes ;;; new_state _) _) as [st1 [s1 t1| |]]; try done. simpl in *.
    destruct s1 as [|c1| | |reason]; try done.
    + destruct (run (Running (ConnectingState c1) st1) (replicate n (InClose (Some None), true)))
        as [[m2 ts2]|] eqn:E; [|done]. simpl.
      intros [= <- <-]. destruct Hw as [Hr _].
      specialize (IH c1 st1 ts2 ltac:(rewrite Hr; apply u32_add_range) E).
      destruct m2 as [[]|]; try done. rewrite IH, Hr. unfold u32_add.
      rewrite Zplus_mod_idemp_l. f_equal. lia.
    + destruct n; simpl; [|done]. by intros [= <- <-].
Qed.
End retries.
(** ** NetworkManager's connectivity check *)
Section connectivity_check.
Context {W : Type} `{P : TunnelPlatform W} `{V : TunnelView W} {L : TunnelPlatformLaws W P V}.

(** Entering the disconnected state, the machine no longer remembers a disabled check. *)
Definition check_restored (st : St W) (cons : EventConsequence) : Prop :=
  match cons with
  | NewState DisconnectedState _ => connectivity_check_was_enabled (sv st) = None
  | _ => True
  end.

Lemma restored_disconnected b st : wp (new_state (Disconnected_enter b)) check_restored st.
Proof.
  apply wp_new_state. eapply wp_mono; [apply Disconnected_enter_spec|].
  intros st' x (_ & _ & _ & -> & Hn & _). exact Hn.
Qed.

Lemma restored_error r st : wp (new_state (Error_enter r)) check_restored st.
Proof.
  apply wp_new_state. eapply wp_mono; [apply Error_enter_spec|]. by intros st' x (_ & _ & ->).
Qed.

Lemma restored_connecting n st : wp (new_state (Connecting_enter n)) check_restored st.
Proof.
  apply wp_new_state. eapply wp_mono; [apply Connecting_enter_spec|].
  intros st' [s t] (_ & _ & Hs). by destruct s.
Qed.

Lemma wp_discard {A B} (m : M W A) (k : A -> M W B) Q st :
  (forall a st, wp (k a) Q st) -> wp (bindM m k) Q st.
Proof. intros Hk. apply wp_bind. unfold wp at 1. apply Hk. Qed.

Lemma Error_commands_restored reason cmd st : wp (Error_handle_commands reason cmd) check_restored st.
Proof.
  unfold Error_handle_commands. destruct cmd as [[]|];
    repeat first
      [ apply restored_disconnected | apply restored_error | apply restored_connecting
      | match goal with
        | |- wp (bindM _ _) _ _ => apply wp_discard; intros ? ?
        | |- wp (if ?b then _ else _) _ _ => destruct b
        end
      | by apply wp_ret ].
Qed.

(** Whenever the machine becomes disconnected, NetworkManager's connectivity check is handed back:
    a check the machine had disabled is enabled again, and forgotten, with or without lockdown
    mode. *)
Theorem connectivity_check_handed_back s i st st' t :
  s <> DisconnectedState ->
  handle_event s i st = Some (st', NewState DisconnectedState t) ->
  connectivity_check_was_enabled (sv st') = None.
Proof.
  intros Hs E. destruct (handle_event_handled _ _ _ _ _ E) as [_ (_ & He & _)].
  apply handle_event_dispatched in E as (m & Hd & E).
  assert (wp m check_restored (note_input i st)) as Hw; [|by rewrite (wp_result _ _ _ _ _ E) in Hw].
  assert (forall a r, wp (new_state (after_disconnect a r)) check_restored (note_input i st)) as Ha.
  { intros a r. destruct r, a; simpl;
      [apply restored_error ..| apply restored_disconnected | apply restored_error
      | apply restored_connecting]. }
  destruct Hd; try done; auto using Error_commands_restored;
    (unfold Disconnecting_handle_commands; apply wp_discard; intros; by apply wp_ret).
Qed.
End connectivity_check.
