(* ===== verification/LinuxPlatform.v ===== *)
(** * The state machine on Linux

    The Linux firewall of [FirewallApply] discharges the interface the state machine is proved
    against ([TunnelPlatformLaws]), so the machine's theorems become statements about the packets the
    kernel accepts.  The services that are not part of the firewall (DNS, routes, NetworkManager, the
    parameter generator, tunnel threads) are the class [HostServices]; what is assumed of them is that
    they leave the firewall's own table alone. *)

From stdpp Require Import base list strings option numbers sets.
From S2P Require Import Prelude NetTypes TunnelTypes FirewallPolicy Nftables FirewallLinux.
From S2P Require Import FirewallSpec FirewallRefine FirewallApply FirewallProps.
From S2P Require Import TunnelStateMachine TunnelWp TunnelHandlers TunnelProps.

Class HostServices (K : Type) : Type := {
  host_dns_set : string -> ResolvedDnsConfig -> K -> K * bool;
  host_dns_reset : K -> K * bool;
  host_dns_reset_before_interface_removal : K -> K * bool;
  host_clear_routes : K -> K * bool;
  host_clear_routing_rules : K -> K * bool;
  host_disable_connectivity_check : K -> K * option (option bool);
  host_enable_connectivity_check : K -> K * option bool;
  host_generate : Z -> IpAvailability -> K -> K * result TunnelParameters ParameterGenerationError;
  host_spawn_tunnel : TunnelParameters -> Z -> K -> K * nat;
  host_send_close : nat -> K -> K * bool;
  host_dns_active : K -> string -> ResolvedDnsConfig -> Prop;
}.

Class HostServicesLaws (K : Type) (NF : Netfilter K) (H : HostServices K) : Prop := {
  host_dns_set_ok i c k k' : host_dns_set i c k = (k', true) -> host_dns_active k' i c;
  host_dns_set_installed i c k : installed (host_dns_set i c k).1 = installed k;
  host_dns_reset_installed k : installed (host_dns_reset k).1 = installed k;
  host_dns_reset_before_installed k :
    installed (host_dns_reset_before_interface_removal k).1 = installed k;
  host_clear_routes_installed k : installed (host_clear_routes k).1 = installed k;
  host_clear_routing_rules_installed k : installed (host_clear_routing_rules k).1 = installed k;
  host_disable_check_installed k : installed (host_disable_connectivity_check k).1 = installed k;
  host_enable_check_installed k : installed (host_enable_connectivity_check k).1 = installed k;
  host_generate_installed n a k : installed (host_generate n a k).1 = installed k;
  host_spawn_tunnel_installed p n k : installed (host_spawn_tunnel p n k).1 = installed k;
  host_send_close_installed t k : installed (host_send_close t k).1 = installed k;
}.

(** [Firewall::apply_policy] of [src/talpid-core/src/firewall/mod.rs] passes on the result of the
    Linux implementation; the outcomes that are not results do not occur ([apply_policy_done]). *)
Definition outcome_result (o : outcome) : result unit fw_error :=
  match o with Done r => r | Panicked | Hung => Err ProcessNetlinkError end.

Section linux.
Context `{O : IpNetworkOps} {K : Type} `{NF : Netfilter K} `{HS : HostServices K}.
Variable env : fw_env.
Variable fw : Firewall.

Definition linux_platform : TunnelPlatform K := {|
  fw_apply_policy q k := let '(k, o) := apply_policy env fw q k in (k, outcome_result o);
  fw_reset_policy k := let '(k, o) := reset_policy k in (k, outcome_result o);
  dns_set := host_dns_set;
  dns_reset := host_dns_reset;
  dns_reset_before_interface_removal := host_dns_reset_before_interface_removal;
  clear_routes := host_clear_routes;
  clear_routing_rules := host_clear_routing_rules;
  nm_disable_connectivity_check := host_disable_connectivity_check;
  nm_enable_connectivity_check := host_enable_connectivity_check;
  generate := host_generate;
  spawn_tunnel := host_spawn_tunnel;
  send_close := host_send_close;
|}.

Definition linux_view : TunnelView K := {|
  enforces := linux_enforces env fw;
  dns_active := host_dns_active;
|}.

Lemma installed_keeps k k' :
  installed k' = installed k -> @keeps_rules K linux_view k k'.
Proof. intros E q. by apply linux_enforces_installed. Qed.

Lemma linux_platform_laws {NFL : NetfilterLaws K NF} {HSL : HostServicesLaws K NF HS} :
  TunnelPlatformLaws K linux_platform linux_view.
Proof.
  split; simpl; intros; try apply installed_keeps;
    try (by apply host_dns_set_installed || apply host_dns_reset_installed
         || apply host_dns_reset_before_installed || apply host_clear_routes_installed
         || apply host_clear_routing_rules_installed || apply host_disable_check_installed
         || apply host_enable_check_installed || apply host_generate_installed
         || apply host_spawn_tunnel_installed || apply host_send_close_installed).
  - destruct (apply_policy env fw q w) as [k' o] eqn:Ea.
    destruct (apply_policy_outcome env fw q w _ _ Ea) as [Hok _].
    destruct o as [[]| |]; simplify_eq/=; by apply Hok.
  - destruct (apply_policy env fw q w) as [k' o] eqn:Ea. simplify_eq/=.
    destruct (apply_policy_outcome env fw q w _ _ Ea) as [_ [Hi|He]]; [|by left].
    right. by apply installed_keeps.
  - by eapply host_dns_set_ok.
Qed.

Context `{N : Nftables} {NL : NftablesLaws N} {NFL : NetfilterLaws K NF}.
Context {HSL : HostServicesLaws K NF HS}.

(** C1. The kill switch down to packets: from a state that is not disconnected, with a policy in force,
    whatever happens short of a disconnect command, the running kernel accepts outgoing, incoming
    and forwarded packets exactly as some firewall policy of the state machine permits. *)
Theorem linux_kill_switch s st inputs ts m' :
  @protected K linux_view s st -> forallb (fun i => negb (asks_disconnect i)) inputs = true ->
  @exec K linux_platform linux_view (Running s st) inputs ts m' ->
  exists policy, kernel_follows env fw (world (machine_st m')) policy.
Proof.
  intros Hp Hin He. pose proof (linux_platform_laws) as Hlaws.
  assert (@secured K linux_view (machine_st m')) as [q Hq].
  { pose proof (exec_protected _ _ _ _ _ Hp Hin He) as Hm. destruct m'; [apply Hm | done]. }
  exists q. by apply enforced_packets.
Qed.

(** C4. Lockdown mode down to packets: with lockdown mode on and a policy in force, the kernel accepts
    packets exactly as some policy permits, whatever happens (disconnecting and shutting down
    included) until lockdown mode is turned off. *)
Theorem linux_lockdown m inputs ts m' :
  locked (machine_st m) -> @secured K linux_view (machine_st m) ->
  forallb (fun i => negb (lifts_lockdown i)) inputs = true ->
  @exec K linux_platform linux_view m inputs ts m' ->
  exists policy, kernel_follows env fw (world (machine_st m')) policy.
Proof.
  intros Hl Hs Hin He. pose proof (linux_platform_laws) as Hlaws.
  destruct (exec_locked _ _ _ _ Hl Hs Hin He) as [_ [q Hq]].
  exists q. by apply enforced_packets.
Qed.
End linux.
