(* ===== verification/TunnelExamples.v ===== *)
(** * The machine at work

    A concrete host (a kernel that accepts every batch, services that always succeed, one relay) and
    the theorems about the state machine applied to executions on it. *)

From stdpp Require Import base list strings option numbers sets.
From S2P Require Import Prelude NetTypes TunnelTypes FirewallPolicy Nftables FirewallLinux.
From S2P Require Import FirewallSpec FirewallRefine FirewallApply FirewallProps.
From S2P Require Import TunnelStateMachine TunnelWp TunnelHandlers TunnelProps TunnelLiveness.
From S2P Require Import LinuxPlatform.

Definition ex_params : TunnelParameters :=
  {| connection :=
       {| cc_tunnel := {| private_key := "k"; addresses := [V4 (Ipv4Addr_new 10 64 0 2)] |};
          peer := {| public_key := "p"; allowed_ips := [v4 0 0];
                     peer_endpoint := {| sa_ip := V4 (Ipv4Addr_new 185 1 2 3); sa_port := 51820 |};
                     psk := None; constant_packet_size := false |};
          exit_peer := None; cc_ipv4_gateway := Ipv4Addr_new 10 64 0 1; cc_ipv6_gateway := None;
          cc_fwmark := Some 0x6d6f6c65%Z |};
     options := {| mtu := None; quantum_resistant := false; daita := false; userspace := false |};
     generic_options := {| enable_ipv6 := false |};
     obfuscation := None |}.

#[export] Instance host_reference : HostServices RefKernel := {
  host_dns_set i c k := (k, true);
  host_dns_reset k := (k, true);
  host_dns_reset_before_interface_removal k := (k, true);
  host_clear_routes k := (k, true);
  host_clear_routing_rules k := (k, true);
  host_disable_connectivity_check k := (k, Some (Some true));
  host_enable_connectivity_check k := (k, Some true);
  host_generate n a k := (k, Ok ex_params);
  host_spawn_tunnel p n k := (k, 0);
  host_send_close t k := (k, true);
  host_dns_active k i c := True;
}.

#[export] Instance host_reference_laws : HostServicesLaws RefKernel netfilter_reference host_reference.
Proof. by split. Qed.

#[export] Instance ex_platform : TunnelPlatform RefKernel := linux_platform ex_env ex_fw.
#[export] Instance ex_view : TunnelView RefKernel := linux_view ex_env ex_fw.
#[export] Instance ex_laws : TunnelPlatformLaws RefKernel ex_platform ex_view.
Proof. apply (linux_platform_laws ex_env ex_fw). Qed.

Definition ex_api : AllowedEndpoint :=
  {| ae_endpoint := Endpoint_new (V4 (Ipv4Addr_new 45 83 223 196)) 443 Tcp; clients := Root |}.

Definition ex_settings (lockdown : LockdownMode) : InitialTunnelState :=
  {| init_allow_lan := false; init_lockdown_mode := lockdown; init_dns_config := DnsDefault;
     init_allowed_endpoint := ex_api; reset_firewall := true |}.

Definition ex_new (lockdown : LockdownMode) : Machine :=
  TunnelStateMachine_new (ex_settings lockdown) PresumeOnline ex_kernel.

(** Connect, the interface comes up, the tunnel is established. *)
Definition ex_connect : list (Input * bool) :=
  [(InCommand (Some CmdConnect), true);
   (InEvent (Some (EvInterfaceUp ex_tunnel TrafficAll)), true);
   (InEvent (Some (EvUp ex_tunnel)), true)].

Definition run_to (m : Machine) (inputs : list (Input * bool)) : @Machine RefKernel :=
  match run m inputs with Some (m', _) => m' | None => m end.

Definition ex_up (lockdown : LockdownMode) : Machine := run_to (ex_new lockdown) ex_connect.

Definition state_of (m : @Machine RefKernel) : TunnelState :=
  match m with Running s _ => s | Stopped _ => DisconnectedState end.

(** Connecting reports the two transitions of a connection that works. *)
Example ex_connect_transitions :
  (fun r => r.2) <$> run (ex_new LmDisabled) ex_connect
  = Some [TrConnecting (get_tunnel_endpoint ex_params);
          TrConnected {| te_endpoint := te_endpoint (get_tunnel_endpoint ex_params);
                         te_quantum_resistant := false; te_obfuscation := None;
                         entry_endpoint := None; tunnel_interface := Some "wg0"; te_daita := false |}].
Proof. vm_compute. reflexivity. Qed.

Lemma ex_up_running lockdown :
  ex_up lockdown = Running (state_of (ex_up lockdown)) (machine_st (ex_up lockdown)).
Proof. destruct lockdown as [|[]]; vm_compute; reflexivity. Qed.

(** The connected policy is in force: it is what the last step installed. *)
Lemma ex_up_enforces lockdown :
  linux_enforces ex_env ex_fw (world (machine_st (ex_up lockdown)))
    (Connected [{| ae_endpoint := Endpoint_new (V4 (Ipv4Addr_new 185 1 2 3)) 51820 Udp;
                   clients := Root |}] ex_tunnel false
       {| tunnel_config := [V4 (Ipv4Addr_new 10 64 0 1)]; non_tunnel_config := [] |}).
Proof.
  exists ex_kernel. eexists. split; [reflexivity|]. destruct lockdown as [|[]]; vm_compute; reflexivity.
Qed.

Lemma ex_up_protected lockdown :
  protected (state_of (ex_up lockdown)) (machine_st (ex_up lockdown)).
Proof.
  split_and!; [by destruct lockdown as [|[]]; vm_compute ..|]. eexists. apply ex_up_enforces.
Qed.

(** The tunnel goes down, the relay is lost, the host is offline for a while, everything is retried. *)
Definition ex_trouble : list (Input * bool) :=
  [(InEvent (Some EvDown), true); (InCommand (Some (CmdConnectivity Offline)), true);
   (InClose (Some None), true); (InCommand (Some (CmdAllowLan true 1)), true);
   (InCommand (Some (CmdConnectivity (Online AvailIpv4))), true)].

Definition ex_after (lockdown : LockdownMode) (inputs : list (Input * bool)) : Machine :=
  run_to (ex_up lockdown) inputs.

Definition ex_transitions (lockdown : LockdownMode) (inputs : list (Input * bool))
  : list TunnelStateTransition :=
  match run (ex_up lockdown) inputs with Some (_, ts) => ts | None => [] end.

Lemma ex_exec lockdown inputs :
  is_Some (run (ex_up lockdown) inputs) ->
  exec (Running (state_of (ex_up lockdown)) (machine_st (ex_up lockdown))) (map fst inputs)
    (ex_transitions lockdown inputs) (ex_after lockdown inputs).
Proof.
  rewrite <- ex_up_running. intros [[m' ts] E]. unfold ex_transitions, ex_after, run_to.
  rewrite E. by apply run_exec.
Qed.

Lemma ex_trouble_runs lockdown : is_Some (run (ex_up lockdown) ex_trouble).
Proof. destruct lockdown as [|[]]; vm_compute; eauto. Qed.

(** ** The theorems at these executions *)
Lemma kill_switch_witness :
  (forall b, TrDisconnected b ∉ ex_transitions LmDisabled ex_trouble)
  /\ secured (machine_st (ex_after LmDisabled ex_trouble)).
Proof.
  destruct (kill_switch _ _ (map fst ex_trouble) _ _ (ex_up_protected LmDisabled) eq_refl
    (ex_exec LmDisabled ex_trouble (ex_trouble_runs LmDisabled))) as [Hts Hm].
  split; [exact Hts|]. destruct (ex_after LmDisabled ex_trouble); [by destruct Hm as (_ & _ & ?) | exact Hm].
Defined.

Lemma linux_kill_switch_witness :
  exists policy, kernel_follows ex_env ex_fw (world (machine_st (ex_after LmDisabled ex_trouble))) policy.
Proof.
  exact (linux_kill_switch ex_env ex_fw _ _ (map fst ex_trouble) _ _ (ex_up_protected LmDisabled) eq_refl
    (ex_exec LmDisabled ex_trouble (ex_trouble_runs LmDisabled))).
Defined.

(** With lockdown mode on: disconnect, the tunnel closes, the daemon goes away. *)
Definition ex_leave : list (Input * bool) :=
  [(InCommand (Some CmdDisconnect), true); (InClose (Some None), true); (InCommand None, true)].

Lemma ex_leave_runs lockdown : is_Some (run (ex_up lockdown) ex_leave).
Proof. destruct lockdown as [|[]]; vm_compute; eauto. Qed.

Definition ex_locked_machine : @Machine RefKernel :=
  Running (state_of (ex_up (LmEnabled true))) (machine_st (ex_up (LmEnabled true))).

Lemma ex_locked : locked (machine_st ex_locked_machine).
Proof. vm_compute. reflexivity. Qed.

Lemma machine_st_running s (st : St RefKernel) : machine_st (Running s st) = st.
Proof. reflexivity. Qed.

Lemma ex_locked_secured : secured (machine_st ex_locked_machine).
Proof.
  unfold ex_locked_machine. rewrite machine_st_running. eexists. exact (ex_up_enforces (LmEnabled true)).
Qed.

Lemma linux_lockdown_witness :
  exists policy,
    kernel_follows ex_env ex_fw (world (machine_st (ex_after (LmEnabled true) ex_leave))) policy.
Proof.
  exact (linux_lockdown ex_env ex_fw ex_locked_machine (map fst ex_leave) _ _ ex_locked ex_locked_secured
    eq_refl (ex_exec (LmEnabled true) ex_leave (ex_leave_runs (LmEnabled true)))).
Defined.

Definition ex_error_state : option (St RefKernel * EventConsequence) :=
  handle_event (state_of (ex_up LmDisabled)) (InClose (Some (Some StartTunnelError)))
    (machine_st (ex_up LmDisabled)).

Definition ex_error_st : St RefKernel := (default (machine_st (ex_up LmDisabled), Finished) ex_error_state).1.

Definition ex_error_info : ErrorStateInfo := {| cause := StartTunnelError; block_failure := None |}.

Lemma ex_error_state_eq :
  handle_event (state_of (ex_up LmDisabled)) (InClose (Some (Some StartTunnelError)))
    (machine_st (ex_up LmDisabled))
  = Some (ex_error_st, NewState (ErrorState StartTunnelError) (TrError ex_error_info)).
Proof. vm_compute. reflexivity. Qed.

Lemma transitions_truthful_witness :
  enforces (world ex_error_st) (Blocked false (Some ex_api)).
Proof.
  destruct (transitions_truthful _ _ _ _ _ _ ex_error_state_eq) as [_ H]. exact (H eq_refl).
Defined.

Lemma refines_state_diagram_witness : abstract_step KConnected (Some KError) (Some KError).
Proof. exact (refines_state_diagram _ _ _ _ _ ex_error_state_eq). Defined.

(** Settings change while connected. *)
Definition ex_change : list (Input * bool) :=
  [(InCommand (Some (CmdAllowLan true 1)), true);
   (InCommand (Some (CmdDns (DnsOverride [V4 (Ipv4Addr_new 10 64 0 9)] []) 2)), true)].

Lemma ex_change_runs lockdown : is_Some (run (ex_up lockdown) ex_change).
Proof. destruct lockdown as [|[]]; vm_compute; eauto. Qed.

Lemma policy_follows_settings_witness :
  enforces (world (machine_st (ex_after LmDisabled ex_change)))
    (Connected [{| ae_endpoint := Endpoint_new (V4 (Ipv4Addr_new 185 1 2 3)) 51820 Udp;
                   clients := Root |}] ex_tunnel true
       {| tunnel_config := [V4 (Ipv4Addr_new 10 64 0 9)]; non_tunnel_config := [] |}).
Proof.
  assert (settled (state_of (ex_up LmDisabled)) (machine_st (ex_up LmDisabled))) as Hs
    by exact (ex_up_enforces LmDisabled).
  pose proof (policy_follows_settings _ _ _ _ _ Hs
    (ex_exec LmDisabled ex_change (ex_change_runs LmDisabled))) as H.
  destruct (ex_after LmDisabled ex_change) as [s st|st] eqn:E; vm_compute in E; [|discriminate E].
  injection E as <- <-. exact H.
Defined.

Lemma no_tunnel_while_offline_witness :
  has_tunnel (state_of (ex_after LmDisabled (take 4 ex_trouble))) = false.
Proof.
  assert (is_Some (run (ex_up LmDisabled) (take 4 ex_trouble))) as Hr by (vm_compute; eauto).
  assert (online_tunnel (state_of (ex_up LmDisabled)) (machine_st (ex_up LmDisabled))) as Ho
    by (intros _; vm_compute; reflexivity).
  pose proof (no_tunnel_while_offline _ _ _ _ _ Ho (ex_exec LmDisabled _ Hr)) as H.
  destruct (ex_after LmDisabled (take 4 ex_trouble)) as [s st|st] eqn:E; [|reflexivity].
  simpl. destruct (has_tunnel s) eqn:Et; [|reflexivity]. specialize (H Et).
  vm_compute in E. injection E as <- <-. vm_compute in H. discriminate H.
Defined.

(** The command channel ends while connected. *)
Definition ex_closed : St RefKernel :=
  machine_st (ex_after LmDisabled [(InCommand None, true)]).

Definition ex_closed_state : TunnelState := state_of (ex_after LmDisabled [(InCommand None, true)]).

Lemma channel_end_winds_down_witness : winding_down ex_closed_state.
Proof.
  assert (handle_event (state_of (ex_up LmDisabled)) (InCommand None) (machine_st (ex_up LmDisabled))
    = Some (ex_closed, NewState ex_closed_state (TrDisconnecting ActionNothing))) as E
    by (vm_compute; reflexivity).
  assert (live (state_of (ex_up LmDisabled))) as Hl by (vm_compute; reflexivity).
  assert (commands_done (machine_st (ex_up LmDisabled)) = false) as Hd by (vm_compute; reflexivity).
  destruct (channel_end_winds_down _ _ _ _ Hl Hd E) as [_ H].
  exact H.
Defined.


Lemma commands_acknowledged_witness :
  replies (machine_st (ex_after LmDisabled [(InCommand (Some (CmdAllowLan true 1)), true)])) = [1].
Proof.
  assert (handle_event (state_of (ex_up LmDisabled)) (InCommand (Some (CmdAllowLan true 1)))
      (machine_st (ex_up LmDisabled))
    = Some (machine_st (ex_after LmDisabled [(InCommand (Some (CmdAllowLan true 1)), true)]),
            SameState (state_of (ex_up LmDisabled)))) as E by (vm_compute; reflexivity).
  destruct (commands_acknowledged _ (CmdAllowLan true 1) 1 _ _ _ eq_refl E) as [H | (c & servers & e & t & _ & H & _)].
  - rewrite H. vm_compute. reflexivity.
  - discriminate H.
Defined.

(** A connecting machine whose tunnel ends three times. *)
Definition ex_connecting : Machine := run_to (ex_new LmDisabled) [(InCommand (Some CmdConnect), true)].

Definition ex_connecting_data : ConnectingData :=
  {| ct_parameters := ex_params; ct_metadata := None; ct_traffic := TrafficNone;
     ct_tunnel := {| tunnel_id := 0; close_terminated := false |}; retry_attempt := 0 |}.

Lemma retry_counter_witness :
  match run_to ex_connecting (replicate 3 (InClose (Some None), true)) with
  | Running (ConnectingState c) _ => retry_attempt c = 3%Z
  | _ => False
  end.
Proof.
  assert (ex_connecting = Running (ConnectingState ex_connecting_data) (machine_st ex_connecting)) as Ec
    by (vm_compute; reflexivity).
  rewrite Ec. unfold run_to.
  destruct (run (Running (ConnectingState ex_connecting_data) (machine_st ex_connecting))
    (replicate 3 (InClose (Some None), true))) as [[m' ts]|] eqn:E; [|vm_compute in E; discriminate E].
  assert (is_u32 (retry_attempt ex_connecting_data)) as Hu by (unfold is_u32; simpl; lia).
  pose proof (retry_counter 3 ex_connecting_data _ _ _ Hu E) as H.
  vm_compute in E. injection E as <- _. vm_compute. reflexivity.
Defined.

Lemma connectivity_check_handed_back_witness :
  connectivity_check_was_enabled
    (sv (machine_st (ex_after (LmEnabled true) (take 2 ex_leave)))) = None.
Proof.
  assert (handle_event (state_of (ex_after (LmEnabled true) (take 1 ex_leave))) (InClose (Some None))
      (machine_st (ex_after (LmEnabled true) (take 1 ex_leave)))
    = Some (machine_st (ex_after (LmEnabled true) (take 2 ex_leave)),
            NewState DisconnectedState (TrDisconnected true))) as E by (vm_compute; reflexivity).
  assert (state_of (ex_after (LmEnabled true) (take 1 ex_leave)) <> DisconnectedState) as Hs
    by (vm_compute; discriminate).
  exact (connectivity_check_handed_back _ _ _ _ _ Hs E).
Defined.

(** ** A kernel that refuses every batch *)
Definition failing_platform : TunnelPlatform RefKernel := {|
  fw_apply_policy q k := (k, Err NetlinkOpenError);
  fw_reset_policy k := (k, Err NetlinkOpenError);
  dns_set := host_dns_set;
  dns_reset := host_dns_reset;
  dns_reset_before_interface_removal := host_dns_reset_before_interface_removal;
  clear_routes := host_clear_routes;
  clear_routing_rules := host_clear_routing_rules;
  nm_disable_connectivity_check := host_disable_connectivity_check;
  nm_enable_connectivity_check := host_enable_connectivity_check;
  generate := host_generate;
  spawn_tunnel := host_spawn_tunnel;
  send_close := host_send_close;
|}.

(** Lockdown mode switched on while the firewall cannot be changed: the failure is only logged, and
    the machine reports that it is locked down although no rules are in force. *)
Theorem locked_down_without_rules :
  match @run _ failing_platform
          (@TunnelStateMachine_new _ failing_platform (ex_settings LmDisabled) PresumeOnline ex_kernel)
          [(InCommand (Some (CmdLockdownMode (LmEnabled true) 1)), true)] with
  | Some (m, ts) => ts = [TrDisconnected true] /\ installed (world (machine_st m)) = None
  | None => False
  end.
Proof. vm_compute. auto. Qed.
