(* ===== verification/Masque.v ===== *)
(** * Carrying UDP packets over QUIC datagrams

    [src/mullvad-masque-proxy/src/]: the fragments of a packet that does not fit in one datagram
    ([fragment.rs]), the tasks of the client that send packets to the proxy and hand received ones
    back ([client/mod.rs]), and the tasks of the proxy ([server/mod.rs]).

    A byte is a [Z].  The encodings of the [h3] crate (variable length integers) and of the [bytes]
    crate (big endian integers) are the class [Wire], with the round trips their documentation promises
    as its laws. *)

From stdpp Require Import base list gmap option numbers sets sorting.
From S2P Require Import Prelude.

Definition bytes : Type := list Z.

Class Wire : Type := {
  (** [VarInt::decode]: the value, or [None] when the input ends early, and the rest of the input. *)
  varint_decode : bytes -> option Z * bytes;
  varint_encode : Z -> bytes;
  put_u8 : Z -> bytes;
  put_u16 : Z -> bytes;
  (** [try_get_u8] and [try_get_u16]. *)
  try_get_u8 : bytes -> option (Z * bytes);
  try_get_u16 : bytes -> option (Z * bytes);
}.

Definition is_u8 (z : Z) : Prop := (0 <= z < 2 ^ 8)%Z.
Definition is_u16 (z : Z) : Prop := (0 <= z < 2 ^ 16)%Z.
Definition u16_sub (a b : Z) : Z := ((a - b) mod 2 ^ 16)%Z.
Definition as_u16 (a : Z) : Z := (a mod 2 ^ 16)%Z.

Class WireLaws (W : Wire) : Prop := {
  varint_round_trip v rest :
    (0 <= v < 2 ^ 62)%Z -> varint_decode (varint_encode v ++ rest) = (Some v, rest);
  varint_small v : (0 <= v < 2 ^ 6)%Z -> length (varint_encode v) = 1;
  u8_round_trip v rest : is_u8 v -> try_get_u8 (put_u8 v ++ rest) = Some (v, rest);
  u8_length v : is_u8 v -> length (put_u8 v) = 1;
  u16_round_trip v rest : is_u16 v -> try_get_u16 (put_u16 v ++ rest) = Some (v, rest);
  u16_length v : is_u16 v -> length (put_u16 v) = 2;
}.

Definition HTTP_MASQUE_DATAGRAM_CONTEXT_ID : Z := 0.
Definition HTTP_MASQUE_FRAGMENTED_DATAGRAM_CONTEXT_ID : Z := 1.
Definition FRAGMENT_HEADER_SIZE_FRAGMENTED : Z := 5.
Definition UDP_HEADER_SIZE : Z := 8.
Definition QUIC_HEADER_SIZE : Z := 41.
Definition MIN_MAX_UDP_PAYLOAD_SIZE : Z := 1200.
Definition FRAGMENT_INDEX_START : Z := 1.
Definition FRAGMENT_BUFFER_CAP : nat := 255.

(** [u16] arithmetic wraps. *)
Definition compute_udp_payload_size (mtu : Z) (is_ipv4 : bool) : Z :=
  let ip_overhead := if is_ipv4 then 20%Z else 40%Z in
  let desired_max := u16_sub (u16_sub mtu ip_overhead) UDP_HEADER_SIZE in
  if (desired_max <? MIN_MAX_UDP_PAYLOAD_SIZE)%Z then MIN_MAX_UDP_PAYLOAD_SIZE else desired_max.

(** ** Reassembly *)
Record Fragment : Type := { index : Z; payload : bytes }.

Record Fragments : Type := {
  fragment_index_fifo : list Z;
  fragment_map : gmap Z (list Fragment);
}.

Definition Fragments_default : Fragments := {| fragment_index_fifo := []; fragment_map := ∅ |}.

Inductive DefragError : Type :=
| BadContextId (decoded : option Z)
| PayloadTooSmall
| TooFewFragments
| DuplicateFragment.

Inductive DefragReceived : Type :=
| Nonfragmented (b : bytes)
| ReceivedFragment
| Reassembled (b : bytes).

(** The standard library's [binary_search_by_key] on the indices: the loop halves [size] until it is
    one.  [inl] is [Ok], the position of the key; [inr] is [Err], where to insert it. *)
Fixpoint search_base (fuel : nat) (key : Z) (l : list Z) (base size : nat) : nat :=
  match fuel with
  | 0 => base
  | S fuel =>
      if size <=? 1 then base
      else let half := Nat.div2 size in
           let mid := base + half in
           let base := match l !! mid with
                       | Some k => if (key <? k)%Z then base else mid
                       | None => base
                       end in
           search_base fuel key l base (size - half)
  end.

Definition binary_search (key : Z) (l : list Z) : nat + nat :=
  let base := search_base (length l) key l 0 (length l) in
  match l !! base with
  | None => inr 0
  | Some k => if (k =? key)%Z then inl base else inr (base + if (k <? key)%Z then 1 else 0)
  end.

Section wire.
Context `{W : Wire}.

(** The header of a datagram, and what follows it. *)
Inductive Datagram : Type :=
| Whole (b : bytes)
| Piece (id : Z) (fragment_count : Z) (fragment : Fragment).

Definition decode_datagram (b : bytes) : result Datagram DefragError :=
  match varint_decode b with
  | (Some context_id, b) =>
      if (context_id =? HTTP_MASQUE_DATAGRAM_CONTEXT_ID)%Z then Ok (Whole b)
      else if (context_id =? HTTP_MASQUE_FRAGMENTED_DATAGRAM_CONTEXT_ID)%Z then
        match try_get_u16 b with
        | None => Err PayloadTooSmall
        | Some (id, b) =>
            match try_get_u8 b with
            | None => Err PayloadTooSmall
            | Some (idx, b) =>
                match try_get_u8 b with
                | None => Err PayloadTooSmall
                | Some (fragment_count, b) =>
                    if (fragment_count <? 2)%Z then Err TooFewFragments
                    else Ok (Piece id fragment_count {| index := idx; payload := b |})
                end
            end
        end
      else Err (BadContextId (Some context_id))
  | (None, _) => Err (BadContextId None)
  end.

(** Make room in the queue, forgetting the fragments of the packet whose turn it is, and enqueue. *)
Definition enqueue (id : Z) (f : Fragments) : Fragments :=
  let f :=
    if FRAGMENT_BUFFER_CAP <=? length (fragment_index_fifo f) then
      match fragment_index_fifo f with
      | old :: fifo =>
          {| fragment_index_fifo := fifo; fragment_map := delete old (fragment_map f) |}
      | [] => f
      end
    else f in
  {| fragment_index_fifo := fragment_index_fifo f ++ [id]; fragment_map := fragment_map f |}.

Definition insert_at (n : nat) (x : Fragment) (l : list Fragment) : list Fragment :=
  take n l ++ x :: drop n l.

Definition add_fragment (id fragment_count : Z) (fragment : Fragment) (f : Fragments)
  : Fragments * result DefragReceived DefragError :=
  let f := enqueue id f in
  let set m := {| fragment_index_fifo := fragment_index_fifo f; fragment_map := m |} in
  match fragment_map f !! id with
  | None => (set (<[id := [fragment]]> (fragment_map f)), Ok ReceivedFragment)
  | Some fragments =>
      match binary_search (index fragment) (map index fragments) with
      | inl _ => (f, Err DuplicateFragment)
      | inr insert_here =>
          let fragments := insert_at insert_here fragment fragments in
          if negb (Z.of_nat (length fragments) =? fragment_count)%Z
          then (set (<[id := fragments]> (fragment_map f)), Ok ReceivedFragment)
          else (set (delete id (fragment_map f)), Ok (Reassembled (concat (map payload fragments))))
      end
  end.

Definition handle_incoming_packet (b : bytes) (f : Fragments)
  : Fragments * result DefragReceived DefragError :=
  match decode_datagram b with
  | Err e => (f, Err e)
  | Ok (Whole b) => (f, Ok (Nonfragmented b))
  | Ok (Piece id fragment_count fragment) => add_fragment id fragment_count fragment f
  end.

(** ** Fragmentation *)
(** [slice::chunks], for a positive size. *)
Fixpoint chunks_from (fuel size : nat) (l : bytes) : list bytes :=
  match fuel with
  | 0 => []
  | S fuel => match l with [] => [] | _ => take size l :: chunks_from fuel size (drop size l) end
  end.

Definition chunks (size : nat) (l : bytes) : list bytes := chunks_from (length l) size l.

Definition encode_fragment (packet_id fragment_count : Z) (fragment_index : nat) (b : bytes) : bytes :=
  varint_encode HTTP_MASQUE_FRAGMENTED_DATAGRAM_CONTEXT_ID
  ++ put_u16 packet_id
  ++ put_u8 (Z.of_nat fragment_index + FRAGMENT_INDEX_START)
  ++ put_u8 fragment_count
  ++ b.

Inductive Fragmented : Type :=
| FragmentsOf (fragments : list bytes)
| PacketTooLarge (size : nat)
| ChunkSizeZero (* [chunks] panics *).

Definition fragment_packet (maximum_packet_size : Z) (b : bytes) (packet_id : Z) : Fragmented :=
  let fragment_payload_size :=
    Z.to_nat (u16_sub maximum_packet_size FRAGMENT_HEADER_SIZE_FRAGMENTED) in
  if fragment_payload_size =? 0 then ChunkSizeZero
  else
    let cs := chunks fragment_payload_size b in
    let num_fragments := length cs in
    if num_fragments <=? 255 then
      FragmentsOf (imap (encode_fragment packet_id (Z.of_nat num_fragments)) cs)
    else PacketTooLarge (length b).

(** ** The tasks of the client *)
Definition maximum_packet_size (max_datagram_size : option Z) (max_udp_payload_size stream_id_size : Z)
  : Z :=
  match max_datagram_size with
  | Some max_datagram_size => u16_sub (as_u16 max_datagram_size) stream_id_size
  | None => u16_sub (u16_sub max_udp_payload_size QUIC_HEADER_SIZE) stream_id_size
  end.

Inductive SendOutcome : Type :=
| Sent (fragment_id : Z)
| SendDatagramError
| TooLargeError
| SendPanicked.

(** One packet in the loop of [server_socket_task], with the datagrams that went out; [accepts] of
    its calls of [send_datagram] succeed before one fails. *)
Definition server_socket_send (maximum_packet_size fragment_id : Z) (accepts : nat) (packet : bytes)
  : list bytes * SendOutcome :=
  if (Z.of_nat (length packet) <=? maximum_packet_size)%Z then
    match accepts with 0 => ([], SendDatagramError) | _ => ([packet], Sent fragment_id) end
  else
    let packet := (varint_decode packet).2 in
    match fragment_packet maximum_packet_size packet fragment_id with
    | ChunkSizeZero => ([], SendPanicked)
    | PacketTooLarge _ => ([], TooLargeError)
    | FragmentsOf fragments =>
        if length fragments <=? accepts then (fragments, Sent (as_u16 (fragment_id + 1)))
        else (take accepts fragments, SendDatagramError)
    end.

(** What [recv] in [client_socket_rx_task] makes of a packet of the client: the context identifier
    goes in front. *)
Definition client_packet (p : bytes) : bytes := varint_encode HTTP_MASQUE_DATAGRAM_CONTEXT_ID ++ p.

(** ** The tasks of the proxy *)
(** The loop of [proxy_tx_task]: the packets sent on the UDP socket. *)
Fixpoint proxy_tx_task (ds : list bytes) (f : Fragments) : Fragments * list bytes :=
  match ds with
  | [] => (f, [])
  | d :: ds =>
      let '(f, r) := handle_incoming_packet d f in
      let '(f', ps) := proxy_tx_task ds f in
      (f', match r with Ok (Reassembled p) | Ok (Nonfragmented p) => p :: ps | _ => ps end)
  end.

Record ProxyRx : Type := { proxy_recv_buf : bytes; rx_fragment_id : Z }.

Inductive RecvResult : Type :=
| RecvError
| RecvFrom (packet : bytes) (from_target : bool).

Inductive ProxyRxOutcome : Type :=
| RxContinue (s : ProxyRx)
| RxBreak
| RxPanicked.

(** One iteration of [proxy_rx_task], with the datagrams handed to the connection; [accepts] of its
    sends succeed before the channel is found closed. *)
Definition proxy_rx_step (maximum_packet_size : Z) (accepts : nat) (r : RecvResult) (s : ProxyRx)
  : list bytes * ProxyRxOutcome :=
  let buf := proxy_recv_buf s ++ varint_encode HTTP_MASQUE_DATAGRAM_CONTEXT_ID in
  match r with
  | RecvError =>
      ([], RxContinue {| proxy_recv_buf := buf; rx_fragment_id := rx_fragment_id s |})
  | RecvFrom packet false =>
      ([], RxContinue {| proxy_recv_buf := buf ++ packet; rx_fragment_id := rx_fragment_id s |})
  | RecvFrom packet true =>
      let received_packet := buf ++ packet in
      if (Z.of_nat (length received_packet) <? maximum_packet_size)%Z then
        match accepts with
        | 0 => ([], RxBreak)
        | _ => ([received_packet],
                RxContinue {| proxy_recv_buf := []; rx_fragment_id := rx_fragment_id s |})
        end
      else
        let received_packet := (varint_decode received_packet).2 in
        match fragment_packet maximum_packet_size received_packet (rx_fragment_id s) with
        | ChunkSizeZero => ([], RxPanicked)
        | PacketTooLarge _ =>
            ([], RxContinue {| proxy_recv_buf := []; rx_fragment_id := rx_fragment_id s |})
        | FragmentsOf fragments =>
            (take accepts fragments,
             RxContinue {| proxy_recv_buf := [];
                           rx_fragment_id := as_u16 (rx_fragment_id s + 1) |})
        end
  end.

(** The loop of [fragment_reassembly_task], while the receiver of its packets exists: every datagram
    comes with its stream and with the return address known at that time; the packets are handed to
    the task that sends them to the client.  The statistics are left out. *)
Fixpoint fragment_reassembly_task {A} (stream_id : Z) (rs : list (Z * A * bytes)) (f : Fragments)
  : Fragments * list (A * bytes) :=
  match rs with
  | [] => (f, [])
  | (s, return_addr, b) :: rs =>
      if negb (s =? stream_id)%Z then fragment_reassembly_task stream_id rs f
      else
        let '(f, r) := handle_incoming_packet b f in
        let '(f', ps) := fragment_reassembly_task stream_id rs f in
        (f', match r with
             | Ok (Nonfragmented p) | Ok (Reassembled p) => (return_addr, p) :: ps
             | _ => ps
             end)
  end.
End wire.
