(* ===== verification/MasqueProps.v ===== *)
(** * Packets arrive as they were sent

    The theorems about [Masque]: a packet that was fragmented is reassembled whatever the order of its
    fragments and whatever arrives between them, as long as the queue does not overflow; the buffer is
    bounded; fragments respect the size of a datagram. *)

From stdpp Require Import base list gmap option numbers sets sorting.
From S2P Require Import Prelude Masque.

(** ** Sorted fragment lists and binary search *)
Definition before (a b : Fragment) : Prop := (index a < index b)%Z.
Definition ascending (fs : list Fragment) : Prop := StronglySorted before fs.

Lemma ascending_lookup fs i j a b :
  ascending fs -> fs !! i = Some a -> fs !! j = Some b -> i < j -> before a b.
Proof.
  intros Hs Ha Hb Hij. rewrite <- (take_drop j fs) in Hs.
  eapply StronglySorted_app_1_elem_of; [done| |].
  - apply list_elem_of_lookup. exists i. rewrite lookup_take. by case_decide; [|lia].
  - apply list_elem_of_lookup. exists 0. by rewrite lookup_drop, Nat.add_0_r.
Qed.

Lemma search_base_spec fuel key fs base size :
  ascending fs -> size <= fuel -> 1 <= size -> base + size <= length fs ->
  (forall x, base <> 0 -> fs !! base = Some x -> (index x <= key)%Z) ->
  (forall j x, base + size <= j -> fs !! j = Some x -> (key < index x)%Z) ->
  let b := search_base fuel key (map index fs) base size in
  b < length fs /\ (forall x, b <> 0 -> fs !! b = Some x -> (index x <= key)%Z)
  /\ (forall j x, b < j -> fs !! j = Some x -> (key < index x)%Z).
Proof.
  intros Hs. revert base size. induction fuel as [|fuel IH]; intros base size Hf H1 Hl Hlo Hhi; [lia|].
  simpl. destruct (Nat.leb_spec size 1).
  { split_and!; [lia | done|]. intros. eapply Hhi; [|done]. lia. }
  assert (1 <= Nat.div2 size /\ Nat.div2 size * 2 <= size) as Hd.
  { rewrite Nat.div2_div. split; [apply Nat.div_le_lower_bound; lia|].
    rewrite Nat.mul_comm. apply Nat.Div0.mul_div_le. }
  change (map index fs) with (index <$> fs). rewrite list_lookup_fmap.
  destruct (lookup_lt_is_Some_2 fs (base + Nat.div2 size)) as [y Hy]; [lia|].
  rewrite Hy. simpl. destruct (Z.ltb_spec key (index y)).
  - apply IH; [lia..| done |]. intros j x Hj Hx.
    destruct (decide (j = base + Nat.div2 size)) as [->|]; [by simplify_eq|].
    assert (before y x) as Hb by (eapply ascending_lookup; [done..|lia]). unfold before in Hb. lia.
  - apply IH; [lia..| |]; intros; simplify_eq; [lia|]. eapply Hhi; [|done]. lia.
Qed.

Lemma binary_search_spec key fs :
  ascending fs ->
  match binary_search key (map index fs) with
  | inl i => exists x, fs !! i = Some x /\ index x = key
  | inr i => (forall x, x ∈ take i fs -> (index x < key)%Z)
             /\ (forall x, x ∈ drop i fs -> (key < index x)%Z)
  end.
Proof.
  intros Hs. unfold binary_search. destruct fs as [|z fs']; [simpl; split; set_solver|].
  set (fs := z :: fs') in *. rewrite length_map.
  destruct (search_base_spec (length fs) key fs 0 (length fs)) as (Hb&Hlo&Hhi); try done; try lia.
  { simpl. lia. } { intros j x Hj Hx%lookup_lt_Some. lia. }
  set (b := search_base _ _ _ _ _) in *. clearbody b. change (map index fs) with (index <$> fs).
  rewrite list_lookup_fmap. destruct (lookup_lt_is_Some_2 fs b Hb) as [y Hy]. rewrite Hy. simpl.
  destruct (Z.eqb_spec (index y) key); [by eauto|].
  assert (forall j x, j < b -> fs !! j = Some x -> (index x < index y)%Z) as Hlt
    by (intros j x ??; by eapply (ascending_lookup fs j b)).
  destruct (Z.ltb_spec (index y) key); split; intros x (j&Hj)%list_elem_of_lookup.
  - rewrite lookup_take in Hj. case_decide; [|done].
    destruct (decide (j = b)) as [->|]; [by simplify_eq|]. transitivity (index y); [apply (Hlt j); [lia | done] | done].
  - rewrite lookup_drop in Hj. eapply Hhi; [|done]. lia.
  - rewrite lookup_take in Hj. case_decide; [|done].
    assert (b <> 0 -> (index y <= key)%Z) as Hy' by (intros; by apply Hlo).
    specialize (Hlt j x ltac:(lia) Hj). lia.
  - rewrite lookup_drop in Hj. destruct (decide (b + 0 + j = b)) as [E|].
    + assert (x = y) as -> by (rewrite E in Hj; by simplify_eq). lia.
    + eapply Hhi; [|done]. lia.
Qed.

Lemma insert_at_perm i x fs : insert_at i x fs ≡ₚ (x :: fs).
Proof. unfold insert_at. rewrite <- Permutation_middle. by rewrite take_drop. Qed.

Lemma binary_search_new x fs :
  ascending fs -> index x ∉ map index fs ->
  exists i, binary_search (index x) (map index fs) = inr i /\ ascending (insert_at i x fs).
Proof.
  intros Hs Hn. pose proof (binary_search_spec (index x) fs Hs) as Hb.
  destruct (binary_search (index x) (map index fs)) as [i|i].
  - destruct Hb as (y & Hy & E). destruct Hn. rewrite <- E. apply list_elem_of_fmap_2.
    by eapply list_elem_of_lookup_2.
  - exists i. split; [done|]. destruct Hb as [Hl Hr]. unfold insert_at, ascending.
    rewrite <- (take_drop i fs) in Hs. apply StronglySorted_app in Hs as (Hlr&Hsl&Hsr).
    apply StronglySorted_app. split_and!; [|done|].
    + intros a b Ha [->|Hb]%elem_of_cons; [by apply Hl | by apply Hlr].
    + apply StronglySorted_cons. split; [|done]. apply Forall_forall. exact Hr.
Qed.

(** Two orders of the same fragments that ascend are the same. *)
Lemma ascending_unique fs gs : ascending fs -> ascending gs -> fs ≡ₚ gs -> fs = gs.
Proof.
  intros. assert (AntiSymm (=) before) by (intros a b ??; unfold before in *; lia).
  by apply (StronglySorted_unique before).
Qed.

(** ** Chunks *)
Lemma chunks_from_concat fuel size l :
  0 < size -> length l <= fuel -> concat (chunks_from fuel size l) = l.
Proof.
  intros Hs. revert l. induction fuel as [|fuel IH]; intros [|x l] Hl; simpl in *; try done; [lia|].
  destruct size as [|size]; [lia|]. rewrite IH.
  - apply take_drop.
  - rewrite skipn_cons, length_drop. lia.
Qed.

Lemma chunks_from_sizes fuel size l :
  0 < size -> Forall (fun c => 1 <= length c <= size) (chunks_from fuel size l).
Proof.
  intros Hs. revert l. induction fuel as [|fuel IH]; intros [|x l]; simpl; try by constructor.
  constructor; [|done]. rewrite length_take. simpl. lia.
Qed.

Lemma chunks_from_count fuel size l c :
  0 < size -> length l <= fuel -> length (chunks_from fuel size l) <= c <-> length l <= c * size.
Proof.
  intros Hs. revert l c. induction fuel as [|fuel IH]; intros [|x l] c Hl; simpl in *; try lia.
  destruct c as [|c]; [simpl; lia|]. rewrite <- Nat.succ_le_mono, IH by (rewrite length_drop; simpl; lia).
  rewrite length_drop. simpl. lia.
Qed.

Section wire_props.
Context `{W : Wire} {L : WireLaws W}.

(** ** What a fragment decodes to *)
Definition piece (packet_id n : Z) (i : nat) (b : bytes) : Datagram :=
  Piece packet_id n {| index := Z.of_nat i + FRAGMENT_INDEX_START; payload := b |}.

Lemma decode_encoded id n i b :
  is_u16 id -> (2 <= n < 256)%Z -> i < 255 ->
  decode_datagram (encode_fragment id n i b) = Ok (piece id n i b).
Proof.
  intros Hid Hn Hi. unfold decode_datagram, encode_fragment, FRAGMENT_INDEX_START, piece.
  rewrite varint_round_trip by (unfold HTTP_MASQUE_FRAGMENTED_DATAGRAM_CONTEXT_ID; lia). simpl.
  rewrite u16_round_trip by done.
  rewrite u8_round_trip by (unfold is_u8; lia). rewrite u8_round_trip by (unfold is_u8; lia).
  by destruct (Z.ltb_spec n 2); [lia|].
Qed.

Lemma decode_whole p :
  decode_datagram (client_packet p) = Ok (Whole p).
Proof.
  unfold decode_datagram, client_packet.
  by rewrite varint_round_trip by (unfold HTTP_MASQUE_DATAGRAM_CONTEXT_ID; lia).
Qed.

Lemma encode_fragment_length id n i b :
  is_u16 id -> is_u8 n -> i < 255 -> length (encode_fragment id n i b) = 5 + length b.
Proof.
  intros. unfold encode_fragment, FRAGMENT_INDEX_START. rewrite !length_app.
  rewrite varint_small by (unfold HTTP_MASQUE_FRAGMENTED_DATAGRAM_CONTEXT_ID; lia).
  rewrite u16_length by done. rewrite !u8_length by (done || (unfold is_u8; lia)). lia.
Qed.
End wire_props.

(** ** Reassembling one packet among others *)
(** The fragments [got] of packet [id] are buffered; at most [k] fragments, of any packet, were
    enqueued since the first of them. *)
Definition collecting (id : Z) (k : nat) (got : list Fragment) (f : Fragments) : Prop :=
  match got with
  | [] => (id ∉ fragment_index_fifo f) /\ fragment_map f !! id = None
  | _ => exists pre post fs, fragment_index_fifo f = pre ++ id :: post /\ (id ∉ pre)
      /\ length post < k /\ fragment_map f !! id = Some fs /\ ascending fs /\ fs ≡ₚ got
  end.

Lemma enqueue_cases id f :
  (length (fragment_index_fifo f) < FRAGMENT_BUFFER_CAP
   /\ enqueue id f = {| fragment_index_fifo := fragment_index_fifo f ++ [id];
                        fragment_map := fragment_map f |})
  \/ exists old fifo, fragment_index_fifo f = old :: fifo /\ FRAGMENT_BUFFER_CAP <= S (length fifo)
     /\ enqueue id f = {| fragment_index_fifo := fifo ++ [id];
                          fragment_map := delete old (fragment_map f) |}.
Proof.
  unfold enqueue. destruct (Nat.leb_spec FRAGMENT_BUFFER_CAP (length (fragment_index_fifo f))) as [H|H].
  - destruct (fragment_index_fifo f) as [|old fifo]; [unfold FRAGMENT_BUFFER_CAP in H; simpl in H; lia|].
    right. by exists old, fifo.
  - by left.
Qed.

Lemma enqueue_other id id' k got f :
  id' <> id -> k < FRAGMENT_BUFFER_CAP -> collecting id k got f ->
  collecting id (S k) got (enqueue id' f).
Proof.
  intros Hn Hk. unfold collecting.
  destruct (enqueue_cases id' f) as [[Hc ->]|(old&fifo&Hf&Hc&->)]; simpl; destruct got as [|g got].
  - set_solver.
  - intros (pre&post&fs&->&Hr). exists pre, (post ++ [id']), fs.
    rewrite <- app_assoc, length_app. simpl. naive_solver lia.
  - rewrite Hf, lookup_delete_None. set_solver.
  - rewrite Hf. intros (pre&post&fs&Hq&Hpre&Hp&Hm&Hs&HP).
    destruct pre as [|old' pre]; simplify_eq/=; [lia|].
    exists pre, (post ++ [id']), fs. rewrite <- app_assoc, length_app. simpl.
    rewrite lookup_delete_ne by set_solver. split_and!; try done; [set_solver | lia].
Qed.

Lemma collecting_update id k got fifo m m' :
  m !! id = m' !! id ->
  collecting id k got {| fragment_index_fifo := fifo; fragment_map := m |} ->
  collecting id k got {| fragment_index_fifo := fifo; fragment_map := m' |}.
Proof. unfold collecting. simpl. intros E. by destruct got; rewrite E. Qed.

Lemma add_other id id' n k x got f :
  id' <> id -> k < FRAGMENT_BUFFER_CAP -> collecting id k got f ->
  collecting id (S k) got (add_fragment id' n x f).1.
Proof.
  intros Hn Hk Hc%(enqueue_other _ id'); [|done..]. unfold add_fragment.
  destruct (enqueue id' f) as [fifo m]. simpl.
  destruct (m !! id') as [fs|]; simpl; [|eapply collecting_update, Hc; by rewrite lookup_insert_ne].
  destruct (binary_search (index x) (map index fs)); simpl; [done|].
  destruct (negb _); simpl; eapply collecting_update, Hc;
    [by rewrite lookup_insert_ne | by rewrite lookup_delete_ne].
Qed.

(** A new fragment of the packet: it is added, or completes the packet. *)
Lemma enqueue_own id k x got f :
  k < FRAGMENT_BUFFER_CAP -> collecting id k got f ->
  let f' := enqueue id f in
  match got with
  | [] => fragment_map f' !! id = None
  | _ => exists fs, fragment_map f' !! id = Some fs /\ ascending fs /\ fs ≡ₚ got
  end /\ forall m fs, ascending fs -> fs ≡ₚ (x :: got) ->
         collecting id (S k) (x :: got)
           {| fragment_index_fifo := fragment_index_fifo f'; fragment_map := <[id := fs]> m |}.
Proof.
  intros Hk. unfold collecting. setoid_rewrite lookup_insert_eq.
  destruct (enqueue_cases id f) as [[Hc ->]|(old&fifo&Hf&Hc&->)]; simpl; destruct got as [|g got].
  - intros [Hq Hm]. split; [done|]. intros m fs Hs HP. exists (fragment_index_fifo f), [], fs.
    split_and!; try done. simpl. lia.
  - intros (pre&post&fs0&->&Hpre&Hp&Hm&Hs0&HP0). split; [by exists fs0|]. intros m fs Hs HP.
    exists pre, (post ++ [id]), fs. rewrite <- app_assoc, length_app. simpl. split_and!; try done. lia.
  - rewrite Hf, lookup_delete_None. intros [Hq Hm]. split; [by right|]. intros m fs Hs HP.
    exists fifo, [], fs. split_and!; try done; [set_solver | simpl; lia].
  - rewrite Hf. intros (pre&post&fs0&Hq&Hpre&Hp&Hm&Hs0&HP0).
    destruct pre as [|old' pre]; simplify_eq/=; [lia|]. split.
    { exists fs0. by rewrite lookup_delete_ne by set_solver. }
    intros m fs Hs HP. exists pre, (post ++ [id]), fs. rewrite <- app_assoc, length_app. simpl.
    split_and!; try done; [set_solver | lia].
Qed.

Lemma add_own id n k x got f :
  k < FRAGMENT_BUFFER_CAP -> collecting id k got f -> index x ∉ map index got -> (2 <= n)%Z ->
  let '(f', r) := add_fragment id n x f in
  if (Z.of_nat (length (x :: got)) =? n)%Z
  then exists fs, r = Ok (Reassembled (concat (map payload fs))) /\ ascending fs /\ fs ≡ₚ (x :: got)
  else r = Ok ReceivedFragment /\ collecting id (S k) (x :: got) f'.
Proof.
  intros Hk Hc Hx Hn. destruct (enqueue_own id k x got f Hk Hc) as [Hm Hnext].
  unfold add_fragment. destruct got as [|g got].
  - rewrite Hm. destruct (Z.eqb_spec (Z.of_nat (length [x])) n); simpl in *; [lia|].
    split; [done|]. apply Hnext; [by repeat constructor | done].
  - destruct Hm as (fs&->&Hs&HP).
    destruct (binary_search_new x fs Hs) as (i&->&Hi); [by rewrite HP|].
    assert (insert_at i x fs ≡ₚ (x :: g :: got)) as Hp by (rewrite insert_at_perm; by constructor).
    rewrite (Permutation_length Hp).
    destruct (Z.eqb_spec (Z.of_nat (length (x :: g :: got))) n); simpl.
    + by exists (insert_at i x fs).
    + split; [done|]. by apply Hnext.
Qed.

Section reassembly.
Context `{W : Wire} {L : WireLaws W}.

Definition packet_of (d : bytes) : option Z :=
  match decode_datagram d with Ok (Piece id _ _) => Some id | _ => None end.

(** The answers of [handle_incoming_packet] to the datagrams of packet [id]. *)
Fixpoint answers (id : Z) (ds : list bytes) (f : Fragments) : list (result DefragReceived DefragError) :=
  match ds with
  | [] => []
  | d :: ds =>
      let '(f, r) := handle_incoming_packet d f in
      if bool_decide (packet_of d = Some id) then r :: answers id ds f else answers id ds f
  end.

(** [d] is the encoding of fragment [x] of packet [id], of [n] fragments. *)
Definition encodes (id n : Z) (d : bytes) (x : Fragment) : Prop := decode_datagram d = Ok (Piece id n x).

Definition of_packet (id : Z) (d : bytes) : Prop := packet_of d = Some id.
Definition is_piece (d : bytes) : Prop := is_Some (packet_of d).
#[global] Instance of_packet_dec id d : Decision (of_packet id d).
Proof. unfold of_packet. apply _. Defined.
#[global] Instance is_piece_dec d : Decision (is_piece d).
Proof. unfold is_piece. apply _. Defined.

Lemma collecting_weaken id k k' got f : k <= k' -> collecting id k got f -> collecting id k' got f.
Proof. unfold collecting. destruct got; [done|]. naive_solver lia. Qed.

Lemma answers_none id ds f : filter (of_packet id) ds = [] -> answers id ds f = [].
Proof.
  revert f. induction ds as [|d ds IH]; intros f; [done|]. rewrite filter_cons. simpl.
  destruct (handle_incoming_packet d f) as [f' r]. intros Hd. case_decide as H; [done|].
  unfold of_packet in H. by rewrite bool_decide_eq_false_2; auto.
Qed.

(** A datagram that is no fragment of the packet, and one that is. *)
Lemma answers_other id d ds k got f :
  packet_of d <> Some id -> collecting id k got f ->
  k + length (filter is_piece (d :: ds)) <= FRAGMENT_BUFFER_CAP ->
  exists k' f', answers id (d :: ds) f = answers id ds f' /\ collecting id k' got f'
    /\ k' + length (filter is_piece ds) <= FRAGMENT_BUFFER_CAP.
Proof.
  intros Hd Hc Hk. rewrite filter_cons in Hk. simpl.
  rewrite (bool_decide_eq_false_2 (packet_of d = Some id)) by done.
  unfold handle_incoming_packet. case_decide as H; unfold is_piece, packet_of in H, Hd.
  - destruct (decode_datagram d) as [[b|id' n x]|e]; [by destruct H| |by destruct H]. simpl in Hk.
    pose proof (add_other id id' n k x got f ltac:(congruence) ltac:(lia) Hc) as Ha.
    destruct (add_fragment id' n x f) as [f' r]. exists (S k), f'. split_and!; [done..|lia].
  - exists k, f. destruct (decode_datagram d) as [[b|id' n x]|e]; [done| |done].
    by destruct H; eauto.
Qed.

Lemma answers_own id n d x ds k got f :
  encodes id n d x -> (2 <= n)%Z -> collecting id k got f ->
  k + length (filter is_piece (d :: ds)) <= FRAGMENT_BUFFER_CAP -> index x ∉ map index got ->
  exists f' r, answers id (d :: ds) f = r :: answers id ds f'
    /\ if (Z.of_nat (length (x :: got)) =? n)%Z
       then exists fs, r = Ok (Reassembled (concat (map payload fs))) /\ ascending fs
                       /\ fs ≡ₚ (x :: got)
       else r = Ok ReceivedFragment /\ collecting id (S k) (x :: got) f'
            /\ S k + length (filter is_piece ds) <= FRAGMENT_BUFFER_CAP.
Proof.
  unfold encodes. intros Hd Hn Hc Hk Hx. rewrite filter_cons in Hk. cbn [answers].
  assert (packet_of d = Some id) as E by (unfold packet_of; by rewrite Hd).
  rewrite decide_True in Hk by (unfold is_piece; rewrite E; by eauto). simpl in Hk.
  rewrite (bool_decide_eq_true_2 (packet_of d = Some id)) by done.
  unfold handle_incoming_packet. rewrite Hd.
  pose proof (add_own id n k x got f ltac:(lia) Hc Hx Hn) as Ha.
  destruct (add_fragment id n x f) as [f' r]. exists f', r. split; [done|].
  destruct (Z.of_nat (length (x :: got)) =? n)%Z; [done|]. destruct Ha. split_and!; [done..|lia].
Qed.

Lemma answers_complete id n ds k got todo f :
  (2 <= n)%Z -> collecting id k got f -> k + length (filter is_piece ds) <= FRAGMENT_BUFFER_CAP ->
  Forall2 (encodes id n) (filter (of_packet id) ds) todo -> todo <> [] ->
  NoDup (map index (todo ++ got)) -> Z.of_nat (length (todo ++ got)) = n ->
  exists fs, ascending fs /\ fs ≡ₚ (todo ++ got)
    /\ answers id ds f = replicate (pred (length todo)) (Ok ReceivedFragment)
                         ++ [Ok (Reassembled (concat (map payload fs)))].
Proof.
  intros Hn. revert k got todo f. induction ds as [|d ds IH]; intros k got todo f Hc Hk HF Ht Hnd Hl;
    [by inversion HF; subst|].
  rewrite filter_cons in HF. case_decide as Hd.
  - apply Forall2_cons_inv_l in HF as (x&todo'&Hx&HF&->). simpl in Hl.
    pose proof Hnd as Hnx. simpl in Hnx. apply NoDup_cons, proj1 in Hnx. rewrite map_app in Hnx.
    destruct (answers_own id n d x ds k got f Hx Hn Hc Hk) as (f'&r&->&Hr); [set_solver|].
    rewrite length_app in Hl. destruct todo' as [|y todo'].
    + inversion HF as [E|]. destruct (Z.eqb_spec (Z.of_nat (length (x :: got))) n); [|simpl in *; lia].
      destruct Hr as (fs&->&Hs&HP). exists fs. rewrite answers_none by done. done.
    + destruct (Z.eqb_spec (Z.of_nat (length (x :: got))) n); [simpl in *; lia|].
      destruct Hr as (->&Hc'&Hk').
      destruct (IH (S k) (x :: got) (y :: todo') f' Hc' Hk' HF) as (fs&Hs&HP&->); [done|..].
      { by rewrite <- Permutation_middle. }
      { rewrite length_app. simpl in *. lia. }
      exists fs. split_and!; [done| |done]. by rewrite HP, <- Permutation_middle.
  - destruct (answers_other id d ds k got f Hd Hc Hk) as (k'&f'&->&Hc'&Hk'). by eapply IH.
Qed.

(** ** The fragments of a packet *)
Definition pieces (cs : list bytes) : list Fragment :=
  imap (fun i b => {| index := Z.of_nat i + FRAGMENT_INDEX_START; payload := b |}) cs.

Lemma pieces_payload cs : map payload (pieces cs) = cs.
Proof.
  unfold pieces. generalize FRAGMENT_INDEX_START. induction cs as [|c cs IH]; intros s; [done|].
  rewrite imap_cons. simpl. f_equal. rewrite <- (IH (s + 1)%Z) at 2. f_equal. apply imap_ext.
  intros. simpl. f_equal. lia.
Qed.

Lemma pieces_ascending cs : ascending (pieces cs).
Proof.
  unfold ascending, pieces. generalize FRAGMENT_INDEX_START. induction cs as [|c cs IH]; intros s;
    [constructor|]. rewrite imap_cons. apply StronglySorted_cons. split.
  - apply Forall_lookup. intros i x. rewrite list_lookup_imap. intros (b&_&->)%fmap_Some.
    unfold before. simpl. lia.
  - erewrite imap_ext; [apply (IH (s + 1)%Z)|]. intros. simpl. f_equal. lia.
Qed.

Lemma ascending_NoDup fs : ascending fs -> NoDup (map index fs).
Proof.
  induction 1 as [|x fs _ IH Hf]; simpl; constructor; [|done].
  intros (y&E&Hy)%list_elem_of_fmap. rewrite Forall_forall in Hf. specialize (Hf y Hy).
  unfold before in Hf. lia.
Qed.

Lemma encoded_pieces id cs :
  is_u16 id -> 2 <= length cs <= 255 ->
  Forall2 (encodes id (Z.of_nat (length cs)))
    (imap (encode_fragment id (Z.of_nat (length cs))) cs) (pieces cs).
Proof.
  intros Hid Hl. apply Forall2_same_length_lookup. unfold pieces. rewrite !length_imap. split; [done|].
  intros i d x. rewrite !list_lookup_imap. intros (b&Hb&->)%fmap_Some (b'&Hb'&->)%fmap_Some.
  rewrite Hb in Hb'. simplify_eq. apply lookup_lt_Some in Hb. by apply decode_encoded; [|lia..].
Qed.

(** Whatever the order, the decoded fragments are those of the packet. *)
Lemma encodes_permuted id n ds ds' xs :
  Forall2 (encodes id n) ds xs -> ds' ≡ₚ ds -> exists xs', Forall2 (encodes id n) ds' xs' /\ xs' ≡ₚ xs.
Proof.
  intros HF HP. revert xs HF. induction HP as [|d ds' ds HP IH|d e ds|ds' ds1 ds HP1 IH1 HP2 IH2];
    intros xs HF.
  - by exists xs.
  - apply Forall2_cons_inv_l in HF as (x&xs1&?&(xs'&?&?)%IH&->). exists (x :: xs').
    split; [by constructor | by constructor].
  - apply Forall2_cons_inv_l in HF as (x&xs1&?&HF&->).
    apply Forall2_cons_inv_l in HF as (y&xs2&?&HF&->). exists (y :: x :: xs2).
    split; [by repeat constructor | constructor].
  - destruct (IH2 xs HF) as (xs1&HF1&HP1'). destruct (IH1 xs1 HF1) as (xs2&?&?).
    exists xs2. split; [done | by etrans].
Qed.

Lemma encodes_of_packet id n ds xs : Forall2 (encodes id n) ds xs -> Forall (of_packet id) ds.
Proof.
  induction 1 as [|d x ds xs Hd]; constructor; [|done]. unfold of_packet, packet_of. by rewrite Hd.
Qed.

Lemma fragment_packet_chunks m p id frags :
  fragment_packet m p id = FragmentsOf frags ->
  exists cs : list bytes, concat cs = p /\ length cs <= 255
    /\ cs = chunks (Z.to_nat (u16_sub m FRAGMENT_HEADER_SIZE_FRAGMENTED)) p
    /\ frags = imap (encode_fragment id (Z.of_nat (length cs))) cs.
Proof.
  unfold fragment_packet.
  destruct (Nat.eqb_spec (Z.to_nat (u16_sub m FRAGMENT_HEADER_SIZE_FRAGMENTED)) 0); [done|].
  destruct (Nat.leb_spec (length (chunks (Z.to_nat (u16_sub m FRAGMENT_HEADER_SIZE_FRAGMENTED)) p)) 255);
    [|done].
  intros [= <-]. eexists. split_and!; [|done..]. by apply chunks_from_concat; [lia|].
Qed.

(** A fragmented packet is reassembled whatever the order in which its fragments arrive and
    whatever arrives between them: if packet [p] was cut into at least two fragments, the datagrams of
    its identifier are a permutation of those fragments, at most 255 fragments arrive in all, and
    the receiver has nothing of that identifier left, then every fragment but the last is answered by
    "received a fragment", and the last one by exactly [p]. *)
Theorem reassembled_in_any_order m p id frags ds f :
  is_u16 id -> fragment_packet m p id = FragmentsOf frags -> 2 <= length frags ->
  filter (of_packet id) ds ≡ₚ frags -> length (filter is_piece ds) <= FRAGMENT_BUFFER_CAP ->
  id ∉ fragment_index_fifo f -> fragment_map f !! id = None ->
  answers id ds f
  = replicate (pred (length frags)) (Ok ReceivedFragment) ++ [Ok (Reassembled p)].
Proof.
  intros Hid (cs&<-&Hl&_&->)%fragment_packet_chunks. rewrite length_imap. intros H2 HP Hk Hq Hm.
  destruct (encodes_permuted _ _ _ _ _ (encoded_pieces id cs Hid (conj H2 Hl)) HP) as (todo&HF&HP').
  assert (length todo = length cs) as Hlen
    by (rewrite (Permutation_length HP'); unfold pieces; apply length_imap).
  destruct (answers_complete id (Z.of_nat (length cs)) ds 0 [] todo f) as (fs&Hs&HPs&->); try done.
  - lia.
  - by intros ->; simpl in *; lia.
  - rewrite app_nil_r, HP'. apply ascending_NoDup, pieces_ascending.
  - rewrite app_nil_r. lia.
  - rewrite app_nil_r, HP' in HPs.
    rewrite (ascending_unique fs (pieces cs)), pieces_payload, Hlen by (done || apply pieces_ascending).
    done.
Qed.

(** ** From one end to the other *)
Definition delivered (r : result DefragReceived DefragError) : option bytes :=
  match r with Ok (Reassembled p) | Ok (Nonfragmented p) => Some p | _ => None end.

Lemma proxy_tx_delivered id ds f :
  Forall (of_packet id) ds -> (proxy_tx_task ds f).2 = omap delivered (answers id ds f).
Proof.
  intros HF. revert f. induction HF as [|d ds Hd _ IH]; intros f; [done|]. cbn [proxy_tx_task answers].
  destruct (handle_incoming_packet d f) as [f' r] eqn:E. specialize (IH f').
  destruct (proxy_tx_task ds f') as [f'' ps] eqn:E'. cbn [snd] in IH |- *.
  rewrite bool_decide_eq_true_2 by done. rewrite IH. by destruct r as [[]|].
Qed.

Lemma filter_all {A} (P : A -> Prop) `{!forall x, Decision (P x)} (l : list A) :
  Forall P l -> filter P l = l.
Proof. induction 1 as [|x l Hx _ IH]; [done|]. by rewrite filter_cons_True, IH. Qed.

Lemma replicate_delivered n p :
  omap delivered (replicate n (Ok ReceivedFragment) ++ [Ok (Reassembled p)]) = [p].
Proof. induction n; simpl in *; [done|]. done. Qed.

(** A packet that does not fit in a datagram has at least two fragments. *)
Lemma enough_fragments m p id frags :
  (6 <= m < 2 ^ 16)%Z -> (m <= Z.of_nat (length p) + 1)%Z -> fragment_packet m p id = FragmentsOf frags ->
  2 <= length frags.
Proof.
  intros Hm Hp (cs&<-&Hl&Hcs&->)%fragment_packet_chunks. rewrite length_imap.
  unfold u16_sub, FRAGMENT_HEADER_SIZE_FRAGMENTED in Hcs. rewrite Z.mod_small in Hcs by lia.
  destruct (decide (length cs <= 1)) as [H1|]; [|lia]. exfalso. rewrite Hcs in H1. unfold chunks in H1.
  apply chunks_from_count in H1; [|lia..]. lia.
Qed.

Lemma fragments_delivered m p id frags ds f :
  (6 <= m < 2 ^ 16)%Z -> (m <= Z.of_nat (length p) + 1)%Z -> is_u16 id ->
  fragment_packet m p id = FragmentsOf frags -> ds ≡ₚ frags ->
  id ∉ fragment_index_fifo f -> fragment_map f !! id = None -> (proxy_tx_task ds f).2 = [p].
Proof.
  intros Hm Hp Hid Hf HP Hq Hn. pose proof (enough_fragments m p id frags Hm Hp Hf) as H2.
  assert (Forall (of_packet id) ds) as HF.
  { rewrite HP. destruct (fragment_packet_chunks _ _ _ _ Hf) as (cs&_&Hl&_&->).
    rewrite length_imap in H2. by eapply encodes_of_packet, encoded_pieces. }
  rewrite (proxy_tx_delivered id) by done.
  rewrite (reassembled_in_any_order m p id frags); try done.
  - apply replicate_delivered.
  - by rewrite (filter_all (of_packet id)).
  - destruct (fragment_packet_chunks _ _ _ _ Hf) as (cs&_&Hl&_&->).
    etrans; [apply length_filter|]. rewrite (Permutation_length HP), length_imap. exact Hl.
Qed.

(** Without path information the room for a packet is never below 1151 bytes, whatever the MTU, so the
    theorems below apply. *)
Lemma datagram_room mtu is_ipv4 stream_id_size :
  is_u16 mtu -> (1 <= stream_id_size <= 8)%Z ->
  (1151 <= maximum_packet_size None (compute_udp_payload_size mtu is_ipv4) stream_id_size < 2 ^ 16)%Z.
Proof.
  intros Hm Hs. assert (1200 <= compute_udp_payload_size mtu is_ipv4 < 2 ^ 16)%Z as Hc.
  { unfold compute_udp_payload_size, MIN_MAX_UDP_PAYLOAD_SIZE, u16_sub, UDP_HEADER_SIZE.
    set (d := ((_ - 8) mod 2 ^ 16)%Z).
    assert (0 <= d < 2 ^ 16)%Z by (apply Z.mod_pos_bound; lia). destruct (Z.ltb_spec d 1200); lia. }
  unfold maximum_packet_size, u16_sub, QUIC_HEADER_SIZE.
  rewrite (Z.mod_small (_ - 41)) by lia. rewrite Z.mod_small by lia. lia.
Qed.

(** Nothing of packet [id] is left at the receiver. *)
Definition unseen (id : Z) (f : Fragments) : Prop :=
  (id ∉ fragment_index_fifo f) /\ fragment_map f !! id = None.

(** ** A packet among others *)
(** Datagrams arrive, some of which are [mine]: what the proxy sends on its UDP socket upon those. *)
Fixpoint sent_for (xs : list (bool * bytes)) (f : Fragments) : list bytes :=
  match xs with
  | [] => []
  | (mine, d) :: xs => let '(f, ps) := proxy_tx_task [d] f in (if mine : bool then ps else []) ++ sent_for xs f
  end.
Definition others (xs : list (bool * bytes)) : list (bool * bytes) := map (fun x => (negb x.1, x.2)) xs.
Definition mine (xs : list (bool * bytes)) : list bytes := map snd (filter (fun x => x.1 = true) xs).

Lemma proxy_tx_cons d ds f :
  (proxy_tx_task (d :: ds) f).2 = (proxy_tx_task [d] f).2 ++ (proxy_tx_task ds (proxy_tx_task [d] f).1).2.
Proof.
  simpl. destruct (handle_incoming_packet d f) as [f' r]. simpl. destruct (proxy_tx_task ds f') as [f'' ps]. by destruct r as [[]|].
Qed.

Lemma sent_split xs f : (proxy_tx_task (map snd xs) f).2 ≡ₚ sent_for xs f ++ sent_for (others xs) f.
Proof.
  revert f. induction xs as [|[b d] xs IH]; intros f; [done|]. cbn [map others sent_for snd fst]. rewrite proxy_tx_cons.
  destruct (proxy_tx_task [d] f) as [f' ps]. rewrite IH. fold (others xs). destruct b; simpl; [by rewrite app_assoc | solve_Permutation].
Qed.

(** Datagrams that each hold the whole packet. *)
Lemma sent_whole p xs f :
  Forall (eq (client_packet p)) (mine xs) -> sent_for xs f = replicate (length (mine xs)) p.
Proof.
  unfold mine. revert f. induction xs as [|[b d] xs IH]; intros f; [done|]. cbn [sent_for]. destruct b.
  - rewrite filter_cons_True by done. cbn [map snd]. intros [<- HF]%Forall_cons. simpl. unfold handle_incoming_packet.
    rewrite decode_whole. simpl. f_equal. by apply IH.
  - rewrite filter_cons_False by done. intros HF. destruct (proxy_tx_task [d] f) as [f' ps]. by apply IH.
Qed.

(** Datagrams that are those of one packet. *)
Lemma sent_answers id xs f :
  Forall (fun x => x.1 = bool_decide (of_packet id x.2)) xs -> sent_for xs f = omap delivered (answers id (map snd xs) f).
Proof.
  revert f. induction xs as [|[b d] xs IH]; intros f; [done|]. intros [Hb HF]%Forall_cons. simpl in Hb. subst b.
  cbn [sent_for map answers snd proxy_tx_task]. destruct (handle_incoming_packet d f) as [f' r]. unfold of_packet.
  destruct (decide (packet_of d = Some id)) as [Hd|Hd]; [|rewrite !bool_decide_false by done; by apply IH].
  rewrite !bool_decide_true, (IH f' HF) by done. by destruct r as [[]|].
Qed.

Lemma mine_filter id xs :
  Forall (fun x => x.1 = bool_decide (of_packet id x.2)) xs -> filter (of_packet id) (map snd xs) = mine xs.
Proof.
  unfold mine. induction 1 as [|[b d] xs Hb _ IH]; [done|]. simpl in Hb. subst b. cbn [map snd].
  destruct (decide (of_packet id d)) as [Hd|Hd].
  - rewrite (filter_cons_True (of_packet id)), filter_cons_True by (done || by rewrite bool_decide_true). simpl. by rewrite IH.
  - rewrite (filter_cons_False (of_packet id)), filter_cons_False by (done || by rewrite bool_decide_false). done.
Qed.

Lemma marked_of_packet id xs :
  Forall (of_packet id) (mine xs) -> Forall (fun x => x.1 = false -> ~ of_packet id x.2) xs ->
  Forall (fun x => x.1 = bool_decide (of_packet id x.2)) xs.
Proof.
  unfold mine. intros Hm Ho. rewrite Forall_forall in Hm. rewrite Forall_forall in Ho. apply Forall_forall. intros [b d] Hx. specialize (Ho _ Hx). simpl in *. destruct b.
  - rewrite bool_decide_true; [done|]. apply Hm. apply list_elem_of_fmap. exists (true, d). split; [done|].
    by apply list_elem_of_filter.
  - rewrite bool_decide_false by auto. done.
Qed.

Lemma fragments_among_others m p id frags xs f :
  (6 <= m < 2 ^ 16)%Z -> (m <= Z.of_nat (length p) + 1)%Z -> is_u16 id -> unseen id f ->
  fragment_packet m p id = FragmentsOf frags -> mine xs ≡ₚ frags ->
  Forall (fun x => x.1 = false -> ~ of_packet id x.2) xs -> length (filter is_piece (map snd xs)) <= FRAGMENT_BUFFER_CAP ->
  sent_for xs f = [p].
Proof.
  intros Hm Hp Hid [Hq Hn] Hf HP Ho Hc. pose proof (enough_fragments m p id frags Hm Hp Hf) as H2.
  assert (Forall (of_packet id) (mine xs)) as HF.
  { rewrite HP. destruct (fragment_packet_chunks _ _ _ _ Hf) as (cs&_&Hl&_&->).
    rewrite length_imap in H2. by eapply encodes_of_packet, encoded_pieces. }
  pose proof (marked_of_packet id xs HF Ho) as Hb. rewrite (sent_answers id) by done.
  rewrite (reassembled_in_any_order m p id frags); try done; [apply replicate_delivered | by rewrite mine_filter].
Qed.

(** C36. Upstream.  When the client's task has sent a packet, as one datagram or as fragments, and these
    datagrams arrive at the proxy, in whatever order and whatever other datagrams arrive between them, then
    upon them the proxy sends on its UDP socket exactly that packet, once; what it sends in all is that packet
    and what it sends upon the others.  This is so if nothing of the packet's identifier is left at the proxy
    from before, no other datagram has that identifier, and at most 255 fragments arrive in all, which is what
    the proxy keeps. *)
Theorem uplink_intact m id accepts p ds id' xs f :
  (6 <= m < 2 ^ 16)%Z -> is_u16 id -> unseen id f ->
  server_socket_send m id accepts (client_packet p) = (ds, Sent id') -> mine xs ≡ₚ ds ->
  Forall (fun x => x.1 = false -> ~ of_packet id x.2) xs -> length (filter is_piece (map snd xs)) <= FRAGMENT_BUFFER_CAP ->
  sent_for xs f = [p] /\ (proxy_tx_task (map snd xs) f).2 ≡ₚ p :: sent_for (others xs) f.
Proof.
  intros Hm Hid Hu Hs HP Ho Hc. rewrite sent_split. cut (sent_for xs f = [p]); [by intros ->|].
  unfold server_socket_send in Hs.
  assert (length (client_packet p) = S (length p)) as Hl.
  { unfold client_packet, HTTP_MASQUE_DATAGRAM_CONTEXT_ID. by rewrite length_app, varint_small by lia. }
  destruct (Z.leb_spec (Z.of_nat (length (client_packet p))) m).
  - destruct accepts; [done|]. injection Hs as <- <-. apply Permutation_singleton_r in HP.
    rewrite (sent_whole p), HP by (rewrite HP; by apply Forall_singleton). done.
  - unfold client_packet at 1 in Hs. rewrite varint_round_trip in Hs by (unfold HTTP_MASQUE_DATAGRAM_CONTEXT_ID; lia).
    simpl in Hs. destruct (fragment_packet m p id) as [frags| |] eqn:Hf; [|done..].
    case_match; [|done]. injection Hs as <- _. eapply fragments_among_others; try done. lia.
Qed.

Lemma fragment_reassembly_delivered {A} stream_id (rs : list (A * bytes)) f :
  map snd (fragment_reassembly_task stream_id (map (fun '(a, d) => (stream_id, a, d)) rs) f).2
  = (proxy_tx_task (map snd rs) f).2.
Proof.
  revert f. induction rs as [|[a d] rs IH]; intros f; [done|]. simpl. rewrite Z.eqb_refl. simpl.
  destruct (handle_incoming_packet d f) as [f' r]. specialize (IH f').
  destruct (fragment_reassembly_task _ _ f'), (proxy_tx_task _ f'). simpl in *. rewrite <- IH.
  by destruct r as [[]|].
Qed.

(** Downstream: when the proxy's buffer is empty and it receives a packet of the target, the
    datagrams it hands over (all of them accepted) give the client exactly that packet, once, in
    whatever order they arrive, and the buffer is empty again. *)
Theorem downlink_intact {A} m accepts p s ds out stream_id (rs : list (A * bytes)) f :
  (6 <= m < 2 ^ 16)%Z -> is_u16 (rx_fragment_id s) -> unseen (rx_fragment_id s) f ->
  proxy_recv_buf s = [] -> 255 <= accepts ->
  proxy_rx_step m accepts (RecvFrom p true) s = (ds, out) -> ds <> [] -> map snd rs ≡ₚ ds ->
  map snd (fragment_reassembly_task stream_id (map (fun '(a, d) => (stream_id, a, d)) rs) f).2 = [p]
  /\ exists s', out = RxContinue s' /\ proxy_recv_buf s' = [].
Proof.
  intros Hm Hid [Hq Hn] Hb Ha. rewrite fragment_reassembly_delivered. unfold proxy_rx_step. rewrite Hb.
  change ([] ++ ?x) with x. change (varint_encode _ ++ p) with (client_packet p).
  assert (length (client_packet p) = S (length p)) as Hl.
  { unfold client_packet, HTTP_MASQUE_DATAGRAM_CONTEXT_ID. by rewrite length_app, varint_small by lia. }
  destruct (Z.ltb_spec (Z.of_nat (length (client_packet p))) m).
  - destruct accepts; [lia|]. intros [= <- <-] _ ->%Permutation_singleton_r. split; [|by eauto].
    simpl. unfold handle_incoming_packet. by rewrite decode_whole.
  - unfold client_packet at 1. rewrite varint_round_trip by (unfold HTTP_MASQUE_DATAGRAM_CONTEXT_ID; lia).
    simpl. destruct (fragment_packet m p (rx_fragment_id s)) as [frags| |] eqn:Hf;
      intros [= <- <-]; [|done..]. intros _ HP. split; [|by eauto].
    rewrite take_ge in HP.
    + eapply fragments_delivered; try done. lia.
    + destruct (fragment_packet_chunks _ _ _ _ Hf) as (cs&_&Hc&_&->). rewrite length_imap.
      etrans; [exact Hc | done].
Qed.

(** A receive error corrupts the next packet: the context identifier that was written for the
    failed receive stays in the buffer, so the next packet of the target, if it fits in a datagram,
    reaches the client with that identifier in front. *)
Theorem receive_error_corrupts_next m accepts p s stream_id (a : unit) f :
  (Z.of_nat (length p) + 2 < m)%Z -> proxy_recv_buf s = [] -> 1 <= accepts ->
  exists s1 s2 d,
    proxy_rx_step m accepts RecvError s = ([], RxContinue s1)
    /\ proxy_rx_step m accepts (RecvFrom p true) s1 = ([d], RxContinue s2)
    /\ fragment_reassembly_task stream_id [(stream_id, a, d)] f
       = (f, [(a, varint_encode HTTP_MASQUE_DATAGRAM_CONTEXT_ID ++ p)])
    /\ varint_encode HTTP_MASQUE_DATAGRAM_CONTEXT_ID ++ p <> p.
Proof.
  intros Hm Hb Ha. unfold proxy_rx_step. rewrite Hb. simpl.
  assert (length (varint_encode HTTP_MASQUE_DATAGRAM_CONTEXT_ID) = 1) as Hl
    by (unfold HTTP_MASQUE_DATAGRAM_CONTEXT_ID; by rewrite varint_small by lia).
  eexists _, _, _. split; [done|]. simpl.
  rewrite (proj2 (Z.ltb_lt _ _)) by (rewrite !length_app, Hl; lia).
  destruct accepts; [lia|]. split; [done|]. split.
  - rewrite Z.eqb_refl. simpl. unfold handle_incoming_packet. rewrite <- app_assoc.
    pose proof (decode_whole (varint_encode HTTP_MASQUE_DATAGRAM_CONTEXT_ID ++ p)) as Hd.
    unfold client_packet in Hd. by rewrite Hd.
  - intros E%(f_equal length). rewrite length_app, Hl in E. lia.
Qed.

(** Fragmentation respects the size of a datagram and is refused exactly for packets of more than
    255 fragments: with room for the header, [fragment_packet] returns fragments of at most the
    maximum size exactly when the packet has at most 255 times the remaining room, and [PacketTooLarge]
    otherwise; it does not panic. *)
Theorem fragment_packet_exact m p id :
  (6 <= m < 2 ^ 16)%Z -> is_u16 id ->
  if (Z.of_nat (length p) <=? 255 * (m - 5))%Z
  then exists frags, fragment_packet m p id = FragmentsOf frags
         /\ Forall (fun d => (5 < Z.of_nat (length d) <= m)%Z) frags /\ length frags <= 255
  else fragment_packet m p id = PacketTooLarge (length p).
Proof.
  intros Hm Hid. unfold fragment_packet, u16_sub, FRAGMENT_HEADER_SIZE_FRAGMENTED.
  rewrite Z.mod_small by lia. destruct (Nat.eqb_spec (Z.to_nat (m - 5)) 0); [lia|].
  set (cs := chunks (Z.to_nat (m - 5)) p).
  assert (length cs <= 255 <-> length p <= 255 * Z.to_nat (m - 5)) as Hc
    by (apply chunks_from_count; lia).
  pose proof (chunks_from_sizes (length p) (Z.to_nat (m - 5)) p ltac:(lia)) as Hs.
  change (chunks_from (length p) (Z.to_nat (m - 5)) p) with cs in Hs. clearbody cs.
  destruct (Z.leb_spec (Z.of_nat (length p)) (255 * (m - 5)));
    destruct (Nat.leb_spec (length cs) 255); try lia; [|done].
  eexists. split; [done|]. rewrite length_imap. split; [|done].
  apply Forall_lookup. intros i d. rewrite list_lookup_imap. intros (c&Hi&->)%fmap_Some.
  pose proof (lookup_lt_Some _ _ _ Hi). rewrite Forall_lookup in Hs. specialize (Hs i c Hi).
  rewrite encode_fragment_length by (done || unfold is_u8; lia). lia.
Qed.
End reassembly.

(** ** The buffer is bounded *)
Definition occurrences (id : Z) (l : list Z) : nat := length (filter (fun x => x = id) l).

(** Every buffered fragment has its own entry in the queue, lists are sorted, and the queue never
    exceeds its capacity. *)
Definition well_formed (f : Fragments) : Prop :=
  length (fragment_index_fifo f) <= FRAGMENT_BUFFER_CAP
  /\ forall id fs, fragment_map f !! id = Some fs ->
       ascending fs /\ length fs <= occurrences id (fragment_index_fifo f).

Definition buffered (m : gmap Z (list Fragment)) : nat :=
  sum_list_with length (map snd (map_to_list m)).

Lemma occurrences_app id l k : occurrences id (l ++ k) = occurrences id l + occurrences id k.
Proof. unfold occurrences. by rewrite filter_app, length_app. Qed.

Lemma occurrences_split id l :
  length l = occurrences id l + length (filter (fun x => x <> id) l).
Proof.
  unfold occurrences. induction l as [|x l IH]; [done|]. rewrite !filter_cons.
  repeat case_decide; simpl; lia || done.
Qed.

Lemma occurrences_filter id i l :
  id <> i -> occurrences id (filter (fun x => x <> i) l) = occurrences id l.
Proof.
  intros Hn. unfold occurrences. rewrite list_filter_filter. f_equal.
  apply list_filter_iff. naive_solver.
Qed.

Lemma buffered_bound m l :
  (forall id fs, m !! id = Some fs -> length fs <= occurrences id l) -> buffered m <= length l.
Proof.
  revert l. induction m as [|i x m Hi IH] using map_ind; intros l Hm.
  - unfold buffered. rewrite map_to_list_empty. simpl. lia.
  - unfold buffered. rewrite (map_to_list_insert m i x Hi). simpl. fold (buffered m).
    rewrite (occurrences_split i l). apply Nat.add_le_mono.
    + apply Hm. apply lookup_insert_eq.
    + apply IH. intros id fs Hf. assert (id <> i) by congruence.
      rewrite occurrences_filter by done. apply Hm. by rewrite lookup_insert_ne.
Qed.

(** After [enqueue] there is room for one more fragment of the packet. *)
Lemma enqueue_well_formed id f :
  well_formed f ->
  length (fragment_index_fifo (enqueue id f)) <= FRAGMENT_BUFFER_CAP
  /\ 1 <= occurrences id (fragment_index_fifo (enqueue id f))
  /\ forall k fs, fragment_map (enqueue id f) !! k = Some fs ->
       ascending fs /\ length fs + occurrences k [id] <= occurrences k (fragment_index_fifo (enqueue id f)).
Proof.
  intros [Hl Hm].
  assert (forall l, 1 <= occurrences id (l ++ [id])) as H1.
  { intros l. rewrite occurrences_app. unfold occurrences at 2. rewrite filter_cons_True by done.
    simpl. lia. }
  destruct (enqueue_cases id f) as [[Hc ->]|(old&fifo&Hf&Hc&->)]; simpl.
  - rewrite length_app. split_and!; [simpl; lia | done |]. intros k fs [Hs Ho]%Hm. split; [done|].
    rewrite occurrences_app. lia.
  - rewrite Hf in Hl, Hm. rewrite length_app. split_and!; [simpl in *; lia | done |].
    intros k fs [Hne Hk]%lookup_delete_Some. destruct (Hm k fs Hk) as [Hs Ho]. split; [done|].
    rewrite occurrences_app. change (old :: fifo) with ([old] ++ fifo) in Ho.
    rewrite occurrences_app in Ho. unfold occurrences at 1 in Ho. rewrite filter_cons_False in Ho by done.
    simpl in Ho. lia.
Qed.

Lemma add_fragment_well_formed id n x f : well_formed f -> well_formed (add_fragment id n x f).1.
Proof.
  intros (Hl&H1&Hm)%(enqueue_well_formed id). unfold add_fragment.
  destruct (enqueue id f) as [fifo m]. simpl in *.
  assert (forall k fs, m !! k = Some fs -> ascending fs /\ length fs <= occurrences k fifo) as Hold
    by (intros k fs Hk; destruct (Hm k fs Hk); split; [done | lia]).
  assert (forall g, ascending g -> length g <= occurrences id fifo ->
            forall k fs, <[id := g]> m !! k = Some fs -> ascending fs /\ length fs <= occurrences k fifo)
    as Hins by (intros g Hg Hlg k fs [[-> ->]|[Hne Hk]]%lookup_insert_Some; eauto).
  destruct (m !! id) as [fs|] eqn:Hid; [|split; [done|]; apply Hins; [by repeat constructor | done]].
  destruct (Hm id fs Hid) as [Hs Ho].
  destruct (binary_search (index x) (map index fs)) as [i|i] eqn:E; [by split|].
  destruct (negb _); (split; [done|]); simpl.
  - apply Hins.
    + destruct (decide (index x ∈ map index fs)) as [Hin|Hn].
      * exfalso. pose proof (binary_search_spec (index x) fs Hs) as Hb. rewrite E in Hb.
        apply list_elem_of_fmap in Hin as (y&Ey&Hy). rewrite <- (take_drop i fs) in Hy.
        destruct Hb as [Hb1 Hb2]. apply elem_of_app in Hy as [Hy|Hy];
          [specialize (Hb1 y Hy) | specialize (Hb2 y Hy)]; lia.
      * destruct (binary_search_new x fs Hs Hn) as (j&Hj&Ha). congruence.
    + rewrite (Permutation_length (insert_at_perm i x fs)). simpl.
      unfold occurrences at 1 in Ho. rewrite filter_cons_True in Ho by done. simpl in Ho. lia.
  - intros k gs [Hne Hk]%lookup_delete_Some. by apply Hold.
Qed.

Section bounded.
Context `{W : Wire}.

(** The reassembly buffer is bounded against floods: from the empty buffer, after any sequence of
    datagrams whatsoever, the queue has at most 255 entries, at most 255 fragments are buffered in
    all, and the fragments of every packet are sorted by index without duplicates. *)
Theorem buffer_bounded ds :
  let f := (proxy_tx_task ds Fragments_default).1 in
  length (fragment_index_fifo f) <= FRAGMENT_BUFFER_CAP
  /\ buffered (fragment_map f) <= FRAGMENT_BUFFER_CAP
  /\ forall id fs, fragment_map f !! id = Some fs -> ascending fs.
Proof.
  assert (forall ds f, well_formed f -> well_formed (proxy_tx_task ds f).1) as Hw.
  { clear ds. induction ds as [|d ds IH]; intros f Hf; [done|]. simpl.
    assert (well_formed (handle_incoming_packet d f).1) as Hh.
    { unfold handle_incoming_packet. destruct (decode_datagram d) as [[|]|]; try done.
      by apply add_fragment_well_formed. }
    destruct (handle_incoming_packet d f) as [f' r]. specialize (IH f' Hh).
    by destruct (proxy_tx_task ds f') as [f'' ps]. }
  simpl. destruct (Hw ds Fragments_default) as [Hl Hm]; [by split; [simpl; lia|]|].
  split_and!; [done| |naive_solver].
  etrans; [apply buffered_bound; intros id fs Hf; by apply Hm|done].
Qed.
End bounded.

(** ** A wire format

    Big endian integers, and the variable length integers of RFC 9000: the two high bits of the first
    byte say how many bytes follow. *)
Fixpoint be (n : nat) (v : Z) : bytes :=
  match n with 0 => [] | S n => ((v / 256 ^ Z.of_nat n) mod 256)%Z :: be n v end.

Fixpoint from_be (b : bytes) : Z :=
  match b with [] => 0 | x :: b => (x * 256 ^ Z.of_nat (length b) + from_be b)%Z end.

Lemma be_length n v : length (be n v) = n.
Proof. induction n; simpl; lia. Qed.

Lemma from_be_be n v : from_be (be n v) = (v mod 256 ^ Z.of_nat n)%Z.
Proof.
  induction n as [|n IH]; [by rewrite Z.mod_1_r|].
  cbn [be from_be]. rewrite be_length, IH, Nat2Z.inj_succ, Z.pow_succ_r by lia.
  rewrite (Z.mul_comm 256), Z.rem_mul_r by lia. lia.
Qed.

Definition varint_size (v : Z) : nat :=
  if (v <? 2 ^ 6)%Z then 0 else if (v <? 2 ^ 14)%Z then 1 else if (v <? 2 ^ 30)%Z then 2 else 3.

Definition varint_bytes (tag : nat) : nat := Nat.pow 2 tag.
Definition varint_room (tag : nat) : Z := (2 ^ (8 * Z.of_nat (varint_bytes tag) - 2))%Z.

Definition take_be (n : nat) (b : bytes) : option (Z * bytes) :=
  if n <=? length b then Some (from_be (take n b), drop n b) else None.

Lemma take_be_be n v rest :
  (0 <= v < 256 ^ Z.of_nat n)%Z -> take_be n (be n v ++ rest) = Some (v, rest).
Proof.
  intros Hv. unfold take_be. rewrite length_app, be_length.
  destruct (Nat.leb_spec n (n + length rest)); [|lia].
  rewrite take_app_length', drop_app_length' by (by rewrite be_length).
  rewrite from_be_be, Z.mod_small by done. done.
Qed.

#[export] Instance wire_reference : Wire := {
  varint_encode v :=
    let tag := varint_size v in be (varint_bytes tag) (Z.of_nat tag * varint_room tag + v);
  varint_decode b :=
    match b with
    | [] => (None, [])
    | x :: _ =>
        let tag := Z.to_nat (x / 64) in
        match take_be (varint_bytes tag) b with
        | Some (v, b) => (Some (v mod varint_room tag)%Z, b)
        | None => (None, [])
        end
    end;
  put_u8 := be 1; put_u16 := be 2; try_get_u8 := take_be 1; try_get_u16 := take_be 2;
}.

Lemma varint_room_split tag :
  exists k, varint_bytes tag = S k /\ varint_room tag = (64 * 256 ^ Z.of_nat k)%Z.
Proof.
  unfold varint_room, varint_bytes. pose proof (Nat.pow_nonzero 2 tag ltac:(lia)) as Hn.
  destruct (2 ^ tag) as [|k]; [done|]. exists k. split; [done|].
  change 64%Z with (2 ^ 6)%Z. change 256%Z with (2 ^ 8)%Z.
  rewrite <- Z.pow_mul_r, <- Z.pow_add_r by lia. f_equal. lia.
Qed.

Lemma varint_head tag v rest :
  tag <= 3 -> (0 <= v < varint_room tag)%Z ->
  exists x l, be (varint_bytes tag) (Z.of_nat tag * varint_room tag + v) ++ rest = x :: l
    /\ Z.to_nat (x / 64) = tag.
Proof.
  intros Ht Hv. destruct (varint_room_split tag) as (k&Hk&Hr). rewrite Hk. cbn [be].
  eexists _, _. split; [done|]. set (P := (256 ^ Z.of_nat k)%Z) in *.
  assert (0 < P)%Z by (unfold P; lia). rewrite Hr in *.
  assert ((Z.of_nat tag * (64 * P) + v) / P / 64 = Z.of_nat tag)%Z as E.
  { rewrite Z.div_div by lia. rewrite (Z.mul_comm P), Z.div_add_l by lia.
    rewrite Z.div_small by lia. lia. }
  rewrite Z.mod_small; [rewrite E; lia|].
  split; [apply Z.div_pos; lia | apply Z.div_lt_upper_bound; [done|]]. nia.
Qed.

#[export] Instance wire_reference_laws : WireLaws wire_reference.
Proof.
  split; simpl.
  - intros v rest Hv.
    assert (varint_size v <= 3 /\ (0 <= v < varint_room (varint_size v))%Z) as [Ht Hr].
    { assert (varint_room 0 = 2 ^ 6 /\ varint_room 1 = 2 ^ 14 /\ varint_room 2 = 2 ^ 30
              /\ varint_room 3 = 2 ^ 62)%Z as (R0&R1&R2&R3) by done.
      unfold varint_size.
      destruct (Z.ltb_spec v (2 ^ 6)), (Z.ltb_spec v (2 ^ 14)), (Z.ltb_spec v (2 ^ 30));
        rewrite ?R0, ?R1, ?R2, ?R3; lia. }
    destruct (varint_head (varint_size v) v rest Ht Hr) as (x&l&E&Hx). rewrite E, Hx, <- E.
    rewrite take_be_be.
    + rewrite Z.add_comm, Z.mod_add by lia. by rewrite Z.mod_small.
    + destruct (varint_room_split (varint_size v)) as (k&->&Hk). rewrite Hk in *.
      rewrite Nat2Z.inj_succ, Z.pow_succ_r by lia. nia.
  - intros v Hv. unfold varint_size. by destruct (Z.ltb_spec v (2 ^ 6)); [|lia].
  - intros v rest Hv. apply (take_be_be 1). exact Hv.
  - done.
  - intros v rest Hv. apply (take_be_be 2). exact Hv.
  - done.
Qed.

(** ** The theorems at work *)
(** A packet of four bytes in datagrams of eight bytes, and one fragment of another packet. *)
Definition ex_packet : bytes := [11; 22; 33; 44]%Z.
Definition ex_fragments : list bytes :=
  match fragment_packet 8 ex_packet 7 with FragmentsOf frags => frags | _ => [] end.
Definition ex_other : bytes := encode_fragment 9 2 0 [1%Z].

Lemma reassembled_in_any_order_witness :
  answers 7 (reverse ex_fragments ++ [ex_other]) Fragments_default
  = [Ok ReceivedFragment; Ok (Reassembled ex_packet)].
Proof.
  apply (reassembled_in_any_order 8 ex_packet 7 ex_fragments);
    [done | done | by apply Nat.leb_le | | by apply Nat.leb_le | apply not_elem_of_nil | done].
  assert (filter (of_packet 7) (reverse ex_fragments ++ [ex_other]) = reverse ex_fragments) as ->
    by reflexivity.
  apply reverse_Permutation.
Defined.

Lemma unseen_default id : unseen id Fragments_default.
Proof. split; [by apply not_elem_of_nil | done]. Qed.

(** The fragments arrive in reverse with another packet's between them. *)
Definition ex_arrivals : list (bool * bytes) :=
  let ds := map (pair true) (reverse (server_socket_send 8 7 3 (client_packet (ex_packet ++ ex_packet))).1) in
  take 1 ds ++ [(false, ex_other)] ++ drop 1 ds.
Lemma uplink_intact_witness :
  sent_for ex_arrivals Fragments_default = [ex_packet ++ ex_packet]
  /\ (proxy_tx_task (map snd ex_arrivals) Fragments_default).2
     ≡ₚ (ex_packet ++ ex_packet) :: sent_for (others ex_arrivals) Fragments_default.
Proof.
  apply (uplink_intact 8 7 3 _ (server_socket_send 8 7 3 (client_packet (ex_packet ++ ex_packet))).1 8);
    [done | done | apply unseen_default | reflexivity | | | by apply Nat.leb_le].
  - assert (mine ex_arrivals = reverse (server_socket_send 8 7 3 (client_packet (ex_packet ++ ex_packet))).1) as -> by reflexivity.
    apply reverse_Permutation.
  - repeat constructor; simpl; intros ?; try discriminate.
Defined.

Definition ex_proxy : ProxyRx := {| proxy_recv_buf := []; rx_fragment_id := 7 |}.

Lemma downlink_intact_witness :
  map snd (fragment_reassembly_task 0
             (map (fun '(a, d) => (0%Z, a, d)) (map (pair tt)
                (reverse (proxy_rx_step 8 255 (RecvFrom (ex_packet ++ ex_packet) true) ex_proxy).1)))
             Fragments_default).2 = [ex_packet ++ ex_packet].
Proof.
  eapply (downlink_intact 8 255 _ ex_proxy);
    [done | done | apply unseen_default | done | done | reflexivity | done |].
  change (map snd (map ?f ?l)) with (snd <$> (f <$> l)). rewrite <- list_fmap_compose, list_fmap_id.
  apply reverse_Permutation.
Defined.

Lemma receive_error_corrupts_next_witness :
  exists s1 s2 d,
    proxy_rx_step 1200 1 RecvError ex_proxy = ([], RxContinue s1)
    /\ proxy_rx_step 1200 1 (RecvFrom ex_packet true) s1 = ([d], RxContinue s2)
    /\ fragment_reassembly_task 0 [(0%Z, tt, d)] Fragments_default
       = (Fragments_default, [(tt, varint_encode HTTP_MASQUE_DATAGRAM_CONTEXT_ID ++ ex_packet)])
    /\ varint_encode HTTP_MASQUE_DATAGRAM_CONTEXT_ID ++ ex_packet <> ex_packet.
Proof. apply (receive_error_corrupts_next 1200 1 ex_packet ex_proxy 0 tt Fragments_default); done. Defined.

Lemma fragment_packet_exact_witness :
  fragment_packet 6 (repeat 0%Z 256) 7 = PacketTooLarge 256
  /\ exists frags, fragment_packet 8 ex_packet 7 = FragmentsOf frags
       /\ Forall (fun d => (5 < Z.of_nat (length d) <= 8)%Z) frags /\ length frags <= 255.
Proof.
  split.
  - exact (fragment_packet_exact 6 (repeat 0%Z 256) 7 ltac:(done) ltac:(done)).
  - exact (fragment_packet_exact 8 ex_packet 7 ltac:(done) ltac:(done)).
Defined.

(** The bound of 255 in [reassembled_in_any_order] is exact: with 254 other fragments between its two
    fragments a packet is lost. *)
Example flooded :
  answers 7 (take 1 ex_fragments ++ map (fun i => encode_fragment i 2 0 [1%Z]) (seqZ 100 253)
             ++ drop 1 ex_fragments) Fragments_default
  = [Ok ReceivedFragment; Ok (Reassembled ex_packet)]
  /\ answers 7 (take 1 ex_fragments ++ map (fun i => encode_fragment i 2 0 [1%Z]) (seqZ 100 254)
             ++ drop 1 ex_fragments) Fragments_default
  = [Ok ReceivedFragment; Ok ReceivedFragment].
Proof. by split; vm_compute. Qed.
