(* ===== verification/RelayTypes.v ===== *)
(** * Constraints on relays

    [src/mullvad-types/src/]: constraints and their intersection ([constraints/]), the constraints on
    relays and the obfuscation settings ([relay_constraints.rs], [relay_selector/mod.rs]), custom lists
    ([custom_list.rs]) and the relay list ([relay_list.rs]).

    A [HashSet] of providers is a [gset]; a [HashSet] of addresses is a list, in the order of its
    iteration.  Coordinates are opaque. *)

From stdpp Require Import base list gmap strings option numbers sets.
From S2P Require Import Prelude NetTypes.

(** ** Constraints and intersections *)
Inductive Constraint (T : Type) : Type :=
| Any
| Only (value : T).
Arguments Any {T}.
Arguments Only {T} value.

#[global] Instance Constraint_eq_dec `{EqDecision T} : EqDecision (Constraint T).
Proof. solve_decision. Defined.

Definition is_any_or {T} (c : Constraint T) (f : T -> bool) : bool :=
  match c with Any => true | Only value => f value end.

Definition unwrap_or_else {T} (c : Constraint T) (or_else : T) : T :=
  match c with Only value => value | Any => or_else end.

(** The trait [Intersection], and what its documentation asks of every implementation. *)
Class Intersection (T : Type) : Type := intersection : T -> T -> option T.

Class IntersectionLaws (T : Type) `{Intersection T} : Prop := {
  intersection_idemp a : intersection a a = Some a;
  intersection_comm a b : intersection a b = intersection b a;
  intersection_assoc a b c :
    (intersection a b ≫= fun ab => intersection ab c) = (intersection b c ≫= intersection a);
}.

(** [impl_intersection_partialeq!]. *)
Definition intersection_partialeq {T} `{EqDecision T} : Intersection T :=
  fun a b => if decide (a = b) then Some a else None.

#[global] Instance Constraint_intersection `{Intersection T} : Intersection (Constraint T) :=
  fun a b => match a, b with
             | Any, Any => Some Any
             | Only t, Any | Any, Only t => Some (Only t)
             | Only l, Only r => Only <$> intersection l r
             end.

#[global] Instance u16_intersection : Intersection Z := intersection_partialeq.
#[global] Instance bool_intersection : Intersection bool := intersection_partialeq.
#[global] Instance IpVersion_intersection : Intersection IpVersion := intersection_partialeq.

(** ** Locations, providers and ownership *)
Inductive GeographicLocationConstraint : Type :=
| Country (country : string)
| City (country city : string)
| Hostname (country city hostname : string).

#[global] Instance GeographicLocationConstraint_eq_dec : EqDecision GeographicLocationConstraint.
Proof. solve_decision. Defined.

Definition is_country (l : GeographicLocationConstraint) : bool :=
  match l with Country _ => true | _ => false end.

(** Identifiers of custom lists are opaque. *)
Inductive LocationConstraint : Type :=
| InLocation (location : GeographicLocationConstraint)
| InCustomList (list_id : Z).

#[global] Instance LocationConstraint_eq_dec : EqDecision LocationConstraint.
Proof. solve_decision. Defined.
#[global] Instance LocationConstraint_intersection : Intersection LocationConstraint :=
  intersection_partialeq.

Inductive Ownership : Type := MullvadOwned | Rented.

#[global] Instance Ownership_eq_dec : EqDecision Ownership.
Proof. solve_decision. Defined.
#[global] Instance Ownership_intersection : Intersection Ownership := intersection_partialeq.

Definition Providers : Type := gset string.
#[global] Instance Providers_intersection : Intersection Providers := intersection_partialeq.

(** ** The relay list *)
Record Location : Type := {
  country_name : string; country_code : string;
  city_name : string; city_code : string;
  latitude : Z; longitude : Z;
}.

Record QuicData : Type := { addr_in : list IpAddr; token : string; domain : string }.

Definition in_ipv4 (q : QuicData) : list Z :=
  omap (fun ip => match ip with V4 a => Some a | V6 _ => None end) (addr_in q).
Definition in_ipv6 (q : QuicData) : list Z :=
  omap (fun ip => match ip with V6 a => Some a | V4 _ => None end) (addr_in q).
Definition quic_port : Z := 443.

Record WireguardRelayEndpointData : Type := {
  relay_public_key : string;
  relay_daita : bool;
  relay_quic : option QuicData;
  relay_lwo : bool;
  shadowsocks_extra_addr_in : list IpAddr;
}.

Record Relay : Type := {
  hostname : string;
  ipv4_addr_in : Z;
  ipv6_addr_in : option Z;
  active : bool;
  weight : Z;
  location : Location;
}.

Record WireguardRelay : Type := {
  overridden_ipv4 : bool;
  overridden_ipv6 : bool;
  include_in_country : bool;
  owned : bool;
  provider : string;
  endpoint_data : WireguardRelayEndpointData;
  inner : Relay;
}.

(** [PartialEq] for relays compares their host names. *)
Definition relay_eqb (a b : WireguardRelay) : bool :=
  bool_decide (hostname (inner a) = hostname (inner b)).

(** [RangeInclusive<u16>], as its two ends. *)
Definition port_range : Type := Z * Z.

Record EndpointData : Type := {
  port_ranges : list port_range;
  ed_ipv4_gateway : Z;
  ed_ipv6_gateway : Z;
  shadowsocks_port_ranges : list port_range;
  udp2tcp_ports : list Z;
}.

Record RelayListCity : Type := {
  rc_name : string; rc_code : string; rc_latitude : Z; rc_longitude : Z;
  relays : list WireguardRelay;
}.

Record RelayListCountry : Type := { rlc_name : string; rlc_code : string; cities : list RelayListCity }.

Record RelayList : Type := { countries : list RelayListCountry; wireguard : EndpointData }.

Definition RelayList_relays (l : RelayList) : list WireguardRelay :=
  concat (map relays (concat (map cities (countries l)))).

(** The trait [Match<WireguardRelay>]. *)
Class Match (T : Type) : Type := matches : T -> WireguardRelay -> bool.

#[global] Instance Constraint_match `{Match T} : Match (Constraint T) :=
  fun c relay => match c with Any => true | Only value => matches value relay end.

#[global] Instance GeographicLocationConstraint_match : Match GeographicLocationConstraint :=
  fun l relay =>
    let loc := location (inner relay) in
    match l with
    | Country country => bool_decide (country_code loc = country)
    | City country city =>
        bool_decide (country_code loc = country) && bool_decide (city_code loc = city)
    | Hostname country city host =>
        bool_decide (country_code loc = country) && bool_decide (city_code loc = city)
        && bool_decide (hostname (inner relay) = host)
    end.

#[global] Instance Ownership_match : Match Ownership :=
  fun o relay => match o with MullvadOwned => owned relay | Rented => negb (owned relay) end.

#[global] Instance Providers_match : Match Providers :=
  fun p relay => bool_decide (provider relay ∈ p).

(** ** Overrides *)
Record RelayOverride : Type := {
  ov_hostname : string;
  ov_ipv4_addr_in : option Z;
  ov_ipv6_addr_in : option Z;
}.

Definition with_inner (r : WireguardRelay) (o4 o6 : bool) (i : Relay) : WireguardRelay :=
  {| overridden_ipv4 := o4; overridden_ipv6 := o6; include_in_country := include_in_country r;
     owned := owned r; provider := provider r; endpoint_data := endpoint_data r; inner := i |}.

Definition override_ipv4 (new_ipv4 : Z) (r : WireguardRelay) : WireguardRelay :=
  let i := inner r in
  with_inner r true (overridden_ipv6 r)
    {| hostname := hostname i; ipv4_addr_in := new_ipv4; ipv6_addr_in := ipv6_addr_in i;
       active := active i; weight := weight i; location := location i |}.

Definition override_ipv6 (new_ipv6 : Z) (r : WireguardRelay) : WireguardRelay :=
  let i := inner r in
  with_inner r (overridden_ipv4 r) true
    {| hostname := hostname i; ipv4_addr_in := ipv4_addr_in i; ipv6_addr_in := Some new_ipv6;
       active := active i; weight := weight i; location := location i |}.

Definition apply_to_relay (o : RelayOverride) (r : WireguardRelay) : WireguardRelay :=
  let r := match ov_ipv4_addr_in o with Some a => override_ipv4 a r | None => r end in
  let r := match ov_ipv6_addr_in o with Some a => override_ipv6 a r | None => r end in
  let d := endpoint_data r in
  let retain addr :=
    let not_overridden_v4 := bool_decide (ov_ipv4_addr_in o = None) && is_ipv4 addr in
    let not_overridden_v6 := bool_decide (ov_ipv6_addr_in o = None) && negb (is_ipv4 addr) in
    not_overridden_v4 || not_overridden_v6 in
  {| overridden_ipv4 := overridden_ipv4 r; overridden_ipv6 := overridden_ipv6 r;
     include_in_country := include_in_country r; owned := owned r; provider := provider r;
     endpoint_data :=
       {| relay_public_key := relay_public_key d; relay_daita := relay_daita d;
          relay_quic := relay_quic d; relay_lwo := relay_lwo d;
          shadowsocks_extra_addr_in := List.filter retain (shadowsocks_extra_addr_in d) |};
     inner := inner r |}.

(** ** Custom lists *)
Record CustomList : Type := {
  cl_id : Z; cl_name : string; cl_locations : list GeographicLocationConstraint
}.

Inductive CustomListError : Type := NameTooLong | DuplicateName | ListNotFound | ListExists.

Definition CustomListsSettings : Type := list CustomList.

Definition check_list_name_is_unique (ls : CustomListsSettings) (new_list : CustomList)
  : result unit CustomListError :=
  if existsb (fun l => bool_decide (cl_name l = cl_name new_list) && negb (cl_id l =? cl_id new_list)%Z) ls
  then Err DuplicateName else Ok tt.

Definition check_if_id_is_unique (ls : CustomListsSettings) (new_list : CustomList)
  : result unit CustomListError :=
  if existsb (fun l => (cl_id l =? cl_id new_list)%Z) ls then Err ListExists else Ok tt.

Definition find_list_index (ls : CustomListsSettings) (list_id : Z) : option nat :=
  fst <$> list_find (fun l => cl_id l = list_id) ls.

Local Open Scope vpn_scope.

Definition CustomLists_add (ls : CustomListsSettings) (new_list : CustomList)
  : result CustomListsSettings CustomListError :=
  check_if_id_is_unique ls new_list ;?
  check_list_name_is_unique ls new_list ;?
  Ok (ls ++ [new_list]).

Definition CustomLists_remove (ls : CustomListsSettings) (list_id : Z)
  : result CustomListsSettings CustomListError :=
  match find_list_index ls list_id with
  | None => Err ListNotFound
  | Some list_index => Ok (delete list_index ls)
  end.

Definition CustomLists_update (ls : CustomListsSettings) (new_list : CustomList)
  : result CustomListsSettings CustomListError :=
  match find_list_index ls (cl_id new_list) with
  | None => Err ListNotFound
  | Some list_index =>
      check_list_name_is_unique ls new_list ;?
      Ok (<[list_index := new_list]> ls)
  end.

(** ** Obfuscation settings *)
(** [Udp2TcpObfuscationSettings], [ShadowsocksSettings], [WireguardPortSettings] and [LwoSettings] have
    the port as their only field. *)
Record PortSettings : Type := { port : Constraint Z }.

#[global] Instance PortSettings_eq_dec : EqDecision PortSettings.
Proof. solve_decision. Defined.
#[global] Instance PortSettings_intersection : Intersection PortSettings :=
  fun a b => (fun p => {| port := p |}) <$> intersection (port a) (port b).
Definition PortSettings_default : PortSettings := {| port := Any |}.

Inductive ObfuscationMode : Type :=
| ModeOff
| ModePort (s : PortSettings)
| ModeUdp2tcp (s : PortSettings)
| ModeShadowsocks (s : PortSettings)
| ModeQuic
| ModeLwo (s : PortSettings).

#[global] Instance ObfuscationMode_eq_dec : EqDecision ObfuscationMode.
Proof. solve_decision. Defined.

#[global] Instance ObfuscationMode_intersection : Intersection ObfuscationMode :=
  fun a b => match a, b with
             | ModeOff, ModeOff => Some ModeOff
             | ModePort a, ModePort b => ModePort <$> intersection a b
             | ModeUdp2tcp a, ModeUdp2tcp b => ModeUdp2tcp <$> intersection a b
             | ModeShadowsocks a, ModeShadowsocks b => ModeShadowsocks <$> intersection a b
             | ModeQuic, ModeQuic => Some ModeQuic
             | ModeLwo a, ModeLwo b => ModeLwo <$> intersection a b
             | _, _ => None
             end.

Inductive SelectedObfuscation : Type :=
| SelAuto | SelOff | SelWireguardPort | SelUdp2Tcp | SelShadowsocks | SelQuic | SelLwo.

Record ObfuscationSettings : Type := {
  selected_obfuscation : SelectedObfuscation;
  os_udp2tcp : PortSettings;
  os_shadowsocks : PortSettings;
  os_wireguard_port : PortSettings;
  os_lwo : PortSettings;
}.

Definition settings_with (sel : SelectedObfuscation) : ObfuscationSettings :=
  {| selected_obfuscation := sel; os_udp2tcp := PortSettings_default;
     os_shadowsocks := PortSettings_default; os_wireguard_port := PortSettings_default;
     os_lwo := PortSettings_default |}.

Definition ObfuscationMode_into_settings (m : ObfuscationMode) : ObfuscationSettings :=
  match m with
  | ModeOff => settings_with SelOff
  | ModeQuic => settings_with SelQuic
  | ModeLwo s =>
      {| selected_obfuscation := SelLwo; os_udp2tcp := PortSettings_default;
         os_shadowsocks := PortSettings_default; os_wireguard_port := PortSettings_default;
         os_lwo := s |}
  | ModePort s =>
      {| selected_obfuscation := SelWireguardPort; os_udp2tcp := PortSettings_default;
         os_shadowsocks := PortSettings_default; os_wireguard_port := s;
         os_lwo := PortSettings_default |}
  | ModeUdp2tcp s =>
      {| selected_obfuscation := SelUdp2Tcp; os_udp2tcp := s;
         os_shadowsocks := PortSettings_default; os_wireguard_port := PortSettings_default;
         os_lwo := PortSettings_default |}
  | ModeShadowsocks s =>
      {| selected_obfuscation := SelShadowsocks; os_udp2tcp := PortSettings_default;
         os_shadowsocks := s; os_wireguard_port := PortSettings_default;
         os_lwo := PortSettings_default |}
  end.

Definition obfuscation_to_settings (c : Constraint ObfuscationMode) : ObfuscationSettings :=
  match c with Any => settings_with SelAuto | Only mode => ObfuscationMode_into_settings mode end.

Definition obfuscation_constraint_from_settings (o : ObfuscationSettings) : Constraint ObfuscationMode :=
  match selected_obfuscation o with
  | SelAuto => Any
  | SelOff => Only ModeOff
  | SelWireguardPort => Only (ModePort (os_wireguard_port o))
  | SelUdp2Tcp => Only (ModeUdp2tcp (os_udp2tcp o))
  | SelShadowsocks => Only (ModeShadowsocks (os_shadowsocks o))
  | SelQuic => Only ModeQuic
  | SelLwo => Only (ModeLwo (os_lwo o))
  end.

(** ** Constraints on the two ends of a tunnel *)
Record EntrySpecificConstraints : Type := {
  obfuscation : Constraint ObfuscationMode;
  daita : Constraint bool;
  ip_version : Constraint IpVersion;
}.

#[global] Instance EntrySpecificConstraints_intersection : Intersection EntrySpecificConstraints :=
  fun a b =>
    o ← intersection (obfuscation a) (obfuscation b);
    d ← intersection (daita a) (daita b);
    v ← intersection (ip_version a) (ip_version b);
    Some {| obfuscation := o; daita := d; ip_version := v |}.

Record ExitConstraints : Type := {
  ec_location : Constraint LocationConstraint;
  ec_providers : Constraint Providers;
  ec_ownership : Constraint Ownership;
}.

Record EntryConstraints : Type := {
  general : ExitConstraints;
  entry_specific : EntrySpecificConstraints;
}.

Record MultihopConstraints : Type := { mh_entry : EntryConstraints; mh_exit : ExitConstraints }.

Definition into_autohop (c : EntryConstraints) : MultihopConstraints :=
  {| mh_entry :=
       {| general := {| ec_location := Any; ec_providers := ec_providers (general c);
                        ec_ownership := ec_ownership (general c) |};
          entry_specific := entry_specific c |};
     mh_exit := general c |}.

Definition EntrySpecificConstraints_default : EntrySpecificConstraints :=
  {| obfuscation := Any; daita := Any; ip_version := Any |}.
Definition with_obfuscation (mode : ObfuscationMode) (c : EntrySpecificConstraints) :=
  {| obfuscation := Only mode; daita := daita c; ip_version := ip_version c |}.
Definition with_ip_version (v : IpVersion) (c : EntrySpecificConstraints) :=
  {| obfuscation := obfuscation c; daita := daita c; ip_version := Only v |}.

Inductive Reason : Type :=
| Conflict | ReasonDaita | Inactive | ReasonIpVersion | ReasonLocation | ReasonObfuscation
| ReasonOwnership | ReasonPort | ReasonProviders | ReasonIncludeInCountry.

Record RelayPartitions : Type := {
  p_matches : list WireguardRelay;
  p_discards : list (WireguardRelay * list Reason);
}.
