(* ===== verification/RelayTypesProps.v ===== *)
(** * Laws of constraints and custom lists

    Every [Intersection] the relay selector uses is idempotent, commutative and associative, as the
    trait's documentation asks, and therefore a meet: merging can only tighten constraints.  Custom
    lists keep their identifiers and names unique. *)

From stdpp Require Import base list gmap strings option numbers sets.
From S2P Require Import Prelude NetTypes RelayTypes.

(** ** Intersection *)
#[export] Instance partialeq_laws `{EqDecision T} : @IntersectionLaws T intersection_partialeq.
Proof.
  split; unfold intersection, intersection_partialeq; intros; repeat (case_decide; simplify_eq/=); done.
Qed.

(** Wrapping a type in a constructor keeps the laws. *)
Lemma wrapped_assoc {A B} `{IA : Intersection A} `{!IntersectionLaws A} (IB : B -> B -> option B)
    (f : A -> B) (a b c : A) :
  (forall x y, IB (f x) (f y) = f <$> intersection x y) ->
  (IB (f a) (f b) ≫= fun ab => IB ab (f c)) = (IB (f b) (f c) ≫= IB (f a)).
Proof.
  intros Hf. rewrite !Hf. pose proof (intersection_assoc a b c) as E.
  destruct (intersection a b) as [ab|], (intersection b c) as [bc|]; simpl in *; rewrite ?Hf, ?E; try done.
  by rewrite <- E.
Qed.

#[export] Instance Constraint_laws `{Intersection T} `{!IntersectionLaws T} :
  IntersectionLaws (Constraint T).
Proof.
  assert (forall x y : T, Constraint_intersection (Only x) (Only y) = Only <$> intersection x y) as Hf
    by done.
  split; unfold intersection.
  - intros [|a]; [done|]. by rewrite Hf, intersection_idemp.
  - intros [|a] [|b]; try done. by rewrite !Hf, intersection_comm.
  - intros [|a] [|b] [|c]; try done; try (by apply wrapped_assoc);
      rewrite ?Hf; simpl; rewrite ?Hf; by destruct (intersection _ _).
Qed.

#[export] Instance PortSettings_laws : IntersectionLaws PortSettings.
Proof.
  assert (forall x y, PortSettings_intersection {| port := x |} {| port := y |}
                      = (fun p => {| port := p |}) <$> intersection x y) as Hf by done.
  split; unfold intersection.
  - intros [a]. by rewrite Hf, intersection_idemp.
  - intros [a] [b]. by rewrite !Hf, intersection_comm.
  - intros [a] [b] [c]. by apply (wrapped_assoc PortSettings_intersection (fun p => {| port := p |})).
Qed.

#[export] Instance ObfuscationMode_laws : IntersectionLaws ObfuscationMode.
Proof.
  split; unfold intersection.
  - intros [|a|a|a| |a]; try done; cbn [ObfuscationMode_intersection]; by rewrite intersection_idemp.
  - intros [|a|a|a| |a] [|b|b|b| |b]; try done; cbn [ObfuscationMode_intersection];
      by rewrite intersection_comm.
  - intros [|a|a|a| |a] [|b|b|b| |b] [|c|c|c| |c]; try done; try (by apply wrapped_assoc);
      cbn [ObfuscationMode_intersection]; by destruct (intersection _ _).
Qed.

(** [a] is at least as strict as [b]. *)
Definition refines `{Intersection T} (a b : T) : Prop := intersection a b = Some a.

Section meet.
Context {T} `{IntersectionLaws T}.

Lemma intersection_lower a b c : intersection a b = Some c -> refines c a /\ refines c b.
Proof.
  unfold refines. intros E. split.
  - pose proof (intersection_assoc a a b) as A. rewrite intersection_idemp, E in A. simpl in A.
    rewrite intersection_comm, <- A. done.
  - pose proof (intersection_assoc a b b) as A. rewrite intersection_idemp, E in A. simpl in A.
    by rewrite E in A.
Qed.

Lemma intersection_greatest a b d :
  refines d a -> refines d b -> exists c, intersection a b = Some c /\ refines d c.
Proof.
  unfold refines. intros Ea Eb. pose proof (intersection_assoc d a b) as A. rewrite Ea in A. simpl in A.
  rewrite Eb in A. destruct (intersection a b) as [c|]; [|done]. by exists c.
Qed.

Lemma refines_trans a b c : refines a b -> refines b c -> refines a c.
Proof.
  unfold refines. intros Hab Hbc. pose proof (intersection_assoc a b c) as A.
  rewrite Hab, Hbc in A. simpl in A. by rewrite A.
Qed.
End meet.

#[export] Instance EntrySpecific_laws : IntersectionLaws EntrySpecificConstraints.
Proof.
  split; unfold intersection, EntrySpecificConstraints_intersection.
  - intros [o d v]. simpl. by rewrite !intersection_idemp.
  - intros [o d v] [o' d' v']. simpl. rewrite (intersection_comm o), (intersection_comm d).
    destruct (intersection o' o); [|done]. simpl. destruct (intersection d' d); [|done]. simpl.
    by rewrite (intersection_comm v).
  - intros [o1 d1 v1] [o2 d2 v2] [o3 d3 v3]. simpl.
    pose proof (intersection_assoc o1 o2 o3) as Eo. pose proof (intersection_assoc d1 d2 d3) as Ed.
    pose proof (intersection_assoc v1 v2 v3) as Ev.
    destruct (intersection o1 o2), (intersection o2 o3), (intersection d1 d2), (intersection d2 d3),
      (intersection v1 v2), (intersection v2 v3); simpl in *;
      repeat match goal with E : None = _ |- _ => symmetry in E end;
      rewrite ?Eo, ?Ed, ?Ev; simpl; try done; repeat (destruct (intersection _ _); simpl; try done).
Qed.

(** Merging constraints only tightens them, and fails only when nothing satisfies both: the
    intersection of two entry constraints is the weakest constraint at least as strict as both, it does
    not depend on the order of merging, and there is none exactly when no constraint is at least as
    strict as both. *)
Theorem intersection_is_meet (a b : EntrySpecificConstraints) :
  match intersection a b with
  | Some c => refines c a /\ refines c b /\ forall d, refines d a -> refines d b -> refines d c
  | None => forall d, ~ (refines d a /\ refines d b)
  end /\ intersection a b = intersection b a /\ intersection a a = Some a.
Proof.
  split; [|split; [apply intersection_comm | apply intersection_idemp]].
  destruct (intersection a b) as [c|] eqn:E.
  - destruct (intersection_lower a b c E). split_and!; [done..|]. intros d Ha Hb.
    destruct (intersection_greatest a b d Ha Hb) as (c'&?&?). by simplify_eq.
  - intros d [Ha Hb]. destruct (intersection_greatest a b d Ha Hb) as (c'&?&?). by simplify_eq.
Qed.

(** ** Obfuscation settings *)
Lemma obfuscation_settings_round_trip c :
  obfuscation_constraint_from_settings (obfuscation_to_settings c) = c.
Proof. by destruct c as [|[]]. Qed.

(** ** Custom lists *)
Definition custom_lists_ok (ls : CustomListsSettings) : Prop :=
  NoDup (map cl_id ls) /\ NoDup (map cl_name ls).

Lemma find_list_index_Some ls i n :
  find_list_index ls i = Some n <->
  exists l, ls !! n = Some l /\ cl_id l = i /\ forall m l', m < n -> ls !! m = Some l' -> cl_id l' <> i.
Proof.
  unfold find_list_index. rewrite fmap_Some. split.
  - intros ([n' l]&H&->). apply list_find_Some in H. simpl. naive_solver.
  - intros (l&?&?&?). exists (n, l). split; [|done]. apply list_find_Some. naive_solver.
Qed.

Lemma check_name_Ok ls l u :
  check_list_name_is_unique ls l = Ok u ->
  forall l', l' ∈ ls -> cl_name l' = cl_name l -> cl_id l' = cl_id l.
Proof.
  unfold check_list_name_is_unique. destruct (existsb _ ls) eqn:E; [done|]. intros _ l' Hl' Hn.
  destruct (decide (cl_id l' = cl_id l)) as [|Hne]; [done|]. exfalso.
  assert (existsb (fun l0 => bool_decide (cl_name l0 = cl_name l) && negb (cl_id l0 =? cl_id l)%Z) ls
          = true) as Ht; [|congruence].
  apply existsb_exists. exists l'. split; [by apply list_elem_of_In|].
  rewrite bool_decide_eq_true_2 by done. simpl. by destruct (Z.eqb_spec (cl_id l') (cl_id l)).
Qed.

Inductive CustomListOp : Type :=
| OpAdd (l : CustomList)
| OpRemove (list_id : Z)
| OpUpdate (l : CustomList)
| OpClear.

(** A failed operation leaves the lists as they were. *)
Definition apply_op (ls : CustomListsSettings) (op : CustomListOp) : CustomListsSettings :=
  let r := match op with
           | OpAdd l => CustomLists_add ls l
           | OpRemove i => CustomLists_remove ls i
           | OpUpdate l => CustomLists_update ls l
           | OpClear => Ok []
           end in
  match r with Ok ls' => ls' | Err _ => ls end.

Lemma add_ok ls l ls' :
  custom_lists_ok ls -> CustomLists_add ls l = Ok ls' -> custom_lists_ok ls' /\ ls' = ls ++ [l].
Proof.
  intros [Hi Hn]. unfold CustomLists_add. rewrite bind_result_Ok. intros (u&Hu&H).
  apply bind_result_Ok in H as (v&Hv&[= <-]). split; [|done].
  unfold check_if_id_is_unique in Hu. destruct (existsb _ ls) eqn:E; [done|].
  assert (forall l', l' ∈ ls -> cl_id l' <> cl_id l) as Hf.
  { intros l' Hl' Heq. assert (existsb (fun l0 => (cl_id l0 =? cl_id l)%Z) ls = true); [|congruence].
    apply existsb_exists. exists l'. split; [by apply list_elem_of_In | by apply Z.eqb_eq]. }
  unfold custom_lists_ok. rewrite !map_app. simpl. split; apply NoDup_app; split_and!; try done;
    try apply NoDup_singleton; intros x (l'&->&Hl')%list_elem_of_fmap Hx; apply list_elem_of_singleton in Hx.
  - by eapply Hf.
  - eapply Hf; [done|]. by eapply check_name_Ok.
Qed.

Lemma map_delete {A B} (f : A -> B) i (l : list A) : map f (delete i l) = delete i (map f l).
Proof. revert i. induction l as [|x l IH]; intros [|i]; simpl; try done. f_equal. apply IH. Qed.

Lemma map_insert {A B} (f : A -> B) i x (l : list A) : map f (<[i := x]> l) = <[i := f x]> (map f l).
Proof. apply list_fmap_insert. Qed.

Lemma NoDup_delete {A} i (l : list A) : NoDup l -> NoDup (delete i l).
Proof. intros H. eapply sublist_NoDup; [done|]. apply sublist_delete. Qed.

Lemma update_ok ls l ls' :
  custom_lists_ok ls -> CustomLists_update ls l = Ok ls' ->
  custom_lists_ok ls' /\ exists n, find_list_index ls (cl_id l) = Some n /\ ls' = <[n := l]> ls.
Proof.
  intros [Hi Hn]. unfold CustomLists_update.
  destruct (find_list_index ls (cl_id l)) as [n|] eqn:Hf; [|done]. rewrite bind_result_Ok.
  intros (u&Hu&[= <-]). split; [|by exists n].
  apply find_list_index_Some in Hf as (l0&Hl0&Hid&_). unfold custom_lists_ok.
  unfold CustomListsSettings in *. rewrite !map_insert. split.
  - rewrite list_insert_id; [done|]. change (map cl_id ls) with (cl_id <$> ls).
    rewrite list_lookup_fmap, Hl0. simpl. by rewrite Hid.
  - apply NoDup_alt. intros i j x Hx Hy. rewrite !list_lookup_insert_Some in Hx, Hy.
    assert (forall k, k <> n -> (cl_name <$> ls) !! k = Some (cl_name l) -> False) as Hno.
    { intros k Hk Hkl. rewrite list_lookup_fmap in Hkl. apply fmap_Some in Hkl as (lk&Hlk&Hnk).
      assert (cl_id lk = cl_id l) as E
        by (eapply check_name_Ok; [done | by eapply list_elem_of_lookup_2 | done]).
      apply Hk. eapply (NoDup_lookup (cl_id <$> ls)); [done| |]; rewrite list_lookup_fmap.
      - rewrite Hlk. simpl. by rewrite E.
      - rewrite Hl0. simpl. by rewrite Hid. }
    destruct Hx as [(Hi1&Ex&_)|[Hi1 Hx]], Hy as [(Hj1&Ey&_)|[Hj1 Hy]]; [congruence| | |].
    + exfalso. apply (Hno j); [done|]. by rewrite Ex.
    + exfalso. apply (Hno i); [done|]. by rewrite Ey.
    + by eapply (NoDup_lookup (cl_name <$> ls)).
Qed.

(** Custom lists keep unique identifiers and unique names: whatever sequence of additions, removals,
    updates and clearings is performed, failed ones included, no two lists share an identifier or a
    name. *)
Theorem custom_lists_stay_ok (ops : list CustomListOp) : custom_lists_ok (foldl apply_op [] ops).
Proof.
  assert (forall ls, custom_lists_ok ls -> custom_lists_ok (foldl apply_op ls ops)) as H.
  { induction ops as [|op ops IH]; intros ls Hls; [done|]. apply IH. unfold apply_op.
    destruct op as [l|i|l|]; [| | |by split; constructor].
    - destruct (CustomLists_add ls l) as [ls'|] eqn:E; [|done]. by apply (add_ok ls l).
    - destruct (CustomLists_remove ls i) as [ls'|] eqn:E; [|done]. unfold CustomLists_remove in E.
      destruct (find_list_index ls i); simplify_eq. destruct Hls.
      unfold CustomListsSettings. by split; rewrite map_delete; apply NoDup_delete.
    - destruct (CustomLists_update ls l) as [ls'|] eqn:E; [|done]. by apply (update_ok ls l). }
  apply H. by split; constructor.
Qed.

(** ** Overrides *)
(** An overridden address replaces the relay's, and no other address of its version remains. *)
Lemma override_replaces o r a :
  ov_ipv4_addr_in o = Some a ->
  ipv4_addr_in (inner (apply_to_relay o r)) = a
  /\ Forall (fun ip => is_ipv4 ip = false) (shadowsocks_extra_addr_in (endpoint_data (apply_to_relay o r)))
  /\ hostname (inner (apply_to_relay o r)) = hostname (inner r).
Proof.
  intros Ho. unfold apply_to_relay. rewrite Ho. split_and!.
  - by destruct (ov_ipv6_addr_in o).
  - apply Forall_forall. intros ip Hip%list_elem_of_In. cbn in Hip. apply filter_In in Hip as [_ Hip].
    destruct (is_ipv4 ip); [|done]. rewrite andb_false_r in Hip. done.
  - by destruct (ov_ipv6_addr_in o).
Qed.
