(* ===== verification/RelaySelector.v ===== *)
(** * The relay selector

    [src/mullvad-relay-selector/src/relay_selector/]: the endpoints of a relay and whether they meet
    the constraints ([endpoint_set.rs]), partitioning the relay list ([filter.rs]), weighted choice
    ([helpers.rs]), the endpoint of a tunnel ([detailer.rs]), queries ([query.rs]) and the selection
    itself ([mod.rs]).

    Random numbers come from the [rand] crate: the class [Rng], a generator with a state.  Distances
    are computed with [f64]; the model keeps their order, as numbers ([Geography]).  A computation may
    panic where the source calls [expect]: the outermost [option] of its result is then [None]. *)

From stdpp Require Import base list gmap strings option numbers sets sorting.
From S2P Require Import Prelude NetTypes RelayTypes.

(** [choose_index n] is the position that [choose] picks among [n] items; [random_range a b] picks from
    [a..=b]. *)
Class Rng (S : Type) : Type := {
  choose_index : nat -> S -> S * nat;
  random_range : Z -> Z -> S -> S * Z;
}.

Class RngLaws (S : Type) (R : Rng S) : Prop := {
  choose_index_lt n s : 0 < n -> (choose_index n s).2 < n;
  random_range_within a b s : (a <= b)%Z -> (a <= (random_range a b s).2 <= b)%Z;
}.

Class Geography : Type := distance_from : Location -> Location -> Z.

(** ** Random computations *)
Definition R (S A : Type) : Type := S -> S * A.
Definition retR {S A} (a : A) : R S A := fun s => (s, a).
Definition bindR {S A B} (m : R S A) (k : A -> R S B) : R S B := fun s => let '(s, a) := m s in k a s.

Notation "x <~ m ; k" := (bindR m (fun x => k))
  (at level 100, m at next level, right associativity) : vpn_scope.
Local Open Scope vpn_scope.

(** ** Verdicts *)
Inductive Verdict : Type :=
| Accept
| Reject (reasons : list Reason).

Definition verdict_and (a b : Verdict) : Verdict :=
  match a, b with
  | Accept, Accept => Accept
  | Accept, Reject reasons | Reject reasons, Accept => Reject reasons
  | Reject l, Reject r => Reject (l ++ r)
  end.

Definition verdict_all (l : list Verdict) : Verdict := foldl verdict_and Accept l.

Definition if_false (b : bool) (reason : Reason) : Verdict := if b then Accept else Reject [reason].

Definition is_accept (v : Verdict) : bool := match v with Accept => true | Reject _ => false end.

(** ** The endpoints of a relay *)
Record WireguardEndpoints : Type := { we_ipv4 : Z; we_ipv6 : option Z; we_port_ranges : list port_range }.

Record ShadowsocksEndpoints : Type := {
  dedicated_addrs : list IpAddr;
  ss_port_ranges : option (list port_range);
}.

Record QuicEndpoints : Type := {
  qe_ipv4 : list Z; qe_ipv6 : list Z; qe_hostname : string; qe_auth_token : string
}.

Record RelayEndpointSet : Type := {
  es_wireguard : WireguardEndpoints;
  es_shadowsocks : option ShadowsocksEndpoints;
  es_udp2tcp_ports : option (list Z);
  es_quic : option QuicEndpoints;
  es_lwo : bool;
}.

(** [Vec1::try_from_vec(..).ok()]. *)
Definition vec1 {A} (l : list A) : option (list A) := match l with [] => None | _ => Some l end.

Definition ShadowsocksEndpoints_new (relay : WireguardRelay) (data : EndpointData)
  : option ShadowsocksEndpoints :=
  let dedicated := shadowsocks_extra_addr_in (endpoint_data relay) in
  let ranges := shadowsocks_port_ranges data in
  match dedicated, ranges with
  | [], [] => None
  | _, _ => Some {| dedicated_addrs := dedicated; ss_port_ranges := vec1 ranges |}
  end.

Definition QuicEndpoints_new (relay : WireguardRelay) : option QuicEndpoints :=
  quic ← relay_quic (endpoint_data relay);
  match in_ipv4 quic, in_ipv6 quic with
  | [], [] => None
  | ipv4, ipv6 =>
      Some {| qe_ipv4 := ipv4; qe_ipv6 := ipv6; qe_hostname := domain quic; qe_auth_token := token quic |}
  end.

Definition RelayEndpointSet_new (relay : WireguardRelay) (data : EndpointData)
  : option RelayEndpointSet :=
  wg_port_ranges ← vec1 (port_ranges data);
  Some {| es_wireguard := {| we_ipv4 := ipv4_addr_in (inner relay);
                             we_ipv6 := ipv6_addr_in (inner relay);
                             we_port_ranges := wg_port_ranges |};
          es_shadowsocks := ShadowsocksEndpoints_new relay data;
          es_udp2tcp_ports := vec1 (udp2tcp_ports data);
          es_quic := QuicEndpoints_new relay;
          es_lwo := relay_lwo (endpoint_data relay) |}.

Definition range_contains (p : Z) (r : port_range) : bool := (r.1 <=? p)%Z && (p <=? r.2)%Z.

Definition port_in_ranges (ranges : list port_range) (p : Constraint Z) : bool :=
  is_any_or p (fun p => existsb (range_contains p) ranges).

Definition select_ip (wg : WireguardEndpoints) (v : Constraint IpVersion) : option IpAddr :=
  match v with
  | Any | Only IpVersion_V4 => Some (V4 (we_ipv4 wg))
  | Only IpVersion_V6 => V6 <$> we_ipv6 wg
  end.

Definition supports_ip_version (wg : WireguardEndpoints) (v : Constraint IpVersion) : bool :=
  bool_decide (is_Some (select_ip wg v)).

Definition supports_port (wg : WireguardEndpoints) (p : Constraint Z) : bool :=
  port_in_ranges (we_port_ranges wg) p.

Definition has_version (v : Constraint IpVersion) (ip : IpAddr) : bool :=
  match v with Any => true | Only v => bool_decide (IpVersion_from ip = v) end.

Definition has_dedicated_addr (ss : ShadowsocksEndpoints) (v : Constraint IpVersion) : bool :=
  match v with
  | Any => negb (bool_decide (dedicated_addrs ss = []))
  | Only v => existsb (fun ip => bool_decide (IpVersion_from ip = v)) (dedicated_addrs ss)
  end.

Definition shadowsocks_verdict (ss : ShadowsocksEndpoints) (wg : WireguardEndpoints)
    (v : Constraint IpVersion) (p : Constraint Z) : Verdict :=
  if has_dedicated_addr ss v then Accept
  else
    let wg_verdict :=
      match ss_port_ranges ss with
      | None => Reject [ReasonObfuscation]
      | Some ranges =>
          verdict_all [if_false (port_in_ranges ranges p) ReasonPort;
                       if_false (supports_ip_version wg v) ReasonIpVersion]
      end in
    match wg_verdict with
    | Reject _ => if bool_decide (dedicated_addrs ss = []) then wg_verdict else Reject [ReasonIpVersion]
    | Accept => wg_verdict
    end.

Definition quic_supports_ip_version (q : QuicEndpoints) (v : Constraint IpVersion) : bool :=
  is_any_or v (fun v => match v with
                        | IpVersion_V4 => negb (bool_decide (qe_ipv4 q = []))
                        | IpVersion_V6 => negb (bool_decide (qe_ipv6 q = []))
                        end).

Definition obfuscation_verdict (es : RelayEndpointSet) (c : EntrySpecificConstraints) : Verdict :=
  let v := ip_version c in
  let wg := es_wireguard es in
  match obfuscation c with
  | Any | Only ModeOff => if_false (supports_ip_version wg v) ReasonIpVersion
  | Only (ModePort p) =>
      verdict_all [if_false (supports_port wg (port p)) ReasonPort;
                   if_false (supports_ip_version wg v) ReasonIpVersion]
  | Only (ModeUdp2tcp settings) =>
      match es_udp2tcp_ports es with
      | None => Reject [ReasonObfuscation]
      | Some ports =>
          verdict_all [if_false (is_any_or (port settings) (fun p => bool_decide (p ∈ ports))) ReasonPort;
                       if_false (supports_ip_version wg v) ReasonIpVersion]
      end
  | Only (ModeShadowsocks settings) =>
      match es_shadowsocks es with
      | None => Reject [ReasonObfuscation]
      | Some ss => shadowsocks_verdict ss wg v (port settings)
      end
  | Only ModeQuic =>
      match es_quic es with
      | None => Reject [ReasonObfuscation]
      | Some q => if_false (quic_supports_ip_version q v) ReasonIpVersion
      end
  | Only (ModeLwo settings) =>
      verdict_all [if_false (es_lwo es) ReasonObfuscation;
                   if_false (supports_port wg (port settings)) ReasonPort;
                   if_false (supports_ip_version wg v) ReasonIpVersion]
  end.

(** The ports of the ranges, in order; a range whose end is before its start is empty. *)
Definition ports_of (ranges : list port_range) : list Z :=
  concat (map (fun r => seqZ r.1 (r.2 - r.1 + 1)) ranges).

Inductive EndpointError : Type := NoMatchingPort | NoMatchingAddresses | MissingSupport.

Section random.
Context {S : Type} `{Rng S}.

(** [IteratorRandom::choose] and [IndexedRandom::choose]. *)
Definition choose {A} (l : list A) : R S (option A) :=
  match l with
  | [] => retR None
  | _ => i <~ choose_index (length l); retR (l !! i)
  end.

Definition random_port_in_ranges (ranges : list port_range) (p : Constraint Z) : R S (option Z) :=
  match p with
  | Only p => retR (if existsb (range_contains p) ranges then Some p else None)
  | Any => choose (ports_of ranges)
  end.

Definition wireguard_random_endpoint (wg : WireguardEndpoints) (v : Constraint IpVersion)
    (p : Constraint Z) : R S (option SocketAddr) :=
  match select_ip wg v with
  | None => retR None
  | Some ip =>
      p <~ random_port_in_ranges (we_port_ranges wg) p;
      retR ((fun p => {| sa_ip := ip; sa_port := p |}) <$> p)
  end.

Definition shadowsocks_random_endpoint (ss : ShadowsocksEndpoints) (wg : WireguardEndpoints)
    (v : Constraint IpVersion) (p : Constraint Z) : R S (option SocketAddr) :=
  ip <~ choose (List.filter (has_version v) (dedicated_addrs ss));
  match ip with
  | Some ip =>
      p <~ match p with Only p => retR p | Any => random_range 1 (2 ^ 16 - 1) end;
      retR (Some {| sa_ip := ip; sa_port := p |})
  | None =>
      match select_ip wg v, ss_port_ranges ss with
      | Some ip, Some ranges =>
          p <~ random_port_in_ranges ranges p;
          retR ((fun p => {| sa_ip := ip; sa_port := p |}) <$> p)
      | _, _ => retR None
      end
  end.

Definition quic_random_endpoint (q : QuicEndpoints) (v : Constraint IpVersion) : R S (option SocketAddr) :=
  let ipv4 := map V4 (qe_ipv4 q) in
  let ipv6 := map V6 (qe_ipv6 q) in
  ip <~ match v with
        | Only IpVersion_V4 => choose ipv4
        | Only IpVersion_V6 => choose ipv6
        | Any => ip <~ choose ipv4; match ip with Some ip => retR (Some ip) | None => choose ipv6 end
        end;
  retR ((fun ip => {| sa_ip := ip; sa_port := quic_port |}) <$> ip).

(** ** Obfuscators *)
Definition ok_or {A E} (o : option A) (e : E) : result A E :=
  match o with Some a => Ok a | None => Err e end.

Definition udp2tcp_config (es : RelayEndpointSet) (wg_ip : IpAddr) (p : Constraint Z)
  : R S (result ObfuscatorConfig EndpointError) :=
  match es_udp2tcp_ports es with
  | None => retR (Err MissingSupport)
  | Some ports =>
      p <~ match p with
           | Only p => retR (if bool_decide (p ∈ ports) then Some p else None)
           | Any => choose ports
           end;
      retR (p <-? ok_or p NoMatchingPort; Ok (Udp2Tcp {| sa_ip := wg_ip; sa_port := p |}))
  end.

Definition lwo_config (es : RelayEndpointSet) (wg_ip : IpAddr) (p : Constraint Z)
  : R S (result ObfuscatorConfig EndpointError) :=
  if negb (es_lwo es) then retR (Err MissingSupport)
  else
    p <~ random_port_in_ranges (we_port_ranges (es_wireguard es)) p;
    retR (p <-? ok_or p NoMatchingPort; Ok (Lwo {| sa_ip := wg_ip; sa_port := p |})).

Definition shadowsocks_config (es : RelayEndpointSet) (v : Constraint IpVersion) (p : Constraint Z)
  : R S (result ObfuscatorConfig EndpointError) :=
  match es_shadowsocks es with
  | None => retR (Err MissingSupport)
  | Some ss =>
      e <~ shadowsocks_random_endpoint ss (es_wireguard es) v p;
      retR (e <-? ok_or e NoMatchingAddresses; Ok (Shadowsocks e))
  end.

Definition quic_config (es : RelayEndpointSet) (v : Constraint IpVersion)
  : R S (result ObfuscatorConfig EndpointError) :=
  match es_quic es with
  | None => retR (Err MissingSupport)
  | Some q =>
      e <~ quic_random_endpoint q v;
      retR (e <-? ok_or e NoMatchingAddresses; Ok (Quic (qe_hostname q) e (qe_auth_token q)))
  end.

Definition staggered_obfuscator (es : RelayEndpointSet) (direct : SocketAddr) (v : Constraint IpVersion)
  : R S (option Obfuscators) :=
  a <~ lwo_config es (sa_ip direct) Any;
  b <~ udp2tcp_config es (sa_ip direct) Any;
  c <~ shadowsocks_config es v Any;
  d <~ quic_config es v;
  retR (multiplexer (Some direct) (omap result_ok [a; b; c; d])).

(** [staggered] is the cargo feature [staggered-obfuscation]. *)
Definition get_wireguard_obfuscator (staggered : bool) (es : RelayEndpointSet)
    (query : Constraint ObfuscationMode) (v : Constraint IpVersion)
  : R S (result (SocketAddr * option Obfuscators) EndpointError) :=
  let p := match query with Only (ModePort p) => port p | _ => Any end in
  wg <~ wireguard_random_endpoint (es_wireguard es) v p;
  match wg with
  | None => retR (Err NoMatchingAddresses)
  | Some wg =>
      let single (m : R S (result ObfuscatorConfig EndpointError)) :=
        c <~ m; retR (c <-? c; Ok (wg, Some (Single c))) in
      match query with
      | Any =>
          if staggered then o <~ staggered_obfuscator es wg v; retR (Ok (wg, o))
          else retR (Ok (wg, None))
      | Only (ModeOff | ModePort _) => retR (Ok (wg, None))
      | Only (ModeUdp2tcp settings) => single (udp2tcp_config es (sa_ip wg) (port settings))
      | Only (ModeShadowsocks settings) => single (shadowsocks_config es v (port settings))
      | Only ModeQuic => single (quic_config es v)
      | Only (ModeLwo settings) => single (lwo_config es (sa_ip wg) (port settings))
      end
  end.

(** ** Weighted choice *)
(** The loop of [find]: subtract weights, without going below zero, until nothing is left.  The source
    panics if it ends before. *)
Fixpoint roulette {A} (weight : A -> Z) (l : list A) (i : Z) : option A :=
  match l with
  | [] => None
  | a :: l =>
      let i := Z.max 0 (i - weight a) in
      if (i =? 0)%Z then Some a else roulette weight l i
  end.

(** The sum of [u64]s wraps. *)
Definition total_weight {A} (weight : A -> Z) (l : list A) : Z :=
  foldl (fun acc a => (acc + weight a) mod 2 ^ 64)%Z 0%Z l.

Definition pick_random_relay_weighted {A} (weight : A -> Z) (l : list A) : R S (option A) :=
  let total := total_weight weight l in
  if (total =? 0)%Z then choose l
  else i <~ random_range 1 total; retR (roulette weight l i).

Definition relay_weight (r : WireguardRelay) : Z := weight (inner r).

Definition pick_random_relay (l : list WireguardRelay) : R S (option WireguardRelay) :=
  pick_random_relay_weighted relay_weight l.

Definition pick_random_relay_excluding (l : list WireguardRelay) (exclude : WireguardRelay)
  : R S (option WireguardRelay) :=
  pick_random_relay_weighted relay_weight (List.filter (fun a => negb (relay_eqb a exclude)) l).
End random.

(** ** Partitioning the relay list *)
Record AnnotatedRelayList : Type := {
  al_inner : RelayList;
  endpoint_sets : gmap string RelayEndpointSet;
}.

(** Panics if there are relays and no port ranges. *)
Definition AnnotatedRelayList_new (l : RelayList) : option AnnotatedRelayList :=
  sets ← mapM (fun relay => pair (hostname (inner relay)) <$> RelayEndpointSet_new relay (wireguard l))
              (RelayList_relays l);
  Some {| al_inner := l; endpoint_sets := foldl (fun m p => <[p.1 := p.2]> m) ∅ sets |}.

Definition endpoint_set_for (l : AnnotatedRelayList) (relay : WireguardRelay)
  : option RelayEndpointSet :=
  endpoint_sets l !! hostname (inner relay).

(** [ResolvedLocationConstraint]: the locations a location constraint stands for. *)
Definition ResolvedLocationConstraint : Type := list GeographicLocationConstraint.

#[global] Instance Resolved_match : Match ResolvedLocationConstraint :=
  fun l relay => existsb (fun loc => matches loc relay) l.

Definition from_constraint (c : Constraint LocationConstraint) (lists : CustomListsSettings)
  : Constraint ResolvedLocationConstraint :=
  match c with
  | Any => Any
  | Only (InLocation l) => Only [l]
  | Only (InCustomList list_id) =>
      Only match list_find (fun l => cl_id l = list_id) lists with
           | Some (_, l) => cl_locations l
           | None => []
           end
  end.

Definition filter_on_daita (f : Constraint bool) (relay : WireguardRelay) : bool :=
  match f with Only true => relay_daita (endpoint_data relay) | _ => true end.

Definition filter_include_in_country (relay : WireguardRelay) (c : Constraint ResolvedLocationConstraint)
  : Verdict :=
  if include_in_country relay then Accept
  else match c with
       | Any => Reject [ReasonIncludeInCountry]
       | Only resolved =>
           if_false (existsb (fun loc => negb (is_country loc))
                       (List.filter (fun loc => matches loc relay) resolved)) ReasonIncludeInCountry
       end.

Definition location_criteria (relay : WireguardRelay) (l : Constraint LocationConstraint)
    (lists : CustomListsSettings) : Verdict :=
  let resolved := from_constraint l lists in
  if negb (matches resolved relay) then Reject [ReasonLocation]
  else filter_include_in_country relay resolved.

Definition usable_as_exit (relay : WireguardRelay) (c : ExitConstraints) (lists : CustomListsSettings)
  : Verdict :=
  let ownership := if_false (matches (ec_ownership c) relay) ReasonOwnership in
  let providers := if_false (matches (ec_providers c) relay) ReasonProviders in
  let location := location_criteria relay (ec_location c) lists in
  let active := if_false (active (inner relay)) Inactive in
  verdict_and (verdict_and (verdict_and ownership providers) location) active.

Definition usable_as_entry (relay : WireguardRelay) (es : RelayEndpointSet) (c : EntrySpecificConstraints)
  : Verdict :=
  verdict_and (if_false (filter_on_daita (daita c) relay) ReasonDaita) (obfuscation_verdict es c).

Fixpoint partition_map (l : list (WireguardRelay * Verdict)) : RelayPartitions :=
  match l with
  | [] => {| p_matches := []; p_discards := [] |}
  | (relay, v) :: l =>
      let p := partition_map l in
      match v with
      | Accept => {| p_matches := relay :: p_matches p; p_discards := p_discards p |}
      | Reject reasons => {| p_matches := p_matches p; p_discards := (relay, reasons) :: p_discards p |}
      end
  end.

Definition partition_by_verdict (l : AnnotatedRelayList)
    (f : WireguardRelay -> RelayEndpointSet -> Verdict) : option RelayPartitions :=
  vs ← mapM (fun relay => (fun es => (relay, f relay es)) <$> endpoint_set_for l relay)
            (RelayList_relays (al_inner l));
  Some (partition_map vs).

Definition partition_entry (l : AnnotatedRelayList) (c : EntryConstraints) (lists : CustomListsSettings)
  : option RelayPartitions :=
  partition_by_verdict l (fun relay es =>
    verdict_and (usable_as_entry relay es (entry_specific c)) (usable_as_exit relay (general c) lists)).

Definition partition_exit (l : AnnotatedRelayList) (c : ExitConstraints) (lists : CustomListsSettings)
  : option RelayPartitions :=
  partition_by_verdict l (fun relay _ => usable_as_exit relay c lists).

Definition move_unique_conflict (from into : RelayPartitions) : RelayPartitions :=
  match p_matches from with
  | [unique] =>
      match list_find (fun r => relay_eqb r unique = true) (p_matches into) with
      | Some (pos, relay) =>
          {| p_matches := delete pos (p_matches into);
             p_discards := p_discards into ++ [(relay, [Conflict])] |}
      | None => into
      end
  | _ => into
  end.

Record MultiHopPartitions : Type := { entries : RelayPartitions; exits : RelayPartitions }.

Definition remove_conflicting_relay (en ex : RelayPartitions) : MultiHopPartitions :=
  let ex := move_unique_conflict en ex in
  let en := move_unique_conflict ex en in
  {| entries := en; exits := ex |}.

Definition partition_multihop (l : AnnotatedRelayList) (c : MultihopConstraints)
    (lists : CustomListsSettings) : option MultiHopPartitions :=
  en ← partition_entry l (mh_entry c) lists;
  ex ← partition_exit l (mh_exit c) lists;
  Some (remove_conflicting_relay en ex).

Record AutohopPartition : Type := { ah_singlehop : RelayPartitions; ah_multihop : MultiHopPartitions }.

Definition partition_autohop (l : AnnotatedRelayList) (c : EntryConstraints)
    (lists : CustomListsSettings) : option AutohopPartition :=
  single ← partition_entry l c lists;
  multi ← partition_multihop l (into_autohop c) lists;
  Some {| ah_singlehop := single; ah_multihop := multi |}.

(** ** Queries *)
Inductive Hops : Type :=
| SingleHop (c : EntryConstraints)
| AutoHop (c : EntryConstraints)
| MultiHop (c : MultihopConstraints).

(** [quantum_resistant] does not affect the selection and is left out. *)
Record RelayQuery : Type := { hops : Hops; q_allowed_ips : Constraint (list IpNetwork) }.

Definition query_entry (q : RelayQuery) : EntryConstraints :=
  match hops q with SingleHop e | AutoHop e => e | MultiHop c => mh_entry c end.

Definition query_exit (q : RelayQuery) : ExitConstraints :=
  match hops q with SingleHop e | AutoHop e => general e | MultiHop c => mh_exit c end.

Definition query_entry_specific (q : RelayQuery) : EntrySpecificConstraints := entry_specific (query_entry q).

(** Assignment through [entry_specific_mut]. *)
Definition set_entry_specific (s : EntrySpecificConstraints) (q : RelayQuery) : RelayQuery :=
  let set e := {| general := general e; entry_specific := s |} in
  {| hops := match hops q with
             | SingleHop e => SingleHop (set e)
             | AutoHop e => AutoHop (set e)
             | MultiHop c => MultiHop {| mh_entry := set (mh_entry c); mh_exit := mh_exit c |}
             end;
     q_allowed_ips := q_allowed_ips q |}.

Definition merge_retry (q : RelayQuery) (retry : EntrySpecificConstraints) : option RelayQuery :=
  merged ← intersection (query_entry_specific q) retry;
  Some (set_entry_specific merged q).

Inductive WireguardConfig : Type :=
| Singlehop (exit : WireguardRelay)
| Multihop (exit entry : WireguardRelay).

(** The errors that selection returns; [InvalidConstraints], [NoBridge] and [NoEndpoint] are constructed
    nowhere in the modelled functions. *)
Inductive SelectorError : Type :=
| NoRelayEntry (c : EntryConstraints)
| NoRelayExit (c : ExitConstraints)
| NoRelay (q : RelayQuery)
| NoObfuscator (e : EndpointError)
| IpVersionUnavailable (family : IpVersion).

Definition runtime_constraint (a : IpAvailability) : Constraint IpVersion :=
  match a with
  | AvailIpv4 => Only IpVersion_V4
  | AvailIpv6 => Only IpVersion_V6
  | AvailIpv4AndIpv6 => Any
  end.

Definition apply_ip_availability (q : RelayQuery) (a : IpAvailability) : result RelayQuery SelectorError :=
  let s := query_entry_specific q in
  match intersection (ip_version s) (runtime_constraint a) with
  | Some merged =>
      Ok (set_entry_specific {| obfuscation := obfuscation s; daita := daita s; ip_version := merged |} q)
  | None => Err (IpVersionUnavailable (unwrap_or_else (ip_version s) IpVersion_V4))
  end.

(** *** From the settings *)
Record WireguardConstraints : Type := {
  wc_ip_version : Constraint IpVersion;
  wc_allowed_ips : Constraint (list IpNetwork);
  use_multihop : bool;
  entry_location : Constraint LocationConstraint;
  entry_providers : Constraint Providers;
  entry_ownership : Constraint Ownership;
}.

Record RelayConstraints : Type := {
  rc_location : Constraint LocationConstraint;
  rc_providers : Constraint Providers;
  rc_ownership : Constraint Ownership;
  wireguard_constraints : WireguardConstraints;
}.

(** The settings the query depends on; [relay_settings] is [None] for a custom tunnel endpoint. *)
Record SelectorSettings : Type := {
  relay_settings : option RelayConstraints;
  obfuscation_settings : ObfuscationSettings;
  daita_enabled : bool;
  use_multihop_if_necessary : bool;
}.

Definition ExitConstraints_default : ExitConstraints :=
  {| ec_location := Any; ec_providers := Any; ec_ownership := Any |}.

Definition RelayQuery_default : RelayQuery :=
  {| hops := SingleHop {| general := ExitConstraints_default;
                          entry_specific := EntrySpecificConstraints_default |};
     q_allowed_ips := Any |}.

Definition RelayQuery_from (settings : SelectorSettings) : RelayQuery :=
  match relay_settings settings with
  | None => RelayQuery_default
  | Some rs =>
      let wg := wireguard_constraints rs in
      let specific :=
        {| obfuscation := obfuscation_constraint_from_settings (obfuscation_settings settings);
           daita := Only (daita_enabled settings);
           ip_version := wc_ip_version wg |} in
      let exit :=
        {| ec_location := rc_location rs; ec_providers := rc_providers rs;
           ec_ownership := rc_ownership rs |} in
      let singlehop := {| general := exit; entry_specific := specific |} in
      let multihop_constraints :=
        {| mh_entry :=
             {| general := {| ec_location := entry_location wg; ec_providers := entry_providers wg;
                              ec_ownership := entry_ownership wg |};
                entry_specific := specific |};
           mh_exit := exit |} in
      let autohop := daita_enabled settings && use_multihop_if_necessary settings in
      {| hops := match use_multihop wg, autohop with
                 | false, false => SingleHop singlehop
                 | false, true => AutoHop singlehop
                 | true, false => MultiHop multihop_constraints
                 | true, true => MultiHop (into_autohop singlehop)
                 end;
         q_allowed_ips := wc_allowed_ips wg |}
  end.

(** *** The partitions shown to the user *)
Definition into_relay_partitions (p : AutohopPartition) : RelayPartitions :=
  match p_matches (entries (ah_multihop p)) with
  | [] => ah_singlehop p
  | _ =>
      let ds := p_discards (exits (ah_multihop p)) in
      let valid relay := existsb (relay_eqb relay) (p_matches (ah_singlehop p)) in
      {| p_matches := p_matches (exits (ah_multihop p)) ++ map fst (List.filter (fun d => valid d.1) ds);
         p_discards := List.filter (fun d => negb (valid d.1)) ds |}
  end.

Inductive Predicate : Type :=
| PSinglehop (c : EntryConstraints)
| PAutohop (c : EntryConstraints)
| PEntry (c : MultihopConstraints)
| PExit (c : MultihopConstraints).

Definition partition_relays (l : AnnotatedRelayList) (lists : CustomListsSettings) (p : Predicate)
  : option RelayPartitions :=
  match p with
  | PSinglehop c => partition_entry l c lists
  | PAutohop c => into_relay_partitions <$> partition_autohop l c lists
  | PEntry c => entries <$> partition_multihop l c lists
  | PExit c => exits <$> partition_multihop l c lists
  end.

(** ** The endpoint of the tunnel *)
Definition allow_all_ips : list IpNetwork := [v4 0 0; v6 0 0].

Definition resolve_from_constraint (c : Constraint (list IpNetwork)) (host_ipv4 host_ipv6 : Z)
  : list IpNetwork :=
  match c with Any | Only [] => allow_all_ips | Only ips => ips end
  ++ [v6 host_ipv6 128; v4 host_ipv4 32].

Definition WIREGUARD_EXIT_PORT : Z := 51820.

Record MullvadEndpoint : Type := {
  me_peer : PeerConfig; me_exit_peer : option PeerConfig; me_ipv4_gateway : Z; me_ipv6_gateway : Z
}.

Definition peer_of (relay : WireguardRelay) (ips : list IpNetwork) (e : SocketAddr) : PeerConfig :=
  {| public_key := relay_public_key (endpoint_data relay); allowed_ips := ips; peer_endpoint := e;
     psk := None; constant_packet_size := false |}.

Definition wireguard_endpoint (ips : Constraint (list IpNetwork)) (data : EndpointData)
    (relay : WireguardConfig) (entry_endpoint : SocketAddr) : MullvadEndpoint :=
  let resolved := resolve_from_constraint ips (ed_ipv4_gateway data) (ed_ipv6_gateway data) in
  match relay with
  | Singlehop exit =>
      {| me_peer := peer_of exit resolved entry_endpoint; me_exit_peer := None;
         me_ipv4_gateway := ed_ipv4_gateway data; me_ipv6_gateway := ed_ipv6_gateway data |}
  | Multihop exit entry =>
      let exit_endpoint :=
        {| sa_ip := V4 (ipv4_addr_in (inner exit)); sa_port := WIREGUARD_EXIT_PORT |} in
      {| me_peer := peer_of entry [v4 (ipv4_addr_in (inner exit)) 32] entry_endpoint;
         me_exit_peer := Some (peer_of exit resolved exit_endpoint);
         me_ipv4_gateway := ed_ipv4_gateway data; me_ipv6_gateway := ed_ipv6_gateway data |}
  end.

(** ** Selection *)
Record GetRelay : Type := {
  gr_endpoint : MullvadEndpoint; gr_obfuscator : option Obfuscators; gr_inner : WireguardConfig
}.

Definition RETRY_ORDER : list EntrySpecificConstraints :=
  let d := EntrySpecificConstraints_default in
  [ d;
    with_ip_version IpVersion_V6 d;
    with_obfuscation (ModeLwo PortSettings_default) d;
    with_obfuscation (ModeShadowsocks PortSettings_default) d;
    with_obfuscation ModeQuic d;
    with_obfuscation (ModeUdp2tcp PortSettings_default) d;
    with_ip_version IpVersion_V6 (with_obfuscation (ModeUdp2tcp PortSettings_default) d) ].

Section selection.
Context {S : Type} `{Rng S} `{Geography}.

(** The relays at the smallest distance from the exit.  [sort_unstable_by] may order relays at the same
    distance differently; the relays are the same. *)
Definition by_distance (a b : Z * WireguardRelay) : Prop := (a.1 <= b.1)%Z.
#[global] Instance by_distance_dec a b : Decision (by_distance a b).
Proof. unfold by_distance. apply _. Defined.

Fixpoint take_while {A} (f : A -> bool) (l : list A) : list A :=
  match l with [] => [] | a :: l => if f a then a :: take_while f l else [] end.

Definition closest_to (exit : WireguardRelay) (l : list WireguardRelay) : list WireguardRelay :=
  let candidates :=
    merge_sort by_distance
      (map (fun e => (distance_from (location (inner e)) (location (inner exit)), e)) l) in
  let min_distance := match candidates with [] => 0%Z | r :: _ => r.1 end in
  map snd (take_while (fun r => (r.1 <=? min_distance)%Z) candidates).

Definition select_from_multihop_partitions (p : MultiHopPartitions) (c : MultihopConstraints)
  : R S (result WireguardConfig SelectorError) :=
  exit <~ pick_random_relay (p_matches (exits p));
  match exit with
  | None => retR (Err (NoRelayExit (mh_exit c)))
  | Some exit =>
      let candidates :=
        match ec_location (general (mh_entry c)) with
        | Any => closest_to exit (p_matches (entries p))
        | Only _ => p_matches (entries p)
        end in
      entry <~ pick_random_relay_excluding candidates exit;
      retR match entry with
           | None => Err (NoRelayEntry (mh_entry c))
           | Some entry => Ok (Multihop exit entry)
           end
  end.

Definition select_wireguard_relay (l : AnnotatedRelayList) (lists : CustomListsSettings) (q : RelayQuery)
  : R S (option (result WireguardConfig SelectorError)) :=
  match hops q with
  | SingleHop c =>
      match partition_entry l c lists with
      | None => retR None
      | Some p =>
          exit <~ pick_random_relay (p_matches p);
          retR (Some match exit with Some exit => Ok (Singlehop exit) | None => Err (NoRelay q) end)
      end
  | AutoHop c =>
      match partition_autohop l c lists with
      | None => retR None
      | Some p =>
          exit <~ pick_random_relay (p_matches (ah_singlehop p));
          match exit with
          | Some exit => retR (Some (Ok (Singlehop exit)))
          | None =>
              r <~ select_from_multihop_partitions (ah_multihop p) (into_autohop c); retR (Some r)
          end
      end
  | MultiHop c =>
      match partition_multihop l c lists with
      | None => retR None
      | Some p => r <~ select_from_multihop_partitions p c; retR (Some r)
      end
  end.

Definition entry_of (c : WireguardConfig) : WireguardRelay :=
  match c with Singlehop exit => exit | Multihop _ entry => entry end.

Definition exit_of (c : WireguardConfig) : WireguardRelay :=
  match c with Singlehop exit | Multihop exit _ => exit end.

Definition get_relay_by_query (staggered : bool) (l : AnnotatedRelayList) (lists : CustomListsSettings)
    (q : RelayQuery) : R S (option (result GetRelay SelectorError)) :=
  c <~ select_wireguard_relay l lists q;
  match c with
  | None => retR None
  | Some (Err e) => retR (Some (Err e))
  | Some (Ok c) =>
      match endpoint_set_for l (entry_of c) with
      | None => retR (Some (Err (NoRelay q)))
      | Some es =>
          let s := query_entry_specific q in
          o <~ get_wireguard_obfuscator staggered es (obfuscation s) (ip_version s);
          retR (Some match o with
                     | Err e => Err (NoObfuscator e)
                     | Ok (wg_addr, obfuscator) =>
                         Ok {| gr_endpoint := wireguard_endpoint (q_allowed_ips q)
                                                (wireguard (al_inner l)) c wg_addr;
                               gr_obfuscator := obfuscator; gr_inner := c |}
                     end)
      end
  end.

(** *** Retrying

    [filter_map(..).filter_map(..).cycle().nth(n)], evaluated lazily: an item that yields no relay is
    skipped, and the list is started again when it is exhausted; a whole round without a relay ends
    the search. *)
Fixpoint next_relay (try : RelayQuery -> R S (option (result GetRelay SelectorError)))
    (user : RelayQuery) (order : list EntrySpecificConstraints)
  : R S (option (option (GetRelay * list EntrySpecificConstraints))) :=
  match order with
  | [] => retR (Some None)
  | retry :: order =>
      match merge_retry user retry with
      | None => next_relay try user order
      | Some q =>
          r <~ try q;
          match r with
          | None => retR None
          | Some (Ok relay) => retR (Some (Some (relay, order)))
          | Some (Err _) => next_relay try user order
          end
      end
  end.

Fixpoint nth_relay (try : RelayQuery -> R S (option (result GetRelay SelectorError)))
    (user : RelayQuery) (retry_order : list EntrySpecificConstraints) (n : nat)
    (left_over : list EntrySpecificConstraints) : R S (option (option GetRelay)) :=
  a <~ next_relay try user left_over;
  r <~ match a with
       | Some None => next_relay try user retry_order
       | _ => retR a
       end;
  match r with
  | None => retR None
  | Some None => retR (Some None)
  | Some (Some (relay, rest)) =>
      match n with
      | 0 => retR (Some (Some relay))
      | Datatypes.S n => nth_relay try user retry_order n rest
      end
  end.

Definition get_relay_with_custom_params (staggered : bool) (l : AnnotatedRelayList)
    (lists : CustomListsSettings) (query : RelayQuery) (retry_attempt : nat)
    (retry_order : list EntrySpecificConstraints) (a : IpAvailability)
  : R S (option (result GetRelay SelectorError)) :=
  match apply_ip_availability query a with
  | Err e => retR (Some (Err e))
  | Ok user_query =>
      let try := get_relay_by_query staggered l lists in
      r <~ nth_relay try user_query retry_order retry_attempt retry_order;
      match r with
      | None => retR None
      | Some (Some v) => retR (Some (Ok v))
      | Some None => try user_query
      end
  end.

Definition get_relay (staggered : bool) (l : AnnotatedRelayList) (lists : CustomListsSettings)
    (query : RelayQuery) (retry_attempt : nat) (a : IpAvailability)
  : R S (option (result GetRelay SelectorError)) :=
  get_relay_with_custom_params staggered l lists query retry_attempt RETRY_ORDER a.
End selection.
