(* ===== verification/RelayProps.v ===== *)
(** * What the relay selector guarantees

    The selected relays and endpoints satisfy the user's constraints whatever the attempt and whatever
    the random numbers; the partitions are exact; the weighted choice picks every relay in proportion
    to its weight; an accepted relay has an endpoint. *)

From stdpp Require Import base list gmap strings option numbers sets sorting.
From S2P Require Import Prelude NetTypes RelayTypes RelayTypesProps RelaySelector.

Local Open Scope vpn_scope.

(** ** Verdicts *)
Lemma and_accept a b : verdict_and a b = Accept <-> a = Accept /\ b = Accept.
Proof. destruct a, b; simpl; naive_solver. Qed.

Lemma if_false_accept b r : if_false b r = Accept <-> b = true.
Proof. by destruct b. Qed.

Lemma all_accept l : verdict_all l = Accept <-> Forall (eq Accept) l.
Proof.
  unfold verdict_all. assert (forall v, foldl verdict_and v l = Accept <-> v = Accept /\ Forall (eq Accept) l).
  { induction l as [|x l IH]; intros v; simpl; [naive_solver|].
    rewrite IH, and_accept, Forall_cons. naive_solver. }
  naive_solver.
Qed.

(** ** Which relays may be used *)
(** [relay] is an allowed exit: it is active, has the owner, the provider and the location asked for, and
    a relay that is not listed for its country is asked for by its city or its name. *)
Definition exit_ok (lists : CustomListsSettings) (c : ExitConstraints) (relay : WireguardRelay) : Prop :=
  active (inner relay) = true
  /\ matches (ec_ownership c) relay = true
  /\ matches (ec_providers c) relay = true
  /\ match from_constraint (ec_location c) lists with
     | Any => include_in_country relay = true
     | Only locs => exists loc, loc ∈ locs /\ matches loc relay = true
                      /\ (include_in_country relay = true \/ is_country loc = false)
     end.

Lemma location_accept relay c lists :
  location_criteria relay c lists = Accept <->
  match from_constraint c lists with
  | Any => include_in_country relay = true
  | Only locs => exists loc, loc ∈ locs /\ matches loc relay = true
                   /\ (include_in_country relay = true \/ is_country loc = false)
  end.
Proof.
  unfold location_criteria, filter_include_in_country.
  destruct (from_constraint c lists) as [|locs]; simpl; [by destruct (include_in_country relay)|].
  unfold matches at 1, Constraint_match, matches at 1, Resolved_match.
  destruct (existsb (fun loc => matches loc relay) locs) eqn:E; simpl.
  - destruct (include_in_country relay) eqn:Ei.
    + split; [|done]. intros _. apply existsb_exists in E as (loc&Hl&Hm).
      exists loc. split; [by apply list_elem_of_In | auto].
    + rewrite if_false_accept, existsb_exists. setoid_rewrite filter_In.
      setoid_rewrite <- list_elem_of_In. setoid_rewrite negb_true_iff. naive_solver.
  - split; [done|]. intros (loc&Hl&Hm&_). exfalso.
    assert (existsb (fun loc => matches loc relay) locs = true); [|congruence].
    apply existsb_exists. exists loc. split; [by apply list_elem_of_In | done].
Qed.

Lemma exit_accept relay c lists : usable_as_exit relay c lists = Accept <-> exit_ok lists c relay.
Proof.
  unfold usable_as_exit, exit_ok. rewrite !and_accept, !if_false_accept, location_accept. tauto.
Qed.

(** ** Partitions *)
Lemma Forall2_elem_of_l {A B} (P : A -> B -> Prop) l k x :
  Forall2 P l k -> x ∈ l -> exists y, y ∈ k /\ P x y.
Proof. induction 1; set_solver. Qed.

Lemma Forall2_elem_of_r {A B} (P : A -> B -> Prop) l k y :
  Forall2 P l k -> y ∈ k -> exists x, x ∈ l /\ P x y.
Proof. induction 1; set_solver. Qed.

(** What a partition contains. *)
Definition partitions (l : list WireguardRelay) (ok : WireguardRelay -> Prop) (p : RelayPartitions) : Prop :=
  (forall r, r ∈ p_matches p <-> r ∈ l /\ ok r)
  /\ (forall r, r ∈ map fst (p_discards p) <-> r ∈ l /\ ~ ok r)
  /\ Forall (fun d => d.2 <> []) (p_discards p)
  /\ length (p_matches p) + length (p_discards p) = length l.

Definition has_reasons (v : Verdict) : Prop := v <> Reject [].

Lemma has_reasons_and a b : has_reasons a -> has_reasons b -> has_reasons (verdict_and a b).
Proof.
  unfold has_reasons. destruct a as [|[|]], b as [|[|]]; simpl; naive_solver.
Qed.

Lemma has_reasons_if b r : has_reasons (if_false b r).
Proof. by destruct b. Qed.

Lemma has_reasons_all l : Forall has_reasons l -> has_reasons (verdict_all l).
Proof.
  unfold verdict_all. assert (has_reasons Accept) as Ha by done. revert Ha. generalize Accept.
  induction l as [|x l IH]; intros v Hv; [done|]. rewrite Forall_cons. intros [Hx Hl]. simpl.
  apply IH; [by apply has_reasons_and | done].
Qed.

Lemma has_reasons_exit relay c lists : has_reasons (usable_as_exit relay c lists).
Proof.
  unfold usable_as_exit, location_criteria, filter_include_in_country.
  repeat apply has_reasons_and; try apply has_reasons_if.
  repeat (destruct_match; try apply has_reasons_if; try done).
Qed.

Lemma has_reasons_obfuscation es c : has_reasons (obfuscation_verdict es c).
Proof.
  unfold obfuscation_verdict, shadowsocks_verdict.
  assert (forall l, Forall has_reasons l -> has_reasons (verdict_all l)) as Ha by apply has_reasons_all.
  repeat (destruct_match; try apply has_reasons_if; try done;
          try (apply Ha; repeat constructor; apply has_reasons_if)).
  intros ?. simplify_eq. eapply (Ha _); [|done]. repeat constructor; apply has_reasons_if.
Qed.

Lemma has_reasons_entry relay es c : has_reasons (usable_as_entry relay es c).
Proof. apply has_reasons_and; [apply has_reasons_if | apply has_reasons_obfuscation]. Qed.

Lemma partition_map_spec (vs : list (WireguardRelay * Verdict)) (ok : WireguardRelay -> Prop) :
  (forall r v, (r, v) ∈ vs -> (v = Accept <-> ok r) /\ has_reasons v) ->
  partitions (map fst vs) ok (partition_map vs).
Proof.
  induction vs as [|[r v] vs IH]; intros Hv.
  - repeat split; simpl; try done; set_solver.
  - destruct IH as (Hm&Hd&Hr&Hl); [intros r' v' Hin; apply Hv; set_solver|].
    destruct (Hv r v) as [Hok Hne]; [set_solver|].
    destruct v as [|reasons]; simpl; split_and!; simpl; try done.
    + intros r'. rewrite !elem_of_cons, Hm. naive_solver.
    + intros r'. rewrite elem_of_cons, Hd. naive_solver.
    + by rewrite Hl.
    + intros r'. rewrite elem_of_cons, Hm. naive_solver.
    + intros r'. rewrite !elem_of_cons, Hd. naive_solver.
    + constructor; [|done]. simpl. intros ->. by apply Hne.
    + lia.
Qed.

(** ** The annotated relay list *)
Definition all_relays (l : AnnotatedRelayList) : list WireguardRelay := RelayList_relays (al_inner l).

Definition annotated (l : AnnotatedRelayList) : Prop :=
  forall r, r ∈ all_relays l -> is_Some (endpoint_set_for l r).

Lemma foldl_insert_lookup {A} (l : list (string * A)) (m : gmap string A) k :
  is_Some (m !! k) \/ k ∈ map fst l -> is_Some (foldl (fun m p => <[p.1 := p.2]> m) m l !! k).
Proof.
  revert m. induction l as [|[k' a] l IH]; intros m; simpl; [intros [?|?]; [done | set_solver]|].
  intros Hk. apply IH. destruct (decide (k = k')) as [->|Hne]; [left; by rewrite lookup_insert_eq; eauto|].
  rewrite lookup_insert_ne by done. set_solver.
Qed.

Lemma annotated_new l al : AnnotatedRelayList_new l = Some al -> al_inner al = l /\ annotated al.
Proof.
  unfold AnnotatedRelayList_new. rewrite bind_Some. intros (sets&Hs&[= <-]). split; [done|].
  intros r Hr. unfold endpoint_set_for. simpl. apply foldl_insert_lookup. right.
  unfold all_relays in Hr. simpl in Hr. apply mapM_Some in Hs.
  destruct (Forall2_elem_of_l _ _ _ _ Hs Hr) as ([k es]&Hin&Hk).
  apply fmap_Some in Hk as (es'&_&[= -> ->]). apply (list_elem_of_fmap_2 fst _ _ Hin).
Qed.

Lemma partition_by_verdict_spec l f :
  annotated l -> (forall r es, has_reasons (f r es)) ->
  exists p, partition_by_verdict l f = Some p
    /\ partitions (all_relays l) (fun r => exists es, endpoint_set_for l r = Some es /\ f r es = Accept) p.
Proof.
  intros Ha Hf. unfold partition_by_verdict.
  assert (exists vs, mapM (fun relay => (fun es => (relay, f relay es)) <$> endpoint_set_for l relay)
                       (RelayList_relays (al_inner l)) = Some vs) as [vs Hvs].
  { apply mapM_is_Some. apply Forall_forall. intros r Hr. unfold compose.
    destruct (Ha r Hr) as [es ->]. by eauto. }
  rewrite Hvs. simpl. eexists. split; [done|]. apply mapM_Some in Hvs.
  assert (all_relays l = map fst vs) as ->.
  { unfold all_relays. induction Hvs as [|r [r' v] rs vs Hr _ IH]; [done|]. simpl.
    apply fmap_Some in Hr as (es&_&[= -> ->]). by rewrite <- IH. }
  apply partition_map_spec. intros r v Hin.
  destruct (Forall2_elem_of_r _ _ _ _ Hvs Hin) as (r'&_&(es&Hes&[= -> ->])%fmap_Some).
  split; [|apply Hf]. rewrite Hes. naive_solver.
Qed.

(** [relay] meets the constraints on the first hop, apart from those on its location. *)
Definition entry_ok (l : AnnotatedRelayList) (c : EntrySpecificConstraints) (relay : WireguardRelay) : Prop :=
  (daita c = Only true -> relay_daita (endpoint_data relay) = true)
  /\ exists es, endpoint_set_for l relay = Some es /\ obfuscation_verdict es c = Accept.

Definition both_ok l lists (c : EntryConstraints) relay : Prop :=
  entry_ok l (entry_specific c) relay /\ exit_ok lists (general c) relay.

Lemma partitions_ext l ok ok' p :
  (forall r, ok r <-> ok' r) -> partitions l ok p -> partitions l ok' p.
Proof. intros E (?&?&?&?). split_and!; try done; intros r; [by rewrite <- E | by rewrite <- E]. Qed.

Lemma entry_accept relay es c :
  usable_as_entry relay es c = Accept <->
  (daita c = Only true -> relay_daita (endpoint_data relay) = true) /\ obfuscation_verdict es c = Accept.
Proof.
  unfold usable_as_entry, filter_on_daita. rewrite and_accept, if_false_accept.
  destruct (daita c) as [|[|]]; naive_solver.
Qed.

Lemma partition_entry_spec l c lists :
  annotated l -> exists p, partition_entry l c lists = Some p
                   /\ partitions (all_relays l) (both_ok l lists c) p.
Proof.
  intros Ha. edestruct (partition_by_verdict_spec l) as (p&Hp&Hs); [done| |].
  2: { exists p. split; [exact Hp|]. eapply partitions_ext; [|exact Hs]. intros r. simpl.
       unfold both_ok, entry_ok. setoid_rewrite and_accept. setoid_rewrite entry_accept.
       setoid_rewrite exit_accept. naive_solver. }
  intros r es. apply has_reasons_and; [apply has_reasons_entry | apply has_reasons_exit].
Qed.

Lemma partition_exit_spec l c lists :
  annotated l -> exists p, partition_exit l c lists = Some p
                   /\ partitions (all_relays l) (fun r => is_Some (endpoint_set_for l r) /\ exit_ok lists c r) p.
Proof.
  intros Ha. edestruct (partition_by_verdict_spec l) as (p&Hp&Hs); [done| |].
  2: { exists p. split; [exact Hp|]. eapply partitions_ext; [|exact Hs]. intros r. simpl.
       setoid_rewrite exit_accept. unfold is_Some. naive_solver. }
  intros r es. apply has_reasons_exit.
Qed.

(** ** Two hops *)
Lemma move_keeps from into r :
  r ∈ p_matches into -> (exists u, u ∈ p_matches from /\ relay_eqb r u = false) ->
  r ∈ p_matches (move_unique_conflict from into).
Proof.
  intros Hr (u&Hu&Hne). unfold move_unique_conflict.
  destruct (p_matches from) as [|u' [|]]; [done| |done]. apply list_elem_of_singleton in Hu. subst u'.
  destruct (list_find (fun r => relay_eqb r u = true) (p_matches into)) as [[pos r']|] eqn:E; [|done].
  apply list_find_Some in E as (Hpos&Heq&_). simpl.
  apply list_elem_of_lookup in Hr as (i&Hi). apply list_elem_of_lookup.
  destruct (decide (i < pos)) as [Hlt|Hge].
  - exists i. by rewrite list_lookup_delete_lt.
  - assert (i <> pos) by (intros ->; simplify_eq; congruence). exists (pred i).
    rewrite list_lookup_delete_ge by lia. by replace (S (pred i)) with i by lia.
Qed.

Lemma move_subset from into r : r ∈ p_matches (move_unique_conflict from into) -> r ∈ p_matches into.
Proof.
  unfold move_unique_conflict. destruct (p_matches from) as [|u [|]]; try done.
  destruct (list_find _ _) as [[pos r']|]; [|done]. simpl. intros Hr.
  eapply sublist_subseteq; [apply sublist_delete | done].
Qed.

(** Removing a conflicting relay takes away no pair of different relays. *)
Lemma remove_conflicting_pairs en ex e x :
  relay_eqb e x = false ->
  e ∈ p_matches (entries (remove_conflicting_relay en ex))
  /\ x ∈ p_matches (exits (remove_conflicting_relay en ex))
  <-> e ∈ p_matches en /\ x ∈ p_matches ex.
Proof.
  intros Hne. assert (relay_eqb x e = false) as Hne'.
  { revert Hne. unfold relay_eqb. rewrite !bool_decide_eq_false. congruence. }
  unfold remove_conflicting_relay. simpl. split.
  - intros [He%move_subset Hx%move_subset]. done.
  - intros [He Hx]. assert (x ∈ p_matches (move_unique_conflict en ex)) as Hx'
      by (apply move_keeps; [done | by exists e]).
    split; [|done]. apply move_keeps; [done | by exists x].
Qed.

Lemma partition_multihop_spec l c lists :
  annotated l ->
  exists p, partition_multihop l c lists = Some p
    /\ (forall e, e ∈ p_matches (entries p) -> e ∈ all_relays l /\ both_ok l lists (mh_entry c) e)
    /\ (forall x, x ∈ p_matches (exits p) -> x ∈ all_relays l /\ exit_ok lists (mh_exit c) x)
    /\ forall e x, relay_eqb e x = false -> e ∈ all_relays l -> both_ok l lists (mh_entry c) e ->
         x ∈ all_relays l -> exit_ok lists (mh_exit c) x ->
         e ∈ p_matches (entries p) /\ x ∈ p_matches (exits p).
Proof.
  intros Ha. destruct (partition_entry_spec l (mh_entry c) lists Ha) as (en&Hen&Sen&_).
  destruct (partition_exit_spec l (mh_exit c) lists Ha) as (ex&Hex&Sex&_).
  unfold partition_multihop. rewrite Hen, Hex. simpl. eexists. split; [done|].
  split_and!.
  - intros e He%move_subset. by apply Sen.
  - intros x Hx%move_subset. apply Sex in Hx. naive_solver.
  - intros e x Hne He Hbe Hx Hbx. apply remove_conflicting_pairs; [done|].
    rewrite Sen, Sex. split; [done|]. split; [done|]. split; [by apply Ha | done].
Qed.

(** ** Weighted choice *)
Section weights.
Context {A : Type} (weight : A -> Z).

Definition weight_sum (l : list A) : Z := foldr (fun a s => weight a + s)%Z 0%Z l.

Lemma weight_sum_app l k : weight_sum (l ++ k) = (weight_sum l + weight_sum k)%Z.
Proof. induction l as [|a l IH]; simpl; [done|]. rewrite IH. lia. Qed.

Definition u64_weights (l : list A) : Prop := Forall (fun a => 0 <= weight a < 2 ^ 64)%Z l.

Lemma weight_sum_nonneg l : u64_weights l -> (0 <= weight_sum l)%Z.
Proof. induction 1; simpl; lia. Qed.

Lemma total_weight_mod l : u64_weights l -> total_weight weight l = (weight_sum l mod 2 ^ 64)%Z.
Proof.
  unfold total_weight. assert (forall acc, (0 <= acc < 2 ^ 64)%Z ->
    foldl (fun acc a => (acc + weight a) mod 2 ^ 64)%Z acc l = ((acc + weight_sum l) mod 2 ^ 64)%Z) as H.
  { induction l as [|a l IH]; intros acc Hacc; simpl; [rewrite Z.add_0_r, Z.mod_small; lia|].
    rewrite IH by (apply Z.mod_pos_bound; lia). rewrite Z.add_mod_idemp_l by lia. f_equal. lia. }
  intros _. by rewrite H by lia.
Qed.

(** The relay at position [k] wins for exactly the numbers between the sums of the weights before it
    and up to it: as many numbers as its weight. *)
Lemma roulette_spec l i :
  u64_weights l -> (1 <= i <= weight_sum l)%Z ->
  exists k a, roulette weight l i = Some a /\ l !! k = Some a
    /\ (weight_sum (take k l) < i <= weight_sum (take (S k) l))%Z.
Proof.
  intros Hw. revert i. induction Hw as [|a l Ha Hw IH]; intros i Hi; simpl in *; [lia|].
  destruct (Z.eqb_spec (Z.max 0 (i - weight a)) 0) as [E|E].
  - exists 0, a. simpl. split_and!; try done; lia.
  - destruct (IH (Z.max 0 (i - weight a))) as (k&b&->&Hk&Hb); [lia|].
    exists (S k), b. simpl in *. split_and!; try done; lia.
Qed.
End weights.

Section rng.
Context {S : Type} {G : Rng S} {GL : RngLaws S G}.

Lemma choose_spec {A} (l : list A) s :
  match (choose l s).2 with Some a => a ∈ l | None => l = [] end.
Proof.
  unfold choose. destruct l as [|a l]; [done|]. unfold bindR, retR.
  pose proof (choose_index_lt (length (a :: l)) s ltac:(simpl; lia)) as Hi.
  destruct (choose_index (length (a :: l)) s) as [s' i]. simpl fst in *. simpl snd in *.
  destruct ((a :: l) !! i) as [b|] eqn:E; [by eapply list_elem_of_lookup_2|].
  apply lookup_ge_None in E. simpl in *. lia.
Qed.

Lemma pick_cases {A} (weight : A -> Z) (l : list A) s :
  u64_weights weight l ->
  let r := (pick_random_relay_weighted weight l s).2 in
  (total_weight weight l = 0%Z /\ r = (choose l s).2)
  \/ exists i k a, r = Some a /\ (1 <= i <= total_weight weight l)%Z /\ l !! k = Some a
       /\ (weight_sum weight (take k l) < i <= weight_sum weight (take k l) + weight a)%Z.
Proof.
  intros Hw. unfold pick_random_relay_weighted.
  destruct (Z.eqb_spec (total_weight weight l) 0) as [E|E]; [by left | right].
  unfold bindR, retR. pose proof (total_weight_mod weight l Hw) as Ht.
  pose proof (weight_sum_nonneg weight l Hw) as Hn.
  pose proof (Z.mod_pos_bound (weight_sum weight l) (2 ^ 64) ltac:(lia)) as Hb.
  pose proof (Z.mod_le (weight_sum weight l) (2 ^ 64) ltac:(lia) ltac:(lia)) as Hle.
  pose proof (random_range_within 1 (total_weight weight l) s ltac:(lia)) as Hr.
  destruct (random_range 1 (total_weight weight l) s) as [s' i]. simpl in *.
  destruct (roulette_spec weight l i Hw) as (k&a&->&Hk&Hi); [lia|].
  exists i, k, a. split_and!; try done; try lia.
  rewrite (take_S_r l k a Hk), weight_sum_app in Hi. simpl in Hi. lia.
Qed.

(** The weighted choice is a fair roulette wheel and never panics: it picks nothing only from an empty
    list; when the weights add up to zero any relay may be picked; otherwise some number [i] between 1
    and the total is drawn and the relay in whose interval of the wheel it lies is picked, an interval
    as long as the relay's weight, so that a relay of weight zero is never picked. *)
Theorem pick_weighted_spec {A} (weight : A -> Z) (l : list A) s :
  u64_weights weight l ->
  match (pick_random_relay_weighted weight l s).2 with
  | None => l = []
  | Some a =>
      a ∈ l /\ (total_weight weight l = 0%Z
                \/ exists i k, (1 <= i <= total_weight weight l)%Z /\ l !! k = Some a
                   /\ (weight_sum weight (take k l) < i <= weight_sum weight (take k l) + weight a)%Z)
  end.
Proof.
  intros Hw. destruct (pick_cases weight l s Hw) as [[E ->]|(i&k&a&->&Hi&Hk&Hs)].
  - pose proof (choose_spec l s) as Hc. destruct (choose l s) as [s' [a|]]; simpl in *; auto.
  - split; [by eapply list_elem_of_lookup_2|]. right. by exists i, k.
Qed.

Lemma pick_in {A} (weight : A -> Z) (l : list A) s :
  u64_weights weight l ->
  match (pick_random_relay_weighted weight l s).2 with Some a => a ∈ l | None => l = [] end.
Proof.
  intros Hw. destruct (pick_cases weight l s Hw) as [[_ ->]|(i&k&a&->&_&Hk&_)];
    [apply choose_spec | by eapply list_elem_of_lookup_2].
Qed.
End rng.

(** ** Connections *)
Definition port_ok (c : Constraint Z) (p : Z) : Prop := forall p', c = Only p' -> p = p'.
Definition version_ok (v : Constraint IpVersion) (ip : IpAddr) : Prop := has_version v ip = true.

Definition configs (o : Obfuscators) : list ObfuscatorConfig :=
  match o with Single c => [c] | Multiplexer _ first remaining => first :: remaining end.

Definition config_ip (c : ObfuscatorConfig) : IpAddr := sa_ip (address (ObfuscatorConfig_endpoint c)).
Definition config_port (c : ObfuscatorConfig) : Z := sa_port (address (ObfuscatorConfig_endpoint c)).

(** The obfuscator is of the kind asked for, on the port asked for. *)
Definition mode_ok (m : ObfuscationMode) (wg : SocketAddr) (ob : option Obfuscators) : Prop :=
  match m with
  | ModeOff => ob = None
  | ModePort s => ob = None /\ port_ok (port s) (sa_port wg)
  | ModeUdp2tcp s => exists e, ob = Some (Single (Udp2Tcp e)) /\ port_ok (port s) (sa_port e)
  | ModeShadowsocks s => exists e, ob = Some (Single (Shadowsocks e)) /\ port_ok (port s) (sa_port e)
  | ModeQuic => exists h e t, ob = Some (Single (Quic h e t)) /\ sa_port e = 443%Z
  | ModeLwo s => exists e, ob = Some (Single (Lwo e)) /\ port_ok (port s) (sa_port e)
  end.

(** The endpoint [wg] and the obfuscator [ob] are what the constraints ask for: every address has the
    right version, and the obfuscation is the one asked for, if any. *)
Definition connection_ok (s : EntrySpecificConstraints) (wg : SocketAddr) (ob : option Obfuscators) : Prop :=
  version_ok (ip_version s) (sa_ip wg)
  /\ (forall o, ob = Some o -> Forall (fun c => version_ok (ip_version s) (config_ip c)) (configs o))
  /\ forall m, obfuscation s = Only m -> mode_ok m wg ob.

Lemma refines_port a b p : refines a b -> port_ok a p -> port_ok b p.
Proof.
  unfold refines, port_ok. intros Hr Hp p' ->. destruct a as [|x]; [done|].
  unfold intersection, Constraint_intersection, intersection, u16_intersection, intersection_partialeq in Hr.
  case_decide; [subst; by apply Hp | done].
Qed.

Lemma refines_version a b ip : refines a b -> version_ok a ip -> version_ok b ip.
Proof.
  unfold refines, version_ok, has_version. destruct a as [|x], b as [|y]; try done.
  unfold intersection, Constraint_intersection, intersection, IpVersion_intersection, intersection_partialeq.
  case_decide; by subst.
Qed.

Lemma refines_mode a b wg ob : refines a b -> mode_ok a wg ob -> mode_ok b wg ob.
Proof.
  assert (forall (f : PortSettings -> ObfuscationMode) (s t : PortSettings) p,
            (forall x y, f x = f y -> x = y) ->
            f <$> intersection s t = Some (f s) -> port_ok (port s) p -> port_ok (port t) p) as Hp.
  { intros f [s] [t] p Hf E. apply fmap_Some in E as (u&E&Eu). apply Hf in Eu. subst u. simpl.
    apply refines_port. unfold intersection, PortSettings_intersection in E. simpl in E.
    apply fmap_Some in E as (v&E&[= ->]). exact E. }
  unfold refines. destruct a, b; try done; intros Hr; cbn [mode_ok].
  - intros [-> H]. split; [done|]. eapply (Hp ModePort); [by intros ?? [= ->] | exact Hr | exact H].
  - intros (e&->&H). exists e. split; [done|].
    eapply (Hp ModeUdp2tcp); [by intros ?? [= ->] | exact Hr | exact H].
  - intros (e&->&H). exists e. split; [done|].
    eapply (Hp ModeShadowsocks); [by intros ?? [= ->] | exact Hr | exact H].
  - intros (e&->&H). exists e. split; [done|].
    eapply (Hp ModeLwo); [by intros ?? [= ->] | exact Hr | exact H].
Qed.

Lemma refines_entry_specific a b :
  refines a b -> refines (ip_version a) (ip_version b)
                 /\ (forall m, obfuscation b = Only m ->
                      exists m', obfuscation a = Only m' /\ refines m' m)
                 /\ (daita b = Only true -> daita a = Only true).
Proof.
  unfold refines. destruct a as [o d v], b as [o' d' v'].
  unfold intersection at 1, EntrySpecificConstraints_intersection. simpl. rewrite bind_Some.
  intros (o1&Eo&H). apply bind_Some in H as (d1&Ed&H). apply bind_Some in H as (v1&Ev&[= -> -> ->]).
  split_and!; [done| |].
  - intros m ->. destruct o as [|m']; [done|]. exists m'. split; [done|].
    unfold intersection, Constraint_intersection in Eo. apply fmap_Some in Eo as (m1&E&[= ->]). exact E.
  - intros ->. destruct d as [|x]; [done|].
    unfold intersection, Constraint_intersection, intersection, bool_intersection,
      intersection_partialeq in Ed. case_decide; by subst.
Qed.

Lemma refines_connection a b wg ob : refines a b -> connection_ok a wg ob -> connection_ok b wg ob.
Proof.
  intros (Hv&Hm&_)%refines_entry_specific (H1&H2&H3). split_and!.
  - by eapply refines_version.
  - intros o ->. eapply Forall_impl; [by apply H2|]. intros c. simpl. by apply refines_version.
  - intros m E. destruct (Hm m E) as (m'&E'&Hr). eapply refines_mode; [done|]. by apply H3.
Qed.

(** What the construction of an endpoint set guarantees, for port ranges that are not empty. *)
Definition proper (ranges : list port_range) : Prop := ranges <> [] /\ Forall (fun r => r.1 <= r.2)%Z ranges.

Definition endpoints_ok (es : RelayEndpointSet) : Prop :=
  proper (we_port_ranges (es_wireguard es))
  /\ (forall ports, es_udp2tcp_ports es = Some ports -> ports <> [])
  /\ (forall ss ranges, es_shadowsocks es = Some ss -> ss_port_ranges ss = Some ranges -> proper ranges)
  /\ (forall q, es_quic es = Some q -> qe_ipv4 q <> [] \/ qe_ipv6 q <> []).

Lemma vec1_Some {A} (l k : list A) : vec1 l = Some k <-> l = k /\ k <> [].
Proof. destruct l; simpl; naive_solver. Qed.

Lemma endpoint_set_new_ok relay data es :
  Forall (fun r => r.1 <= r.2)%Z (port_ranges data) ->
  Forall (fun r => r.1 <= r.2)%Z (shadowsocks_port_ranges data) ->
  RelayEndpointSet_new relay data = Some es -> endpoints_ok es.
Proof.
  intros Hp Hss. unfold RelayEndpointSet_new. rewrite bind_Some. intros (ranges&Hr&[= <-]).
  apply vec1_Some in Hr as [<- Hne]. split_and!; simpl.
  - done.
  - intros ports Hx. by apply vec1_Some in Hx as [_ ?].
  - intros ss rs Hs Hrs. unfold ShadowsocksEndpoints_new in Hs.
    assert (ss_port_ranges ss = vec1 (shadowsocks_port_ranges data)) as E
      by (repeat (destruct_match_in Hs; simplify_eq; try done)).
    rewrite E in Hrs. by apply vec1_Some in Hrs as [<- ?].
  - intros q Hq. unfold QuicEndpoints_new in Hq. apply bind_Some in Hq as (qd&_&Hq).
    destruct (in_ipv4 qd), (in_ipv6 qd); simplify_eq; simpl; auto.
Qed.

Lemma ports_of_In p ranges : p ∈ ports_of ranges <-> existsb (range_contains p) ranges = true.
Proof.
  unfold ports_of. induction ranges as [|[a b] l IH]; simpl; [set_solver|].
  rewrite elem_of_app, orb_true_iff, IH, elem_of_seqZ. unfold range_contains. simpl.
  rewrite andb_true_iff, !Z.leb_le.
  assert (a <= p < a + (b - a + 1) <-> a <= p /\ p <= b)%Z by lia. tauto.
Qed.

Lemma ports_of_nonempty ranges : proper ranges -> ports_of ranges <> [].
Proof.
  intros [Hne Hf] E. destruct ranges as [|[a b] l]; [done|]. apply Forall_cons in Hf as [Hab _]. simpl in Hab.
  apply (not_elem_of_nil a). rewrite <- E. apply ports_of_In. simpl. unfold range_contains. simpl.
  by rewrite (proj2 (Z.leb_le a a)), (proj2 (Z.leb_le a b)) by lia.
Qed.

Section endpoints.
Context {S : Type} {G : Rng S} {GL : RngLaws S G}.

(** [outcome m s] is the result of a random computation. *)
Definition outcome {A} (m : R S A) (s : S) : A := (m s).2.

Lemma outcome_bind {A B} (m : R S A) (k : A -> R S B) s :
  outcome (bindR m k) s = outcome (k (outcome m s)) (m s).1.
Proof. unfold outcome, bindR. by destruct (m s). Qed.

Lemma outcome_ret {A} (a : A) (s : S) : outcome (retR a) s = a.
Proof. done. Qed.

Lemma choose_outcome {A} (l : list A) s :
  match outcome (choose l) s with Some a => a ∈ l | None => l = [] end.
Proof. apply choose_spec. Qed.

Lemma random_port_spec ranges p s :
  proper ranges ->
  match outcome (random_port_in_ranges ranges p) s with
  | Some q => port_ok p q /\ port_in_ranges ranges p = true
  | None => port_in_ranges ranges p = false
  end.
Proof.
  intros Hr. destruct p as [|p]; simpl.
  - pose proof (choose_outcome (ports_of ranges) s) as Hc.
    destruct (outcome (choose (ports_of ranges)) s); [by split|]. by apply ports_of_nonempty in Hr.
  - rewrite outcome_ret. unfold port_in_ranges. simpl.
    destruct (existsb (range_contains p) ranges) eqn:E; [|done]. split; [|done]. by intros ? [= ->].
Qed.

Lemma select_ip_version wg v ip : select_ip wg v = Some ip -> version_ok v ip.
Proof.
  unfold select_ip, version_ok, has_version. destruct v as [|[]]; try done.
  - intros [= <-]. done.
  - intros (a&_&->)%fmap_Some. done.
Qed.

Lemma wireguard_endpoint_spec wg v p s :
  proper (we_port_ranges wg) ->
  match outcome (wireguard_random_endpoint wg v p) s with
  | Some e => version_ok v (sa_ip e) /\ port_ok p (sa_port e)
              /\ supports_ip_version wg v = true /\ supports_port wg p = true
  | None => supports_ip_version wg v && supports_port wg p = false
  end.
Proof.
  intros Hr. unfold wireguard_random_endpoint, supports_ip_version, supports_port.
  destruct (select_ip wg v) as [ip|] eqn:E; [|by rewrite outcome_ret].
  rewrite outcome_bind, outcome_ret. pose proof (random_port_spec (we_port_ranges wg) p s Hr) as Hp.
  destruct (outcome (random_port_in_ranges (we_port_ranges wg) p) s) as [q|]; simpl.
  - destruct Hp. split_and!; try done. by eapply select_ip_version.
  - by rewrite Hp, ?andb_false_r.
Qed.

Lemma dedicated_filter ss v :
  has_dedicated_addr ss v = negb (bool_decide (List.filter (has_version v) (dedicated_addrs ss) = [])).
Proof.
  unfold has_dedicated_addr. destruct v as [|v]; simpl.
  - f_equal. apply bool_decide_ext. induction (dedicated_addrs ss); simpl; naive_solver.
  - induction (dedicated_addrs ss) as [|ip l IH]; simpl; [done|].
    destruct (bool_decide (IpVersion_from ip = v)); simpl; [done|]. exact IH.
Qed.

(** Dedicated addresses of the version asked for, or the relay's own address on the ports reserved for
    Shadowsocks. *)
Lemma shadowsocks_accept ss wg v p :
  shadowsocks_verdict ss wg v p = Accept <->
  has_dedicated_addr ss v = true
  \/ exists ranges, ss_port_ranges ss = Some ranges /\ port_in_ranges ranges p = true
       /\ supports_ip_version wg v = true.
Proof.
  unfold shadowsocks_verdict. destruct (has_dedicated_addr ss v); [split; [by left | done]|].
  destruct (ss_port_ranges ss) as [ranges|]; cbn [verdict_all foldl].
  - destruct (port_in_ranges ranges p) eqn:E1, (supports_ip_version wg v) eqn:E2; simpl;
      try (by split; [intros _; right; exists ranges | done]);
      (split; [by case_bool_decide | intros [?|(r&[= <-]&?&?)]; congruence]).
  - split; [by case_bool_decide | intros [?|(r&?&_)]; congruence].
Qed.

Lemma shadowsocks_endpoint_spec ss wg v p s :
  (forall ranges, ss_port_ranges ss = Some ranges -> proper ranges) ->
  match outcome (shadowsocks_random_endpoint ss wg v p) s with
  | Some e => version_ok v (sa_ip e) /\ port_ok p (sa_port e) /\ shadowsocks_verdict ss wg v p = Accept
  | None => shadowsocks_verdict ss wg v p <> Accept
  end.
Proof.
  intros Hr. pose proof (dedicated_filter ss v) as Hd. unfold shadowsocks_random_endpoint.
  rewrite outcome_bind.
  pose proof (choose_outcome (List.filter (has_version v) (dedicated_addrs ss)) s) as Hc.
  destruct (outcome (choose _) s) as [ip|].
  - rewrite bool_decide_eq_false_2 in Hd by (intros E; rewrite E in Hc; set_solver).
    apply list_elem_of_In, filter_In in Hc as [Hin Hv]. rewrite outcome_bind, outcome_ret. simpl.
    split_and!; [done| |by apply shadowsocks_accept; left].
    destruct p as [|p]; [done|]. by intros ? [= ->].
  - rewrite bool_decide_eq_true_2 in Hd by done. simpl in Hd.
    destruct (select_ip wg v) as [ip|] eqn:E.
    + assert (supports_ip_version wg v = true) as Hs
        by (unfold supports_ip_version; rewrite E; by apply bool_decide_eq_true_2; eauto).
      destruct (ss_port_ranges ss) as [ranges|] eqn:Er.
      * rewrite outcome_bind, outcome_ret.
        set (s1 := (choose (List.filter (has_version v) (dedicated_addrs ss)) s).1).
        pose proof (random_port_spec ranges p s1 (Hr ranges eq_refl)) as Hp.
        destruct (outcome (random_port_in_ranges ranges p) s1) as [q|]; simpl.
        -- destruct Hp. split_and!; [by eapply select_ip_version | done |].
           apply shadowsocks_accept. right. by exists ranges.
        -- intros [?|(r&Er'&?&_)]%shadowsocks_accept; congruence.
      * rewrite outcome_ret. intros [?|(r&?&_)]%shadowsocks_accept; congruence.
    + rewrite outcome_ret. intros [?|(r&_&_&Hs)]%shadowsocks_accept; [congruence|].
      unfold supports_ip_version in Hs. rewrite E in Hs. by apply bool_decide_eq_true in Hs as [].
Qed.

Lemma quic_endpoint_spec q v s :
  qe_ipv4 q <> [] \/ qe_ipv6 q <> [] ->
  match outcome (quic_random_endpoint q v) s with
  | Some e => version_ok v (sa_ip e) /\ sa_port e = 443%Z /\ quic_supports_ip_version q v = true
  | None => quic_supports_ip_version q v = false
  end.
Proof.
  intros Hq. unfold quic_random_endpoint, quic_supports_ip_version. rewrite outcome_bind, outcome_ret.
  assert (forall (f : Z -> IpAddr) l s, match outcome (choose (map f l)) s with
            | Some ip => (exists a, ip = f a) /\ bool_decide (l = []) = false
            | None => l = [] end) as Hc.
  { intros f l s0. pose proof (choose_outcome (map f l) s0) as Hc. destruct (outcome _ s0) as [ip|].
    - apply list_elem_of_fmap in Hc as (a&->&Ha). split; [by eauto|]. apply bool_decide_eq_false.
      intros ->. set_solver.
    - by destruct l. }
  destruct v as [|[]]; simpl.
  - rewrite outcome_bind. pose proof (Hc V4 (qe_ipv4 q) s) as H4.
    destruct (outcome (choose (map V4 (qe_ipv4 q))) s) as [ip|]; [by rewrite outcome_ret|].
    set (s1 := (choose (map V4 (qe_ipv4 q)) s).1). pose proof (Hc V6 (qe_ipv6 q) s1) as H6.
    destruct (outcome (choose (map V6 (qe_ipv6 q))) s1); [done|]. naive_solver.
  - pose proof (Hc V4 (qe_ipv4 q) s) as H4.
    destruct (outcome (choose (map V4 (qe_ipv4 q))) s) as [ip|]; simpl.
    + destruct H4 as [[a ->] ->]. done.
    + by rewrite H4.
  - pose proof (Hc V6 (qe_ipv6 q) s) as H4.
    destruct (outcome (choose (map V6 (qe_ipv6 q))) s) as [ip|]; simpl.
    + destruct H4 as [[a ->] ->]. done.
    + by rewrite H4.
Qed.

Lemma udp2tcp_spec es ip p s :
  endpoints_ok es ->
  match outcome (udp2tcp_config es ip p) s with
  | Ok c => exists e, c = Udp2Tcp e /\ sa_ip e = ip /\ port_ok p (sa_port e)
              /\ exists ports, es_udp2tcp_ports es = Some ports
                              /\ is_any_or p (fun p => bool_decide (p ∈ ports)) = true
  | Err _ => forall ports, es_udp2tcp_ports es = Some ports ->
               is_any_or p (fun p => bool_decide (p ∈ ports)) = false
  end.
Proof.
  intros (_&Hne&_). unfold udp2tcp_config. destruct (es_udp2tcp_ports es) as [ports|]; [|done].
  rewrite outcome_bind, outcome_ret. destruct p as [|p]; simpl.
  - pose proof (choose_outcome ports s) as Hc. destruct (outcome (choose ports) s) as [q|]; simpl.
    + eexists. split_and!; [done..|]. by exists ports.
    + by destruct (Hne ports eq_refl).
  - rewrite outcome_ret. case_bool_decide; simpl.
    + eexists. split_and!; [done..| |]; [by intros ? [= ->] |]. exists ports. split; [done|].
      by apply bool_decide_eq_true_2.
    + intros ? [= <-]. by apply bool_decide_eq_false_2.
Qed.

Lemma lwo_spec es ip p s :
  endpoints_ok es ->
  match outcome (lwo_config es ip p) s with
  | Ok c => exists e, c = Lwo e /\ sa_ip e = ip /\ port_ok p (sa_port e)
              /\ es_lwo es = true /\ supports_port (es_wireguard es) p = true
  | Err _ => es_lwo es && supports_port (es_wireguard es) p = false
  end.
Proof.
  intros (Hr&_). unfold lwo_config, supports_port. destruct (es_lwo es); [|done].
  cbn [negb]. rewrite outcome_bind, outcome_ret.
  pose proof (random_port_spec (we_port_ranges (es_wireguard es)) p s Hr) as Hp.
  destruct (outcome (random_port_in_ranges _ p) s) as [q|]; simpl.
  - destruct Hp. eexists. by split_and!.
  - by rewrite Hp.
Qed.

Lemma shadowsocks_spec es v p s :
  endpoints_ok es ->
  match outcome (shadowsocks_config es v p) s with
  | Ok c => exists e, c = Shadowsocks e /\ version_ok v (sa_ip e) /\ port_ok p (sa_port e)
              /\ exists ss, es_shadowsocks es = Some ss
                           /\ shadowsocks_verdict ss (es_wireguard es) v p = Accept
  | Err _ => forall ss, es_shadowsocks es = Some ss ->
               shadowsocks_verdict ss (es_wireguard es) v p <> Accept
  end.
Proof.
  intros (_&_&Hr&_). unfold shadowsocks_config. destruct (es_shadowsocks es) as [ss|]; [|done].
  rewrite outcome_bind, outcome_ret.
  pose proof (shadowsocks_endpoint_spec ss (es_wireguard es) v p s ltac:(eauto)) as Hp.
  destruct (outcome (shadowsocks_random_endpoint ss (es_wireguard es) v p) s) as [e|]; simpl.
  - destruct Hp as (?&?&?). exists e. split_and!; try done. by exists ss.
  - by intros ? [= <-].
Qed.

Lemma quic_spec es v s :
  endpoints_ok es ->
  match outcome (quic_config es v) s with
  | Ok c => exists h e t, c = Quic h e t /\ version_ok v (sa_ip e) /\ sa_port e = 443%Z
              /\ exists q, es_quic es = Some q /\ quic_supports_ip_version q v = true
  | Err _ => forall q, es_quic es = Some q -> quic_supports_ip_version q v = false
  end.
Proof.
  intros (_&_&_&Hq). unfold quic_config. destruct (es_quic es) as [q|]; [|done].
  rewrite outcome_bind, outcome_ret. pose proof (quic_endpoint_spec q v s (Hq q eq_refl)) as Hp.
  destruct (outcome (quic_random_endpoint q v) s) as [e|]; simpl.
  - destruct Hp as (?&?&?). eexists _, e, _. split_and!; try done. by exists q.
  - by intros ? [= <-].
Qed.

Lemma staggered_spec es wg v s o :
  endpoints_ok es -> version_ok v (sa_ip wg) -> outcome (staggered_obfuscator es wg v) s = Some o ->
  Forall (fun c => version_ok v (config_ip c)) (configs o).
Proof.
  intros He Hv. unfold staggered_obfuscator. rewrite !outcome_bind.
  pose proof (lwo_spec es (sa_ip wg) Any s He) as Ha. set (s1 := (lwo_config es (sa_ip wg) Any s).1).
  pose proof (udp2tcp_spec es (sa_ip wg) Any s1 He) as Hb.
  set (s2 := (udp2tcp_config es (sa_ip wg) Any s1).1).
  pose proof (shadowsocks_spec es v Any s2 He) as Hc. set (s3 := (shadowsocks_config es v Any s2).1).
  pose proof (quic_spec es v s3 He) as Hd. rewrite outcome_ret.
  assert (Forall (fun c => version_ok v (config_ip c)) (omap result_ok
            [outcome (lwo_config es (sa_ip wg) Any) s; outcome (udp2tcp_config es (sa_ip wg) Any) s1;
             outcome (shadowsocks_config es v Any) s2; outcome (quic_config es v) s3])) as HF.
  { apply Forall_forall. intros c (r&Hr&Hc')%list_elem_of_omap. destruct r as [c'|]; simplify_eq/=.
    repeat (apply elem_of_cons in Hr as [Hr|Hr]); [..|set_solver]; rewrite <- Hr in *.
    - destruct Ha as (e&->&Hip&_). unfold config_ip. simpl. by rewrite Hip.
    - destruct Hb as (e&->&Hip&_). unfold config_ip. simpl. by rewrite Hip.
    - by destruct Hc as (e&->&Hip&_).
    - by destruct Hd as (h&e&t&->&Hip&_). }
  unfold multiplexer. destruct (omap result_ok _) as [|c cs]; [done|]. intros [= <-]. exact HF.
Qed.

Lemma all2_accept a ra b rb :
  verdict_all [if_false a ra; if_false b rb] = Accept <-> a && b = true.
Proof. by destruct a, b. Qed.

Lemma all3_accept a ra b rb c rc :
  verdict_all [if_false a ra; if_false b rb; if_false c rc] = Accept <-> a && b && c = true.
Proof. by destruct a, b, c. Qed.

Lemma single_ok m d v wg cfg :
  version_ok v (sa_ip wg) -> version_ok v (config_ip cfg) -> mode_ok m wg (Some (Single cfg)) ->
  connection_ok {| obfuscation := Only m; daita := d; ip_version := v |} wg (Some (Single cfg)).
Proof.
  intros Hw Hc Hm. split_and!; [done| |by intros ? [= <-]]. intros ? [= <-]. by constructor.
Qed.

Lemma plain_ok m d v wg :
  version_ok v (sa_ip wg) -> mode_ok m wg None ->
  connection_ok {| obfuscation := Only m; daita := d; ip_version := v |} wg None.
Proof. intros Hw Hm. split_and!; [done | done | by intros ? [= <-]]. Qed.

Lemma obfuscator_spec staggered es c s :
  endpoints_ok es ->
  match outcome (get_wireguard_obfuscator staggered es (obfuscation c) (ip_version c)) s with
  | Ok (wg, ob) => connection_ok c wg ob /\ obfuscation_verdict es c = Accept
                   /\ supports_ip_version (es_wireguard es) (ip_version c) = true
  | Err _ => obfuscation_verdict es c <> Accept
             \/ supports_ip_version (es_wireguard es) (ip_version c) = false
  end.
Proof.
  intros He. destruct c as [o d v]. cbn [obfuscation ip_version].
  unfold get_wireguard_obfuscator. rewrite outcome_bind.
  set (p := match o with Only (ModePort p) => port p | _ => Any end).
  pose proof (wireguard_endpoint_spec (es_wireguard es) v p s (proj1 He)) as Hw.
  set (s1 := (wireguard_random_endpoint (es_wireguard es) v p s).1).
  destruct (outcome (wireguard_random_endpoint (es_wireguard es) v p) s) as [wg|].
  - destruct Hw as (Hv&Hp&Hs&Hsp). unfold obfuscation_verdict. cbn [obfuscation ip_version].
    destruct o as [|[|sp|sp|sp| |sp]].
    + destruct staggered; [rewrite outcome_bind|]; rewrite outcome_ret, Hs; (split; [|done]).
      * split_and!; [done| |done]. intros o Ho. by eapply staggered_spec.
      * by split_and!.
    + rewrite outcome_ret, Hs. split; [by apply plain_ok | done].
    + rewrite outcome_ret, all2_accept, Hs. subst p. cbn [obfuscation] in *. rewrite Hsp.
      split; [by apply plain_ok | done].
    + rewrite outcome_bind, outcome_ret.
      pose proof (udp2tcp_spec es (sa_ip wg) (port sp) s1 He) as Hc.
      destruct (outcome (udp2tcp_config es (sa_ip wg) (port sp)) s1) as [cfg|]; simpl.
      * destruct Hc as (e&->&Hip&Hpe&ports&->&Hports). rewrite all2_accept, Hports, Hs.
        split; [|done]. apply single_ok; [done | unfold config_ip; simpl; by rewrite Hip | by exists e].
      * left. destruct (es_udp2tcp_ports es) as [ports|]; [|done].
        by rewrite all2_accept, (Hc ports eq_refl).
    + rewrite outcome_bind, outcome_ret. pose proof (shadowsocks_spec es v (port sp) s1 He) as Hc.
      destruct (outcome (shadowsocks_config es v (port sp)) s1) as [cfg|]; simpl.
      * destruct Hc as (e&->&Hip&Hpe&ss&->&Hss). rewrite Hss, Hs.
        split; [|done]. apply single_ok; [done | done | by exists e].
      * left. destruct (es_shadowsocks es) as [ss|]; [by apply Hc | done].
    + rewrite outcome_bind, outcome_ret. pose proof (quic_spec es v s1 He) as Hc.
      destruct (outcome (quic_config es v) s1) as [cfg|]; simpl.
      * destruct Hc as (h&e&t&->&Hip&Hpe&q&->&Hq). rewrite Hq, Hs.
        split; [|done]. apply single_ok; [done | done | by exists h, e, t].
      * left. destruct (es_quic es) as [q|]; [by rewrite (Hc q eq_refl) | done].
    + rewrite outcome_bind, outcome_ret. pose proof (lwo_spec es (sa_ip wg) (port sp) s1 He) as Hc.
      destruct (outcome (lwo_config es (sa_ip wg) (port sp)) s1) as [cfg|]; simpl.
      * destruct Hc as (e&->&Hip&Hpe&Hl&Hsl). rewrite all3_accept, Hl, Hsl, Hs.
        split; [|done]. apply single_ok; [done | unfold config_ip; simpl; by rewrite Hip | by exists e].
      * left. by rewrite all3_accept, Hc.
  - rewrite outcome_ret. destruct (supports_ip_version (es_wireguard es) v) eqn:Hs; [|by right].
    left. simpl in Hw. unfold obfuscation_verdict. cbn [obfuscation ip_version].
    destruct o as [|[|sp|sp|sp| |sp]]; subst p; cbn beta iota in Hw; try done.
    by rewrite all2_accept, Hw.
Qed.
End endpoints.

(** ** Queries from the settings *)
(** Whatever the hop count, the exit constraints, DAITA and the obfuscation are those of the settings. *)
Lemma query_from_settings settings rs :
  relay_settings settings = Some rs ->
  let q := RelayQuery_from settings in
  query_exit q = {| ec_location := rc_location rs; ec_providers := rc_providers rs;
                    ec_ownership := rc_ownership rs |}
  /\ daita (query_entry_specific q) = Only (daita_enabled settings)
  /\ obfuscation (query_entry_specific q)
     = obfuscation_constraint_from_settings (obfuscation_settings settings)
  /\ ip_version (query_entry_specific q) = wc_ip_version (wireguard_constraints rs).
Proof.
  intros E. unfold RelayQuery_from, query_exit, query_entry_specific, query_entry. rewrite E.
  destruct (use_multihop _), (daita_enabled settings && _); done.
Qed.

Section selecting.
Context {S : Type} {G : Rng S} {GL : RngLaws S G} {Geo : Geography}.


(** ** Selecting relays *)
Definition valid_list (l : AnnotatedRelayList) : Prop :=
  annotated l /\ u64_weights relay_weight (all_relays l)
  /\ forall r es, endpoint_set_for l r = Some es -> endpoints_ok es.

Lemma pick_spec l rs s :
  valid_list l -> (forall r, r ∈ rs -> r ∈ all_relays l) ->
  match outcome (pick_random_relay rs) s with Some r => r ∈ rs | None => rs = [] end.
Proof.
  intros (_&Hw&_) Hin. apply pick_in. unfold u64_weights in *. rewrite Forall_forall in *. eauto.
Qed.

Lemma relay_eqb_sym a b : relay_eqb a b = relay_eqb b a.
Proof. unfold relay_eqb. apply bool_decide_ext. split; congruence. Qed.

Lemma pick_excluding_spec l rs x s :
  valid_list l -> (forall r, r ∈ rs -> r ∈ all_relays l) ->
  match outcome (pick_random_relay_excluding rs x) s with
  | Some r => r ∈ rs /\ relay_eqb r x = false
  | None => forall r, r ∈ rs -> relay_eqb r x = true
  end.
Proof.
  intros (_&Hw&_) Hin. unfold pick_random_relay_excluding.
  set (rs' := List.filter (fun a => negb (relay_eqb a x)) rs).
  assert (forall r, r ∈ rs' <-> r ∈ rs /\ relay_eqb r x = false) as Hf.
  { intros r. unfold rs'. rewrite !list_elem_of_In, filter_In, negb_true_iff. done. }
  assert (u64_weights relay_weight rs') as Hw'.
  { unfold u64_weights in *. rewrite Forall_forall in *. intros r [Hr _]%Hf. eauto. }
  pose proof (pick_in relay_weight rs' s Hw') as Hp. unfold outcome.
  destruct (pick_random_relay_weighted relay_weight rs' s).2 as [r|]; [by apply Hf|].
  intros r Hr. destruct (relay_eqb r x) eqn:E; [done|]. exfalso.
  assert (r ∈ rs') as Hr' by (by apply Hf). rewrite Hp in Hr'. set_solver.
Qed.

Lemma take_while_in {A} (f : A -> bool) l a : a ∈ take_while f l -> a ∈ l.
Proof. induction l as [|b l IH]; simpl; [done|]. destruct (f b); set_solver. Qed.

Lemma closest_in x rs r : r ∈ closest_to x rs -> r ∈ rs.
Proof.
  unfold closest_to. intros ([d r']&->&Hin%take_while_in)%list_elem_of_fmap.
  rewrite (merge_sort_Permutation by_distance) in Hin.
  apply list_elem_of_fmap in Hin as (r&[= -> ->]&?). done.
Qed.

(** [c] is what query [q] asks for, as far as the relays are concerned. *)
Definition config_ok (l : AnnotatedRelayList) (lists : CustomListsSettings) (q : RelayQuery)
    (c : WireguardConfig) : Prop :=
  exit_of c ∈ all_relays l /\ entry_of c ∈ all_relays l
  /\ exit_ok lists (query_exit q) (exit_of c)
  /\ (daita (query_entry_specific q) = Only true -> relay_daita (endpoint_data (entry_of c)) = true)
  /\ match c, hops q with
     | Singlehop _, (SingleHop _ | AutoHop _) => True
     | Multihop exit entry, AutoHop e =>
         relay_eqb entry exit = false /\ exit_ok lists (general (mh_entry (into_autohop e))) entry
     | Multihop exit entry, MultiHop m =>
         relay_eqb entry exit = false /\ exit_ok lists (general (mh_entry m)) entry
     | _, _ => False
     end.

Lemma multihop_select_spec l lists m p s :
  valid_list l -> partition_multihop l m lists = Some p ->
  match outcome (select_from_multihop_partitions p m) s with
  | Ok c => exists x e, c = Multihop x e /\ x ∈ p_matches (exits p) /\ e ∈ p_matches (entries p)
              /\ relay_eqb e x = false
  | Err _ => p_matches (exits p) = []
             \/ exists x, x ∈ p_matches (exits p)
                  /\ forall e, e ∈ match ec_location (general (mh_entry m)) with
                                   | Any => closest_to x (p_matches (entries p))
                                   | Only _ => p_matches (entries p)
                                   end -> relay_eqb e x = true
  end.
Proof.
  intros Hl Hp. destruct (partition_multihop_spec l m lists (proj1 Hl)) as (p'&Hp'&Hen&Hex&_).
  rewrite Hp in Hp'. injection Hp' as <-.
  unfold select_from_multihop_partitions. rewrite outcome_bind.
  pose proof (pick_spec l (p_matches (exits p)) s Hl ltac:(naive_solver)) as Hx.
  set (s1 := (pick_random_relay (p_matches (exits p)) s).1).
  destruct (outcome (pick_random_relay _) s) as [x|]; [|by left].
  rewrite outcome_bind, outcome_ret.
  set (cs := match ec_location (general (mh_entry m)) with
             | Any => closest_to x (p_matches (entries p)) | Only _ => p_matches (entries p) end).
  assert (forall r, r ∈ cs -> r ∈ p_matches (entries p)) as Hcs
    by (intros r; unfold cs; destruct (ec_location _); [apply closest_in | done]).
  pose proof (pick_excluding_spec l cs x s1 Hl ltac:(naive_solver)) as He.
  destruct (outcome (pick_random_relay_excluding cs x) s1) as [e|].
  - destruct He. exists x, e. split_and!; auto.
  - right. by exists x.
Qed.

Lemma multihop_config_ok l lists m p x e :
  valid_list l -> partition_multihop l m lists = Some p ->
  x ∈ p_matches (exits p) -> e ∈ p_matches (entries p) ->
  x ∈ all_relays l /\ e ∈ all_relays l /\ exit_ok lists (mh_exit m) x /\ both_ok l lists (mh_entry m) e.
Proof.
  intros Hl Hp Hx He. destruct (partition_multihop_spec l m lists (proj1 Hl)) as (p'&Hp'&Hen&Hex&_).
  rewrite Hp in Hp'. injection Hp' as <-. apply Hex in Hx as []. by apply Hen in He as [].
Qed.

Lemma select_ok l lists q s :
  valid_list l ->
  match outcome (select_wireguard_relay l lists q) s with
  | None => False
  | Some (Ok c) => config_ok l lists q c
  | Some (Err _) => True
  end.
Proof.
  intros Hl. unfold select_wireguard_relay, config_ok, query_exit, query_entry_specific, query_entry.
  destruct (hops q) as [c|c|m].
  - destruct (partition_entry_spec l c lists (proj1 Hl)) as (p&->&Hp&_).
    rewrite outcome_bind, outcome_ret.
    pose proof (pick_spec l (p_matches p) s Hl ltac:(naive_solver)) as Hx.
    destruct (outcome _ s) as [x|]; [|done]. apply Hp in Hx as [Hx [[Hd _] He]]. by split_and!.
  - unfold partition_autohop. destruct (partition_entry_spec l c lists (proj1 Hl)) as (p&->&Hp&_).
    destruct (partition_multihop_spec l (into_autohop c) lists (proj1 Hl)) as (mp&Hmp&_).
    rewrite Hmp. cbn [mbind option_bind ah_singlehop ah_multihop]. rewrite outcome_bind.
    pose proof (pick_spec l (p_matches p) s Hl ltac:(naive_solver)) as Hx.
    set (s1 := (pick_random_relay (p_matches p) s).1).
    destruct (outcome (pick_random_relay (p_matches p)) s) as [x|].
    + rewrite outcome_ret. apply Hp in Hx as [Hx [[Hd _] He]]. by split_and!.
    + rewrite outcome_bind, outcome_ret.
      pose proof (multihop_select_spec l lists (into_autohop c) mp s1 Hl Hmp) as Hm.
      destruct (outcome _ s1) as [cfg|]; [|done]. destruct Hm as (x&e&->&Hxm&Hem&Hne).
      destruct (multihop_config_ok l lists _ mp x e Hl Hmp Hxm Hem) as (?&?&?&[[Hd _] ?]). by split_and!.
  - destruct (partition_multihop_spec l m lists (proj1 Hl)) as (mp&Hmp&_). rewrite Hmp.
    rewrite outcome_bind, outcome_ret.
    pose proof (multihop_select_spec l lists m mp s Hl Hmp) as Hm.
    destruct (outcome _ s) as [cfg|]; [|done]. destruct Hm as (x&e&->&Hxm&Hem&Hne).
    destruct (multihop_config_ok l lists _ mp x e Hl Hmp Hxm Hem) as (?&?&?&[[Hd _] ?]). by split_and!.
Qed.

(** The answer [g] respects query [q]. *)
Definition relay_ok (l : AnnotatedRelayList) (lists : CustomListsSettings) (q : RelayQuery)
    (g : GetRelay) : Prop :=
  config_ok l lists q (gr_inner g)
  /\ connection_ok (query_entry_specific q) (peer_endpoint (me_peer (gr_endpoint g))) (gr_obfuscator g)
  /\ gr_endpoint g = wireguard_endpoint (q_allowed_ips q) (wireguard (al_inner l)) (gr_inner g)
                       (peer_endpoint (me_peer (gr_endpoint g))).

Lemma by_query_ok staggered l lists q s :
  valid_list l ->
  match outcome (get_relay_by_query staggered l lists q) s with
  | None => False
  | Some (Ok g) => relay_ok l lists q g
  | Some (Err _) => True
  end.
Proof.
  intros Hl. unfold get_relay_by_query. rewrite outcome_bind.
  pose proof (select_ok l lists q s Hl) as Hs. set (s1 := (select_wireguard_relay l lists q s).1).
  destruct (outcome (select_wireguard_relay l lists q) s) as [[c|e]|]; [|done..].
  destruct (endpoint_set_for l (entry_of c)) as [es|] eqn:Hes; [|done].
  rewrite outcome_bind, outcome_ret.
  pose proof (obfuscator_spec staggered es (query_entry_specific q) s1 (proj2 (proj2 Hl) _ _ Hes)) as Ho.
  destruct (outcome _ s1) as [[wg ob]|]; [|done]. destruct Ho as [Ho _].
  split_and!; simpl; [done | by destruct c | by destruct c].
Qed.

(** ** Retries never override the user *)
Lemma set_entry_specific_spec m q :
  query_entry_specific (set_entry_specific m q) = m
  /\ query_exit (set_entry_specific m q) = query_exit q.
Proof. unfold query_entry_specific, query_entry, query_exit. by destruct q as [[] ?]. Qed.

Lemma tighter_ok l lists q m g :
  refines m (query_entry_specific q) -> relay_ok l lists (set_entry_specific m q) g -> relay_ok l lists q g.
Proof.
  intros Hr ((Hx&He&Hxo&Hd&Hh)&Hc&Hg).
  destruct (set_entry_specific_spec m q) as [Es Ee]. rewrite Es, Ee in *.
  split_and!; [|by eapply refines_connection | done].
  split_and!; try done.
  - intros E. apply Hd. by apply refines_entry_specific in Hr as (_&_&?); auto.
  - revert Hh. destruct q as [[] ?], (gr_inner g); simpl; done.
Qed.

Lemma merge_refines q r q' :
  merge_retry q r = Some q' ->
  exists m, q' = set_entry_specific m q /\ refines m (query_entry_specific q).
Proof.
  unfold merge_retry. rewrite bind_Some. intros (m&Hm&[= <-]). exists m. split; [done|].
  by apply intersection_lower in Hm as [].
Qed.

Section retries.
Context (try : RelayQuery -> R S (option (result GetRelay SelectorError))) (user : RelayQuery).
Context (P : GetRelay -> Prop).
Hypothesis try_ok : forall r q s, merge_retry user r = Some q ->
  match outcome (try q) s with None => False | Some (Ok g) => P g | Some (Err _) => True end.

Lemma next_relay_ok order s :
  match outcome (next_relay try user order) s with
  | None => False
  | Some (Some (g, _)) => P g
  | Some None => True
  end.
Proof using try_ok.
  revert s. induction order as [|r order IH]; intros s; cbn [next_relay]; [done|].
  destruct (merge_retry user r) as [q|] eqn:E; [|apply IH]. rewrite outcome_bind.
  pose proof (try_ok r q s E) as Ht. destruct (outcome (try q) s) as [[g|e]|]; [done | apply IH | done].
Qed.

Lemma nth_relay_ok retry_order n order s :
  match outcome (nth_relay try user retry_order n order) s with
  | None => False
  | Some (Some g) => P g
  | Some None => True
  end.
Proof using try_ok.
  revert order s. induction n as [|n IH]; intros order s; cbn [nth_relay]; rewrite !outcome_bind;
    (pose proof (next_relay_ok order s) as H1; set (s1 := (next_relay try user order s).1);
     destruct (outcome (next_relay try user order) s) as [[[g rest]|]|]; [| |done]);
    [by rewrite !outcome_ret | | rewrite outcome_ret; apply IH |];
    (pose proof (next_relay_ok retry_order s1) as H2;
     destruct (outcome (next_relay try user retry_order) s1) as [[[g rest]|]|]; [|done|done]);
    [done | apply IH].
Qed.
End retries.

Lemma apply_availability_spec q a q' :
  apply_ip_availability q a = Ok q' ->
  exists m, q' = set_entry_specific m q /\ refines m (query_entry_specific q)
    /\ refines (ip_version m) (runtime_constraint a).
Proof.
  unfold apply_ip_availability. destruct (intersection _ _) as [v|] eqn:E; [|done]. intros [= <-].
  eexists. split; [done|]. apply intersection_lower in E as [Hv Hr]. split; [|done].
  unfold refines in *. unfold intersection at 1, EntrySpecificConstraints_intersection. simpl.
  by rewrite !intersection_idemp, Hv.
Qed.

Lemma foldl_insert_from {A} (l : list (string * A)) (m : gmap string A) k a :
  foldl (fun m p => <[p.1 := p.2]> m) m l !! k = Some a -> m !! k = Some a \/ (k, a) ∈ l.
Proof.
  revert m. induction l as [|[k' a'] l IH]; intros m; simpl; [by left|]. intros [H|H]%IH; [|set_solver].
  apply lookup_insert_Some in H as [[-> ->]|[_ H]]; [set_solver | by left].
Qed.

Lemma valid_new list l :
  AnnotatedRelayList_new list = Some l ->
  Forall (fun r => r.1 <= r.2)%Z (port_ranges (wireguard list)) ->
  Forall (fun r => r.1 <= r.2)%Z (shadowsocks_port_ranges (wireguard list)) ->
  u64_weights relay_weight (RelayList_relays list) -> valid_list l.
Proof.
  intros Hnew Hp Hss Hw. destruct (annotated_new list l Hnew) as [Hi Ha].
  split_and!; [done | unfold all_relays; by rewrite Hi |].
  unfold AnnotatedRelayList_new in Hnew. apply bind_Some in Hnew as (sets&Hs&[= <-]).
  intros r es Hes. unfold endpoint_set_for in Hes. simpl in Hes.
  apply foldl_insert_from in Hes as [Hes|Hes]; [by rewrite lookup_empty in Hes|].
  apply mapM_Some in Hs. destruct (Forall2_elem_of_r _ _ _ _ Hs Hes) as (r'&_&(es'&Hes'&[= _ ->])%fmap_Some).
  by eapply endpoint_set_new_ok.
Qed.

(** A query at least as strict as the user's, whose IP version the host has. *)
Definition within (user : RelayQuery) (a : IpAvailability) (q : RelayQuery) : Prop :=
  exists m, q = set_entry_specific m user /\ refines m (query_entry_specific user)
    /\ refines (ip_version m) (runtime_constraint a).

Lemma within_ok staggered l lists user a q s :
  valid_list l -> within user a q ->
  match outcome (get_relay_by_query staggered l lists q) s with
  | None => False
  | Some (Ok g) => relay_ok l lists user g
                   /\ version_ok (runtime_constraint a) (sa_ip (peer_endpoint (me_peer (gr_endpoint g))))
  | Some (Err _) => True
  end.
Proof.
  intros Hl (m&->&Hm&Hv). pose proof (by_query_ok staggered l lists (set_entry_specific m user) s Hl) as Hq.
  destruct (outcome _ s) as [[g|e]|]; [|done..]. split; [by eapply tighter_ok|].
  destruct Hq as (_&[Hc _]&_). rewrite (proj1 (set_entry_specific_spec m user)) in Hc.
  by eapply refines_version.
Qed.

Lemma within_merge user a q r q' : within user a q -> merge_retry q r = Some q' -> within user a q'.
Proof.
  intros (m&->&Hm&Hv) (m'&->&Hm')%merge_refines.
  rewrite (proj1 (set_entry_specific_spec m user)) in Hm'. exists m'. split_and!.
  - by destruct user as [[] ?].
  - by eapply refines_trans.
  - eapply refines_trans; [|done]. by apply refines_entry_specific in Hm' as [].
Qed.

(** Every attempt of [get_relay] on a valid list. *)
Lemma get_relay_ok staggered l lists query attempt a s :
  valid_list l ->
  match outcome (get_relay staggered l lists query attempt a) s with
  | None => False
  | Some (Err _) => True
  | Some (Ok g) => relay_ok l lists query g
                   /\ version_ok (runtime_constraint a) (sa_ip (peer_endpoint (me_peer (gr_endpoint g))))
  end.
Proof.
  intros Hl.
  unfold get_relay, get_relay_with_custom_params.
  destruct (apply_ip_availability query a) as [user|] eqn:Ea; [|done].
  assert (within query a user) as Hu by (by apply apply_availability_spec).
  rewrite outcome_bind.
  pose proof (nth_relay_ok (get_relay_by_query staggered l lists) user
    (fun g => relay_ok l lists query g
              /\ version_ok (runtime_constraint a) (sa_ip (peer_endpoint (me_peer (gr_endpoint g)))))
    (fun r q s0 Hq => within_ok staggered l lists query a q s0 Hl (within_merge query a user r q Hu Hq))
    RETRY_ORDER attempt RETRY_ORDER s) as Hn.
  destruct (outcome _ s) as [[g|]|]; [done| |done]. by apply within_ok.
Qed.


(** ** Why no relay is selected *)
Definition no_single (l : AnnotatedRelayList) (lists : CustomListsSettings) (c : EntryConstraints) : Prop :=
  forall r, r ∈ all_relays l -> ~ both_ok l lists c r.

(** The query is for two hops: it asks for them, or it leaves the choice and no relay will do alone. *)
Definition two_hops (l : AnnotatedRelayList) (lists : CustomListsSettings) (q : RelayQuery) (m : MultihopConstraints) : Prop :=
  hops q = MultiHop m \/ exists c, hops q = AutoHop c /\ m = into_autohop c /\ no_single l lists c.

Definition no_exit (l : AnnotatedRelayList) (lists : CustomListsSettings) (q : RelayQuery) : Prop :=
  exists m p, two_hops l lists q m /\ partition_multihop l m lists = Some p /\ p_matches (exits p) = [].

(** There is an exit, and no entry beside it; without a location only the entries closest to it count. *)
Definition no_entry (l : AnnotatedRelayList) (lists : CustomListsSettings) (q : RelayQuery) : Prop :=
  exists m p x, two_hops l lists q m /\ partition_multihop l m lists = Some p /\ x ∈ p_matches (exits p)
    /\ forall e, e ∈ match ec_location (general (mh_entry m)) with
                     | Any => closest_to x (p_matches (entries p))
                     | Only _ => p_matches (entries p)
                     end -> relay_eqb e x = true.

(** Relays that the query allows, the first of which has no address or no obfuscation that was asked for. *)
Definition no_endpoint (l : AnnotatedRelayList) (lists : CustomListsSettings) (q : RelayQuery) : Prop :=
  exists c, config_ok l lists q c
    /\ forall es, endpoint_set_for l (entry_of c) = Some es ->
         obfuscation_verdict es (query_entry_specific q) <> Accept
         \/ supports_ip_version (es_wireguard es) (ip_version (query_entry_specific q)) = false.

Definition refused (l : AnnotatedRelayList) (lists : CustomListsSettings) (q : RelayQuery) (e : SelectorError) : Prop :=
  match e with
  | NoRelayEntry _ => no_entry l lists q
  | NoRelayExit _ => no_exit l lists q
  | NoRelay _ => (exists c, hops q = SingleHop c /\ no_single l lists c) \/ no_endpoint l lists q
  | NoObfuscator _ => no_endpoint l lists q
  | IpVersionUnavailable _ => False
  end.

Lemma multihop_refused l lists q m p s e :
  valid_list l -> two_hops l lists q m -> partition_multihop l m lists = Some p ->
  outcome (select_from_multihop_partitions p m) s = Err e -> refused l lists q e.
Proof.
  intros Hl Hm Hp. destruct (partition_multihop_spec l m lists (proj1 Hl)) as (p'&Hp'&Hen&Hex&_).
  rewrite Hp in Hp'. injection Hp' as <-.
  unfold select_from_multihop_partitions. rewrite outcome_bind.
  pose proof (pick_spec l (p_matches (exits p)) s Hl ltac:(naive_solver)) as Hx.
  set (s1 := (pick_random_relay (p_matches (exits p)) s).1).
  destruct (outcome (pick_random_relay _) s) as [x|]; [|rewrite outcome_ret; intros [= <-]; by exists m, p].
  rewrite outcome_bind, outcome_ret.
  set (cs := match ec_location (general (mh_entry m)) with
             | Any => closest_to x (p_matches (entries p)) | Only _ => p_matches (entries p) end).
  assert (forall r, r ∈ cs -> r ∈ p_matches (entries p)) as Hcs
    by (intros r; unfold cs; destruct (ec_location _); [apply closest_in | done]).
  pose proof (pick_excluding_spec l cs x s1 Hl ltac:(naive_solver)) as He.
  destruct (outcome (pick_random_relay_excluding cs x) s1) as [y|]; [done|]. intros [= <-]. by exists m, p, x.
Qed.

Lemma select_refused l lists q s e :
  valid_list l -> outcome (select_wireguard_relay l lists q) s = Some (Err e) -> refused l lists q e.
Proof.
  intros Hl. unfold select_wireguard_relay. destruct (hops q) as [c|c|m] eqn:Eh.
  - destruct (partition_entry_spec l c lists (proj1 Hl)) as (p&->&Hp&_). rewrite outcome_bind, outcome_ret.
    pose proof (pick_spec l (p_matches p) s Hl ltac:(naive_solver)) as Hx.
    destruct (outcome _ s) as [x|]; [done|]. intros [= <-]. left. exists c. split; [done|].
    intros r Hr Hb. assert (r ∈ p_matches p) as H by (by apply Hp). rewrite Hx in H. set_solver.
  - unfold partition_autohop. destruct (partition_entry_spec l c lists (proj1 Hl)) as (p&->&Hp&_).
    destruct (partition_multihop_spec l (into_autohop c) lists (proj1 Hl)) as (mp&Hmp&_).
    rewrite Hmp. cbn [mbind option_bind ah_singlehop ah_multihop]. rewrite outcome_bind.
    pose proof (pick_spec l (p_matches p) s Hl ltac:(naive_solver)) as Hx.
    set (s1 := (pick_random_relay (p_matches p) s).1).
    destruct (outcome (pick_random_relay (p_matches p)) s) as [x|]; [by rewrite outcome_ret|].
    rewrite outcome_bind, outcome_ret. intros [= He]. eapply multihop_refused; [done| |exact Hmp|exact He].
    right. exists c. split_and!; [done..|]. intros r Hr Hb.
    assert (r ∈ p_matches p) as H by (by apply Hp). rewrite Hx in H. set_solver.
  - destruct (partition_multihop_spec l m lists (proj1 Hl)) as (mp&Hmp&_). rewrite Hmp, outcome_bind, outcome_ret.
    intros [= He]. eapply multihop_refused; [done|by left|exact Hmp|exact He].
Qed.

Lemma by_query_refused staggered l lists q s e :
  valid_list l -> outcome (get_relay_by_query staggered l lists q) s = Some (Err e) -> refused l lists q e.
Proof.
  intros Hl. unfold get_relay_by_query. rewrite outcome_bind.
  pose proof (select_ok l lists q s Hl) as Hs. pose proof (select_refused l lists q s) as Hr.
  set (s1 := (select_wireguard_relay l lists q s).1).
  destruct (outcome (select_wireguard_relay l lists q) s) as [[c|e']|];
    [|rewrite outcome_ret; intros [= ->]; by apply Hr|done].
  destruct (endpoint_set_for l (entry_of c)) as [es|] eqn:Hes.
  - rewrite outcome_bind, outcome_ret.
    pose proof (obfuscator_spec staggered es (query_entry_specific q) s1 (proj2 (proj2 Hl) _ _ Hes)) as Ho.
    destruct (outcome _ s1) as [[wg ob]|]; [done|]. intros [= <-]. exists c. split; [done|].
    intros es'. rewrite Hes. by intros [= <-].
  - rewrite outcome_ret. intros [= <-]. right. exists c. split; [done|]. by rewrite Hes.
Qed.

(** Each error of [get_relay] has its reason: the host has no IP version that was asked for; or, with the IP
    versions it has, what the error says is missing. *)
Lemma get_relay_refused staggered l lists query attempt a s e :
  valid_list l -> outcome (get_relay staggered l lists query attempt a) s = Some (Err e) ->
  (exists v v', e = IpVersionUnavailable v /\ ip_version (query_entry_specific query) = Only v
     /\ runtime_constraint a = Only v' /\ v <> v')
  \/ exists q, apply_ip_availability query a = Ok q /\ refused l lists q e.
Proof.
  intros Hl. unfold get_relay, get_relay_with_custom_params.
  destruct (apply_ip_availability query a) as [user|e'] eqn:Ea.
  - rewrite outcome_bind. set (s1 := (nth_relay _ _ _ _ _ s).1).
    destruct (outcome (nth_relay _ _ _ _ _) s) as [[g|]|]; [by rewrite outcome_ret| |by rewrite outcome_ret].
    intros He. right. exists user. split; [done|]. by eapply by_query_refused.
  - rewrite outcome_ret. intros [= <-]. left. revert Ea. unfold apply_ip_availability.
    destruct (ip_version (query_entry_specific query)) as [|v]; [by destruct (runtime_constraint a)|].
    destruct (runtime_constraint a) as [|v'] eqn:Er; [done|]. unfold intersection, Constraint_intersection. simpl.
    destruct (intersection v v') eqn:Ei; [done|]. intros [= <-]. exists v, v'. split_and!; try done.
    intros ->. by destruct v'.
Qed.

(** ** A pair of relays is found whenever there is one *)
Definition host (r : WireguardRelay) : string := hostname (inner r).

Lemma partition_sublist l f p :
  partition_by_verdict l f = Some p -> p_matches p `sublist_of` all_relays l.
Proof.
  unfold partition_by_verdict, all_relays. rewrite bind_Some. intros (vs&Hvs%mapM_Some&[= <-]).
  induction Hvs as [|r [r' v] rs vs Hr _ IH]; [done|].
  apply fmap_Some in Hr as (es&_&[= -> ->]). simpl. destruct (f r es); by constructor.
Qed.

Lemma sublist_fmap {A B} (f : A -> B) (l k : list A) :
  l `sublist_of` k -> (f <$> l) `sublist_of` (f <$> k).
Proof. induction 1; simpl; by constructor. Qed.

Lemma unique_hosts l rs a b :
  NoDup (map host (all_relays l)) -> rs `sublist_of` all_relays l -> a ∈ rs -> b ∈ rs ->
  relay_eqb a b = true -> a = b.
Proof.
  intros Hd Hs Ha Hb Heq%bool_decide_eq_true. apply list_elem_of_lookup in Ha as (i&Ha), Hb as (j&Hb).
  assert (NoDup (host <$> rs)) as Hd' by (eapply sublist_NoDup; [exact Hd | by apply sublist_fmap]).
  assert (i = j) as ->; [|by simplify_eq].
  eapply (NoDup_lookup (host <$> rs)); [done| |]; rewrite list_lookup_fmap; [rewrite Ha | rewrite Hb];
    simpl; unfold host; by rewrite ?Heq.
Qed.

Lemma move_removes from into u :
  p_matches from = [u] -> NoDup (map host (p_matches into)) ->
  u ∉ p_matches (move_unique_conflict from into).
Proof.
  intros Hu Hd. unfold move_unique_conflict. rewrite Hu.
  destruct (list_find (fun r => relay_eqb r u = true) (p_matches into)) as [[pos r]|] eqn:E; simpl.
  - apply list_find_Some in E as (Hpos&Heq&_). intros (i&Hi)%list_elem_of_lookup.
    assert (exists j, j <> pos /\ p_matches into !! j = Some u) as (j&Hj&Hju).
    { destruct (decide (i < pos)).
      - exists i. split; [lia|]. by rewrite list_lookup_delete_lt in Hi.
      - exists (Datatypes.S i). split; [lia|]. by rewrite list_lookup_delete_ge in Hi by lia. }
    apply Hj. eapply (NoDup_lookup (host <$> p_matches into)); [exact Hd| |];
      rewrite list_lookup_fmap; [by rewrite Hju|]. rewrite Hpos. simpl. f_equal.
    by apply bool_decide_eq_true in Heq.
  - apply list_find_None in E. intros Hin. rewrite Forall_forall in E. apply (E u Hin).
    unfold relay_eqb. by apply bool_decide_eq_true.
Qed.

Lemma all_same {A} (l : list A) a : NoDup l -> a ∈ l -> (forall b, b ∈ l -> b = a) -> l = [a].
Proof.
  intros Hd Ha Hall. destruct l as [|x [|y l]]; [set_solver | |].
  - f_equal. apply Hall. set_solver.
  - exfalso. apply NoDup_cons in Hd as [Hx _]. apply Hx.
    rewrite (Hall x), (Hall y) by set_solver. set_solver.
Qed.

Lemma no_dead_end l en ex e x y :
  NoDup (map host (all_relays l)) ->
  p_matches en `sublist_of` all_relays l -> p_matches ex `sublist_of` all_relays l ->
  let p := remove_conflicting_relay en ex in
  e ∈ p_matches (entries p) -> x ∈ p_matches (exits p) -> relay_eqb e x = false ->
  y ∈ p_matches (exits p) -> ~ (forall r, r ∈ p_matches (entries p) -> relay_eqb r y = true).
Proof.
  intros Hd Hen Hex p He Hx Hne Hy Hall. subst p. unfold remove_conflicting_relay in *. simpl in *.
  set (ex' := move_unique_conflict en ex) in *.
  assert (p_matches (move_unique_conflict ex' en) = p_matches en) as E.
  { unfold move_unique_conflict at 1. destruct (p_matches ex') as [|z [|]] eqn:Ez; [done| |done].
    destruct (list_find _ _) as [[pos r]|] eqn:Ef; [|done]. exfalso.
    apply list_find_Some in Ef as (Hpos&Heq&_).
    apply list_elem_of_singleton in Hx as ->, Hy as ->. specialize (Hall e He). congruence. }
  rewrite E in He, Hall.
  assert (forall r, r ∈ p_matches en -> r = e) as Hsame.
  { intros r Hr. eapply (unique_hosts l (p_matches en)); try done. unfold relay_eqb.
    apply bool_decide_eq_true. pose proof (Hall r Hr) as H1%bool_decide_eq_true.
    pose proof (Hall e He) as H2%bool_decide_eq_true. congruence. }
  assert (NoDup (p_matches en)) as Hnd
    by (apply (NoDup_fmap_1 host); eapply sublist_NoDup; [exact Hd | by apply sublist_fmap]).
  pose proof (all_same _ e Hnd He Hsame) as Een.
  assert (NoDup (map host (p_matches ex))) as Hdx
    by (eapply sublist_NoDup; [exact Hd | by apply (sublist_fmap host)]).
  apply (move_removes en ex e Een Hdx). fold ex'.
  assert (y = e) as ->; [|done].
  eapply (unique_hosts l (all_relays l)); try done.
  - eapply elem_of_sublist; [|exact Hex]. by apply (move_subset en).
  - by eapply elem_of_sublist.
  - rewrite relay_eqb_sym. by apply Hall.
Qed.

(** A multihop with a chosen entry location is found whenever there is one: for a relay list with
    unique host names, relays are selected, whatever the random numbers, exactly if the list has two
    different relays of which one meets the entry constraints and the other the exit constraints. *)
Theorem multihop_found_exactly list l lists m ips loc s :
  AnnotatedRelayList_new list = Some l ->
  Forall (fun r => r.1 <= r.2)%Z (port_ranges (wireguard list)) ->
  Forall (fun r => r.1 <= r.2)%Z (shadowsocks_port_ranges (wireguard list)) ->
  u64_weights relay_weight (RelayList_relays list) ->
  NoDup (map host (all_relays l)) -> ec_location (general (mh_entry m)) = Only loc ->
  (exists c, outcome (select_wireguard_relay l lists {| hops := MultiHop m; q_allowed_ips := ips |}) s
             = Some (Ok c))
  <-> exists e x, e ∈ all_relays l /\ x ∈ all_relays l /\ relay_eqb e x = false
        /\ both_ok l lists (mh_entry m) e /\ exit_ok lists (mh_exit m) x.
Proof.
  intros Hnew Hp Hss Hw Hd Hloc. assert (valid_list l) as Hl by (by eapply valid_new).
  destruct (partition_multihop_spec l m lists (proj1 Hl)) as (p&Hpm&_&_&Hpair).
  unfold select_wireguard_relay. simpl. rewrite Hpm, outcome_bind, outcome_ret.
  pose proof (multihop_select_spec l lists m p s Hl Hpm) as Hs. rewrite Hloc in Hs.
  destruct (outcome (select_from_multihop_partitions p m) s) as [c|err].
  - destruct Hs as (x&e&->&Hx&He&Hne).
    destruct (multihop_config_ok l lists m p x e Hl Hpm Hx He) as (?&?&?&?).
    split; [|by eauto]. intros _. exists e, x. by split_and!.
  - split; [by intros (?&?)|]. intros (e&x&He&Hx&Hne&Hbe&Hxo). exfalso.
    destruct (Hpair e x Hne He Hbe Hx Hxo) as [He' Hx'].
    destruct Hs as [Hs|(y&Hy&Hall)]; [rewrite Hs in Hx'; set_solver|].
    unfold partition_multihop in Hpm.
    apply bind_Some in Hpm as (en&Hen&Hpm). apply bind_Some in Hpm as (ex&Hex&[= <-]).
    by eapply (no_dead_end l en ex e x y Hd); [eapply partition_sublist | eapply partition_sublist | ..].
Qed.

(** ** The automatic entry *)
Definition distance_to (x r : WireguardRelay) : Z :=
  distance_from (location (inner r)) (location (inner x)).

Lemma take_while_all {A} (f : A -> bool) l a : a ∈ take_while f l -> f a = true.
Proof. induction l as [|b l IH]; simpl; [set_solver|]. destruct (f b) eqn:E; set_solver. Qed.

Lemma closest_minimal x rs r r' :
  r ∈ closest_to x rs -> r' ∈ rs -> (distance_to x r <= distance_to x r')%Z.
Proof.
  unfold closest_to. set (ds := map _ rs).
  assert (Transitive by_distance) by (intros a b c; unfold by_distance; lia).
  assert (Total by_distance) by (intros a b; unfold by_distance; lia).
  pose proof (StronglySorted_merge_sort by_distance ds) as Hs.
  pose proof (merge_sort_Permutation by_distance ds) as HP. set (ss := merge_sort by_distance ds) in *.
  assert (forall p, p ∈ ss -> p.1 = distance_to x p.2) as Hd.
  { intros p. rewrite HP. unfold ds. intros (e&->&_)%list_elem_of_fmap. done. }
  intros (p&->&Hin)%list_elem_of_fmap Hr'.
  assert ((distance_to x r', r') ∈ ss) as Hr''
    by (rewrite HP; unfold ds; apply list_elem_of_fmap; by exists r').
  pose proof (take_while_all _ _ _ Hin) as Hle. pose proof (take_while_in _ _ _ Hin) as Hin'.
  rewrite <- (Hd p Hin'). destruct ss as [|h ss]; [set_solver|]. simpl in Hle. apply Z.leb_le in Hle.
  apply StronglySorted_cons in Hs as [Hf _]. rewrite Forall_forall in Hf.
  apply elem_of_cons in Hr'' as [<-|Hr'']; [done|]. specialize (Hf _ Hr''). unfold by_distance in Hf.
  simpl in Hf. lia.
Qed.

(** The automatic entry is looked for only next to the exit: with no constraint on the entry's
    location, if every possible exit is itself a possible entry and nearer to itself than every other
    entry, then the selection fails, whatever the random numbers and however many other entries
    there are. *)
Theorem auto_entry_dead_end list l lists m ips p s :
  AnnotatedRelayList_new list = Some l ->
  Forall (fun r => r.1 <= r.2)%Z (port_ranges (wireguard list)) ->
  Forall (fun r => r.1 <= r.2)%Z (shadowsocks_port_ranges (wireguard list)) ->
  u64_weights relay_weight (RelayList_relays list) ->
  partition_multihop l m lists = Some p -> ec_location (general (mh_entry m)) = Any ->
  p_matches (exits p) <> [] ->
  (forall x, x ∈ p_matches (exits p) -> x ∈ p_matches (entries p)
     /\ forall e, e ∈ p_matches (entries p) -> relay_eqb e x = false ->
          (distance_to x x < distance_to x e)%Z) ->
  outcome (select_wireguard_relay l lists {| hops := MultiHop m; q_allowed_ips := ips |}) s
  = Some (Err (NoRelayEntry (mh_entry m))).
Proof.
  intros Hnew Hp Hss Hw Hpm Hloc Hne Hfar. assert (valid_list l) as Hl by (by eapply valid_new).
  destruct (partition_multihop_spec l m lists (proj1 Hl)) as (p'&Hpm'&Hen&Hex&_).
  rewrite Hpm in Hpm'. injection Hpm' as <-.
  unfold select_wireguard_relay. simpl. rewrite Hpm, outcome_bind, outcome_ret.
  unfold select_from_multihop_partitions. rewrite outcome_bind.
  pose proof (pick_spec l (p_matches (exits p)) s Hl ltac:(naive_solver)) as Hx.
  set (s1 := (pick_random_relay (p_matches (exits p)) s).1).
  destruct (outcome (pick_random_relay _) s) as [x|]; [|done].
  rewrite outcome_bind, outcome_ret, Hloc. destruct (Hfar x Hx) as [Hxe Hmin].
  assert (forall r, r ∈ closest_to x (p_matches (entries p)) -> r ∈ all_relays l) as Hall
    by (intros r Hr%closest_in; by apply Hen).
  pose proof (pick_excluding_spec l (closest_to x (p_matches (entries p))) x s1 Hl Hall) as He.
  destruct (outcome (pick_random_relay_excluding _ x) s1) as [e|]; [|done]. exfalso.
  destruct He as [He Hex']. pose proof (closest_minimal _ _ _ x He Hxe).
  specialize (Hmin e (closest_in _ _ _ He) Hex'). lia.
Qed.

(** The partitions shown to the user are exact.  For a single hop every relay of the list is on one
    side, on the side of the matches exactly if it may be used, and with at least one reason otherwise.
    For two hops the two lists of matches hold only usable relays, and removing a conflicting relay
    takes away no usable pair: two different relays are in the two lists exactly if one is a
    possible entry and the other a possible exit. *)
Theorem partition_relays_exact list l lists c m :
  AnnotatedRelayList_new list = Some l ->
  (exists p, partition_relays l lists (PSinglehop c) = Some p
     /\ partitions (RelayList_relays list) (both_ok l lists c) p)
  /\ exists en ex, partition_relays l lists (PEntry m) = Some en
     /\ partition_relays l lists (PExit m) = Some ex
     /\ forall e x, relay_eqb e x = false ->
          e ∈ p_matches en /\ x ∈ p_matches ex
          <-> e ∈ RelayList_relays list /\ x ∈ RelayList_relays list
              /\ both_ok l lists (mh_entry m) e /\ exit_ok lists (mh_exit m) x.
Proof.
  intros Hnew. destruct (annotated_new list l Hnew) as [Hi Ha].
  assert (RelayList_relays list = all_relays l) as -> by (unfold all_relays; by rewrite Hi). split.
  - apply partition_entry_spec. exact Ha.
  - destruct (partition_multihop_spec l m lists Ha) as (p&Hp&Hen&Hex&Hpair).
    exists (entries p), (exits p). simpl. rewrite Hp. split_and!; [done..|]. intros e x Hne. split.
    + intros [He%Hen Hx%Hex]. naive_solver.
    + intros (?&?&?&?). by apply Hpair.
Qed.
End selecting.
