(* ===== verification/RelayExamples.v ===== *)
(** * The relay selector at work

    A random number generator, a small relay list, and the theorems about the selector applied to
    it. *)

From stdpp Require Import base list gmap strings option numbers sets sorting.
From S2P Require Import Prelude NetTypes RelayTypes RelayTypesProps RelaySelector RelayProps.

(** A counter for a generator. *)
#[export] Instance rng_reference : Rng nat := {
  choose_index n s := (S s, s mod n);
  random_range a b s := (S s, a + Z.of_nat s mod (b - a + 1))%Z;
}.

#[export] Instance rng_reference_laws : RngLaws nat rng_reference.
Proof.
  split; simpl.
  - intros n s Hn. apply Nat.mod_upper_bound. lia.
  - intros a b s Hab. pose proof (Z.mod_pos_bound (Z.of_nat s) (b - a + 1) ltac:(lia)). lia.
Qed.

(** Places on a line. *)
#[export] Instance geography_reference : Geography := fun a b => Z.abs (latitude a - latitude b).

Definition ex_location (country city : string) (at_ : Z) : Location :=
  {| country_name := country; country_code := country; city_name := city; city_code := city;
     latitude := at_; longitude := 0 |}.

Definition ex_relay (name country city : string) (at_ : Z) : WireguardRelay :=
  {| overridden_ipv4 := false; overridden_ipv6 := false; include_in_country := true; owned := true;
     provider := "provider";
     endpoint_data :=
       {| relay_public_key := name; relay_daita := true;
          relay_quic := Some {| addr_in := [V6 7]; token := "t"; domain := "d" |}; relay_lwo := true;
          shadowsocks_extra_addr_in := [] |};
     inner := {| hostname := name; ipv4_addr_in := at_; ipv6_addr_in := None; active := true;
                 weight := 100; location := ex_location country city at_ |} |}.

(** One relay in each of three cities, two of them in the same country. *)
Definition se_got : WireguardRelay := ex_relay "se-got-wg-001" "se" "got" 10.
Definition se_sto : WireguardRelay := ex_relay "se-sto-wg-001" "se" "sto" 20.
Definition no_osl : WireguardRelay := ex_relay "no-osl-wg-001" "no" "osl" 30.

Definition ex_city (name : string) (at_ : Z) (r : WireguardRelay) : RelayListCity :=
  {| rc_name := name; rc_code := name; rc_latitude := at_; rc_longitude := 0; relays := [r] |}.

Definition ex_list : RelayList :=
  {| countries := [ {| rlc_name := "se"; rlc_code := "se";
                       cities := [ex_city "got" 10 se_got; ex_city "sto" 20 se_sto] |};
                    {| rlc_name := "no"; rlc_code := "no"; cities := [ex_city "osl" 30 no_osl] |} ];
     wireguard := {| port_ranges := [(51820, 51830)%Z]; ed_ipv4_gateway := 1; ed_ipv6_gateway := 2;
                     shadowsocks_port_ranges := [(100, 200)%Z]; udp2tcp_ports := [80; 443]%Z |} |}.

Definition ex_annotated : AnnotatedRelayList :=
  match AnnotatedRelayList_new ex_list with
  | Some l => l
  | None => {| al_inner := ex_list; endpoint_sets := ∅ |}
  end.

Definition in_country (c : string) : ExitConstraints :=
  {| ec_location := Only (InLocation (Country c)); ec_providers := Any; ec_ownership := Any |}.

Definition with_daita : EntrySpecificConstraints :=
  {| obfuscation := Any; daita := Only true; ip_version := Any |}.

(** Enter in Norway and leave in Sweden; enter anywhere and leave in Sweden. *)
Definition ex_multihop : MultihopConstraints :=
  {| mh_entry := {| general := in_country "no"; entry_specific := with_daita |};
     mh_exit := in_country "se" |}.

Definition ex_auto : MultihopConstraints :=
  into_autohop {| general := in_country "se"; entry_specific := with_daita |}.

Definition ex_query (m : MultihopConstraints) : RelayQuery := {| hops := MultiHop m; q_allowed_ips := Any |}.

Lemma ex_new : AnnotatedRelayList_new ex_list = Some ex_annotated.
Proof. reflexivity. Qed.

Lemma ex_ranges : Forall (fun r : port_range => r.1 <= r.2)%Z (port_ranges (wireguard ex_list)).
Proof. by repeat constructor. Qed.

Lemma ex_ss_ranges : Forall (fun r : port_range => r.1 <= r.2)%Z (shadowsocks_port_ranges (wireguard ex_list)).
Proof. by repeat constructor. Qed.

Lemma ex_weights : u64_weights relay_weight (RelayList_relays ex_list).
Proof. by repeat constructor. Qed.


Lemma multihop_found_exactly_witness :
  exists c, outcome (select_wireguard_relay ex_annotated [] (ex_query ex_multihop)) 5 = Some (Ok c).
Proof.
  apply (multihop_found_exactly ex_list ex_annotated [] ex_multihop Any (InLocation (Country "no")) 5
    ex_new ex_ranges ex_ss_ranges ex_weights).
  - apply (bool_decide_unpack _). vm_compute. exact I.
  - reflexivity.
  - exists no_osl, se_got.
    assert (forall r, r ∈ RelayList_relays ex_list -> r ∈ all_relays ex_annotated) as Hin by done.
    split; [apply Hin; vm_compute; set_solver|]. split; [apply Hin; vm_compute; set_solver|].
    split; [reflexivity|]. split.
    + split; [split; [done|]; eexists; split; vm_compute; reflexivity|]. apply exit_accept. reflexivity.
    + apply exit_accept. reflexivity.
Defined.

(** Every exit in Sweden is alone in its city: no entry is ever found, although one in Norway and an exit in
    Sweden would do. *)
Definition ex_auto_partitions : MultiHopPartitions :=
  match partition_multihop ex_annotated ex_auto [] with
  | Some p => p
  | None => {| entries := {| p_matches := []; p_discards := [] |};
               exits := {| p_matches := []; p_discards := [] |} |}
  end.

Lemma ex_auto_matches :
  p_matches (exits ex_auto_partitions) = [se_got; se_sto]
  /\ p_matches (entries ex_auto_partitions) = [se_got; se_sto; no_osl].
Proof. by split; vm_compute. Qed.

Lemma auto_entry_dead_end_witness :
  (no_osl ∈ p_matches (entries ex_auto_partitions) /\ se_got ∈ p_matches (exits ex_auto_partitions))
  /\ forall s, outcome (select_wireguard_relay ex_annotated [] (ex_query ex_auto)) s
               = Some (Err (NoRelayEntry (mh_entry ex_auto))).
Proof.
  destruct ex_auto_matches as [Ex En]. split; [rewrite Ex, En; set_solver|]. intros s.
  apply (auto_entry_dead_end ex_list ex_annotated [] ex_auto Any ex_auto_partitions s
    ex_new ex_ranges ex_ss_ranges ex_weights); [reflexivity | reflexivity | by rewrite Ex |].
  rewrite Ex, En. intros x Hx. split; [set_solver|]. intros e He.
  repeat (apply elem_of_cons in Hx as [->|Hx]); [..|set_solver];
    repeat (apply elem_of_cons in He as [->|He]); try (by vm_compute); set_solver.
Defined.

Lemma partition_relays_exact_witness :
  (exists p, partition_relays ex_annotated [] (PSinglehop (mh_entry ex_multihop)) = Some p
     /\ partitions (RelayList_relays ex_list) (both_ok ex_annotated [] (mh_entry ex_multihop)) p)
  /\ exists en ex, partition_relays ex_annotated [] (PEntry ex_multihop) = Some en
     /\ partition_relays ex_annotated [] (PExit ex_multihop) = Some ex
     /\ forall e x, relay_eqb e x = false ->
          e ∈ p_matches en /\ x ∈ p_matches ex
          <-> e ∈ RelayList_relays ex_list /\ x ∈ RelayList_relays ex_list
              /\ both_ok ex_annotated [] (mh_entry ex_multihop) e
              /\ exit_ok [] (mh_exit ex_multihop) x.
Proof. apply (partition_relays_exact ex_list ex_annotated [] (mh_entry ex_multihop) ex_multihop ex_new). Defined.

Lemma pick_weighted_spec_witness :
  (pick_random_relay_weighted (fun x : Z => x) [0; 3; 2]%Z 4).2 = Some 2%Z
  /\ match (pick_random_relay_weighted (fun x : Z => x) [0; 3; 2]%Z 4).2 with
     | None => [0; 3; 2]%Z = []
     | Some a =>
         a ∈ [0; 3; 2]%Z
         /\ (total_weight (fun x : Z => x) [0; 3; 2]%Z = 0%Z
             \/ exists i k, (1 <= i <= total_weight (fun x : Z => x) [0; 3; 2]%Z)%Z
                  /\ [0; 3; 2]%Z !! k = Some a
                  /\ (weight_sum (fun x : Z => x) (take k [0; 3; 2]%Z) < i
                      <= weight_sum (fun x : Z => x) (take k [0; 3; 2]%Z) + a)%Z)
     end.
Proof.
  split; [reflexivity|]. apply (pick_weighted_spec (fun x : Z => x) [0; 3; 2]%Z 4).
  by repeat constructor.
Defined.

(** The relays of the list have an IPv6 address for QUIC only: the filter accepts QUIC over IPv6, and no
    endpoint can be chosen. *)
Definition quic_over_ipv6 : EntrySpecificConstraints :=
  {| obfuscation := Only ModeQuic; daita := Any; ip_version := Only IpVersion_V6 |}.

Definition ex_endpoints : RelayEndpointSet :=
  match RelayEndpointSet_new se_got (wireguard ex_list) with
  | Some es => es
  | None => {| es_wireguard := {| we_ipv4 := 0; we_ipv6 := None; we_port_ranges := [] |};
               es_shadowsocks := None; es_udp2tcp_ports := None; es_quic := None; es_lwo := false |}
  end.

