(* ===== verification/Version.v ===== *)
(** * Versions of the application

    [src/mullvad-version/src/lib.rs]: parsing, printing and comparing versions.

    A string is the list of its bytes.  [from_str] matches the text against [VERSION_REGEX] with the
    [regex_lite] crate: the class [VersionRegex] is its [captures], which by its documentation finds
    the leftmost match and the groups of it.  [version_match] is the pattern. *)

From stdpp Require Import base list strings option numbers pretty.
From Stdlib Require Import Ascii.
From S2P Require Import Prelude.

Definition text : Type := list ascii.
Definition str (s : string) : text := String.list_ascii_of_string s.
Arguments str s%_string.

(** ** Numbers *)
(** [Display] for [u32]. *)
Definition display_u32 (n : Z) : text := str (pretty n).

Definition digit_value (c : ascii) : Z := Z.of_N (N_of_ascii c) - 48.
Definition is_digit (c : ascii) : bool := (0 <=? digit_value c)%Z && (digit_value c <=? 9)%Z.
Definition is_nonzero_digit (c : ascii) : bool := (1 <=? digit_value c)%Z && (digit_value c <=? 9)%Z.
(** [[0-9a-f]] *)
Definition is_hex (c : ascii) : bool :=
  is_digit c || ((97 <=? Z.of_N (N_of_ascii c))%Z && (Z.of_N (N_of_ascii c) <=? 102)%Z).

Definition dec_value (s : text) : Z := foldl (fun acc c => acc * 10 + digit_value c)%Z 0%Z s.

(** [str::parse::<u32>]: an optional plus sign, then at least one digit, in range. *)
Definition parse_u32 (s : text) : option Z :=
  let ds := match s with "+"%char :: s => s | _ => s end in
  match ds with
  | [] => None
  | _ =>
      if forallb is_digit ds && (dec_value ds <? 2 ^ 32)%Z then Some (dec_value ds) else None
  end.

(** ** Versions *)
Inductive PreStableType : Type :=
| Alpha (version : Z)
| Beta (version : Z).

Record Version : Type := {
  year : Z;
  incremental : Z;
  pre_stable : option PreStableType;
  dev : option text;
}.

#[global] Instance PreStableType_eq_dec : EqDecision PreStableType.
Proof. solve_decision. Defined.
#[global] Instance Version_eq_dec : EqDecision Version.
Proof. solve_decision. Defined.

Definition is_dev (v : Version) : bool := bool_decide (is_Some (dev v)).
Definition is_stable (v : Version) : bool := bool_decide (pre_stable v = None) && negb (is_dev v).
Definition is_beta (v : Version) : bool :=
  match pre_stable v with Some (Beta _) => true | _ => false end.

(** ** Order *)
Definition PreStableType_cmp (a b : PreStableType) : comparison :=
  match a, b with
  | Alpha a, Alpha b => (a ?= b)%Z
  | Beta a, Beta b => (a ?= b)%Z
  | Alpha _, Beta _ => Lt
  | Beta _, Alpha _ => Gt
  end.

(** [Ordering::then]. *)
Definition then_ (a b : comparison) : comparison := match a with Eq => b | _ => a end.

Definition partial_cmp (a b : Version) : option comparison :=
  let type_ordering :=
    match pre_stable a, pre_stable b with
    | None, None => Eq
    | Some _, None => Lt
    | None, Some _ => Gt
    | Some a, Some b => PreStableType_cmp a b
    end in
  let dev_ordering :=
    match dev a, dev b with
    | Some _, None => Some Gt
    | None, Some _ => Some Lt
    | Some a, Some b => if decide (a <> b) then None else Some Eq
    | None, None => Some Eq
    end in
  let release_ordering :=
    then_ (then_ (year a ?= year b)%Z (incremental a ?= incremental b)%Z) type_ordering in
  match release_ordering with Eq => dev_ordering | o => Some o end.

(** The operators [>] and [<]. *)
Definition version_gt (a b : Version) : bool := bool_decide (partial_cmp a b = Some Gt).
Definition version_lt (a b : Version) : Prop := partial_cmp a b = Some Lt.

(** ** Printing *)
Definition display_pre_stable (p : option PreStableType) : text :=
  match p with
  | Some (Alpha n) => str "-alpha" ++ display_u32 n
  | Some (Beta n) => str "-beta" ++ display_u32 n
  | None => []
  end.

Definition display_dev (d : option text) : text :=
  match d with Some commit_hash => str "-dev-" ++ commit_hash | None => [] end.

Definition to_string (v : Version) : text :=
  display_u32 (year v) ++ str "." ++ display_u32 (incremental v)
  ++ display_pre_stable (pre_stable v) ++ display_dev (dev v).

(** ** Parsing *)
(** The named groups of [VERSION_REGEX]. *)
Record Captures : Type := {
  cap_year : text;
  cap_incremental : text;
  cap_alpha : option text;
  cap_beta : option text;
  cap_dev : option text;
}.

(** [[1-9]\d?] and [[1-9]\d?\d?]: a digit that is not zero and at most [more] further ones. *)
Definition number (more : nat) (s : text) : Prop :=
  match s with
  | c :: ds => is_nonzero_digit c = true /\ forallb is_digit ds = true /\ length ds <= more
  | [] => False
  end.

Inductive pre_match : option text -> option text -> text -> Prop :=
| pre_none : pre_match None None []
| pre_alpha n : number 2 n -> pre_match (Some n) None (str "-alpha" ++ n)
| pre_beta n : number 2 n -> pre_match None (Some n) (str "-beta" ++ n).

Inductive dev_match : option text -> text -> Prop :=
| dev_none : dev_match None []
| dev_some h : h <> [] -> forallb is_hex h = true -> dev_match (Some h) (str "-dev-" ++ h).

(** The text that [VERSION_REGEX] matches, and its groups.  The pattern ends with [$] and does not start
    with [^]. *)
Inductive version_match : Captures -> text -> Prop :=
| version_matched y i a b d p dv :
    length y = 4 -> forallb is_digit y = true -> number 1 i -> pre_match a b p -> dev_match d dv ->
    version_match {| cap_year := y; cap_incremental := i; cap_alpha := a; cap_beta := b; cap_dev := d |}
                  (y ++ str "." ++ i ++ p ++ dv).

(** [VERSION_REGEX.captures]. *)
Class VersionRegex : Type := captures : text -> option Captures.

Class VersionRegexLaws (R : VersionRegex) : Prop := {
  captures_leftmost s c :
    captures s = Some c ->
    exists before m, s = before ++ m /\ version_match c m
      /\ forall before' m' c', s = before' ++ m' -> version_match c' m' -> length before <= length before';
  captures_found before m c : version_match c m -> is_Some (captures (before ++ m));
}.

Section parsing.
Context `{VersionRegex}.

(** [None] where a call of [unwrap] panics. *)
Definition from_str (version : text) : option (result Version text) :=
  match captures version with
  | None => Some (Err (str "Version does not match expected format: " ++ version))
  | Some c =>
      year ← parse_u32 (cap_year c);
      incremental ← parse_u32 (cap_incremental c);
      alpha ← match cap_alpha c with Some a => Some <$> parse_u32 a | None => Some None end;
      beta ← match cap_beta c with Some b => Some <$> parse_u32 b | None => Some None end;
      let ok pre := Ok {| year := year; incremental := incremental; pre_stable := pre; dev := cap_dev c |} in
      Some match alpha, beta with
           | None, None => ok None
           | Some v, None => ok (Some (Alpha v))
           | None, Some v => ok (Some (Beta v))
           | Some _, Some _ => Err (str "Invalid version: " ++ version)
           end
  end.
End parsing.
