(* ===== verification/VersionProps.v ===== *)
(** * What is proved about versions

    [from_str] accepts exactly the texts that end with a version, and reads that version; printing is
    the inverse of parsing; comparison is a partial order in which only development builds of one
    release are incomparable. *)

From stdpp Require Import base list strings option numbers pretty sets.
From Stdlib Require Import Ascii.
From S2P Require Import Prelude Version.

(** ** Decimal numbers *)
Definition digits (s : text) : Prop := forallb is_digit s = true.

Lemma digits_cons c s : digits (c :: s) <-> is_digit c = true /\ digits s.
Proof. unfold digits. simpl. by rewrite andb_true_iff. Qed.

Lemma is_digit_value c : is_digit c = true <-> (0 <= digit_value c <= 9)%Z.
Proof. unfold is_digit. rewrite andb_true_iff, !Z.leb_le. lia. Qed.

Lemma is_nonzero_digit_value c : is_nonzero_digit c = true <-> (1 <= digit_value c <= 9)%Z.
Proof. unfold is_nonzero_digit. rewrite andb_true_iff, !Z.leb_le. lia. Qed.

Lemma digit_value_inj c d : digit_value c = digit_value d -> c = d.
Proof.
  unfold digit_value. intros E. rewrite <- (ascii_N_embedding c), <- (ascii_N_embedding d). f_equal. lia.
Qed.

Lemma dec_value_cons c s : dec_value (c :: s) = (digit_value c * 10 ^ Z.of_nat (length s) + dec_value s)%Z.
Proof.
  unfold dec_value. simpl. generalize (digit_value c). clear c.
  assert (forall acc, foldl (fun a c => a * 10 + digit_value c)%Z acc s
                      = (acc * 10 ^ Z.of_nat (length s) + foldl (fun a c => a * 10 + digit_value c) 0 s)%Z)
    as H.
  { induction s as [|d s IH]; intros acc; cbn [foldl length]; [lia|].
    rewrite IH, (IH (0 * 10 + digit_value d)%Z), Nat2Z.inj_succ, Z.pow_succ_r by lia. lia. }
  intros z. apply H.
Qed.

Lemma dec_value_range s : digits s -> (0 <= dec_value s < 10 ^ Z.of_nat (length s))%Z.
Proof.
  induction s as [|c s IH]; [by unfold dec_value; simpl|]. rewrite digits_cons, is_digit_value.
  intros [Hc Hs]. specialize (IH Hs). rewrite dec_value_cons. cbn [length].
  rewrite Nat2Z.inj_succ, Z.pow_succ_r by lia. nia.
Qed.

Lemma dec_value_inj s s' :
  digits s -> digits s' -> length s = length s' -> dec_value s = dec_value s' -> s = s'.
Proof.
  revert s'. induction s as [|c s IH]; intros [|c' s']; try done.
  rewrite !digits_cons, !is_digit_value, !dec_value_cons. intros [Hc Hs] [Hc' Hs'] [= Hl] E.
  pose proof (dec_value_range s Hs). pose proof (dec_value_range s' Hs'). rewrite <- Hl in *.
  assert (digit_value c = digit_value c') as Hd by nia. rewrite Hd in E.
  f_equal; [by apply digit_value_inj | apply IH; [done..|lia]].
Qed.

Lemma number_digits k s : number k s -> digits s /\ 1 <= length s <= S k.
Proof.
  destruct s as [|c s]; [done|]. intros (Hc&Hs&Hl). split; [|simpl; lia]. apply digits_cons. split; [|done].
  apply is_nonzero_digit_value in Hc. apply is_digit_value. lia.
Qed.

Lemma number_lower k s : number k s -> (10 ^ (Z.of_nat (length s) - 1) <= dec_value s)%Z.
Proof.
  destruct s as [|c s]; [done|]. intros (Hc%is_nonzero_digit_value&Hs&_). rewrite dec_value_cons.
  pose proof (dec_value_range s Hs). cbn [length].
  replace (Z.of_nat (S (length s)) - 1)%Z with (Z.of_nat (length s)) by lia. nia.
Qed.

(** Numbers without a leading zero are determined by their value. *)
Lemma number_inj k k' s s' : number k s -> number k' s' -> dec_value s = dec_value s' -> s = s'.
Proof.
  intros H H' E. pose proof (number_lower k s H). pose proof (number_lower k' s' H').
  destruct (number_digits k s H) as [D L], (number_digits k' s' H') as [D' L'].
  pose proof (dec_value_range s D). pose proof (dec_value_range s' D').
  apply dec_value_inj; [done..| |done].
  destruct (lt_eq_lt_dec (length s) (length s')) as [[Hlt|]|Hlt]; [exfalso|done|exfalso];
    [assert (10 ^ Z.of_nat (length s) <= 10 ^ (Z.of_nat (length s') - 1))%Z
    |assert (10 ^ Z.of_nat (length s') <= 10 ^ (Z.of_nat (length s) - 1))%Z];
    solve [apply Z.pow_le_mono_r; lia | lia].
Qed.

Lemma number_bounds k s : number k s -> (1 <= dec_value s < 10 ^ Z.of_nat (S k))%Z.
Proof.
  intros H. destruct (number_digits k s H) as [D L]. pose proof (number_lower k s H).
  pose proof (dec_value_range s D).
  assert (10 ^ 0 <= 10 ^ (Z.of_nat (length s) - 1))%Z by (apply Z.pow_le_mono_r; lia).
  assert (10 ^ Z.of_nat (length s) <= 10 ^ Z.of_nat (S k))%Z by (apply Z.pow_le_mono_r; lia). lia.
Qed.

Lemma parse_u32_digits s :
  digits s -> s <> [] -> (dec_value s < 2 ^ 32)%Z -> parse_u32 s = Some (dec_value s).
Proof.
  intros D Hne Hlt. unfold parse_u32.
  assert (match s with "+"%char :: s0 => s0 | _ => s end = s) as ->.
  { destruct s as [|c s]; [done|]. apply digits_cons in D as [Hc%is_digit_value _].
    destruct (decide (c = "+"%char)) as [->|]; [exfalso; vm_compute in Hc; by destruct Hc|].
    by destruct c as [[] [] [] [] [] [] [] []]. }
  destruct s; [done|]. unfold digits in D. rewrite D. simpl.
  by rewrite (proj2 (Z.ltb_lt _ _) Hlt).
Qed.

Lemma parse_u32_number k s : number k s -> k <= 8 -> parse_u32 s = Some (dec_value s).
Proof.
  intros H Hk. pose proof (number_bounds k s H). destruct (number_digits k s H) as [D L].
  apply parse_u32_digits; [done | by destruct s |].
  assert (10 ^ Z.of_nat (S k) <= 10 ^ 9)%Z by (apply Z.pow_le_mono_r; lia). lia.
Qed.

(** ** Printed numbers *)
Lemma pretty_char_value d : (d < 10)%N -> digit_value (pretty_N_char d) = Z.of_N d.
Proof.
  intros Hd. assert (exists n, (n < 10)%nat /\ d = N.of_nat n) as (n&Hn&->) by (exists (N.to_nat d); lia).
  do 10 (destruct n as [|n]; [done|]). lia.
Qed.

Lemma dec_value_snoc s c : dec_value (s ++ [c]) = (dec_value s * 10 + digit_value c)%Z.
Proof. unfold dec_value. by rewrite foldl_app. Qed.

Lemma digits_snoc s c : digits s -> is_digit c = true -> digits (s ++ [c]).
Proof. unfold digits. intros Hs Hc. by rewrite forallb_app, Hs; simpl; rewrite Hc. Qed.

Definition leading (s : text) : Prop :=
  match s with c :: _ => is_nonzero_digit c = true | [] => False end.

Lemma pretty_go_spec (x : N) : forall s,
  exists ds, str (pretty_N_go x s) = ds ++ str s /\ digits ds /\ dec_value ds = Z.of_N x
    /\ ((0 < x)%N -> leading ds).
Proof.
  induction (N.lt_wf_0 x) as [x _ IH]. intros s.
  assert (x = 0 \/ 0 < x)%N as [->|Hx] by lia; [exists []; rewrite pretty_N_go_0; by split_and!|].
  rewrite pretty_N_go_step by done. set (c := pretty_N_char (x `mod` 10)).
  assert (digit_value c = Z.of_N (x `mod` 10)) as Hc by (apply pretty_char_value, N.mod_lt; done).
  pose proof (N.mod_lt x 10 ltac:(done)) as Hr. pose proof (N.div_mod x 10 ltac:(done)) as Hdm.
  pose proof (N.div_lt x 10 Hx eq_refl) as Hq. clearbody c.
  generalize dependent (x `mod` 10)%N. generalize dependent (x `div` 10)%N. intros q Hq r Hc Hr Hdm.
  assert (is_digit c = true) as Hd by (apply is_digit_value; rewrite Hc; lia).
  destruct (IH q Hq (String c s)) as (ds&E&D&V&L).
  exists (ds ++ [c]). split_and!.
  - rewrite E. unfold str. simpl. by rewrite <- app_assoc.
  - by apply digits_snoc.
  - rewrite dec_value_snoc, V, Hc. lia.
  - intros _. assert (q = 0 \/ 0 < q)%N as [->|Hp] by lia.
    + destruct ds as [|d ds].
      * simpl. apply is_nonzero_digit_value. lia.
      * exfalso. rewrite dec_value_cons in V. apply digits_cons in D as [Hd' D].
        pose proof (dec_value_range ds D). apply is_digit_value in Hd'.
        unfold str in E. rewrite pretty_N_go_0 in E. apply (f_equal length) in E.
        rewrite length_app in E. simpl in E. lia.
    + specialize (L Hp). by destruct ds.
Qed.

Lemma display_spec n :
  (0 < n)%Z -> digits (display_u32 n) /\ dec_value (display_u32 n) = n /\ leading (display_u32 n).
Proof.
  intros Hn. destruct n as [|p|p]; try lia.
  destruct (pretty_go_spec (N.pos p) "") as (ds&E&D&V&L).
  change (display_u32 (Z.pos p)) with (str (pretty_N_go (N.pos p) "")).
  rewrite E. simpl. rewrite app_nil_r. split_and!; [done..|]. by apply L.
Qed.

(** A printed number has the digits its size needs. *)
Lemma display_number k n :
  (1 <= n < 10 ^ Z.of_nat (S k))%Z -> number k (display_u32 n) /\ dec_value (display_u32 n) = n.
Proof.
  intros Hn. destruct (display_spec n ltac:(lia)) as (D&V&L). split; [|done].
  destruct (display_u32 n) as [|c ds] eqn:E; [done|]. apply digits_cons in D as [_ D].
  split_and!; [done..|]. pose proof (number_lower (length ds) (c :: ds) ltac:(by split_and!)) as Hl.
  rewrite V in Hl. cbn [length] in Hl. destruct (decide (length ds <= k)) as [|Hgt]; [done|].
  assert (10 ^ Z.of_nat (S k) <= 10 ^ (Z.of_nat (S (length ds)) - 1))%Z
    by (apply Z.pow_le_mono_r; lia). lia.
Qed.

(** The year with four digits. *)
Definition four_digits (n : Z) : text :=
  let s := display_u32 n in replicate (4 - length s) "0"%char ++ s.

Lemma zeros_value k s : dec_value (replicate k "0"%char ++ s) = dec_value s.
Proof. induction k as [|k IH]; [done|]. simpl. rewrite dec_value_cons, IH. by vm_compute digit_value. Qed.

Lemma zeros_digits k s : digits s -> digits (replicate k "0"%char ++ s).
Proof. induction k as [|k IH]; [done|]. intros Hs. simpl. apply digits_cons. split; [done | by apply IH]. Qed.

Lemma four_digits_spec n :
  (0 <= n <= 9999)%Z ->
  length (four_digits n) = 4 /\ digits (four_digits n) /\ dec_value (four_digits n) = n
  /\ ((1000 <= n)%Z -> four_digits n = display_u32 n).
Proof.
  intros Hn. unfold four_digits. destruct (decide (n = 0%Z)) as [->|Hne]; [by vm_compute; split_and!|].
  destruct (display_number 3 n ltac:(lia)) as [H V]. destruct (number_digits _ _ H) as [D L].
  rewrite length_app, length_replicate. split_and!; [lia| | |].
  - by apply zeros_digits.
  - by rewrite zeros_value.
  - intros Hge. pose proof (dec_value_range _ D) as Hr. rewrite V in Hr.
    destruct (decide (length (display_u32 n) = 4)) as [->|Hl4]; [done|].
    assert (10 ^ Z.of_nat (length (display_u32 n)) <= 10 ^ 3)%Z by (apply Z.pow_le_mono_r; lia). lia.
Qed.

(** ** The pattern *)
(** [s] does not start with a digit. *)
Definition stops (s : text) : Prop := match s with c :: _ => is_digit c = false | [] => True end.

Lemma digits_split i i' r r' :
  digits i -> digits i' -> stops r -> stops r' -> i ++ r = i' ++ r' -> i = i' /\ r = r'.
Proof.
  revert i'. induction i as [|c i IH]; intros [|c' i']; rewrite ?digits_cons; simpl.
  - done.
  - intros _ [Hc _] Hs _ ->. simpl in Hs. congruence.
  - intros [Hc _] _ _ Hs <-. simpl in Hs. congruence.
  - intros [_ Hi] [_ Hi'] Hs Hs' [= -> E]. by destruct (IH i' Hi Hi' Hs Hs' E) as [-> ->].
Qed.

Lemma dev_stops d dv : dev_match d dv -> stops dv.
Proof. by intros []. Qed.

Lemma pre_stops a b p d dv : pre_match a b p -> dev_match d dv -> stops (p ++ dv).
Proof. intros [] Hd; [by eapply dev_stops | done..]. Qed.

Lemma dev_match_inj d d' dv : dev_match d dv -> dev_match d' dv -> d = d'.
Proof. intros [] Hm; inversion Hm; simplify_list_eq; done. Qed.

Lemma pre_match_inj a b p d dv a' b' p' d' dv' :
  pre_match a b p -> dev_match d dv -> pre_match a' b' p' -> dev_match d' dv' ->
  p ++ dv = p' ++ dv' -> a = a' /\ b = b' /\ d = d'.
Proof.
  intros Hp Hd Hp' Hd'. pose proof (dev_stops _ _ Hd). pose proof (dev_stops _ _ Hd').
  destruct Hp as [|n Hn|n Hn], Hp' as [|n' Hn'|n' Hn']; cbn [app]; intros E;
    try (by destruct Hd; simplify_eq/=); try (by destruct Hd'; simplify_eq/=); try by simplify_eq/=.
  - subst. by rewrite (dev_match_inj d d' dv').
  - rewrite <- !app_assoc in E. apply app_inv_head in E.
    destruct (number_digits 2 n Hn), (number_digits 2 n' Hn').
    destruct (digits_split n n' dv dv') as [-> ->]; [done..|]. by rewrite (dev_match_inj d d' dv').
  - rewrite <- !app_assoc in E. apply app_inv_head in E.
    destruct (number_digits 2 n Hn), (number_digits 2 n' Hn').
    destruct (digits_split n n' dv dv') as [-> ->]; [done..|]. by rewrite (dev_match_inj d d' dv').
Qed.

Lemma version_match_inj c c' m : version_match c m -> version_match c' m -> c = c'.
Proof.
  intros [y i a b d p dv Hy _ Hi Hp Hd] H. inversion H as [y' i' a' b' d' p' dv' Hy' _ Hi' Hp' Hd' Hc E].
  subst c'. apply app_inj_1 in E as [-> E]; [|by rewrite Hy, Hy']. injection E as E. symmetry in E.
  destruct (number_digits 1 i Hi), (number_digits 1 i' Hi').
  destruct (digits_split i i' (p ++ dv) (p' ++ dv')) as [-> E']; [done|done|..].
  { by eapply pre_stops. } { by eapply pre_stops. } { done. }
  by destruct (pre_match_inj a b p d dv a' b' p' d' dv' Hp Hd Hp' Hd' E') as (->&->&->).
Qed.

(** Exactly one dot, after the year. *)
Lemma match_shape c m :
  version_match c m -> exists y r, m = y ++ "."%char :: r /\ length y = 4 /\ "."%char ∉ r.
Proof.
  intros [y i a b d p dv Hy _ Hi Hp Hd]. exists y, (i ++ p ++ dv). split_and!; [done..|].
  assert (forall s, digits s -> "."%char ∉ s) as Hnd.
  { intros s Hs Hin. unfold digits in Hs. rewrite forallb_forall in Hs.
    specialize (Hs "."%char). rewrite <- list_elem_of_In in Hs. by specialize (Hs Hin). }
  assert ("."%char ∉ dv) as Hdv.
  { destruct Hd as [|h _ Hh]; [set_solver|]. rewrite elem_of_app. intros [Hin|Hin].
    - unfold str in Hin. simpl in Hin. set_solver.
    - rewrite forallb_forall in Hh. specialize (Hh "."%char). rewrite <- list_elem_of_In in Hh.
      by specialize (Hh Hin). }
  rewrite !elem_of_app. intros [Hin|[Hin|Hin]]; [|destruct Hp as [|n Hn|n Hn]; [set_solver|..]|done].
  - destruct (number_digits 1 i Hi) as [D _]. by apply (Hnd i).
  - apply elem_of_app in Hin as [Hin|Hin]; [unfold str in Hin; simpl in Hin; set_solver|].
    destruct (number_digits 2 n Hn) as [D _]. by apply (Hnd n).
  - apply elem_of_app in Hin as [Hin|Hin]; [unfold str in Hin; simpl in Hin; set_solver|].
    destruct (number_digits 2 n Hn) as [D _]. by apply (Hnd n).
Qed.

Lemma match_not_shorter c c' k m : version_match c (k ++ m) -> version_match c' m -> k = [].
Proof.
  intros (y&r&E&Hy&Hr)%match_shape (y'&r'&->&Hy'&_)%match_shape.
  destruct (decide (length k = 0)) as [Hk|Hk]; [by apply length_zero_iff_nil|]. exfalso.
  apply Hr. assert (r = drop 5 (y ++ "."%char :: r)) as ->.
  { by rewrite cons_middle, app_assoc, drop_app_length' by (rewrite length_app; simpl; lia). }
  rewrite <- E. apply list_elem_of_lookup. exists (length k + 4 - 5). rewrite lookup_drop.
  rewrite lookup_app_r by lia. replace (5 + (length k + 4 - 5) - length k) with (length y') by lia.
  by rewrite lookup_app_r, Nat.sub_diag.
Qed.

Lemma match_unique c c' before before' m m' :
  before ++ m = before' ++ m' -> version_match c m -> version_match c' m' ->
  before = before' /\ m = m' /\ c = c'.
Proof.
  intros E H H'. apply app_eq_inv in E as [(k&->&->)|(k&->&->)].
  - pose proof (match_not_shorter _ _ _ _ H' H) as ->. rewrite app_nil_r. split_and!; [done..|].
    by eapply version_match_inj.
  - pose proof (match_not_shorter _ _ _ _ H H') as ->. rewrite app_nil_r. split_and!; [done..|].
    by eapply version_match_inj.
Qed.

(** ** Parsing and printing *)
(** What [from_str] can read. *)
Definition version_ok (v : Version) : Prop :=
  (0 <= year v <= 9999)%Z /\ (1 <= incremental v <= 99)%Z
  /\ match pre_stable v with Some (Alpha n | Beta n) => (1 <= n <= 999)%Z | None => True end
  /\ match dev v with Some h => h <> [] /\ forallb is_hex h = true | None => True end.

(** The text of a version with its year in four digits. *)
Definition canonical (v : Version) : text :=
  four_digits (year v) ++ str "." ++ display_u32 (incremental v)
  ++ display_pre_stable (pre_stable v) ++ display_dev (dev v).

Lemma canonical_to_string v : version_ok v -> (1000 <= year v)%Z -> canonical v = to_string v.
Proof.
  intros (Hy&_) Hge. destruct (four_digits_spec (year v) Hy) as (_&_&_&E).
  unfold canonical, to_string. by rewrite (E Hge).
Qed.

Definition captures_of (v : Version) : Captures :=
  {| cap_year := four_digits (year v); cap_incremental := display_u32 (incremental v);
     cap_alpha := match pre_stable v with Some (Alpha n) => Some (display_u32 n) | _ => None end;
     cap_beta := match pre_stable v with Some (Beta n) => Some (display_u32 n) | _ => None end;
     cap_dev := dev v |}.

Lemma canonical_matches v : version_ok v -> version_match (captures_of v) (canonical v).
Proof.
  intros (Hy&Hi&Hp&Hd). destruct (four_digits_spec (year v) Hy) as (Hl&Hdig&_).
  constructor; [done|done| | |].
  - apply (display_number 1). simpl. lia.
  - destruct (pre_stable v) as [[n|n]|]; constructor; apply (display_number 2); simpl; lia.
  - destruct (dev v) as [h|]; constructor; naive_solver.
Qed.

(** The captures of a match are those of one version. *)
Lemma match_captures c m :
  version_match c m -> exists v, version_ok v /\ c = captures_of v /\ m = canonical v.
Proof.
  intros [y i a b d p dv Hy Hdig Hi Hp Hd].
  assert (forall k n, number k n -> k <= 2 -> (1 <= dec_value n < 10 ^ Z.of_nat (S k))%Z
                      /\ display_u32 (dec_value n) = n) as Hn.
  { intros k n H Hk. pose proof (number_bounds k n H) as Hb. split; [done|].
    destruct (display_number k (dec_value n) Hb) as [H' V]. by eapply number_inj. }
  assert (0 <= dec_value y <= 9999)%Z as Hyr
    by (pose proof (dec_value_range y Hdig) as Hr; rewrite Hy in Hr; simpl in Hr; lia).
  destruct (four_digits_spec (dec_value y) Hyr) as (Hl4&Hd4&Hv4&_).
  assert (four_digits (dec_value y) = y) as Ey by (apply dec_value_inj; [done..|by rewrite Hy|done]).
  destruct (Hn 1 i Hi ltac:(lia)) as [Hib Ei]. simpl in Hib.
  set (pre := match a, b with Some n, _ => Some (Alpha (dec_value n)) | None, Some n => Some (Beta (dec_value n))
                         | None, None => None end).
  exists {| year := dec_value y; incremental := dec_value i; pre_stable := pre; dev := d |}.
  unfold version_ok, captures_of, canonical. simpl. rewrite Ey, Ei.
  assert (match d with Some h => h <> [] /\ forallb is_hex h = true | None => True end /\ display_dev d = dv)
    as [Hdok ->] by (by destruct Hd).
  destruct Hp as [|n Hnum|n Hnum]; subst pre; simpl.
  - split_and!; try done; lia.
  - destruct (Hn 2 n Hnum ltac:(lia)) as [Hnb ->]. simpl in Hnb. split_and!; try done; lia.
  - destruct (Hn 2 n Hnum ltac:(lia)) as [Hnb ->]. simpl in Hnb. split_and!; try done; lia.
Qed.

Section from_str.
Context `{HR : VersionRegex} `{HL : !VersionRegexLaws HR}.

Lemma captures_version before v : version_ok v -> captures (before ++ canonical v) = Some (captures_of v).
Proof.
  intros Hv. pose proof (canonical_matches v Hv) as Hm.
  destruct (captures_found before (canonical v) (captures_of v) Hm) as [c Hc]. rewrite Hc.
  apply captures_leftmost in Hc as (before'&m&E&Hm'&_).
  by destruct (match_unique _ _ _ _ _ _ E Hm Hm') as (_&_&->).
Qed.

Lemma from_captures s v :
  version_ok v -> captures s = Some (captures_of v) -> from_str s = Some (Ok v).
Proof.
  intros (Hy&Hi&Hp&Hd) Hc. unfold from_str. rewrite Hc. 
  cbn [captures_of cap_year cap_incremental cap_alpha cap_beta cap_dev].
  destruct (four_digits_spec (year v) Hy) as (Hl&Hdig&Hval&_).
  assert (parse_u32 (four_digits (year v)) = Some (year v)) as ->.
  { rewrite <- Hval at 2. apply parse_u32_digits; [done|by intros E; rewrite E in Hl|lia]. }
  simpl.
  assert (forall k n, (1 <= n < 10 ^ Z.of_nat (S k))%Z -> k <= 2 -> parse_u32 (display_u32 n) = Some n) as Hn.
  { intros k n Hk Hk2. destruct (display_number k n Hk) as [Hnum V].
    by rewrite (parse_u32_number k), V by (done || lia). }
  rewrite (Hn 1 (incremental v)) by (simpl; lia). simpl.
  destruct v as [y i [[n|n]|] d]; simpl in *; rewrite ?(Hn 2 n) by (simpl; lia); done.
Qed.

(** Versions are read exactly: [from_str] never panics, and it reads the version [v] from a text
    exactly if [v] has a year of at most four digits, an increment of at most two, a pre-release number
    of at most three, and the text ends with [v] printed with a four-digit year, whatever stands
    before.  Printing a version from the year 1000 on is therefore the inverse of reading it. *)
Theorem version_text_exact (s : text) (v : Version) :
  (from_str s = Some (Ok v) <-> version_ok v /\ exists before, s = before ++ canonical v)
  /\ from_str s <> None
  /\ (version_ok v -> (1000 <= year v)%Z -> from_str (to_string v) = Some (Ok v)).
Proof.
  assert (forall before, version_ok v -> from_str (before ++ canonical v) = Some (Ok v)) as Hread.
  { intros before Hv. apply from_captures; [done|]. by apply captures_version. }
  assert (forall c, captures s = Some c ->
            exists v' before, version_ok v' /\ s = before ++ canonical v' /\ from_str s = Some (Ok v')) as Hcap.
  { intros c Hc. pose proof Hc as (before&m&->&Hm&_)%captures_leftmost.
    destruct (match_captures c m Hm) as (v'&Hv'&->&->). exists v', before. split_and!; [done..|].
    by apply from_captures. }
  split_and!.
  - split; [|intros [Hv [before ->]]; by apply Hread]. intros H.
    destruct (captures s) as [c|] eqn:Hc; [|unfold from_str in H; by rewrite Hc in H].
    destruct (Hcap c eq_refl) as (v'&before&Hv'&Hs&Hf). rewrite Hf in H. simplify_eq. by eauto.
  - destruct (captures s) as [c|] eqn:Hc; [|unfold from_str; by rewrite Hc].
    destruct (Hcap c eq_refl) as (v'&before&_&_&->). done.
  - intros Hv Hge. rewrite <- canonical_to_string by done. by apply (Hread []).
Qed.
End from_str.

(** ** Order *)
(** The release of a version, as a list compared from the left: year, increment, and a stable release
    after its betas after its alphas. *)
Definition release_key (v : Version) : list Z :=
  [year v; incremental v;
   match pre_stable v with Some (Alpha _) => 0 | Some (Beta _) => 1 | None => 2 end;
   match pre_stable v with Some (Alpha n | Beta n) => n | None => 0 end]%Z.

Fixpoint lex_cmp (l k : list Z) : comparison :=
  match l, k with
  | a :: l, b :: k => then_ (a ?= b)%Z (lex_cmp l k)
  | [], [] => Eq
  | [], _ => Lt
  | _, [] => Gt
  end.

Lemma lex_cmp_eq l k : lex_cmp l k = Eq <-> l = k.
Proof.
  revert k. induction l as [|a l IH]; intros [|b k]; try done. simpl.
  destruct (Z.compare_spec a b) as [->|Hl|Hl]; simpl; [|split; [done | intros; simplify_eq; lia]..].
  rewrite IH. naive_solver.
Qed.

Lemma lex_cmp_antisym l k : lex_cmp k l = CompOpp (lex_cmp l k).
Proof.
  revert k. induction l as [|a l IH]; intros [|b k]; try done. simpl.
  rewrite (Z.compare_antisym a b), (IH k). by destruct (a ?= b)%Z.
Qed.

Lemma lex_cmp_trans l k m : lex_cmp l k = Lt -> lex_cmp k m = Lt -> lex_cmp l m = Lt.
Proof.
  revert k m. induction l as [|a l IH]; intros [|b k] [|c m]; try done. simpl.
  destruct (Z.compare_spec a b) as [->|Hab|Hab]; simpl; try done.
  - destruct (Z.compare_spec b c); simpl; try done. by apply IH.
  - intros _. destruct (Z.compare_spec b c) as [->|Hbc|Hbc]; simpl; try done; intros _;
      destruct (Z.compare_spec a c); simpl; try done; lia.
Qed.

Lemma partial_cmp_key a b :
  partial_cmp a b =
  match lex_cmp (release_key a) (release_key b) with
  | Eq => match dev a, dev b with
          | Some _, None => Some Gt
          | None, Some _ => Some Lt
          | Some h, Some k => if decide (h <> k) then None else Some Eq
          | None, None => Some Eq
          end
  | o => Some o
  end.
Proof.
  unfold partial_cmp. cbn [release_key lex_cmp].
  destruct (year a ?= year b)%Z, (incremental a ?= incremental b)%Z; simpl; try done.
  destruct (pre_stable a) as [[m|m]|], (pre_stable b) as [[n|n]|]; simpl; try done;
    by destruct (m ?= n)%Z.
Qed.

Lemma release_key_inj a b :
  release_key a = release_key b ->
  year a = year b /\ incremental a = incremental b /\ pre_stable a = pre_stable b.
Proof.
  destruct a as [ya ia pa da], b as [yb ib pb db]. unfold release_key. simpl. intros H. simplify_eq.
  split_and!; [done..|]. by destruct pa as [[]|], pb as [[]|]; simplify_eq/=.
Qed.

Lemma partial_cmp_Eq a b : partial_cmp a b = Some Eq <-> a = b.
Proof.
  rewrite partial_cmp_key. split.
  - destruct (lex_cmp _ _) eqn:E; try done. apply lex_cmp_eq, release_key_inj in E.
    destruct a as [? ? ? da], b as [? ? ? db]. simpl in *. destruct da as [h|], db as [k|]; try done; [|naive_solver].
    case_decide; [done|]. intros _. destruct E as (->&->&->). f_equal.
    destruct (decide (h = k)) as [->|]; done.
  - intros ->. rewrite (proj2 (lex_cmp_eq _ _) eq_refl). destruct (dev b); [|done].
    by rewrite decide_False by naive_solver.
Qed.

Lemma partial_cmp_antisym a b : partial_cmp b a = CompOpp <$> partial_cmp a b.
Proof.
  rewrite !partial_cmp_key, (lex_cmp_antisym (release_key a) (release_key b)).
  destruct (lex_cmp _ _); simpl; try done. destruct (dev a), (dev b); try done.
  by repeat case_decide; naive_solver.
Qed.

Lemma version_lt_trans a b c : version_lt a b -> version_lt b c -> version_lt a c.
Proof.
  unfold version_lt. rewrite !partial_cmp_key.
  destruct (lex_cmp (release_key a) (release_key b)) eqn:E1,
    (lex_cmp (release_key b) (release_key c)) eqn:E2; try done.
  - apply lex_cmp_eq in E1. rewrite E1, E2. destruct (dev a), (dev b), (dev c); try done;
      by repeat case_decide.
  - apply lex_cmp_eq in E1. by rewrite E1, E2.
  - apply lex_cmp_eq in E2. by rewrite <- E2, E1.
  - by rewrite (lex_cmp_trans _ _ _ E1 E2).
Qed.

Lemma partial_cmp_None a b :
  partial_cmp a b = None <->
  year a = year b /\ incremental a = incremental b /\ pre_stable a = pre_stable b
  /\ exists h k, dev a = Some h /\ dev b = Some k /\ h <> k.
Proof.
  rewrite partial_cmp_key. split.
  - destruct (lex_cmp _ _) eqn:E; try done. apply lex_cmp_eq, release_key_inj in E.
    destruct (dev a), (dev b); try done. case_decide; [|done]. naive_solver.
  - intros (Hy&Hi&Hp&h&k&Ha&Hb&Hne). assert (release_key a = release_key b) as ->
      by (unfold release_key; by rewrite Hy, Hi, Hp).
    rewrite (proj2 (lex_cmp_eq _ _) eq_refl), Ha, Hb. by rewrite decide_True.
Qed.

(** Versions are partially ordered: comparing is antisymmetric and transitive, versions compare equal
    exactly if they are the same, and they are incomparable exactly if they are different development
    builds of one release. *)
Theorem version_order (a b c : Version) :
  (partial_cmp a b = Some Eq <-> a = b)
  /\ partial_cmp b a = CompOpp <$> partial_cmp a b
  /\ (version_lt a b -> version_lt b c -> version_lt a c)
  /\ (partial_cmp a b = None <->
      year a = year b /\ incremental a = incremental b /\ pre_stable a = pre_stable b
      /\ exists h k, dev a = Some h /\ dev b = Some k /\ h <> k).
Proof.
  split_and!; [apply partial_cmp_Eq | apply partial_cmp_antisym | apply version_lt_trans
              | apply partial_cmp_None].
Qed.

(** ** A regular expression engine *)
(** The longest prefix of characters in a class, and the rest. *)
Fixpoint span (f : ascii -> bool) (s : text) : text * text :=
  match s with
  | [] => ([], [])
  | c :: s' => if f c then (c :: (span f s').1, (span f s').2) else ([], s)
  end.

Fixpoint strip_prefix (p s : text) : option text :=
  match p, s with
  | [], _ => Some s
  | c :: p, d :: s => if decide (c = d) then strip_prefix p s else None
  | _ :: _, [] => None
  end.

Definition match_number (more : nat) (s : text) : option (text * text) :=
  let '(ds, r) := span is_digit s in
  match ds with
  | c :: ds' => if is_nonzero_digit c && bool_decide (length ds' <= more) then Some (ds, r) else None
  | [] => None
  end.

Definition match_dev (s : text) : option (option text) :=
  match s with
  | [] => Some None
  | _ => h ← strip_prefix (str "-dev-") s;
         if bool_decide (h <> []) && forallb is_hex h then Some (Some h) else None
  end.

Definition match_tail (s : text) : option (option text * option text * option text) :=
  match strip_prefix (str "-alpha") s, strip_prefix (str "-beta") s with
  | Some s, _ => '(n, r) ← match_number 2 s; d ← match_dev r; Some (Some n, None, d)
  | None, Some s => '(n, r) ← match_number 2 s; d ← match_dev r; Some (None, Some n, d)
  | None, None => d ← match_dev s; Some (None, None, d)
  end.

Definition match_at (s : text) : option Captures :=
  let y := take 4 s in
  if bool_decide (length y = 4) && forallb is_digit y then
    s ← strip_prefix (str ".") (drop 4 s);
    '(i, s) ← match_number 1 s;
    '(a, b, d) ← match_tail s;
    Some {| cap_year := y; cap_incremental := i; cap_alpha := a; cap_beta := b; cap_dev := d |}
  else None.

Fixpoint search (s : text) : option Captures :=
  match match_at s with
  | Some c => Some c
  | None => match s with [] => None | _ :: s => search s end
  end.

#[export] Instance regex_reference : VersionRegex := search.

Lemma span_digits i r : digits i -> stops r -> span is_digit (i ++ r) = (i, r).
Proof.
  intros Hi Hr. induction i as [|c i IH].
  - destruct r as [|c r]; [done|]. simpl in *. by rewrite Hr.
  - apply digits_cons in Hi as [Hc Hi]. simpl. by rewrite Hc, (IH Hi).
Qed.

Lemma strip_prefix_app p s : strip_prefix p (p ++ s) = Some s.
Proof. induction p as [|c p IH]; [done|]. simpl. by rewrite decide_True. Qed.

Lemma match_number_app k n r : number k n -> stops r -> match_number k (n ++ r) = Some (n, r).
Proof.
  intros Hn Hr. destruct (number_digits k n Hn) as [D _]. unfold match_number.
  rewrite (span_digits n r D Hr). destruct n as [|c ds]; [done|]. destruct Hn as (Hc&_&Hl).
  by rewrite Hc, bool_decide_eq_true_2.
Qed.

Lemma match_dev_complete d dv : dev_match d dv -> match_dev dv = Some d.
Proof.
  intros [|h Hne Hh]; [done|]. unfold match_dev. rewrite strip_prefix_app. simpl.
  by rewrite bool_decide_eq_true_2, Hh.
Qed.

Lemma match_at_complete c m : version_match c m -> match_at m = Some c.
Proof.
  intros [y i a b d p dv Hy Hdig Hi Hp Hd]. unfold match_at.
  rewrite take_app_length' by done. rewrite drop_app_length' by done.
  rewrite bool_decide_eq_true_2, Hdig by done. simpl.
  rewrite (match_number_app 1 i) by (done || by eapply pre_stops). simpl.
  pose proof (dev_stops d dv Hd) as Hs. unfold match_tail.
  destruct Hp as [|n Hn|n Hn].
  - assert (strip_prefix (str "-alpha") dv = None /\ strip_prefix (str "-beta") dv = None) as [E1 E2]
      by (by destruct Hd).
    cbn [app]. rewrite E1, E2. by rewrite (match_dev_complete d dv Hd).
  - rewrite <- app_assoc, strip_prefix_app, (match_number_app 2 n) by done. simpl.
    by rewrite (match_dev_complete d dv Hd).
  - rewrite <- app_assoc, strip_prefix_app.
    change (strip_prefix (str "-alpha") (str "-beta" ++ n ++ dv)) with (@None text).
    rewrite (match_number_app 2 n) by done. simpl. by rewrite (match_dev_complete d dv Hd).
Qed.

Lemma span_sound s : s = (span is_digit s).1 ++ (span is_digit s).2 /\ digits (span is_digit s).1.
Proof.
  induction s as [|c s [IH D]]; [done|]. simpl. destruct (is_digit c) eqn:Hc; [|done]. simpl.
  split; [by f_equal | by apply digits_cons].
Qed.

Lemma strip_prefix_sound p s r : strip_prefix p s = Some r -> s = p ++ r.
Proof.
  revert s. induction p as [|c p IH]; intros [|d s]; simpl; intros; simplify_eq; [done..|].
  case_decide; [|done]. subst. f_equal. by apply IH.
Qed.

Lemma match_number_sound k s n r : match_number k s = Some (n, r) -> s = n ++ r /\ number k n.
Proof.
  unfold match_number. pose proof (span_sound s) as [E D]. destruct (span is_digit s) as [ds r'].
  simpl in *. destruct ds as [|c ds]; [done|]. destruct (is_nonzero_digit c) eqn:Hc; [|done].
  case_bool_decide as Hl; [|done]. intros [= <- <-]. apply digits_cons in D as [_ D]. by split_and!.
Qed.

Lemma match_dev_sound s d : match_dev s = Some d -> dev_match d s.
Proof.
  unfold match_dev. destruct s as [|c s]; [intros [= <-]; constructor|].
  destruct (strip_prefix _ _) as [h|] eqn:E; [|done]. apply strip_prefix_sound in E. rewrite E. simpl.
  case_bool_decide; [|done]. destruct (forallb is_hex h) eqn:Hh; [|done]. intros [= <-].
  by apply (dev_some h).
Qed.

Lemma match_tail_sound s a b d :
  match_tail s = Some (a, b, d) -> exists p dv, s = p ++ dv /\ pre_match a b p /\ dev_match d dv.
Proof.
  unfold match_tail. destruct (strip_prefix (str "-alpha") s) as [s'|] eqn:Ea;
    [|destruct (strip_prefix (str "-beta") s) as [s'|] eqn:Eb].
  - apply strip_prefix_sound in Ea as ->. destruct (match_number 2 s') as [[n r]|] eqn:En; [|done]. simpl.
    destruct (match_dev r) as [d'|] eqn:Ed; [|done]. intros [= <- <- <-].
    apply match_number_sound in En as [-> Hn]. exists (str "-alpha" ++ n), r.
    split; [done | split; [by constructor | by apply match_dev_sound]].
  - apply strip_prefix_sound in Eb as ->. destruct (match_number 2 s') as [[n r]|] eqn:En; [|done]. simpl.
    destruct (match_dev r) as [d'|] eqn:Ed; [|done]. intros [= <- <- <-].
    apply match_number_sound in En as [-> Hn]. exists (str "-beta" ++ n), r.
    split; [done | split; [by constructor | by apply match_dev_sound]].
  - destruct (match_dev s) as [d'|] eqn:Ed; [|done]. intros [= <- <- <-]. exists [], s.
    split_and!; [done | constructor | by apply match_dev_sound].
Qed.

Lemma match_at_sound c m : match_at m = Some c -> version_match c m.
Proof.
  unfold match_at. case_bool_decide as Hl; [|done]. destruct (forallb is_digit (take 4 m)) eqn:Hd; [|done].
  cbn [andb]. destruct (strip_prefix _ _) as [s|] eqn:Es; [|done]. cbn [mbind option_bind].
  destruct (match_number 1 s) as [[i r]|] eqn:En; [|done]. cbn [mbind option_bind].
  destruct (match_tail r) as [[[a b] d]|] eqn:Et; [|done]. intros [= <-].
  apply strip_prefix_sound in Es. apply match_number_sound in En as [-> Hi].
  apply match_tail_sound in Et as (p&dv&->&Hp&Hdv).
  rewrite <- (take_drop 4 m) at 2. rewrite Es. by constructor.
Qed.

#[export] Instance regex_reference_laws : VersionRegexLaws regex_reference.
Proof.
  split.
  - intros s. unfold captures, regex_reference. induction s as [|x s IH]; intros c; simpl; [done|].
    destruct (match_at (x :: s)) as [c'|] eqn:E.
    + intros [= <-]. exists [], (x :: s). split_and!; [done | by apply match_at_sound | simpl; lia].
    + intros (before&m&->&Hm&Hmin)%IH. exists (x :: before), m. split_and!; [done..|].
      intros [|y before'] m' c' E' Hm'.
      * simpl in E'. subst. by rewrite (match_at_complete c' _ Hm') in E.
      * injection E' as -> E'. simpl. apply le_n_S. by eapply Hmin.
  - intros before m c Hm. unfold captures, regex_reference. induction before as [|x before IH]; simpl.
    + destruct m as [|y m]; [by pose proof (match_at_complete c _ Hm)|]. simpl.
      rewrite (match_at_complete c _ Hm). by eauto.
    + destruct (match_at (x :: before ++ m)); [by eauto | done].
Qed.

Lemma version_text_exact_witness :
  from_str (to_string {| year := 2024; incremental := 8; pre_stable := Some (Beta 1);
                         dev := Some (str "e5483d") |})
  = Some (Ok {| year := 2024; incremental := 8; pre_stable := Some (Beta 1); dev := Some (str "e5483d") |}).
Proof.
  apply (version_text_exact (str "2024.8-beta1-dev-e5483d") {| year := 2024; incremental := 8;
           pre_stable := Some (Beta 1); dev := Some (str "e5483d") |}).
  - by vm_compute.
  - done.
Defined.

(** A text that only ends with a version is read as that version. *)
Example version_prefix_ignored :
  from_str (str "mullvad 12021.1") = Some (Ok {| year := 2021; incremental := 1; pre_stable := None; dev := None |}).
Proof. vm_compute. reflexivity. Qed.

Lemma version_order_witness :
  version_lt {| year := 2024; incremental := 8; pre_stable := Some (Beta 1); dev := None |}
             {| year := 2024; incremental := 8; pre_stable := None; dev := None |}
  /\ version_lt {| year := 2024; incremental := 8; pre_stable := Some (Alpha 7); dev := None |}
                {| year := 2024; incremental := 8; pre_stable := None; dev := None |}.
Proof.
  split; [reflexivity|].
  apply (version_order _ {| year := 2024; incremental := 8; pre_stable := Some (Beta 1); dev := None |} _);
    reflexivity.
Defined.
