(* ===== verification/Retry.v ===== *)
(** * Retrying

    [src/talpid-future/src/retry.rs]: repeating a future with delays, and the delays.

    A [Duration] is a number of nanoseconds; its arithmetic saturates at [DURATION_MAX].  Jitter is
    computed with [f64] and left out. *)

From stdpp Require Import base list option numbers.
From S2P Require Import Prelude.

Definition NANOS_PER_SEC : Z := 10 ^ 9.
(** [Duration::MAX]: [u64::MAX] seconds and 999999999 nanoseconds. *)
Definition DURATION_MAX : Z := 2 ^ 64 * NANOS_PER_SEC - 1.
Definition from_secs (s : Z) : Z := s * NANOS_PER_SEC.
Definition saturating_mul (d factor : Z) : Z := Z.min DURATION_MAX (d * factor).
Definition is_duration (d : Z) : Prop := (0 <= d <= DURATION_MAX)%Z.

(** ** Delays *)
(** An iterator over durations: [next] gives an item and the iterator after it. *)
Class Delays (D : Type) : Type := next : D -> option (Z * D).

Definition USIZE_MAX : Z := 2 ^ 64 - 1.

Record ConstantInterval : Type := { interval : Z; attempt : Z; max_attempts : option Z }.

Definition ConstantInterval_new (interval : Z) (max_attempts : option Z) : ConstantInterval :=
  {| interval := interval; attempt := 0; max_attempts := max_attempts |}.

#[global] Instance ConstantInterval_next : Delays ConstantInterval :=
  fun i =>
    let step := Some (interval i, {| interval := interval i; attempt := Z.min USIZE_MAX (attempt i + 1);
                                     max_attempts := max_attempts i |}) in
    match max_attempts i with
    | Some max => if (max <=? attempt i)%Z then None else step
    | None => step
    end.

Record ExponentialBackoff : Type := { next_ : Z; factor : Z; max_delay : option Z }.

Definition ExponentialBackoff_new (initial factor : Z) : ExponentialBackoff :=
  {| next_ := initial; factor := factor; max_delay := None |}.

Definition with_max_delay (duration : option Z) (b : ExponentialBackoff) : ExponentialBackoff :=
  {| next_ := next_ b; factor := factor b; max_delay := duration |}.

Definition next_delay (b : ExponentialBackoff) : Z * ExponentialBackoff :=
  let advance := (next_ b, {| next_ := saturating_mul (next_ b) (factor b); factor := factor b;
                              max_delay := max_delay b |}) in
  match max_delay b with
  | Some max => if (max <? next_ b)%Z then (max, b) else advance
  | None => advance
  end.

#[global] Instance ExponentialBackoff_next : Delays ExponentialBackoff := fun b => Some (next_delay b).

(** ** Retrying *)
(** [factory k] is the result of the future made at the [k]th call; [None] is out of fuel, and otherwise
    the result, how many futures were run, and the delays slept. *)
Section retry.
Context {D T : Type} `{Delays D} (factory : nat -> T) (should_retry : nat -> T -> bool).

Fixpoint retry_future (fuel k : nat) (delays : D) : option (T * nat * list Z) :=
  match fuel with
  | 0 => None
  | S fuel =>
      let current_result := factory k in
      if should_retry k current_result then
        match next delays with
        | Some (delay, delays) =>
            '(r, n, slept) ← retry_future fuel (S k) delays; Some (r, n, delay :: slept)
        | None => Some (current_result, S k, [])
        end
      else Some (current_result, S k, [])
  end.
End retry.

(** ** What the delays are *)
(** The [n]th item of an iterator. *)
Fixpoint nth_delay {D} `{Delays D} (n : nat) (d : D) : option Z :=
  '(z, d) ← next d; match n with 0 => Some z | S n => nth_delay n d end.

Lemma saturating_mul_range a f :
  (0 <= a <= DURATION_MAX)%Z -> (0 <= f)%Z -> is_duration (saturating_mul a f).
Proof. unfold is_duration, saturating_mul. assert (0 <= DURATION_MAX)%Z by (by vm_compute). nia. Qed.

(** The delay that is due after [k] multiplications, before it is capped. *)
Definition grown (initial f : Z) (k : nat) : Z := Z.min DURATION_MAX (initial * f ^ Z.of_nat k).

Lemma saturating_grown initial f k :
  is_duration initial -> (1 <= f)%Z -> saturating_mul (grown initial f k) f = grown initial f (S k).
Proof.
  unfold saturating_mul, grown, is_duration. intros Hi Hf.
  rewrite Nat2Z.inj_succ, Z.pow_succ_r by lia.
  assert (0 < f ^ Z.of_nat k)%Z by (apply Z.pow_pos_nonneg; lia). nia.
Qed.

Lemma grown_mono initial f k j :
  is_duration initial -> (1 <= f)%Z -> k <= j -> (grown initial f k <= grown initial f j)%Z.
Proof.
  unfold grown, is_duration. intros Hi Hf Hk.
  assert (f ^ Z.of_nat k <= f ^ Z.of_nat j)%Z by (apply Z.pow_le_mono_r; lia). nia.
Qed.

Lemma backoff_next b : next b = Some (next_delay b).
Proof. done. Qed.

(** From a delay that has grown [k] times. *)
Lemma nth_backoff n : forall k initial f max b,
  is_duration initial -> (1 <= f)%Z ->
  b = {| next_ := grown initial f k; factor := f; max_delay := max |} ->
  nth_delay n b = Some match max with Some m => Z.min m (grown initial f (k + n)) | None => grown initial f (k + n) end.
Proof.
  induction n as [|n IH]; intros k initial f max b Hi Hf ->.
  - simpl. unfold next_delay. simpl. rewrite Nat.add_0_r. destruct max as [m|]; [|done]. simpl.
    destruct (Z.ltb_spec m (grown initial f k)); simpl; f_equal; lia.
  - cbn [nth_delay]. rewrite backoff_next. unfold next_delay.
    cbn [next_ factor max_delay]. rewrite saturating_grown by done.
    destruct max as [m|].
    + destruct (Z.ltb_spec m (grown initial f k)) as [Hlt|Hge]; cbn [mbind option_bind].
      * rewrite (IH k initial f (Some m) _ Hi Hf eq_refl).
        pose proof (grown_mono initial f k (k + n) Hi Hf ltac:(lia)).
        pose proof (grown_mono initial f k (k + S n) Hi Hf ltac:(lia)). f_equal. lia.
      * rewrite (IH (S k) initial f (Some m) _ Hi Hf eq_refl). by rewrite Nat.add_succ_comm.
    + cbn [mbind option_bind]. rewrite (IH (S k) initial f None _ Hi Hf eq_refl).
      by rewrite Nat.add_succ_comm.
Qed.

(** ** How often a future is run *)
Lemma constant_next i j max :
  next {| interval := i; attempt := j; max_attempts := Some max |} =
  if (max <=? j)%Z then None
  else Some (i, {| interval := i; attempt := Z.min USIZE_MAX (j + 1); max_attempts := Some max |}).
Proof. done. Qed.

Lemma retry_constant {T} (factory : nat -> T) should_retry i m : forall j k fuel,
  m < fuel -> (0 <= j)%Z -> (j + Z.of_nat m < USIZE_MAX)%Z ->
  exists r n slept,
    retry_future factory should_retry fuel k
      {| interval := i; attempt := j; max_attempts := Some (j + Z.of_nat m)%Z |} = Some (r, n, slept)
    /\ k < n <= k + S m /\ r = factory (pred n) /\ slept = replicate (n - S k) i
    /\ (forall q, k <= q < pred n -> should_retry q (factory q) = true)
    /\ (should_retry (pred n) r = true -> n = k + S m).
Proof.
  induction m as [|m IH]; intros j k fuel Hf Hj Hmax; (destruct fuel as [|fuel]; [lia|]); cbn [retry_future].
  - destruct (should_retry k (factory k)) eqn:E.
    + rewrite constant_next.
      rewrite (proj2 (Z.leb_le _ _)) by lia. eexists _, _, _. split; [done|]. simpl.
      split_and!; try lia; try done. by rewrite Nat.sub_diag.
    + eexists _, _, _. split; [done|]. simpl. rewrite E.
      split_and!; try lia; try done. by rewrite Nat.sub_diag.
  - destruct (should_retry k (factory k)) eqn:E.
    + rewrite constant_next.
      rewrite (proj2 (Z.leb_gt _ _)) by lia. cbn [mbind option_bind].
      destruct (IH (j + 1)%Z (S k) fuel) as (r&n&slept&Hr&Hn&Hrn&Hs&Hq&Hl); [lia..|].
      replace (j + Z.of_nat (S m))%Z with (j + 1 + Z.of_nat m)%Z by lia.
      rewrite Z.min_r by lia. rewrite Hr. cbn [mbind option_bind].
      eexists _, _, _. split; [done|]. split_and!; try lia; [done| | |].
      * rewrite Hs. replace (n - S k) with (S (n - S (S k))) by lia. done.
      * intros q Hq'. destruct (decide (q = k)) as [->|]; [done|]. apply Hq. lia.
      * intros Ht. specialize (Hl Ht). lia.
    + eexists _, _, _. split; [done|]. simpl. rewrite E.
      split_and!; try lia; try done. by rewrite Nat.sub_diag.
Qed.

(** A future retried at a constant interval with a limit of [max] retries is run at most [max + 1]
    times, and [max + 1] rounds suffice to return: the result is that of the last run, every earlier one
    was to be retried, the interval was slept between them, and a result that should be retried is
    returned only when the limit is reached. *)
Theorem retry_terminates {T} (factory : nat -> T) should_retry (i : Z) (max : nat) :
  (Z.of_nat max < USIZE_MAX)%Z ->
  exists r n slept,
    retry_future factory should_retry (S max) 0 (ConstantInterval_new i (Some (Z.of_nat max)))
    = Some (r, n, slept)
    /\ 1 <= n <= S max /\ r = factory (pred n) /\ slept = replicate (pred n) i
    /\ (forall q, q < pred n -> should_retry q (factory q) = true)
    /\ (should_retry (pred n) r = true -> n = S max).
Proof.
  intros Hmax. destruct (retry_constant factory should_retry i max 0 0 (S max)) as (r&n&slept&Hr&Hn&Hrn&Hs&Hq&Hl);
    [lia..|]. exists r, n, slept. split_and!; try done; try lia.
  - by rewrite Hs, <- Nat.sub_1_r.
  - intros q Hlt. apply Hq. lia.
Qed.

Lemma retry_terminates_witness :
  exists r n slept,
    retry_future (fun k => k) (fun _ r => r <? 2) 4 0 (ConstantInterval_new 0 (Some 3%Z)) = Some (r, n, slept)
    /\ 1 <= n <= 4 /\ r = pred n.
Proof.
  destruct (retry_terminates (fun k => k) (fun _ r => r <? 2) 0 3 ltac:(by vm_compute))
    as (r&n&slept&Hr&Hn&Hrn&_).
  exists r, n, slept. split; [exact Hr|]. by split.
Defined.

(** The exponential back-off: its delays never end, the [n]th is the initial delay times the factor
    to the [n], saturated at the longest duration, and never above the maximum if there is one. *)
Theorem backoff_delays (initial f : Z) (max : option Z) (n : nat) :
  is_duration initial -> (1 <= f)%Z ->
  nth_delay n (with_max_delay max (ExponentialBackoff_new initial f))
  = Some match max with
         | Some m => Z.min m (Z.min DURATION_MAX (initial * f ^ Z.of_nat n))
         | None => Z.min DURATION_MAX (initial * f ^ Z.of_nat n)
         end.
Proof.
  intros Hi Hf. rewrite (nth_backoff n 0 initial f max); [done..|].
  unfold with_max_delay, ExponentialBackoff_new, grown. simpl. f_equal. unfold is_duration in Hi. lia.
Qed.

Lemma backoff_delays_witness :
  nth_delay 2 (with_max_delay (Some (from_secs 7)) (ExponentialBackoff_new (from_secs 2) 3))
  = Some (from_secs 7).
Proof.
  rewrite (backoff_delays (from_secs 2) 3 (Some (from_secs 7)) 2); [reflexivity | by vm_compute | lia].
Defined.
