(* ===== verification/VersionUpdate.v ===== *)
(** * Metadata of releases

    [src/mullvad-update/src/version/] (rollout thresholds, the selection of the latest versions),
    [src/mullvad-update/src/format/] (the signed response and its verification) and the version check of
    [src/mullvad-api/src/version.rs].

    An [f32] is a [spec_float] of the standard library in binary32 format.  JSON, its canonical form and
    ed25519 are the crates [serde_json], [json_canon] and [ed25519_dalek]: the class [MetadataCodec].
    [hex::decode] and the HTTP client are parameters too. *)

From stdpp Require Import base list strings option numbers sets.
From Stdlib Require Import SpecFloat.
From S2P Require Import Prelude Version.
Local Open Scope vpn_scope.

(** ** Rollout *)
Definition f32 : Type := spec_float.
Record Rollout : Type := { fraction : f32 }.

Definition f32_zero : f32 := S754_zero false.
Definition f32_one : f32 := S754_finite false 8388608 (-23).
Definition f32_EPSILON : f32 := S754_finite false 8388608 (-46).

Definition IGNORE : Rollout := {| fraction := f32_zero |}.
Definition SUPPORTED_VERSION : Rollout := {| fraction := f32_EPSILON |}.
Definition FULLY_ROLLED_OUT : Rollout := {| fraction := f32_one |}.

(** [a <= b] on [f32]: false if they are not comparable. *)
Definition f32_le (a b : f32) : bool :=
  match SFcompare a b with Some (Lt | Eq) => true | _ => false end.

Definition f32_is_finite (x : f32) : bool :=
  match x with S754_zero _ | S754_finite _ _ _ => true | _ => false end.

Inductive RolloutError : Type := NotFinite (x : f32) | OutsideRange (x : f32).

Definition Rollout_try_from (rollout : f32) : result Rollout RolloutError :=
  if negb (f32_is_finite rollout) then Err (NotFinite rollout)
  else if negb (f32_le f32_zero rollout && f32_le rollout f32_one) then Err (OutsideRange rollout)
  else Ok {| fraction := rollout |}.

Definition Rollout_partial_cmp (a b : Rollout) : option comparison := SFcompare (fraction a) (fraction b).

(** [Ord::cmp]: [None] where [expect] panics. *)
Definition Rollout_cmp (a b : Rollout) : option comparison := Rollout_partial_cmp a b.

(** [a >= b]. *)
Definition rollout_ge (a b : Rollout) : bool :=
  match Rollout_partial_cmp a b with Some (Gt | Eq) => true | _ => false end.

Definition is_complete_rollout (b : Rollout) : bool :=
  match Rollout_partial_cmp b FULLY_ROLLED_OUT with Some Eq => true | _ => false end.

(** ** Releases *)
Inductive Architecture : Type := X86 | Arm64.
#[global] Instance Architecture_eq_dec : EqDecision Architecture.
Proof. solve_decision. Defined.

Record Installer : Type := {
  architecture : Architecture; installer_urls : list text; installer_size : Z; installer_sha256 : text
}.

Record Release : Type := {
  release_version : Version;
  release_changelog : text;
  installers : list Installer;
  rollout : Rollout;
}.

Record Response : Type := {
  metadata_version : Z;
  metadata_expiry : Z;
  releases : list Release;
}.

Record Metadata : Type := {
  version : Version;
  urls : list text;
  size : Z;
  changelog : text;
  sha256 : list Z;
}.
#[global] Instance Metadata_eq_dec : EqDecision Metadata.
Proof. solve_decision. Defined.

Record VersionInfo : Type := { stable : Metadata; beta : option Metadata }.
#[global] Instance VersionInfo_eq_dec : EqDecision VersionInfo.
Proof. solve_decision. Defined.

Record VersionParameters : Type := {
  param_architecture : Architecture;
  param_rollout : Rollout;
  allow_empty : bool;
  lowest_metadata_version : Z;
}.

Inductive VersionInfoError : Type :=
| DuplicateVersions | InvalidChecksumHex | InvalidChecksumLength | NoStableVersion.

(** [Iterator::max_by]: the last of the greatest elements. *)
Definition max_by {A} (cmp : A -> A -> comparison) (l : list A) : option A :=
  match l with
  | [] => None
  | a :: l => Some (foldl (fun m x => match cmp m x with Gt => m | _ => x end) a l)
  end.

Definition version_cmp (a b : Metadata) : comparison := default Eq (partial_cmp (version a) (version b)).

Section info.
(** [hex::decode]. *)
Context (hex_decode : text -> option (list Z)).

Definition decode_sha256 (s : text) : result (list Z) VersionInfoError :=
  match hex_decode s with
  | None => Err InvalidChecksumHex
  | Some b => if length b =? 32 then Ok b else Err InvalidChecksumLength
  end.

(** The closure of [flat_map]. *)
Definition release_metadata (params : VersionParameters) (r : Release)
  : option (result Metadata VersionInfoError) :=
  match installers r with
  | [] =>
      if allow_empty params then
        Some (Ok {| version := release_version r; size := 0; urls := []; changelog := release_changelog r;
                    sha256 := replicate 32 0%Z |})
      else None
  | l =>
      '(_, i) ← list_find (fun i => param_architecture params = architecture i) l;
      Some (hash <-? decode_sha256 (installer_sha256 i);
            Ok {| version := release_version r; size := installer_size i; urls := installer_urls i;
                  changelog := release_changelog r; sha256 := hash |})
  end.

(** [try_collect]: the first error, if there is one. *)
Fixpoint try_collect {A E} (l : list (result A E)) : result (list A) E :=
  match l with
  | [] => Ok []
  | r :: l => a <-? r; l <-? try_collect l; Ok (a :: l)
  end.

Definition rolled_out (params : VersionParameters) (r : Release) : bool :=
  rollout_ge (rollout r) (param_rollout params) && negb (is_dev (release_version r)).

Definition available_versions (params : VersionParameters) (response : Response)
  : result (list Metadata) VersionInfoError :=
  try_collect (omap (release_metadata params) (List.filter (rolled_out params) (releases response))).

Definition try_from_response (params : VersionParameters) (response : Response)
  : result VersionInfo VersionInfoError :=
  if negb (bool_decide (NoDup (map release_version (releases response)))) then Err DuplicateVersions
  else
    available <-? available_versions params response;
    match max_by version_cmp (List.filter (fun m => bool_decide (pre_stable (version m) = None)) available) with
    | None => Err NoStableVersion
    | Some stable =>
        let beta :=
          max_by version_cmp
            (List.filter (fun m => version_gt (version m) (version stable))
               (List.filter (fun m => is_beta (version m)) available)) in
        Ok {| stable := stable; beta := beta |}
    end.
End info.

Definition is_version_supported (current_version : Version) (response : Response) : bool :=
  existsb (fun release => bool_decide (release_version release = current_version)) (releases response).

(** ** Verification *)
(** JSON values, keys and signatures are opaque.  [parse_signed] is [serde_json::from_slice] at
    [PartialSignedResponse], where a signature that is not ed25519 has no key; [to_canon] is
    [json_canon::to_vec]; [from_slice] and [from_value] are those of [serde_json]. *)
Class MetadataCodec : Type := {
  Json : Type;
  VerifyingKey : Type;
  Signature : Type;
  key_eq_dec :: EqDecision VerifyingKey;
  parse_signed : list Z -> option (list (option VerifyingKey * Signature) * Json);
  to_canon : Json -> option (list Z);
  verify_strict : VerifyingKey -> list Z -> Signature -> bool;
  from_slice : list Z -> option Json;
  from_value : Json -> option Response;
}.

Inductive VerifyError : Type :=
| InvalidVersionJson | UnrecognizedKey | CanonicalJson | SignatureVerificationFailed
| DeserializeCanonicalJson | DeserializeResponse | MetadataExpired (expiry : Z)
| MetadataTooOld (metadata_version min : Z).

Section verification.
Context `{MetadataCodec}.

Record PartialSignedResponse : Type := {
  partial_signatures : list (option VerifyingKey * Signature); partial_signed : Json
}.
Record SignedResponse : Type := {
  signatures : list (option VerifyingKey * Signature); signed : Response
}.

(** [find_map] over the signatures. *)
Fixpoint trusted_signature (keys : list VerifyingKey) (sigs : list (option VerifyingKey * Signature))
  : option (VerifyingKey * Signature) :=
  match sigs with
  | [] => None
  | (Some keyid, sig) :: sigs =>
      if bool_decide (keyid ∈ keys) then Some (keyid, sig) else trusted_signature keys sigs
  | (None, _) :: sigs => trusted_signature keys sigs
  end.

Definition deserialize_and_verify (keys : list VerifyingKey) (bytes : list Z)
  : result PartialSignedResponse VerifyError :=
  match parse_signed bytes with
  | None => Err InvalidVersionJson
  | Some (sigs, data) =>
      match trusted_signature keys sigs with
      | None => Err UnrecognizedKey
      | Some (key, sig) =>
          match to_canon data with
          | None => Err CanonicalJson
          | Some canon_data =>
              if negb (verify_strict key canon_data sig) then Err SignatureVerificationFailed
              else match from_slice canon_data with
                   | None => Err DeserializeCanonicalJson
                   | Some data => Ok {| partial_signatures := sigs; partial_signed := data |}
                   end
          end
      end
  end.

Definition deserialize_and_verify_at_time (keys : list VerifyingKey) (bytes : list Z) (current_time : Z)
    (min_metadata_version : Z) : result SignedResponse VerifyError :=
  partial_data <-? deserialize_and_verify keys bytes;
  match from_value (partial_signed partial_data) with
  | None => Err DeserializeResponse
  | Some response =>
      if (metadata_expiry response <=? current_time)%Z then Err (MetadataExpired (metadata_expiry response))
      else if (metadata_version response <? min_metadata_version)%Z
      then Err (MetadataTooOld (metadata_version response) min_metadata_version)
      else Ok {| signatures := partial_signatures partial_data; signed := response |}
  end.

(** ** The version check *)
Record AppVersionResponse : Type := {
  avr_version_info : VersionInfo;
  avr_metadata_version : Z;
  avr_current_version_supported : bool;
  avr_etag : option text;
}.

(** A response of the API: its status, its ETag if it is valid text, and its body, or whether reading it
    failed with a network error. *)
Record HttpResponse : Type := {
  status : Z; http_etag : option text; body : result (list Z) bool
}.

(** Errors of the REST client, with whether they are network errors. *)
Inductive RestError : Type :=
| RequestFailed (network_error : bool)
| FetchVersions (e : VerifyError + VersionInfoError).

Definition NOT_MODIFIED : Z := 304.

(** [current_version] is the version of the running program, [linux] whether this is Linux, where the
    metadata has no installers, [keys] the built-in keys, [now] the time, and [reply] the result of
    sending the request. *)
Definition version_check (hex_decode : text -> option (list Z)) (keys : list VerifyingKey)
    (current_version : Version) (linux : bool) (now : Z) (reply : result HttpResponse RestError)
    (arch : Architecture) (lowest : Z) (threshold : Rollout) (etag : option text)
  : result (option AppVersionResponse) RestError :=
  response <-? reply;
  if bool_decide (is_Some etag) && (status response =? NOT_MODIFIED)%Z then Ok None
  else
    match body response with
    | Err network_error => Err (RequestFailed network_error)
    | Ok bytes =>
        verified <-? map_err (fun e => FetchVersions (inl e))
                       (deserialize_and_verify_at_time keys bytes now lowest);
        let params := {| param_architecture := arch; param_rollout := threshold; allow_empty := linux;
                         lowest_metadata_version := lowest |} in
        info <-? map_err (fun e => FetchVersions (inr e)) (try_from_response hex_decode params (signed verified));
        Ok (Some {| avr_version_info := info;
                    avr_metadata_version := metadata_version (signed verified);
                    avr_current_version_supported := is_version_supported current_version (signed verified);
                    avr_etag := http_etag response |})
    end.
End verification.

(** * Checking for new versions

    [src/mullvad-daemon/src/version/check.rs]: the task that asks the API for the latest versions, in the
    foreground when a client asks and in the background every hour, and keeps the last answer.

    The inputs are what arrives on the channels of the task's [select] loop ([UpdaterEvent]): a check
    that ends carries the replies of the server and the readings of the clock.  Caches are written to
    disk as well as sent; writing can only fail with a message in the log, and is left out. *)
From S2P Require Import Retry.

Definition PLATFORM_HEADER_INTERVAL : Z := from_secs (24 * 3600).
Definition MIN_VERIFY_METADATA_VERSION : Z := 0.

Record VersionCache : Type := {
  cache_version : Version;
  current_version_supported : bool;
  version_info : VersionInfo;
  last_platform_header_check : Z;
  cache_metadata_version : Z;
  etag : option text;
}.
#[global] Instance VersionCache_eq_dec : EqDecision VersionCache.
Proof. solve_decision. Defined.

Inductive CheckError : Type :=
| Download (e : RestError)
| ApiCheck.

(** The clock as one check reads it: when it decides about platform headers, when it verifies the
    response, and when it is done. *)
Record Clock : Type := { at_request : Z; at_verification : Z; at_completion : Z }.

(** [SystemTime::elapsed] fails for a time in the future. *)
Definition should_include_platform_headers (time : option Z) (now : Z) : bool :=
  match time with
  | Some t => if (t <=? now)%Z then (PLATFORM_HEADER_INTERVAL <=? now - t)%Z else true
  | None => true
  end.

(** [CHECK_ENABLED]; [override] is whether [MULLVAD_ENABLE_DEV_UPDATES] is set to something but 0. *)
Definition CHECK_ENABLED (app_version : Version) (override : bool) : bool :=
  (negb (is_dev app_version) && negb (is_beta app_version)) || override.

Definition cache_is_stale (cache : VersionCache) (current_version : Version) : bool :=
  negb (bool_decide (cache_version cache = current_version)).

Definition dev_version_cache (app_version : Version) (now : Z) : VersionCache :=
  {| cache_version := app_version; current_version_supported := true;
     version_info := {| stable := {| version := app_version; changelog := []; urls := [];
                                     sha256 := replicate 32 0%Z; size := 0 |}; beta := None |};
     last_platform_header_check := now; cache_metadata_version := 0; etag := None |}.

(** [load_cache]: any failure, an outdated cache included, is no cache.  [content] is the parsed file. *)
Definition load_cache (app_version : Version) (enabled : bool) (now : Z) (content : option VersionCache)
  : option VersionCache :=
  if negb enabled then Some (dev_version_cache app_version now)
  else cache ← content; if cache_is_stale cache app_version then None else Some cache.

Section check.
Context `{MetadataCodec}.

(** What does not change while the task runs: the version of the program, the platform, the trusted
    keys, the rollout threshold. *)
Record ApiContext : Type := {
  APP_VERSION : Version;
  api_linux : bool;
  api_architecture : Architecture;
  api_rollout : Rollout;
  trusted_keys : list VerifyingKey;
  hex_decode : text -> option (list Z);
}.

Context (api : ApiContext).

(** A request to the server and what came back: the request carries platform headers or not, and the
    ETag of the known data. *)
Record Attempt : Type := {
  clock : Clock;
  reply : bool -> option text -> result HttpResponse RestError;
  offline : bool;
}.

(** [None] where [expect] panics. *)
Definition version_check_inner (a : Attempt) (cache : option VersionCache)
  : option (result VersionCache CheckError) :=
  let check lowest headers tag :=
    map_err Download
      (version_check (hex_decode api) (trusted_keys api) (APP_VERSION api) (api_linux api)
         (at_verification (clock a)) (reply a headers tag) (api_architecture api) lowest
         (api_rollout api) tag) in
  let fresh response last :=
    {| cache_version := APP_VERSION api;
       current_version_supported := avr_current_version_supported response;
       version_info := avr_version_info response;
       last_platform_header_check := last;
       cache_metadata_version := avr_metadata_version response;
       etag := avr_etag response |} in
  match cache with
  | Some prev =>
      let add_platform_headers :=
        should_include_platform_headers (Some (last_platform_header_check prev)) (at_request (clock a)) in
      let last := if add_platform_headers then at_completion (clock a) else last_platform_header_check prev in
      Some match check (cache_metadata_version prev) add_platform_headers (etag prev) with
           | Err e => Err e
           | Ok None =>
               Ok {| cache_version := cache_version prev;
                     current_version_supported := current_version_supported prev;
                     version_info := version_info prev; last_platform_header_check := last;
                     cache_metadata_version := cache_metadata_version prev; etag := etag prev |}
           | Ok (Some response) => Ok (fresh response last)
           end
  | None =>
      match check MIN_VERIFY_METADATA_VERSION true None with
      | Err e => Some (Err e)
      | Ok None => None
      | Ok (Some response) => Some (Ok (fresh response (at_completion (clock a))))
      end
  end.

(** [do_version_check]: network errors are retried immediately, three times at most, unless offline. *)
Definition is_network_error (r : option (result VersionCache CheckError)) : bool :=
  match r with Some (Err (Download (RequestFailed network))) => network | _ => false end.

Definition IMMEDIATE_RETRIES : nat := 3.

Definition do_version_check (attempts : nat -> Attempt) (prev : option VersionCache)
  : option (result VersionCache CheckError) :=
  '(r, _, _) ← retry_future (fun k => version_check_inner (attempts k) prev)
                 (fun k r => negb (offline (attempts k)) && is_network_error r)
                 (S IMMEDIATE_RETRIES) 0 (ConstantInterval_new 0 (Some (Z.of_nat IMMEDIATE_RETRIES)));
  r.

(** [do_version_check_in_background]: [available] is whether the wait for background calls succeeded. *)
Definition do_version_check_in_background (available : bool) (a : Attempt) (prev : option VersionCache)
  : option (result VersionCache CheckError) :=
  if available then version_check_inner a prev else Some (Err ApiCheck).

(** ** The task *)
(** A running check is the cache it was started with. *)
Record VersionUpdater : Type := {
  last_app_version_info : option VersionCache;
  version_check_fg : option (option VersionCache);
  version_check_bg : option (option VersionCache);
  run_next_check_bg : bool;
}.

Definition updater_start (last : option VersionCache) : VersionUpdater :=
  {| last_app_version_info := last; version_check_fg := None; version_check_bg := None;
     run_next_check_bg := true |}.

Definition ignore_cache_if_same_version (last : option VersionCache) (new : VersionCache) : VersionCache :=
  match last with
  | Some current =>
      if (cache_metadata_version current =? cache_metadata_version new)%Z then
        {| cache_version := cache_version current;
           current_version_supported := current_version_supported current;
           version_info := version_info current;
           last_platform_header_check := last_platform_header_check new;
           cache_metadata_version := cache_metadata_version current; etag := etag new |}
      else new
  | None => new
  end.

(** The new state of the cache, and what is sent to the router. *)
Definition handle_version_response (last : option VersionCache) (response : result VersionCache CheckError)
  : option VersionCache * list VersionCache :=
  let update new := let new := ignore_cache_if_same_version last new in (Some new, [new]) in
  match response with
  | Ok info => update info
  | Err _ => match last with Some info => update info | None => (None, []) end
  end.

Inductive UpdaterEvent : Type :=
| EvRefresh
| EvTimer
| EvForeground (attempts : nat -> Attempt)
| EvBackground (available : bool) (a : Attempt).

(** One round of the loop.  [None]: the event cannot happen now, or the task panics. *)
Definition updater_step (u : VersionUpdater) (e : UpdaterEvent) : option (VersionUpdater * list VersionCache) :=
  let last := last_app_version_info u in
  match e with
  | EvRefresh =>
      Some (match version_check_fg u with
            | Some _ => u
            | None => {| last_app_version_info := last; version_check_fg := Some last;
                         version_check_bg := version_check_bg u; run_next_check_bg := run_next_check_bg u |}
            end, [])
  | EvTimer =>
      if run_next_check_bg u then
        Some ({| last_app_version_info := last; version_check_fg := version_check_fg u;
                 version_check_bg := Some last; run_next_check_bg := false |}, [])
      else None
  | EvBackground available a =>
      prev ← version_check_bg u;
      response ← do_version_check_in_background available a prev;
      let '(last, sent) := handle_version_response last response in
      Some ({| last_app_version_info := last; version_check_fg := version_check_fg u;
               version_check_bg := None; run_next_check_bg := true |}, sent)
  | EvForeground attempts =>
      prev ← version_check_fg u;
      response ← do_version_check attempts prev;
      let '(last, sent) := handle_version_response last response in
      Some ({| last_app_version_info := last; version_check_fg := None;
               version_check_bg := version_check_bg u; run_next_check_bg := run_next_check_bg u |}, sent)
  end.

Inductive updater_run : VersionUpdater -> list UpdaterEvent -> VersionUpdater -> list VersionCache -> Prop :=
| updater_done u : updater_run u [] u []
| updater_next u e u' sent es u'' sent' :
    updater_step u e = Some (u', sent) -> updater_run u' es u'' sent' ->
    updater_run u (e :: es) u'' (sent ++ sent').
End check.
