(* ===== verification/VersionRouter.v ===== *)
(** * Routing version updates and upgrade requests

    [src/mullvad-daemon/src/version/router.rs] with the downloader of [downloader.rs], in a build with
    in-app upgrades (Windows and macOS).

    Channels are inputs and outputs: [run_step] takes what arrives on one of the router's channels, and
    yields what it sends.  The download itself is a parameter: a task that ends with the path of a
    verified installer or with an error. *)

From stdpp Require Import base list strings option numbers sets.
From S2P Require Import Prelude Version VersionUpdate.

(** ** What clients see *)
Record SuggestedUpgrade : Type := {
  upgrade_version : Version;
  upgrade_changelog : text;
  verified_installer_path : option text;
}.

Record AppVersionInfo : Type := {
  app_current_version_supported : bool;
  suggested_upgrade : option SuggestedUpgrade;
}.

#[global] Instance SuggestedUpgrade_eq_dec : EqDecision SuggestedUpgrade.
Proof. solve_decision. Defined.
#[global] Instance AppVersionInfo_eq_dec : EqDecision AppVersionInfo.
Proof. solve_decision. Defined.

(** ** State and messages *)
(** Senders are numbers.  The handle of a downloader is the version being downloaded. *)
Inductive State : Type :=
| NoVersion
| HasVersion (version_cache : VersionCache)
| Downloading (version_cache : VersionCache) (upgrading_to_version : Metadata)
| Downloaded (version_cache : VersionCache) (path : text).

Record VersionRouter : Type := {
  state : State;
  beta_program : bool;
  version_request_channels : list nat;
}.

Inductive Message : Type :=
| SetBetaProgram (enabled : bool) (result_tx : nat)
| GetLatestVersion (result_tx : nat)
| UpdateApplication (result_tx : nat)
| CancelUpdate (result_tx : nat)
| GetCacheDir (result_tx : nat).

(** How the downloader task ends: with the installer's path, with an error of its own, or because it
    panicked or was aborted. *)
Inductive DownloadResult : Type :=
| Verified (path : text)
| DownloadFailed
| JoinError.

(** What the router sends. *)
Inductive Effect : Type :=
| VersionEvent (info : AppVersionInfo)
| ReplyVersion (tx : nat) (info : AppVersionInfo)
| ReplyClosed (tx : nat)
| Ack (tx : nat)
| RefreshVersionCheck
| Aborted
| SpawnDownloader (version : Metadata).

Definition get_version_cache (s : State) : option VersionCache :=
  match s with
  | NoVersion => None
  | HasVersion c | Downloading c _ | Downloaded c _ => Some c
  end.

(** Dropping the handle of a running download aborts it and says so. *)
Definition drop_state (s : State) : list Effect :=
  match s with Downloading _ _ => [Aborted] | _ => [] end.

Section router.
(** [mullvad_version::VERSION]. *)
Context (VERSION : Version).

Definition recommended_version_upgrade (info : VersionInfo) (beta_program : bool) : option Metadata :=
  let version_details := if beta_program then default (stable info) (beta info) else stable info in
  if version_gt (version version_details) VERSION then Some version_details else None.

Definition to_app_version_info (cache : VersionCache) (beta_program : bool) (path : option text)
  : AppVersionInfo :=
  {| app_current_version_supported := current_version_supported cache;
     suggested_upgrade :=
       (fun m => {| upgrade_version := version m; upgrade_changelog := changelog m;
                    verified_installer_path := path |})
       <$> recommended_version_upgrade (version_info cache) beta_program |}.

Definition set_state (s : State) (r : VersionRouter) : VersionRouter :=
  {| state := s; beta_program := beta_program r; version_request_channels := version_request_channels r |}.

(** [on_new_version]: the router after it, the information, whether it is new, and what dropping the old
    state sends. *)
Definition on_new_version (cache : VersionCache) (r : VersionRouter)
  : VersionRouter * AppVersionInfo * bool * list Effect :=
  let info c path := to_app_version_info c (beta_program r) path in
  let reset new is_new := (set_state (HasVersion cache) r, new, is_new, drop_state (state r)) in
  match state r with
  | NoVersion => reset (info cache None) true
  | HasVersion prev => reset (info cache None) (bool_decide (info cache None <> info prev None))
  | Downloading prev upgrading_to =>
      if decide (info prev None = info cache None)
      then (set_state (Downloading cache upgrading_to) r, info cache None, false, [])
      else reset (info cache None) true
  | Downloaded prev path =>
      if decide (info prev (Some path) = info cache (Some path))
      then (set_state (Downloaded cache path) r, info cache (Some path), false, [])
      else reset (info cache (Some path)) true
  end.

Definition notify_version_requesters (info : AppVersionInfo) (r : VersionRouter)
  : VersionRouter * list Effect :=
  ({| state := state r; beta_program := beta_program r; version_request_channels := [] |},
   map (fun tx => ReplyVersion tx info) (version_request_channels r)).

Definition set_beta_program (new_state : bool) (r : VersionRouter) : VersionRouter * list Effect :=
  if decide (new_state = beta_program r) then (r, [])
  else
    let previous_state := beta_program r in
    let r := {| state := state r; beta_program := new_state;
                version_request_channels := version_request_channels r |} in
    match get_version_cache (state r) with
    | None => (r, [])
    | Some cache =>
        let new_app_version := to_app_version_info cache new_state None in
        if decide (new_app_version = to_app_version_info cache previous_state None) then (r, [])
        else
          let dropped := drop_state (state r) in
          let '(r, replies) := notify_version_requesters new_app_version (set_state (HasVersion cache) r) in
          (r, dropped ++ VersionEvent new_app_version :: replies)
    end.

(** [updater_alive]: whether the version checker still receives. *)
Definition get_latest_version (updater_alive : bool) (tx : nat) (r : VersionRouter)
  : VersionRouter * list Effect :=
  if updater_alive then
    ({| state := state r; beta_program := beta_program r;
        version_request_channels := version_request_channels r ++ [tx] |}, [RefreshVersionCheck])
  else (r, [ReplyClosed tx]).

Definition update_application (r : VersionRouter) : VersionRouter * list Effect :=
  match state r with
  | HasVersion cache =>
      match recommended_version_upgrade (version_info cache) (beta_program r) with
      | None => (r, [])
      | Some upgrading_to => (set_state (Downloading cache upgrading_to) r, [SpawnDownloader upgrading_to])
      end
  | _ => (r, [])
  end.

Definition cancel_upgrade (r : VersionRouter) : VersionRouter * list Effect :=
  match state r with
  | Downloading cache _ => (set_state (HasVersion cache) r, drop_state (state r))
  | Downloaded cache _ =>
      let info := to_app_version_info cache (beta_program r) None in
      let '(r, replies) := notify_version_requesters info (set_state (HasVersion cache) r) in
      (r, Aborted :: replies ++ [VersionEvent info])
  | _ => (r, [])
  end.

Definition handle_message (updater_alive : bool) (m : Message) (r : VersionRouter)
  : VersionRouter * list Effect :=
  match m with
  | SetBetaProgram enabled tx => let '(r, es) := set_beta_program enabled r in (r, es ++ [Ack tx])
  | GetLatestVersion tx => get_latest_version updater_alive tx r
  | UpdateApplication tx => let '(r, es) := update_application r in (r, es ++ [Ack tx])
  | CancelUpdate tx => let '(r, es) := cancel_upgrade r in (r, es ++ [Ack tx])
  | GetCacheDir tx => (r, [Ack tx])
  end.

(** [wait_for_update]: never ready unless a download is running. *)
Definition wait_for_update (res : DownloadResult) (r : VersionRouter)
  : option (VersionRouter * option AppVersionInfo * list Effect) :=
  match state r with
  | Downloading cache upgrading_to =>
      Some match res with
           | Verified path =>
               (set_state (Downloaded cache path) r,
                Some {| app_current_version_supported := current_version_supported cache;
                        suggested_upgrade :=
                          Some {| upgrade_version := version upgrading_to;
                                  upgrade_changelog := changelog upgrading_to;
                                  verified_installer_path := Some path |} |}, [])
           | DownloadFailed => (set_state (HasVersion cache) r, None, [])
           | JoinError => (set_state (HasVersion cache) r, None, [Aborted])
           end
  | _ => None
  end.

Inductive RouterEvent : Type :=
| NewVersion (cache : VersionCache)
| UpdateFinished (res : DownloadResult)
| FromDaemon (updater_alive : bool) (m : Message).

(** [None]: the event cannot happen in this state. *)
Definition run_step (e : RouterEvent) (r : VersionRouter) : option (VersionRouter * list Effect) :=
  match e with
  | NewVersion cache =>
      let '(r, info, is_new, dropped) := on_new_version cache r in
      let '(r, replies) := notify_version_requesters info r in
      Some (r, dropped ++ replies ++ (if is_new then [VersionEvent info] else []))
  | UpdateFinished res =>
      '(r, info, dropped) ← wait_for_update res r;
      Some (r, dropped ++ match info with Some info => [VersionEvent info] | None => [] end)
  | FromDaemon updater_alive m => Some (handle_message updater_alive m r)
  end.

Definition router_start (beta_program : bool) : VersionRouter :=
  {| state := NoVersion; beta_program := beta_program; version_request_channels := [] |}.

Inductive router_run : VersionRouter -> list RouterEvent -> VersionRouter -> list Effect -> Prop :=
| router_done r : router_run r [] r []
| router_next r e r' es evs r'' es' :
    run_step e r = Some (r', es) -> router_run r' evs r'' es' ->
    router_run r (e :: evs) r'' (es ++ es').
End router.
