(* ===== verification/VersionUpdateProps.v ===== *)
(** * What is proved about updates

    Rollout thresholds are totally ordered; the versions suggested are the greatest of those offered;
    version information that is not signed by a trusted key, expired or older than what was known when
    it was asked for is never published; and an upgrade is only ever to a newer version. *)

From stdpp Require Import base list strings option numbers sets.
From Stdlib Require Import SpecFloat Sorted.
From S2P Require Import Prelude Version VersionProps VersionUpdate VersionRouter Retry.
Local Open Scope vpn_scope.

(** ** Rollout *)
Lemma SFcompare_antisym a b : SFcompare b a = CompOpp <$> SFcompare a b.
Proof.
  destruct a as [[]|[]| |[] ma ea], b as [[]|[]| |[] mb eb]; unfold SFcompare; try done;
    rewrite (Z.compare_antisym ea eb); destruct (ea ?= eb)%Z; simpl; try done;
    change (Pos.compare_cont Eq ?x ?y) with (x ?= y)%positive;
    rewrite (Pos.compare_antisym ma mb); by destruct (ma ?= mb)%positive.
Qed.

Lemma finite_comparable a b :
  f32_is_finite a = true -> f32_is_finite b = true -> SFcompare a b <> None.
Proof. destruct a as [[]|[]| |[] ma ea], b as [[]|[]| |[] mb eb]; simpl; done. Qed.

(** The type of rollouts is what its documentation says: [try_from] accepts exactly the finite numbers
    from 0 to 1, rollouts are totally ordered, so that comparing them never panics, a complete rollout
    reaches every threshold, and every rollout reaches the threshold [IGNORE]. *)
Theorem rollout_type (x : f32) :
  match Rollout_try_from x with
  | Ok r =>
      fraction r = x /\ f32_is_finite x = true /\ f32_le f32_zero x = true /\ f32_le x f32_one = true
      /\ rollout_ge FULLY_ROLLED_OUT r = true /\ rollout_ge r IGNORE = true
      /\ forall y r', Rollout_try_from y = Ok r' -> Rollout_cmp r r' <> None
  | Err _ => f32_is_finite x = false \/ f32_le f32_zero x = false \/ f32_le x f32_one = false
  end.
Proof.
  unfold Rollout_try_from. destruct (f32_is_finite x) eqn:Hf; simpl; [|by left].
  destruct (f32_le f32_zero x) eqn:H0; simpl; [|by right; left].
  destruct (f32_le x f32_one) eqn:H1; simpl; [|by right; right].
  split_and!; try done.
  - unfold rollout_ge, Rollout_partial_cmp. cbn [fraction FULLY_ROLLED_OUT IGNORE]. unfold f32_le in H1.
    rewrite SFcompare_antisym. by destruct (SFcompare x f32_one) as [[]|].
  - unfold rollout_ge, Rollout_partial_cmp. cbn [fraction FULLY_ROLLED_OUT IGNORE]. unfold f32_le in H0.
    rewrite SFcompare_antisym. by destruct (SFcompare f32_zero x) as [[]|].
  - intros y r'. unfold Rollout_try_from. destruct (f32_is_finite y) eqn:Hy; simpl; [|done].
    destruct (f32_le f32_zero y && f32_le y f32_one); simpl; [|done]. intros [= <-].
    by apply finite_comparable.
Qed.

(** ** The greatest version *)
Lemma max_by_In {A} cmp (l : list A) m : max_by cmp l = Some m -> m ∈ l.
Proof.
  destruct l as [|a l]; [done|]. simpl. intros [= <-].
  assert (forall a, foldl (fun m x => match cmp m x with Gt => m | _ => x end) a l ∈ a :: l) as H; [|apply H].
  clear a. induction l as [|b l IH]; intros a; simpl; [set_solver|].
  destruct (cmp a b); [specialize (IH b) | specialize (IH b) | specialize (IH a)]; set_solver.
Qed.

(** [max_by] on elements that are compared transitively. *)
Lemma max_by_greatest {A} (cmp : A -> A -> comparison) (P : A -> Prop) (l : list A) m :
  (forall a b, P a -> P b -> cmp b a = CompOpp (cmp a b)) ->
  (forall a b c, P a -> P b -> P c -> cmp a b <> Gt -> cmp b c <> Gt -> cmp a c <> Gt) ->
  Forall P l -> max_by cmp l = Some m -> forall x, x ∈ l -> cmp x m <> Gt.
Proof.
  intros Hanti Htrans. destruct l as [|a l]; [done|]. rewrite Forall_cons. intros [Ha Hl]. simpl.
  intros [= <-]. assert (forall x, P x -> cmp x x <> Gt) as Hrefl.
  { intros x Hx. specialize (Hanti x x Hx Hx). by destruct (cmp x x). }
  revert a Ha. induction Hl as [|b l Hb Hl IH]; intros a Ha x Hx; simpl in *.
  - apply list_elem_of_singleton in Hx as ->. by apply Hrefl.
  - set (a' := match cmp a b with Gt => a | _ => b end).
    assert (P a') as Ha' by (unfold a'; by destruct (cmp a b)).
    set (m := foldl _ a' l). assert (P m) as Hm.
    { assert (m ∈ a' :: l) as Hin by (apply (max_by_In cmp (a' :: l)); done).
      rewrite elem_of_cons in Hin. rewrite Forall_forall in Hl. destruct Hin as [->|]; [done | by apply Hl]. }
    assert (cmp a' m <> Gt) as Ham by (apply (IH a' Ha'); set_solver).
    assert (cmp a a' <> Gt /\ cmp b a' <> Gt) as [Haa Hba].
    { unfold a'. specialize (Hanti a b Ha Hb). destruct (cmp a b) eqn:E; rewrite ?E; split; try done;
        try (by apply Hrefl); by rewrite Hanti. }
    rewrite !elem_of_cons in Hx. destruct Hx as [->|[->|Hx]].
    + by apply (Htrans a a' m).
    + by apply (Htrans b a' m).
    + apply (IH a' Ha'). set_solver.
Qed.

(** Versions that are not development builds are totally ordered. *)
Lemma version_cmp_released a b :
  is_dev (version a) = false -> is_dev (version b) = false ->
  partial_cmp (version a) (version b) = Some (version_cmp a b).
Proof.
  unfold version_cmp, is_dev. intros Ha%bool_decide_eq_false Hb%bool_decide_eq_false.
  destruct (partial_cmp (version a) (version b)) eqn:E; [done|]. exfalso.
  apply partial_cmp_None in E as (_&_&_&h&k&Hh&_).
  apply Ha. by rewrite Hh.
Qed.

Definition version_le (a b : Version) : Prop := a = b \/ version_lt a b.

Lemma version_cmp_le a b :
  is_dev (version a) = false -> is_dev (version b) = false ->
  version_cmp a b <> Gt <-> version_le (version a) (version b).
Proof.
  intros Ha Hb. unfold version_le, version_lt. rewrite <- partial_cmp_Eq, (version_cmp_released a b) by done.
  destruct (version_cmp a b); naive_solver.
Qed.

Lemma version_le_trans a b c : version_le a b -> version_le b c -> version_le a c.
Proof.
  unfold version_le. intros [->|Hab] [->|Hbc]; auto. right. by apply (version_lt_trans a b c).
Qed.

Lemma version_gt_lt a b : version_gt a b = true <-> version_lt b a.
Proof.
  unfold version_gt, version_lt. rewrite (partial_cmp_antisym a b).
  destruct (partial_cmp a b) as [[]|]; simpl; naive_solver.
Qed.

Lemma max_by_version (l : list Metadata) m :
  Forall (fun m => is_dev (version m) = false) l -> max_by version_cmp l = Some m ->
  m ∈ l /\ forall x, x ∈ l -> version_le (version x) (version m).
Proof.
  intros Hl Hm. pose proof (max_by_In _ _ _ Hm) as Hin. split; [done|]. intros x Hx.
  rewrite Forall_forall in Hl. apply version_cmp_le; [auto..|].
  refine (max_by_greatest version_cmp (fun m => is_dev (version m) = false) l m _ _ _ Hm x Hx).
  - intros a b Ha Hb. pose proof (partial_cmp_antisym (version a) (version b)) as E.
    rewrite !version_cmp_released in E by done. by inversion E.
  - intros a b c Ha Hb Hc. rewrite !version_cmp_le by done. apply version_le_trans.
  - by apply Forall_forall.
Qed.

Lemma max_by_None {A} cmp (l : list A) : max_by cmp l = None <-> l = [].
Proof. by destruct l. Qed.

(** ** The suggested versions *)
Lemma try_collect_Ok {A E} (l : list (result A E)) (k : list A) :
  try_collect l = Ok k <-> l = map Ok k.
Proof.
  revert k. induction l as [|r l IH]; intros k; simpl.
  - destruct k; naive_solver.
  - rewrite bind_result_Ok. setoid_rewrite bind_result_Ok. split.
    + intros (a&->&l'&Hl&[= <-]). apply IH in Hl as ->. done.
    + destruct k as [|a k]; [done|]. intros [= -> Hl]. exists a. split; [done|]. exists k. by rewrite IH.
Qed.

Lemma try_collect_Err {A E} (l : list (result A E)) e : try_collect l = Err e -> Err e ∈ l.
Proof.
  induction l as [|r l IH]; simpl; [done|]. rewrite bind_result_Err. intros [->|(a&->&H)]; [set_solver|].
  apply bind_result_Err in H as [H|(k&_&H)]; [|done]. apply IH in H. set_solver.
Qed.

Section suggested.
Context (hex_decode : text -> option (list Z)) (params : VersionParameters) (response : Response).

(** A release that is rolled out to this installation and has an installer for it. *)
Definition offered (m : result Metadata VersionInfoError) : Prop :=
  exists r, r ∈ releases response /\ rolled_out params r = true
            /\ release_metadata hex_decode params r = Some m.

Lemma offered_elem m :
  m ∈ omap (release_metadata hex_decode params) (List.filter (rolled_out params) (releases response))
  <-> offered m.
Proof.
  rewrite list_elem_of_omap. unfold offered. setoid_rewrite list_elem_of_In. setoid_rewrite filter_In.
  naive_solver.
Qed.

Lemma offered_released m : offered (Ok m) -> is_dev (version m) = false.
Proof.
  intros (r&_&Hr&Hm). apply andb_true_iff in Hr as [_ Hr%negb_true_iff].
  unfold release_metadata in Hm. destruct (installers r) as [|i l].
  - destruct (allow_empty params); naive_solver.
  - apply bind_Some in Hm as ([j i']&_&[= Hm]).
    apply bind_result_Ok in Hm as (h&_&[= <-]). done.
Qed.

Lemma available_exact l :
  available_versions hex_decode params response = Ok l ->
  (forall m, m ∈ l <-> offered (Ok m)) /\ (forall e, ~ offered (Err e)).
Proof.
  unfold available_versions. rewrite try_collect_Ok. intros Hl.
  setoid_rewrite <- offered_elem. rewrite Hl. split.
  - intros m. rewrite list_elem_of_fmap. naive_solver.
  - intros e. rewrite list_elem_of_fmap. naive_solver.
Qed.

Lemma elem_of_filter_b {A} (f : A -> bool) l x : x ∈ List.filter f l <-> x ∈ l /\ f x = true.
Proof. rewrite !list_elem_of_In. apply filter_In. Qed.

(** The versions suggested to a user.  A response that lists a version twice is refused, as is one with
    a malformed checksum among the installers offered to this machine, or without a stable release;
    otherwise the stable version is the greatest stable one offered, and the beta version the greatest
    beta offered if that is newer than the stable version, and none if no beta is. *)
Theorem version_info_exact :
  match try_from_response hex_decode params response with
  | Err DuplicateVersions => ~ NoDup (map release_version (releases response))
  | Err NoStableVersion =>
      NoDup (map release_version (releases response))
      /\ forall m, offered (Ok m) -> pre_stable (version m) <> None
  | Err e => NoDup (map release_version (releases response)) /\ offered (Err e)
  | Ok info =>
      NoDup (map release_version (releases response)) /\ (forall e, ~ offered (Err e))
      /\ offered (Ok (stable info)) /\ pre_stable (version (stable info)) = None
      /\ (forall m, offered (Ok m) -> pre_stable (version m) = None ->
                    version_le (version m) (version (stable info)))
      /\ match beta info with
         | Some b => offered (Ok b) /\ is_beta (version b) = true
                     /\ version_lt (version (stable info)) (version b)
                     /\ forall m, offered (Ok m) -> is_beta (version m) = true ->
                          version_lt (version (stable info)) (version m) ->
                          version_le (version m) (version b)
         | None => forall m, offered (Ok m) -> is_beta (version m) = true ->
                             ~ version_lt (version (stable info)) (version m)
         end
  end.
Proof.
  unfold try_from_response. case_bool_decide as Hnd; simpl; [|done].
  destruct (available_versions hex_decode params response) as [l|e] eqn:El; simpl.
  2: { assert (offered (Err e)) as He by (apply offered_elem, try_collect_Err; exact El).
       destruct e; try done; destruct He as (r&_&_&Hm); exfalso; unfold release_metadata, decode_sha256 in Hm;
         repeat destruct_match_in Hm; simplify_eq/=;
         apply bind_Some in Hm as ([? ?]&_&Hm); repeat destruct_match_in Hm; simplify_eq/=. }
  destruct (available_exact l El) as [Hl Hne].
  assert (forall f, Forall (fun m => is_dev (version m) = false) (List.filter f l)) as Hdev.
  { intros f. apply Forall_forall. intros m [Hm _]%elem_of_filter_b. by apply offered_released, Hl. }
  destruct (max_by version_cmp _) as [s|] eqn:Es.
  2: { split; [done|]. rewrite max_by_None, filter_nil_iff in Es. intros m Hm Hs.
       specialize (Es m (proj2 (Hl m) Hm)). by rewrite bool_decide_eq_false in Es. }
  apply max_by_version in Es as [Hs Hmax]; [|done]. rewrite elem_of_filter_b, bool_decide_eq_true in Hs.
  destruct Hs as [Hs Hst]. cbn [stable beta]. split_and!; try done; [by apply Hl | |].
  { intros m Hm Hms. apply Hmax. rewrite elem_of_filter_b, bool_decide_eq_true, Hl. done. }
  destruct (max_by version_cmp (List.filter _ (List.filter _ l))) as [b|] eqn:Eb.
  - apply max_by_version in Eb as [Hb Hbmax].
    + rewrite !elem_of_filter_b, version_gt_lt in Hb. destruct Hb as [[Hb Hbb] Hgt].
      split_and!; try done; [by apply Hl|]. intros m Hm Hmb Hlt. apply Hbmax.
      by rewrite !elem_of_filter_b, version_gt_lt, Hl.
    + apply Forall_forall. intros m [Hm _]%elem_of_filter_b.
      specialize (Hdev (fun m => is_beta (version m))). rewrite Forall_forall in Hdev. by apply Hdev.
  - rewrite max_by_None, filter_nil_iff in Eb. intros m Hm Hmb Hlt%version_gt_lt.
    rewrite Eb in Hlt; [done|]. by rewrite elem_of_filter_b, Hl.
Qed.
End suggested.

(** ** Only what is verified is published *)
Section publishing.
Context `{MetadataCodec} (api : ApiContext).

(** The response [resp] was read from bytes that a trusted key has signed, before it expired. *)
Definition authentic (bytes : list Z) (now : Z) (resp : Response) : Prop :=
  exists sigs data key sig canon data',
    parse_signed bytes = Some (sigs, data) /\ (Some key, sig) ∈ sigs /\ key ∈ trusted_keys api
    /\ to_canon data = Some canon /\ verify_strict key canon sig = true
    /\ from_slice canon = Some data' /\ from_value data' = Some resp
    /\ (now < metadata_expiry resp)%Z.

Definition params_of (lowest : Z) : VersionParameters :=
  {| param_architecture := api_architecture api; param_rollout := api_rollout api;
     allow_empty := api_linux api; lowest_metadata_version := lowest |}.

(** What a cache says comes from the reply to attempt [a]. *)
Definition vouched_by (a : Attempt) (lowest : Z) (c : VersionCache) : Prop :=
  exists headers tag r bytes resp,
    reply a headers tag = Ok r /\ body r = Ok bytes /\ authentic bytes (at_verification (clock a)) resp
    /\ (lowest <= metadata_version resp)%Z
    /\ try_from_response (hex_decode api) (params_of lowest) resp = Ok (version_info c)
    /\ current_version_supported c = is_version_supported (APP_VERSION api) resp
    /\ cache_metadata_version c = metadata_version resp.

Definition same_content (c d : VersionCache) : Prop :=
  version_info c = version_info d /\ current_version_supported c = current_version_supported d
  /\ cache_metadata_version c = cache_metadata_version d.

Lemma trusted_signature_sound keys sigs key sig :
  trusted_signature keys sigs = Some (key, sig) -> (Some key, sig) ∈ sigs /\ key ∈ keys.
Proof.
  induction sigs as [|[[k|] s] sigs IH]; simpl; [done| |].
  - case_bool_decide; [intros [= <- <-]; set_solver | intros Hs%IH; set_solver].
  - intros Hs%IH. set_solver.
Qed.

Lemma verify_sound keys bytes now min v :
  trusted_keys api = keys -> deserialize_and_verify_at_time keys bytes now min = Ok v ->
  authentic bytes now (signed v) /\ (min <= metadata_version (signed v))%Z.
Proof.
  unfold deserialize_and_verify_at_time, deserialize_and_verify, authentic. intros <-.
  rewrite bind_result_Ok. intros (p&Hp&Hv).
  destruct (parse_signed bytes) as [[sigs data]|] eqn:Hparse; [|done].
  destruct (trusted_signature _ sigs) as [[key sig]|] eqn:Hsig; [|done].
  destruct (to_canon data) as [canon|] eqn:Hcanon; [|done].
  destruct (verify_strict key canon sig) eqn:Hver; [|done]. simpl in Hp.
  destruct (from_slice canon) as [data'|] eqn:Hslice; [|done]. injection Hp as <-. simpl in Hv.
  destruct (from_value data') as [resp|] eqn:Hval; [|done].
  destruct (Z.leb_spec (metadata_expiry resp) now); [done|].
  destruct (Z.ltb_spec (metadata_version resp) min); [done|]. injection Hv as <-. simpl.
  apply trusted_signature_sound in Hsig as [Hin Hkey]. split; [|done].
  by exists sigs, data, key, sig, canon, data'.
Qed.

(** A check ends with content of the cache it started from, or with content of its reply. *)
Lemma check_sound a prev c :
  version_check_inner api a prev = Some (Ok c) ->
  (exists p, prev = Some p /\ same_content c p)
  \/ vouched_by a (from_option cache_metadata_version MIN_VERIFY_METADATA_VERSION prev) c.
Proof.
  assert (forall lowest headers tag response last,
            version_check (hex_decode api) (trusted_keys api) (APP_VERSION api) (api_linux api)
              (at_verification (clock a)) (reply a headers tag) (api_architecture api) lowest
              (api_rollout api) tag = Ok (Some response) ->
            vouched_by a lowest
              {| cache_version := APP_VERSION api;
                 current_version_supported := avr_current_version_supported response;
                 version_info := avr_version_info response;
                 last_platform_header_check := last;
                 cache_metadata_version := avr_metadata_version response;
                 etag := avr_etag response |}) as Hfresh.
  { intros lowest headers tag response last. unfold version_check. rewrite bind_result_Ok.
    intros (r&Hr&Hc). destruct (_ && _); [done|]. destruct (body r) as [bytes|] eqn:Hb; [|done].
    apply bind_result_Ok in Hc as (v&Hv&Hc). apply bind_result_Ok in Hc as (info&Hinfo&[= <-]).
    destruct (deserialize_and_verify_at_time _ _ _ _) as [v'|] eqn:Ev; [|done]. injection Hv as ->.
    destruct (verify_sound _ _ _ _ _ eq_refl Ev) as [Hauth Hmin].
    destruct (try_from_response _ _ _) as [info'|] eqn:Ei; [|done]. injection Hinfo as ->.
    by exists headers, tag, r, bytes, (signed v). }
  unfold version_check_inner. destruct prev as [p|]; cbn [from_option].
  - destruct (version_check _ _ _ _ _ _ _ _ _ _) as [[response|]|] eqn:E; simpl; intros [= <-].
    + right. exact (Hfresh _ _ _ _ _ E).
    + left. by exists p.
  - destruct (version_check _ _ _ _ _ _ _ _ _ _) as [[response|]|] eqn:E; simpl; intros [= <-].
    right. exact (Hfresh _ _ _ _ _ E).
Qed.

Lemma do_version_check_sound attempts prev :
  exists k, do_version_check api attempts prev = version_check_inner api (attempts k) prev.
Proof.
  unfold do_version_check.
  destruct (retry_constant (fun k => version_check_inner api (attempts k) prev)
              (fun k r => negb (offline (attempts k)) && is_network_error r) 0 IMMEDIATE_RETRIES 0 0
              (S IMMEDIATE_RETRIES)) as (r&n&slept&Hr&_&Hrn&_); [lia|lia|by vm_compute|].
  rewrite Z.add_0_l in Hr. unfold ConstantInterval_new. rewrite Hr. simpl. by exists (pred n).
Qed.

(** The requests of an event. *)
Definition attempt_of (e : UpdaterEvent) (a : Attempt) : Prop :=
  match e with
  | EvForeground attempts => exists k, attempts k = a
  | EvBackground _ b => b = a
  | _ => False
  end.

(** The content of [c] was known at the start or comes with one of the events. *)
Definition vouched (last : option VersionCache) (es : list UpdaterEvent) (c : VersionCache) : Prop :=
  (exists p, last = Some p /\ same_content c p)
  \/ exists e a lowest, e ∈ es /\ attempt_of e a /\ vouched_by a lowest c.

Definition known (u : VersionUpdater) (c : VersionCache) : Prop :=
  last_app_version_info u = Some c \/ version_check_fg u = Some (Some c) \/ version_check_bg u = Some (Some c).

(** The content of what is kept after a check is that of the response or of what was kept before. *)
Lemma handle_version_response_content last response last' sent :
  handle_version_response last response = (last', sent) ->
  (forall c, last' = Some c \/ c ∈ sent ->
    (exists d, response = Ok d /\ same_content c d) \/ (exists d, last = Some d /\ same_content c d))
  /\ Forall (fun c => last' = Some c) sent.
Proof.
  assert (forall new, (exists d, last = Some d /\ same_content (ignore_cache_if_same_version last new) d)
                      \/ same_content (ignore_cache_if_same_version last new) new) as Hsame.
  { intros new. unfold ignore_cache_if_same_version. destruct last as [d|]; [|by right].
    destruct (_ =? _)%Z; [left; by exists d | by right]. }
  unfold handle_version_response. destruct response as [new|e].
  - intros [= <- <-]. split; [|by apply Forall_singleton].
    intros c Hc. assert (c = ignore_cache_if_same_version last new) as -> by set_solver.
    destruct (Hsame new) as [?|?]; [by right | left; by exists new].
  - destruct last as [d|]; intros [= <- <-].
    + split; [|by apply Forall_singleton].
      intros c Hc. right. assert (c = ignore_cache_if_same_version (Some d) d) as -> by set_solver.
      destruct (Hsame d) as [?|?]; [done | by exists d].
    + split; [|by constructor]. intros c [?|?]; [done | set_solver].
Qed.

Lemma updater_step_known (P : VersionCache -> Prop) u e u' sent :
  (forall c d, same_content c d -> P d -> P c) ->
  (forall a lowest c, attempt_of e a -> vouched_by a lowest c -> P c) ->
  (forall c, known u c -> P c) -> updater_step api u e = Some (u', sent) ->
  (forall c, known u' c -> P c) /\ Forall P sent.
Proof.
  intros Hsame Hev Hu.
  assert (forall prev a response last' sent',
            attempt_of e a -> (forall p, prev = Some p -> P p) ->
            Some response = version_check_inner api a prev \/ (exists err, response = Err err) ->
            handle_version_response (last_app_version_info u) response = (last', sent') ->
            (forall c, last' = Some c -> P c) /\ Forall P sent') as Hdone.
  { intros prev a response last' sent' Ha Hprev Hr Hh.
    apply handle_version_response_content in Hh as [Hc _].
    assert (forall c, last' = Some c \/ c ∈ sent' -> P c) as Hall.
    { intros c [(d&->&Hcd)|(d&Hd&Hcd)]%Hc; apply (Hsame c d Hcd).
      - destruct Hr as [Hr|(err&?)]; [|done]. symmetry in Hr.
        apply check_sound in Hr as [(p&Hp&Hpd)|Hv]; [apply (Hsame d p Hpd); auto | by eapply Hev].
      - apply Hu. by left. }
    split; [|apply Forall_forall]; auto. }
  assert (forall (P0 : VersionCache -> Prop) u0,
            (forall c, last_app_version_info u0 = Some c -> P0 c) ->
            (forall c, version_check_fg u0 = Some (Some c) -> P0 c) ->
            (forall c, version_check_bg u0 = Some (Some c) -> P0 c) -> forall c, known u0 c -> P0 c) as Hk.
  { unfold known. naive_solver. }
  destruct e as [| |attempts|available a]; simpl.
  - intros [= <- <-]. split; [|by constructor].
    destruct (version_check_fg u) eqn:Efg; [done|]. apply Hk; simpl; intros c Hc; apply Hu;
      unfold known; naive_solver.
  - destruct (run_next_check_bg u); [|done]. intros [= <- <-]. split; [|by constructor].
    apply Hk; simpl; intros c Hc; apply Hu; unfold known; naive_solver.
  - intros (prev&Hprev&(response&Hr&Hstep)%bind_Some)%bind_Some.
    destruct (do_version_check_sound attempts prev) as (k&Ek). rewrite Ek in Hr.
    destruct (handle_version_response _ _) as [last' sent'] eqn:Hh. injection Hstep as <- <-.
    apply (Hdone prev (attempts k)) in Hh as [Hl Hs]; [|by eexists| |by left].
    2: { intros p ->. apply Hu. unfold known. auto. }
    split; [|done]. apply Hk; simpl; try done. intros c Hc. apply Hu. unfold known. auto.
  - intros (prev&Hprev&(response&Hr&Hstep)%bind_Some)%bind_Some.
    destruct (handle_version_response _ _) as [last' sent'] eqn:Hh. injection Hstep as <- <-.
    apply (Hdone prev a) in Hh as [Hl Hs]; [|done| |].
    2: { intros p ->. apply Hu. unfold known. auto. }
    2: { unfold do_version_check_in_background in Hr. destruct available; [by left | right; naive_solver]. }
    split; [|done]. apply Hk; simpl; try done. intros c Hc. apply Hu. unfold known. auto.
Qed.

(** C22. Whatever checks run, overlap, fail and are retried, every piece of version information passed on
    to the rest of the daemon was known when the task started, or is what [try_from_response] selects
    from a response that arrived in this run, signed by a trusted key over exactly its canonical bytes
    and not expired when it was verified. *)
Theorem updates_verified last es u' sent :
  updater_run api (updater_start last) es u' sent -> forall c, c ∈ sent -> vouched last es c.
Proof.
  intros Hrun c Hc. assert (forall c, known (updater_start last) c -> vouched last es c) as Hk.
  { intros d [Hd|[Hd|Hd]]; [|done..]. left. by exists d. }
  assert (forall c d, same_content c d -> vouched last es d -> vouched last es c) as Hsame.
  { unfold same_content. intros d d' Hd [(p&Hp&Hd')|(e&a&lowest&He&Ha&Hv)].
    - left. exists p. unfold same_content in *. split; [done|]. intuition congruence.
    - right. exists e, a, lowest. split_and!; [done..|]. unfold vouched_by in *.
      destruct Hd as (->&->&->). done. }
  assert (forall e a lowest d, e ∈ es -> attempt_of e a -> vouched_by a lowest d -> vouched last es d) as Hev.
  { intros e a lowest d He Ha Hd. right. by exists e, a, lowest. }
  revert Hsame Hev Hk c Hc. generalize (vouched last es). intros P Hsame Hev Hk.
  induction Hrun as [u|u e u1 sent es u2 sent' Hstep Hrun IH]; intros c Hc; [set_solver|].
  destruct (updater_step_known P u e u1 sent) as [Hk1 Hs]; try done.
  { intros a lowest d. apply Hev. set_solver. }
  rewrite Forall_forall in Hs. apply elem_of_app in Hc as [Hc|Hc]; [by apply Hs|].
  apply IH; try done. intros e' a lowest d He'. apply Hev. set_solver.
Qed.
(** ** The version of the metadata *)
Definition floor (last : option VersionCache) : Z :=
  from_option cache_metadata_version MIN_VERIFY_METADATA_VERSION last.

Lemma check_floor a prev c :
  version_check_inner api a prev = Some (Ok c) -> (floor prev <= cache_metadata_version c)%Z.
Proof.
  intros [(p&->&_&_&->)|(headers&tag&r&bytes&resp&_&_&_&Hle&_&_&->)]%check_sound; [done | exact Hle].
Qed.

Lemma handle_version_response_floor last response last' sent :
  handle_version_response last response = (last', sent) ->
  (forall c, response = Ok c -> (floor last <= cache_metadata_version c)%Z) ->
  (sent = [] /\ last' = last)
  \/ exists c, sent = [c] /\ last' = Some c /\ (floor last <= cache_metadata_version c)%Z.
Proof.
  assert (forall new, cache_metadata_version (ignore_cache_if_same_version last new)
                      = cache_metadata_version new) as Hmv.
  { intros new. unfold ignore_cache_if_same_version. destruct last as [d|]; [|done].
    by destruct (Z.eqb_spec (cache_metadata_version d) (cache_metadata_version new)). }
  unfold handle_version_response. destruct response as [new|e].
  - intros [= <- <-] Hc. right. eexists. split_and!; [done..|]. rewrite Hmv. by apply Hc.
  - destruct last as [d|]; intros [<- <-]%pair_equal_spec _; [|by left].
    right. eexists. split_and!; [done..|]. by rewrite Hmv.
Qed.

(** At most one check is running. *)
Definition lone (u : VersionUpdater) : Prop := version_check_fg u = None \/ version_check_bg u = None.

Definition up_to_date (u : VersionUpdater) : Prop :=
  lone u
  /\ (forall p, version_check_fg u = Some p -> p = last_app_version_info u)
  /\ (forall p, version_check_bg u = Some p -> p = last_app_version_info u).

Lemma updater_step_floor u e u' sent :
  up_to_date u -> lone u' -> updater_step api u e = Some (u', sent) ->
  up_to_date u'
  /\ ((sent = [] /\ last_app_version_info u' = last_app_version_info u)
      \/ exists c, sent = [c] /\ last_app_version_info u' = Some c
                   /\ (floor (last_app_version_info u) <= cache_metadata_version c)%Z).
Proof.
  intros (Hlone&Hfg&Hbg) Hlone'. destruct e as [| |attempts|available a]; simpl.
  - intros [= <- <-]. destruct (version_check_fg u) eqn:Efg; (split; [|by left]); unfold up_to_date;
      simpl; [by rewrite Efg|]. split_and!; naive_solver.
  - destruct (run_next_check_bg u); [|done]. intros [= <- <-]. split; [|by left]. unfold up_to_date; simpl.
    split_and!; naive_solver.
  - intros (prev&Hprev&(response&Hr&Hstep)%bind_Some)%bind_Some.
    destruct (do_version_check_sound attempts prev) as (k&Ek). rewrite Ek in Hr.
    rewrite (Hfg _ Hprev) in Hr.
    destruct (handle_version_response _ _) as [last' sent'] eqn:Hh. injection Hstep as <- <-.
    apply handle_version_response_floor in Hh; [|intros c ->; by apply (check_floor (attempts k))].
    split; [|done]. unfold up_to_date; simpl. split_and!; [by left | done|].
    destruct Hlone as [H0|H0]; [by rewrite H0 in Hprev | by rewrite H0].
  - intros (prev&Hprev&(response&Hr&Hstep)%bind_Some)%bind_Some.
    unfold do_version_check_in_background in Hr. rewrite (Hbg _ Hprev) in Hr.
    destruct (handle_version_response _ _) as [last' sent'] eqn:Hh. injection Hstep as <- <-.
    apply handle_version_response_floor in Hh.
    2: { intros c ->. destruct available; [by apply (check_floor a) | done]. }
    split; [|done]. unfold up_to_date; simpl. split_and!; [by right| |done].
    destruct Hlone as [H0|H0]; [by rewrite H0 | by rewrite H0 in Hprev].
Qed.

(** As long as the foreground check and the background check do not run at the same time, version
    information is never replaced by older information, signed or not: the metadata versions passed on
    only grow, starting from that of the cache. *)
Theorem metadata_monotone last es u' sent :
  updater_run api (updater_start last) es u' sent ->
  (forall k u1 s1, updater_run api (updater_start last) (take k es) u1 s1 -> lone u1) ->
  Sorted Z.le (floor last :: map cache_metadata_version sent).
Proof.
  assert (up_to_date (updater_start last)) as Hu by (by split_and!; [left|..]).
  change (floor last) with (floor (last_app_version_info (updater_start last))).
  revert Hu. generalize (updater_start last). intros u Hu Hrun Hlone.
  induction Hrun as [u|u e u1 sent es u2 sent' Hstep Hrun IH]; [by repeat constructor|].
  destruct (updater_step_floor u e u1 sent Hu) as [Hu1 Hsent]; [|done|].
  { apply (Hlone 1 u1 (sent ++ [])). simpl. rewrite take_0. by repeat econstructor. }
  assert (Sorted Z.le (floor (last_app_version_info u1) :: map cache_metadata_version sent')) as Hs.
  { apply IH; [done|]. intros k u3 s3 H3. apply (Hlone (S k) u3 (sent ++ s3)). by econstructor. }
  destruct Hsent as [[-> Hl]|(c&->&Hl&Hle)]; rewrite Hl in Hs; simpl; [done|].
  constructor; [exact Hs | by constructor].
Qed.
End publishing.

(** ** A run *)
(** A stand-in for JSON and ed25519: a message is the key, the signature, and the version, expiry and
    year of the release it announces; a signature is the sum of the key and what it signs. *)
#[local] Instance codec_example : MetadataCodec := {|
  Json := list Z; VerifyingKey := Z; Signature := Z; key_eq_dec := _;
  parse_signed := fun l => match l with k :: s :: d => Some ([(Some k, s)], d) | _ => None end;
  to_canon := Some;
  verify_strict := fun k d s => (s =? k + foldr Z.add 0 d)%Z;
  from_slice := Some;
  from_value := fun d =>
    match d with
    | [v; e; y] =>
        Some {| metadata_version := v; metadata_expiry := e;
                releases := [{| release_version := {| year := y; incremental := 1; pre_stable := None; dev := None |};
                                release_changelog := []; installers := []; rollout := FULLY_ROLLED_OUT |}] |}
    | _ => None
    end |}.

Definition released (y : Z) : Version := {| year := y; incremental := 1; pre_stable := None; dev := None |}.

Definition api_example : ApiContext :=
  {| APP_VERSION := released 2024; api_linux := true; api_architecture := X86; api_rollout := SUPPORTED_VERSION;
     trusted_keys := [7%Z]; hex_decode := fun _ => None |}.

Definition attempt_example (r : result HttpResponse RestError) : Attempt :=
  {| clock := {| at_request := 0; at_verification := 10; at_completion := 20 |};
     reply := fun _ _ => r; offline := false |}.

(** A reply signed with key 7. *)
Definition signed_reply (mv y : Z) : result HttpResponse RestError :=
  Ok {| status := 200; http_etag := Some []; body := Ok [7; 7 + mv + 100 + y; mv; 100; y]%Z |}.

Definition info_example (y : Z) : VersionInfo :=
  {| stable := {| version := released y; urls := []; size := 0; changelog := []; sha256 := replicate 32 0%Z |};
     beta := None |}.

Definition cache_example (mv y : Z) : VersionCache :=
  {| cache_version := released 2024; current_version_supported := false; version_info := info_example y;
     last_platform_header_check := 20; cache_metadata_version := mv; etag := Some [] |}.

Definition update_events : list UpdaterEvent :=
  [EvTimer; EvBackground true (attempt_example (signed_reply 3 2026));
   EvTimer; EvBackground true (attempt_example (signed_reply 2 2025))].

Ltac run_updater :=
  repeat (eapply updater_next; [vm_compute; reflexivity|]); apply updater_done.

Lemma update_run :
  exists u', updater_run api_example (updater_start None) update_events u'
               ([cache_example 3 2026] ++ [cache_example 3 2026]).
Proof.
  eexists. unfold update_events. change (?a ++ ?b) with ([] ++ (a ++ ([] ++ (b ++ [])))).
  run_updater.
Qed.

Lemma updates_verified_witness : vouched api_example None update_events (cache_example 3 2026).
Proof.
  destruct update_run as [u' Hrun].
  apply (updates_verified api_example None update_events u' _ Hrun). set_solver.
Defined.

Lemma metadata_monotone_witness :
  Sorted Z.le (floor None :: map cache_metadata_version ([cache_example 3 2026] ++ [cache_example 3 2026])).
Proof.
  destruct update_run as [u' Hrun].
  apply (metadata_monotone api_example None update_events u' _ Hrun).
  clear Hrun. intros k u1 s1 Hk.
  assert (lone u1 /\ version_check_fg u1 = None) as [? ?]; [|done].
  assert (version_check_fg (updater_start None) = None) as H0 by done.
  assert (Forall (fun e => match e with EvRefresh | EvForeground _ => False | _ => True end) (take k update_events))
    as Hes by (apply Forall_take; by repeat constructor).
  induction Hk as [u|u e u2 s es u3 s' Hstep _ IH]; [by split; [left|]|].
  apply Forall_cons in Hes as [He Hes]. apply IH; [|done].
  destruct e as [| |attempts|available a]; try done; simpl in Hstep.
  - destruct (run_next_check_bg u); [|done]. by injection Hstep as <- <-.
  - apply bind_Some in Hstep as (prev&_&Hstep). apply bind_Some in Hstep as (r&_&Hstep).
    destruct (handle_version_response _ _). by injection Hstep as <- <-.
Defined.

(** When both checks run, the guard against older metadata does not hold: a background check is started
    while version 1 is known; a client's check then learns of version 3; the reply to the background
    check, signed but of version 2, is accepted and replaces version 3. *)
Theorem rollback_by_overlap :
  exists u', updater_run api_example (updater_start (Some (cache_example 1 2024)))
    [EvTimer; EvRefresh; EvForeground (fun _ => attempt_example (signed_reply 3 2026));
     EvBackground true (attempt_example (signed_reply 2 2025))]
    u' ([cache_example 3 2026] ++ [cache_example 2 2025]).
Proof.
  eexists. change (?a ++ ?b) with ([] ++ ([] ++ (a ++ (b ++ [])))). run_updater.
Qed.
