(* ===== verification/VersionRouterProps.v ===== *)
(** * What is proved about upgrades

    The router never suggests or downloads anything but a newer version, an installer is announced with
    the version it installs except in one case, and every client that asks for the latest version gets
    one answer. *)

From stdpp Require Import base list strings option numbers sets.
From S2P Require Import Prelude Version VersionProps VersionUpdate VersionRouter VersionUpdateProps.

Section router.
Context (VERSION : Version).
(** Where the installer of a version is stored. *)
Context (path_of : Version -> text).

Abbreviation recommended r c := (recommended_version_upgrade VERSION (version_info c) (beta_program r)).

(** A download that succeeds yields the installer of the version that was asked for. *)
Definition honest (e : RouterEvent) (r : VersionRouter) : Prop :=
  forall c m p, state r = Downloading c m -> e = UpdateFinished (Verified p) -> p = path_of (version m).

Inductive reachable : VersionRouter -> Prop :=
| reach_start b : reachable (router_start b)
| reach_step r e r' es :
    reachable r -> honest e r -> run_step VERSION e r = Some (r', es) -> reachable r'.

(** What is being downloaded, or has been, is what is recommended. *)
Definition router_ok (r : VersionRouter) : Prop :=
  match state r with
  | Downloading c m =>
      exists m', recommended r c = Some m' /\ version m = version m' /\ changelog m = changelog m'
  | Downloaded c p => exists m', recommended r c = Some m' /\ p = path_of (version m')
  | _ => True
  end.

Definition announced (es : list Effect) (info : AppVersionInfo) : Prop :=
  VersionEvent info ∈ es \/ exists tx, ReplyVersion tx info ∈ es.

Lemma recommended_newer info b m :
  recommended_version_upgrade VERSION info b = Some m -> version_lt VERSION (version m).
Proof.
  unfold recommended_version_upgrade. destruct (version_gt _ VERSION) eqn:E; [|done].
  intros [= <-]. by apply version_gt_lt.
Qed.

Lemma suggested_newer c b path s :
  suggested_upgrade (to_app_version_info VERSION c b path) = Some s ->
  version_lt VERSION (upgrade_version s) /\ verified_installer_path s = path.
Proof. intros (m&Hm&->)%fmap_Some. split; [|done]. exact (recommended_newer _ _ _ Hm). Qed.

Lemma same_suggestion c c' b b' path m :
  to_app_version_info VERSION c b path = to_app_version_info VERSION c' b' path ->
  recommended_version_upgrade VERSION (version_info c) b = Some m ->
  exists m', recommended_version_upgrade VERSION (version_info c') b' = Some m'
             /\ version m = version m' /\ changelog m = changelog m'.
Proof.
  unfold to_app_version_info. intros [= _ E] Hm. rewrite Hm in E. simpl in E.
  destruct (recommended_version_upgrade VERSION (version_info c') b') as [m'|]; [|done].
  exists m'. naive_solver.
Qed.

Lemma announced_map info info' l es :
  announced (map (fun tx => ReplyVersion tx info') l ++ es) info -> info = info' \/ announced es info.
Proof.
  unfold announced. intros [H|[tx H]]; apply elem_of_app in H as [H|H]; [|by auto| |by eauto];
    apply list_elem_of_fmap in H as (t&Ht&_); [done|]. left. by injection Ht.
Qed.

Lemma announced_event info info' es :
  announced (VersionEvent info' :: es) info -> info = info' \/ announced es info.
Proof. unfold announced. set_solver. Qed.

Lemma announced_other e es info :
  match e with VersionEvent _ | ReplyVersion _ _ => False | _ => True end ->
  announced (e :: es) info -> announced es info.
Proof. unfold announced. destruct e; set_solver. Qed.

Lemma announced_nil info : ~ announced [] info.
Proof. unfold announced. set_solver. Qed.

Lemma announced_drop s es info : announced (drop_state s ++ es) info -> announced es info.
Proof. destruct s; simpl; try done. by apply announced_other. Qed.

Ltac announced_cases H :=
  repeat first
    [ apply announced_drop in H
    | apply announced_map in H as [H|H]
    | apply announced_event in H as [H|H]
    | apply announced_other in H; [|exact I]
    | by apply announced_nil in H ].

(** Everything a step announces. *)
Lemma step_announced e r r' es info :
  run_step VERSION e r = Some (r', es) -> announced es info ->
  (exists c b, info = to_app_version_info VERSION c b None)
  \/ (exists c' c p, e = NewVersion c' /\ state r = Downloaded c p
                     /\ info = to_app_version_info VERSION c' (beta_program r) (Some p))
  \/ (exists c m p, state r = Downloading c m /\ e = UpdateFinished (Verified p)
                    /\ suggested_upgrade info
                       = Some {| upgrade_version := version m; upgrade_changelog := changelog m;
                                 verified_installer_path := Some p |}).
Proof.
  destruct e as [cache|res|alive m]; simpl.
  - unfold on_new_version, notify_version_requesters. intros Hs Ha.
    destruct (state r) as [|c|c m|c p] eqn:Es; simpl in Hs; repeat case_decide;
      injection Hs as <- <-; simpl in Ha; try case_bool_decide; announced_cases Ha; subst; eauto;
      right; left; eauto 10.
  - intros ([[r1 i] d]&Hw&Hs)%bind_Some Ha. unfold wait_for_update in Hw.
    destruct (state r) as [|c|c m|c p] eqn:Es; try done. destruct res as [p| |]; injection Hw as <- <- <-;
      injection Hs as <- <-; simpl in Ha; announced_cases Ha. subst. right; right. eauto 10.
  - intros Hs Ha. left. destruct m; simpl in Hs; unfold set_beta_program, get_latest_version,
      update_application, cancel_upgrade, notify_version_requesters in Hs;
      repeat first [case_decide | destruct_match_in Hs]; simplify_eq/=;
      rewrite <- ?app_assoc in Ha; simpl in Ha; announced_cases Ha; subst; eauto.
Qed.
Lemma set_beta_program_ok b r :
  router_ok r -> router_ok (set_beta_program VERSION b r).1.
Proof.
  unfold router_ok, set_beta_program. intros Hok. case_decide as Hb; [done|]. cbn [state].
  destruct (state r) as [|c|c m|c p] eqn:Es; simpl; [done|by case_decide|..]; case_decide as H; simpl; try done;
    destruct Hok as (m'&Hm&Hv); destruct (same_suggestion _ _ _ _ _ _ (eq_sym H) Hm) as (m2&Hm2&Hv2);
    exists m2; intuition congruence.
Qed.

Lemma update_application_ok r : router_ok r -> router_ok (update_application VERSION r).1.
Proof.
  unfold router_ok, update_application. intros Hok. destruct (state r) as [|c|c m|c p] eqn:Es; simpl; rewrite ?Es; try done.
  destruct (recommended r c) as [m|] eqn:Em; simpl; [by exists m | by rewrite Es].
Qed.

Lemma cancel_upgrade_ok r : router_ok r -> router_ok (cancel_upgrade VERSION r).1.
Proof.
  unfold router_ok, cancel_upgrade. intros Hok.
  destruct (state r) as [|c|c m|c p] eqn:Es; simpl; by rewrite ?Es.
Qed.

Lemma handle_message_ok alive m r : router_ok r -> router_ok (handle_message VERSION alive m r).1.
Proof.
  intros Hok. destruct m as [enabled tx|tx|tx|tx|tx]; simpl.
  - pose proof (set_beta_program_ok enabled r Hok). by destruct (set_beta_program _ _ _).
  - unfold get_latest_version. by destruct alive.
  - pose proof (update_application_ok r Hok). by destruct (update_application _ _).
  - pose proof (cancel_upgrade_ok r Hok). by destruct (cancel_upgrade _ _).
  - done.
Qed.

Lemma router_ok_step e r r' es :
  router_ok r -> honest e r -> run_step VERSION e r = Some (r', es) -> router_ok r'.
Proof.
  unfold router_ok. intros Hok Hhon. destruct e as [cache|res|alive m]; simpl.
  - unfold on_new_version, notify_version_requesters. intros Hs.
    destruct (state r) as [|c|c m|c p] eqn:Es; simpl in Hs; repeat case_decide; injection Hs as <- <-;
      simpl; try done; destruct Hok as (m'&Hm&Hv).
    all: match goal with H : _ = _ |- _ =>
           destruct (same_suggestion _ _ _ _ _ _ H Hm) as (m2&Hm2&Hv2) end.
    all: exists m2; intuition congruence.
  - intros ([[r1 i] d]&Hw&Hs)%bind_Some. unfold wait_for_update in Hw.
    destruct (state r) as [|c|c m|c p] eqn:Es; try done. destruct res as [p| |]; injection Hw as <- <- <-;
      injection Hs as <- <-; simpl; try done.
    destruct Hok as (m'&Hm&Hv&_). exists m'. split; [done|]. rewrite <- Hv. by eapply Hhon.
  - intros [= Hs]. pose proof (handle_message_ok alive m r Hok) as H. by rewrite Hs in H.
Qed.

Lemma reachable_ok r : reachable r -> router_ok r.
Proof. induction 1; [done | by eapply router_ok_step]. Qed.

Lemma spawned_step e r r' es m :
  run_step VERSION e r = Some (r', es) -> SpawnDownloader m ∈ es ->
  exists c, state r = HasVersion c /\ recommended r c = Some m /\ state r' = Downloading c m.
Proof.
  assert (forall info l, SpawnDownloader m ∉ map (fun tx => ReplyVersion tx info) l) as Hmap.
  { intros info l H. by apply list_elem_of_fmap in H as (?&?&_). }
  assert (forall s, SpawnDownloader m ∉ drop_state s) as Hdrop by (intros []; set_solver).
  destruct e as [cache|res|alive msg]; simpl.
  - unfold on_new_version, notify_version_requesters. intros Hs Hm. exfalso.
    destruct (state r) as [|c|c u|c p]; simpl in Hs; repeat case_decide; injection Hs as <- <-;
      try case_bool_decide; set_solver.
  - intros ([[r1 i] d]&Hw&Hs)%bind_Some Hm. unfold wait_for_update in Hw.
    destruct (state r); try done. destruct res; injection Hw as <- <- <-; injection Hs as <- <-; set_solver.
  - intros [= Hs] Hm. destruct msg as [enabled tx|tx|tx|tx|tx]; simpl in Hs.
    + unfold set_beta_program, notify_version_requesters in Hs.
      repeat first [case_decide | destruct_match_in Hs]; simplify_eq/=; set_solver.
    + unfold get_latest_version in Hs. destruct alive; simplify_eq; set_solver.
    + unfold update_application in Hs. destruct (state r) as [|c|c u|c p] eqn:Es; simplify_eq/=; try set_solver.
      destruct (recommended r c) as [m'|] eqn:E; simplify_eq/=; [|set_solver].
      assert (m = m') as -> by set_solver. by exists c.
    + unfold cancel_upgrade, notify_version_requesters in Hs.
      destruct (state r); simplify_eq/=; set_solver.
    + simplify_eq; set_solver.
Qed.

(** C31. Upgrades are never downgrades.  In every state the router can reach, every version it announces to
    the daemon or to a client as an upgrade, and every version it starts to download, is newer than the
    running one; what it downloads is what the latest information recommends; and an announced installer
    is that of the announced version, unless the announcement is caused by new version information
    arriving after the download. *)
Theorem upgrades_forward r e r' es :
  reachable r -> honest e r -> run_step VERSION e r = Some (r', es) ->
  (forall info s, announced es info -> suggested_upgrade info = Some s ->
     version_lt VERSION (upgrade_version s)
     /\ forall p, verified_installer_path s = Some p ->
        p = path_of (upgrade_version s) \/ exists c c', e = NewVersion c' /\ state r = Downloaded c p)
  /\ (forall m, SpawnDownloader m ∈ es ->
        version_lt VERSION (version m) /\ exists c, state r' = Downloading c m /\ recommended r c = Some m).
Proof.
  intros Hr%reachable_ok Hhon Hstep. split.
  - intros info s Ha Hs. destruct (step_announced _ _ _ _ _ Hstep Ha)
      as [(c&b&->)|[(c'&c&p&->&Es&->)|(c&m&p&Es&->&Hsug)]].
    + apply suggested_newer in Hs as [? ->]. done.
    + apply suggested_newer in Hs as [? ->]. split; [done|]. intros p' [= <-]. right. by exists c, c'.
    + rewrite Hsug in Hs. injection Hs as <-. simpl. unfold router_ok in Hr. rewrite Es in Hr.
      destruct Hr as (m'&Hm&Hv&_). split; [rewrite Hv; by eapply recommended_newer|].
      intros p' [= <-]. left. exact (Hhon c m p Es eq_refl).
  - intros m Hm. destruct (spawned_step _ _ _ _ _ Hstep Hm) as (c&_&Hrec&Hst).
    split; [by eapply recommended_newer | by exists c].
Qed.

(** ** Requests *)
Definition replied (e : Effect) : option nat :=
  match e with ReplyVersion tx _ | ReplyClosed tx => Some tx | _ => None end.

Definition requested (e : RouterEvent) : option nat :=
  match e with FromDaemon _ (GetLatestVersion tx) => Some tx | _ => None end.

Lemma replied_map info l : omap replied (map (fun tx => ReplyVersion tx info) l) = l.
Proof. induction l as [|tx l IH]; [done|]. exact (f_equal (cons tx) IH). Qed.

Lemma replied_drop s : omap replied (drop_state s) = [].
Proof. by destruct s. Qed.

Lemma replied_other e es : replied e = None -> omap replied (e :: es) = omap replied es.
Proof. intros He. cbn. by rewrite He. Qed.

Ltac solve_requests :=
  cbn [version_request_channels set_state app omap list_omap requested];
  repeat rewrite ?omap_app, ?replied_map, ?replied_drop, ?replied_other, ?app_nil_r by done; done.

Lemma step_requests e r r' es :
  run_step VERSION e r = Some (r', es) ->
  omap replied es ++ version_request_channels r' ≡ₚ version_request_channels r ++ omap requested [e].
Proof.
  destruct e as [cache|res|alive msg]; simpl.
  - unfold on_new_version, notify_version_requesters. intros Hs.
    destruct (state r) as [|c|c u|c p]; simpl in Hs; repeat case_decide; injection Hs as <- <-;
      try case_bool_decide; solve_requests.
  - intros ([[r1 i] d]&Hw&Hs)%bind_Some. unfold wait_for_update in Hw.
    destruct (state r); try done. destruct res; injection Hw as <- <- <-; injection Hs as <- <-; solve_requests.
  - intros [= Hs]. destruct msg as [enabled tx|tx|tx|tx|tx]; simpl in Hs.
    + unfold set_beta_program, notify_version_requesters in Hs.
      repeat first [case_decide | destruct_match_in Hs]; simplify_eq/=; solve_requests.
    + unfold get_latest_version in Hs. destruct alive; simplify_eq/=; [done|].
      by rewrite Permutation_app_comm.
    + unfold update_application in Hs. repeat destruct_match_in Hs; simplify_eq/=; solve_requests.
    + unfold cancel_upgrade, notify_version_requesters in Hs. destruct (state r); simplify_eq/=; solve_requests.
    + simplify_eq/=. by rewrite app_nil_r.
Qed.

(** No request for the latest version is lost or answered twice: over any run of the router, the
    requests made are, up to order, those answered and those still waiting. *)
Theorem requests_conserved b evs r es :
  router_run VERSION (router_start b) evs r es ->
  omap replied es ++ version_request_channels r ≡ₚ omap requested evs.
Proof.
  intros Hrun. change (omap requested evs) with (version_request_channels (router_start b) ++ omap requested evs).
  revert Hrun. generalize (router_start b). induction 1 as [r0|r0 e r1 es1 evs r2 es2 Hstep Hrun IH].
  - by rewrite app_nil_r.
  - rewrite omap_app, <- app_assoc, IH, app_assoc, (step_requests _ _ _ _ Hstep), <- app_assoc.
    by rewrite <- omap_app.
Qed.
End router.

(** ** Runs *)
Definition path_example (v : Version) : text := display_u32 (year v).

Ltac run_router :=
  repeat (eapply router_next; [vm_compute; reflexivity|]); apply router_done.

Lemma upgrades_forward_witness :
  version_lt (released 2024) (released 2026)
  /\ exists r, reachable (released 2024) path_example r /\ exists c m, state r = Downloading c m.
Proof.
  set (r1 := {| state := HasVersion (cache_example 3 2026); beta_program := false;
                version_request_channels := [] |}).
  assert (reachable (released 2024) path_example r1) as Hr1.
  { eapply (reach_step _ _ (router_start false) (NewVersion (cache_example 3 2026)));
      [constructor | intros ? ? ?; discriminate | vm_compute; reflexivity]. }
  assert (exists r2 es, run_step (released 2024) (FromDaemon true (UpdateApplication 1)) r1 = Some (r2, es)
                        /\ SpawnDownloader (stable (info_example 2026)) ∈ es
                        /\ exists c m, state r2 = Downloading c m) as (r2&es&Hs&Hm&Hst).
  { eexists _, _. split; [vm_compute; reflexivity|]. split; [|by eexists _, _]. vm_compute. left. }
  assert (honest path_example (FromDaemon true (UpdateApplication 1)) r1) as Hh by (intros ? ? ?; discriminate).
  destruct (upgrades_forward (released 2024) path_example r1 _ r2 es Hr1 Hh Hs) as [_ Hspawn].
  split; [exact (proj1 (Hspawn _ Hm))|]. exists r2. split; [|done]. exact (reach_step _ _ _ _ _ _ Hr1 Hh Hs).
Defined.

Definition router_events : list RouterEvent :=
  [FromDaemon true (GetLatestVersion 4); FromDaemon false (GetLatestVersion 5);
   NewVersion (cache_example 3 2026); FromDaemon true (GetLatestVersion 6)].

Lemma requests_conserved_witness :
  exists r es, router_run (released 2024) (router_start false) router_events r es
    /\ omap replied es ++ version_request_channels r ≡ₚ [4; 5; 6] /\ version_request_channels r = [6].
Proof.
  eexists _, _. split; [unfold router_events; run_router|]. split; [|reflexivity].
  change [4; 5; 6] with (omap requested router_events).
  eapply (requests_conserved (released 2024) false). unfold router_events; run_router.
Defined.

(** An installer can be announced for another version than the one it installs: version 2026 has been
    downloaded when 2027 is published, and 2027 is announced with the installer of 2026. *)
Theorem stale_installer_announced :
  exists r es, router_run (released 2024) (router_start false)
    [NewVersion (cache_example 3 2026); FromDaemon true (UpdateApplication 1);
     UpdateFinished (Verified (path_example (released 2026))); NewVersion (cache_example 4 2027)] r es
    /\ last es = Some (VersionEvent {| app_current_version_supported := false;
                                      suggested_upgrade := Some {|
                                        upgrade_version := released 2027; upgrade_changelog := [];
                                        verified_installer_path := Some (path_example (released 2026)) |} |}).
Proof. eexists _, _. split; [run_router | reflexivity]. Qed.
