(* ===== verification/EncryptedDns.v ===== *)
(** * The encrypted DNS proxy

    [src/mullvad-encrypted-dns-proxy/src/]: proxies whose configuration is hidden in AAAA records, and
    which forward traffic to the API xored with a key.

    Bytes are [Z].  A [HashSet] is the list of its elements in the order it iterates in, which is random
    but fixed once the set is built.  The sockets are parameters: what a read returns and how much a write
    accepts. *)

From stdpp Require Import base list strings option numbers sets.
From S2P Require Import Prelude NetTypes.
Local Open Scope vpn_scope.

(** ** Configurations *)
Inductive ConfigError : Type :=
| UnknownProxyType (t : Z) | XorV1Unsupported | InvalidPort (port : Z) | EmptyXorKey.

Inductive ProxyType : Type := TypePlain | TypeXorV1 | TypeXorV2.

Record XorKey : Type := { data : list Z; len : nat }.
#[global] Instance XorKey_eq_dec : EqDecision XorKey.
Proof. solve_decision. Defined.

Inductive ObfuscationConfig : Type := XorV2 (key : XorKey).
#[global] Instance ObfuscationConfig_eq_dec : EqDecision ObfuscationConfig.
Proof. solve_decision. Defined.

(** A [SocketAddrV4]. *)
Record SocketAddrV4 : Type := { v4_ip : Z; v4_port : Z }.
#[global] Instance SocketAddrV4_eq_dec : EqDecision SocketAddrV4.
Proof. solve_decision. Defined.

Record ProxyConfig : Type := { addr : SocketAddrV4; obfuscation : option ObfuscationConfig }.
#[global] Instance ProxyConfig_eq_dec : EqDecision ProxyConfig.
Proof. solve_decision. Defined.

Definition u16_from_le_bytes (lo hi : Z) : Z := lo + 2 ^ 8 * hi.

Definition ProxyType_try_from (b : Z * Z) : result ProxyType ConfigError :=
  match u16_from_le_bytes b.1 b.2 with
  | 1%Z => Ok TypePlain
  | 2%Z => Ok TypeXorV1
  | 3%Z => Ok TypeXorV2
  | unknown => Err (UnknownProxyType unknown)
  end.

Definition key_data (k : XorKey) : list Z := take (len k) (data k).

Definition XorKey_try_from (key_bytes : list Z) : result XorKey ConfigError :=
  let key_len := from_option fst (length key_bytes) (list_find (fun b => b = 0%Z) key_bytes) in
  if key_len =? 0 then Err EmptyXorKey
  else Ok {| data := take key_len key_bytes ++ replicate (length key_bytes - key_len) 0%Z; len := key_len |}.

(** The payloads are arrays of 12 bytes; [None] is no such array. *)
Definition parse_plain (b : list Z) : option (result ProxyConfig ConfigError) :=
  match b with
  | [a; b; c; d; p; q; _; _; _; _; _; _] =>
      let port := u16_from_le_bytes p q in
      Some (if (port =? 0)%Z then Err (InvalidPort 0)
            else Ok {| addr := {| v4_ip := Ipv4Addr_new a b c d; v4_port := port |}; obfuscation := None |})
  | _ => None
  end.

Definition parse_xor (b : list Z) : option (result ProxyConfig ConfigError) :=
  match b with
  | a :: b :: c :: d :: p :: q :: ([_; _; _; _; _; _] as key_bytes) =>
      let port := u16_from_le_bytes p q in
      Some (if (port =? 0)%Z then Err (InvalidPort port)
            else key <-? XorKey_try_from key_bytes;
                 Ok {| addr := {| v4_ip := Ipv4Addr_new a b c d; v4_port := port |};
                       obfuscation := Some (XorV2 key) |})
  | _ => None
  end.

(** [octets] are the 16 octets of the address. *)
Definition ProxyConfig_try_from (octets : list Z) : option (result ProxyConfig ConfigError) :=
  match octets with
  | _ :: _ :: t :: u :: proxy_config_payload =>
      match ProxyType_try_from (t, u) with
      | Err e => Some (Err e)
      | Ok TypePlain => parse_plain proxy_config_payload
      | Ok TypeXorV1 => Some (Err XorV1Unsupported)
      | Ok TypeXorV2 => parse_xor proxy_config_payload
      end
  | _ => None
  end.

(** [resolve_config_with_resolverconfig], after the lookup: [None] where an address has not its length. *)
Inductive Resolved : Type := ResolvedV4 | ResolvedV6 (octets : list Z).

Fixpoint proxy_configs (lookup : list Resolved) : option (list ProxyConfig) :=
  match lookup with
  | [] => Some []
  | ResolvedV4 :: l => proxy_configs l
  | ResolvedV6 octets :: l =>
      r ← ProxyConfig_try_from octets; cs ← proxy_configs l;
      Some match r with Ok c => c :: cs | Err _ => cs end
  end.

(** ** Obfuscation *)
Record XorObfuscator : Type := { key : XorKey; key_index : nat }.

Definition XorObfuscator_new (k : XorKey) : XorObfuscator := {| key := k; key_index := 0 |}.

Definition create_obfuscator (c : ObfuscationConfig) : XorObfuscator :=
  match c with XorV2 key => XorObfuscator_new key end.

Fixpoint obfuscate (buffer : list Z) (o : XorObfuscator) : list Z * XorObfuscator :=
  match buffer with
  | [] => ([], o)
  | byte :: buffer =>
      let k := key_data (key o) in
      let byte := Z.lxor byte (nth (key_index o mod length k) k 0%Z) in
      let '(buffer, o) :=
        obfuscate buffer {| key := key o; key_index := (key_index o + 1) mod length k |} in
      (byte :: buffer, o)
  end.

Definition apply_obfuscator (buffer : list Z) (o : option XorObfuscator)
  : list Z * option XorObfuscator :=
  match o with
  | Some o => let '(buffer, o) := obfuscate buffer o in (buffer, Some o)
  | None => (buffer, None)
  end.

(** ** Forwarding *)
(** [forward]: the bytes written to the sink.  A read yields bytes, none at the end of the stream, or
    fails; [writable] says whether each [write_all] succeeds. *)
Fixpoint forward (obfuscator : option XorObfuscator) (source : list (option (list Z)))
    (writable : list bool) : list Z :=
  match source with
  | Some ((_ :: _) as bytes_received) :: source =>
      let '(out, obfuscator) := apply_obfuscator bytes_received obfuscator in
      match writable with
      | true :: writable => out ++ forward obfuscator source writable
      | _ => []
      end
  | _ => []
  end.

Record Forwarder : Type := {
  read_obfuscator : option XorObfuscator;
  write_obfuscator : option XorObfuscator;
}.

Definition from_stream (c : ProxyConfig) : Forwarder :=
  match obfuscation c with
  | Some o => {| read_obfuscator := Some (create_obfuscator o); write_obfuscator := Some (create_obfuscator o) |}
  | None => {| read_obfuscator := None; write_obfuscator := None |}
  end.

(** The outcome of polling the socket: not ready, failed, or done. *)
Inductive Poll (A : Type) : Type := Pending | Failed | Ready (a : A).
Arguments Pending {A}.
Arguments Failed {A}.
Arguments Ready {A} a.

(** [filled] is what the buffer holds before; the socket appends what it read. *)
Definition poll_read (filled : list Z) (socket : Poll (list Z)) (f : Forwarder)
  : Poll unit * list Z * Forwarder :=
  match socket with
  | Pending => (Pending, filled, f)
  | Failed => (Failed, filled, f)
  | Ready read =>
      let '(filled, o) := apply_obfuscator (filled ++ read) (read_obfuscator f) in
      (Ready (), filled, {| read_obfuscator := o; write_obfuscator := write_obfuscator f |})
  end.

(** The socket accepts a prefix of the buffer: the result is its length and what went out. *)
Definition poll_write (buf : list Z) (socket : Poll nat) (f : Forwarder) : Poll nat * list Z * Forwarder :=
  let '(owned_buf, o) := apply_obfuscator buf (write_obfuscator f) in
  let f := {| read_obfuscator := read_obfuscator f; write_obfuscator := o |} in
  match socket with
  | Pending => (Pending, [], f)
  | Failed => (Failed, [], f)
  | Ready n => (Ready (Nat.min n (length owned_buf)), take n owned_buf, f)
  end.

(** ** Choosing a configuration *)
Record EncryptedDnsProxyState : Type := {
  configurations : list ProxyConfig;
  tried_configurations : list ProxyConfig;
}.

(** The difference of two sets, in the order of the first. *)
Definition difference (s : EncryptedDnsProxyState) : list ProxyConfig :=
  filter (fun c => c ∉ tried_configurations s) (configurations s).

Definition should_reset (s : EncryptedDnsProxyState) : bool := length (difference s) =? 0.

Definition reset (s : EncryptedDnsProxyState) : EncryptedDnsProxyState :=
  {| configurations := configurations s; tried_configurations := [] |}.

(** The sets are lists without repetitions, in their iteration order. *)
Definition next_configuration (s : EncryptedDnsProxyState) : option ProxyConfig * EncryptedDnsProxyState :=
  let s := if should_reset s then reset s else s in
  match difference s with
  | [] => (None, s)
  | first_config :: rest =>
      let obfuscated_config := list_find (fun c => is_Some (obfuscation c)) rest in
      let selected_config := from_option snd first_config obfuscated_config in
      (Some selected_config,
       {| configurations := configurations s;
          tried_configurations :=
            if decide (selected_config ∈ tried_configurations s) then tried_configurations s
            else selected_config :: tried_configurations s |})
  end.

(** [hash_order] is the order in which the new set iterates. *)
Definition fetch_configs (hash_order : list ProxyConfig -> list ProxyConfig) (resolved : option (list ProxyConfig)) (s : EncryptedDnsProxyState)
  : bool * EncryptedDnsProxyState :=
  match resolved with
  | Some new_configs =>
      (true, {| configurations := hash_order (remove_dups new_configs);
                 tried_configurations := tried_configurations s |})
  | None => (negb (length (configurations s) =? 0), s)
  end.
