(* ===== verification/EncryptedDnsProps.v ===== *)
(** * What is proved about the encrypted DNS proxy

    Configurations read from an address are those written into it; xoring a stream again, however it is
    cut, restores it, as long as whole buffers are written; every configuration is tried before any is
    tried again, obfuscated ones first. *)

From stdpp Require Import base list strings option numbers sets.
From S2P Require Import Prelude NetTypes EncryptedDns.
Local Open Scope vpn_scope.

(** ** Keys *)
Lemma XorKey_try_from_spec b k :
  XorKey_try_from b = Ok k <->
  exists junk, b = key_data k ++ junk /\ key_data k <> [] /\ Forall (fun x => x <> 0%Z) (key_data k)
               /\ head junk ∈ [None; Some 0%Z]
               /\ len k = length (key_data k) /\ data k = key_data k ++ replicate (length junk) 0%Z.
Proof.
  unfold XorKey_try_from. split.
  - destruct (list_find (fun b => b = 0%Z) b) as [[n z]|] eqn:Ef; simpl.
    + apply list_find_Some in Ef as (Hn&->&Hbefore).
      pose proof (lookup_lt_Some _ _ _ Hn) as Hlt.
      destruct n as [|n]; [done|]. intros <-%Ok_inj. unfold key_data. cbn [len data fst].
      rewrite (take_app_le (take (S n) b)) by (rewrite length_take; lia). rewrite take_take, Nat.min_id.
      exists (drop (S n) b). rewrite take_drop, length_take, length_drop. split_and!; try done.
      * intros E%(f_equal length). rewrite length_take, length_nil in E. lia.
      * apply Forall_lookup_2. intros i x [Hx Hi]%lookup_take_Some. by eapply Hbefore.
      * rewrite (drop_S _ _ _ Hn). set_solver.
      * lia.
    + apply list_find_None in Ef. destruct b as [|x b]; [done|]. simpl. intros [= <-].
      unfold key_data. simpl len; simpl data. rewrite Nat.sub_diag, app_nil_r.
      assert (take (S (length b)) (x :: take (length b) b) = x :: b) as -> by (simpl; by rewrite !firstn_all).
      exists []. rewrite app_nil_r. split_and!; try done; [set_solver | simpl; by rewrite app_nil_r, firstn_all].
  - intros (junk&->&Hne&Hnz&Hj&Hlen&Hdata).
    assert (from_option fst (length (key_data k ++ junk)) (list_find (fun b => b = 0%Z) (key_data k ++ junk))
            = len k) as ->.
    { rewrite Hlen. rewrite Forall_forall in Hnz. destruct junk as [|z junk].
      - rewrite app_nil_r. destruct (list_find _ _) as [[i x]|] eqn:Ef; [|done].
        apply list_find_Some in Ef as (Hx%list_elem_of_lookup_2&->&_). by apply Hnz in Hx.
      - assert (z = 0%Z) as -> by set_solver. rewrite list_find_app_r; [simpl; lia|].
        apply list_find_None, Forall_forall. intros x Hx ->. by apply Hnz in Hx. }
    rewrite (proj2 (Nat.eqb_neq _ _)).
    + rewrite Hlen at 1 2 3. rewrite take_app_length, length_app.
      replace (length (key_data k) + length junk - length (key_data k)) with (length junk) by lia.
      rewrite <- Hdata, <- Hlen. by destruct k.
    + rewrite Hlen. by destruct (key_data k).
Qed.

(** ** Configurations *)
Definition is_byte (z : Z) : Prop := (0 <= z < 2 ^ 8)%Z.

Lemma lor_shiftl a b n : (0 <= n)%Z -> (0 <= b < 2 ^ n)%Z -> Z.lor (Z.shiftl a n) b = (a * 2 ^ n + b)%Z.
Proof.
  intros Hn Hb. assert (Z.land (Z.shiftl a n) b = 0)%Z as Hand.
  { apply Z.bits_inj'. intros i Hi. rewrite Z.land_spec, Z.bits_0. destruct (Z.lt_ge_cases i n).
    - by rewrite Z.shiftl_spec_low.
    - destruct (decide (b = 0)%Z) as [->|]; [by rewrite Z.testbit_0_l, andb_false_r|].
      assert (Z.log2 b < n)%Z by (apply Z.log2_lt_pow2; lia).
      by rewrite (Z.bits_above_log2 b i), andb_false_r by lia. }
  rewrite <- (Z.shiftl_mul_pow2 a n) by done. by rewrite Z.add_nocarry_lxor, Z.lxor_lor.
Qed.

Lemma Ipv4Addr_new_sum a b c d :
  is_byte a -> is_byte b -> is_byte c -> is_byte d ->
  Ipv4Addr_new a b c d = (a * 2 ^ 24 + b * 2 ^ 16 + c * 2 ^ 8 + d)%Z.
Proof.
  unfold is_byte, Ipv4Addr_new. intros. rewrite (lor_shiftl c d 8) by lia.
  rewrite (lor_shiftl b) by lia. rewrite (lor_shiftl a) by lia. lia.
Qed.

(** The bytes of a number of [n] bytes, the last first. *)
Fixpoint le_bytes (n : nat) (z : Z) : list Z :=
  match n with 0 => [] | S n => (z mod 2 ^ 8)%Z :: le_bytes n (z / 2 ^ 8)%Z end.

Definition config_ok (c : ProxyConfig) : Prop :=
  (0 <= v4_ip (addr c) < 2 ^ 32)%Z /\ (0 < v4_port (addr c) < 2 ^ 16)%Z
  /\ match obfuscation c with
     | None => True
     | Some (XorV2 k) =>
         key_data k <> [] /\ Forall (fun x => x <> 0%Z /\ is_byte x) (key_data k) /\ len k = length (key_data k)
         /\ data k = key_data k ++ replicate (6 - len k) 0%Z /\ len k <= 6
     end.

(** How a configuration is written into an address: the first two bytes are free, a plain configuration
    leaves the last six free as well, and a key shorter than six bytes ends with a zero. *)
Definition encode_config (prefix junk : list Z) (c : ProxyConfig) : list Z :=
  prefix ++ match obfuscation c with Some _ => [3%Z; 0%Z] | None => [1%Z; 0%Z] end
  ++ rev (le_bytes 4 (v4_ip (addr c))) ++ le_bytes 2 (v4_port (addr c))
  ++ match obfuscation c with Some (XorV2 k) => key_data k | None => [] end ++ junk.

Definition padding_ok (junk : list Z) (c : ProxyConfig) : Prop :=
  match obfuscation c with
  | None => length junk = 6
  | Some (XorV2 k) => length (key_data k) + length junk = 6 /\ head junk ∈ [None; Some 0%Z]
  end.

Lemma ipv4_bytes v :
  (0 <= v < 2 ^ 32)%Z ->
  exists a b c d, rev (le_bytes 4 v) = [a; b; c; d] /\ Ipv4Addr_new a b c d = v.
Proof.
  intros Hv. simpl. eexists _, _, _, _. split; [done|].
  rewrite Ipv4Addr_new_sum by (unfold is_byte; apply Z.mod_pos_bound; lia).
  rewrite !Z.div_div by lia. change (2 ^ 8 * 2 ^ 8)%Z with (2 ^ 16)%Z.
  rewrite ?Z.div_div by lia. change (2 ^ 16 * 2 ^ 8)%Z with (2 ^ 24)%Z.
  Z.to_euclidean_division_equations. lia.
Qed.

Lemma bytes_ipv4 a b c d :
  is_byte a -> is_byte b -> is_byte c -> is_byte d ->
  rev (le_bytes 4 (Ipv4Addr_new a b c d)) = [a; b; c; d] /\ (0 <= Ipv4Addr_new a b c d < 2 ^ 32)%Z.
Proof.
  intros Ha Hb Hc Hd. rewrite Ipv4Addr_new_sum by done. unfold is_byte in *. split; [|lia]. simpl.
  repeat f_equal; Z.to_euclidean_division_equations; lia.
Qed.

Lemma port_bytes p : (0 <= p < 2 ^ 16)%Z -> exists a b, le_bytes 2 p = [a; b] /\ u16_from_le_bytes a b = p.
Proof.
  intros Hp. simpl. eexists _, _. split; [done|]. unfold u16_from_le_bytes.
  Z.to_euclidean_division_equations. lia.
Qed.

Lemma bytes_port a b :
  is_byte a -> is_byte b ->
  le_bytes 2 (u16_from_le_bytes a b) = [a; b] /\ (0 <= u16_from_le_bytes a b < 2 ^ 16)%Z.
Proof.
  unfold is_byte, u16_from_le_bytes. intros Ha Hb. split; [|lia]. simpl.
  repeat f_equal; Z.to_euclidean_division_equations; lia.
Qed.

Lemma ProxyType_Ok t u ty :
  is_byte t -> is_byte u -> ProxyType_try_from (t, u) = Ok ty ->
  u = 0%Z /\ t = match ty with TypePlain => 1 | TypeXorV1 => 2 | TypeXorV2 => 3 end%Z.
Proof.
  unfold is_byte, ProxyType_try_from. cbn [fst snd]. intros Ht Hu.
  destruct (u16_from_le_bytes t u) as [|[[]|[]|]|] eqn:E; try done; intros [= <-];
    unfold u16_from_le_bytes in E; lia.
Qed.

Lemma XorKey_padding b k :
  length b = 6 -> Forall is_byte b -> XorKey_try_from b = Ok k ->
  exists junk, b = key_data k ++ junk /\ length (key_data k) + length junk = 6 /\ head junk ∈ [None; Some 0%Z]
    /\ key_data k <> [] /\ Forall (fun x => x <> 0%Z /\ is_byte x) (key_data k) /\ len k = length (key_data k)
    /\ data k = key_data k ++ replicate (6 - len k) 0%Z /\ len k <= 6.
Proof.
  intros Hlen Hb (junk&->&Hne&Hnz&Hj&Hl&Hd)%XorKey_try_from_spec. exists junk.
  rewrite length_app in Hlen. apply Forall_app in Hb as [Hb _]. split_and!; try done; try lia.
  - apply Forall_and. by split.
  - rewrite Hd at 1. do 2 f_equal. lia.
Qed.

Lemma decode_config x y t u a b cc d p q k c :
  length k = 6 -> Forall is_byte [t; u; a; b; cc; d; p; q] -> Forall is_byte k ->
  ProxyConfig_try_from (x :: y :: t :: u :: a :: b :: cc :: d :: p :: q :: k) = Some (Ok c) ->
  config_ok c /\ exists junk, padding_ok junk c
    /\ x :: y :: t :: u :: a :: b :: cc :: d :: p :: q :: k = encode_config [x; y] junk c.
Proof.
  intros Hlen Hb Hk. rewrite !Forall_cons in Hb. destruct Hb as (Ht&Hu&Ha&Hbb&Hc&Hd&Hp&Hq&_).
  destruct (bytes_ipv4 a b cc d Ha Hbb Hc Hd) as [Hip Hipr], (bytes_port p q Hp Hq) as [Hport Hportr].
  do 6 (destruct k as [|? k]; [done|]). destruct k; [|done].
  unfold ProxyConfig_try_from. destruct (ProxyType_try_from _) as [ty|] eqn:Ety; [|done].
  apply ProxyType_Ok in Ety as [-> ->]; [|done..].
  destruct ty; [|done|]; simpl; (destruct (Z.eqb_spec (u16_from_le_bytes p q) 0); [done|]); intros Hc';
    unfold config_ok, padding_ok, encode_config.
  - injection Hc' as <-. cbn [addr obfuscation v4_ip v4_port]. split; [split_and!; try done; lia|].
    eexists. rewrite Hip, Hport. by split; [|reflexivity].
  - destruct (XorKey_try_from _) as [key|] eqn:Ek; [|done]. injection Hc' as <-.
    destruct (XorKey_padding _ _ Hlen Hk Ek) as (junk&->&Hj). cbn [addr obfuscation v4_ip v4_port].
    split; [split_and!; try apply Hj; lia|]. exists junk. rewrite Hip, Hport. by destruct Hj as (?&?&_).
Qed.

Lemma encode_decode prefix junk c :
  config_ok c -> length prefix = 2 -> padding_ok junk c ->
  ProxyConfig_try_from (encode_config prefix junk c) = Some (Ok c).
Proof.
  destruct c as [[ip port] obf]. unfold config_ok, padding_ok, encode_config.
  cbn [addr obfuscation v4_ip v4_port]. intros (Hip&Hport&Hobf) Hpre Hpad.
  destruct prefix as [|x [|y [|]]]; try done.
  destruct (ipv4_bytes ip Hip) as (a&b&cc&d&->&Hip'), (port_bytes port) as (p&q&->&Hport'); [lia|].
  destruct obf as [[k]|]; simpl.
  - destruct Hobf as (Hne&Hnz&Hlen&Hdata&Hle), Hpad as [Hl Hhd].
    assert (XorKey_try_from (key_data k ++ junk) = Ok k) as Hkey.
    { apply XorKey_try_from_spec. exists junk. split_and!; try done.
      - eapply Forall_impl; [exact Hnz|]. by intros z [? _].
      - rewrite Hdata at 1. do 2 f_equal. lia. }
    assert (length (key_data k ++ junk) = 6) as Hlen6 by (by rewrite length_app).
    destruct (key_data k ++ junk) as [|k0 [|k1 [|k2 [|k3 [|k4 [|k5 [|]]]]]]]; try done.
    unfold ProxyConfig_try_from, parse_xor. simpl ProxyType_try_from. cbv iota.
    rewrite Hip', Hport', Hkey. by destruct (Z.eqb_spec port 0); [lia|].
  - destruct junk as [|k0 [|k1 [|k2 [|k3 [|k4 [|k5 [|]]]]]]]; try done. simpl. rewrite Hip', Hport'.
    by destruct (Z.eqb_spec port 0); [lia|].
Qed.

(** Reading a proxy configuration from an IPv6 address.  Of the 16 bytes of an address, exactly those
    written as documented (the type as a little-endian 1 or 3 in bytes 2 and 3, the IPv4 address in bytes 4
    to 7, a port that is not zero in little-endian order in bytes 8 and 9, and from byte 10 a key of one to
    six bytes that are not zero) yield a configuration, and it is the one written; the parser never
    panics. *)
Theorem config_roundtrip octets c :
  length octets = 16 -> Forall is_byte octets ->
  ProxyConfig_try_from octets <> None
  /\ (ProxyConfig_try_from octets = Some (Ok c) <->
      config_ok c /\ exists prefix junk, length prefix = 2 /\ padding_ok junk c
                                         /\ octets = encode_config prefix junk c).
Proof.
  intros Hlen Hb. destruct octets as [|x [|y [|t [|u [|a [|b [|cc [|d [|p [|q k]]]]]]]]]]; try done.
  split.
  - do 6 (destruct k as [|? k]; [done|]). destruct k; [|done]. clear.
    unfold ProxyConfig_try_from. destruct (ProxyType_try_from _) as [[]|]; done.
  - split.
    + intros Hc. rewrite !Forall_cons in Hb. destruct Hb as (_&_&Ht&Hu&Ha&Hbb&Hcc&Hd&Hp&Hq&Hk).
      destruct (decode_config x y t u a b cc d p q k c) as (Hok&junk&Hpad&E); try done;
        [simpl in Hlen; lia | by rewrite !Forall_cons, Forall_nil|]. split; [done|]. by exists [x; y], junk.
    + intros (Hok&prefix&junk&Hpre&Hpad&->). by apply encode_decode.
Qed.

Lemma config_roundtrip_witness :
  ProxyConfig_try_from [0x20; 1; 3; 0; 127; 0; 0; 1; 0x39; 5; 0xea; 0xfd; 0x11; 0; 0xad; 0x9e]%Z
  = Some (Ok {| addr := {| v4_ip := Ipv4Addr_new 127 0 0 1; v4_port := 1337 |};
                obfuscation := Some (XorV2 {| data := [0xea; 0xfd; 0x11; 0; 0; 0]%Z; len := 3 |}) |}).
Proof.
  apply config_roundtrip; [reflexivity | repeat constructor; by vm_compute|]. split.
  - split_and!; try (by vm_compute). repeat constructor; by vm_compute.
  - exists [0x20; 1]%Z, [0; 0xad; 0x9e]%Z. split_and!; try done. split; [done|]. set_solver.
Defined.

(** ** Streams *)
Definition xor_stream (k : list Z) (i : nat) (l : list Z) : list Z :=
  imap (fun j b => Z.lxor b (nth ((i + j) mod length k) k 0%Z)) l.

Lemma xor_stream_cons k i b l :
  xor_stream k i (b :: l) = Z.lxor b (nth (i mod length k) k 0%Z) :: xor_stream k (S i) l.
Proof.
  unfold xor_stream. rewrite imap_cons, Nat.add_0_r. f_equal. apply imap_ext. intros j x _. simpl.
  by rewrite Nat.add_succ_r.
Qed.

Lemma xor_stream_mod k i l : k <> [] -> xor_stream k (i mod length k) l = xor_stream k i l.
Proof.
  intros Hk. apply imap_ext. intros j x _. simpl. by rewrite Nat.Div0.add_mod_idemp_l.
Qed.

Lemma xor_stream_app k i l l' : xor_stream k i (l ++ l') = xor_stream k i l ++ xor_stream k (i + length l) l'.
Proof.
  unfold xor_stream. rewrite imap_app. f_equal. apply imap_ext. intros j x _. simpl. by rewrite Nat.add_assoc.
Qed.

Lemma xor_stream_involutive k i l : xor_stream k i (xor_stream k i l) = l.
Proof.
  revert i. induction l as [|b l IH]; intros i; [done|]. rewrite !xor_stream_cons, IH.
  by rewrite Z.lxor_assoc, Z.lxor_nilpotent, Z.lxor_0_r.
Qed.

Lemma obfuscate_stream buffer o :
  key_data (key o) <> [] ->
  obfuscate buffer o
  = (xor_stream (key_data (key o)) (key_index o) buffer,
     {| key := key o;
        key_index := match buffer with
                     | [] => key_index o
                     | _ => (key_index o + length buffer) mod length (key_data (key o)) end |}).
Proof.
  intros Hk. revert o Hk. induction buffer as [|b l IH]; intros [k i] Hk; [done|]. simpl in *.
  rewrite (IH {| key := k; key_index := (i + 1) mod length (key_data k) |}) by done. cbn [key key_index].
  rewrite xor_stream_cons, xor_stream_mod, Nat.add_1_r by done. do 2 f_equal.
  destruct l; [simpl; by rewrite Nat.add_1_r|].
  rewrite Nat.Div0.add_mod_idemp_l. f_equal. simpl. lia.
Qed.

Lemma forward_stream o chunks :
  key_data (key o) <> [] -> Forall (fun c => c <> []) chunks ->
  forward (Some o) (map Some chunks) (replicate (length chunks) true)
  = xor_stream (key_data (key o)) (key_index o) (concat chunks).
Proof.
  intros Hk Hc. revert o Hk. induction Hc as [|c chunks Hne Hc IH]; intros o Hk; [done|].
  destruct c as [|b c]; [done|]. cbn [map forward length replicate]. unfold apply_obfuscator.
  rewrite obfuscate_stream by done. rewrite IH by done. cbn [key key_index concat].
  by rewrite xor_stream_mod, <- xor_stream_app.
Qed.

(** Obfuscation is transparent: what one end forwards through the obfuscator of a key is restored by
    forwarding it through a fresh obfuscator of the same key at the other end, for every key that can be
    configured and however TCP cuts the stream into reads at either end. *)
Theorem xor_forward_roundtrip key_bytes k sent received :
  XorKey_try_from key_bytes = Ok k ->
  Forall (fun c => c <> []) sent -> Forall (fun c => c <> []) received ->
  concat received = forward (Some (create_obfuscator (XorV2 k))) (map Some sent) (replicate (length sent) true) ->
  forward (Some (create_obfuscator (XorV2 k))) (map Some received) (replicate (length received) true)
  = concat sent.
Proof.
  intros (junk&_&Hk&_)%XorKey_try_from_spec Hs Hr Hc. unfold create_obfuscator, XorObfuscator_new in *.
  rewrite forward_stream in Hc by done. rewrite forward_stream by done. rewrite Hc.
  apply xor_stream_involutive.
Qed.

Definition key_example : XorKey := {| data := [1; 2; 3; 0; 0; 0]%Z; len := 3 |}.

Lemma xor_forward_roundtrip_witness :
  forward (Some (create_obfuscator (XorV2 key_example))) [Some [10; 11; 11]; Some [15]]%Z [true; true]
  = [11; 9; 8; 14]%Z.
Proof.
  apply (xor_forward_roundtrip [1; 2; 3; 0; 9; 9]%Z key_example [[11; 9]; [8; 14]]%Z [[10; 11; 11]; [15]]%Z);
    [reflexivity | by repeat constructor | by repeat constructor | reflexivity].
Defined.

(** A writer that polls until its buffer is written: what the socket takes each time. *)
Fixpoint write_all (polls : list (Poll nat)) (buf : list Z) (f : Forwarder) : list Z * Forwarder :=
  match polls with
  | [] => ([], f)
  | socket :: polls =>
      let '(r, out, f) := poll_write buf socket f in
      let '(out', f) := write_all polls (match r with Ready n => drop n buf | _ => buf end) f in
      (out ++ out', f)
  end.

(** Writing through [poll_write] is transparent if the socket takes every buffer at once; when it is not
    ready at first, or takes a part, the key has already moved on by the whole buffer and the rest of
    the stream is garbled: the server would read 10, 10 and 8, 8 for 8, 9. *)
Theorem poll_write_garbles :
  let f := from_stream {| addr := {| v4_ip := 1; v4_port := 1 |}; obfuscation := Some (XorV2 key_example) |} in
  let read l := (obfuscate l (XorObfuscator_new key_example)).1 in
  read (write_all [Ready 2] [8; 9]%Z f).1 = [8; 9]%Z
  /\ read (write_all [Pending; Ready 2] [8; 9]%Z f).1 <> [8; 9]%Z
  /\ read (write_all [Ready 1; Ready 1] [8; 9]%Z f).1 <> [8; 9]%Z.
Proof. by vm_compute. Qed.

(** Reading into a buffer that already holds bytes, as [read_exact] does after a short read, xors those a
    second time. *)
Theorem poll_read_garbles :
  let f := from_stream {| addr := {| v4_ip := 1; v4_port := 1 |}; obfuscation := Some (XorV2 key_example) |} in
  let wire := (obfuscate [8; 9]%Z (XorObfuscator_new key_example)).1 in
  let '(_, filled, f1) := poll_read [] (Ready (take 1 wire)) f in
  let '(_, filled', _) := poll_read filled (Ready (drop 1 wire)) f1 in
  filled = [8]%Z /\ filled' <> [8; 9]%Z.
Proof. by vm_compute. Qed.

(** ** Choosing a configuration *)
Definition untried (s : EncryptedDnsProxyState) : list ProxyConfig :=
  difference (if should_reset s then reset s else s).

Fixpoint next_configurations (n : nat) (s : EncryptedDnsProxyState)
  : list (option ProxyConfig) * EncryptedDnsProxyState :=
  match n with
  | 0 => ([], s)
  | S n =>
      let '(c, s) := next_configuration s in
      let '(cs, s) := next_configurations n s in (c :: cs, s)
  end.

Definition obfuscated (c : ProxyConfig) : Prop := is_Some (obfuscation c).

(** Obfuscated configurations come first. *)
Definition obfuscated_first (l : list ProxyConfig) : Prop :=
  exists l1 l2, l = l1 ++ l2 /\ Forall obfuscated l1 /\ Forall (fun c => ~ obfuscated c) l2.

Lemma should_reset_spec s : should_reset s = true <-> difference s = [].
Proof. unfold should_reset. rewrite Nat.eqb_eq. by destruct (difference s). Qed.

Lemma difference_reset s : difference (reset s) = configurations s.
Proof.
  unfold difference. simpl. induction (configurations s) as [|c l IH]; [done|].
  rewrite filter_cons_True by set_solver. by rewrite IH.
Qed.

(** One choice: an untried configuration, obfuscated if there is such a one. *)
Lemma next_configuration_spec s :
  NoDup (configurations s) -> untried s <> [] ->
  exists c s', next_configuration s = (Some c, s') /\ untried s ≡ₚ c :: difference s'
    /\ configurations s' = configurations s
    /\ (obfuscated c \/ Forall (fun c => ~ obfuscated c) (untried s)).
Proof.
  unfold next_configuration, untried. set (s1 := if should_reset s then reset s else s). intros Hnd Hne.
  assert (configurations s1 = configurations s) as Hs1 by (unfold s1; by destruct (should_reset s)).
  destruct (difference s1) as [|first rest] eqn:Ed; [done|].
  set (c := from_option snd first (list_find _ rest)). exists c. eexists. split; [done|].
  assert (c ∈ first :: rest) as Hc.
  { unfold c. destruct (list_find _ rest) as [[i x]|] eqn:Ef; simpl; [|set_solver].
    apply list_find_Some in Ef as (Hx%list_elem_of_lookup_2&_). set_solver. }
  split_and!; [|done|].
  - assert (c ∉ tried_configurations s1 /\ c ∈ configurations s) as [Ht Hin].
    { rewrite <- Ed in Hc. unfold difference in Hc. rewrite Hs1 in Hc. by apply list_elem_of_filter in Hc. }
    rewrite decide_False by done. rewrite <- Ed. unfold difference. simpl. rewrite Hs1.
    apply NoDup_Permutation; [by apply NoDup_filter| |].
    + constructor; [|by apply NoDup_filter]. rewrite list_elem_of_filter. set_solver.
    + intros x. rewrite elem_of_cons, !list_elem_of_filter. destruct (decide (x = c)) as [->|]; set_solver.
  - unfold c. destruct (list_find _ rest) as [[i x]|] eqn:Ef; simpl.
    + apply list_find_Some in Ef as (_&Hx&_). by left.
    + apply list_find_None in Ef. destruct (decide (is_Some (obfuscation first))); [by left | right; by constructor].
Qed.

Lemma untried_difference s : difference s <> [] -> untried s = difference s.
Proof.
  intros Hne. unfold untried. destruct (should_reset s) eqn:E; [|done]. by apply should_reset_spec in E.
Qed.

Lemma obfuscated_first_all l c k :
  Forall (fun c => ~ obfuscated c) l -> l ≡ₚ c :: k -> obfuscated_first (c :: k).
Proof. intros Hl Hp. rewrite Hp in Hl. by exists [], (c :: k). Qed.

(** The choice of a configuration is exhaustive and fair.  From any state, as many calls as there are
    untried configurations return each of these exactly once, the obfuscated ones before the plain ones,
    and then the next round is over all configurations again. *)
Theorem next_configuration_exhaustive s :
  NoDup (configurations s) ->
  exists l s', next_configurations (length (untried s)) s = (map Some l, s')
    /\ l ≡ₚ untried s /\ obfuscated_first l /\ untried s' = configurations s
    /\ configurations s' = configurations s.
Proof.
  remember (length (untried s)) as n eqn:Hn. revert s Hn. induction n as [|n IH]; intros s Hn Hnd.
  - symmetry in Hn. apply length_zero_iff_nil in Hn. exists [], s. rewrite Hn.
    split_and!; try done; [by exists [], []|].
    unfold untried in Hn. destruct (should_reset s) eqn:E; [by rewrite difference_reset in Hn|].
    apply should_reset_spec in Hn. congruence.
  - destruct (next_configuration_spec s Hnd) as (c&s1&Hnext&Hperm&Hconf&Hobf).
    { by intros E; rewrite E in Hn. }
    assert (length (difference s1) = n) as Hlen by (apply Permutation_length in Hperm; simpl in Hperm; lia).
    cbn [next_configurations]. rewrite Hnext. destruct (difference s1) as [|d ds] eqn:Ed.
    + assert (n = 0) as -> by (by simpl in Hlen). exists [c], s1. simpl. split_and!; try done.
      * destruct Hobf as [Ho|Ho]; [exists [c], [] | by eapply obfuscated_first_all]. split_and!; by try constructor.
      * unfold untried. rewrite (proj2 (should_reset_spec s1) Ed), difference_reset. done.
    + destruct (IH s1) as (l&s'&Hl&Hpl&Hof&Hu&Hc).
      * by rewrite untried_difference, Ed by (by rewrite Ed).
      * by rewrite Hconf.
      * rewrite untried_difference, Ed in Hpl by (by rewrite Ed).
        exists (c :: l), s'. rewrite Hl, Hu, Hc, Hconf. split_and!; try done; [by rewrite Hpl|].
        destruct Hobf as [Ho|Ho].
        -- destruct Hof as (l1&l2&->&H1&H2). exists (c :: l1), l2. split_and!; try done. by constructor.
        -- eapply obfuscated_first_all; [exact Ho|]. by rewrite Hpl.
Qed.

Definition plain_example (p : Z) : ProxyConfig := {| addr := {| v4_ip := 1; v4_port := p |}; obfuscation := None |}.
Definition xor_example (p : Z) : ProxyConfig :=
  {| addr := {| v4_ip := 1; v4_port := p |}; obfuscation := Some (XorV2 key_example) |}.

Lemma next_configuration_exhaustive_witness :
  exists l s', next_configurations 3
      {| configurations := [plain_example 1; xor_example 2; xor_example 3]; tried_configurations := [] |}
    = (map Some l, s') /\ l ≡ₚ [plain_example 1; xor_example 2; xor_example 3] /\ obfuscated_first l.
Proof.
  destruct (next_configuration_exhaustive
              {| configurations := [plain_example 1; xor_example 2; xor_example 3]; tried_configurations := [] |})
    as (l&s'&Hl&Hp&Hf&_).
  - repeat (constructor; [set_solver|]). constructor.
  - exists l, s'. split_and!; [exact Hl | exact Hp | exact Hf].
Defined.
