(* ===== verification/Lwo.v ===== *)
(** * Lightweight WireGuard obfuscation

    [src/tunnel-obfuscation/src/lwo.rs]: the header of a WireGuard packet is xored with the receiver's
    public key and its second byte, reserved in WireGuard, replaced by a random one.  Packets are lists
    of bytes ([Z]); random numbers and sockets are inputs. *)

From stdpp Require Import base list option numbers sets.
From S2P Require Import Prelude.

Definition HANDSHAKE_INIT : Z := 1.
Definition HANDSHAKE_RESP : Z := 2.
Definition COOKIE_REPLY : Z := 3.
Definition DATA : Z := 4.

Definition HANDSHAKE_INIT_SZ : nat := 148.
Definition HANDSHAKE_RESP_SZ : nat := 92.
Definition COOKIE_REPLY_SZ : nat := 64.
Definition DATA_OVERHEAD_SZ : nat := 32.

Definition OBFUSCATION_BIT : Z := 128.

(** The length of the prefix that [header_mut] borrows: [get_mut] fails on a shorter packet. *)
Definition header_len (packet : list Z) (key_byte : Z) : option nat :=
  header_type ← head packet;
  let get n := if n <=? length packet then Some n else None in
  let t := Z.lxor header_type key_byte in
  if (t =? HANDSHAKE_INIT)%Z then get HANDSHAKE_INIT_SZ
  else if (t =? HANDSHAKE_RESP)%Z then get HANDSHAKE_RESP_SZ
  else if (t =? COOKIE_REPLY)%Z then get COOKIE_REPLY_SZ
  else if (t =? DATA)%Z then get DATA_OVERHEAD_SZ
  else None.

Definition xor_bytes (data key : list Z) : list Z :=
  imap (fun i byte => Z.lxor byte (nth (i mod length key) key 0%Z)) data.

(** [rand] is [next_u32] of the generator. *)
Definition lwo_obfuscate (rand : Z) (packet key : list Z) : list Z :=
  match header_len packet 0 with
  | None => packet
  | Some n =>
      let header_bytes := xor_bytes (take n packet) key in
      let rand_byte := (rand mod 255)%Z in
      <[1 := Z.lor rand_byte OBFUSCATION_BIT]> header_bytes ++ drop n packet
  end.

Definition is_obfuscated (reserved_byte : Z) : bool := negb (Z.land reserved_byte OBFUSCATION_BIT =? 0)%Z.

(** [debug_assertions]: whether this is a debug build, which drops packets that are not obfuscated. *)
Definition lwo_deobfuscate (debug_assertions : bool) (packet key : list Z) : list Z :=
  match header_len packet (nth 0 key 0%Z) with
  | None => packet
  | Some n =>
      let header_bytes := take n packet in
      if debug_assertions && negb (is_obfuscated (nth 1 header_bytes 0%Z)) then packet
      else <[1 := 0%Z]> (xor_bytes header_bytes key) ++ drop n packet
  end.

(** [run_obfuscation]: what is sent, packet by packet, until a socket fails.  [rands] are the random
    numbers drawn, [sends] whether each send succeeds. *)
Fixpoint run_obfuscation_inner (actions : nat -> list Z -> list Z) (k : nat)
    (recvs : list (option (list Z))) (sends : list bool) : list (list Z) :=
  match recvs, sends with
  | Some packet :: recvs, true :: sends =>
      actions k packet :: run_obfuscation_inner actions (S k) recvs sends
  | _, _ => []
  end.

Definition run_obfuscation (sending debug_assertions : bool) (key : list Z) (rands : nat -> Z)
    (recvs : list (option (list Z))) (sends : list bool) : list (list Z) :=
  if sending then run_obfuscation_inner (fun k packet => lwo_obfuscate (rands k) packet key) 0 recvs sends
  else run_obfuscation_inner (fun _ packet => lwo_deobfuscate debug_assertions packet key) 0 recvs sends.

(** ** What is proved *)
(** A packet of a WireGuard message type with a header of the full size. *)
Definition wireguard_packet (packet : list Z) : Prop := is_Some (header_len packet 0).

Lemma xor_bytes_length data key : length (xor_bytes data key) = length data.
Proof. apply length_imap. Qed.

Lemma xor_bytes_lookup data key i :
  xor_bytes data key !! i = (fun b => Z.lxor b (nth (i mod length key) key 0%Z)) <$> data !! i.
Proof. apply list_lookup_imap. Qed.

Lemma xor_bytes_involutive data key : xor_bytes (xor_bytes data key) key = data.
Proof.
  apply list_eq. intros i. rewrite !xor_bytes_lookup. destruct (data !! i) as [b|]; simpl; [|done].
  by rewrite Z.lxor_assoc, Z.lxor_nilpotent, Z.lxor_0_r.
Qed.

Lemma header_len_bounds packet k n : header_len packet k = Some n -> 32 <= n <= length packet.
Proof.
  unfold header_len. intros (t&_&H)%bind_Some. cbv beta zeta in H.
  repeat match type of H with context [if ?b then _ else _] => destruct b eqn:?E end; try done;
    injection H as <-; repeat match goal with E : (_ <=? _) = true |- _ => apply Nat.leb_le in E end;
    unfold HANDSHAKE_INIT_SZ, HANDSHAKE_RESP_SZ, COOKIE_REPLY_SZ, DATA_OVERHEAD_SZ in *; lia.
Qed.

(** The header length depends on the type of the message and the length of the packet alone. *)
Lemma header_len_ext p q k j :
  length p = length q -> (fun t => Z.lxor t k) <$> head p = (fun t => Z.lxor t j) <$> head q ->
  header_len p k = header_len q j.
Proof.
  intros Hl Ht. unfold header_len. rewrite Hl.
  destruct p as [|t p], q as [|u q]; try done. injection Ht as Ht. simpl. by rewrite Ht.
Qed.

Lemma obfuscation_bit_set r : is_obfuscated (Z.lor r OBFUSCATION_BIT) = true.
Proof.
  unfold is_obfuscated. apply negb_true_iff, Z.eqb_neq. intros E.
  apply (f_equal (fun z => Z.testbit z 7)) in E. rewrite Z.land_spec, Z.lor_spec in E.
  change (Z.testbit OBFUSCATION_BIT 7) with true in E. by rewrite orb_true_r in E.
Qed.

Lemma lwo_obfuscate_shape rand packet key n :
  header_len packet 0 = Some n ->
  exists header, lwo_obfuscate rand packet key = header ++ drop n packet /\ length header = n
    /\ header = <[1 := Z.lor (rand mod 255) OBFUSCATION_BIT]> (xor_bytes (take n packet) key).
Proof.
  intros Hn. unfold lwo_obfuscate. rewrite Hn. eexists. split; [done|]. split; [|done].
  rewrite length_insert, xor_bytes_length, length_take. apply header_len_bounds in Hn. lia.
Qed.

(** What the receiver recovers: the packet with its second byte cleared. *)
Lemma lwo_restores debug rand packet key :
  key <> [] -> wireguard_packet packet ->
  lwo_deobfuscate debug (lwo_obfuscate rand packet key) key = <[1 := 0%Z]> packet.
Proof.
  intros Hk [n Hn]. pose proof (header_len_bounds _ _ _ Hn) as Hb.
  destruct (lwo_obfuscate_shape rand packet key n Hn) as (h&->&Hlen&Hh).
  unfold lwo_deobfuscate. rewrite (header_len_ext _ packet _ 0), Hn.
  - rewrite take_app_length', drop_app_length' by done.
    rewrite (nth_lookup_Some _ 1 _ (Z.lor (rand mod 255) OBFUSCATION_BIT)), obfuscation_bit_set, andb_false_r.
    2: { rewrite Hh. apply list_lookup_insert_eq. rewrite xor_bytes_length, length_take. lia. }
    assert (<[1 := 0%Z]> (xor_bytes h key) = <[1 := 0%Z]> (take n packet)) as ->.
    { apply list_eq. intros i. destruct (decide (i = 1)) as [->|Hi].
      - rewrite !list_lookup_insert_eq; rewrite ?xor_bytes_length, ?length_take; [done|lia|lia].
      - rewrite !list_lookup_insert_ne by done. rewrite Hh, xor_bytes_lookup, list_lookup_insert_ne by done.
        rewrite <- xor_bytes_lookup. by rewrite xor_bytes_involutive. }
    rewrite <- insert_app_l by (rewrite length_take; lia). by rewrite take_drop.
  - rewrite length_app, length_drop. lia.
  - destruct packet as [|t packet]; [simpl in Hb; lia|]. rewrite Hh.
    destruct n as [|[|n]]; [lia|lia|]. destruct key as [|k0 key]; [done|].
    destruct packet as [|u packet]; [simpl in Hb; lia|]. simpl.
    by rewrite Nat.sub_diag, Z.lxor_assoc, Z.lxor_nilpotent.
Qed.

Lemma wireguard_cleared packet :
  nth 1 packet 0%Z = 0%Z -> wireguard_packet packet -> <[1 := 0%Z]> packet = packet.
Proof.
  intros H0 [n Hn]. apply header_len_bounds in Hn. destruct packet as [|t [|u packet]]; simpl in *; try lia.
  by rewrite H0.
Qed.

(** LWO is transparent to WireGuard and marks what it sends.  Every packet of a WireGuard message type,
    with the reserved byte zero as WireGuard sends it, arrives as it was sent, whatever random bytes are
    drawn; on the wire it keeps its length and everything after the header, and carries the mark in its
    second byte.  Anything else is sent as it is. *)
Theorem lwo_transparent debug rand packet key :
  length key = 32 ->
  (wireguard_packet packet -> nth 1 packet 0%Z = 0%Z ->
     lwo_deobfuscate debug (lwo_obfuscate rand packet key) key = packet
     /\ length (lwo_obfuscate rand packet key) = length packet
     /\ is_obfuscated (nth 1 (lwo_obfuscate rand packet key) 0%Z) = true
     /\ forall n, header_len packet 0 = Some n -> drop n (lwo_obfuscate rand packet key) = drop n packet)
  /\ (~ wireguard_packet packet -> lwo_obfuscate rand packet key = packet).
Proof.
  intros Hk. assert (key <> []) as Hne by (by destruct key). split.
  - intros Hwg H0. rewrite lwo_restores, wireguard_cleared by done. destruct Hwg as [n Hn].
    pose proof (header_len_bounds _ _ _ Hn) as Hb.
    destruct (lwo_obfuscate_shape rand packet key n Hn) as (h&E&Hlen&Hh). rewrite E.
    split_and!; [done | rewrite length_app, length_drop; lia | |].
    + rewrite app_nth1 by lia.
      rewrite (nth_lookup_Some _ 1 _ (Z.lor (rand mod 255) OBFUSCATION_BIT)); [apply obfuscation_bit_set|].
      rewrite Hh. apply list_lookup_insert_eq. rewrite xor_bytes_length, length_take. lia.
    + intros n'. rewrite Hn. intros [= <-]. by rewrite drop_app_length'.
  - intros Hwg. unfold lwo_obfuscate. destruct (header_len packet 0) eqn:E; [|done]. exfalso. apply Hwg.
    by eexists.
Qed.

Lemma lwo_transparent_witness :
  let packet := 4%Z :: replicate 40 0%Z in
  let key := replicate 32 170%Z in
  lwo_deobfuscate false (lwo_obfuscate 1234 packet key) key = packet
  /\ lwo_obfuscate 1234 packet key <> packet.
Proof.
  intros packet key.
  destruct (lwo_transparent false 1234 packet key eq_refl) as [H _].
  destruct H as [H _]; [by exists 32 | reflexivity|]. split; [exact H|]. by vm_compute.
Defined.

(** The receiver cannot tell a packet that was sent as it is from an obfuscated one: with a key that starts
    with 1, a packet whose first byte is 5 has type 4 once xored, and is altered on arrival. *)
Theorem lwo_alters_unknown :
  let packet := 5%Z :: replicate 40 0%Z in
  let key := replicate 32 1%Z in
  lwo_obfuscate 0 packet key = packet /\ lwo_deobfuscate false packet key <> packet.
Proof. by vm_compute. Qed.

(** The sending task feeds the receiving task at the other end. *)
Lemma run_obfuscation_map f k packets :
  run_obfuscation_inner f k (map Some packets) (replicate (length packets) true)
  = imap (fun i => f (k + i)) packets.
Proof.
  revert k. induction packets as [|p ps IH]; intros k; [done|]. cbn [map length replicate run_obfuscation_inner].
  rewrite IH, imap_cons, Nat.add_0_r. f_equal. apply imap_ext. intros i x _. simpl. by rewrite Nat.add_succ_r.
Qed.

Lemma lwo_pipeline debug key rands packets :
  key <> [] -> Forall (fun p => wireguard_packet p /\ nth 1 p 0%Z = 0%Z) packets ->
  let sent := run_obfuscation true debug key rands (map Some packets) (replicate (length packets) true) in
  run_obfuscation false debug key rands (map Some sent) (replicate (length sent) true) = packets.
Proof.
  intros Hk Hp. cbv zeta. unfold run_obfuscation. rewrite !run_obfuscation_map.
  apply list_eq. intros i. rewrite !list_lookup_imap. destruct (packets !! i) as [p|] eqn:E; [|done]. simpl.
  rewrite Forall_lookup in Hp. destruct (Hp i p E) as [Hwg H0].
  by rewrite lwo_restores, wireguard_cleared.
Qed.
