(* ===== verification/Multiplexer.v ===== *)
(** * The multiplexer of obfuscation transports

    [src/tunnel-obfuscation/src/multiplexer.rs]: WireGuard's packets are sent over several transports at
    once until one of them answers.

    The events of the [select] loops are inputs with the outcomes of the sockets and of starting an
    obfuscator; what is sent is output.  A send that fails is logged and otherwise like one that
    succeeds, except where the connected mode ends because of it. *)

From stdpp Require Import base list strings option numbers sets.
From S2P Require Import Prelude NetTypes.

Definition MAX_INITIAL_PACKETS : nat := 100.

Section multiplexer.
(** The settings of an obfuscator and the packets are opaque. *)
Context {Settings Packet : Type}.

Inductive Transport : Type :=
| Direct (addr : SocketAddr)
| Obfuscated (settings : Settings).

(** The map of running endpoints is sorted by address. *)
Record Multiplexer : Type := {
  running_endpoints : list (SocketAddr * Transport);
  transports : list Transport;
  initial_packets_to_send : list Packet;
  wg_addr : option SocketAddr;
}.

Definition multiplexer_new (transports : list Transport) : Multiplexer :=
  {| running_endpoints := []; transports := transports; initial_packets_to_send := []; wg_addr := None |}.

(** [BTreeMap::insert] and [BTreeMap::get]. *)
Fixpoint endpoint_insert (a : SocketAddr) (t : Transport) (m : list (SocketAddr * Transport))
  : list (SocketAddr * Transport) :=
  match m with
  | [] => [(a, t)]
  | (b, u) :: m =>
      match SocketAddr_cmp a b with
      | Lt => (a, t) :: (b, u) :: m
      | Eq => (a, t) :: m
      | Gt => (b, u) :: endpoint_insert a t m
      end
  end.

Definition endpoint_get (a : SocketAddr) (m : list (SocketAddr * Transport)) : option Transport :=
  snd <$> (snd <$> list_find (fun e => e.1 = a) m).

Inductive Sent : Type :=
| ToProxy (addr : SocketAddr) (p : Packet)
| ToWireGuard (addr : SocketAddr) (p : Packet).

(** What the task does next. *)
Inductive Phase : Type :=
| Discovery (m : Multiplexer)
| Connected (m : Multiplexer) (local_address proxy_address : SocketAddr)
| Stopped (ok : bool).

Definition send_to_all (m : Multiplexer) (p : Packet) : list Sent :=
  map (fun e => ToProxy e.1 p) (running_endpoints m).

(** The branch of WireGuard's socket: [recv] is a packet and its source, or a failure. *)
Definition from_wireguard (recv : option (Packet * SocketAddr)) (m : Multiplexer) : Phase * list Sent :=
  match recv with
  | None => (Stopped true, [])
  | Some (pkt, from_addr) =>
      if MAX_INITIAL_PACKETS <=? length (initial_packets_to_send m) then (Stopped false, [])
      else
        let m := {| running_endpoints := running_endpoints m; transports := transports m;
                    initial_packets_to_send := initial_packets_to_send m ++ [pkt];
                    wg_addr := Some from_addr |} in
        (Discovery m, send_to_all m pkt)
  end.

(** [connects]: whether connecting the client socket succeeds. *)
Definition process_obfuscator_recv (recv : option (Packet * SocketAddr)) (connects : bool) (m : Multiplexer)
  : Phase * list Sent :=
  match recv with
  | None => (Stopped false, [])
  | Some (received, obfuscator_addr) =>
      match endpoint_get obfuscator_addr (running_endpoints m), wg_addr m with
      | Some _, Some wg_addr =>
          (if connects then Connected m wg_addr obfuscator_addr else Stopped false,
           [ToWireGuard wg_addr received])
      | _, _ => (Discovery m, [])
      end
  end.

Definition send_initial_packets_to (endpoint : SocketAddr) (m : Multiplexer) : list Sent :=
  map (ToProxy endpoint) (initial_packets_to_send m).

(** [started] is the endpoint of the obfuscator that was created, if that succeeded. *)
Definition spawn_new_transport (t : Transport) (started : option SocketAddr) (m : Multiplexer)
  : Multiplexer * list Sent :=
  match match t with Direct addr => Some addr | Obfuscated _ => started end with
  | None => (m, [])
  | Some endpoint =>
      ({| running_endpoints := endpoint_insert endpoint t (running_endpoints m); transports := transports m;
          initial_packets_to_send := initial_packets_to_send m; wg_addr := wg_addr m |},
       send_initial_packets_to endpoint m)
  end.

Definition tick (started : option SocketAddr) (m : Multiplexer) : Multiplexer * list Sent :=
  match transports m with
  | [] => (m, [])
  | t :: ts =>
      spawn_new_transport t started
        {| running_endpoints := running_endpoints m; transports := ts;
           initial_packets_to_send := initial_packets_to_send m; wg_addr := wg_addr m |}
  end.

Inductive MuxEvent : Type :=
| WgRecv (recv : option (Packet * SocketAddr)) (send_ok : bool)
| ProxyRecv (recv : option (Packet * SocketAddr)) (connects send_ok : bool)
| Tick (started : option SocketAddr)
| TasksGone.

(** The two tasks of [run_connected]: a socket that fails ends them with an error; [TasksGone] is that both
    panicked, after which the loop of [start] goes on. *)
Definition connected_step (e : MuxEvent) (m : Multiplexer) (local_address proxy_address : SocketAddr)
  : Phase * list Sent :=
  let stay (send_ok : bool) := if send_ok then Connected m local_address proxy_address else Stopped false in
  match e with
  | WgRecv (Some (p, _)) send_ok => (stay send_ok, [ToProxy proxy_address p])
  | ProxyRecv (Some (p, _src)) _ send_ok => (stay send_ok, [ToWireGuard local_address p])
  | WgRecv None _ | ProxyRecv None _ _ => (Stopped false, [])
  | Tick _ => (stay true, [])
  | TasksGone => (Discovery m, [])
  end.

(** One round of [start], or of [run_connected]. *)
Definition mux_step (e : MuxEvent) (ph : Phase) : Phase * list Sent :=
  match ph, e with
  | Discovery m, WgRecv recv _ => from_wireguard recv m
  | Discovery m, ProxyRecv recv connects _ => process_obfuscator_recv recv connects m
  | Discovery m, Tick started => let '(m, sent) := tick started m in (Discovery m, sent)
  | Discovery m, TasksGone => (Discovery m, [])
  | Connected m local proxy, e => connected_step e m local proxy
  | Stopped ok, _ => (Stopped ok, [])
  end.

Fixpoint mux_run (es : list MuxEvent) (ph : Phase) : Phase * list Sent :=
  match es with
  | [] => (ph, [])
  | e :: es =>
      let '(ph, sent) := mux_step e ph in
      let '(ph, sent') := mux_run es ph in (ph, sent ++ sent')
  end.
End multiplexer.

Arguments Transport : clear implicits.
Arguments Multiplexer : clear implicits.
Arguments MuxEvent : clear implicits.
Arguments Phase : clear implicits.
Arguments Sent : clear implicits.
