(* ===== verification/MultiplexerProps.v ===== *)
(** * What is proved about the multiplexer

    While it looks for a transport, every endpoint that runs is sent everything WireGuard has sent, in
    order; the first endpoint that answers is the one selected, and from then on the only one used. *)

From stdpp Require Import base list strings option numbers sets.
From Stdlib Require Import Sorted.
From S2P Require Import Prelude NetTypes Multiplexer.

Lemma SocketAddr_cmp_antisym : cmp_antisym SocketAddr_cmp.
Proof.
  intros x y. unfold SocketAddr_cmp. apply lexico_antisym; [apply IpAddr_cmp_antisym | apply Z.compare_antisym].
Qed.

Lemma SocketAddr_cmp_trans : cmp_trans SocketAddr_cmp.
Proof.
  apply (lexico_trans IpAddr_cmp Z.compare sa_ip sa_port);
    [apply IpAddr_cmp_trans | by intros ?? ?%IpAddr_cmp_Eq | apply Z_cmp_trans].
Qed.

Section props.
Context {Settings Packet : Type}.
Implicit Types m : Multiplexer Settings Packet.

Definition endpoints m : list SocketAddr := map fst (running_endpoints m).

Definition sorted_endpoints (l : list (SocketAddr * Transport Settings)) : Prop :=
  StronglySorted (fun a b => SocketAddr_cmp a b = Lt) (map fst l).

Lemma endpoint_insert_elem a t (l : list (SocketAddr * Transport Settings)) b :
  b ∈ map fst (endpoint_insert a t l) <-> b = a \/ b ∈ map fst l.
Proof.
  induction l as [|[c u] l IH]; simpl; [set_solver|].
  destruct (SocketAddr_cmp a c) eqn:E; simpl.
  - apply SocketAddr_cmp_Eq in E as ->. set_solver.
  - set_solver.
  - rewrite elem_of_cons, IH. set_solver.
Qed.

Lemma endpoint_insert_sorted a t l : sorted_endpoints l -> sorted_endpoints (endpoint_insert a t l).
Proof.
  unfold sorted_endpoints. induction l as [|[c u] l IH]; simpl; intros Hs; [by repeat constructor|].
  apply StronglySorted_inv in Hs as [Hs Hall].
  destruct (SocketAddr_cmp a c) eqn:E; simpl.
  - apply SocketAddr_cmp_Eq in E as ->. by constructor.
  - constructor; [by constructor|]. constructor; [done|].
    eapply Forall_impl; [exact Hall|]. intros b Hb. by eapply SocketAddr_cmp_trans.
  - constructor; [by apply IH|]. apply Forall_forall. intros b [->|Hb]%endpoint_insert_elem.
    + rewrite (SocketAddr_cmp_antisym a c), E. done.
    + rewrite Forall_forall in Hall. by apply Hall.
Qed.

Lemma sorted_NoDup l : sorted_endpoints l -> NoDup (map fst l).
Proof.
  unfold sorted_endpoints. induction 1 as [|a k Hs IH Hall]; constructor; [|done].
  intros Hin. rewrite Forall_forall in Hall. specialize (Hall a Hin).
  by rewrite (proj2 (SocketAddr_cmp_Eq a a) eq_refl) in Hall.
Qed.

Lemma endpoint_get_elem a (l : list (SocketAddr * Transport Settings)) :
  is_Some (endpoint_get a l) <-> a ∈ map fst l.
Proof.
  unfold endpoint_get. rewrite !fmap_is_Some. split.
  - intros [[i e] Hf]. apply list_find_Some in Hf as (Hi%list_elem_of_lookup_2&<-&_).
    apply list_elem_of_fmap. by exists e.
  - intros (e&->&He)%list_elem_of_fmap. by apply (list_find_elem_of _ l e).
Qed.

(** What was sent to one endpoint, and to WireGuard. *)
Definition sent_to (a : SocketAddr) (sent : list (Sent Packet)) : list Packet :=
  omap (fun s => match s with ToProxy b p => if decide (a = b) then Some p else None | _ => None end) sent.

Definition sent_to_wireguard (sent : list (Sent Packet)) : list Packet :=
  omap (fun s => match s with ToWireGuard _ p => Some p | _ => None end) sent.

(** What WireGuard sent. *)
Definition received_from_wireguard (es : list (MuxEvent Packet)) : list Packet :=
  omap (fun e => match e with WgRecv (Some (p, _)) _ => Some p | _ => None end) es.

Definition ticks (es : list (MuxEvent Packet)) : nat :=
  length (List.filter (fun e => match e with Tick _ => true | _ => false end) es).

Lemma sent_to_app a s s' : sent_to a (s ++ s') = sent_to a s ++ sent_to a s'.
Proof. apply omap_app. Qed.

Lemma sent_to_proxy a b p s :
  sent_to a (ToProxy b p :: s) = if decide (a = b) then p :: sent_to a s else sent_to a s.
Proof. unfold sent_to. cbn. by case_decide. Qed.

Lemma sent_to_map a b (l : list Packet) : sent_to a (map (ToProxy b) l) = if decide (a = b) then l else [].
Proof.
  induction l as [|p l IH]; [by case_decide|]. cbn [map]. rewrite sent_to_proxy, IH. by case_decide.
Qed.

Lemma sent_to_all a m p :
  NoDup (endpoints m) -> sent_to a (send_to_all m p) = if decide (a ∈ endpoints m) then [p] else [].
Proof.
  unfold endpoints, send_to_all. induction (running_endpoints m) as [|[b t] l IH]; [done|]. cbn [map fst].
  rewrite NoDup_cons. intros [Hb Hl]. rewrite sent_to_proxy. case_decide as E.
  - subst. rewrite IH by done. repeat case_decide; set_solver.
  - rewrite IH by done. repeat case_decide; set_solver.
Qed.

Definition discovery_inv (ts : list (Transport Settings)) es m sent : Prop :=
  sorted_endpoints (running_endpoints m)
  /\ initial_packets_to_send m = received_from_wireguard es
  /\ length (initial_packets_to_send m) <= MAX_INITIAL_PACKETS
  /\ transports m = drop (ticks es) ts
  /\ (forall a, a ∈ endpoints m -> initial_packets_to_send m `suffix_of` sent_to a sent)
  /\ (forall a, a ∉ endpoints m -> sent_to a sent = [])
  /\ sent_to_wireguard sent = [].

Lemma ticks_app es es' : ticks (es ++ es') = ticks es + ticks es'.
Proof. unfold ticks. by rewrite List.filter_app, length_app. Qed.

Lemma discovery_wireguard ts es m sent recv ok m' s :
  discovery_inv ts es m sent -> from_wireguard recv m = (Discovery m', s) ->
  discovery_inv ts (es ++ [WgRecv recv ok]) m' (sent ++ s).
Proof.
  intros (Hs&Hi&Hl&Ht&Hin&Hout&Hwg). unfold from_wireguard. destruct recv as [[p from]|]; [|done].
  destruct (Nat.leb_spec MAX_INITIAL_PACKETS (length (initial_packets_to_send m))); [done|].
  intros [= <- <-]. assert (NoDup (endpoints m)) as Hnd by (by apply sorted_NoDup).
  unfold discovery_inv, endpoints in *. cbn [running_endpoints initial_packets_to_send transports].
  split_and!; try done.
  - rewrite Hi. unfold received_from_wireguard. by rewrite omap_app.
  - rewrite length_app. simpl. lia.
  - by rewrite ticks_app, Nat.add_0_r.
  - intros a Ha. rewrite sent_to_app, sent_to_all by done. rewrite decide_True by done.
    by apply suffix_app, Hin.
  - intros a Ha. rewrite sent_to_app, sent_to_all by done. rewrite decide_False by done. by rewrite Hout.
  - unfold sent_to_wireguard in *. rewrite omap_app, Hwg. unfold send_to_all. simpl. clear.
    by induction (running_endpoints m).
Qed.

Lemma discovery_tick ts es m sent started m' s :
  discovery_inv ts es m sent -> tick started m = (m', s) ->
  discovery_inv ts (es ++ [Tick started]) m' (sent ++ s).
Proof.
  intros (Hs&Hi&Hl&Ht&Hin&Hout&Hwg). unfold tick, spawn_new_transport.
  assert (received_from_wireguard (es ++ [Tick started]) = received_from_wireguard es) as Hrecv.
  { unfold received_from_wireguard. by rewrite omap_app, app_nil_r. }
  assert (forall (l k : list (Transport Settings)), drop (ticks es) l = k -> drop (ticks (es ++ [Tick started])) l = drop 1 k) as Hdrop.
  { intros l k <-. by rewrite ticks_app, drop_drop. }
  assert (forall l, sent_to_wireguard (map (ToProxy l) (initial_packets_to_send m)) = []) as Hnone.
  { intros l. unfold sent_to_wireguard. clear. by induction (initial_packets_to_send m). }
  destruct (transports m) as [|t ts'] eqn:Et.
  { intros [= <- <-]. rewrite app_nil_r. unfold discovery_inv. rewrite Hrecv, Et.
    by rewrite (Hdrop ts []). }
  assert (drop (ticks (es ++ [Tick started])) ts = ts') as Hts by (by rewrite (Hdrop ts (t :: ts'))).
  destruct (match t with Direct addr => Some addr | Obfuscated _ => started end) as [a|]; intros [= <- <-];
    unfold discovery_inv, endpoints, send_initial_packets_to in *;
    cbn [running_endpoints initial_packets_to_send transports]; rewrite Hrecv, Hts.
  - split_and!; try done; [by apply endpoint_insert_sorted| | |].
    + intros b. rewrite sent_to_app, sent_to_map, endpoint_insert_elem. case_decide as E.
      * intros _. by apply suffix_app_r.
      * intros [->|Hb]; [done|]. rewrite app_nil_r. by apply Hin.
    + intros b. rewrite sent_to_app, sent_to_map, endpoint_insert_elem. case_decide as E; [naive_solver|].
      intros Hb. rewrite Hout by naive_solver. done.
    + unfold sent_to_wireguard in *. by rewrite omap_app, Hwg, Hnone.
  - rewrite app_nil_r. by split_and!.
Qed.

Lemma discovery_recv ts es m sent recv c ok m' s :
  discovery_inv ts es m sent -> process_obfuscator_recv recv c m = (Discovery m', s) ->
  m' = m /\ s = [] /\ discovery_inv ts (es ++ [ProxyRecv recv c ok]) m' (sent ++ s).
Proof.
  intros Hinv. unfold process_obfuscator_recv. destruct recv as [[p a]|]; [|done]. intros Hm.
  assert (m' = m /\ s = []) as [-> ->].
  { destruct (endpoint_get _ _), (wg_addr m), c; by inversion Hm. }
  split_and!; [done..|]. rewrite app_nil_r. unfold discovery_inv in *.
  unfold received_from_wireguard. rewrite omap_app, app_nil_r, ticks_app, Nat.add_0_r. done.
Qed.

Lemma mux_run_snoc es e (ph : Phase Settings Packet) :
  mux_run (es ++ [e]) ph =
  let '(ph1, s) := mux_run es ph in let '(ph2, s') := mux_step e ph1 in (ph2, s ++ s').
Proof.
  revert ph. induction es as [|e' es IH]; intros ph; simpl.
  - destruct (mux_step e ph). by rewrite app_nil_r.
  - destruct (mux_step e' ph) as [ph1 s1]. rewrite IH. destruct (mux_run es ph1) as [ph2 s2].
    destruct (mux_step e ph2). by rewrite app_assoc.
Qed.

(** Discovery is not resumed unless both tasks of the connected mode are gone. *)
Lemma step_discovery e (ph : Phase Settings Packet) m s :
  e <> TasksGone -> mux_step e ph = (Discovery m, s) -> exists m', ph = Discovery m'.
Proof.
  intros He. destruct ph as [m'|m' l p|ok]; [by exists m'| |done].
  destruct e as [[[? ?]|] []|[[? ?]|] ? []| |]; done.
Qed.

Lemma discovery_run ts es m sent :
  TasksGone ∉ es -> mux_run es (Discovery (multiplexer_new ts)) = (Discovery m, sent) ->
  discovery_inv ts es m sent.
Proof.
  revert m sent. induction es as [|e es IH] using rev_ind; intros m sent Hes.
  - intros [= <- <-]. split_and!; simpl; try done; [apply SSorted_nil | unfold MAX_INITIAL_PACKETS; lia].
  - rewrite mux_run_snoc. destruct (mux_run es _) as [ph1 s1] eqn:E1.
    destruct (mux_step e ph1) as [ph2 s2] eqn:E2. intros [= -> <-].
    destruct (step_discovery e ph1 m s2) as [m1 ->]; [set_solver | done|].
    specialize (IH m1 s1 ltac:(set_solver) eq_refl). destruct e as [recv ok|recv c ok|started|]; simpl in E2.
    + by apply (discovery_wireguard ts es m1).
    + by apply (discovery_recv ts es m1 s1 recv c ok m s2).
    + destruct (tick started m1) as [m2 s3] eqn:Et. injection E2 as <- <-. by apply (discovery_tick ts es m1).
    + set_solver.
Qed.

(** Discovery.  While no transport has answered, the transports are started one per tick in the order
    given, at most 100 packets are kept, which are those WireGuard has sent, every running endpoint has
    been sent all of them, in order, since it was started, no other address has been sent anything, and
    WireGuard nothing. *)
Theorem mux_discovery ts es m sent :
  TasksGone ∉ es -> mux_run es (Discovery (multiplexer_new ts)) = (Discovery m, sent) ->
  transports m = drop (ticks es) ts
  /\ length (received_from_wireguard es) <= MAX_INITIAL_PACKETS
  /\ (forall a, a ∈ endpoints m -> received_from_wireguard es `suffix_of` sent_to a sent)
  /\ (forall a, a ∉ endpoints m -> sent_to a sent = [])
  /\ sent_to_wireguard sent = [].
Proof. intros Hes (_&Hi&Hl&Ht&Hin&Hout&Hwg)%discovery_run; [|done]. by rewrite <- Hi. Qed.

(** The connected mode ends only by stopping, and forwards between its two ends only. *)
Definition between (local proxy : SocketAddr) (s : Sent Packet) : Prop :=
  match s with ToProxy a _ => a = proxy | ToWireGuard a _ => a = local end.

Lemma step_connected e m l p (ph : Phase Settings Packet) s :
  e <> TasksGone -> mux_step e (Connected m l p) = (ph, s) ->
  (ph = Connected m l p \/ ph = Stopped false) /\ Forall (between l p) s.
Proof.
  intros He Hs. destruct e as [[[q a]|] []|[[q a]|] c []| |]; simpl in Hs; injection Hs as <- <-; try done;
    (split; [by auto|]); repeat constructor.
Qed.

Lemma step_selects e m m' l p s :
  mux_step e (Discovery m) = (Connected m' l p, s) ->
  exists reply ok, e = ProxyRecv (Some (reply, p)) true ok /\ m' = m /\ p ∈ endpoints m /\ wg_addr m = Some l
                   /\ s = [ToWireGuard l reply].
Proof.
  destruct e as [recv ok|recv c ok|started|]; simpl; try done.
  - unfold from_wireguard. destruct recv as [[q a]|]; [|done]. by destruct (_ <=? _).
  - unfold process_obfuscator_recv. destruct recv as [[q a]|]; [|done].
    destruct (endpoint_get a (running_endpoints m)) eqn:Ea; [|done].
    destruct (wg_addr m) as [w|] eqn:Ew; [|done]. destruct c; [|done]. intros [= <- <- <- <-].
    exists q, ok. split_and!; try done. apply endpoint_get_elem. by eexists.
  - by destruct (tick started m).
Qed.

(** The first response wins.  If the multiplexer is connected to an endpoint, the endpoint was running
    and WireGuard's address known when a packet from the endpoint arrived, before which nothing had been
    passed to WireGuard; this packet was, and since then everything is forwarded between WireGuard and
    this endpoint alone. *)
Theorem mux_first_response_wins ts es m l p sent :
  TasksGone ∉ es -> mux_run es (Discovery (multiplexer_new ts)) = (Connected m l p, sent) ->
  exists es1 es2 reply ok sent1 sent2,
    es = es1 ++ ProxyRecv (Some (reply, p)) true ok :: es2
    /\ mux_run es1 (Discovery (multiplexer_new ts)) = (Discovery m, sent1)
    /\ p ∈ endpoints m /\ wg_addr m = Some l
    /\ sent = sent1 ++ ToWireGuard l reply :: sent2
    /\ sent_to_wireguard sent1 = [] /\ Forall (between l p) sent2.
Proof.
  revert m sent. induction es as [|e es IH] using rev_ind; intros m sent Hes; [done|].
  rewrite mux_run_snoc. destruct (mux_run es _) as [ph1 s1] eqn:E1.
  destruct (mux_step e ph1) as [ph2 s2] eqn:E2. intros [= -> <-].
  destruct ph1 as [m1|m1 l1 p1|]; [| |done].
  - destruct (step_selects e m1 m l p s2 E2) as (reply&ok&->&->&Hp&Hw&->).
    exists es, [], reply, ok, s1, []. split_and!; try done.
    by destruct (discovery_run ts es m1 s1 ltac:(set_solver) E1) as (_&_&_&_&_&_&?).
  - destruct (step_connected e m1 l1 p1 (Connected m l p) s2) as [[[= -> -> ->]|?] Hb]; [set_solver|done| |done].
    destruct (IH m1 s1 ltac:(set_solver) eq_refl) as (es1&es2&reply&ok&t1&t2&->&H1&Hp&Hw&->&Hn&Hb2).
    exists es1, (es2 ++ [e]), reply, ok, t1, (t2 ++ s2). rewrite <- !app_assoc. split_and!; try done.
    by apply Forall_app.
Qed.
End props.

(** ** A run *)
Definition host (n : Z) : SocketAddr := {| sa_ip := V4 n; sa_port := 1 |}.

Definition mux_events : list (MuxEvent nat) :=
  [Tick None; WgRecv (Some (7, host 100)) true; Tick (Some (host 2)); WgRecv (Some (8, host 100)) true].

Definition mux_transports : list (Transport unit) := [Direct (host 1); Obfuscated ()].

Lemma mux_discovery_witness :
  exists m sent, mux_run mux_events (Discovery (multiplexer_new mux_transports)) = (Discovery m, sent)
    /\ [7; 8] `suffix_of` sent_to (host 2) sent.
Proof.
  eexists _, _. split; [vm_compute; reflexivity|].
  refine (proj1 (proj2 (proj2 (mux_discovery mux_transports mux_events _ _ _ eq_refl))) (host 2) _); [|right; left].
  unfold mux_events. cbn [app]. rewrite !not_elem_of_cons. by split_and!; try apply not_elem_of_nil.
Defined.

Lemma mux_first_response_wins_witness :
  exists m sent, mux_run (mux_events ++ [ProxyRecv (Some (9, host 2)) true true; WgRecv (Some (10, host 100)) true])
      (Discovery (multiplexer_new mux_transports)) = (Connected m (host 100) (host 2), sent)
    /\ host 2 ∈ endpoints m.
Proof.
  eexists _, _. split; [vm_compute; reflexivity|].
  edestruct (mux_first_response_wins mux_transports
    (mux_events ++ [ProxyRecv (Some (9, host 2)) true true; WgRecv (Some (10, host 100)) true]))
    as (?&?&?&?&?&?&_&_&Hp&_); [|vm_compute; reflexivity|exact Hp].
  unfold mux_events. cbn [app]. rewrite !not_elem_of_cons. by split_and!; try apply not_elem_of_nil.
Defined.
