(* ===== verification/SettingsPatch.v ===== *)
(** * Settings patches

    [src/mullvad-daemon/src/settings/patch.rs]: changing the settings with a piece of JSON that comes
    from somewhere else, which must not touch anything but relay overrides; the format is specified in
    [src/docs/settings-patch-format.md].

    A JSON object is the list of its entries sorted by key, as in [serde_json]'s [BTreeMap].  Parsing,
    and the (derived) conversions between [Settings] and JSON, are parameters. *)

From stdpp Require Import base list strings option numbers sets.
From S2P Require Import Prelude.
From Stdlib Require Import String.
Local Open Scope list_scope.
Local Open Scope vpn_scope.
Local Open Scope string_scope.

(** ** JSON *)
Inductive Value : Type :=
| Null
| Bool (b : bool)
| Number (n : Z)
| Str (s : string)
| Array (l : list Value)
| Object (m : list (string * Value)).

Definition Map : Type := list (string * Value).

Fixpoint map_get (k : string) (m : Map) : option Value :=
  match m with
  | [] => None
  | (k', v) :: m => if decide (k = k') then Some v else map_get k m
  end.

Fixpoint map_insert (k : string) (v : Value) (m : Map) : Map :=
  match m with
  | [] => [(k, v)]
  | (k', v') :: m =>
      match String.compare k k' with
      | Lt => (k, v) :: (k', v') :: m
      | Eq => (k, v) :: m
      | Gt => (k', v') :: map_insert k v m
      end
  end.

Definition as_object (v : Value) : option Map := match v with Object m => Some m | _ => None end.
Definition as_array (v : Value) : option (list Value) := match v with Array l => Some l | _ => None end.
Definition as_str (v : Value) : option string := match v with Str s => Some s | _ => None end.
Definition is_null (v : Value) : bool := match v with Null => true | _ => false end.

(** ** Errors *)
Inductive PatchError : Type :=
| InvalidOrMissingValue (what : string)
| UnknownOrProhibitedKey (key : string)
| ParsePatch
| DeserializePatched
| SerializeSettings
| SerializeValue
| RecursionLimit.

Definition ok_or {A E} (o : option A) (e : E) : result A E :=
  match o with Some a => Ok a | None => Err e end.

(** ** Merging relay overrides *)
Definition patch_hostname (patch_override : Value) : result string PatchError :=
  patch_obj <-? ok_or (as_object patch_override) (InvalidOrMissingValue "override entry");
  ok_or (map_get "hostname" patch_obj ≫= as_str) (InvalidOrMissingValue "hostname").

Definition has_hostname (h : string) (value : Value) : bool :=
  bool_decide ((as_object value ≫= map_get "hostname") ≫= as_str = Some h).

Definition insert_all (patch current : Map) : Map :=
  foldl (fun current e => map_insert e.1 e.2 current) current patch.

(** [find] with a mutable reference: the first entry that matches is updated, or the patch is pushed. *)
Fixpoint merge_override (h : string) (patch_override : Value) (array : list Value)
  : result (list Value) PatchError :=
  match array with
  | [] => Ok [patch_override]
  | value :: array =>
      if has_hostname h value then
        match value, patch_override with
        | Object current, Object patch => Ok (Object (insert_all patch current) :: array)
        | _, _ => Err (InvalidOrMissingValue "all override entries must be objects")
        end
      else array <-? merge_override h patch_override array; Ok (value :: array)
  end.

Fixpoint merge_overrides (patch_array new_array : list Value) : result (list Value) PatchError :=
  match patch_array with
  | [] => Ok new_array
  | patch_override :: patch_array =>
      h <-? patch_hostname patch_override;
      new_array <-? merge_override h patch_override new_array;
      merge_overrides patch_array new_array
  end.

Definition merge_relay_overrides (current_settings patch : Value) : result Value PatchError :=
  if is_null current_settings then Ok patch
  else
    patch_array <-? ok_or (as_array patch) (InvalidOrMissingValue "relay overrides must be array");
    current_array <-? ok_or (as_array current_settings)
                        (InvalidOrMissingValue "existing overrides should be an array");
    new_array <-? merge_overrides patch_array current_array;
    Ok (Array new_array).

(** ** Permitted keys *)
Inductive MergeStrategy : Type :=
| Replace
| Custom (merge_function : Value -> Value -> result Value PatchError).

Inductive PermittedKey : Type :=
| mkPermittedKey (key_type : PermittedKeyValue) (merge_strategy : MergeStrategy)
with PermittedKeyValue : Type :=
| KeyObject (keys : list (string * PermittedKey))
| KeyArray (key : PermittedKey)
| KeyAny.

Definition key_type (k : PermittedKey) : PermittedKeyValue := match k with mkPermittedKey t _ => t end.
Definition merge_strategy (k : PermittedKey) : MergeStrategy := match k with mkPermittedKey _ s => s end.

Definition permitted_object (keys : list (string * PermittedKey)) : PermittedKey :=
  mkPermittedKey (KeyObject keys) Replace.
Definition permitted_array (key : PermittedKey) : PermittedKey := mkPermittedKey (KeyArray key) Replace.
Definition permitted_any : PermittedKey := mkPermittedKey KeyAny Replace.
Definition with_merge_strategy (s : MergeStrategy) (k : PermittedKey) : PermittedKey :=
  mkPermittedKey (key_type k) s.

Definition PERMITTED_SUBKEYS : PermittedKey :=
  permitted_object
    [("relay_overrides",
      with_merge_strategy (Custom merge_relay_overrides)
        (permitted_array (permitted_object
           [("hostname", permitted_any); ("ipv4_addr_in", permitted_any); ("ipv6_addr_in", permitted_any)])))].

Definition RECURSE_LIMIT : nat := 15.

Definition find_permitted (k : string) (keys : list (string * PermittedKey)) : option PermittedKey :=
  snd <$> (snd <$> list_find (fun e => e.1 = k) keys).

(** ** Validation *)
(** The loops over the entries of an object and of an array. *)
Fixpoint try_for_each {A} (f : A -> result unit PatchError) (l : list A) : result unit PatchError :=
  match l with
  | [] => Ok tt
  | a :: l => f a ;? try_for_each f l
  end.

(** [levels] is how many more levels there may be: [RECURSE_LIMIT - recurse_level]. *)
Fixpoint validate_patch_value (levels : nat) (permitted_key : PermittedKey) (json_value : Value)
  : result unit PatchError :=
  match levels with
  | 0 => Err RecursionLimit
  | S levels =>
      match key_type permitted_key with
      | KeyObject subkeys =>
          m <-? ok_or (as_object json_value) (InvalidOrMissingValue "expected JSON object in patch");
          try_for_each (fun e => match find_permitted e.1 subkeys with
                                 | None => Err (UnknownOrProhibitedKey e.1)
                                 | Some subkey => validate_patch_value levels subkey e.2
                                 end) m
      | KeyArray subkey =>
          values <-? ok_or (as_array json_value) (InvalidOrMissingValue "expected JSON array in patch");
          try_for_each (validate_patch_value levels subkey) values
      | KeyAny => Ok tt
      end
  end.

(** ** Merging *)
Fixpoint merge_patch_to_value (levels : nat) (permitted_key : PermittedKey) (current_value patch_value : Value)
  : result Value PatchError :=
  match levels with
  | 0 => Err RecursionLimit
  | S levels =>
      match merge_strategy permitted_key with
      | Custom merge_function => merge_function current_value patch_value
      | Replace =>
          match key_type permitted_key, current_value, patch_value with
          | KeyObject sub_permitted, Object current, Object patch =>
              (fix merge_entries (patch current : Map) : result Value PatchError :=
                 match patch with
                 | [] => Ok (Object current)
                 | (k, sub_patch) :: patch =>
                     match find_permitted k sub_permitted with
                     | None => Err (UnknownOrProhibitedKey k)
                     | Some sub_permitted =>
                         let sub_current := default Null (map_get k current) in
                         sub <-? merge_patch_to_value levels sub_permitted sub_current sub_patch;
                         merge_entries patch (map_insert k sub current)
                     end
                 end) patch current
          | _, _, patch => Ok patch
          end
      end
  end.

(** ** Applying a patch *)
Section settings.
Context {Settings : Type}.
(** [serde_json::to_value], [from_value] and [from_str]. *)
Context (to_value : Settings -> option Value) (from_value : Value -> option Settings).
Context (from_str : string -> option Value).

Definition merge_validate_patch_inner (settings : Settings) (json_patch : string) : result Settings PatchError :=
  settings_value <-? ok_or (to_value settings) SerializeSettings;
  patch_value <-? ok_or (from_str json_patch) ParsePatch;
  validate_patch_value RECURSE_LIMIT PERMITTED_SUBKEYS patch_value ;?
  settings_value <-? merge_patch_to_value RECURSE_LIMIT PERMITTED_SUBKEYS settings_value patch_value;
  ok_or (from_value settings_value) DeserializePatched.

(** [merge_validate_patch]: [update] is whether the new settings could be stored, which the settings
    persister requires. *)
Definition merge_validate_patch (update : Settings -> bool) (settings : Settings) (json_patch : string)
  : result Settings (PatchError + unit) :=
  new_settings <-? map_err inl (merge_validate_patch_inner settings json_patch);
  if update new_settings then Ok new_settings else Err (inr tt).
End settings.

(** ** Exporting *)
Record RelayOverride : Type := {
  hostname : string;
  ipv4_addr_in : option string;
  ipv6_addr_in : option string;
}.

Definition override_value (o : RelayOverride) : Map :=
  [("hostname", Str (hostname o)); ("ipv4_addr_in", from_option Str Null (ipv4_addr_in o));
   ("ipv6_addr_in", from_option Str Null (ipv6_addr_in o))].

(** The body of the loop: [None] where it continues without a push. *)
Definition export_override (o : RelayOverride) : option Value :=
  let relay_overrides := List.filter (fun e => negb (is_null e.2)) (override_value o) in
  if existsb (fun e => negb (String.eqb e.1 "hostname")) relay_overrides
  then Some (Object relay_overrides) else None.

Definition export_settings_inner (overrides : list RelayOverride) : Value :=
  match omap export_override overrides with
  | [] => Object []
  | l => Object [("relay_overrides", Array l)]
  end.
