(* ===== verification/SettingsPatchProps.v ===== *)
(** * What is proved about settings patches

    A patch is accepted exactly if it is of the documented form; it changes nothing but relay overrides,
    and those as documented; exported settings can be imported.  One documented promise does not hold: a
    patch can remove an override. *)

From stdpp Require Import base list strings option numbers sets.
From Stdlib Require Import String.
From S2P Require Import Prelude SettingsPatch.
Local Open Scope list_scope.
Local Open Scope vpn_scope.
Local Open Scope string_scope.

(** ** Objects *)
Lemma string_compare_eq a b : String.compare a b = Eq <-> a = b.
Proof.
  split; [apply String.compare_eq_iff|]. intros ->. pose proof (String.compare_antisym b b) as E.
  by destruct (String.compare b b).
Qed.

Lemma map_get_insert k j v m : map_get k (map_insert j v m) = if decide (k = j) then Some v else map_get k m.
Proof.
  induction m as [|[i w] m IH]; [done|]. cbn [map_insert].
  destruct (String.compare j i) eqn:E; cbn [map_get].
  - apply string_compare_eq in E as ->. by case_decide.
  - by case_decide.
  - rewrite IH. repeat case_decide; subst; try done.
    by rewrite (proj2 (string_compare_eq i i) eq_refl) in E.
Qed.

Lemma map_get_elem k v m : map_get k m = Some v -> (k, v) ∈ m.
Proof.
  induction m as [|[j w] m IH]; simpl; [done|]. case_decide; [intros [= ->]; subst; set_solver | set_solver].
Qed.

Lemma map_get_None k m : map_get k m = None <-> k ∉ map fst m.
Proof.
  induction m as [|[j w] m IH]; simpl; [set_solver|]. case_decide; [subst; split; [done|set_solver]|].
  rewrite IH. set_solver.
Qed.

Lemma insert_all_get k p m :
  NoDup (map fst p) -> map_get k (insert_all p m) = map_get k p ∪ map_get k m.
Proof.
  unfold insert_all. revert m. induction p as [|[j v] p IH]; intros m; cbn [map fst foldl snd map_get].
  - intros _. by destruct (map_get k m).
  - rewrite NoDup_cons. intros [Hj Hp]. rewrite IH, map_get_insert by done.
    case_decide as E; subst; [|done]. rewrite (proj2 (map_get_None j p) Hj). by destruct (map_get j m).
Qed.

(** ** Which patches are accepted *)
Definition override_keys : list string := ["hostname"; "ipv4_addr_in"; "ipv6_addr_in"].

(** The documented form: an object whose only key may be [relay_overrides], with an array of objects that
    have no keys but those of an override. *)
Definition patch_form (v : Value) : Prop :=
  exists m, v = Object m /\ forall k w, (k, w) ∈ m ->
    k = "relay_overrides" /\ exists l, w = Array l /\ forall o, o ∈ l ->
      exists f, o = Object f /\ forall j x, (j, x) ∈ f -> j ∈ override_keys.

Lemma try_for_each_Ok {A} (f : A -> result unit PatchError) l :
  try_for_each f l = Ok tt <-> forall a, a ∈ l -> f a = Ok tt.
Proof.
  induction l as [|a l IH]; simpl; [set_solver|]. rewrite bind_result_Ok. split.
  - intros ([]&Ha&Hl) b. rewrite elem_of_cons. intros [->|Hb]; [done|]. by apply IH.
  - intros H. exists tt. split; [apply H; set_solver|]. apply IH. set_solver.
Qed.

Lemma ok_or_Ok {A E} (o : option A) (e : E) a : ok_or o e = Ok a <-> o = Some a.
Proof. destruct o; simpl; naive_solver. Qed.

Lemma validate_any n v : validate_patch_value (S n) permitted_any v = Ok tt.
Proof. done. Qed.

Lemma validate_object n keys v :
  validate_patch_value (S n) (permitted_object keys) v = Ok tt <->
  exists m, v = Object m /\ forall k w, (k, w) ∈ m ->
    exists sub, find_permitted k keys = Some sub /\ validate_patch_value n sub w = Ok tt.
Proof.
  cbn [validate_patch_value permitted_object key_type]. rewrite bind_result_Ok. setoid_rewrite ok_or_Ok.
  setoid_rewrite try_for_each_Ok. split.
  - intros (m&Hm&Hall). destruct v; try done. injection Hm as ->. exists m. split; [done|].
    intros k w Hkw. specialize (Hall (k, w) Hkw). simpl in Hall.
    destruct (find_permitted k keys) as [sub|]; [by exists sub | done].
  - intros (m&->&Hall). exists m. split; [done|]. intros [k w] Hkw. simpl.
    by destruct (Hall k w Hkw) as (sub&->&?).
Qed.

Lemma validate_array n k s v :
  validate_patch_value (S n) (with_merge_strategy s (permitted_array k)) v = Ok tt <->
  exists l, v = Array l /\ forall w, w ∈ l -> validate_patch_value n k w = Ok tt.
Proof.
  cbn [validate_patch_value permitted_array with_merge_strategy key_type]. rewrite bind_result_Ok.
  setoid_rewrite ok_or_Ok. setoid_rewrite try_for_each_Ok. split.
  - intros (l&Hl&Hall). destruct v; try done. injection Hl as ->. by exists l.
  - intros (l&->&Hall). by exists l.
Qed.

Lemma find_permitted_cons k j p keys :
  find_permitted k ((j, p) :: keys) = if decide (j = k) then Some p else find_permitted k keys.
Proof.
  unfold find_permitted. simpl. case_decide; [done|]. by destruct (list_find _ keys) as [[? ?]|].
Qed.

Lemma patch_form_validated v :
  validate_patch_value RECURSE_LIMIT PERMITTED_SUBKEYS v = Ok tt <-> patch_form v.
Proof.
  unfold RECURSE_LIMIT, PERMITTED_SUBKEYS, patch_form. rewrite validate_object.
  setoid_rewrite find_permitted_cons.
  assert (forall k w, (exists sub,
            (if decide ("relay_overrides" = k) then
               Some (with_merge_strategy (Custom merge_relay_overrides)
                 (permitted_array (permitted_object
                    [("hostname", permitted_any); ("ipv4_addr_in", permitted_any); ("ipv6_addr_in", permitted_any)])))
             else find_permitted k []) = Some sub
            /\ validate_patch_value 14 sub w = Ok tt) <->
          (k = "relay_overrides" /\ exists l, w = Array l /\ forall o, o ∈ l ->
             exists f, o = Object f /\ forall j x, (j, x) ∈ f -> j ∈ override_keys)) as H.
  { intros k w. case_decide as E.
    - subst. split.
      + intros (sub&[= <-]&Hv). apply validate_array in Hv as (l&->&Hl). split; [done|]. exists l. split; [done|].
        intros o Ho. apply Hl, validate_object in Ho as (f&->&Hf). exists f. split; [done|].
        intros j x Hjx. destruct (Hf j x Hjx) as (sub&Hsub&_).
        rewrite !find_permitted_cons in Hsub. unfold override_keys. rewrite !elem_of_cons.
        repeat case_decide; by auto.
      + intros (_&l&->&Hl). eexists. split; [done|]. apply validate_array. exists l. split; [done|].
        intros o Ho. destruct (Hl o Ho) as (f&->&Hf). apply validate_object. exists f. split; [done|].
        intros j x Hjx. apply Hf in Hjx. exists permitted_any. split; [|done]. rewrite !find_permitted_cons.
        unfold override_keys in Hjx. rewrite !elem_of_cons, elem_of_nil in Hjx.
        repeat case_decide; try done. by destruct Hjx as [->|[->|[->|[]]]].
    - split; [by intros (sub&?&_)|]. intros [-> _]. done. }
  by setoid_rewrite H.
Qed.

(** ** What a patch changes *)
(** The value of a field of the override of a host. *)
Definition override (h j : string) (array : list Value) : option Value :=
  value ← head (List.filter (has_hostname h) array); as_object value ≫= map_get j.

(** The documented effect of a patch on a field: its value in the last entry for the host that has it,
    and otherwise what it was. *)
Definition patched (h j : string) (patch : list Value) (current : option Value) : option Value :=
  foldl (fun v e => if has_hostname h e then (as_object e ≫= map_get j) ∪ v else v) current patch.

(** No object within a value has a key twice. *)
Fixpoint keys_unique (v : Value) : Prop :=
  match v with
  | Array l => (fix all l := match l with [] => True | v :: l => keys_unique v /\ all l end) l
  | Object m =>
      NoDup (map fst m)
      /\ (fix all m := match m with [] => True | (_, v) :: m => keys_unique v /\ all m end) m
  | _ => True
  end.

Lemma keys_unique_array l : keys_unique (Array l) <-> forall v, v ∈ l -> keys_unique v.
Proof.
  induction l as [|w l IH]; simpl; [set_solver|]. simpl in IH. rewrite IH. set_solver.
Qed.

Lemma keys_unique_object m :
  keys_unique (Object m) <-> NoDup (map fst m) /\ forall k v, (k, v) ∈ m -> keys_unique v.
Proof.
  simpl. apply and_iff_compat_l. induction m as [|[k w] m IH]; [set_solver|]. rewrite IH. split.
  - intros [Hw Hm] j v. rewrite elem_of_cons. intros [[= -> ->]|Hv]; [done | by eapply Hm].
  - intros H. split; [apply (H k w); set_solver|]. intros j v Hv. apply (H j v). set_solver.
Qed.

Lemma patch_hostname_Ok e h :
  patch_hostname e = Ok h <-> exists m, e = Object m /\ map_get "hostname" m = Some (Str h).
Proof.
  unfold patch_hostname. rewrite bind_result_Ok. setoid_rewrite ok_or_Ok. split.
  - intros (m&Hm&Hh). destruct e; try done. injection Hm as ->. exists m. split; [done|].
    destruct (map_get "hostname" m) as [[]|]; naive_solver.
  - intros (m&->&Hm). exists m. by rewrite Hm.
Qed.

Lemma has_hostname_object h m s :
  map_get "hostname" m = Some (Str s) -> has_hostname h (Object m) = bool_decide (s = h).
Proof. intros Hm. unfold has_hostname. simpl. rewrite Hm. simpl. apply bool_decide_ext. naive_solver. Qed.

Lemma override_cons h j v l :
  override h j (v :: l) = if has_hostname h v then as_object v ≫= map_get j else override h j l.
Proof. unfold override. simpl. by destruct (has_hostname h v). Qed.

(** Merging one entry always succeeds, and affects the override of its host alone. *)
Lemma merge_override_spec h f l :
  map_get "hostname" f = Some (Str h) -> NoDup (map fst f) ->
  exists l', merge_override h (Object f) l = Ok l'
    /\ forall g j, override g j l'
       = if decide (h = g) then map_get j f ∪ override g j l else override g j l.
Proof.
  intros Hh Hf. induction l as [|v l (l'&Hl&IH)].
  - exists [Object f]. split; [done|]. intros g j. rewrite override_cons.
    rewrite (has_hostname_object g f h Hh). unfold override. simpl.
    case_bool_decide; rewrite ?decide_True, ?decide_False by done; [by destruct (map_get j f) | done].
  - cbn [merge_override]. destruct (has_hostname h v) eqn:Ev.
    + assert (exists c, v = Object c /\ map_get "hostname" c = Some (Str h)) as (c&->&Hc).
      { unfold has_hostname in Ev. apply bool_decide_eq_true in Ev. destruct v; try done. simpl in Ev.
        eexists. split; [done|]. destruct (map_get "hostname" m) as [[]|]; naive_solver. }
      eexists. split; [done|]. intros g j. rewrite !override_cons.
      rewrite (has_hostname_object g c h Hc), (has_hostname_object g _ h).
      * case_bool_decide; rewrite ?decide_True, ?decide_False by done; [|done].
        simpl. by rewrite insert_all_get.
      * rewrite insert_all_get, Hh by done. by destruct (map_get "hostname" c).
    + rewrite Hl. eexists. split; [done|]. intros g j. rewrite !override_cons, IH.
      destruct (decide (h = g)) as [<-|]; [by rewrite Ev | done].
Qed.

Lemma merge_overrides_spec patch l l' :
  (forall e, e ∈ patch -> keys_unique e) -> merge_overrides patch l = Ok l' ->
  forall h j, override h j l' = patched h j patch (override h j l).
Proof.
  revert l. induction patch as [|e patch IH]; intros l Hu; [by intros [= <-]|]. cbn [merge_overrides].
  intros (h&Hh&H)%bind_result_Ok. apply bind_result_Ok in H as (l1&H1&H2).
  apply patch_hostname_Ok in Hh as (f&->&Hf).
  assert (NoDup (map fst f)) as Hnd.
  { refine (proj1 (proj1 (keys_unique_object f) _)). apply Hu. left. }
  destruct (merge_override_spec h f l Hf Hnd) as (l1'&E&Hspec). rewrite E in H1. injection H1 as ->.
  intros g j. rewrite (IH l1) by (done || set_solver). unfold patched. cbn [foldl].
  rewrite (has_hostname_object g f h Hf), Hspec. case_bool_decide; by case_decide.
Qed.

Lemma merge_overrides_total patch l :
  (forall e, e ∈ patch -> keys_unique e /\ exists h, patch_hostname e = Ok h) ->
  exists l', merge_overrides patch l = Ok l'.
Proof.
  revert l. induction patch as [|e patch IH]; intros l Hu; [by exists l|]. cbn [merge_overrides].
  destruct (Hu e) as (Hk&h&Hh); [set_solver|]. rewrite Hh. apply patch_hostname_Ok in Hh as (f&->&Hf).
  destruct (merge_override_spec h f l Hf) as (l1&E&_); [by apply keys_unique_object in Hk as [? _]|].
  simpl. rewrite E. simpl. apply IH. set_solver.
Qed.

Section confined.
Context {Settings : Type} (to_value : Settings -> option Value) (from_value : Value -> option Settings).
Context (from_str : string -> option Value).

(** The overrides of a patch of the documented form. *)
Definition patch_overrides (v : Value) : list Value :=
  default [] (m ← as_object v; w ← map_get "relay_overrides" m; as_array w).

Lemma merge_patch_spec cur pv v' :
  patch_form pv -> keys_unique pv ->
  merge_patch_to_value RECURSE_LIMIT PERMITTED_SUBKEYS (Object cur) pv = Ok v' ->
  exists m', v' = Object m'
    /\ (forall k, k <> "relay_overrides" -> map_get k m' = map_get k cur)
    /\ (forall l, map_get "relay_overrides" cur = Some (Array l) ->
         exists l', map_get "relay_overrides" m' = Some (Array l')
           /\ forall h j, override h j l' = patched h j (patch_overrides pv) (override h j l)).
Proof.
  intros (m&->&Hform) Hu. unfold RECURSE_LIMIT. cbn [merge_patch_to_value PERMITTED_SUBKEYS permitted_object merge_strategy key_type].
  apply keys_unique_object in Hu as [Hnd Hu]. destruct m as [|[k w] m].
  { intros [= <-]. exists cur. split_and!; try done. intros l Hl. by exists l. }
  destruct (Hform k w) as (->&p&->&_); [left|].
  assert (m = []) as ->.
  { destruct m as [|[k w] m]; [done|]. destruct (Hform k w) as [-> _]; [right; left|].
    apply NoDup_cons in Hnd as [Hnd _]. destruct Hnd. left. }
  rewrite find_permitted_cons, decide_True by done. cbn [merge_patch_to_value with_merge_strategy merge_strategy].
  intros (sub&Hsub&[= <-])%bind_result_Ok. eexists. split; [done|]. split.
  - intros k Hk. by rewrite map_get_insert, decide_False.
  - intros l Hl. rewrite Hl in Hsub. cbn in Hsub. apply bind_result_Ok in Hsub as (l'&Hl'&[= <-]).
    exists l'. rewrite map_get_insert, decide_True by done. split; [done|]. intros h j.
    unfold patch_overrides. cbn. apply (merge_overrides_spec p l l'); [|done].
    apply keys_unique_array, (Hu "relay_overrides"). left.
Qed.

(** C24. Patches are confined.  If the daemon accepts a patch, the patch is of the documented form; every
    setting other than the relay overrides is what it was; and each field of the override of each host is
    what the patch gives for it last, and otherwise what it was. *)
Theorem patch_confined settings cur patch pv new :
  to_value settings = Some (Object cur) -> from_str patch = Some pv -> keys_unique pv ->
  merge_validate_patch_inner to_value from_value from_str settings patch = Ok new ->
  patch_form pv
  /\ exists m', from_value (Object m') = Some new
     /\ (forall k, k <> "relay_overrides" -> map_get k m' = map_get k cur)
     /\ (forall l, map_get "relay_overrides" cur = Some (Array l) ->
          exists l', map_get "relay_overrides" m' = Some (Array l')
            /\ forall h j, override h j l' = patched h j (patch_overrides pv) (override h j l)).
Proof.
  intros Hto Hfrom Hu. unfold merge_validate_patch_inner. rewrite Hto, Hfrom. cbn [ok_or bind_result].
  intros ([]&Hval%patch_form_validated&H)%bind_result_Ok. apply bind_result_Ok in H as (v'&Hm&Hv').
  apply ok_or_Ok in Hv'. split; [done|].
  destruct (merge_patch_spec cur pv v' Hval Hu Hm) as (m'&->&Hrest). by exists m'.
Qed.
End confined.

(** ** Removing an override *)
Definition settings_example (a : Value) : Value :=
  Object [("lockdown_mode", Bool true);
          ("relay_overrides", Array [Object [("hostname", Str "a"); ("ipv4_addr_in", a)]])].

Definition patch_example (a : Value) : Value :=
  Object [("relay_overrides", Array [Object [("hostname", Str "a"); ("ipv4_addr_in", a)]])].

Lemma patch_confined_witness :
  exists m', map_get "lockdown_mode" m' = Some (Bool true)
    /\ exists l', map_get "relay_overrides" m' = Some (Array l')
       /\ override "a" "ipv4_addr_in" l' = Some (Str "2.2.2.2").
Proof.
  destruct (patch_confined (Settings := Value) Some Some (fun _ => Some (patch_example (Str "2.2.2.2")))
              (settings_example (Str "1.1.1.1"))
              [("lockdown_mode", Bool true);
               ("relay_overrides", Array [Object [("hostname", Str "a"); ("ipv4_addr_in", Str "1.1.1.1")]])]
              "" (patch_example (Str "2.2.2.2")) (settings_example (Str "2.2.2.2")))
    as (_&m'&_&Hrest&Hover); try reflexivity.
  - simpl. repeat split; repeat (constructor; [set_solver|]); constructor.
  - exists m'. split; [by rewrite Hrest|]. destruct (Hover _ eq_refl) as (l'&Hl'&Ho).
    exists l'. split; [exact Hl'|]. by rewrite Ho.
Defined.

(** The documentation says that a patch cannot remove an override.  A null value is accepted, and removes
    it: an absent address is null when settings are written, and null is read as an absent address. *)
Theorem patch_removes_override :
  merge_validate_patch_inner (Settings := Value) Some Some (fun _ => Some (patch_example Null))
    (settings_example (Str "1.1.1.1")) ""
  = Ok (settings_example Null).
Proof. reflexivity. Qed.

(** ** Export and import *)
(** An address of an override. *)
Definition address_of (j : string) (o : RelayOverride) : option string :=
  if decide (j = "ipv4_addr_in") then ipv4_addr_in o else ipv6_addr_in o.

Definition address_keys : list string := ["ipv4_addr_in"; "ipv6_addr_in"].

Lemma export_override_Some o v :
  export_override o = Some v ->
  exists f, v = Object f /\ map_get "hostname" f = Some (Str (hostname o)) /\ NoDup (map fst f)
    /\ (forall j x, (j, x) ∈ f -> j ∈ override_keys /\ keys_unique x)
    /\ forall j, j ∈ address_keys -> map_get j f = Str <$> address_of j o.
Proof.
  destruct o as [h [a|] [b|]]; cbn; intros [= <-]; eexists; (split; [done|]); (split; [done|]);
    (split; [apply (bool_decide_unpack _); by vm_compute|]); split;
    try (intros j [->|[->|Hj%elem_of_nil]%elem_of_cons]%elem_of_cons; [done..|by destruct Hj]);
    intros j x; unfold override_keys; rewrite !elem_of_cons, elem_of_nil; naive_solver.
Qed.

Lemma export_override_None o j : export_override o = None -> j ∈ address_keys -> address_of j o = None.
Proof.
  destruct o as [h [a|] [b|]]; cbn; try done. intros _ _. unfold address_of. by case_decide.
Qed.

Lemma patched_app h j p q c : patched h j (p ++ q) c = patched h j q (patched h j p c).
Proof. apply foldl_app. Qed.

Lemma patched_other h j os c :
  h ∉ map hostname os -> patched h j (omap export_override os) c = c.
Proof.
  revert c. induction os as [|o os IH]; intros c; [done|]. cbn [map]. rewrite not_elem_of_cons. intros [Hne Hos].
  cbn [omap list_omap]. destruct (export_override o) as [v|] eqn:E; [|by apply IH].
  apply export_override_Some in E as (f&->&Hh&_). unfold patched. cbn [foldl].
  rewrite (has_hostname_object h f _ Hh). case_bool_decide; [done|]. by apply IH.
Qed.

Lemma patched_export o os j c :
  NoDup (map hostname os) -> o ∈ os -> j ∈ address_keys ->
  patched (hostname o) j (omap export_override os) c = (Str <$> address_of j o) ∪ c.
Proof.
  intros Hnd Ho Hj. revert c. induction os as [|o' os IH]; intros c; [by apply elem_of_nil in Ho|].
  cbn [map] in Hnd. apply NoDup_cons in Hnd as [Hnot Hnd]. cbn [omap list_omap].
  apply elem_of_cons in Ho as [<-|Ho].
  - destruct (export_override o) as [v|] eqn:E.
    + apply export_override_Some in E as (f&->&Hh&_&_&Hf). unfold patched. cbn [foldl].
      rewrite (has_hostname_object _ f _ Hh), bool_decide_true by done. cbn [as_object mbind option_bind].
      rewrite Hf by done. by apply patched_other.
    + rewrite (export_override_None o j) by done. rewrite (patched_other (hostname o) j os) by done.
      by destruct c.
  - destruct (export_override o') as [v|] eqn:E; [|by apply IH].
    apply export_override_Some in E as (f&->&Hh&_). unfold patched. cbn [foldl].
    rewrite (has_hostname_object _ f _ Hh), bool_decide_false; [by apply IH|].
    intros Heq. apply Hnot. rewrite Heq. apply list_elem_of_fmap. by exists o.
Qed.

Lemma patch_overrides_export os : patch_overrides (export_settings_inner os) = omap export_override os.
Proof. unfold export_settings_inner. by destruct (omap export_override os). Qed.

Lemma export_elem (os : list RelayOverride) v : v ∈ omap export_override os -> exists o, export_override o = Some v.
Proof. intros (o&_&Ho)%list_elem_of_omap. by exists o. Qed.

(** Exported settings can be imported.  The patch exported from overrides of different hosts is accepted;
    whatever it is imported into, every address of the exported overrides is then in force; and imported
    where there are no overrides, it restores exactly the addresses exported. *)
Theorem export_import os l :
  NoDup (map hostname os) ->
  patch_form (export_settings_inner os)
  /\ exists l', merge_relay_overrides (Array l) (Array (patch_overrides (export_settings_inner os))) = Ok (Array l')
     /\ (forall o j a, o ∈ os -> j ∈ address_keys -> address_of j o = Some a ->
           override (hostname o) j l' = Some (Str a))
     /\ (l = [] -> forall h j, j ∈ address_keys ->
           override h j l' = Str <$> (list_find (fun o => hostname o = h) os ≫= fun e => address_of j e.2)).
Proof.
  intros Hnd. rewrite patch_overrides_export. split.
  - unfold export_settings_inner, patch_form. destruct (omap export_override os) as [|v l0] eqn:E.
    + exists []. split; [done|]. intros k w Hk. by apply elem_of_nil in Hk.
    + eexists. split; [done|]. intros k w [[= -> ->]|Hn%elem_of_nil]%elem_of_cons; [|done].
      split; [done|]. eexists. split; [done|]. intros x Hx. rewrite <- E in Hx.
      apply export_elem in Hx as (o&Ho). apply export_override_Some in Ho as (f&->&_&_&Hf&_).
      exists f. split; [done|]. intros j y Hj. by apply (Hf j y).
  - assert (forall e, e ∈ omap export_override os -> keys_unique e /\ exists h, patch_hostname e = Ok h) as Hall.
    { intros e (o&Ho)%export_elem. apply export_override_Some in Ho as (f&->&Hh&Hn&Hf&_). split.
      - apply keys_unique_object. split; [done|]. intros k v Hkv. by apply (Hf k v).
      - exists (hostname o). apply patch_hostname_Ok. by exists f. }
    destruct (merge_overrides_total (omap export_override os) l Hall) as [l' Hl'].
    exists l'. pose proof (merge_overrides_spec _ l l' (fun e He => proj1 (Hall e He)) Hl') as Hspec.
    split_and!.
    + unfold merge_relay_overrides. cbn [is_null as_array ok_or bind_result]. by rewrite Hl'.
    + intros o j a Ho Hj Ha. rewrite Hspec, (patched_export o os j) by done. rewrite Ha.
      by destruct (override (hostname o) j l).
    + intros -> h j Hj. rewrite Hspec. destruct (list_find _ os) as [[i o]|] eqn:Ef.
      * apply list_find_Some in Ef as (Ho%list_elem_of_lookup_2&<-&_). rewrite patched_export by done.
        simpl. by destruct (address_of j o).
      * apply list_find_None in Ef. rewrite patched_other; [done|].
        intros (o&->&Ho)%list_elem_of_fmap. rewrite Forall_forall in Ef. by apply (Ef o Ho).
Qed.

Lemma export_import_witness :
  exists l', merge_relay_overrides (Array [])
      (Array (patch_overrides (export_settings_inner
         [{| hostname := "a"; ipv4_addr_in := Some "1.1.1.1"; ipv6_addr_in := None |};
          {| hostname := "b"; ipv4_addr_in := None; ipv6_addr_in := None |}]))) = Ok (Array l')
    /\ override "a" "ipv4_addr_in" l' = Some (Str "1.1.1.1").
Proof.
  set (os := [{| hostname := "a"; ipv4_addr_in := Some "1.1.1.1"; ipv6_addr_in := None |};
              {| hostname := "b"; ipv4_addr_in := None; ipv6_addr_in := None |}]).
  destruct (export_import os []) as (_&l'&Hl&_&Hl').
  - apply (bool_decide_unpack _). by vm_compute.
  - exists l'. split; [exact Hl|]. rewrite Hl'; [reflexivity|reflexivity|]. left.
Defined.
