(* ===== verification/Connectivity.v ===== *)
(** * The connectivity monitor

    [src/talpid-wireguard/src/connectivity/check.rs], [monitor.rs] and [constants.rs]: whether the tunnel
    works, inferred from the byte counters of the peers and from pings.

    Times are nanoseconds.  A check reads the clock several times: the readings are inputs, as are the
    counters and whether a ping could be sent.  Of a peer's counters, those the monitor does not look at
    (the last handshake, DAITA) are left out. *)

From stdpp Require Import base list option numbers sets gmap.
From S2P Require Import Prelude Retry.
Local Open Scope vpn_scope.

Definition BYTES_RX_TIMEOUT : Z := from_secs 5.
Definition TRAFFIC_TIMEOUT : Z := from_secs 120.
Definition PING_TIMEOUT : Z := from_secs 15.
Definition ESTABLISH_TIMEOUT : Z := from_secs 4.
Definition ESTABLISH_TIMEOUT_MULTIPLIER : Z := 2.
Definition MAX_ESTABLISH_TIMEOUT : Z := PING_TIMEOUT.
Definition SECONDS_PER_PING : Z := from_secs 3.
Definition REGULAR_LOOP_SLEEP : Z := from_secs 1.
Definition SUSPEND_TIMEOUT : Z := from_secs 6.

Record Stats : Type := { tx_bytes : Z; rx_bytes : Z }.

(** The peers' counters by public key. *)
Definition StatsMap : Type := gmap Z Stats.

(** [Iterator::sum] at [u64]. *)
Definition sum_tx (m : StatsMap) : Z :=
  map_fold (fun _ s acc => (acc + tx_bytes s) mod 2 ^ 64)%Z 0%Z m.

(** [Instant::elapsed] at time [t], which saturates. *)
Definition elapsed (t ts : Z) : Z := Z.max 0 (t - ts).

Inductive ConnState : Type :=
| Connecting (start : Z) (stats : StatsMap) (tx_timestamp : option Z)
| Connected (rx_timestamp tx_timestamp : Z) (stats : StatsMap).

Definition ConnState_new (start : Z) (stats : StatsMap) : ConnState := Connecting start stats None.

Definition connected (c : ConnState) : bool := match c with Connected _ _ _ => true | _ => false end.

Definition rx_incremented (stats new_stats : StatsMap) : bool :=
  forallb (fun '(key, s) => match new_stats !! key with Some n => rx_bytes s <? rx_bytes n | None => false end)%Z
    (map_to_list stats).

(** [update]: the new state, and whether all peers have received more. *)
Definition update (now : Z) (new_stats : StatsMap) (c : ConnState) : ConnState * bool :=
  match c with
  | Connecting start stats tx_timestamp =>
      if bool_decide (new_stats <> ∅) && forallb (fun '(_, s) => 0 <? rx_bytes s)%Z (map_to_list new_stats)
      then (Connected now (default start tx_timestamp) new_stats, true)
      else if (sum_tx stats <? sum_tx new_stats)%Z then (Connecting start new_stats (Some now), false)
      else (c, false)
  | Connected rx_timestamp tx_timestamp stats =>
      let rx := rx_incremented stats new_stats in
      (Connected (if rx then now else rx_timestamp)
         (if (sum_tx stats <? sum_tx new_stats)%Z then now else tx_timestamp) new_stats, rx)
  end.

Definition reset_after_suspension (now : Z) (c : ConnState) : ConnState :=
  match c with
  | Connected _ tx_timestamp stats => Connected now tx_timestamp stats
  | _ => c
  end.

Definition rx_timed_out (t : Z) (c : ConnState) : bool :=
  match c with
  | Connecting start _ _ => (BYTES_RX_TIMEOUT <=? elapsed t start)%Z
  | Connected rx_timestamp tx_timestamp _ =>
      (rx_timestamp <=? tx_timestamp)%Z && (BYTES_RX_TIMEOUT <=? elapsed t rx_timestamp)%Z
  end.

Definition traffic_timed_out (t : Z) (c : ConnState) : bool :=
  match c with
  | Connecting _ _ _ => rx_timed_out t c
  | Connected rx_timestamp tx_timestamp _ =>
      (TRAFFIC_TIMEOUT <=? elapsed t rx_timestamp)%Z || (TRAFFIC_TIMEOUT <=? elapsed t tx_timestamp)%Z
  end.

(** ** Pings *)
Record PingState : Type := { initial_ping_timestamp : option Z; num_pings_sent : Z }.

Definition PingState_new : PingState := {| initial_ping_timestamp := None; num_pings_sent := 0 |}.

Definition ping_timed_out (t timeout : Z) (p : PingState) : bool :=
  match initial_ping_timestamp p with Some ts => (timeout <? elapsed t ts)%Z | None => false end.

(** ** A check *)
(** What one check reads: the time it starts, the times when it looks at the receive timestamp, at the
    traffic and at the pings sent so far, and when it looks whether the pings timed out; whether a ping
    can be sent. *)
Record Readings : Type := {
  now : Z; at_rx : Z; at_traffic : Z; at_pace : Z; at_end : Z; ping_ok : bool
}.

(** [None] where the division by the number of pings panics. *)
Definition maybe_send_ping (r : Readings) (c : ConnState) (p : PingState) : option PingState :=
  let send :=
    if ping_ok r then
      {| initial_ping_timestamp := Some (default (now r) (initial_ping_timestamp p));
         num_pings_sent := u32_add (num_pings_sent p) 1 |}
    else p in
  if rx_timed_out (at_rx r) c || traffic_timed_out (at_traffic r) c then
    match initial_ping_timestamp p with
    | None => Some send
    | Some ts =>
        if (num_pings_sent p =? 0)%Z then None
        else if (elapsed (at_pace r) ts / num_pings_sent p <? SECONDS_PER_PING)%Z then Some send
        else Some p
    end
  else Some p.

Record Check : Type := { conn_state : ConnState; ping_state : PingState }.

Definition Check_new (start : Z) : Check :=
  {| conn_state := ConnState_new start ∅; ping_state := PingState_new |}.

(** [check_connectivity_interval], after the counters were read: none if the tunnel is gone. *)
Definition check_connectivity_interval (r : Readings) (timeout : Z) (stats : StatsMap) (c : Check)
  : option (Check * bool) :=
  if decide (stats = ∅) then Some (c, false)
  else
    let '(conn, rx) := update (now r) stats (conn_state c) in
    if rx then Some ({| conn_state := conn; ping_state := PingState_new |}, true)
    else
      p ← maybe_send_ping r conn (ping_state c);
      Some ({| conn_state := conn; ping_state := p |},
            negb (ping_timed_out (at_end r) timeout p) && connected conn).

Definition check_connectivity (r : Readings) (stats : StatsMap) (c : Check) : option (Check * bool) :=
  check_connectivity_interval r PING_TIMEOUT stats c.

Definition reset (now : Z) (c : Check) : Check :=
  {| conn_state := reset_after_suspension now (conn_state c); ping_state := PingState_new |}.

(** ** Establishing a connection *)
(** [u32::saturating_pow]. *)
Definition saturating_pow (b e : Z) : Z := Z.min u32_max (b ^ e).

Definition check_timeout (retry_attempt : Z) : Z :=
  Z.min MAX_ESTABLISH_TIMEOUT
    (saturating_mul ESTABLISH_TIMEOUT (saturating_pow ESTABLISH_TIMEOUT_MULTIPLIER retry_attempt)).

(** What the [select] of [establish_connectivity_inner] sees: the poll's next look at the counters, which
    fails if they cannot be read, a cancellation, or the timeout. *)
Inductive EstablishEvent : Type :=
| Poll (r : Readings) (stats : option StatsMap)
| Cancelled
| TimedOut.

(** The outcome, if it is decided yet: [Err] if the counters could not be read. *)
Fixpoint establish_loop (timeout : Z) (es : list EstablishEvent) (c : Check)
  : option (Check * option (result bool ())) :=
  match es with
  | [] => Some (c, None)
  | Poll r None :: _ => Some (c, Some (Err ()))
  | Poll r (Some stats) :: es =>
      '(c, b) ← check_connectivity_interval r timeout stats c;
      if (b : bool) then Some (c, Some (Ok true)) else establish_loop timeout es c
  | (Cancelled | TimedOut) :: _ => Some (c, Some (Ok false))
  end.

Definition establish_connectivity (retry_attempt : Z) (es : list EstablishEvent) (c : Check)
  : option (Check * option (result bool ())) :=
  if connected (conn_state c) then Some (c, Some (Ok true))
  else establish_loop (check_timeout retry_attempt) es c.

(** ** The monitor *)
Record Monitor : Type := { connectivity_check : Check; last_check : Z }.

(** One round of the loop: whether it was told to shut down, the time it starts at, and the counters if
    the tunnel still exists (none if they cannot be read). *)
Record Round : Type := {
  shut_down : bool;
  round_now : Z;
  tunnel : option (Readings * option StatsMap);
}.

Inductive MonitorResult : Type :=
| Continue (m : Monitor)
| Done (m : Monitor) (ok : bool)
| Panicked.

Definition monitor_round (x : Round) (m : Monitor) : MonitorResult :=
  if shut_down x then Done m true
  else
    let time_slept := (round_now x - last_check m)%Z in
    let keep c := {| connectivity_check := c; last_check := round_now x |} in
    if (SUSPEND_TIMEOUT <=? time_slept)%Z then Continue (keep (reset (round_now x) (connectivity_check m)))
    else
      match tunnel x with
      | None => Done (keep (connectivity_check m)) true
      | Some (_, None) => Done (keep (connectivity_check m)) false
      | Some (r, Some stats) =>
          match check_connectivity r stats (connectivity_check m) with
          | None => Panicked
          | Some (c, true) => Continue (keep c)
          | Some (c, false) => Done (keep c) true
          end
      end.

Fixpoint monitor_run (xs : list Round) (m : Monitor) : MonitorResult :=
  match xs with
  | [] => Continue m
  | x :: xs => match monitor_round x m with Continue m => monitor_run xs m | r => r end
  end.
