(* ===== verification/ConnectivityProps.v ===== *)
(** * What is proved about the connectivity monitor

    A tunnel that works is not given up, one that does not is; the monitor never divides by zero; the time
    allowed for establishing a connection grows to a bound. *)

From stdpp Require Import base list option numbers sets gmap.
From S2P Require Import Prelude Retry Connectivity.
Local Open Scope vpn_scope.

(** ** The time to establish a connection *)
(** The time allowed for establishing a connection is 4 seconds at the first attempt, 8 at the second and
    15 from then on, and computing it does not overflow at any attempt. *)
Theorem check_timeout_bounds (n : Z) :
  (0 <= n)%Z ->
  check_timeout n = (if n =? 0 then from_secs 4 else if n =? 1 then from_secs 8 else from_secs 15)%Z
  /\ is_duration (saturating_mul ESTABLISH_TIMEOUT (saturating_pow ESTABLISH_TIMEOUT_MULTIPLIER n)).
Proof.
  intros Hn. unfold check_timeout, ESTABLISH_TIMEOUT, ESTABLISH_TIMEOUT_MULTIPLIER, saturating_pow.
  assert (0 < 2 ^ n)%Z as Hpos by (apply Z.pow_pos_nonneg; lia). split.
  - destruct (Z.eqb_spec n 0) as [->|]; [reflexivity|]. destruct (Z.eqb_spec n 1) as [->|]; [reflexivity|].
    assert (2 ^ 2 <= 2 ^ n)%Z by (apply Z.pow_le_mono_r; lia). unfold saturating_mul, u32_max.
    change (from_secs 4) with 4000000000%Z. change MAX_ESTABLISH_TIMEOUT with 15000000000%Z.
    change (from_secs 15) with 15000000000%Z. change DURATION_MAX with (2 ^ 64 * 10 ^ 9 - 1)%Z. lia.
  - apply saturating_mul_range; [by vm_compute | unfold u32_max; lia].
Qed.

Lemma check_timeout_bounds_witness : check_timeout 31 = from_secs 15.
Proof. destruct (check_timeout_bounds 31) as [-> _]; [lia | reflexivity]. Defined.

(** ** Pings are counted *)
Definition pings_below (n : Z) (p : PingState) : Prop :=
  match initial_ping_timestamp p with
  | None => num_pings_sent p = 0%Z
  | Some _ => (1 <= num_pings_sent p <= n)%Z
  end.

Lemma maybe_send_ping_total n r c p :
  (0 <= n < u32_max)%Z -> pings_below n p ->
  exists p', maybe_send_ping r c p = Some p' /\ pings_below (n + 1) p'
    /\ (forall ts, initial_ping_timestamp p = Some ts -> initial_ping_timestamp p' = Some ts)
    /\ (forall ts, initial_ping_timestamp p = None -> initial_ping_timestamp p' = Some ts ->
          ts = now r /\ ping_ok r = true)
    /\ (ping_ok r = true -> rx_timed_out (at_rx r) c || traffic_timed_out (at_traffic r) c = true ->
          initial_ping_timestamp p = None -> initial_ping_timestamp p' = Some (now r)).
Proof.
  unfold maybe_send_ping, pings_below, u32_max. intros Hn Hp.
  assert (forall k, (0 <= k <= n)%Z -> u32_add k 1 = (k + 1)%Z) as Hadd.
  { intros k Hk. apply u32_add_small; lia. }
  destruct (initial_ping_timestamp p) as [ts|] eqn:Ei.
  - destruct (_ || _); [|exists p; rewrite Ei; split_and!; naive_solver lia].
    rewrite (proj2 (Z.eqb_neq _ _)) by lia.
    destruct (_ <? _)%Z; [|exists p; rewrite Ei; split_and!; naive_solver lia].
    destruct (ping_ok r); [|exists p; rewrite Ei; split_and!; naive_solver lia].
    eexists. split; [done|]. simpl. rewrite Hadd by lia. split_and!; naive_solver lia.
  - destruct (_ || _) eqn:Eo; [|exists p; rewrite Ei; split_and!; naive_solver].
    destruct (ping_ok r); [|exists p; rewrite Ei; split_and!; naive_solver].
    eexists. split; [done|]. simpl. rewrite Hadd by lia. split_and!; naive_solver lia.
Qed.

(** ** Checks in the connected state *)
Definition stats_of (c : Check) : option StatsMap :=
  match conn_state c with Connected _ _ s => Some s | _ => None end.

(** One check with counters [s], when the last were [s0]. *)
Lemma check_spec n r s c s0 :
  (0 <= n < u32_max)%Z -> pings_below n (ping_state c) -> stats_of c = Some s0 -> s <> ∅ ->
  exists c' b, check_connectivity r s c = Some (c', b) /\ pings_below (n + 1) (ping_state c')
    /\ stats_of c' = Some s
    /\ (rx_incremented s0 s = true -> b = true /\ initial_ping_timestamp (ping_state c') = None)
    /\ (rx_incremented s0 s = false ->
          b = negb (ping_timed_out (at_end r) PING_TIMEOUT (ping_state c'))
          /\ (forall ts, initial_ping_timestamp (ping_state c) = Some ts ->
                initial_ping_timestamp (ping_state c') = Some ts)
          /\ (forall ts, initial_ping_timestamp (ping_state c') = Some ts ->
                initial_ping_timestamp (ping_state c) = Some ts \/ (ts = now r /\ ping_ok r = true))
          /\ (ping_ok r = true ->
                rx_timed_out (at_rx r) (conn_state c') || traffic_timed_out (at_traffic r) (conn_state c') = true ->
                is_Some (initial_ping_timestamp (ping_state c')))).
Proof.
  intros Hn Hp Hs Hne. unfold check_connectivity, check_connectivity_interval. rewrite decide_False by done.
  unfold stats_of in Hs. destruct (conn_state c) as [|rx tx st] eqn:Ec; [done|]. injection Hs as ->.
  cbn [update]. destruct (rx_incremented s0 s) eqn:Er.
  - eexists _, _. split; [done|]. split_and!; [done | done | by intros | by intros].
  - set (conn := Connected _ _ _).
    destruct (maybe_send_ping_total n r conn (ping_state c) Hn Hp) as (p'&Hp'&Hb&Hkeep&Hnew&Hsend).
    rewrite Hp'. cbn [mbind option_bind]. eexists _, _. split; [done|]. cbn [ping_state conn_state].
    split_and!; [done | done | done|]. intros _. rewrite andb_true_r. split_and!; [done | done | |].
    + intros ts Hts. destruct (initial_ping_timestamp (ping_state c)) as [ts0|] eqn:E0; [|right; by apply Hnew].
      left. rewrite (Hkeep _ eq_refl) in Hts. congruence.
    + intros Hok Hto. destruct (initial_ping_timestamp (ping_state c)) as [ts0|] eqn:E0.
      * rewrite (Hkeep _ eq_refl). by eexists.
      * rewrite (Hsend Hok Hto eq_refl). by eexists.
Qed.

(** ** Giving up a tunnel *)
(** Rounds in which the counters went from [s] to [s'] and not all peers had received more. *)
Inductive quiet : StatsMap -> list Round -> StatsMap -> Prop :=
| quiet_nil s : quiet s [] s
| quiet_snoc s xs s1 x r s2 :
    quiet s xs s1 -> tunnel x = Some (r, Some s2) -> rx_incremented s1 s2 = false -> quiet s (xs ++ [x]) s2.

(** A ping was sent at time [ts] in one of the rounds [h], and nothing received since. *)
Definition pinged (h : list Round) (ts : Z) (s : StatsMap) : Prop :=
  exists h1 y h2 r s0 s1, h = h1 ++ y :: h2 /\ tunnel y = Some (r, Some s1) /\ ping_ok r = true /\ now r = ts
    /\ quiet s0 (y :: h2) s.

Definition healthy (n : Z) (h : list Round) (m : Monitor) : Prop :=
  pings_below n (ping_state (connectivity_check m))
  /\ exists s, stats_of (connectivity_check m) = Some s
     /\ forall ts, initial_ping_timestamp (ping_state (connectivity_check m)) = Some ts -> pinged h ts s.

(** Why the monitor ends in round [x], after the rounds [h]. *)
Definition ended (h : list Round) (x : Round) (ok : bool) : Prop :=
  shut_down x = true
  \/ tunnel x = None
  \/ (exists r, tunnel x = Some (r, None) /\ ok = false)
  \/ (exists r, tunnel x = Some (r, Some ∅))
  \/ exists r s ts, tunnel x = Some (r, Some s) /\ pinged (h ++ [x]) ts s /\ (ts + PING_TIMEOUT < at_end r)%Z.

Lemma pinged_snoc h ts s x r s' :
  pinged h ts s -> tunnel x = Some (r, Some s') -> rx_incremented s s' = false -> pinged (h ++ [x]) ts s'.
Proof.
  intros (h1&y&h2&ry&s0&s1&->&Hy&Hok&Hnow&Hq) Hx Hrx.
  exists h1, y, (h2 ++ [x]), ry, s0, s1. rewrite <- app_assoc. split_and!; try done.
  change (y :: h2 ++ [x]) with ((y :: h2) ++ [x]). by eapply quiet_snoc.
Qed.

Lemma pinged_new h s x r s' :
  tunnel x = Some (r, Some s') -> rx_incremented s s' = false -> ping_ok r = true -> pinged (h ++ [x]) (now r) s'.
Proof.
  intros Hx Hrx Hok. exists h, x, [], r, s, s'. split_and!; try done.
  apply (quiet_snoc s [] s x r s'); [constructor | done | done].
Qed.

Lemma stats_of_reset t c : stats_of (reset t c) = stats_of c.
Proof. unfold stats_of, reset. simpl. by destruct (conn_state c). Qed.

Lemma monitor_round_spec n h x m :
  (0 <= n < u32_max)%Z -> healthy n h m ->
  match monitor_round x m with
  | Continue m' => healthy (n + 1) (h ++ [x]) m'
  | Done _ ok => ended h x ok
  | Panicked => False
  end.
Proof.
  intros Hn (Hp&s&Hs&Hts). unfold monitor_round, ended.
  destruct (shut_down x) eqn:Hd; [by left|].
  destruct (_ <=? _)%Z.
  { split; [done|]. exists s. cbn [connectivity_check]. rewrite stats_of_reset. by split. }
  destruct (tunnel x) as [[r [s'|]]|] eqn:Ht; [|right; right; left; by eexists | by right; left].
  destruct (decide (s' = ∅)) as [->|Hne].
  { unfold check_connectivity, check_connectivity_interval. rewrite decide_True by done.
    right; right; right; left. by eexists. }
  destruct (check_spec n r s' (connectivity_check m) s Hn Hp Hs Hne) as (c'&b&->&Hp'&Hs'&Hrx&Hno).
  destruct (rx_incremented s s') eqn:Er.
  - destruct (Hrx eq_refl) as [-> Hnone]. split; [done|]. exists s'. split; [done|]. intros ts Hts'.
    simpl in Hts'. congruence.
  - destruct (Hno eq_refl) as (Hb&_&Hnew&_).
    assert (forall ts, initial_ping_timestamp (ping_state c') = Some ts -> pinged (h ++ [x]) ts s') as Hping.
    { intros ts [Hold|[-> Hok]]%Hnew; [|by eapply pinged_new].
      eapply pinged_snoc; [by apply Hts | done | done]. }
    destruct b.
    + split; [done|]. by exists s'.
    + right; right; right; right. unfold ping_timed_out in Hb.
      destruct (initial_ping_timestamp (ping_state c')) as [ts|] eqn:Ei; [|done].
      exists r, s', ts. split_and!; [done | by apply Hping|].
      symmetry in Hb. apply negb_false_iff, Z.ltb_lt in Hb. unfold elapsed in Hb.
      assert (0 < PING_TIMEOUT)%Z by (by vm_compute). lia.
Qed.

(** C30. A working tunnel is not given up.  Starting from an established connection with no ping under way,
    over fewer than 2^32 - 1 rounds, the monitor never panics, and it ends only if it is told to, if the tunnel
    is gone, if its counters cannot be read or name no peer, or if it sent a ping more than 15 seconds ago and
    in no round since then had all peers received anything more. *)
Theorem tunnel_given_up xs m s :
  stats_of (connectivity_check m) = Some s -> ping_state (connectivity_check m) = PingState_new ->
  (Z.of_nat (length xs) < u32_max)%Z ->
  match monitor_run xs m with
  | Continue _ => True
  | Done _ ok => exists h x rest, xs = h ++ x :: rest /\ ended h x ok
  | Panicked => False
  end.
Proof.
  intros Hs Hp Hlen.
  assert (healthy 0 [] m) as Hm.
  { split; [by rewrite Hp|]. exists s. rewrite Hp. by split. }
  assert (forall n h, n = Z.of_nat (length h) -> (n + Z.of_nat (length xs) < u32_max)%Z -> healthy n h m ->
            match monitor_run xs m with
            | Continue _ => True
            | Done _ ok => exists h' x rest, xs = h' ++ x :: rest /\ ended (h ++ h') x ok
            | Panicked => False
            end) as H.
  2: { specialize (H 0%Z [] eq_refl Hlen Hm). by destruct (monitor_run xs m). }
  clear Hs Hp Hlen Hm s. revert m. induction xs as [|x xs IH]; intros m n h Hn Hlen Hm; [done|].
  cbn [monitor_run length] in *. pose proof (monitor_round_spec n h x m ltac:(lia) Hm) as Hx.
  destruct (monitor_round x m) as [m'|m' ok|]; [| |done].
  - specialize (IH m' (n + 1)%Z (h ++ [x])). rewrite length_app in IH. simpl in IH.
    specialize (IH ltac:(lia) ltac:(lia) Hx). destruct (monitor_run xs m') as [| |]; [done| |done].
    destruct IH as (h'&x'&rest&->&He). exists (x :: h'), x', rest. split; [done|].
    by rewrite <- app_assoc in He.
  - exists [], x, xs. by rewrite app_nil_r.
Qed.

(** ** Noticing a tunnel that does not work *)
(** The machine did not sleep between rounds. *)
Fixpoint regular (last : Z) (xs : list Round) : Prop :=
  match xs with
  | [] => True
  | x :: xs => (round_now x - last < SUSPEND_TIMEOUT)%Z /\ regular (round_now x) xs
  end.

(** Rounds with counters, in none of which all peers received more. *)
Fixpoint silent (s : StatsMap) (xs : list Round) : Prop :=
  match xs with
  | [] => True
  | x :: xs => exists r s', tunnel x = Some (r, Some s') /\ s' <> ∅ /\ rx_incremented s s' = false /\ silent s' xs
  end.

Lemma silent_round n x m s r s' :
  (0 <= n < u32_max)%Z -> pings_below n (ping_state (connectivity_check m)) ->
  stats_of (connectivity_check m) = Some s ->
  (round_now x - last_check m < SUSPEND_TIMEOUT)%Z ->
  tunnel x = Some (r, Some s') -> s' <> ∅ -> rx_incremented s s' = false ->
  exists m', (monitor_round x m = Done m' true
              \/ monitor_round x m = Continue m' /\ last_check m' = round_now x
                 /\ pings_below (n + 1) (ping_state (connectivity_check m'))
                 /\ stats_of (connectivity_check m') = Some s'
                 /\ ping_timed_out (at_end r) PING_TIMEOUT (ping_state (connectivity_check m')) = false
                 /\ (forall ts, initial_ping_timestamp (ping_state (connectivity_check m)) = Some ts ->
                       initial_ping_timestamp (ping_state (connectivity_check m')) = Some ts)
                 /\ (forall ts, initial_ping_timestamp (ping_state (connectivity_check m')) = Some ts ->
                       initial_ping_timestamp (ping_state (connectivity_check m)) = Some ts \/ ts = now r)
                 /\ (ping_ok r = true ->
                       traffic_timed_out (at_traffic r) (conn_state (connectivity_check m')) = true ->
                       is_Some (initial_ping_timestamp (ping_state (connectivity_check m'))))).
Proof.
  intros Hn Hp Hs Hreg Ht Hne Hrx. unfold monitor_round.
  destruct (shut_down x); [exists m; by left|].
  rewrite (proj2 (Z.leb_gt _ _)) by done. rewrite Ht.
  destruct (check_spec n r s' (connectivity_check m) s Hn Hp Hs Hne) as (c'&b&->&Hp'&Hs'&_&Hno).
  destruct (Hno Hrx) as (Hb&Hkeep&Hnew&Hping). destruct b; [|eexists; by left].
  eexists. right. split; [done|]. cbn [connectivity_check last_check]. split_and!; try done.
  - by apply negb_true_iff.
  - intros ts Hts. destruct (Hnew ts Hts) as [?|[? _]]; auto.
  - intros Hok Hto. apply Hping; [done|]. by rewrite Hto, orb_true_r.
Qed.

(** From the first ping on. *)
Lemma silent_run xs : forall n m s ts x r,
  (0 <= n)%Z -> (n + Z.of_nat (length xs) + 1 < u32_max)%Z ->
  pings_below n (ping_state (connectivity_check m)) -> stats_of (connectivity_check m) = Some s ->
  initial_ping_timestamp (ping_state (connectivity_check m)) = Some ts ->
  regular (last_check m) (xs ++ [x]) -> silent s (xs ++ [x]) ->
  (exists s', tunnel x = Some (r, Some s')) -> (ts + PING_TIMEOUT < at_end r)%Z ->
  exists m', monitor_run (xs ++ [x]) m = Done m' true.
Proof.
  induction xs as [|y xs IH]; intros n m s ts x r Hn Hlen Hp Hs Hts Hreg Hsil Hx Hend; cbn [app monitor_run length] in *.
  - destruct Hreg as [Hreg _], Hsil as (r'&s'&Ht&Hne&Hrx&_), Hx as [s2 Hx]. rewrite Ht in Hx. injection Hx as -> ->.
    destruct (silent_round n x m s r s2) as (m'&[->|(->&_&_&_&Hto&Hkeep&_)]); try done; [lia | by exists m'|].
    exfalso. unfold ping_timed_out in Hto. rewrite (Hkeep ts Hts) in Hto. apply Z.ltb_ge in Hto.
    unfold elapsed in Hto. lia.
  - destruct Hreg as [Hreg Hregs], Hsil as (r'&s'&Ht&Hne&Hrx&Hsil).
    destruct (silent_round n y m s r' s') as (m'&[->|(->&Hl&Hp'&Hs'&_&Hkeep&_)]); try done; [lia | by exists m'|].
    apply (IH (n + 1)%Z m' s' ts x r); try done; try lia; [by apply Hkeep | by rewrite Hl].
Qed.

Lemma connected_after_check r s c c' b rx tx s0 :
  conn_state c = Connected rx tx s0 -> s <> ∅ -> rx_incremented s0 s = false ->
  check_connectivity r s c = Some (c', b) -> exists tx', conn_state c' = Connected rx tx' s.
Proof.
  intros Hc Hne Hrx. unfold check_connectivity, check_connectivity_interval. rewrite decide_False, Hc by done.
  cbn [update]. rewrite Hrx. intros (p&_&[= <- <-])%bind_Some. by eexists.
Qed.

Lemma monitor_round_conn x m m' r s rx tx s0 :
  conn_state (connectivity_check m) = Connected rx tx s0 -> s <> ∅ -> rx_incremented s0 s = false ->
  tunnel x = Some (r, Some s) -> (round_now x - last_check m < SUSPEND_TIMEOUT)%Z ->
  monitor_round x m = Continue m' -> exists tx', conn_state (connectivity_check m') = Connected rx tx' s.
Proof.
  intros Hc Hne Hrx Ht Hreg. unfold monitor_round. destruct (shut_down x); [done|].
  rewrite (proj2 (Z.leb_gt _ _)), Ht by done.
  destruct (check_connectivity r s _) as [[c' []]|] eqn:E; try done. intros [= <-].
  by eapply connected_after_check.
Qed.

(** A tunnel that does not work is noticed.  If no peer's counter grows, the machine does not sleep, and
    a round comes at which nothing has been received for two minutes and a ping can be sent, then the
    monitor has ended by the first round that checks more than 15 seconds later. *)
Theorem dead_tunnel_noticed m rx tx s y xs x ry r :
  conn_state (connectivity_check m) = Connected rx tx s ->
  pings_below 0 (ping_state (connectivity_check m)) ->
  regular (last_check m) (y :: xs ++ [x]) -> silent s (y :: xs ++ [x]) ->
  (exists s', tunnel y = Some (ry, Some s')) -> (exists s', tunnel x = Some (r, Some s')) ->
  (TRAFFIC_TIMEOUT <= at_traffic ry - rx)%Z -> ping_ok ry = true ->
  (now ry + PING_TIMEOUT < at_end r)%Z -> (Z.of_nat (length xs) + 2 < u32_max)%Z ->
  exists m', monitor_run (y :: xs ++ [x]) m = Done m' true.
Proof.
  intros Hc Hp [Hreg Hregs] (r'&s'&Ht&Hne&Hrx&Hsil) [s2 Hy] Hx Hto Hok Hend Hlen.
  rewrite Ht in Hy. injection Hy as -> ->.
  assert (stats_of (connectivity_check m) = Some s) as Hs by (unfold stats_of; by rewrite Hc).
  destruct (silent_round 0 y m s ry s2) as (m'&[Hm|(Hm&Hl&Hp'&Hs'&_&_&Hnew&Hping)]); try done;
    cbn [monitor_run app]; rewrite Hm; [by exists m'|].
  destruct (monitor_round_conn y m m' ry s2 rx tx s) as [tx' Hc']; try done.
  destruct Hping as [ts Hts]; [done| |].
  { rewrite Hc'. simpl. unfold elapsed. apply orb_true_iff. left. apply Z.leb_le. lia. }
  assert (ts = now ry) as ->.
  { destruct (Hnew ts Hts) as [Hold|]; [|done]. unfold pings_below in Hp. rewrite Hold in Hp. lia. }
  apply (silent_run xs 1 m' s2 (now ry) x r); try done; try lia. by rewrite Hl.
Qed.

(** ** Runs *)
Definition counters (n : Z) : StatsMap := {[ 1%Z := {| tx_bytes := n; rx_bytes := n |} ]}.

(** A round at [t] seconds that takes no time. *)
Definition round_at (t : Z) (n : Z) : Round :=
  let t := from_secs t in
  {| shut_down := false; round_now := t;
     tunnel := Some ({| now := t; at_rx := t; at_traffic := t; at_pace := t; at_end := t; ping_ok := true |},
                     Some (counters n)) |}.

Definition monitor_at (t : Z) : Monitor :=
  {| connectivity_check := {| conn_state := Connected 0 (from_secs (-1)) (counters 5);
                              ping_state := PingState_new |};
     last_check := from_secs t |}.

Definition seconds (from : Z) (n : nat) : list Round := map (fun i => round_at (from + Z.of_nat i) 5) (seq 0 n).

Lemma tunnel_given_up_witness :
  match monitor_run (seconds 120 30) (monitor_at 119) with
  | Continue _ => True
  | Done _ ok => exists h x rest, seconds 120 30 = h ++ x :: rest /\ ended h x ok
  | Panicked => False
  end.
Proof.
  apply (tunnel_given_up (seconds 120 30) (monitor_at 119) (counters 5)); [reflexivity | reflexivity | by vm_compute].
Defined.

Lemma dead_tunnel_noticed_witness :
  exists m', monitor_run (round_at 120 5 :: seconds 121 15 ++ [round_at 136 5]) (monitor_at 119) = Done m' true.
Proof.
  assert (forall n, exists r s', tunnel (round_at n 5) = Some (r, Some s') /\ s' <> ∅
                    /\ rx_incremented (counters 5) s' = false /\ s' = counters 5) as Hround.
  { intros n. eexists _, _. split; [reflexivity|]. split_and!; [|by vm_compute|done]. by vm_compute. }
  assert (forall l, silent (counters 5) (map (fun n => round_at n 5) l)) as Hsilent.
  { induction l as [|n l IH]; [done|]. destruct (Hround n) as (r&s'&Ht&Hne&Hrx&->). simpl.
    eexists _, _. by split_and!. }
  eapply (dead_tunnel_noticed (monitor_at 119) 0 (from_secs (-1)) (counters 5));
    [reflexivity | reflexivity | by vm_compute | | by eexists | by eexists | by vm_compute | reflexivity
    | by vm_compute | by vm_compute].
  change (round_at 120 5 :: seconds 121 15 ++ [round_at 136 5])
    with (map (fun n => round_at n 5) (120 :: map (fun i => 121 + Z.of_nat i) (seq 0 15) ++ [136]))%Z.
  apply Hsilent.
Defined.

(** The comment in [maybe_send_ping] asks for a ping every three seconds; the condition sends one at every
    check as long as there was on average more than one per three seconds: four in three seconds. *)
Theorem pings_every_second :
  match monitor_run (seconds 120 4) (monitor_at 119) with
  | Continue m => num_pings_sent (ping_state (connectivity_check m)) = 4%Z
  | _ => False
  end.
Proof. by vm_compute. Qed.
