(* ===== verification/MtuDetection.v ===== *)
(** * MTU detection

    [src/talpid-wireguard/src/mtu_detection.rs]: pings of many sizes are sent through the tunnel, and the
    largest that is answered becomes the MTU.

    The pings are inputs, in the order in which they end: when, and with what.  The per-item timeout is
    that of [tokio_stream]: an item must come within the given time after the one before it. *)

From stdpp Require Import base list option numbers sets.
From Stdlib Require Import Sorted.
From S2P Require Import Prelude Retry.
Local Open Scope vpn_scope.

Definition MIN_IPV4_MTU : Z := 576.
Definition MTU_STEP_SIZE : Z := 20.
Definition PING_OFFSET_TIMEOUT : Z := from_secs 2.

(** [u16::next_multiple_of], which wraps around in a release build. *)
Definition next_multiple_of (a n : Z) : Z := (((a + n - 1) / n * n) mod 2 ^ 16)%Z.

(** [(start..stop).step_by(step)]. *)
Fixpoint step_by (fuel : nat) (start stop step : Z) : list Z :=
  match fuel with
  | 0 => []
  | S fuel => if (start <? stop)%Z then start :: step_by fuel (start + step) stop step else []
  end.

(** [None] where an assertion fails. *)
Definition mtu_spacing (mtu_min mtu_max step_size : Z) : option (list Z) :=
  if (mtu_min <? mtu_max)%Z && (step_size <? mtu_max)%Z && negb (step_size =? 0)%Z then
    let second_mtu := next_multiple_of (mtu_min + 1) step_size in
    Some (mtu_min :: step_by (Z.to_nat (mtu_max - second_mtu)) second_mtu mtu_max step_size ++ [mtu_max])
  else None.

Inductive PingError : Type := PingTimeout | PingFailed.
Inductive MtuError : Type := MtuDetectionAllDropped | MtuDetectionUnexpected (e : PingError).

(** The rest of the stream: [last] is when the item before came. *)
Fixpoint max_of_rest (acc last : Z) (pings : list (Z * result Z PingError)) : result Z MtuError :=
  match pings with
  | [] => Ok acc
  | (t, r) :: pings =>
      if (PING_OFFSET_TIMEOUT <=? t - last)%Z then Ok acc
      else match r with
           | Ok mtu => max_of_rest (Z.max acc mtu) t pings
           | Err e => Err (MtuDetectionUnexpected e)
           end
  end.

(** [None] where [expect] panics. *)
Definition max_ping_size (pings : list (Z * result Z PingError)) : option (result Z MtuError) :=
  match pings with
  | [] => None
  | (_, Err PingTimeout) :: _ => Some (Err MtuDetectionAllDropped)
  | (_, Err e) :: _ => Some (Err (MtuDetectionUnexpected e))
  | (t, Ok first_ping_size) :: pings => Some (max_of_rest first_ping_size t pings)
  end.

(** [detect_mtu]: a ping of every size; [answer] orders them by when they end. *)
Definition detect_mtu (answer : list Z -> list (Z * result Z PingError)) (current_mtu : Z)
  : option (result Z MtuError) :=
  linspace ← mtu_spacing MIN_IPV4_MTU current_mtu MTU_STEP_SIZE; max_ping_size (answer linspace).

(** [automatic_mtu_correction]: the MTU that is set, if it is changed. *)
Definition automatic_mtu_correction (answer : list Z -> list (Z * result Z PingError)) (current_tunnel_mtu : Z)
  : option (result (option Z) MtuError) :=
  r ← detect_mtu answer current_tunnel_mtu;
  Some match r with
       | Err e => Err e
       | Ok verified_mtu => Ok (if (verified_mtu =? current_tunnel_mtu)%Z then None else Some verified_mtu)
       end.

(** ** The spacing *)
Definition spaced (step : Z) (l : list Z) : Prop := Sorted (fun a b => a < b <= a + step)%Z l.

Lemma step_by_spaced fuel : forall start stop step,
  (0 < step)%Z -> (stop - start <= Z.of_nat fuel)%Z ->
  (forall p, (p < start <= p + step)%Z -> (p < stop)%Z ->
     Sorted (fun a b => a < b <= a + step)%Z (p :: step_by fuel start stop step ++ [stop]))
  /\ Forall (fun a => start <= a < stop /\ (a - start) mod step = 0)%Z (step_by fuel start stop step).
Proof.
  induction fuel as [|fuel IH]; intros start stop step Hstep Hf; cbn [step_by].
  - split; [|done]. intros p Hp Hps. repeat constructor; lia.
  - destruct (Z.ltb_spec start stop) as [Hlt|Hge].
    + destruct (IH (start + step)%Z stop step) as [IHs IHf]; [lia..|]. split.
      * intros p Hp Hps. cbn [app]. constructor; [|by constructor]. apply IHs; lia.
      * constructor; [split; [lia|]; by rewrite Z.sub_diag, Z.mod_0_l by lia|].
        eapply Forall_impl; [exact IHf|]. intros a [Ha Hm]. split; [lia|].
        replace (a - start)%Z with (a - (start + step) + 1 * step)%Z by lia. by rewrite Z_mod_plus_full.
    + split; [|done]. intros p Hp Hps. repeat constructor; lia.
Qed.

Lemma next_multiple_spec a n :
  (0 < n)%Z -> (0 <= a)%Z -> (a + n < 2 ^ 16)%Z ->
  (a <= next_multiple_of a n < a + n)%Z /\ (next_multiple_of a n mod n = 0)%Z.
Proof.
  intros Hn Ha Hb. unfold next_multiple_of.
  assert (a <= (a + n - 1) / n * n < a + n)%Z by (Z.to_euclidean_division_equations; nia).
  rewrite Z.mod_small by lia. split; [lia | by rewrite Z_mod_mult].
Qed.

(** The sizes that are tried start with the smallest and end with the largest, grow strictly, and are
    never further apart than the step; those in between are multiples of the step. *)
Lemma mtu_spacing_exact mtu_min mtu_max step :
  (0 <= mtu_min < mtu_max)%Z -> (0 < step < mtu_max)%Z -> (mtu_min + 1 + step < 2 ^ 16)%Z ->
  exists between, mtu_spacing mtu_min mtu_max step = Some (mtu_min :: between ++ [mtu_max])
    /\ spaced step (mtu_min :: between ++ [mtu_max])
    /\ Forall (fun a => a mod step = 0)%Z between.
Proof.
  intros Hm Hs Hb. unfold mtu_spacing.
  rewrite (proj2 (Z.ltb_lt mtu_min mtu_max)), (proj2 (Z.ltb_lt step mtu_max)), (proj2 (Z.eqb_neq step 0)) by lia.
  cbn [andb negb]. destruct (next_multiple_spec (mtu_min + 1) step) as [Hr Hmod]; [lia..|].
  set (second := next_multiple_of (mtu_min + 1) step) in *.
  destruct (step_by_spaced (Z.to_nat (mtu_max - second)) second mtu_max step) as [Hsp Hf]; [lia..|].
  eexists. split; [done|]. split; [apply Hsp; lia|].
  eapply Forall_impl; [exact Hf|]. intros a [_ Ha]. cbv beta.
  replace a with ((a - second) + second)%Z by lia. rewrite Z.add_mod, Ha, Hmod by lia. by rewrite Z.mod_0_l by lia.
Qed.

(** ** The result *)
(** Pings that end in time after the one before. *)
Fixpoint in_time (last : Z) (pings : list (Z * result Z PingError)) : list (result Z PingError) :=
  match pings with
  | [] => []
  | (t, r) :: pings => if (PING_OFFSET_TIMEOUT <=? t - last)%Z then [] else r :: in_time t pings
  end.

Lemma max_of_rest_spec pings : forall acc last mtu,
  max_of_rest acc last pings = Ok mtu <->
  Forall (fun r => exists n, r = Ok n) (in_time last pings)
  /\ (mtu = acc \/ Ok mtu ∈ in_time last pings)
  /\ (acc <= mtu)%Z /\ (forall n, Ok n ∈ in_time last pings -> (n <= mtu)%Z).
Proof.
  induction pings as [|[t r] pings IH]; intros acc last mtu; cbn [max_of_rest in_time].
  - split; [intros [= ->]; split_and!; [done | by left | lia | intros n Hn; by apply elem_of_nil in Hn]|].
    intros (_&[->|H%elem_of_nil]&_); done.
  - destruct (_ <=? _)%Z.
    + split; [intros [= ->]; split_and!; [done | by left | lia | intros n Hn; by apply elem_of_nil in Hn]|].
      intros (_&[->|H%elem_of_nil]&_); done.
    + destruct r as [n|e]; [rewrite IH | split; [done|]; intros [H%Forall_inv _]; by destruct H].
      rewrite Forall_cons. setoid_rewrite elem_of_cons. split.
      * intros (Hok&Hm&Ha&Hall). split_and!; [naive_solver | done | | lia |].
        -- destruct Hm as [->|Hm]; [|by auto]. destruct (Z.max_spec acc n) as [[_ ->]|[_ ->]]; auto.
        -- intros k [[= ->]|Hk]; [lia | by apply Hall].
      * intros ([_ Hok]&Hm&Ha&Hall). assert (n <= mtu)%Z by (apply Hall; by left). split_and!; [done| |lia|auto].
        destruct Hm as [->|[[= ->]|Hm]]; [left; lia | left; lia | by right].
Qed.

(** The answers to pings: each is an error or a size that was sent. *)
Definition echoes (answer : list Z -> list (Z * result Z PingError)) : Prop :=
  forall l t n, (t, Ok n) ∈ answer l -> n ∈ l.

Lemma in_time_elem last pings n : Ok n ∈ in_time last pings -> exists t, (t, Ok n) ∈ pings.
Proof.
  revert last. induction pings as [|[t r] pings IH]; intros last; cbn [in_time]; [by intros ?%elem_of_nil|].
  destruct (_ <=? _)%Z; [by intros ?%elem_of_nil|]. intros [<-|H]%elem_of_cons.
  - exists t. left.
  - apply IH in H as [t' H]. exists t'. by right.
Qed.

Lemma spaced_bounds step l :
  spaced step l -> forall a b, head l = Some a -> last l = Some b -> Forall (fun x => a <= x <= b)%Z l.
Proof.
  unfold spaced. induction 1 as [|x l Hs IH Hd]; intros a b; [done|]. cbn [head]. intros [= <-] Hb.
  destruct l as [|y l]; [injection Hb as <-; repeat constructor; lia|]. rewrite last_cons_cons in Hb.
  specialize (IH y b eq_refl Hb). apply HdRel_inv in Hd. pose proof (Forall_inv IH) as Hy. simpl in Hy.
  constructor; [lia|]. eapply Forall_impl; [exact IH|]. simpl. lia.
Qed.

(** The MTU is only ever lowered, to a size that was answered: if the correction changes the MTU of the
    tunnel, the new one is at least 576, less than the old one, was answered, and is the largest that was
    answered before the pings stopped coming in. *)
Theorem mtu_lowered answer current mtu :
  echoes answer -> (MIN_IPV4_MTU < current < 2 ^ 16)%Z ->
  automatic_mtu_correction answer current = Some (Ok (Some mtu)) ->
  (MIN_IPV4_MTU <= mtu < current)%Z
  /\ exists l t0 m0 pings, mtu_spacing MIN_IPV4_MTU current MTU_STEP_SIZE = Some l
     /\ answer l = (t0, Ok m0) :: pings /\ (mtu = m0 \/ Ok mtu ∈ in_time t0 pings)
     /\ forall n, n = m0 \/ Ok n ∈ in_time t0 pings -> (n <= mtu)%Z.
Proof.
  intros Hecho Hcur. unfold automatic_mtu_correction, detect_mtu.
  destruct (mtu_spacing_exact MIN_IPV4_MTU current MTU_STEP_SIZE) as (between&Hl&Hsp&_);
    [unfold MIN_IPV4_MTU in *; lia | unfold MIN_IPV4_MTU, MTU_STEP_SIZE in *; lia | by vm_compute|].
  rewrite Hl. set (l := MIN_IPV4_MTU :: between ++ [current]) in *. cbn [mbind option_bind].
  intros (r&Hr&Hres)%bind_Some. destruct r as [v|]; [|done].
  destruct (Z.eqb_spec v current) as [|Hne]; [done|]. injection Hres as ->.
  unfold max_ping_size in Hr. destruct (answer l) as [|[t0 [m0|[]]] pings] eqn:Ea; try done.
  injection Hr as Hr. apply max_of_rest_spec in Hr as (_&Hm&Ha&Hall). split.
  - assert (mtu ∈ l) as Hin.
    { destruct Hm as [->|[t Ht]%in_time_elem]; (eapply Hecho; rewrite Ea); [left | right; exact Ht]. }
    assert (Forall (fun x => MIN_IPV4_MTU <= x <= current)%Z l) as Hb.
    { eapply spaced_bounds; [exact Hsp | done|]. unfold l. by rewrite app_comm_cons, last_snoc. }
    rewrite Forall_forall in Hb. apply Hb in Hin. lia.
  - exists l, t0, m0, pings. split_and!; try done. intros n [->|Hn]; [done | by apply Hall].
Qed.

Lemma mtu_lowered_witness :
  automatic_mtu_correction (fun l => match l with a :: b :: _ => [(0, Ok b); (5, Ok a)]%Z | _ => [] end) 1380
  = Some (Ok (Some 580%Z)) /\ (576 <= 580 < 1380)%Z.
Proof.
  split; [by vm_compute|].
  refine (proj1 (mtu_lowered (fun l => match l with a :: b :: _ => [(0, Ok b); (5, Ok a)]%Z | _ => [] end)
                   1380 580 _ _ _)); [|by vm_compute..].
  intros [|a [|b l]] t n H; set_solver.
Defined.

(** The documentation counts the two seconds from the first answer; they start again with every answer, so
    that one that comes three seconds after the first can still count. *)
Theorem late_ping_counts :
  max_ping_size [(0, Ok 600); (from_secs 1 + 500000000, Ok 620); (from_secs 3, Ok 640)]%Z = Some (Ok 640%Z).
Proof. reflexivity. Qed.
