(* ===== verification/AccessMethods.v ===== *)
(** * API access methods

    [src/mullvad-types/src/access_method.rs], the list of ways to reach the API, and
    [src/mullvad-api/src/access_mode.rs], the actor that switches between them, in a build without the
    [api-override] feature.

    Ids are numbers.  A custom proxy, a connection mode and an endpoint are opaque; the resolver that turns
    a method into a connection mode is a parameter with a state of its own. *)

From stdpp Require Import base list strings option numbers sets.
From S2P Require Import Prelude.
Local Open Scope vpn_scope.

Inductive BuiltInAccessMethod : Type := DirectMethod | Bridge | EncryptedDnsProxy | DomainFronting.
#[global] Instance BuiltInAccessMethod_eq_dec : EqDecision BuiltInAccessMethod.
Proof. solve_decision. Defined.

Section settings.
Context {CustomProxy : Type} `{EqDecision CustomProxy}.

Inductive AccessMethod : Type :=
| BuiltIn (b : BuiltInAccessMethod)
| Custom (p : CustomProxy).
#[global] Instance AccessMethod_eq_dec : EqDecision AccessMethod.
Proof. solve_decision. Defined.

Record AccessMethodSetting : Type := {
  id : nat;
  name : string;
  enabled : bool;
  access_method : AccessMethod;
}.
#[global] Instance AccessMethodSetting_eq_dec : EqDecision AccessMethodSetting.
Proof. solve_decision. Defined.

Record Settings : Type := {
  direct : AccessMethodSetting;
  mullvad_bridges : AccessMethodSetting;
  encrypted_dns_proxy : AccessMethodSetting;
  domain_fronting : AccessMethodSetting;
  custom : list AccessMethodSetting;
}.

Inductive SettingsError : Type := DuplicateName | RemoveBuiltin (attempted : BuiltInAccessMethod).

Definition iter (s : Settings) : list AccessMethodSetting :=
  direct s :: mullvad_bridges s :: encrypted_dns_proxy s :: domain_fronting s :: custom s.

(** What [iter_mut] writes back. *)
Definition of_list (l : list AccessMethodSetting) (s : Settings) : Settings :=
  match l with
  | d :: b :: e :: f :: c =>
      {| direct := d; mullvad_bridges := b; encrypted_dns_proxy := e; domain_fronting := f; custom := c |}
  | _ => s
  end.

Definition cardinality (s : Settings) : nat := length (iter s).

Definition enable (m : AccessMethodSetting) : AccessMethodSetting :=
  {| id := id m; name := name m; enabled := true; access_method := access_method m |}.

Definition set_custom (c : list AccessMethodSetting) (s : Settings) : Settings :=
  {| direct := direct s; mullvad_bridges := mullvad_bridges s; encrypted_dns_proxy := encrypted_dns_proxy s;
     domain_fronting := domain_fronting s; custom := c |}.

Definition ensure_consistent_state (s : Settings) : Settings :=
  if forallb (fun m => negb (enabled m)) (iter s) then
    {| direct := enable (direct s); mullvad_bridges := mullvad_bridges s;
       encrypted_dns_proxy := encrypted_dns_proxy s; domain_fronting := domain_fronting s; custom := custom s |}
  else s.

Definition check_custom_access_method_name_is_unique (new : AccessMethodSetting) (s : Settings)
  : result unit SettingsError :=
  if existsb (fun m => bool_decide (id m <> id new) && bool_decide (name m = name new)) (custom s)
  then Err DuplicateName else Ok ().

Definition append (m : AccessMethodSetting) (s : Settings) : result Settings SettingsError :=
  check_custom_access_method_name_is_unique m s ;?
  Ok (set_custom (custom s ++ [m]) s).

Definition remove (i : nat) (s : Settings) : result Settings SettingsError :=
  match list_find (fun m => id m = i) (custom s) with
  | Some (_, m) =>
      match access_method m with
      | BuiltIn built_in => Err (RemoveBuiltin built_in)
      | Custom _ => Ok (ensure_consistent_state (set_custom (filter (fun m => id m <> i) (custom s)) s))
      end
  | None => Ok s
  end.

(** [f] on the first element that satisfies the predicate. *)
Fixpoint update_first (predicate : AccessMethodSetting -> bool) (f : AccessMethodSetting -> AccessMethodSetting)
    (l : list AccessMethodSetting) : list AccessMethodSetting :=
  match l with
  | [] => []
  | m :: l => if predicate m then f m :: l else m :: update_first predicate f l
  end.

Definition update (predicate : AccessMethodSetting -> bool) (f : AccessMethodSetting -> AccessMethodSetting)
    (s : Settings) : result (Settings * bool) SettingsError :=
  match list_find (fun m => predicate m = true) (iter s) with
  | Some (_, m) =>
      check_custom_access_method_name_is_unique (f m) s ;?
      Ok (ensure_consistent_state (of_list (update_first predicate f (iter s)) s), true)
  | None => Ok (ensure_consistent_state s, false)
  end.

Definition is_builtin (m : AccessMethodSetting) : bool :=
  match access_method m with BuiltIn _ => true | Custom _ => false end.
Definition is_direct (m : AccessMethodSetting) : bool :=
  match access_method m with BuiltIn DirectMethod => true | _ => false end.

(** Neither the name nor whether a method is enabled is checked. *)
Definition update_builtin (predicate : AccessMethodSetting -> bool) (f : AccessMethodSetting -> AccessMethodSetting)
    (s : Settings) : Settings * bool :=
  let chosen m := is_builtin m && predicate m in
  match list_find (fun m => chosen m = true) (iter s) with
  | Some _ => (of_list (update_first chosen f (iter s)) s, true)
  | None => (s, false)
  end.

Definition clear_custom (s : Settings) : Settings := ensure_consistent_state (set_custom [] s).

(** ** The selector *)
Context {Endpoint ConnectionMode Resolver : Type}.
(** The trait [AccessMethodResolver]. *)
Context (resolve_access_method_setting : AccessMethod -> Resolver -> option (Endpoint * ConnectionMode) * Resolver).
Context (default_connection_mode : Resolver -> Endpoint).
(** [ApiConnectionMode::Direct]. *)
Context (mode_direct : ConnectionMode).

Record ResolvedConnectionMode : Type := {
  connection_mode : ConnectionMode; endpoint : Endpoint; setting : AccessMethodSetting
}.

Record AccessModeSelector : Type := {
  method_resolver : Resolver;
  access_method_settings : Settings;
  current : ResolvedConnectionMode;
  index : nat;
}.

(** [cycle().skip(start).take(n).find(enabled)]. *)
Fixpoint find_from (l : list AccessMethodSetting) (fuel start : nat) : option (nat * AccessMethodSetting) :=
  match fuel with
  | 0 => None
  | S fuel =>
      let i := start mod length l in
      match l !! i with
      | Some m => if enabled m then Some (i, m) else find_from l fuel (S start)
      | None => None
      end
  end.

Definition find_next_active (start : nat) (s : Settings) : nat * AccessMethodSetting :=
  default (0, direct s) (find_from (iter s) (cardinality s) start).

Definition resolve_with_default (m : AccessMethodSetting) (r : Resolver) : ResolvedConnectionMode * Resolver :=
  let '(resolved, r) := resolve_access_method_setting (access_method m) r in
  let '(endpoint, connection_mode) :=
    match resolved with Some p => p | None => (default_connection_mode r, mode_direct) end in
  ({| connection_mode := connection_mode; endpoint := endpoint; setting := m |}, r).

(** The new current method is what is announced to the daemon and to the REST client. *)
Definition set_current (m : AccessMethodSetting) (s : AccessModeSelector)
  : AccessModeSelector * list ResolvedConnectionMode :=
  let '(resolved, r) := resolve_with_default m (method_resolver s) in
  ({| method_resolver := r; access_method_settings := access_method_settings s; current := resolved;
      index := index s |}, [resolved]).

Definition set_index (i : nat) (s : AccessModeSelector) : AccessModeSelector :=
  {| method_resolver := method_resolver s; access_method_settings := access_method_settings s;
     current := current s; index := i |}.

Definition next_connection_mode (s : AccessModeSelector) : AccessModeSelector * list ResolvedConnectionMode :=
  let '(next_index, next) := find_next_active (index s + 1) (access_method_settings s) in
  set_current next (set_index next_index s).

Definition use_access_method (i : nat) (s : AccessModeSelector)
  : AccessModeSelector * list ResolvedConnectionMode :=
  match list_find (fun m => id m = i) (iter (access_method_settings s)) with
  | None => (s, [])
  | Some (index, m) => set_current m (set_index index s)
  end.

Definition update_access_methods (new : Settings) (s : AccessModeSelector)
  : AccessModeSelector * list ResolvedConnectionMode :=
  let s := {| method_resolver := method_resolver s; access_method_settings := new; current := current s;
              index := index s |} in
  match list_find (fun m => id m = id (setting (current s))) (iter new) with
  | Some (index, new_current) =>
      let s := set_index index s in
      if decide (setting (current s) = new_current) then (s, [])
      else if enabled new_current then set_current new_current s
      else next_connection_mode s
  | None => next_connection_mode (set_index (index s - 1) s)
  end.

(** [resolve]: the state of the resolver changes, the selector does not. *)
Definition resolve (m : AccessMethodSetting) (s : AccessModeSelector)
  : option ResolvedConnectionMode * AccessModeSelector :=
  let '(resolved, r) := resolve_access_method_setting (access_method m) (method_resolver s) in
  ((fun p => {| connection_mode := p.2; endpoint := p.1; setting := m |}) <$> resolved,
   {| method_resolver := r; access_method_settings := access_method_settings s; current := current s;
      index := index s |}).

(** [spawn]: the selector starts with the first method that is enabled. *)
Definition spawn (settings : Settings) (r : Resolver) : AccessModeSelector :=
  let '(index, next) := find_next_active 0 settings in
  let '(initial, r) := resolve_with_default next r in
  {| method_resolver := r; access_method_settings := settings; current := initial; index := index |}.

Inductive Message : Type :=
| Get | Use (i : nat) | Rotate | Update (settings : Settings) | Resolve (m : AccessMethodSetting).

(** One command: the new state and what is announced.  That a reply cannot be delivered is not critical, and
    changes nothing. *)
Definition process (m : Message) (s : AccessModeSelector) : AccessModeSelector * list ResolvedConnectionMode :=
  match m with
  | Get => (s, [])
  | Use i => use_access_method i s
  | Rotate => next_connection_mode s
  | Update settings => update_access_methods settings s
  | Resolve m => ((resolve m s).2, [])
  end.
End settings.
Arguments AccessMethod : clear implicits.
Arguments AccessMethodSetting : clear implicits.
Arguments Settings : clear implicits.
