(* ===== verification/AccessMethodsProps.v ===== *)
(** * What is proved about API access methods

    There is always a method that is enabled; rotating tries each of them in turn; a method that is
    removed or disabled is not used any more. *)

From stdpp Require Import base list strings option numbers sets.
From S2P Require Import Prelude AccessMethods.
Local Open Scope vpn_scope.

Section props.
Context {CustomProxy : Type} `{EqDecision CustomProxy}.
Implicit Types l : list (AccessMethodSetting CustomProxy).
Implicit Types s : Settings CustomProxy.

(** ** Settings *)
Definition some_enabled s : Prop := exists m, m ∈ iter s /\ enabled m = true.

Definition settings_ok s : Prop :=
  some_enabled s /\ NoDup (map id (iter s)) /\ NoDup (map name (custom s)).

Lemma ensure_enabled s : some_enabled (ensure_consistent_state s).
Proof.
  unfold ensure_consistent_state. destruct (forallb _ (iter s)) eqn:E.
  - eexists. split; [left|]. done.
  - apply not_true_iff_false in E. destruct (decide (Exists (fun m => enabled m = true) (iter s))) as [He|He].
    + apply Exists_exists in He. done.
    + destruct E. apply forallb_forall. intros m Hm%list_elem_of_In. destruct (enabled m) eqn:Em; [|done].
      destruct He. apply Exists_exists. by exists m.
Qed.

Lemma ensure_keeps s :
  map id (iter (ensure_consistent_state s)) = map id (iter s)
  /\ custom (ensure_consistent_state s) = custom s.
Proof. unfold ensure_consistent_state. by destruct (forallb _ (iter s)). Qed.

Lemma ensure_ok s :
  NoDup (map id (iter s)) -> NoDup (map name (custom s)) -> settings_ok (ensure_consistent_state s).
Proof.
  intros Hi Hn. destruct (ensure_keeps s) as [Ei Ec]. unfold settings_ok. rewrite Ei, Ec.
  split; [apply ensure_enabled | done].
Qed.

Lemma iter_set_custom c s : iter (set_custom c s) = take 4 (iter s) ++ c.
Proof. done. Qed.

Lemma name_unique_spec (m : AccessMethodSetting CustomProxy) s :
  check_custom_access_method_name_is_unique m s = Ok () <->
  forall m', m' ∈ custom s -> id m' <> id m -> name m' <> name m.
Proof.
  unfold check_custom_access_method_name_is_unique. destruct (existsb _ _) eqn:E.
  - split; [done|]. intros H. apply existsb_exists in E as (m'&Hm%list_elem_of_In&Hb).
    apply andb_true_iff in Hb as [Hi%bool_decide_eq_true Hn%bool_decide_eq_true]. by destruct (H m' Hm Hi).
  - split; [|done]. intros _ m' Hm Hi Hn. apply not_true_iff_false in E. apply E, existsb_exists.
    exists m'. split; [by apply list_elem_of_In|]. by rewrite !bool_decide_true.
Qed.

Lemma update_first_split p (f : AccessMethodSetting CustomProxy -> AccessMethodSetting CustomProxy) l i m :
  list_find (fun m => p m = true) l = Some (i, m) ->
  exists l1 l2, l = l1 ++ m :: l2 /\ length l1 = i /\ update_first p f l = l1 ++ f m :: l2.
Proof.
  revert i. induction l as [|a l IH]; intros i; [done|]. cbn [list_find update_first]. case_decide as Ha.
  - intros [= <- <-]. exists [], l. by rewrite Ha.
  - destruct (list_find _ l) as [[j m']|] eqn:E; [|done]. intros [= <- <-].
    destruct (IH j eq_refl) as (l1&l2&->&<-&Hu). exists (a :: l1), l2. rewrite Hu.
    destruct (p a); [done|]. done.
Qed.

Lemma iter_of_list l s : 4 <= length l -> iter (of_list l s) = l.
Proof. intros Hl. destruct l as [|? [|? [|? [|? ?]]]]; simpl in Hl; try lia. done. Qed.

Lemma custom_of_list l s : 4 <= length l -> custom (of_list l s) = drop 4 l.
Proof. intros Hl. destruct l as [|? [|? [|? [|? ?]]]]; simpl in Hl; try lia. done. Qed.

(** Replacing a setting by one with the same id and a name no other custom setting has. *)
Lemma replace_ok l1 m m' l2 :
  id m' = id m -> NoDup (map id (l1 ++ m :: l2)) -> NoDup (map name (drop 4 (l1 ++ m :: l2))) ->
  (forall a, a ∈ drop 4 (l1 ++ m :: l2) -> id a <> id m' -> name a <> name m') ->
  NoDup (map id (l1 ++ m' :: l2)) /\ NoDup (map name (drop 4 (l1 ++ m' :: l2))).
Proof.
  intros Hid Hi Hn Hu. rewrite !map_app in *. cbn [map] in *. split; [by rewrite Hid|].
  destruct (decide (length l1 < 4)) as [Hlt|Hge].
  - assert (forall a, drop 4 (l1 ++ a :: l2) = drop (3 - length l1) l2) as Hd.
    { intros a. rewrite drop_app, (drop_ge l1) by lia.
      by replace (4 - length l1) with (S (3 - length l1)) by lia. }
    rewrite Hd in *. done.
  - rewrite drop_app_le in * by lia. rewrite !map_app in *. cbn [map] in *.
    rewrite NoDup_app in *. rewrite NoDup_cons in *. destruct Hn as (Hn1&Hd&_&Hn2).
    assert (forall a, a ∈ drop 4 l1 ++ l2 -> id a <> id m) as Hne.
    { intros a Ha E. apply NoDup_app in Hi as (_&Hi1&Hi2). apply NoDup_cons in Hi2 as [Hi2 _].
      apply elem_of_app in Ha as [Ha|Ha].
      - apply (Hi1 (id m)); [|left]. apply list_elem_of_fmap. exists a. split; [done|].
        rewrite <- (take_drop 4 l1). apply elem_of_app. by right.
      - apply Hi2, list_elem_of_fmap. by exists a. }
    assert (forall a, a ∈ drop 4 l1 ++ l2 -> name a <> name m') as Hnn.
    { intros a Ha. apply Hu; [set_solver|]. rewrite Hid. by apply Hne. }
    split_and!; [done| | |done].
    + intros x Hx [->|Hx2]%elem_of_cons; [|apply (Hd x Hx); by right].
      apply list_elem_of_fmap in Hx as (a&E&Ha). apply (Hnn a); [set_solver | done].
    + intros (a&E&Ha)%list_elem_of_fmap. apply (Hnn a); [set_solver | done].
Qed.

Lemma append_ok m s s' :
  settings_ok s -> id m ∉ map id (iter s) -> append m s = Ok s' -> settings_ok s'.
Proof.
  intros ((e&He&Hen)&Hi&Hn) Hid. unfold append. rewrite bind_result_Ok.
  intros ([]&Hu&[= <-]). pose proof (proj1 (name_unique_spec m s) Hu) as Hu'. split_and!.
  - exists e. split; [|done]. rewrite iter_set_custom, app_assoc.
    change (take 4 (iter s) ++ custom s) with (iter s). set_solver.
  - rewrite iter_set_custom, app_assoc. change (take 4 (iter s) ++ custom s) with (iter s).
    rewrite map_app. apply NoDup_app. split_and!; [done | | apply NoDup_singleton]. set_solver.
  - cbn [custom set_custom]. rewrite map_app. apply NoDup_app. split_and!; [done | | apply NoDup_singleton].
    intros x (a&->&Ha)%list_elem_of_fmap Hx%list_elem_of_singleton.
    apply (Hu' a Ha); [|done]. intros E. apply Hid. rewrite <- E. apply list_elem_of_fmap. exists a.
    split; [done|]. unfold iter. set_solver.
Qed.

Lemma NoDup_map_filter {A} (g : AccessMethodSetting CustomProxy -> A) i l :
  NoDup (map g l) -> NoDup (map g (filter (fun m => id m <> i) l)).
Proof.
  induction l as [|a l IH]; [done|]. cbn [map]. rewrite NoDup_cons. intros [Ha H].
  rewrite filter_cons. case_decide; [|by apply IH]. cbn [map].
  apply NoDup_cons. split; [|by apply IH]. intros (b&E&[_ Hb]%list_elem_of_filter)%list_elem_of_fmap.
  apply Ha. rewrite E. apply list_elem_of_fmap. by exists b.
Qed.

Lemma remove_ok i s s' : settings_ok s -> remove i s = Ok s' -> settings_ok s'.
Proof.
  intros (He&Hi&Hn). unfold remove. destruct (list_find _ (custom s)) as [[j m]|]; [|by intros [= <-]].
  destruct (access_method m); [done|]. intros [= <-].
  assert (forall x, x ∈ filter (fun m => id m <> i) (custom s) -> x ∈ custom s) as Hsub.
  { intros x Hx. by apply list_elem_of_filter in Hx as [_ ?]. }
  apply ensure_ok; [|by apply NoDup_map_filter]. rewrite iter_set_custom, map_app.
  change (map id (iter s)) with (map id (take 4 (iter s) ++ custom s)) in Hi. rewrite map_app in Hi.
  apply NoDup_app in Hi as (H1&H2&H3). apply NoDup_app. split_and!; [done| |by apply NoDup_map_filter].
  intros x Hx (a&->&Ha)%list_elem_of_fmap. apply (H2 _ Hx), list_elem_of_fmap. exists a. auto.
Qed.

Lemma update_keeps_ok p f s s' b :
  (forall m, id (f m) = id m) -> settings_ok s -> update p f s = Ok (s', b) -> settings_ok s'.
Proof.
  intros Hf (He&Hi&Hn). unfold update. destruct (list_find _ (iter s)) as [[i m]|] eqn:E.
  - rewrite bind_result_Ok. intros ([]&Hu&[<- <-]%Ok_inj%pair_equal_spec).
    destruct (update_first_split p f (iter s) i m E) as (l1&l2&El&_&->).
    assert (4 <= length (l1 ++ f m :: l2)) as Hlen.
    { apply (f_equal length) in El. rewrite length_app in *. simpl in *. lia. }
    pose proof (proj1 (name_unique_spec (f m) s) Hu) as Hu'. change (custom s) with (drop 4 (iter s)) in Hu', Hn.
    rewrite El in Hi, Hn, Hu'. destruct (replace_ok l1 m (f m) l2 (Hf m) Hi Hn Hu') as [Hi' Hn'].
    apply ensure_ok; [by rewrite iter_of_list | by rewrite custom_of_list].
  - intros [= <- <-]. by apply ensure_ok.
Qed.

Lemma clear_custom_ok s : settings_ok s -> settings_ok (clear_custom s).
Proof.
  intros (He&Hi&Hn). apply ensure_ok; [|constructor]. rewrite iter_set_custom, app_nil_r.
  change (map id (iter s)) with (map id (take 4 (iter s) ++ custom s)) in Hi. rewrite map_app in Hi.
  by apply NoDup_app in Hi as (?&_&_).
Qed.

Lemma map_update_first {B} (g : AccessMethodSetting CustomProxy -> B) p f l :
  (forall m, g (f m) = g m) -> map g (update_first p f l) = map g l.
Proof. intros Hf. induction l as [|m l IH]; simpl; [done|]. destruct (p m); simpl; by rewrite ?Hf, ?IH. Qed.

Lemma update_first_enabled p f l :
  (forall m, enabled m = true -> enabled (f m) = true) ->
  (exists m : AccessMethodSetting CustomProxy, m ∈ l /\ enabled m = true) ->
  exists m, m ∈ update_first p f l /\ enabled m = true.
Proof.
  intros Hf. induction l as [|a l IH]; intros (m & Hm & He); [by apply not_elem_of_nil in Hm|]. simpl.
  destruct (p a).
  - apply elem_of_cons in Hm as [->|Hm]; [exists (f a) | exists m]; set_solver.
  - apply elem_of_cons in Hm as [->|Hm]; [exists a; set_solver|]. destruct IH as (m' & ? & ?); [eauto|]. exists m'. set_solver.
Qed.

Lemma update_builtin_ok p f s :
  (forall m, id (f m) = id m /\ name (f m) = name m /\ (enabled m = true -> enabled (f m) = true)) ->
  settings_ok s -> settings_ok (update_builtin p f s).1.
Proof.
  intros Hf Hs. unfold update_builtin. destruct (list_find _ _); [|done]. cbn [fst].
  assert (Hlen : 4 <= length (update_first (fun m => is_builtin m && p m) f (iter s))).
  { rewrite <- (length_map id), map_update_first, length_map by apply Hf. simpl. lia. }
  destruct Hs as (He & Hi & Hn). unfold settings_ok, some_enabled. rewrite iter_of_list, custom_of_list by done. split_and!.
  - apply update_first_enabled; [apply Hf | done].
  - by rewrite map_update_first by apply Hf.
  - rewrite <- skipn_map, map_update_first by apply Hf. done.
Qed.

(** C35. The list of access methods stays usable.  If a list has a method that is enabled, different ids and
    different names of custom methods, then so has the list after each operation that succeeds: appending a
    method whose id is new, removing one, an update that keeps ids, clearing the custom ones, and an update of
    a built-in method that keeps its id and name and does not disable it, such as the only one the program
    makes, which enables the direct method. *)
Theorem access_settings_ok s s' :
  settings_ok s ->
  (forall m, id m ∉ map id (iter s) -> append m s = Ok s' -> settings_ok s')
  /\ (forall i, remove i s = Ok s' -> settings_ok s')
  /\ (forall p f b, (forall m, id (f m) = id m) -> update p f s = Ok (s', b) -> settings_ok s')
  /\ settings_ok (clear_custom s)
  /\ (forall p f, (forall m, id (f m) = id m /\ name (f m) = name m /\ (enabled m = true -> enabled (f m) = true)) ->
        settings_ok (update_builtin p f s).1)
  /\ settings_ok (update_builtin is_direct enable s).1.
Proof.
  intros Hs. split_and!.
  - intros m. by apply append_ok.
  - intros i. by apply remove_ok.
  - intros p f b Hf. by apply update_keeps_ok.
  - by apply clear_custom_ok.
  - intros p f Hf. by apply update_builtin_ok.
  - by apply update_builtin_ok.
Qed.

(** ** Going round *)
Definition pos l (n : nat) : option (AccessMethodSetting CustomProxy) := l !! (n mod length l).

Definition window l (a n : nat) : list (AccessMethodSetting CustomProxy) := omap (pos l) (seq a n).

Lemma window_app l a n k : window l a (n + k) = window l a n ++ window l (a + n) k.
Proof. unfold window. by rewrite seq_app, omap_app. Qed.

Lemma window_ext l a b n :
  (forall j, pos l (a + j) = pos l (b + j)) -> window l a n = window l b n.
Proof.
  intros Hp. revert a b Hp. induction n as [|n IH]; intros a b Hp; [done|].
  change (S n) with (1 + n). rewrite !window_app. f_equal.
  - unfold window. simpl. specialize (Hp 0). rewrite !Nat.add_0_r in Hp. by rewrite Hp.
  - apply IH. intros j. specialize (Hp (1 + j)). by rewrite !Nat.add_assoc in Hp.
Qed.

Lemma window_one l a m : pos l a = Some m -> window l a 1 = [m].
Proof. intros Hm. unfold window. simpl. by rewrite Hm. Qed.

Lemma window_all l : window l 0 (length l) = l.
Proof.
  assert (forall k, k <= length l -> window l 0 k = take k l) as H; [|by rewrite H, firstn_all by lia].
  induction k as [|k IH]; intros Hk; [done|]. rewrite <- Nat.add_1_r, window_app, IH by lia.
  destruct (lookup_lt_is_Some_2 l k) as [m Hm]; [lia|].
  rewrite (window_one l (0 + k) m).
  - by rewrite Nat.add_1_r, (take_S_r _ _ _ Hm).
  - unfold pos. simpl. by rewrite Nat.mod_small by lia.
Qed.

Lemma pos_period l a j : l <> [] -> pos l (a + length l + j) = pos l (a + j).
Proof.
  intros Hl. unfold pos. replace (a + length l + j) with (a + j + 1 * length l) by lia.
  by rewrite Nat.Div0.mod_add.
Qed.

(** Any round is a permutation of the list. *)
Lemma window_perm l a : l <> [] -> window l a (length l) ≡ₚ l.
Proof.
  intros Hl. induction a as [|a IH]; [by rewrite window_all|]. etransitivity; [|exact IH]. clear IH.
  assert (length l = 1 + (length l - 1)) as E by (destruct l; simpl in *; [done|lia]).
  assert (window l (S a) (length l) = window l (a + 1) (length l - 1) ++ window l (a + length l) 1) as ->.
  { rewrite E at 1. rewrite Nat.add_comm, window_app. do 2 f_equal; lia. }
  assert (window l a (length l) = window l a 1 ++ window l (a + 1) (length l - 1)) as ->.
  { rewrite E at 1. by rewrite window_app. }
  rewrite (window_ext l (a + length l) a 1) by (intros j; by apply pos_period).
  apply Permutation_app_comm.
Qed.

Definition disabled (m : AccessMethodSetting CustomProxy) : Prop := enabled m = false.

Lemma find_from_spec l fuel start :
  l <> [] ->
  match find_from l fuel start with
  | Some (i, m) =>
      exists k, k < fuel /\ i = (start + k) mod length l /\ pos l (start + k) = Some m /\ enabled m = true
                /\ Forall disabled (window l start k)
  | None => Forall disabled (window l start fuel)
  end.
Proof.
  intros Hl. revert start. induction fuel as [|fuel IH]; intros start; cbn [find_from]; [constructor|].
  destruct (l !! (start mod length l)) as [m|] eqn:E.
  - destruct (enabled m) eqn:Em.
    + exists 0. rewrite Nat.add_0_r. split_and!; [lia | done | done | done | constructor].
    + assert (window l start 1 = [m]) as Hw by (by apply window_one).
      specialize (IH (S start)). destruct (find_from l fuel (S start)) as [[i m']|].
      * destruct IH as (k&Hk&Hi&Hp&Hen&Hd). exists (S k). rewrite !Nat.add_succ_r. split_and!; try done; [lia|].
        change (S k) with (1 + k). rewrite window_app, Hw, Nat.add_1_r. by constructor.
      * change (S fuel) with (1 + fuel). rewrite window_app, Hw, Nat.add_1_r. by constructor.
  - apply lookup_ge_None in E. pose proof (Nat.mod_upper_bound start (length l)).
    destruct l; simpl in *; [done | lia].
Qed.

Lemma enabled_filter l : Forall disabled l -> List.filter enabled l = [].
Proof. intros Hl. apply filter_nil_iff. intros a Ha. rewrite Forall_forall in Hl. by apply Hl. Qed.

Lemma enabled_perm l k : l ≡ₚ k -> List.filter enabled l ≡ₚ List.filter enabled k.
Proof.
  induction 1 as [|x l k Hp IH|x y l|l k j H1 IH1 H2 IH2]; simpl; [done| | |by etransitivity].
  - destruct (enabled x); [by constructor | done].
  - destruct (enabled x), (enabled y); try done. constructor.
Qed.

Section selector.
Context {Endpoint ConnectionMode Resolver : Type}.
Context (resolve_access_method_setting :
  AccessMethod CustomProxy -> Resolver -> option (Endpoint * ConnectionMode) * Resolver).
Context (default_connection_mode : Resolver -> Endpoint) (mode_direct : ConnectionMode).

Abbreviation next := (next_connection_mode resolve_access_method_setting default_connection_mode mode_direct).
Abbreviation selector :=
  (@AccessModeSelector CustomProxy Endpoint ConnectionMode Resolver).

(** [n] rotations: the methods that become current. *)
Fixpoint rotate (n : nat) (s : selector) : list (AccessMethodSetting CustomProxy) * selector :=
  match n with
  | 0 => ([], s)
  | S n => let s := (next s).1 in let '(ms, s') := rotate n s in (setting (current s) :: ms, s')
  end.

(** The next method, with where it is. *)
Lemma next_spec (s : selector) :
  some_enabled (access_method_settings s) ->
  let l := iter (access_method_settings s) in
  exists k m, k < length l /\ pos l (index s + 1 + k) = Some m /\ enabled m = true
    /\ Forall disabled (window l (index s + 1) k)
    /\ setting (current (next s).1) = m /\ index (next s).1 = (index s + 1 + k) mod length l
    /\ access_method_settings (next s).1 = access_method_settings s.
Proof.
  intros (e&He&Hen) l. unfold next_connection_mode, find_next_active, cardinality. fold l.
  pose proof (find_from_spec l (length l) (index s + 1)) as Hf.
  destruct (find_from l (length l) (index s + 1)) as [[i m]|].
  - destruct Hf as (k&Hk&->&Hp&Hm&Hd); [done|]. exists k, m. cbn [default].
    unfold set_current, resolve_with_default. simpl.
    destruct (resolve_access_method_setting _ _) as [[[? ?]|] ?]; by split_and!.
  - specialize (Hf ltac:(done)). exfalso.
    rewrite Forall_forall in Hf. assert (e ∈ window l (index s + 1) (length l)) as Hin.
    { by rewrite (window_perm l). }
    apply Hf in Hin. unfold disabled in Hin. congruence.
Qed.

Lemma rotate_window n (s : selector) :
  some_enabled (access_method_settings s) ->
  let l := iter (access_method_settings s) in
  n <= length (List.filter enabled l) ->
  (rotate n s).1 = take n (List.filter enabled (window l (index s + 1) (length l)))
  /\ access_method_settings (rotate n s).2 = access_method_settings s.
Proof.
  revert s. induction n as [|n IH]; intros s Hen l Hn; [done|]. cbn [rotate].
  destruct (next_spec s Hen) as (k&m&Hk&Hp&Hm&Hd&Hcur&Hidx&Hset).
  destruct (next s) as [s1 ev]. cbn [fst] in *. fold l in Hk, Hp, Hd, Hidx.
  specialize (IH s1). rewrite Hset in IH. specialize (IH Hen). fold l in IH.
  specialize (IH ltac:(lia)) as [IHr IHs]. destruct (rotate n s1) as [ms s2]. cbn [fst snd] in *.
  split; [|done]. rewrite Hcur, IHr, Hidx.
  set (a := index s + 1) in *. set (r := length l - k - 1).
  assert (length l = k + (1 + r)) as Hlen by lia.
  assert (window l a (length l) = window l a k ++ [m] ++ window l (a + k + 1) r) as Ewin.
  { rewrite Hlen at 1. rewrite !window_app. by rewrite (window_one l (a + k) m). }
  assert (window l ((a + k) mod length l + 1) (length l) = window l (a + k + 1) r ++ window l a k ++ [m]) as ->.
  { rewrite (window_ext l _ (a + k + 1)).
    - rewrite Hlen at 1. replace (k + (1 + r)) with (r + (k + 1)) by lia. rewrite !window_app.
      rewrite (window_ext l (a + k + 1 + r) a k), (window_ext l (a + k + 1 + r + k) (a + k) 1).
      + by rewrite (window_one l (a + k) m).
      + intros j. replace (a + k + 1 + r + k) with (a + k + length l) by lia. by apply pos_period.
      + intros j. replace (a + k + 1 + r) with (a + length l) by lia. by apply pos_period.
    - intros j. unfold pos. rewrite <- !Nat.add_assoc, Nat.Div0.add_mod_idemp_l. f_equal. f_equal. lia. }
  assert (List.filter enabled (window l a (length l)) = m :: List.filter enabled (window l (a + k + 1) r)) as Ef.
  { rewrite Ewin, !List.filter_app, (enabled_filter (window l a k)) by done. cbn [List.filter app]. by rewrite Hm. }
  rewrite Ef. cbn [take]. f_equal. rewrite List.filter_app, take_app_le; [done|].
  assert (length (List.filter enabled (window l a (length l))) = length (List.filter enabled l)) as Elen.
  { apply Permutation_length, enabled_perm, window_perm. done. }
  rewrite Ef in Elen. rewrite length_cons in Elen. lia.
Qed.

(** Rotation is fair.  From wherever the selector stands, as many rotations as there are enabled methods
    make each enabled method current exactly once, and none that is disabled. *)
Theorem rotation_fair (s : selector) :
  some_enabled (access_method_settings s) ->
  let methods := List.filter enabled (iter (access_method_settings s)) in
  (rotate (length methods) s).1 ≡ₚ methods.
Proof.
  intros Hen methods. destruct (rotate_window (length methods) s Hen ltac:(done)) as [-> _]. unfold methods.
  set (l := iter (access_method_settings s)) in *.
  assert (window l (index s + 1) (length l) ≡ₚ l) as Hp by (by apply window_perm).
  rewrite firstn_all2; [by apply enabled_perm|].
  by rewrite (Permutation_length (enabled_perm _ _ Hp)).
Qed.

Lemma set_current_setting m (s : selector) :
  let s' := (set_current resolve_access_method_setting default_connection_mode mode_direct m s).1 in
  setting (current s') = m /\ access_method_settings s' = access_method_settings s /\ index s' = index s.
Proof.
  unfold set_current, resolve_with_default. simpl.
  by destruct (resolve_access_method_setting _ _) as [[[? ?]|] ?].
Qed.

(** What the selector knows of the current method: it is one of the settings, at the index. *)
Definition in_place (s : selector) : Prop :=
  iter (access_method_settings s) !! index s = Some (setting (current s)).

Lemma next_in_place (s : selector) :
  some_enabled (access_method_settings s) ->
  in_place (next s).1 /\ enabled (setting (current (next s).1)) = true
  /\ access_method_settings (next s).1 = access_method_settings s.
Proof.
  intros Hen. destruct (next_spec s Hen) as (k&m&Hk&Hp&Hm&_&Hcur&Hidx&Hset).
  unfold in_place. rewrite Hset, Hcur, Hidx. by split_and!.
Qed.

Abbreviation process := (process resolve_access_method_setting default_connection_mode mode_direct).

Lemma process_in_place msg (s : selector) :
  some_enabled (access_method_settings s) -> in_place s ->
  (forall new, msg = Update new -> some_enabled new) ->
  in_place (process msg s).1 /\ some_enabled (access_method_settings (process msg s).1)
  /\ (forall new, msg = Update new ->
        access_method_settings (process msg s).1 = new
        /\ (enabled (setting (current (process msg s).1)) = true
            \/ setting (current (process msg s).1) = setting (current s))).
Proof.
  intros Hen Hin Hnew. destruct msg as [|i| |new|m]; cbn [AccessMethods.process].
  - by split_and!.
  - unfold use_access_method. destruct (list_find _ _) as [[j m]|] eqn:E; [|by split_and!].
    apply list_find_Some in E as (Hj&_&_).
    pose proof (set_current_setting m (set_index j s)) as (H1&H2&H3). unfold in_place. rewrite H1, H2, H3.
    by split_and!.
  - destruct (next_in_place s Hen) as (H1&H2&H3). rewrite H3. by split_and!.
  - specialize (Hnew new eq_refl). unfold update_access_methods. cbn [current].
    destruct (list_find _ (iter new)) as [[j m]|] eqn:E.
    + apply list_find_Some in E as (Hj&Hid&_). cbn [current set_index]. case_decide as Heq.
      * simpl. unfold in_place. simpl. rewrite <- Heq in Hj. split_and!; [done | done|].
        intros ? [= <-]. split; [done | by right].
      * set (s1 := set_index j _). destruct (enabled m) eqn:Em.
        -- pose proof (set_current_setting m s1) as (H1&H2&H3). unfold in_place. rewrite H1, H2, H3.
           split_and!; [done | done|]. intros ? [= <-]. split; [done | by left].
        -- destruct (next_in_place s1 Hnew) as (H1&H2&H3). rewrite H3. split_and!; [done | done|].
           intros ? [= <-]. split; [done | by left].
    + set (s1 := set_index _ _). destruct (next_in_place s1 Hnew) as (H1&H2&H3). rewrite H3.
      split_and!; [done | done|]. intros ? [= <-]. split; [done | by left].
  - unfold resolve. destruct (resolve_access_method_setting _ _). by split_and!.
Qed.

(** The selector after a sequence of commands. *)
Fixpoint process_all (msgs : list Message) (s : selector) : selector :=
  match msgs with [] => s | m :: msgs => process_all msgs (process m s).1 end.

(** The selector follows the settings.  As long as every list of methods it is given has one that is
    enabled, the current method is always one of the latest list, with the details it has there, however
    lists are changed, reordered and shortened; and when a list is given, the method that is current
    afterwards is enabled, unless it is the one that was current, unchanged. *)
Theorem selector_follows_settings settings r msgs :
  some_enabled settings -> (forall new, Update new ∈ msgs -> some_enabled new) ->
  let s := process_all msgs (spawn resolve_access_method_setting default_connection_mode mode_direct settings r) in
  in_place s
  /\ forall new, some_enabled new ->
       let s' := (process (Update new) s).1 in
       setting (current s') ∈ iter new
       /\ (enabled (setting (current s')) = true \/ setting (current s') = setting (current s)).
Proof.
  intros Hen Hmsgs.
  assert (forall msgs (s : selector), some_enabled (access_method_settings s) -> in_place s ->
            (forall new, Update new ∈ msgs -> some_enabled new) ->
            in_place (process_all msgs s) /\ some_enabled (access_method_settings (process_all msgs s))) as Hall.
  { clear. induction msgs as [|m msgs IH]; intros s Hen Hin Hm; [done|]. cbn [process_all].
    destruct (process_in_place m s Hen Hin) as (H1&H2&_).
    - intros new ->. apply Hm. left.
    - apply IH; [done | done|]. intros new Hn. apply Hm. by right. }
  set (s0 := spawn _ _ _ settings r).
  assert (in_place s0 /\ access_method_settings s0 = settings) as [Hin0 Hs0].
  { unfold s0, spawn, find_next_active, cardinality. set (l := iter settings).
    pose proof (find_from_spec l (length l) 0) as Hf. destruct (find_from l (length l) 0) as [[i m]|].
    - destruct Hf as (k&Hk&->&Hp&_); [done|]. unfold resolve_with_default, in_place. simpl default. cbv iota beta.
      by destruct (resolve_access_method_setting (access_method m) r) as [[[? ?]|] ?].
    - specialize (Hf ltac:(done)). rewrite window_all, Forall_forall in Hf. destruct Hen as (e&He&Hen).
      apply Hf in He. unfold disabled in He. congruence. }
  destruct (Hall msgs s0) as [Hin Hen']; [by rewrite Hs0 | done | done|].
  cbv zeta. split; [done|]. intros new Hnew.
  destruct (process_in_place (Update new) _ Hen' Hin) as (H1&_&H3); [by intros ? [= <-]|].
  destruct (H3 new eq_refl) as [Hset Hor]. split; [|done].
  unfold in_place in H1. rewrite Hset in H1. by eapply list_elem_of_lookup_2.
Qed.
End selector.
End props.

(** ** An example *)
Definition method (i : nat) (e : bool) (m : AccessMethod nat) : AccessMethodSetting nat :=
  {| id := i; name := String.String (Ascii.ascii_of_nat (65 + i)) String.EmptyString; enabled := e;
     access_method := m |}.

Definition methods_example : Settings nat :=
  {| direct := method 0 true (BuiltIn DirectMethod); mullvad_bridges := method 1 false (BuiltIn Bridge);
     encrypted_dns_proxy := method 2 true (BuiltIn EncryptedDnsProxy);
     domain_fronting := method 3 false (BuiltIn DomainFronting); custom := [method 4 true (Custom 7)] |}.

Definition selector_example : @AccessModeSelector nat unit unit unit :=
  spawn (fun _ r => (None, r)) (fun _ => ()) () methods_example ().

Lemma methods_example_ok : settings_ok methods_example.
Proof.
  split_and!; [by exists (direct methods_example); split; [left|] | |]; apply (bool_decide_unpack _); by vm_compute.
Qed.

Lemma access_settings_ok_witness :
  settings_ok (clear_custom methods_example) /\ settings_ok (update_builtin is_direct enable methods_example).1.
Proof.
  destruct (access_settings_ok methods_example methods_example methods_example_ok) as (_ & _ & _ & Hc & _ & Hb).
  split; [exact Hc | exact Hb].
Defined.

(** An update of a built-in method can leave no method enabled: unlike the other operations it does not turn the
    direct method on again. *)
Definition disable (m : AccessMethodSetting nat) : AccessMethodSetting nat :=
  {| id := id m; name := name m; enabled := false; access_method := access_method m |}.
Theorem update_builtin_unchecked :
  let s := ensure_consistent_state (of_list (map disable (iter methods_example)) methods_example) in
  some_enabled s /\ forallb (fun m => negb (enabled m)) (iter (update_builtin is_direct disable s).1) = true.
Proof. split; [apply ensure_enabled | by vm_compute]. Qed.

Lemma rotation_fair_witness :
  (rotate (fun _ r => (None, r)) (fun _ => ()) () 3 selector_example).1
  ≡ₚ [method 0 true (BuiltIn DirectMethod); method 2 true (BuiltIn EncryptedDnsProxy); method 4 true (Custom 7)].
Proof.
  apply (rotation_fair (fun _ r => (None, r)) (fun _ => ()) () selector_example).
  exact (proj1 methods_example_ok).
Defined.

(** The current custom method is removed: the selector goes on to the next. *)
Lemma selector_follows_settings_witness :
  let s := process_all (fun _ r => (None, r)) (fun _ => ()) () [Use 4; Update (clear_custom methods_example)]
             selector_example in
  in_place s /\ setting (current s) = method 0 true (BuiltIn DirectMethod).
Proof.
  split; [|reflexivity].
  apply (selector_follows_settings (fun _ r => (None, r)) (fun _ => ()) () methods_example ()
           [Use 4; Update (clear_custom methods_example)]).
  - exact (proj1 methods_example_ok).
  - intros new [H|[H|H%elem_of_nil]%elem_of_cons]%elem_of_cons; [done | | done].
    injection H as ->. by exists (direct methods_example); split; [left|].
Defined.
