(* ===== verification/TargetState.v ===== *)
(** * The target state across restarts

    [src/mullvad-daemon/src/target_state.rs]: the daemon writes down whether it is to secure the device, so
    that it does so again when it is restarted after a crash.

    The file is what reading it would give.  Writing truncates it first: a write that fails, or within which
    the process ends, can leave a part of it that does not parse. *)

From stdpp Require Import base list strings option numbers sets.
From S2P Require Import Prelude.

Inductive TargetState : Type := Unsecured | Secured.
#[global] Instance TargetState_eq_dec : EqDecision TargetState.
Proof. solve_decision. Defined.

Definition DEFAULT_TARGET_STATE : TargetState := Unsecured.

(** [Content None]: the file does not parse; [Unreadable]: reading fails otherwise than with [NotFound]. *)
Inductive CacheFile : Type := NotFound | Unreadable | Content (s : option TargetState).

Record TargetStateInner : Type := { inner_state : TargetState; update_cache : bool }.

Definition read_target_state (f : CacheFile) : TargetStateInner :=
  match f with
  | Content (Some state) => {| inner_state := state; update_cache := false |}
  | Content None => {| inner_state := Secured; update_cache := true |}
  | NotFound => {| inner_state := DEFAULT_TARGET_STATE; update_cache := false |}
  | Unreadable => {| inner_state := Secured; update_cache := true |}
  end.

Record PersistentTargetState : Type := { state : TargetState; locked : bool }.

(** How a write ends: it succeeds, it fails and leaves something, or the process ends within it. *)
Inductive WriteOutcome : Type := Written | WriteFailed (remains : CacheFile) | Interrupted (remains : CacheFile).

(** [save]: the file after it, and whether the process is still running. *)
Definition save (w : WriteOutcome) (p : PersistentTargetState) (f : CacheFile) : CacheFile * bool :=
  match w with
  | Written => (Content (Some (state p)), true)
  | WriteFailed remains => (remains, true)
  | Interrupted remains => (remains, false)
  end.

(** The operations: the instance if the process is still running, and the file. *)
Definition new (w : WriteOutcome) (f : CacheFile) : option PersistentTargetState * CacheFile :=
  let inner := read_target_state f in
  let p := {| state := inner_state inner; locked := false |} in
  if update_cache inner then
    let '(f, alive) := save w p f in ((if alive : bool then Some p else None), f)
  else (Some p, f).

Definition new_secured (w : WriteOutcome) (f : CacheFile) : option PersistentTargetState * CacheFile :=
  let p := {| state := Secured; locked := false |} in
  let '(f, alive) := save w p f in ((if alive : bool then Some p else None), f).

Definition set (w : WriteOutcome) (new_state : TargetState) (p : PersistentTargetState) (f : CacheFile)
  : option PersistentTargetState * CacheFile :=
  if decide (new_state <> state p) then
    let p := {| state := new_state; locked := locked p |} in
    let '(f, alive) := save w p f in ((if alive : bool then Some p else None), f)
  else (Some p, f).

Definition lock (p : PersistentTargetState) : PersistentTargetState := {| state := state p; locked := true |}.

(** [finalize], and [drop] where that was not called: [removed] is whether the file could be removed. *)
Definition target_finalize (removed : bool) (p : PersistentTargetState) (f : CacheFile) : CacheFile :=
  if locked p then f else if removed then NotFound else f.

(** ** The life of the file *)
Inductive Event : Type :=
| Start (w : WriteOutcome)
| StartSecured (w : WriteOutcome)
| Set_ (w : WriteOutcome) (s : TargetState)
| Lock
| Finalize (removed : bool)
| Crash.

(** The running instance, if there is one, and the file. *)
Definition step (e : Event) (x : option PersistentTargetState * CacheFile)
  : option PersistentTargetState * CacheFile :=
  match e, x with
  | Start w, (None, f) => new w f
  | StartSecured w, (None, f) => new_secured w f
  | Set_ w s, (Some p, f) => set w s p f
  | Lock, (Some p, f) => (Some (lock p), f)
  | Finalize removed, (Some p, f) => (None, target_finalize removed p f)
  | Crash, (_, f) => (None, f)
  | _, x => x
  end.

(** ** What is proved *)
(** A write that fails or is interrupted leaves what was there, what was to be written, or a part of it: the file is
    truncated and then written. *)
Definition plausible (f : CacheFile) (w : WriteOutcome) (s : TargetState) : Prop :=
  match w with
  | Written => True
  | WriteFailed remains | Interrupted remains => remains = f \/ remains = Content None \/ remains = Content (Some s)
  end.

Definition writes_plausible (e : Event) (x : option PersistentTargetState * CacheFile) : Prop :=
  match e with
  | Start w => plausible x.2 w (inner_state (read_target_state x.2))
  | StartSecured w => plausible x.2 w Secured
  | Set_ w s => plausible x.2 w s
  | _ => True
  end.

(** What a restart would do. *)
Definition restart (f : CacheFile) : TargetState := inner_state (read_target_state f).

(** Whether the target state was saved when it was last changed: an error of the write is only logged, and setting the
    state once more does not write. *)
Definition is_written (w : WriteOutcome) : bool := match w with Written => true | _ => false end.
Definition saved_by (e : Event) (x : option PersistentTargetState * CacheFile) (saved : bool) : bool :=
  match e, x with
  | Start _, (None, _) => true
  | StartSecured w, (None, _) => is_written w
  | Set_ w s, (Some p, _) => if decide (s <> state p) then is_written w else saved
  | _, _ => saved
  end.

(** The file says what the running daemon is to do. *)
Definition faithful (x : option PersistentTargetState * CacheFile) : Prop :=
  match x with (Some p, f) => restart f = state p | (None, _) => True end.

Lemma plausible_restart f w s alive f' p :
  plausible f w s -> state p = s -> save w p f = (f', alive) -> restart f' ∈ [restart f; s; Secured].
Proof.
  intros Hw Hs. unfold save. destruct w as [|r|r]; intros [= <- _]; [|destruct Hw as [->|[->| ->]]..]; rewrite ?Hs; cbn; set_solver.
Qed.

Lemma step_faithful e x saved :
  (saved = true -> faithful x) -> writes_plausible e x -> saved_by e x saved = true -> faithful (step e x).
Proof.
  destruct x as [[p|] f]; destruct e as [w|w|w s| |removed|]; simpl; try done; intros Hx Hw.
  - unfold set. case_decide; [|done]. by destruct w.
  - unfold new. destruct f as [| |[s|]]; simpl; try done; (destruct w as [|r|r]; [done| |done]); by destruct Hw as [->|[->| ->]].
  - unfold new_secured. by destruct w.
Qed.

(** The runs of the daemon and its restarts, with whether the target state is saved. *)
Inductive reached (f0 : CacheFile) : list Event -> option PersistentTargetState * CacheFile -> bool -> Prop :=
| reached_nil : reached f0 [] (None, f0) true
| reached_snoc es x saved e :
    reached f0 es x saved -> writes_plausible e x -> reached f0 (es ++ [e]) (step e x) (saved_by e x saved).

Lemma reached_faithful f0 es x saved : reached f0 es x saved -> saved = true -> faithful x.
Proof. induction 1; [done | by eapply step_faithful]. Qed.

(** C25. The device stays secured across crashes.  At every moment of every run of the daemon and its restarts,
    crashes, failed writes and interrupted ones included: if the write of the last change of the target state
    succeeded, a crash is followed by a restart with that state.  In any case the daemon that is started next
    has the state the file says; a change, also one whose write fails or is interrupted, leaves a file that
    says what it said before, the new state, or secured; a locked shutdown leaves what the file says, and only
    a shutdown that is not locked and removes the file makes the daemon forget it.  No file counts as
    unsecured, one that cannot be read or parsed as secured. *)
Theorem target_state_survives f0 es x saved p f :
  reached f0 es x saved -> x = (Some p, f) ->
  (saved = true -> restart (step Crash x).2 = state p)
  /\ (forall w q f', step (Start w) (step Crash x) = (Some q, f') -> state q = restart f)
  /\ (forall w s, plausible f w s -> restart (step (Set_ w s) x).2 ∈ [restart f; s; Secured])
  /\ (forall removed, restart (step (Finalize removed) (step Lock x)).2 = restart f)
  /\ (forall removed,
        restart (step (Finalize removed) x).2 = if locked p then restart f else if removed : bool then Unsecured else restart f)
  /\ restart NotFound = Unsecured /\ restart Unreadable = Secured /\ restart (Content None) = Secured
  /\ (forall s, restart (Content (Some s)) = s).
Proof.
  intros Hx ->. pose proof (reached_faithful _ _ _ _ Hx) as Hf. split_and!; try done.
  - intros w q f' E. simpl in E. unfold new, restart in *. destruct (update_cache _); [|by injection E as <- _].
    destruct (save _ _ _) as [f1 []]; [by injection E as <- _|done].
  - intros w s Hw. simpl. unfold set. case_decide; [|set_solver].
    destruct (save w _ f) as [f' alive] eqn:E. apply (plausible_restart _ _ s) in E; [|done..]. by destruct alive.
  - intros removed. simpl. unfold target_finalize. by destruct (locked p), removed.
Qed.

(** A restart after a write that failed and left an empty file, and after one that succeeded. *)
Lemma target_state_survives_witness :
  restart (step Crash (step (Set_ Written Secured) (step (Start Written) (None, NotFound)))).2 = Secured
  /\ restart (step (Set_ (WriteFailed (Content None)) Unsecured) (step (Set_ Written Secured) (step (Start Written) (None, NotFound)))).2
     ∈ [Secured; Unsecured; Secured].
Proof.
  pose proof (reached_snoc _ _ _ _ (Set_ Written Secured) (reached_snoc _ _ _ _ (Start Written) (reached_nil NotFound) I) I) as Hr.
  destruct (target_state_survives _ _ _ _ _ _ Hr eq_refl) as (Hcrash & _ & Hset & _).
  split; [exact (Hcrash eq_refl)|]. apply (Hset (WriteFailed (Content None)) Unsecured). right. left. reflexivity.
Defined.

(** The write of a change fails and leaves the file: the device is to be secured, and a crash is followed by a restart
    in which it is not; setting the state again does not write. *)
Theorem failed_write_forgotten :
  let x := step (Set_ Written Secured) (step (Set_ (WriteFailed NotFound) Secured) (step (Start Written) (None, NotFound))) in
  option_map state x.1 = Some Secured /\ restart (step Crash x).2 = Unsecured.
Proof. split; reflexivity. Qed.
