(* ===== verification/Availability.v ===== *)
(** * When API requests may be made

    [src/mullvad-api/src/availability.rs]: flags that pause requests, and futures that wait for them.

    The flags are changed under a lock and every change is broadcast.  A future that waits subscribes when
    it is created and looks at the flags when it is first polled; changes and polls interleave as the
    sequence of steps says.  A receiver keeps the last [capacity] messages and, when it has missed some,
    fails first, as the broadcast channel of [tokio] does. *)

From stdpp Require Import base list strings option numbers sets.
From S2P Require Import Prelude.

Record State : Type := { suspended : bool; pause_background : bool; offline : bool; inactive : bool }.
#[global] Instance State_eq_dec : EqDecision State.
Proof. solve_decision. Defined.

Definition State_default : State :=
  {| suspended := false; pause_background := false; offline := false; inactive := false |}.

Definition is_background_paused (s : State) : bool := offline s || pause_background s || suspended s || inactive s.

(** [inactivity_timer]: whether the timer's task exists. *)
Record ApiAvailabilityState : Type := { state : State; inactivity_timer : bool }.

Definition set_state (s : State) (a : ApiAvailabilityState) : ApiAvailabilityState * list State :=
  ({| state := s; inactivity_timer := inactivity_timer a |}, [s]).

Definition set_timer (t : bool) (a : ApiAvailabilityState) : ApiAvailabilityState :=
  {| state := state a; inactivity_timer := t |}.

(** The changes of [ApiAvailabilityState]: the new state, and what is broadcast. *)
Definition set_suspended (b : bool) (a : ApiAvailabilityState) : ApiAvailabilityState * list State :=
  let s := state a in
  if Bool.eqb (suspended s) b then (a, [])
  else set_state {| suspended := b; pause_background := pause_background s; offline := offline s;
                    inactive := inactive s |} a.

Definition set_inactive (b : bool) (a : ApiAvailabilityState) : ApiAvailabilityState * list State :=
  let s := state a in
  if Bool.eqb (inactive s) b then (a, [])
  else set_state {| suspended := suspended s; pause_background := pause_background s; offline := offline s;
                    inactive := b |} a.

Definition set_offline (b : bool) (a : ApiAvailabilityState) : ApiAvailabilityState * list State :=
  let s := state a in
  if Bool.eqb (offline s) b then (a, [])
  else set_state {| suspended := suspended s; pause_background := pause_background s; offline := b;
                    inactive := inactive s |} a.

Definition set_pause_background (b : bool) (a : ApiAvailabilityState) : ApiAvailabilityState * list State :=
  let s := state a in
  if Bool.eqb (pause_background s) b then (a, [])
  else set_state {| suspended := suspended s; pause_background := b; offline := offline s;
                    inactive := inactive s |} a.

Definition reset_inactivity_timer (a : ApiAvailabilityState) : ApiAvailabilityState * list State :=
  set_inactive false (set_timer true a).

Definition stop_inactivity_timer (a : ApiAvailabilityState) : ApiAvailabilityState := set_timer false a.

Definition resume_background (a : ApiAvailabilityState) : ApiAvailabilityState * list State :=
  let '(a, sent) := set_pause_background false a in
  if inactivity_timer a then let '(a, sent') := reset_inactivity_timer a in (a, sent ++ sent') else (a, sent).

Definition ApiAvailability_new (initial : State) : ApiAvailabilityState :=
  (reset_inactivity_timer {| state := initial; inactivity_timer := false |}).1.

Inductive Op : Type :=
| Suspend | Unsuspend | PauseBackground | ResumeBackground | SetOffline (b : bool)
| ResetTimer | StopTimer | TimerFires.

Definition apply (o : Op) (a : ApiAvailabilityState) : ApiAvailabilityState * list State :=
  match o with
  | Suspend => set_suspended true a
  | Unsuspend => set_suspended false a
  | PauseBackground => set_pause_background true a
  | ResumeBackground => resume_background a
  | SetOffline b => set_offline b a
  | ResetTimer => reset_inactivity_timer a
  | StopTimer => (stop_inactivity_timer a, [])
  | TimerFires => if inactivity_timer a then set_inactive true a else (a, [])
  end.

(** ** Waiting *)
Section wait.
Context (capacity : nat) (ready : State -> bool).

(** A receiver: the messages it has not read, and whether it missed some. *)
Record Receiver : Type := { queue : list State; lagged : bool }.

Definition receive (r : Receiver) (s : State) : Receiver :=
  let q := queue r ++ [s] in
  if capacity <? length q then {| queue := drop 1 q; lagged := true |} else {| queue := q; lagged := lagged r |}.

(** The future of [wait_for_state]: not polled yet, waiting, or done, with [Ok] or with [Err]. *)
Inductive Wait : Type :=
| Created (r : Receiver)
| Waiting (r : Receiver)
| Resolved (ok : bool).

Definition wait_for_state : Wait := Created {| queue := []; lagged := false |}.

(** [current] is the state at the time of the poll.  One message is taken at a time. *)
Definition poll (current : State) (w : Wait) : Wait :=
  match w with
  | Created r => if ready current then Resolved true else Waiting r
  | Waiting r =>
      if lagged r then Resolved false
      else match queue r with
           | [] => Waiting r
           | s :: q => if ready s then Resolved true else Waiting {| queue := q; lagged := false |}
           end
  | Resolved ok => Resolved ok
  end.

Definition hear (w : Wait) (s : State) : Wait :=
  match w with
  | Created r => Created (receive r s)
  | Waiting r => Waiting (receive r s)
  | Resolved ok => Resolved ok
  end.

Inductive WaitStep : Type := Change (o : Op) | PollIt.

Definition wait_step (x : WaitStep) (c : ApiAvailabilityState * Wait) : ApiAvailabilityState * Wait :=
  let '(a, w) := c in
  match x with
  | Change o => let '(a, sent) := apply o a in (a, foldl hear w sent)
  | PollIt => (a, poll (state a) w)
  end.

Definition wait_run (xs : list WaitStep) (c : ApiAvailabilityState * Wait) : ApiAvailabilityState * Wait :=
  foldl (fun c x => wait_step x c) c xs.

(** The states since the future was created, the one at its creation included. *)
Fixpoint states (xs : list WaitStep) (a : ApiAvailabilityState) : list State :=
  state a :: match xs with
             | [] => []
             | Change o :: xs => (apply o a).2 ++ states xs (apply o a).1
             | PollIt :: xs => states xs a
             end.

(** ** What is proved *)
(** A change that broadcasts nothing changes nothing, and the last broadcast is the new state. *)
Lemma apply_broadcasts o a : last (state a :: (apply o a).2) = Some (state (apply o a).1).
Proof.
  destruct o; simpl; unfold set_suspended, resume_background, reset_inactivity_timer, set_pause_background,
    set_inactive, set_offline, set_timer; simpl; repeat (destruct_match; simplify_eq/=); done.
Qed.

(** What a receiver still holds ends with the current state. *)
Definition up_to_date (c : ApiAvailabilityState * Wait) : Prop :=
  match c.2 with
  | Created r => queue r = [] \/ last (queue r) = Some (state c.1)
  | Waiting r =>
      lagged r = true
      \/ last (queue r) = Some (state c.1) \/ (queue r = [] /\ ready (state c.1) = false)
  | Resolved _ => True
  end.

Lemma receive_last r s : 1 <= capacity -> last (queue (receive r s)) = Some s.
Proof.
  intros Hc. unfold receive. destruct (Nat.ltb_spec capacity (length (queue r ++ [s]))); simpl; [|apply last_snoc].
  rewrite length_app in *. simpl in *. destruct (queue r) as [|q l]; simpl in *; [lia|]. apply last_snoc.
Qed.

Lemma receive_lagged r s : lagged r = true -> lagged (receive r s) = true.
Proof. intros Hr. unfold receive. by destruct (_ <? _). Qed.

Lemma hear_all_last w sent s :
  1 <= capacity -> last sent = Some s ->
  match foldl hear w sent with
  | Created r | Waiting r => last (queue r) = Some s
  | Resolved _ => True
  end.
Proof.
  intros Hc Hs. destruct sent as [|a l] using rev_ind; [done|]. rewrite last_snoc in Hs. injection Hs as ->.
  rewrite foldl_app. simpl. destruct (foldl hear w l); simpl; [by apply receive_last..|done].
Qed.

Lemma wait_step_up_to_date x c : 1 <= capacity -> up_to_date c -> up_to_date (wait_step x c).
Proof.
  intros Hc Hu. destruct c as [a w], x as [o|]; simpl.
  - destruct (apply o a) as [a' sent] eqn:E. pose proof (apply_broadcasts o a) as Hb. rewrite E in Hb. simpl in Hb.
    destruct sent as [|s l]; [injection Hb as Hb; unfold up_to_date in *; simpl in *; by rewrite <- Hb|].
    rewrite last_cons_cons in Hb. pose proof (hear_all_last w (s :: l) _ Hc Hb) as Hl.
    unfold up_to_date. cbn [snd fst]. destruct (foldl hear w (s :: l)); auto.
  - unfold up_to_date in *. simpl in *. destruct w as [r|r|ok]; simpl; [| |done].
    + destruct (ready (state a)) eqn:Er; [done|]. destruct Hu as [Hq|Hl]; auto.
    + destruct (lagged r) eqn:El; [done|]. destruct Hu as [?|Hu]; [done|].
      destruct (queue r) as [|s q] eqn:Eq; [by rewrite Eq; auto|].
      destruct (ready s) eqn:Er; [done|]. destruct Hu as [Hl|[? _]]; [|done].
      destruct q as [|s' q]; [injection Hl as <-; auto | auto].
Qed.

(** What a waiting future knows comes from the states there have been. *)
Definition informed (P : State -> Prop) (w : Wait) : Prop :=
  match w with
  | Created r | Waiting r => Forall P (queue r)
  | Resolved true => exists s, P s /\ ready s = true
  | Resolved false => True
  end.

Lemma hear_informed P w sent : informed P w -> Forall P sent -> informed P (foldl hear w sent).
Proof.
  intros Hw Hs. revert w Hw. induction Hs as [|s l Hs Hl IH]; intros w Hw; [done|]. simpl. apply IH.
  assert (forall r, Forall P (queue r) -> Forall P (queue (receive r s))) as Hr.
  { intros r Hq. unfold receive. destruct (_ <? _); simpl; [apply Forall_drop|]; apply Forall_app; auto. }
  destruct w as [r|r|[]]; simpl in *; auto.
Qed.

Lemma wait_run_informed P xs a w :
  informed P w -> Forall P (states xs a) -> informed P (wait_run xs (a, w)).2.
Proof.
  revert a w. induction xs as [|x xs IH]; intros a w Hw Hs; [done|]. cbn [wait_run foldl].
  destruct x as [o|]; cbn [states wait_step] in *; apply Forall_cons in Hs as [Ha Hs].
  - destruct (apply o a) as [a' sent]. apply Forall_app in Hs as [H1 H2]. apply IH; [by apply hear_informed | done].
  - apply IH; [|done]. destruct w as [r|r|ok]; simpl in *; [| |done].
    + destruct (ready (state a)) eqn:E; [by exists (state a) | done].
    + destruct (lagged r); [done|]. destruct (queue r) as [|s q] eqn:Eq; [by rewrite <- Eq in Hw|].
      apply Forall_cons in Hw as [H1 H2]. destruct (ready s) eqn:E; [by exists s | done].
Qed.

(** Waiting for the API to become available neither ends early nor misses a change.  However changes and
    polls interleave, a future that ends with success was created in, or has since seen, a state that is
    ready; and one that is asleep, having read everything sent to it, sleeps only while the current state
    is not ready. *)
Theorem wait_correct xs a :
  1 <= capacity ->
  let '(a', w) := wait_run xs (a, wait_for_state) in
  (w = Resolved true -> exists s, s ∈ states xs a /\ ready s = true)
  /\ (forall r, w = Waiting r -> queue r = [] -> lagged r = false -> ready (state a') = false).
Proof.
  intros Hc. destruct (wait_run xs (a, wait_for_state)) as [a' w] eqn:E. split.
  - intros ->. pose proof (wait_run_informed (fun s => s ∈ states xs a) xs a wait_for_state) as Hi.
    rewrite E in Hi. apply Hi; [constructor | by apply Forall_forall].
  - assert (up_to_date (a', w)) as Hu.
    { rewrite <- E. clear E. assert (up_to_date (a, wait_for_state)) as Hu by (by left).
      revert Hu. generalize (a, wait_for_state). unfold wait_run. induction xs as [|x xs IH]; intros c Hu; [done|].
      simpl. apply IH. by apply wait_step_up_to_date. }
    intros r -> Hq Hl. unfold up_to_date in Hu. simpl in Hu. rewrite Hq, Hl in Hu. naive_solver.
Qed.
End wait.

Lemma wait_correct_witness :
  let ready s := negb (offline s) in
  let xs := [Change (SetOffline true); PollIt; Change Suspend; Change (SetOffline false); PollIt; PollIt; PollIt] in
  (wait_run 128 ready xs (ApiAvailability_new State_default, wait_for_state)).2 = Resolved true
  /\ exists s, s ∈ states xs (ApiAvailability_new State_default) /\ ready s = true.
Proof.
  intros ready xs. split; [reflexivity|].
  exact (proj1 (wait_correct 128 ready xs (ApiAvailability_new State_default) ltac:(lia)) eq_refl).
Defined.

(** A future that has missed messages ends with an error, which [when_online] ignores: its task then runs
    although the device is offline. *)
Theorem lagging_wait_fails :
  let ready s := negb (offline s) in
  let flip := [Change Suspend; Change Unsuspend] in
  let '(a, w) := wait_run 128 ready
                   ([Change (SetOffline true); PollIt] ++ concat (replicate 65 flip) ++ [PollIt])
                   (ApiAvailability_new State_default, wait_for_state) in
  w = Resolved false /\ offline (state a) = true.
Proof. by vm_compute. Qed.
