(* ===== verification/DeviceService.v ===== *)
(** * Devices, accounts and the requests about them

    [src/mullvad-daemon/src/device/service.rs]: the requests to the API that create, list, validate, rekey
    and remove devices, with their retries; the data of [src/mullvad-types/src/device.rs],
    [account.rs] and [wireguard.rs] they work on; and [src/mullvad-daemon/src/migrations/device.rs].

    The API is a parameter: a proxy answers the [k]th time a request is sent.  The clock and whether the
    host is offline are read from functions of the number of the attempt.  [when_online] and
    [when_bg_resumes] only delay a request and leave no trace here.  Times are nanoseconds, keys byte
    strings. *)

From stdpp Require Import base list strings option numbers sets.
From S2P Require Import Prelude Retry Availability.
Local Open Scope vpn_scope.

(** ** Errors of the API client *)
Inductive RestError : Type :=
| RestServiceDown | Aborted | LegacyHyperError | HyperError | InvalidHeaderError | HttpError | TimeoutError
| DeserializeError | ApiError (status : Z) (code : string) | InvalidUri | NoAccessTokenStore | FetchVersions
| BodyTooLarge.
#[global] Instance RestError_eq_dec : EqDecision RestError.
Proof. solve_decision. Defined.

Definition rest_is_network_error (e : RestError) : bool :=
  match e with HyperError | LegacyHyperError | TimeoutError => true | _ => false end.
Definition rest_is_aborted (e : RestError) : bool := match e with Aborted => true | _ => false end.

Definition VOUCHER_USED : string := "VOUCHER_USED".
Definition INVALID_VOUCHER : string := "INVALID_VOUCHER".
Definition INVALID_ACCOUNT : string := "INVALID_ACCOUNT".
Definition DEVICE_NOT_FOUND : string := "DEVICE_NOT_FOUND".
Definition INVALID_ACCESS_TOKEN : string := "INVALID_ACCESS_TOKEN".
Definition MAX_DEVICES_REACHED : string := "MAX_DEVICES_REACHED".
Definition PUBKEY_IN_USE : string := "PUBKEY_IN_USE".
(** [StatusCode::NOT_FOUND] *)
Definition NOT_FOUND : Z := 404.

(** [device::Error]; the causes of file and parse errors are left out. *)
Inductive Error : Type :=
| MaxDevicesReached | NoDevice | InvalidDevice | InvalidAccount | InvalidVoucher | UsedVoucher
| DeviceIoError | ParseDeviceCache | OtherRestError (e : RestError) | Cancelled | AccountChange
| AccountManagerDown.
#[global] Instance Error_eq_dec : EqDecision Error.
Proof. solve_decision. Defined.

Definition Error_is_network_error (e : Error) : bool :=
  match e with OtherRestError e => rest_is_network_error e | _ => false end.
Definition Error_is_aborted (e : Error) : bool :=
  match e with OtherRestError e => rest_is_aborted e | _ => false end.

Definition map_rest_error (error : RestError) : Error :=
  match error with
  | ApiError _ code =>
      if decide (code = DEVICE_NOT_FOUND \/ code = INVALID_ACCESS_TOKEN) then InvalidDevice
      else if decide (code = INVALID_ACCOUNT) then InvalidAccount
      else if decide (code = MAX_DEVICES_REACHED) then MaxDevicesReached
      else if decide (code = INVALID_VOUCHER) then InvalidVoucher
      else if decide (code = VOUCHER_USED) then UsedVoucher
      else OtherRestError error
  | _ => OtherRestError error
  end.

(** ** Data *)
Definition Key : Type := list Z.
Definition AccountNumber : Type := string.
Definition DeviceId : Type := string.

(** The addresses of a device in the tunnel. *)
Record AssociatedAddresses : Type := { ipv4_address : Z * Z; ipv6_address : Z * Z }.
#[global] Instance AssociatedAddresses_eq_dec : EqDecision AssociatedAddresses.
Proof. solve_decision. Defined.

Record WireguardData : Type := {
  private_key : Key;
  addresses : AssociatedAddresses;
  key_created : Z;
}.
#[global] Instance WireguardData_eq_dec : EqDecision WireguardData.
Proof. solve_decision. Defined.

Record Device : Type := {
  device_id : DeviceId;
  device_name : string;
  pubkey : Key;
  device_hijack_dns : bool;
  device_created : Z;
}.

Record PrivateDevice : Type := {
  id : DeviceId;
  name : string;
  wg_data : WireguardData;
  hijack_dns : bool;
  created : Z;
}.
#[global] Instance PrivateDevice_eq_dec : EqDecision PrivateDevice.
Proof. solve_decision. Defined.

Record PrivateAccountAndDevice : Type := { account_number : AccountNumber; device : PrivateDevice }.
#[global] Instance PrivateAccountAndDevice_eq_dec : EqDecision PrivateAccountAndDevice.
Proof. solve_decision. Defined.

Record AccountData : Type := { account_id : string; expiry : Z }.
Record VoucherSubmission : Type := { time_added : Z; new_expiry : Z }.

(** X25519, of the [x25519_dalek] crate. *)
Class Curve : Type := public_key : Key -> Key.

Section service.
Context `{Curve}.

Definition try_from_device (d : Device) (data : WireguardData) : result PrivateDevice Error :=
  if decide (pubkey d <> public_key (private_key data)) then Err InvalidDevice
  else Ok {| id := device_id d; name := device_name d; wg_data := data; hijack_dns := device_hijack_dns d;
             created := device_created d |}.

Definition PrivateDevice_update (d : Device) (p : PrivateDevice) : result PrivateDevice Error :=
  if decide (pubkey d <> public_key (private_key (wg_data p))) then Err InvalidDevice
  else Ok {| id := device_id d; name := device_name d; wg_data := wg_data p;
             hijack_dns := device_hijack_dns d; created := device_created d |}.

Definition Device_from (p : PrivateDevice) : Device :=
  {| device_id := id p; device_name := name p; pubkey := public_key (private_key (wg_data p));
     device_hijack_dns := hijack_dns p; device_created := created p |}.

(** ** Which results are retried *)
Definition should_retry {T} (offline : bool) (r : result T RestError) : bool :=
  match r with
  | Err error => if rest_is_network_error error then negb offline else false
  | Ok _ => false
  end.

Definition should_retry_backoff {T} (r : result T RestError) : bool :=
  match r with
  | Ok _ => false
  | Err (ApiError status code) =>
      negb (status =? NOT_FOUND)%Z
      && negb (bool_decide (code = DEVICE_NOT_FOUND)) && negb (bool_decide (code = INVALID_ACCOUNT))
      && negb (bool_decide (code = MAX_DEVICES_REACHED)) && negb (bool_decide (code = PUBKEY_IN_USE))
  | Err _ => true
  end.

Definition ACTION_RETRIES : nat := 3.
Definition RETRY_ACTION_STRATEGY : ConstantInterval :=
  ConstantInterval_new 0 (Some (Z.of_nat ACTION_RETRIES)).

(** The strategies of background tasks, before jitter. *)
Definition BACKOFF : ExponentialBackoff :=
  with_max_delay (Some (from_secs (24 * 3600))) (ExponentialBackoff_new (from_secs 4) 5).
Definition BACKOFF_UNLIMITED : ExponentialBackoff := with_max_delay None BACKOFF.

(** [Jittered]: [draw k d] is the jitter of the delay [d] with the [k]th random number. *)
Record Jittered (D : Type) : Type := { inner : D; draw : nat -> Z -> Z; drawn : nat }.
#[global] Instance Jittered_next {D} `{Delays D} : Delays (Jittered D) :=
  fun j => '(d, i) ← next (inner _ j);
           Some (draw _ j (drawn _ j) d, {| inner := i; draw := draw _ j; drawn := S (drawn _ j) |}).
Definition jitter {D} (draw : nat -> Z -> Z) (inner : D) : Jittered D :=
  {| inner := inner; draw := draw; drawn := 0 |}.

(** [std::iter::repeat] *)
Record Repeat : Type := { repeated : Z }.
#[global] Instance Repeat_next : Delays Repeat := fun r => Some (repeated r, r).

(** ** Requests *)
(** The answers to a request, by the number of the attempt. *)
Definition Answers (T : Type) : Type := nat -> result T RestError.

Record DevicesProxy : Type := {
  proxy_create : AccountNumber -> Key -> Answers (Device * AssociatedAddresses);
  proxy_remove : AccountNumber -> DeviceId -> Answers unit;
  proxy_replace_wg_key : AccountNumber -> DeviceId -> Key -> Answers AssociatedAddresses;
  proxy_list : AccountNumber -> Answers (list Device);
  proxy_get : AccountNumber -> DeviceId -> Answers Device;
}.

Record AccountsProxy : Type := {
  proxy_create_account : Answers AccountNumber;
  proxy_get_www_auth_token : AccountNumber -> Answers string;
  proxy_get_data : AccountNumber -> Answers AccountData;
  proxy_submit_voucher : AccountNumber -> string -> Answers VoucherSubmission;
}.

(** What a request reads of the host: whether it is offline after each attempt, the time at which the
    request is over, and the random private key that is generated for it. *)
Record Host : Type := { is_offline : nat -> bool; done_at : Z; new_from_random : Key }.

(** [retry_future] with the strategy of user actions: four attempts at most, see [action_answers].  And
    with that of background tasks, which need not end: [attempts] is the fuel. *)
Definition action {T} (host : Host) (answers : Answers T) : option (result T RestError) :=
  '(r, _, _) ← retry_future answers (fun k => should_retry (is_offline host k)) (S ACTION_RETRIES) 0
                 RETRY_ACTION_STRATEGY;
  Some r.
Definition background {T D} `{Delays D} (attempts : nat) (answers : Answers T) (delays : D)
  : option (result T RestError) :=
  '(r, _, _) ← retry_future answers (fun _ => should_retry_backoff) attempts 0 delays; Some r.

Section requests.
Context (host : Host) (proxy : DevicesProxy) (accounts : AccountsProxy) (draw : nat -> Z -> Z).

Definition new_device (number : AccountNumber) (r : result (Device * AssociatedAddresses) RestError)
  : result PrivateAccountAndDevice Error :=
  reply <-? map_err map_rest_error r;
  p <-? try_from_device reply.1 {| private_key := new_from_random host; addresses := reply.2;
                                   key_created := done_at host |};
  Ok {| account_number := number; device := p |}.

Definition new_key (r : result AssociatedAddresses RestError) : result WireguardData Error :=
  addrs <-? map_err map_rest_error r;
  Ok {| private_key := new_from_random host; addresses := addrs; key_created := done_at host |}.

Definition generate_for_account (number : AccountNumber) : option (result PrivateAccountAndDevice Error) :=
  new_device number <$> action host (proxy_create proxy number (public_key (new_from_random host))).

Definition generate_for_account_with_backoff (attempts : nat) (number : AccountNumber)
  : option (result PrivateAccountAndDevice Error) :=
  new_device number
    <$> background attempts (proxy_create proxy number (public_key (new_from_random host))) (jitter draw BACKOFF).

Definition remove_device_inner (number : AccountNumber) (i : DeviceId) : option (result unit Error) :=
  map_err map_rest_error <$> action host (proxy_remove proxy number i).

Definition list_devices (number : AccountNumber) : option (result (list Device) Error) :=
  map_err map_rest_error <$> action host (proxy_list proxy number).

Definition list_devices_with_backoff (attempts : nat) (number : AccountNumber)
  : option (result (list Device) Error) :=
  map_err map_rest_error <$> background attempts (proxy_list proxy number) (jitter draw BACKOFF).

Definition remove_device (number : AccountNumber) (i : DeviceId) : option (result (list Device) Error) :=
  r ← remove_device_inner number i;
  match r with Err e => Some (Err e) | Ok _ => list_devices number end.

Definition remove_device_with_backoff (attempts : nat) (number : AccountNumber) (i : DeviceId)
  : option (result unit Error) :=
  map_err map_rest_error <$> background attempts (proxy_remove proxy number i) (jitter draw BACKOFF_UNLIMITED).

Definition rotate_key (number : AccountNumber) (i : DeviceId) : option (result WireguardData Error) :=
  new_key <$> action host (proxy_replace_wg_key proxy number i (public_key (new_from_random host))).

Definition rotate_key_with_backoff (attempts : nat) (number : AccountNumber) (i : DeviceId)
  : option (result WireguardData Error) :=
  new_key <$> background attempts
                (proxy_replace_wg_key proxy number i (public_key (new_from_random host)))
                {| repeated := from_secs (24 * 3600) |}.

Definition get_device (number : AccountNumber) (i : DeviceId) : option (result Device Error) :=
  map_err map_rest_error <$> action host (proxy_get proxy number i).

(** ** The account service *)
Definition create_account : option (result AccountNumber RestError) :=
  action host (proxy_create_account accounts).
Definition get_www_auth_token (number : AccountNumber) : option (result string RestError) :=
  action host (proxy_get_www_auth_token accounts number).

(** [handle_account_data_result]: the changes of the availability, and whether the result is definite. *)
Definition handle_account_data_result (now : Z) (r : result AccountData RestError) : list Op * bool :=
  match r with
  | Ok data => if (now <=? expiry data)%Z then ([ResumeBackground], true) else ([PauseBackground], true)
  | Err (ApiError _ code) => if decide (code = INVALID_ACCOUNT) then ([PauseBackground], true) else ([], false)
  | Err _ => ([], false)
  end.

(** [get_data], [get_data_2] and [submit_voucher]: the result, the changes of the availability and
    whether the initial check is aborted. *)
Definition get_data (number : AccountNumber) : option (result AccountData RestError * list Op * bool) :=
  r ← action host (proxy_get_data accounts number);
  let '(ops, definite) := handle_account_data_result (done_at host) r in Some (r, ops, definite).
Definition get_data_2 (number : AccountNumber) : option (result AccountData Error * list Op * bool) :=
  '(r, ops, aborted) ← get_data number; Some (map_err map_rest_error r, ops, aborted).
Definition submit_voucher (number : AccountNumber) (voucher : string)
  : option (result VoucherSubmission Error * list Op * bool) :=
  r ← action host (proxy_submit_voucher accounts number voucher);
  Some (map_err map_rest_error r, if is_ok r then [ResumeBackground] else [], is_ok r).

(** [spawn_account_service]: the changes the initial check makes, if it ends by itself; [clock] is the
    time after each attempt. *)
Definition spawn_account_service (attempts : nat) (clock : nat -> Z) (number : option AccountNumber)
  : option (list Op) :=
  match number with
  | None => Some [PauseBackground; PauseBackground]
  | Some number =>
      '(r, _, _) ← retry_future (fun k => handle_account_data_result (clock k) (proxy_get_data accounts number k))
                     (fun _ r => negb r.2) attempts 0 (jitter draw BACKOFF);
      Some (PauseBackground :: r.1)
  end.

(** ** Devices for settings from before there were devices *)
(** [timed_out]: the request takes longer than [TIMEOUT]. *)
Definition cache_from_wireguard_key (attempts : nat) (timed_out : bool) (number : AccountNumber)
    (data : WireguardData) : option (result PrivateAccountAndDevice Error) :=
  if timed_out then Some (Err Cancelled)
  else
    r ← list_devices_with_backoff attempts number;
    Some (devices <-? r;
          match list_find (fun d => pubkey d = public_key (private_key data)) devices with
          | Some (_, d) => p <-? try_from_device d data; Ok {| account_number := number; device := p |}
          | None => Err InvalidDevice
          end).

Definition cache_from_account (attempts : nat) (timed_out : bool) (number : AccountNumber)
  : option (result PrivateAccountAndDevice Error) :=
  if timed_out then Some (Err Cancelled) else generate_for_account_with_backoff attempts number.

(** [wg_data]: the parsed WireGuard data of the old settings, if there are any and they parse. *)
Definition generate_device (attempts : nat) (timed_out : bool) (token : AccountNumber)
    (data : option WireguardData) : option (result PrivateAccountAndDevice Error) :=
  match data with
  | Some data => cache_from_wireguard_key attempts timed_out token data
  | None => cache_from_account attempts timed_out token
  end.
End requests.
End service.
