(* ===== verification/DeviceManager.v ===== *)
(** * The account manager

    [src/mullvad-daemon/src/device/mod.rs] and [api.rs]: the actor that owns the account and the device of
    this installation, keeps them in a file, rotates the WireGuard key, and answers requests of the daemon.

    One round of [run] takes what arrived, a command or the result of the API call in progress, and what
    the environment does meanwhile ([Env]).  A handler is a computation of the monad [Act]: the manager is
    its state, it appends to the effects, and a failing [expect] is [None].  A sender of a oneshot channel
    is a number; a sender that is dropped makes its receiver fail, which is an effect too.  An API call in
    progress is what it was called with.  The commands of the Android build are left out. *)

From stdpp Require Import base list strings option numbers sets.
From S2P Require Import Prelude Retry DeviceService TunnelTypes.
Local Open Scope vpn_scope.

(** ** Device states *)
Inductive PrivateDeviceState : Type := LoggedIn (d : PrivateAccountAndDevice) | LoggedOut | Revoked.
#[global] Instance PrivateDeviceState_eq_dec : EqDecision PrivateDeviceState.
Proof. solve_decision. Defined.

Definition logged_in (s : PrivateDeviceState) : bool := match s with LoggedIn _ => true | _ => false end.
Definition logged_out (s : PrivateDeviceState) : bool := match s with LoggedOut => true | _ => false end.
Definition state_device (s : PrivateDeviceState) : option PrivateAccountAndDevice :=
  match s with LoggedIn d => Some d | _ => None end.

Inductive PrivateDeviceEvent : Type :=
| Login (d : PrivateAccountAndDevice)
| Logout
| RevokedEvent
| Updated (d : PrivateAccountAndDevice)
| RotatedKey (d : PrivateAccountAndDevice).

Definition event_state (e : PrivateDeviceEvent) : PrivateDeviceState :=
  match e with
  | Login d | Updated d | RotatedKey d => LoggedIn d
  | Logout => LoggedOut
  | RevokedEvent => Revoked
  end.

Inductive AccountEvent : Type := DeviceChanged (e : PrivateDeviceEvent) | Expiry (t : Z).

(** ** Rotation intervals *)
Definition MIN_ROTATION_INTERVAL : Z := from_secs (24 * 3600).
Definition MAX_ROTATION_INTERVAL : Z := from_secs (30 * 24 * 3600).
Record RotationInterval : Type := { as_duration : Z }.
Inductive RotationIntervalError : Type := TooSmall | TooLarge.

Definition RotationInterval_new (interval : Z) : result RotationInterval RotationIntervalError :=
  if (interval <? MIN_ROTATION_INTERVAL)%Z then Err TooSmall
  else if (MAX_ROTATION_INTERVAL <? interval)%Z then Err TooLarge
  else Ok {| as_duration := interval |}.

(** [key_rotation_timer]: how long it sleeps.  [num_seconds] rounds towards zero, and a key from the
    future counts as new. *)
Definition key_rotation_timer (rotation_interval : RotationInterval) (key_created now : Z) : Z :=
  let seconds := Z.quot (now - key_created) NANOS_PER_SEC in
  let key_age := from_secs (if (seconds <? 0)%Z then 0 else seconds) in
  Z.max (Z.max 0 (as_duration rotation_interval - key_age)) (from_secs 60).

(** ** The file *)
(** [Content None]: empty, or not the text of a device state. *)
Inductive DeviceFile : Type := NoFile | Unreadable | Content (s : option PrivateDeviceState).

(** A write that fails has left something in the file. *)
Inductive WriteOutcome : Type := Written | WriteFailed (remains : DeviceFile).

Definition cacher_write (w : WriteOutcome) (s : PrivateDeviceState) : DeviceFile * result unit Error :=
  match w with
  | Written => (Content (Some s), Ok tt)
  | WriteFailed remains => (remains, Err DeviceIoError)
  end.

Definition DeviceCacher_new (w : WriteOutcome) (f : DeviceFile) : DeviceFile * result PrivateDeviceState Error :=
  let wiped := let '(f, r) := cacher_write w LoggedOut in (f, r ;? Ok LoggedOut) in
  match f with
  | Unreadable => (f, Err DeviceIoError)
  | Content (Some s) => (f, Ok s)
  | Content None | NoFile => wiped
  end.

(** ** The manager *)
Definition Tx : Type := nat.

(** [Call], in progress, and the values its future was made from. *)
Inductive Call : Type :=
| LoginCall (number : AccountNumber) (tx : Tx)
| TimerKeyRotation (number : AccountNumber) (i : DeviceId)
| OneshotKeyRotation (number : AccountNumber) (i : DeviceId)
| Validation (number : AccountNumber) (i : DeviceId)
| VoucherCall (number : AccountNumber) (voucher : string) (tx : Tx)
| ExpiryCheck (number : AccountNumber).

Inductive ApiResult : Type :=
| LoginResult (r : result PrivateAccountAndDevice Error) (tx : Tx)
| RotationResult (r : result WireguardData Error)
| ValidationResult (r : result Device Error)
| VoucherResult (r : result VoucherSubmission Error) (tx : Tx)
| ExpiryResult (r : result Z Error).

Inductive AccountManagerCommand : Type :=
| CmdLogin (number : AccountNumber) (tx : Tx)
| CmdLogout (tx : Tx)
| SetData (d : PrivateAccountAndDevice) (tx : Tx)
| GetData (tx : Tx)
| GetDataAfterLogin (tx : Tx)
| RotateKey (tx : Tx)
| SetRotationInterval (interval : RotationInterval) (tx : Tx)
| ValidateDevice (tx : Tx)
| SubmitVoucher (voucher : string) (tx : Tx)
| CheckExpiry (tx : Tx)
| Shutdown (tx : Tx).

(** [current_api_call] is a local variable of [run]. *)
Record AccountManager : Type := {
  cacher : DeviceFile;
  data : PrivateDeviceState;
  rotation_interval : RotationInterval;
  listeners : list nat;
  last_validation : option Z;
  validation_requests : list Tx;
  expiry_requests : list Tx;
  rotation_requests : list Tx;
  data_requests : list Tx;
  current_api_call : option Call;
}.

Inductive Reply : Type :=
| Unit (r : result unit Error)
| State (r : result PrivateDeviceState Error)
| ExpiryTime (r : result Z Error)
| Voucher (r : result VoucherSubmission Error)
| Stopped.

(** [SendLater]: by a task that waits for the removal of the device, but at most for [LOGOUT_TIMEOUT]. *)
Inductive Effect : Type :=
| Send (tx : Tx) (r : Reply)
| SendLater (tx : Tx) (r : Reply)
| Dropped (tx : Tx)
| Notify (listener : nat) (e : AccountEvent)
| SpawnRemoval (number : AccountNumber) (i : DeviceId).

(** What the environment does during a round: how the write ends, if there is one, the time, and which
    listeners are still there. *)
Record Env : Type := { write : WriteOutcome; now : Z; alive : nat -> bool }.

(** ** The monad *)
Definition Act (A : Type) : Type := AccountManager -> option (A * AccountManager * list Effect).
#[global] Instance Act_ret : MRet Act := fun _ a m => Some (a, m, []).
#[global] Instance Act_bind : MBind Act :=
  fun _ _ k c m =>
    match c m with
    | None => None
    | Some (a, m, es) =>
        match k a m with None => None | Some (b, m, es') => Some (b, m, es ++ es') end
    end.

Definition panic {A} : Act A := fun _ => None.
Definition reads {A} (f : AccountManager -> A) : Act A := fun m => Some (f m, m, []).
Definition modify (f : AccountManager -> AccountManager) : Act unit := fun m => Some (tt, f m, []).
Definition emit (es : list Effect) : Act unit := fun m => Some (tt, m, es).
Definition reply (tx : Tx) (r : Reply) : Act unit := emit [Send tx r].

Definition set_cacher (f : DeviceFile) (m : AccountManager) : AccountManager :=
  {| cacher := f; data := data m; rotation_interval := rotation_interval m; listeners := listeners m;
     last_validation := last_validation m; validation_requests := validation_requests m;
     expiry_requests := expiry_requests m; rotation_requests := rotation_requests m;
     data_requests := data_requests m; current_api_call := current_api_call m |}.
Definition set_data (d : PrivateDeviceState) (m : AccountManager) : AccountManager :=
  {| cacher := cacher m; data := d; rotation_interval := rotation_interval m; listeners := listeners m;
     last_validation := last_validation m; validation_requests := validation_requests m;
     expiry_requests := expiry_requests m; rotation_requests := rotation_requests m;
     data_requests := data_requests m; current_api_call := current_api_call m |}.
Definition set_rotation_interval (i : RotationInterval) (m : AccountManager) : AccountManager :=
  {| cacher := cacher m; data := data m; rotation_interval := i; listeners := listeners m;
     last_validation := last_validation m; validation_requests := validation_requests m;
     expiry_requests := expiry_requests m; rotation_requests := rotation_requests m;
     data_requests := data_requests m; current_api_call := current_api_call m |}.
Definition set_listeners (l : list nat) (m : AccountManager) : AccountManager :=
  {| cacher := cacher m; data := data m; rotation_interval := rotation_interval m; listeners := l;
     last_validation := last_validation m; validation_requests := validation_requests m;
     expiry_requests := expiry_requests m; rotation_requests := rotation_requests m;
     data_requests := data_requests m; current_api_call := current_api_call m |}.
Definition set_last_validation (t : option Z) (m : AccountManager) : AccountManager :=
  {| cacher := cacher m; data := data m; rotation_interval := rotation_interval m; listeners := listeners m;
     last_validation := t; validation_requests := validation_requests m;
     expiry_requests := expiry_requests m; rotation_requests := rotation_requests m;
     data_requests := data_requests m; current_api_call := current_api_call m |}.
Definition set_validation_requests (l : list Tx) (m : AccountManager) : AccountManager :=
  {| cacher := cacher m; data := data m; rotation_interval := rotation_interval m; listeners := listeners m;
     last_validation := last_validation m; validation_requests := l;
     expiry_requests := expiry_requests m; rotation_requests := rotation_requests m;
     data_requests := data_requests m; current_api_call := current_api_call m |}.
Definition set_expiry_requests (l : list Tx) (m : AccountManager) : AccountManager :=
  {| cacher := cacher m; data := data m; rotation_interval := rotation_interval m; listeners := listeners m;
     last_validation := last_validation m; validation_requests := validation_requests m;
     expiry_requests := l; rotation_requests := rotation_requests m;
     data_requests := data_requests m; current_api_call := current_api_call m |}.
Definition set_rotation_requests (l : list Tx) (m : AccountManager) : AccountManager :=
  {| cacher := cacher m; data := data m; rotation_interval := rotation_interval m; listeners := listeners m;
     last_validation := last_validation m; validation_requests := validation_requests m;
     expiry_requests := expiry_requests m; rotation_requests := l;
     data_requests := data_requests m; current_api_call := current_api_call m |}.
Definition set_data_requests (l : list Tx) (m : AccountManager) : AccountManager :=
  {| cacher := cacher m; data := data m; rotation_interval := rotation_interval m; listeners := listeners m;
     last_validation := last_validation m; validation_requests := validation_requests m;
     expiry_requests := expiry_requests m; rotation_requests := rotation_requests m;
     data_requests := l; current_api_call := current_api_call m |}.
Definition set_current_api_call (c : option Call) (m : AccountManager) : AccountManager :=
  {| cacher := cacher m; data := data m; rotation_interval := rotation_interval m; listeners := listeners m;
     last_validation := last_validation m; validation_requests := validation_requests m;
     expiry_requests := expiry_requests m; rotation_requests := rotation_requests m;
     data_requests := data_requests m; current_api_call := c |}.

(** ** The call in progress *)
Definition is_validating (m : AccountManager) : bool :=
  match current_api_call m with Some (Validation _ _) | Some (OneshotKeyRotation _ _) => true | _ => false end.
Definition is_checking_expiry (m : AccountManager) : bool :=
  match current_api_call m with Some (ExpiryCheck _) => true | _ => false end.
Definition is_running_timed_totation (m : AccountManager) : bool :=
  match current_api_call m with Some (TimerKeyRotation _ _) => true | _ => false end.
Definition is_idle (m : AccountManager) : bool :=
  match current_api_call m with None => true | _ => false end.
Definition is_logging_in (m : AccountManager) : bool :=
  match current_api_call m with Some (LoginCall _ _) => true | _ => false end.

(** The sender a call holds; replacing or clearing the call drops it. *)
Definition call_tx (c : option Call) : list Tx :=
  match c with Some (LoginCall _ tx) | Some (VoucherCall _ _ tx) => [tx] | _ => [] end.
Definition set_call (c : option Call) : Act unit :=
  old ← reads current_api_call;
  emit (map Dropped (call_tx old));; modify (set_current_api_call c).

(** What the future of a call can yield, and the result its poll then gives; the call is then over. *)
Inductive Response : Type :=
| LoginResponse (r : result PrivateAccountAndDevice Error)
| RotationResponse (r : result WireguardData Error)
| ValidationResponse (r : result Device Error)
| VoucherResponse (r : result VoucherSubmission Error)
| ExpiryResponse (r : result Z Error).

Definition call_poll (c : Call) (r : Response) : option ApiResult :=
  match c, r with
  | LoginCall _ tx, LoginResponse r => Some (LoginResult r tx)
  | TimerKeyRotation _ _, RotationResponse r => Some (RotationResult r)
  | OneshotKeyRotation _ _, RotationResponse r => Some (RotationResult r)
  | Validation _ _, ValidationResponse r => Some (ValidationResult r)
  | VoucherCall _ _ tx, VoucherResponse r => Some (VoucherResult r tx)
  | ExpiryCheck _, ExpiryResponse r => Some (ExpiryResult r)
  | _, _ => None
  end.

Section manager.
Context `{Curve}.
Context (env : Env).

(** ** Helpers *)
Definition notify (e : AccountEvent) : Act unit :=
  l ← reads listeners;
  let here := filter (fun k => alive env k = true) l in
  emit (map (fun k => Notify k e) here);; modify (set_listeners here).

Definition write_cache (s : PrivateDeviceState) : Act (result unit Error) :=
  let '(f, r) := cacher_write (write env) s in modify (set_cacher f);; mret r.

(** [drain_requests], of each queue. *)
Definition answer_all (r : Reply) (txs : list Tx) : list Effect := map (fun tx => Send tx r) txs.
Definition drain_validation (r : result unit Error) : Act unit :=
  txs ← reads validation_requests; emit (answer_all (Unit r) txs);; modify (set_validation_requests []).
Definition drain_rotation (r : result unit Error) : Act unit :=
  txs ← reads rotation_requests; emit (answer_all (Unit r) txs);; modify (set_rotation_requests []).
Definition drain_expiry (r : result Z Error) : Act unit :=
  txs ← reads expiry_requests; emit (answer_all (ExpiryTime r) txs);; modify (set_expiry_requests []).
Definition drain_data (r : result PrivateDeviceState Error) : Act unit :=
  txs ← reads data_requests; emit (answer_all (State r) txs);; modify (set_data_requests []).
Definition drain_device_requests_with_err (e : Error) : Act unit :=
  drain_rotation (Err e);; drain_validation (Err e).

Definition set (event : PrivateDeviceEvent) : Act (result unit Error) :=
  current ← reads data;
  let device_state := event_state event in
  if decide (device_state = current) then mret (Ok tt)
  else
    r ← write_cache device_state;
    match r with
    | Err e => mret (Err e)
    | Ok _ =>
        modify (set_last_validation None);;
        match state_device current with
        | Some old_config =>
            if decide ((fun d => id (device d)) <$> state_device device_state <> Some (id (device old_config)))
            then emit [SpawnRemoval (account_number old_config) (id (device old_config))]
            else mret tt
        | None => mret tt
        end;;
        modify (set_data device_state);;
        notify (DeviceChanged event);;
        mret (Ok tt)
    end.

Definition revoke_device (e : Error) : Act unit :=
  write_cache Revoked;;
  modify (set_data Revoked);;
  drain_validation (Err e);; drain_rotation (Err e);; drain_expiry (Err e);;
  notify (DeviceChanged RevokedEvent).

Definition logout (tx : Tx) : Act unit :=
  drain_data (Err AccountChange);;
  current ← reads data;
  if logged_out current then reply tx (Unit (Ok tt))
  else
    r ← write_cache LoggedOut;
    match r with
    | Err e => reply tx (Unit (Err e))
    | Ok _ =>
        modify (set_data LoggedOut);;
        notify (DeviceChanged Logout);;
        match state_device current with
        | Some old_config =>
            emit [SpawnRemoval (account_number old_config) (id (device old_config));
                  SendLater tx (Unit (Ok tt))]
        | None => reply tx (Unit (Ok tt))
        end
    end.

(** ** Starting calls *)
Definition initiate_key_rotation (m : AccountManager) : result Call Error :=
  match state_device (data m) with
  | Some d => Ok (OneshotKeyRotation (account_number d) (id (device d)))
  | None => Err NoDevice
  end.
Definition validation_call (m : AccountManager) : result Call Error :=
  match state_device (data m) with
  | Some d => Ok (Validation (account_number d) (id (device d)))
  | None => Err NoDevice
  end.
Definition expiry_call (m : AccountManager) : result Call Error :=
  match state_device (data m) with Some d => Ok (ExpiryCheck (account_number d)) | None => Err NoDevice end.
Definition spawn_timed_key_rotation (m : AccountManager) : option Call :=
  d ← state_device (data m); Some (TimerKeyRotation (account_number d) (id (device d))).

Definition VALIDITY_CACHE_TIMEOUT : Z := from_secs 10.
Definition LOGOUT_TIMEOUT : Z := from_secs 2.

Definition needs_validation : Act bool :=
  current ← reads data;
  last ← reads last_validation;
  if negb (logged_in current) then mret true
  else
    let elapsed :=
      match last with
      | Some t => if (t <=? now env)%Z then (now env - t)%Z else VALIDITY_CACHE_TIMEOUT
      | None => VALIDITY_CACHE_TIMEOUT
      end in
    if (VALIDITY_CACHE_TIMEOUT <=? elapsed)%Z
    then modify (set_last_validation (Some (now env)));; mret true
    else mret false.

Definition push_validation (tx : Tx) : Act unit :=
  modify (fun m => set_validation_requests (validation_requests m ++ [tx]) m).
Definition push_rotation (tx : Tx) : Act unit :=
  modify (fun m => set_rotation_requests (rotation_requests m ++ [tx]) m).
Definition push_expiry (tx : Tx) : Act unit :=
  modify (fun m => set_expiry_requests (expiry_requests m ++ [tx]) m).

Definition handle_validation_request (tx : Tx) : Act unit :=
  login ← reads is_logging_in; validating ← reads is_validating;
  if (login : bool) then reply tx (Unit (Err AccountChange))
  else if (validating : bool) then push_validation tx
  else
    needed ← needs_validation;
    if negb needed then reply tx (Unit (Ok tt))
    else
      r ← reads validation_call;
      match r with
      | Ok call => set_call (Some call);; push_validation tx
      | Err e => reply tx (Unit (Err e))
      end.

Definition handle_voucher_submission (tx : Tx) (voucher : string) : Act unit :=
  login ← reads is_logging_in; current ← reads data;
  if (login : bool) then reply tx (Voucher (Err AccountChange))
  else
    match state_device current with
    | Some d => set_call (Some (VoucherCall (account_number d) voucher tx))
    | None => reply tx (Voucher (Err NoDevice))
    end.

Definition handle_expiry_request (tx : Tx) : Act unit :=
  login ← reads is_logging_in; checking ← reads is_checking_expiry;
  if (login : bool) then reply tx (ExpiryTime (Err AccountChange))
  else if (checking : bool) then push_expiry tx
  else
    r ← reads expiry_call;
    match r with
    | Ok call => set_call (Some call);; push_expiry tx
    | Err e => reply tx (ExpiryTime (Err e))
    end.

Definition handle_rotation_request (tx : Tx) : Act unit :=
  login ← reads is_logging_in; validating ← reads is_validating;
  if (login : bool) then reply tx (Unit (Err AccountChange))
  else if (validating : bool) then push_rotation tx
  else
    r ← reads initiate_key_rotation;
    match r with
    | Ok call => set_call (Some call);; push_rotation tx
    | Err e => reply tx (Unit (Err e))
    end.

(** ** Results of calls *)
Definition consume_login (r : result PrivateAccountAndDevice Error) (tx : Tx) : Act unit :=
  answer ← match r with Ok d => set (Login d) | Err e => mret (Err e) end;
  reply tx (Unit answer);;
  current ← reads data;
  drain_data (Ok current).

Definition consume_voucher_result (r : result VoucherSubmission Error) (tx : Tx) : Act unit :=
  match r with
  | Ok submission => notify (Expiry (new_expiry submission))
  | Err InvalidAccount => revoke_device InvalidAccount
  | Err InvalidDevice => revoke_device InvalidDevice
  | Err _ => mret tt
  end;;
  reply tx (Voucher r).

Definition consume_expiry_result (r : result Z Error) : Act unit :=
  match r with
  | Ok t => notify (Expiry t);; drain_expiry (Ok t)
  | Err InvalidAccount => revoke_device InvalidAccount
  | Err InvalidDevice => revoke_device InvalidDevice
  | Err e => drain_expiry (Err e)
  end.

Definition rotate_if_requested : Act unit :=
  rotations ← reads rotation_requests; validations ← reads validation_requests; current ← reads data;
  match rotations ++ validations, state_device current with
  | _ :: _, Some d => set_call (Some (OneshotKeyRotation (account_number d) (id (device d))))
  | _, _ => mret tt
  end.

Definition consume_validation (r : result Device Error) : Act unit :=
  current ← reads data;
  match state_device current with
  | None => panic
  | Some current_config =>
      match r with
      | Ok new_device =>
          if decide (pubkey new_device = public_key (private_key (wg_data (device current_config)))) then
            match PrivateDevice_update new_device (device current_config) with
            | Err _ => panic
            | Ok updated =>
                answer ← set (Updated {| account_number := account_number current_config; device := updated |});
                drain_validation answer
            end
          else mret tt
      | Err InvalidAccount => revoke_device InvalidAccount
      | Err InvalidDevice => revoke_device InvalidDevice
      | Err e => drain_validation (Err e)
      end;;
      rotate_if_requested
  end.

Definition with_wg_data (new : WireguardData) (d : PrivateAccountAndDevice) : PrivateAccountAndDevice :=
  {| account_number := account_number d;
     device := {| id := id (device d); name := name (device d); wg_data := new;
                  hijack_dns := hijack_dns (device d); created := created (device d) |} |}.

Definition consume_rotation_result (r : result WireguardData Error) : Act unit :=
  current ← reads data;
  match state_device current with
  | None => panic
  | Some config =>
      match r with
      | Ok new =>
          answer ← set (RotatedKey (with_wg_data new config));
          match answer with
          | Ok _ => drain_rotation (Ok tt);; drain_validation (Ok tt)
          | Err e => drain_device_requests_with_err e
          end
      | Err InvalidAccount => revoke_device InvalidAccount
      | Err InvalidDevice => revoke_device InvalidDevice
      | Err e => drain_device_requests_with_err e
      end
  end.

Definition consume_api_result (r : ApiResult) : Act unit :=
  match r with
  | LoginResult r tx => consume_login r tx
  | RotationResult r => consume_rotation_result r
  | ValidationResult r => consume_validation r
  | VoucherResult r tx => consume_voucher_result r tx
  | ExpiryResult r => consume_expiry_result r
  end.

(** ** Commands *)
(** [Shutdown] ends the loop, see [run_round]. *)
Definition handle_command (c : AccountManagerCommand) : Act unit :=
  match c with
  | CmdLogin number tx => set_call (Some (LoginCall number tx))
  | CmdLogout tx => set_call None;; logout tx
  | SetData d tx => answer ← set (Login d); reply tx (Unit answer)
  | GetData tx => current ← reads data; reply tx (State (Ok current))
  | GetDataAfterLogin tx =>
      login ← reads is_logging_in; current ← reads data;
      if (login : bool) then modify (fun m => set_data_requests (data_requests m ++ [tx]) m)
      else reply tx (State (Ok current))
  | RotateKey tx => handle_rotation_request tx
  | SetRotationInterval interval tx =>
      modify (set_rotation_interval interval);;
      timed ← reads is_running_timed_totation;
      (if (timed : bool) then set_call None else mret tt);;
      reply tx (Unit (Ok tt))
  | ValidateDevice tx => handle_validation_request tx
  | SubmitVoucher voucher tx => handle_voucher_submission tx voucher
  | CheckExpiry tx => handle_expiry_request tx
  | Shutdown tx => mret tt
  end.

(** ** The loop *)
Inductive Event : Type := Command (c : option AccountManagerCommand) | Ready (r : Response).

Inductive Round : Type := Continue (m : AccountManager) (es : list Effect) | Done (es : list Effect) | Panic.

(** Every sender the manager holds. *)
Definition pending (m : AccountManager) : list Tx :=
  validation_requests m ++ expiry_requests m ++ rotation_requests m ++ data_requests m
  ++ call_tx (current_api_call m).

Definition loop_head (m : AccountManager) : AccountManager :=
  if is_idle m then set_current_api_call (spawn_timed_key_rotation m) m else m.

Definition round (c : Act unit) (m : AccountManager) : Round :=
  match c m with Some (_, m, es) => Continue m es | None => Panic end.

(** [None]: the event does not occur, the call in progress cannot yield it.  At the end of the loop the
    manager is dropped with the senders it holds. *)
Definition run_round (e : Event) (m : AccountManager) : option Round :=
  let m := loop_head m in
  match e with
  | Command None => Some (Done (map Dropped (pending m)))
  | Command (Some (Shutdown tx)) => Some (Done (map Dropped (pending m) ++ [Send tx Stopped]))
  | Command (Some c) => Some (round (handle_command c) m)
  | Ready r =>
      call ← current_api_call m;
      result ← call_poll call r;
      Some (round (consume_api_result result) (set_current_api_call None m))
  end.
End manager.

(** [spawn]: the state that is returned to the daemon, and the manager. *)
Definition manager_spawn (w : WriteOutcome) (f : DeviceFile) (interval : RotationInterval) (listener : nat)
  : result (PrivateDeviceState * AccountManager) Error :=
  let '(f, r) := DeviceCacher_new w f in
  s <-? r;
  Ok (s, {| cacher := f; data := s; rotation_interval := interval; listeners := [listener];
            last_validation := None; validation_requests := []; expiry_requests := [];
            rotation_requests := []; data_requests := []; current_api_call := None |}).

(** A run: the events with what the environment did, and the effects of each round. *)
Inductive manager_run `{Curve} : AccountManager -> list (Env * Event) -> AccountManager -> list Effect -> Prop :=
| run_nil m : manager_run m [] m []
| run_snoc m es m1 out env e m2 out' :
    manager_run m es m1 out -> run_round env e m1 = Some (Continue m2 out') ->
    manager_run m (es ++ [(env, e)]) m2 (out ++ out').

(** ** Checking the device when no tunnel can be set up *)
Record TunnelStateChangeHandler : Type := { can_retry : bool; wg_retry_attempt : Z }.
Definition WG_DEVICE_CHECK_THRESHOLD : Z := 3.

Definition TunnelStateChangeHandler_new : TunnelStateChangeHandler := {| can_retry := true; wg_retry_attempt := 0 |}.

(** [usize] wraps in [wrapping_add]. *)
Definition update_retry_counter (new_state : TunnelStateTransition) (retry_attempt : Z) : Z :=
  match new_state with
  | TrConnecting _ => (retry_attempt + 1) mod 2 ^ 64
  | TrConnected _ => 0
  | _ => retry_attempt
  end.

Definition update_retry_bool (new_state : TunnelStateTransition) (can_retry : bool) : bool :=
  match new_state with
  | TrDisconnected _ | TrConnected _ | TrError _ => true
  | _ => can_retry
  end.

Definition should_check_device_validity_on_attempt (attempt : Z) : bool :=
  (0 <? attempt)%Z && (attempt mod WG_DEVICE_CHECK_THRESHOLD =? 0)%Z.

(** The result, and [can_retry] after it. *)
Definition should_check_device_validity (attempt : Z) (can_retry : bool) : bool * bool :=
  if should_check_device_validity_on_attempt attempt then (can_retry, false) else (false, can_retry).

(** The handler after the transition, and whether a check is spawned. *)
Definition handle_state_transition (new_state : TunnelStateTransition) (h : TunnelStateChangeHandler)
  : TunnelStateChangeHandler * bool :=
  let attempt := update_retry_counter new_state (wg_retry_attempt h) in
  let retry := update_retry_bool new_state (can_retry h) in
  let '(check, retry) := should_check_device_validity attempt retry in
  ({| can_retry := retry; wg_retry_attempt := attempt |}, check).

Definition should_continue_retries (e : Error) : bool := Error_is_network_error e || Error_is_aborted e.

(** [check_device_validity_inner], from the answers of the manager. *)
Definition check_device_validity_inner (validated : result unit Error) (expiry : result Z Error)
  : result unit Error :=
  validated ;? (expiry ;? Ok tt).

(** When the check is over. *)
Definition check_device_validity (r : result unit Error) (h : TunnelStateChangeHandler) : TunnelStateChangeHandler :=
  match r with
  | Err e => if should_continue_retries e then {| can_retry := true; wg_retry_attempt := wg_retry_attempt h |} else h
  | Ok _ => h
  end.
