(* ===== verification/DeviceProps.v ===== *)
(** * Theorems about the account manager *)

From stdpp Require Import base list strings option numbers sets.
From S2P Require Import Prelude Retry DeviceService TunnelTypes DeviceManager.
Local Open Scope vpn_scope.

(** ** What a round does *)
(** The senders that are used up by effects, and the one that comes with an event. *)
Definition settled (e : Effect) : option Tx :=
  match e with Send tx _ | SendLater tx _ | Dropped tx => Some tx | _ => None end.

Definition requested (e : Event) : list Tx :=
  match e with
  | Command (Some (CmdLogin _ tx)) | Command (Some (CmdLogout tx)) | Command (Some (SetData _ tx))
  | Command (Some (GetData tx)) | Command (Some (GetDataAfterLogin tx)) | Command (Some (RotateKey tx))
  | Command (Some (SetRotationInterval _ tx)) | Command (Some (ValidateDevice tx))
  | Command (Some (SubmitVoucher _ tx)) | Command (Some (CheckExpiry tx)) | Command (Some (Shutdown tx)) => [tx]
  | _ => []
  end.

(** The device state as a listener follows it. *)
Definition heard (l : nat) (s : PrivateDeviceState) (e : Effect) : PrivateDeviceState :=
  match e with
  | Notify k (DeviceChanged ev) => if decide (k = l) then event_state ev else s
  | _ => s
  end.

(** The calls that end in an [expect] on the device. *)
Definition about_device (c : Call) : option (AccountNumber * DeviceId) :=
  match c with
  | TimerKeyRotation n i | OneshotKeyRotation n i | Validation n i => Some (n, i)
  | _ => None
  end.

Definition manager_ok (m : AccountManager) : Prop :=
  (forall c, current_api_call m = Some c -> about_device c <> None -> logged_in (data m) = true)
  /\ forall n i, current_api_call m = Some (Validation n i) -> validation_requests m <> [].

Definition device_key (s : PrivateDeviceState) : option (AccountNumber * DeviceId) :=
  (fun d => (account_number d, id (device d))) <$> state_device s.

(** What a round from [m] to [m'] with effects [es] may do, given the senders [txs] that came in. *)
Record step_ok (env : Env) (txs : list Tx) (m m' : AccountManager) (es : list Effect) : Prop := {
  step_inv : manager_ok m';
  step_conserved : omap settled es ++ pending m' ≡ₚ pending m ++ txs;
  step_heard : forall l, l ∈ listeners m' -> foldl (heard l) (data m) es = data m';
  step_listeners : forall l, l ∈ listeners m' -> l ∈ listeners m;
  step_removed : forall n i, SpawnRemoval n i ∈ es ->
    device_key (data m) = Some (n, i) /\ (id ∘ device <$> state_device (data m')) <> Some i;
  step_kept : forall n i, device_key (data m) = Some (n, i) ->
    (id ∘ device <$> state_device (data m')) = Some i \/ data m' = Revoked \/ SpawnRemoval n i ∈ es;
  step_cached : write env = Written -> cacher m = Content (Some (data m)) ->
    cacher m' = Content (Some (data m'));
}.

Create HintDb act.
#[global] Hint Unfold cacher_write mret mbind Act_ret Act_bind panic reads modify emit reply set_call notify write_cache
  answer_all drain_validation drain_rotation drain_expiry drain_data drain_device_requests_with_err set
  revoke_device logout initiate_key_rotation validation_call expiry_call spawn_timed_key_rotation
  needs_validation push_validation push_rotation push_expiry handle_validation_request
  handle_voucher_submission handle_expiry_request handle_rotation_request consume_login
  consume_voucher_result consume_expiry_result rotate_if_requested consume_validation
  consume_rotation_result : act.

(** ** Effects of a list of senders or listeners *)
Lemma settled_send r txs : omap settled (map (fun tx => Send tx r) txs) = txs.
Proof. induction txs as [|tx txs IH]; [done|]. csimpl. by rewrite IH. Qed.
Lemma settled_dropped txs : omap settled (map Dropped txs) = txs.
Proof. induction txs as [|tx txs IH]; [done|]. csimpl. by rewrite IH. Qed.
Lemma settled_notify e ls : omap settled (map (fun k => Notify k e) ls) = [].
Proof. induction ls as [|k ls IH]; [done|]. csimpl. by rewrite IH. Qed.

Lemma heard_send l s r txs : foldl (heard l) s (map (fun tx => Send tx r) txs) = s.
Proof. induction txs as [|tx txs IH]; simpl; [done | by rewrite IH]. Qed.
Lemma heard_dropped l s txs : foldl (heard l) s (map Dropped txs) = s.
Proof. induction txs as [|tx txs IH]; simpl; [done | by rewrite IH]. Qed.
Lemma heard_expiry l s t ls : foldl (heard l) s (map (fun k => Notify k (Expiry t)) ls) = s.
Proof. induction ls as [|k ls IH]; simpl; [done | by rewrite IH]. Qed.
Lemma heard_settled l s ev ls :
  s = event_state ev -> foldl (heard l) s (map (fun k => Notify k (DeviceChanged ev)) ls) = event_state ev.
Proof. intros ->. induction ls as [|k ls IH]; simpl; [done|]. by destruct (decide (k = l)). Qed.
Lemma heard_notify l s ev ls :
  l ∈ ls -> foldl (heard l) s (map (fun k => Notify k (DeviceChanged ev)) ls) = event_state ev.
Proof.
  induction ls as [|k ls IH]; simpl; [set_solver|]. intros Hl.
  destruct (decide (k = l)); [by apply heard_settled | apply IH; set_solver].
Qed.

Lemma no_removal_send n i r txs : SpawnRemoval n i ∉ map (fun tx => Send tx r) txs.
Proof. induction txs; set_solver. Qed.
Lemma no_removal_dropped n i txs : SpawnRemoval n i ∉ map Dropped txs.
Proof. induction txs; set_solver. Qed.
Lemma no_removal_notify n i e ls : SpawnRemoval n i ∉ map (fun k => Notify k e) ls.
Proof. induction ls; set_solver. Qed.

(** Permutations of concatenations, by counting. *)
Lemma permutation_by_count (l k : list nat) :
  (forall x, count_occ Nat.eq_dec l x = count_occ Nat.eq_dec k x) -> l ≡ₚ k.
Proof. apply (Permutation_count_occ Nat.eq_dec). Qed.

Ltac by_count :=
  apply permutation_by_count; intros ?;
  repeat first [ progress (rewrite ?count_occ_app; simpl) | destruct (Nat.eq_dec _ _) ]; lia.

Lemma still_listening (f : nat -> bool) (l : nat) (ls : list nat) : l ∈ filter (fun k => f k = true) ls -> l ∈ ls.
Proof. by intros [_ ?]%list_elem_of_filter. Qed.

Create HintDb effects discriminated.
#[local] Hint Rewrite settled_send settled_dropped settled_notify heard_send heard_dropped heard_expiry
  @omap_app @foldl_app @app_nil_r : effects.

Section props.
Context `{Curve}.

(** A handler, run symbolically: every branch ends in a manager given field by field. *)
Definition acts (c : Act unit) (m : AccountManager) (Q : AccountManager -> list Effect -> Prop) : Prop :=
  match c m with Some (_, m', es) => Q m' es | None => False end.

Ltac in_effects :=
  repeat match goal with
  | Hin : SpawnRemoval _ _ ∈ _ |- _ =>
      first [ by apply no_removal_send in Hin | by apply no_removal_dropped in Hin
            | by apply no_removal_notify in Hin
            | apply elem_of_app in Hin as [Hin|Hin]
            | apply elem_of_cons in Hin as [Hin|Hin]; simplify_eq
            | by apply not_elem_of_nil in Hin ]
  end.

Ltac step_fields :=
  repeat match goal with
  | Hd : decide _ = _ |- _ => clear Hd
  | Hd : (_ <=? _)%Z = _ |- _ => clear Hd
  | Hd : ~ (_ <> _) |- _ => apply dec_stable in Hd
  end;
  split; unfold device_key; simpl; intros; subst; simpl in *;
  [ unfold manager_ok in *; simpl in *; split; intros; simplify_eq/=;
    first [ done | match goal with |- ?l ++ _ <> [] => by destruct l end | naive_solver ]
  | unfold pending; csimpl; autorewrite with effects; csimpl; autorewrite with effects; by_count
  | csimpl; autorewrite with effects; csimpl; autorewrite with effects;
    first [ done | by rewrite ?heard_notify | naive_solver ]
  | first [ done | eapply still_listening; eassumption ]
  | in_effects; simplify_eq/=; split; congruence
  | simplify_eq/=; first [ left; congruence | right; left; congruence | right; right; set_solver ]
  | congruence ].

Ltac run_act m :=
  destruct m as [cch dat ri ls lv vr er rr dr cc]; destruct dat; unfold acts; autounfold with act; cbn;
  repeat first [progress cbn | destruct_match].

(** ** The handlers *)
Lemma consume_login_ok env r tx m :
  current_api_call m = None -> acts (consume_login env r tx) m (step_ok env [tx] m).
Proof. intros Hm. run_act m; simpl in Hm; simplify_eq; step_fields. Qed.

Lemma consume_voucher_ok env r tx m :
  current_api_call m = None -> acts (consume_voucher_result env r tx) m (step_ok env [tx] m).
Proof. intros Hm. run_act m; simpl in Hm; simplify_eq; step_fields. Qed.

Lemma consume_expiry_ok env r m :
  current_api_call m = None -> acts (consume_expiry_result env r) m (step_ok env [] m).
Proof. intros Hm. run_act m; simpl in Hm; simplify_eq; step_fields. Qed.

Lemma update_matching d p :
  pubkey d = public_key (private_key (wg_data p)) -> exists p', PrivateDevice_update d p = Ok p'.
Proof. intros Hk. unfold PrivateDevice_update. rewrite decide_False by tauto. eauto. Qed.

Lemma consume_validation_ok env r m :
  current_api_call m = None -> logged_in (data m) = true ->
  acts (consume_validation env r) m (step_ok env [] m).
Proof.
  intros Hm Hl. run_act m; simpl in Hm, Hl; simplify_eq; try solve [step_fields].
  edestruct update_matching; [eassumption | congruence].
Qed.

Lemma consume_rotation_ok env r m :
  current_api_call m = None -> logged_in (data m) = true ->
  acts (consume_rotation_result env r) m (step_ok env [] m).
Proof. intros Hm Hl. run_act m; simpl in Hm, Hl; simplify_eq; step_fields. Qed.

Lemma handle_command_ok env c m :
  manager_ok m -> (forall tx, c <> Shutdown tx) ->
  acts (handle_command env c) m (step_ok env (requested (Command (Some c))) m).
Proof.
  intros Hm Hc. destruct c; [..|by edestruct Hc]; unfold handle_command; clear Hc; run_act m; step_fields.
Qed.

(** ** A round *)
Lemma loop_head_fields m :
  data (loop_head m) = data m /\ listeners (loop_head m) = listeners m /\ cacher (loop_head m) = cacher m
  /\ pending (loop_head m) = pending m /\ validation_requests (loop_head m) = validation_requests m.
Proof.
  unfold loop_head, is_idle, spawn_timed_key_rotation, pending.
  destruct (current_api_call m) eqn:E; simpl; rewrite ?E; [done|]. by destruct (data m).
Qed.

Lemma loop_head_ok m : manager_ok m -> manager_ok (loop_head m).
Proof.
  unfold loop_head, is_idle, spawn_timed_key_rotation, manager_ok. intros [H1 H2].
  destruct (current_api_call m) eqn:E; simpl; rewrite ?E; [done|]. destruct (data m); naive_solver.
Qed.

(** Only the fields that [loop_head] leaves alone, and the senders, matter for where a round starts. *)
Lemma step_ok_from env txs m1 m2 txs' m' es :
  step_ok env txs m1 m' es ->
  data m1 = data m2 -> listeners m1 = listeners m2 -> cacher m1 = cacher m2 ->
  pending m1 ++ txs ≡ₚ pending m2 ++ txs' -> step_ok env txs' m2 m' es.
Proof.
  intros [? Hp ? ? ? ? ?] Hd Hl Hc Hp'. rewrite Hd in *. rewrite Hl in *. rewrite Hc in *.
  split; try done. by rewrite Hp.
Qed.

Definition round_ok (env : Env) (e : Event) (m : AccountManager) (r : Round) : Prop :=
  match r with
  | Continue m' es => step_ok env (requested e) m m' es
  | Done es => omap settled es ≡ₚ pending m ++ requested e
  | Panic => False
  end.

Lemma round_acts env e m0 c m txs :
  acts c m (step_ok env txs m) ->
  data m = data m0 -> listeners m = listeners m0 -> cacher m = cacher m0 ->
  pending m ++ txs ≡ₚ pending m0 ++ requested e ->
  round_ok env e m0 (round c m).
Proof.
  unfold acts, round, round_ok. intros Hc ? ? ? ?. destruct (c m) as [[[[] m'] es]|]; [|done].
  eapply step_ok_from; eauto.
Qed.

Lemma pending_without m c :
  current_api_call m = Some c -> pending (set_current_api_call None m) ++ call_tx (Some c) ≡ₚ pending m.
Proof. intros Hc. unfold pending. simpl. rewrite Hc, !app_nil_r, <- !app_assoc. done. Qed.

Lemma run_round_ok env e m r :
  manager_ok m -> run_round env e m = Some r -> round_ok env e m r.
Proof.
  intros Hm Hr. unfold run_round in Hr.
  destruct (loop_head_fields m) as (Hd & Hl & Hc & Hp & Hv).
  apply loop_head_ok in Hm. set (m1 := loop_head m) in *.
  destruct e as [[c|]|resp].
  - assert (Hcmd : (forall tx, c <> Shutdown tx) -> r = round (handle_command env c) m1 ->
              round_ok env (Command (Some c)) m r).
    { intros Hns ->. eapply round_acts; [by apply handle_command_ok | done..| by rewrite Hp]. }
    destruct c; try (by apply Hcmd; [|by simplify_eq]). simplify_eq. unfold round_ok. csimpl.
    rewrite omap_app, settled_dropped, Hp. done.
  - simplify_eq. unfold round_ok. csimpl. by rewrite settled_dropped, Hp, app_nil_r.
  - apply bind_Some in Hr as (call & Ecall & Hr). apply bind_Some in Hr as (res & Hpoll & [= <-]).
    assert (Hw := pending_without _ _ Ecall).
    assert (Hlog : about_device call <> None -> logged_in (data (set_current_api_call None m1)) = true).
    { intros Ha. simpl. by eapply Hm. }
    destruct call, resp; simplify_eq/=.
    + eapply round_acts; [by apply consume_login_ok | done.. | by rewrite Hw, Hp, app_nil_r].
    + eapply round_acts; [apply consume_rotation_ok; [done | by apply Hlog] | done.. | by rewrite Hw, Hp, app_nil_r].
    + eapply round_acts; [apply consume_rotation_ok; [done | by apply Hlog] | done.. | by rewrite Hw, Hp, app_nil_r].
    + eapply round_acts; [apply consume_validation_ok; [done | by apply Hlog] | done.. | by rewrite Hw, Hp, app_nil_r].
    + eapply round_acts; [by apply consume_voucher_ok | done.. | by rewrite Hw, Hp, app_nil_r].
    + eapply round_acts; [by apply consume_expiry_ok | done.. | by rewrite Hw, Hp, app_nil_r].
Qed.
(** ** Runs *)
Definition requests (es : list (Env * Event)) : list Tx := concat (map (fun x => requested x.2) es).

Record run_ok (m0 : AccountManager) (es : list (Env * Event)) (m : AccountManager) (out : list Effect) : Prop := {
  run_inv : manager_ok m;
  run_conserved : omap settled out ++ pending m ≡ₚ pending m0 ++ requests es;
  run_heard : forall l, l ∈ listeners m -> l ∈ listeners m0 /\ foldl (heard l) (data m0) out = data m;
  run_cached : Forall (fun x => write x.1 = Written) es -> cacher m0 = Content (Some (data m0)) ->
    cacher m = Content (Some (data m));
}.

Lemma manager_run_ok m0 es m out : manager_ok m0 -> manager_run m0 es m out -> run_ok m0 es m out.
Proof.
  intros H0. induction 1 as [m|m es m1 out env e m2 out' Hrun IH Hround].
  - split; [done | by rewrite app_nil_r | done | done].
  - specialize (IH H0). destruct IH as [Hinv Hcons Hheard Hcache].
    apply run_round_ok in Hround; [|done]. destruct Hround as [Hi Hp Hh Hl _ _ Hc]. split.
    + done.
    + unfold requests. rewrite map_app, concat_app. simpl. rewrite app_nil_r.
      rewrite omap_app, (app_assoc (pending m)). fold (requests es). rewrite <- Hcons, <- app_assoc.
      rewrite Hp. by rewrite <- app_assoc.
    + intros l Hin. specialize (Hl _ Hin). destruct (Hheard _ Hl) as [? Hf]. split; [done|].
      rewrite foldl_app, Hf. by apply Hh.
    + intros Hw Hc0. apply Forall_app in Hw as [Hw1 [Hw2 _]%Forall_cons]. apply Hc; [done|]. by apply Hcache.
Qed.

Lemma spawn_ok w f i l s m0 :
  manager_spawn w f i l = Ok (s, m0) ->
  manager_ok m0 /\ pending m0 = [] /\ data m0 = s /\ (w = Written -> cacher m0 = Content (Some s)).
Proof.
  unfold manager_spawn, DeviceCacher_new. intros Hs.
  destruct f as [| |[c|]]; destruct w; simplify_eq/=; unfold manager_ok; naive_solver.
Qed.

(** C23. The account manager loses no request.  It never panics; over any run, however commands, results and
    failed writes interleave, the senders of all requests are, up to order, those that were answered or
    dropped and those that still wait; and when it stops, none is left. *)
Theorem account_requests_conserved w f i l s m0 es m out :
  manager_spawn w f i l = Ok (s, m0) -> manager_run m0 es m out ->
  omap settled out ++ pending m ≡ₚ requests es
  /\ forall env e, run_round env e m <> Some Panic
     /\ forall es', run_round env e m = Some (Done es') ->
          omap settled (out ++ es') ≡ₚ requests (es ++ [(env, e)]).
Proof.
  intros (H0 & Hp0 & _)%spawn_ok Hrun. apply manager_run_ok in Hrun as [Hinv Hcons _ _]; [|done].
  rewrite Hp0 in Hcons. split; [done|]. intros env e. split.
  - intros Hr. by apply run_round_ok in Hr.
  - intros es' Hr. apply run_round_ok in Hr; [|done]. unfold round_ok in Hr.
    unfold requests. rewrite map_app, concat_app. simpl. rewrite app_nil_r, omap_app, Hr.
    fold (requests es). simpl in Hcons. by rewrite app_assoc, Hcons.
Qed.

(** C33. Everyone agrees about the device.  A listener that follows the events from the state it was given
    at the start knows the manager's state at all times; and as long as writes succeed the file holds it
    too, so that a daemon restarted at any time has the same device. *)
Theorem device_state_agrees w f i l s m0 es m out :
  manager_spawn w f i l = Ok (s, m0) -> manager_run m0 es m out ->
  (l ∈ listeners m -> foldl (heard l) s out = data m)
  /\ (w = Written -> Forall (fun x => write x.1 = Written) es ->
      forall w', DeviceCacher_new w' (cacher m) = (Content (Some (data m)), Ok (data m))).
Proof.
  intros (H0 & _ & Hd & Hw0)%spawn_ok Hrun. apply manager_run_ok in Hrun as [_ _ Hh Hc]; [|done].
  rewrite Hd in *. split; [intros Hl; by apply Hh|]. intros Hw Hes w'. by rewrite Hc by auto.
Qed.

(** ** When a device is revoked *)
Definition says_invalid {A} (r : result A Error) : bool := match r with Err (InvalidAccount | InvalidDevice) => true | _ => false end.
(** The API's answer to a call other than a login is that the account or the device is invalid. *)
Definition declared_invalid (e : Event) : bool :=
  match e with
  | Ready (RotationResponse r) => says_invalid r
  | Ready (ValidationResponse r) => says_invalid r
  | Ready (VoucherResponse r) => says_invalid r
  | Ready (ExpiryResponse r) => says_invalid r
  | _ => false
  end.

Definition not_revoked (m m' : AccountManager) (_ : list Effect) : Prop := data m' = Revoked -> data m = Revoked.

Lemma handle_command_revokes env c m :
  (forall tx, c <> Shutdown tx) -> manager_ok m -> acts (handle_command env c) m (not_revoked m).
Proof. intros Hc Hm. destruct c; [..|by edestruct Hc]; unfold handle_command, not_revoked; clear Hc Hm; run_act m; done. Qed.

Lemma consume_revokes env call r res m :
  call_poll call r = Some res -> declared_invalid (Ready r) = false ->
  match consume_api_result env res m with Some (_, m', es) => not_revoked m m' es | None => True end.
Proof.
  intros Hp Hd. unfold consume_api_result, not_revoked. destruct call, r; simplify_eq/=; run_act m; done.
Qed.

Lemma run_round_revokes env e m m' es :
  manager_ok m -> run_round env e m = Some (Continue m' es) -> data m' = Revoked ->
  data m = Revoked \/ declared_invalid e = true.
Proof.
  intros Hm Hr Hd. destruct (declared_invalid e) eqn:Hi; [by right|]. left. unfold run_round in Hr.
  destruct (loop_head_fields m) as (<- & _). apply loop_head_ok in Hm. set (m1 := loop_head m) in *. destruct e as [[c|]|r]; [|done|].
  - assert (Hc : (forall tx, c <> Shutdown tx) /\ round (handle_command env c) m1 = Continue m' es)
      by (destruct c; simplify_eq; naive_solver).
    destruct Hc as [Hns Hc]. pose proof (handle_command_revokes env c m1 Hns Hm) as Ha.
    unfold acts, round in *. destruct (handle_command env c m1) as [[[u m2] es2]|]; [|done]. by simplify_eq; apply Ha.
  - apply bind_Some in Hr as (call & _ & Hr). apply bind_Some in Hr as (res & Hpoll & [= Hr]).
    pose proof (consume_revokes env _ _ _ (set_current_api_call None m1) Hpoll Hi) as Ha. unfold round in Hr.
    destruct (consume_api_result _ _ _) as [[[u m2] es2]|]; [|done]. by simplify_eq; apply Ha.
Qed.

(** C32. Devices are neither leaked nor removed by mistake.  The manager removes a device from the account
    only if it was the current one and no longer is; and the current device stays current unless its removal
    is started, or it is revoked because in this very round the API answered a call other than a login with
    an invalid account or an invalid device. *)
Theorem devices_not_leaked w f i l s m0 es m out env e m' es' :
  manager_spawn w f i l = Ok (s, m0) -> manager_run m0 es m out ->
  run_round env e m = Some (Continue m' es') ->
  (forall n k, SpawnRemoval n k ∈ es' ->
     device_key (data m) = Some (n, k) /\ id ∘ device <$> state_device (data m') <> Some k)
  /\ (forall n k, device_key (data m) = Some (n, k) ->
     id ∘ device <$> state_device (data m') = Some k
     \/ (data m' = Revoked /\ declared_invalid e = true)
     \/ SpawnRemoval n k ∈ es').
Proof.
  intros (H0 & _)%spawn_ok Hrun Hr. apply manager_run_ok in Hrun as [Hinv _ _ _]; [|done].
  pose proof (run_round_revokes _ _ _ _ _ Hinv Hr) as Hrev. apply run_round_ok in Hr; [|done]. split; [apply Hr|].
  intros n k Hk. destruct (step_kept _ _ _ _ _ Hr n k Hk) as [?|[Hd|?]]; [by left| |by right; right].
  destruct (Hrev Hd) as [E|?]; [by rewrite E in Hk | by right; left].
Qed.
(** ** Keys *)
(** A call in progress is about the current device; [SetData] can replace the device under it. *)
Definition call_current (m : AccountManager) : Prop :=
  forall c k, current_api_call m = Some c -> about_device c = Some k -> device_key (data m) = Some k.

Definition sets_data (e : Event) : bool :=
  match e with Command (Some (SetData _ _)) => true | _ => false end.

Ltac call_fields := unfold call_current, device_key; simpl; intros; simplify_eq/=; naive_solver.

Lemma handle_command_current env c m :
  manager_ok m -> call_current m -> sets_data (Command (Some c)) = false ->
  acts (handle_command env c) m (fun m' _ => call_current m').
Proof.
  intros Hm Hcc Hs. assert (Ha := Hcc). unfold call_current, device_key in Hcc.
  destruct c; try done; unfold handle_command; clear Hs Hm; run_act m; simpl in Hcc; try call_fields.
Qed.

Lemma consume_current env res m m' es :
  current_api_call m = None -> consume_api_result env res m = Some (tt, m', es) -> call_current m'.
Proof.
  intros Hm Hc. cut (match consume_api_result env res m with Some (_, m', _) => call_current m' | None => True end).
  { by rewrite Hc. }
  clear Hc. unfold consume_api_result.
  destruct res; run_act m; simpl in Hm; simplify_eq; try done; call_fields.
Qed.

Lemma loop_head_current m : call_current m -> call_current (loop_head m).
Proof.
  intros Hcc. unfold loop_head, is_idle, spawn_timed_key_rotation.
  destruct (current_api_call m) eqn:E; [exact Hcc|].
  unfold call_current, device_key. simpl. destruct (data m); naive_solver.
Qed.

(** A round that consumes the result of the call in progress. *)
Lemma ready_round env r m m' es :
  run_round env (Ready r) m = Some (Continue m' es) ->
  exists c res, current_api_call (loop_head m) = Some c /\ call_poll c r = Some res
    /\ consume_api_result env res (set_current_api_call None (loop_head m)) = Some (tt, m', es).
Proof.
  unfold run_round. intros Hr. apply bind_Some in Hr as (c & Hc & Hr).
  apply bind_Some in Hr as (res & Hp & Hr%Some_inj). exists c, res. repeat split; [done..|].
  unfold round in Hr. by destruct (consume_api_result _ _ _) as [[[[] ?] ?]|]; simplify_eq.
Qed.

Lemma round_current env e m m' es :
  manager_ok m -> call_current m -> sets_data e = false ->
  run_round env e m = Some (Continue m' es) -> call_current m'.
Proof.
  intros Hm Hcc%loop_head_current Hs Hr. destruct e as [[c|]|resp]; [|done|].
  - apply loop_head_ok in Hm. unfold run_round in Hr.
    assert (Ha := handle_command_current env c _ Hm Hcc Hs). unfold acts in Ha.
    assert (Hround : round (handle_command env c) (loop_head m) = Continue m' es).
    { destruct c; first [discriminate Hr | exact (Some_inj _ _ Hr)]. }
    unfold round in Hround. by destruct (handle_command env c (loop_head m)) as [[[[] ?] ?]|]; simplify_eq.
  - apply ready_round in Hr as (c & res & _ & _ & E). by eapply consume_current in E.
Qed.

Lemma run_current m0 es m out :
  manager_ok m0 -> call_current m0 -> Forall (fun x => sets_data x.2 = false) es ->
  manager_run m0 es m out -> call_current m.
Proof.
  intros H0 Hc0 Hs Hrun. induction Hrun as [m|m es m1 out env e m2 out' Hrun IH Hround]; [done|].
  apply Forall_app in Hs as [Hs1 [Hs2 _]%Forall_cons].
  eapply round_current; [|by apply IH | exact Hs2 | exact Hround].
  by eapply run_inv, manager_run_ok.
Qed.

(** What the service has asked the API for when the call of a rotation ends. *)
Definition rotates (host : Host) (proxy : DevicesProxy) (c : Call) (r : result WireguardData Error) : Prop :=
  match c with
  | OneshotKeyRotation n i => rotate_key host proxy n i = Some r
  | TimerKeyRotation n i => exists attempts, rotate_key_with_backoff host proxy attempts n i = Some r
  | _ => False
  end.

Lemma retry_future_answer {D T} `{Delays D} (f : nat -> T) sr fuel : forall k (d : D) r n slept,
  retry_future f sr fuel k d = Some (r, n, slept) -> exists j, r = f j.
Proof.
  induction fuel as [|fuel IH]; intros k d r n slept; simpl; [done|]. intros Hr.
  destruct (sr k (f k)); [|simplify_eq; eauto]. destruct (next d) as [[delay d']|]; [|simplify_eq; eauto].
  apply bind_Some in Hr as ([[r' n'] s'] & Hr & ?). simplify_eq. eauto.
Qed.

Lemma new_key_answer host (answers : Answers AssociatedAddresses) wd r :
  new_key host r = Ok wd -> (exists j, r = answers j) ->
  private_key wd = new_from_random host /\ exists j, answers j = Ok (addresses wd).
Proof.
  unfold new_key. intros Hk [j ->]. destruct (answers j) eqn:E; simplify_eq/=. eauto.
Qed.

Lemma rotates_answer host proxy c n i wd :
  rotates host proxy c (Ok wd) -> about_device c = Some (n, i) ->
  exists j, proxy_replace_wg_key proxy n i (public_key (private_key wd)) j = Ok (addresses wd).
Proof.
  assert (Hk : forall r,
    new_key host r = Ok wd ->
    (exists j, r = proxy_replace_wg_key proxy n i (public_key (new_from_random host)) j) ->
    exists j, proxy_replace_wg_key proxy n i (public_key (private_key wd)) j = Ok (addresses wd)).
  { intros r Hr Hj. edestruct new_key_answer as [-> ?]; eauto. }
  destruct c; simpl; intros Hr Ha; simplify_eq; try done.
  - destruct Hr as [attempts Hr]. apply fmap_Some in Hr as (r & Hr & Hw). symmetry in Hw. apply (Hk r Hw).
    unfold background in Hr. apply bind_Some in Hr as ([[r' ?] ?] & Hr & ?). simplify_eq.
    exact (retry_future_answer _ _ _ _ _ _ _ _ Hr).
  - apply fmap_Some in Hr as (r & Hr & Hw). symmetry in Hw. apply (Hk r Hw).
    unfold action in Hr. apply bind_Some in Hr as ([[r' ?] ?] & Hr & ?). simplify_eq.
    exact (retry_future_answer _ _ _ _ _ _ _ _ Hr).
Qed.

Lemma rotation_stored env wd m d :
  data m = LoggedIn d -> write env = Written ->
  acts (consume_rotation_result env (Ok wd)) m (fun m' _ => data m' = LoggedIn (with_wg_data wd d)).
Proof. intros Hd Hw. run_act m; simpl in Hd; simplify_eq/=; congruence. Qed.

Lemma mismatch_rotates env dev m d :
  data m = LoggedIn d -> validation_requests m <> [] ->
  pubkey dev <> public_key (private_key (wg_data (device d))) ->
  acts (consume_validation env (Ok dev)) m
    (fun m' _ => current_api_call m' = Some (OneshotKeyRotation (account_number d) (id (device d)))
                 /\ validation_requests m' = validation_requests m).
Proof.
  intros Hd Hv Hk. run_act m; simpl in Hd, Hv; simplify_eq/=; try done.
  by match goal with He : rr ++ vr = [] |- _ => apply app_eq_nil in He as [_ ->] end.
Qed.

(** The key stays in step with the API, as long as the device is not replaced from outside while a call
    is in progress.  When a rotation has succeeded, the stored device is the one it was made for, with the
    new key and the addresses the API gave in exchange for its public half; and when a validation shows
    another key, a rotation for the current device is started, and those who asked wait for its result. *)
Theorem key_in_sync w f interval l s m0 es m out :
  manager_spawn w f interval l = Ok (s, m0) -> manager_run m0 es m out ->
  Forall (fun x => sets_data x.2 = false) es ->
  (forall env host proxy c n i wd m' es',
     current_api_call (loop_head m) = Some c -> about_device c = Some (n, i) ->
     rotates host proxy c (Ok wd) -> write env = Written ->
     run_round env (Ready (RotationResponse (Ok wd))) m = Some (Continue m' es') ->
     exists d j, data m' = LoggedIn d /\ account_number d = n /\ id (device d) = i /\ wg_data (device d) = wd
       /\ proxy_replace_wg_key proxy n i (public_key (private_key wd)) j = Ok (addresses wd))
  /\ (forall env n i dev m' es',
     current_api_call m = Some (Validation n i) ->
     run_round env (Ready (ValidationResponse (Ok dev))) m = Some (Continue m' es') ->
     exists d, data m = LoggedIn d /\ account_number d = n /\ id (device d) = i
       /\ (pubkey dev <> public_key (private_key (wg_data (device d))) ->
           current_api_call m' = Some (OneshotKeyRotation n i)
           /\ validation_requests m' = validation_requests m)).
Proof.
  intros Hsp Hrun Hs. destruct (spawn_ok _ _ _ _ _ _ Hsp) as (H0 & _).
  assert (Hcur0 : call_current m0).
  { unfold manager_spawn in Hsp. destruct (DeviceCacher_new w f) as [? [|]]; by simplify_eq/=. }
  assert (Hcur : call_current m) by by eapply run_current.
  apply manager_run_ok in Hrun as [Hinv _ _ _]; [|done].
  destruct (loop_head_fields m) as (Hd & _ & _ & _ & Hv). split.
  - intros env host proxy c n i wd m' es' Hc Ha Hrot Hw (c' & res & Hc' & Hp & Hr)%ready_round.
    assert (Hk := loop_head_current _ Hcur _ _ Hc Ha). unfold device_key in Hk.
    destruct (data (loop_head m)) as [d| |] eqn:Ed; simplify_eq/=.
    destruct (rotates_answer _ _ _ _ _ _ Hrot Ha) as [j Hj].
    exists (with_wg_data wd d), j. repeat split; [|done].
    assert (Hst := rotation_stored env wd (set_current_api_call None (loop_head m)) d Ed Hw).
    unfold acts in Hst. destruct c; simplify_eq/=; by rewrite Hr in Hst.
  - intros env n i dev m' es' Hc (c & res & Hc' & Hp & Hr)%ready_round.
    assert (Hk := Hcur _ _ Hc eq_refl). unfold device_key in Hk.
    destruct (data m) as [d| |] eqn:Ed; simplify_eq/=. exists d. split_and!; [done..|]. intros Hne.
    unfold loop_head, is_idle in *. rewrite Hc in *. simplify_eq/=.
    assert (Hst := mismatch_rotates env dev (set_current_api_call None m) d Ed (proj2 Hinv _ _ Hc) Hne).
    unfold acts in Hst. by rewrite Hr in Hst.
Qed.
End props.

(** ** When keys are rotated and devices are checked *)
(** An interval that is accepted is between a day and thirty days; with it, the timer of a key that was
    not created in the future never fires before the key is that old, and sleeps for at least a minute
    and at most the interval. *)
Theorem rotation_timer_bounds interval r created now :
  RotationInterval_new interval = Ok r -> (created <= now)%Z ->
  let t := key_rotation_timer r created now in
  (MIN_ROTATION_INTERVAL <= as_duration r <= MAX_ROTATION_INTERVAL)%Z
  /\ (created + as_duration r <= now + t)%Z /\ (from_secs 60 <= t <= as_duration r)%Z.
Proof.
  unfold RotationInterval_new, key_rotation_timer, from_secs, NANOS_PER_SEC.
  intros Hr Hc. destruct (Z.ltb_spec interval MIN_ROTATION_INTERVAL); [done|].
  destruct (Z.ltb_spec MAX_ROTATION_INTERVAL interval); [done|]. simplify_eq/=.
  assert (MIN_ROTATION_INTERVAL = 86400000000000)%Z by done.
  assert (0 <= Z.quot (now - created) (10 ^ 9))%Z by (apply Z.quot_pos; lia).
  assert (Z.quot (now - created) (10 ^ 9) * 10 ^ 9 <= now - created)%Z.
  { rewrite Z.mul_comm. apply Z.mul_quot_le; lia. }
  destruct (Z.ltb_spec (Z.quot (now - created) (10 ^ 9)) 0); [lia|].
  change (10 ^ 9)%Z with 1000000000%Z in *. lia.
Qed.

Inductive HandlerInput : Type := Transition (t : TunnelStateTransition) | CheckOver (r : result unit Error).

(** What lets the next check be made. *)
Definition resets (x : HandlerInput) : bool :=
  match x with
  | Transition (TrDisconnected _) | Transition (TrConnected _) | Transition (TrError _) => true
  | CheckOver (Err e) => should_continue_retries e
  | _ => false
  end.

Definition handler_step (x : HandlerInput) (h : TunnelStateChangeHandler) : TunnelStateChangeHandler * bool :=
  match x with
  | Transition t => handle_state_transition t h
  | CheckOver r => (check_device_validity r h, false)
  end.

(** The checks started over a sequence of inputs. *)
Fixpoint checks (xs : list HandlerInput) (h : TunnelStateChangeHandler) : nat :=
  match xs with
  | [] => 0
  | x :: xs => let '(h, check) := handler_step x h in (if check : bool then 1 else 0) + checks xs h
  end.

Lemma no_checks xs h : can_retry h = false -> Forall (fun x => resets x = false) xs -> checks xs h = 0.
Proof.
  intros Hh Hx. revert h Hh. induction Hx as [|x xs Hr _ IH]; intros h Hh; simpl; [done|].
  assert (Hn : exists h', handler_step x h = (h', false) /\ can_retry h' = false).
  { unfold handler_step, handle_state_transition, should_check_device_validity, check_device_validity,
      update_retry_bool. destruct x as [[]|[]]; simplify_eq/=; rewrite ?Hh, ?Hr; repeat destruct_match; eauto. }
  destruct Hn as (h' & -> & Hh'). by apply IH.
Qed.

Lemma connecting_step e b a :
  (0 <= a < 2 ^ 64 - 1)%Z ->
  handle_state_transition (TrConnecting e) {| can_retry := b; wg_retry_attempt := a |}
  = if ((a + 1) mod 3 =? 0)%Z then ({| can_retry := false; wg_retry_attempt := a + 1 |}, b)
    else ({| can_retry := b; wg_retry_attempt := a + 1 |}, false).
Proof.
  intros Ha. unfold handle_state_transition, should_check_device_validity,
    should_check_device_validity_on_attempt, WG_DEVICE_CHECK_THRESHOLD. simpl.
  rewrite Z.mod_small by lia. rewrite (proj2 (Z.ltb_lt 0 (a + 1))) by lia. simpl. by destruct_match.
Qed.

(** The device is checked when no tunnel comes up, and not all the time.  A check is started only when
    the number of attempts is a multiple of three; after it no other is started until the tunnel has left
    the loop of attempts or the check has failed for lack of a network; and when a check may be made, one
    is started within the next three attempts. *)
Theorem device_checks_debounced t h h' :
  handle_state_transition t h = (h', true) ->
  (0 < wg_retry_attempt h' /\ wg_retry_attempt h' mod 3 = 0)%Z
  /\ (forall xs, Forall (fun x => resets x = false) xs -> checks xs h' = 0)
  /\ (forall g e1 e2 e3, can_retry g = true -> (0 <= wg_retry_attempt g < 2 ^ 64 - 3)%Z ->
        checks [Transition (TrConnecting e1); Transition (TrConnecting e2); Transition (TrConnecting e3)] g = 1).
Proof.
  intros Ht. unfold handle_state_transition, should_check_device_validity,
    should_check_device_validity_on_attempt, WG_DEVICE_CHECK_THRESHOLD in Ht. split; [|split].
  - repeat destruct_match_in Ht; simplify_eq/=; lia.
  - intros xs. apply no_checks. by repeat destruct_match_in Ht; simplify_eq/=.
  - intros [b a] e1 e2 e3 Hg Hr. simpl in Hg, Hr. subst b. simpl. rewrite connecting_step by lia.
    destruct (Z.eqb_spec ((a + 1) mod 3) 0); rewrite connecting_step by lia;
      destruct (Z.eqb_spec ((a + 1 + 1) mod 3) 0); rewrite connecting_step by lia;
      destruct (Z.eqb_spec ((a + 1 + 1 + 1) mod 3) 0);
      first [done | exfalso; Z.to_euclidean_division_equations; lia].
Qed.

(** * The account manager on concrete runs

    The theorems of [DeviceProps] applied, and three runs that show what the manager does with requests
    whose call is replaced. *)

(** Runs by computation. *)
Definition run_all `{Curve} (es : list (Env * Event)) (m : AccountManager) : option (AccountManager * list Effect) :=
  foldl (fun acc x => '(m, out) ← acc;
                      match run_round x.1 x.2 m with Some (Continue m' o) => Some (m', out ++ o) | _ => None end)
    (Some (m, [])) es.

Lemma run_all_sound `{Curve} es m m' out : run_all es m = Some (m', out) -> manager_run m es m' out.
Proof.
  unfold run_all. revert m' out. induction es as [|[env e] es IH] using rev_ind; intros m' out Hr.
  - simplify_eq/=. constructor.
  - rewrite foldl_app in Hr. simpl in Hr. apply bind_Some in Hr as ([m1 o1] & H1 & H2).
    destruct (run_round env e m1) as [[m2 o2| |]|] eqn:E; simplify_eq. econstructor; eauto.
Qed.

Definition curve_example : Curve := fun k => map (Z.add 1) k.
#[local] Existing Instance curve_example.

Definition env_example : Env := {| write := Written; now := 0; alive := fun _ => true |}.
Definition addresses_example : AssociatedAddresses := {| ipv4_address := (1, 32)%Z; ipv6_address := (2, 128)%Z |}.
Definition key_example (k : Z) : WireguardData :=
  {| private_key := [k]; addresses := addresses_example; key_created := 0 |}.
Definition device_example (number name : string) (k : Z) : PrivateAccountAndDevice :=
  {| account_number := number;
     device := {| id := name; name := "happy seagull"; wg_data := key_example k; hijack_dns := false; created := 0 |} |}.
Definition device_a : PrivateAccountAndDevice := device_example "1111" "a" 7.
Definition device_b : PrivateAccountAndDevice := device_example "2222" "b" 8.
Definition month : RotationInterval := {| as_duration := MAX_ROTATION_INTERVAL |}.

Definition manager_of (s : PrivateDeviceState) : AccountManager :=
  {| cacher := Content (Some s); data := s; rotation_interval := month; listeners := [0]; last_validation := None;
     validation_requests := []; expiry_requests := []; rotation_requests := []; data_requests := [];
     current_api_call := None |}.

Definition with_env (es : list Event) : list (Env * Event) := map (pair env_example) es.

(** A client logs in on another account, asks for a rotation, and the API refuses the device. *)
Definition session : list Event :=
  [Command (Some (CmdLogin "2222" 1)); Command (Some (GetDataAfterLogin 2));
   Ready (LoginResponse (Ok device_b)); Command (Some (RotateKey 3));
   Ready (RotationResponse (Ok (key_example 9))); Command (Some (ValidateDevice 4))].
Definition session_end : AccountManager :=
  match run_all (with_env session) (manager_of (LoggedIn device_a)) with
  | Some (m, _) => m
  | None => manager_of LoggedOut
  end.
Definition session_effects : list Effect :=
  match run_all (with_env session) (manager_of (LoggedIn device_a)) with Some (_, out) => out | None => [] end.

Lemma session_runs : manager_run (manager_of (LoggedIn device_a)) (with_env session) session_end session_effects.
Proof. apply run_all_sound. vm_compute. reflexivity. Qed.

Lemma account_requests_conserved_witness :
  omap settled session_effects ++ pending session_end ≡ₚ [1; 2; 3; 4].
Proof.
  exact (proj1 (account_requests_conserved Written (Content (Some (LoggedIn device_a))) month 0
                  (LoggedIn device_a) (manager_of (LoggedIn device_a)) (with_env session) session_end
                  session_effects eq_refl session_runs)).
Defined.

Lemma device_state_agrees_witness :
  foldl (heard 0) (LoggedIn device_a) session_effects = LoggedIn (with_wg_data (key_example 9) device_b).
Proof.
  refine (proj1 (device_state_agrees Written (Content (Some (LoggedIn device_a))) month 0
                  (LoggedIn device_a) (manager_of (LoggedIn device_a)) (with_env session) session_end
                  session_effects eq_refl session_runs) _).
  vm_compute. constructor.
Defined.

Definition refused : Event := Ready (ValidationResponse (Err InvalidDevice)).
Definition after_refusal : AccountManager :=
  match run_round env_example refused session_end with Some (Continue m _) => m | _ => manager_of LoggedOut end.
Definition refusal_effects : list Effect :=
  match run_round env_example refused session_end with Some (Continue _ es) => es | _ => [] end.

Lemma devices_not_leaked_witness :
  id ∘ device <$> state_device (data after_refusal) = Some "b"
  \/ (data after_refusal = Revoked /\ declared_invalid refused = true) \/ SpawnRemoval "2222" "b" ∈ refusal_effects.
Proof.
  refine (proj2 (devices_not_leaked Written (Content (Some (LoggedIn device_a))) month 0
                  (LoggedIn device_a) (manager_of (LoggedIn device_a)) (with_env session) session_end
                  session_effects env_example refused after_refusal refusal_effects eq_refl session_runs _)
           "2222" "b" _); vm_compute; reflexivity.
Defined.

Definition other_key : Device :=
  {| device_id := "b"; device_name := "happy seagull"; pubkey := [3%Z]; device_hijack_dns := false; device_created := 0 |}.
Definition mismatch : Event := Ready (ValidationResponse (Ok other_key)).
Definition after_mismatch : AccountManager :=
  match run_round env_example mismatch session_end with Some (Continue m _) => m | _ => manager_of LoggedOut end.
Definition mismatch_effects : list Effect :=
  match run_round env_example mismatch session_end with Some (Continue _ es) => es | _ => [] end.

Lemma key_in_sync_witness :
  exists d, data session_end = LoggedIn d /\ account_number d = "2222" /\ id (device d) = "b"
    /\ (pubkey other_key <> public_key (private_key (wg_data (device d))) ->
        current_api_call after_mismatch = Some (OneshotKeyRotation "2222" "b")
        /\ validation_requests after_mismatch = validation_requests session_end).
Proof.
  refine (proj2 (key_in_sync Written (Content (Some (LoggedIn device_a))) month 0
                  (LoggedIn device_a) (manager_of (LoggedIn device_a)) (with_env session) session_end
                  session_effects eq_refl session_runs _)
           env_example "2222" "b" other_key after_mismatch mismatch_effects _ _);
    vm_compute; repeat constructor.
Defined.


Lemma device_checks_debounced_witness :
  checks [Transition (TrDisconnecting ActionNothing)] {| can_retry := false; wg_retry_attempt := 3 |} = 0.
Proof.
  apply (device_checks_debounced (TrDisconnected false) {| can_retry := false; wg_retry_attempt := 3 |}
           {| can_retry := false; wg_retry_attempt := 3 |} eq_refl).
  by repeat constructor.
Defined.

Lemma rotation_timer_bounds_witness : (from_secs 60 <= key_rotation_timer month 0 0 <= as_duration month)%Z.
Proof. apply (rotation_timer_bounds MAX_ROTATION_INTERVAL month 0 0 eq_refl). done. Defined.

(** A check of the expiry takes the place of a validation: the request for the validation gets no
    answer, although the call it waited for is gone and what runs next is the timer of the key. *)
Theorem validation_abandoned :
  exists m out,
    manager_run (manager_of (LoggedIn device_a))
      (with_env [Command (Some (ValidateDevice 1)); Command (Some (CheckExpiry 2)); Ready (ExpiryResponse (Ok 5%Z))])
      m out
    /\ omap settled out = [2] /\ validation_requests m = [1]
    /\ current_api_call (loop_head m) = Some (TimerKeyRotation "1111" "a").
Proof. eexists _, _. split; [apply run_all_sound; vm_compute; reflexivity | by vm_compute]. Qed.

(** Logging out clears the call in progress, but answers only the requests for data: a request for a
    validation waits on, with no device left to validate. *)
Theorem logout_forgets_requests :
  exists m out,
    manager_run (manager_of (LoggedIn device_a))
      (with_env [Command (Some (ValidateDevice 1)); Command (Some (CmdLogout 2))]) m out
    /\ omap settled out = [2] /\ validation_requests m = [1] /\ data m = LoggedOut
    /\ current_api_call (loop_head m) = None.
Proof. eexists _, _. split; [apply run_all_sound; vm_compute; reflexivity | by vm_compute]. Qed.

(** [SetData] leaves the call in progress alone: the key that a rotation of the old device has obtained
    is stored in the new device. *)
Theorem set_data_mixes_keys :
  exists m out,
    manager_run (manager_of (LoggedIn device_a))
      (with_env [Command (Some (RotateKey 1)); Command (Some (SetData device_b 2));
                 Ready (RotationResponse (Ok (key_example 9)))]) m out
    /\ data m = LoggedIn (with_wg_data (key_example 9) device_b).
Proof. eexists _, _. split; [apply run_all_sound; vm_compute; reflexivity | by vm_compute]. Qed.
