(* ===== verification/Migrations.v ===== *)
(** * Migrating settings

    [src/mullvad-daemon/src/migrations/]: settings files of older versions of the program are brought to
    the current format, one version after the other, by editing the JSON.

    JSON is that of [SettingsPatch]; numbers are integers.  Reading a path that is missing does nothing, as
    with [get_mut]; assigning to an index ([settings["a"]["b"] = v]) makes the missing objects and panics
    where there is something else.  The conversions [serde] derives, and the texts of addresses and ciphers,
    are the class [Serde]. *)

From stdpp Require Import base list strings option numbers sets pretty.
From Stdlib Require Import Ascii.
From S2P Require Import Prelude RelayTypes SettingsPatch.
Local Open Scope list_scope.
Local Open Scope vpn_scope.
Local Open Scope string_scope.

Inductive MigrationError : Type :=
| ReadSettings | DeserializeSettings | InvalidSettingsContent | MissingKey (key : string) | SerializeValue
| OpenSettings | WriteSettings | SyncSettings | ReadHistory | WriteHistory | ParseHistory.

(** What ends a migration: an error, or a panic. *)
Inductive Failure : Type := Panicked | Failed (e : MigrationError).
Definition invalid : Failure := Failed InvalidSettingsContent.

(** ** JSON *)
Fixpoint value_eqb (v w : Value) : bool :=
  match v, w with
  | Null, Null => true
  | Bool a, Bool b => Bool.eqb a b
  | Number a, Number b => (a =? b)%Z
  | Str a, Str b => String.eqb a b
  | Array l, Array k =>
      (fix go l k := match l, k with
                     | [], [] => true
                     | a :: l, b :: k => value_eqb a b && go l k
                     | _, _ => false
                     end) l k
  | Object l, Object k =>
      (fix go l k := match l, k with
                     | [], [] => true
                     | (i, a) :: l, (j, b) :: k => String.eqb i j && value_eqb a b && go l k
                     | _, _ => false
                     end) l k
  | _, _ => false
  end.

Definition option_value_eqb (v w : option Value) : bool :=
  match v, w with Some v, Some w => value_eqb v w | None, None => true | _, _ => false end.

(** An object with the given entries. *)
Definition object (entries : list (string * Value)) : Value :=
  Object (foldr (fun e m => map_insert e.1 e.2 m) [] entries).

Definition map_remove (k : string) (m : list (string * Value)) : list (string * Value) := filter (fun e => e.1 <> k) m.

(** [Value::get], and a chain of it. *)
Definition get (k : string) (v : Value) : option Value := as_object v ≫= map_get k.
Fixpoint get_path (ks : list string) (v : Value) : option Value :=
  match ks with [] => Some v | k :: ks => get k v ≫= get_path ks end.

(** A chain of [get_mut], and a change of what is found. *)
Fixpoint with_path (ks : list string) (f : Value -> result Value Failure) (v : Value) : result Value Failure :=
  match ks with
  | [] => f v
  | k :: ks =>
      match v with
      | Object m =>
          match map_get k m with
          | Some x => x <-? with_path ks f x; Ok (Object (map_insert k x m))
          | None => Ok v
          end
      | _ => Ok v
      end
  end.

(** A chain of [IndexMut], and a change of what is found. *)
Fixpoint index_mut (ks : list string) (f : Value -> result Value Failure) (v : Value) : result Value Failure :=
  match ks with
  | [] => f v
  | k :: ks =>
      match v with
      | Object m => x <-? index_mut ks f (default Null (map_get k m)); Ok (Object (map_insert k x m))
      | Null => x <-? index_mut ks f Null; Ok (Object [(k, x)])
      | _ => Err Panicked
      end
  end.
Definition assign (ks : list string) (x : Value) : Value -> result Value Failure := index_mut ks (fun _ => Ok x).

(** [as_object_mut().ok_or(Error::InvalidSettingsContent)?.remove(k)] *)
Definition remove_key (k : string) (v : Value) : result Value Failure :=
  match v with Object m => Ok (Object (map_remove k m)) | _ => Err invalid end.

Definition as_bool (v : Value) : option bool := match v with Bool b => Some b | _ => None end.
Definition as_u64 (v : Value) : option Z :=
  match v with Number n => if (0 <=? n)%Z && (n <? 2 ^ 64)%Z then Some n else None | _ => None end.

(** ** Types vendored by the migrations *)
Inductive TransportProtocol : Type := Udp | Tcp.
Record TransportPort : Type := { protocol : TransportProtocol; port : Constraint Z }.

Class Serde : Type := {
  constraint_u16 : Value -> option (Constraint Z);
  constraint_protocol : Value -> option (Constraint TransportProtocol);
  constraint_transport_port : Value -> option (Constraint TransportPort);
  ip_addrs : Value -> option (list string);
  bridge_constraints : Value -> option Value;
  socket_addr : string -> option string;
  shadowsocks_cipher : string -> option string;
  to_text : Value -> string;
}.

Definition json_constraint {T} (f : T -> Value) (c : Constraint T) : Value :=
  match c with Any => Str "any" | Only x => object [("only", f x)] end.
Definition json_protocol (p : TransportProtocol) : Value := Str (match p with Udp => "udp" | Tcp => "tcp" end).
Definition json_transport_port (t : TransportPort) : Value :=
  object [("protocol", json_protocol (protocol t)); ("port", json_constraint Number (port t))].
Definition json_duration (secs : Z) : Value := object [("secs", Number secs); ("nanos", Number 0)].

(** [SettingsVersion] is its number. *)
Definition CURRENT_SETTINGS_VERSION : Z := 16.
Definition version_matches (n : Z) (settings : Value) : bool :=
  match get "settings_version" settings with Some (Number k) => (k =? n)%Z | _ => false end.
Definition set_version (n : Z) : Value -> result Value Failure := assign ["settings_version"] (Number n).

Definition NORMAL : list string := ["relay_settings"; "normal"].
Definition WIREGUARD_CONSTRAINTS : list string := NORMAL ++ ["wireguard_constraints"].
Definition OPENVPN_CONSTRAINTS : list string := NORMAL ++ ["openvpn_constraints"].

Section migrations.
Context `{Serde}.

(** ** Version 1 *)
Definition v1_normal (openvpn wireguard : option Value) (normal : Value) : result Value Failure :=
  normal <-? match openvpn, wireguard with
             | Some c, _ =>
                 normal <-? assign ["openvpn_constraints"] c normal;
                 assign ["tunnel_protocol"] (Str "any") normal
             | None, Some c =>
                 normal <-? assign ["wireguard_constraints"] c normal;
                 assign ["tunnel_protocol"] (object [("only", Str "wireguard")]) normal
             | None, None => assign ["tunnel_protocol"] (Str "any") normal
             end;
  Ok match normal with Object m => Object (map_remove "tunnel" m) | _ => normal end.

Definition v1_migrate (settings : Value) : result Value Failure :=
  match get "settings_version" settings with
  | Some _ => Ok settings
  | None =>
      let constraints kind := get_path (NORMAL ++ ["tunnel"; "only"; kind]) settings in
      settings <-? with_path NORMAL (v1_normal (constraints "openvpn") (constraints "wireguard")) settings;
      settings <-? assign ["show_beta_releases"] (Bool false) settings;
      set_version 2 settings
  end.

(** ** Version 2 *)
Definition V2_MIN_ROTATION_INTERVAL : Z := 1 * 24 * 60 * 60.
Definition V2_MAX_ROTATION_INTERVAL : Z := 7 * 24 * 60 * 60.

(** In hours; the product wraps. *)
Definition v2_interval (interval : Z) : Z :=
  let ivl := ((60 * 60 * interval) mod 2 ^ 64)%Z in
  if (ivl <? V2_MIN_ROTATION_INTERVAL)%Z then V2_MIN_ROTATION_INTERVAL
  else if (V2_MAX_ROTATION_INTERVAL <? ivl)%Z then V2_MAX_ROTATION_INTERVAL else ivl.

Definition v2_migrate (settings : Value) : result Value Failure :=
  if version_matches 2 settings then
    settings <-? match get "show_beta_releases" settings with
                 | Some Null => remove_key "show_beta_releases" settings
                 | _ => Ok settings
                 end;
    settings <-? match get_path ["tunnel_options"; "wireguard"; "automatic_rotation"] settings ≫= as_u64 with
                 | Some interval =>
                     settings <-? assign ["tunnel_options"; "wireguard"; "rotation_interval"]
                                    (json_duration (v2_interval interval)) settings;
                     index_mut ["tunnel_options"; "wireguard"] (remove_key "automatic_rotation") settings
                 | None => Ok settings
                 end;
    set_version 3 settings
  else Ok settings.

(** ** Version 3 *)
Definition v3_dns_options (options : Value) : result Value Failure :=
  let custom := default false (get "custom" options ≫= as_bool) in
  addresses <-? match get "addresses" options with
                | Some addrs => ok_or (ip_addrs addrs) invalid
                | None => Ok []
                end;
  Ok (object [("state", Str (if custom then "custom" else "default"));
              ("default_options", object [("block_ads", Bool false); ("block_trackers", Bool false)]);
              ("custom_options", object [("addresses", Array (map Str addresses))])]).

Definition v3_migrate (settings : Value) : result Value Failure :=
  if version_matches 3 settings then
    settings <-? match get_path ["tunnel_options"; "dns_options"] settings with
                 | Some options =>
                     match get "state" options with
                     | None => new <-? v3_dns_options options; assign ["tunnel_options"; "dns_options"] new settings
                     | Some _ => Ok settings
                     end
                 | None => Ok settings
                 end;
    set_version 4 settings
  else Ok settings.

(** ** Version 4 *)
Definition WIREGUARD_TCP_PORTS : list Z := [80; 443; 5001]%Z.
Definition OPENVPN_TCP_PORTS : list Z := [80; 443]%Z.
Definition wg_protocol_from_port (p : Z) : TransportProtocol :=
  if decide (p ∈ WIREGUARD_TCP_PORTS) then Tcp else Udp.
Definition openvpn_protocol_from_port (p : Z) : TransportProtocol :=
  if decide (p ∈ OPENVPN_TCP_PORTS) then Tcp else Udp.

(** [serde_json::from_value] of a field that may be missing. *)
Definition field_or_any {T} (f : Value -> option (Constraint T)) (k : string) (v : Value)
  : result (Constraint T) Failure :=
  match get k v with Some x => ok_or (f x) invalid | None => Ok Any end.

Definition v4_wireguard (settings : Value) : result Value Failure :=
  match get_path WIREGUARD_CONSTRAINTS settings with
  | None => Ok settings
  | Some constraints =>
      p <-? field_or_any constraint_u16 "port" constraints;
      let new := match p with
                 | Any => Any
                 | Only n => Only {| protocol := wg_protocol_from_port n; port := Only n |}
                 end in
      settings <-? assign (WIREGUARD_CONSTRAINTS ++ ["port"]) (json_constraint json_transport_port new) settings;
      index_mut WIREGUARD_CONSTRAINTS (remove_key "protocol") settings
  end.

Definition v4_openvpn (settings : Value) : result Value Failure :=
  match get_path OPENVPN_CONSTRAINTS settings with
  | None => Ok settings
  | Some constraints =>
      p <-? field_or_any constraint_u16 "port" constraints;
      transport <-? field_or_any constraint_protocol "protocol" constraints;
      let new := match p, transport with
                 | Only n, Any => Only {| protocol := openvpn_protocol_from_port n; port := Only n |}
                 | p, Only t => Only {| protocol := t; port := p |}
                 | Any, Any => Any
                 end in
      settings <-? assign (OPENVPN_CONSTRAINTS ++ ["port"]) (json_constraint json_transport_port new) settings;
      index_mut OPENVPN_CONSTRAINTS (remove_key "protocol") settings
  end.

Definition v4_migrate (settings : Value) : result Value Failure :=
  if version_matches 4 settings then
    settings <-? v4_wireguard settings;
    settings <-? v4_openvpn settings;
    set_version 5 settings
  else Ok settings.

(** ** Version 5 *)
Record MigrationData : Type := { token : string; wg_data : option Value }.

Definition v5_multihop (constraints : Value) : result Value Failure :=
  match get "entry_location" constraints, get "use_multihop" constraints with
  | Some location, None =>
      if is_null location then remove_key "entry_location" constraints
      else assign ["use_multihop"] (Bool true) constraints
  | _, _ => Ok constraints
  end.

Definition create_migrated_obfuscation_settings (p : Constraint Z) : Value :=
  object [("selected_obfuscation", Str "udp2_tcp"); ("udp2tcp", object [("port", json_constraint Number p)])].

(** The constraints, and the obfuscation settings to be set. *)
Definition v5_port (constraints : Value) : result (Value * option Value) Failure :=
  match get "port" constraints with
  | None => Ok (constraints, None)
  | Some p =>
      c <-? ok_or (constraint_transport_port p) invalid;
      match c with
      | Any => Ok (constraints, None)
      | Only t =>
          match protocol t with
          | Udp => new <-? assign ["port"] (json_constraint Number (port t)) constraints; Ok (new, None)
          | Tcp => new <-? assign ["port"] (Str "any") constraints;
                   Ok (new, Some (create_migrated_obfuscation_settings (port t)))
          end
      end
  end.

Definition v5_constraints (settings : Value) : result Value Failure :=
  match get_path WIREGUARD_CONSTRAINTS settings with
  | None => Ok settings
  | Some constraints =>
      constraints <-? v5_multihop constraints;
      new <-? v5_port constraints;
      settings <-? with_path WIREGUARD_CONSTRAINTS (fun _ => Ok new.1) settings;
      match new.2 with
      | Some obfuscation => assign ["obfuscation_settings"] obfuscation settings
      | None => Ok settings
      end
  end.

Definition not_null (o : option Value) : option Value :=
  o ≫= fun v => if is_null v then None else Some v.

Definition v5_account (settings : Value) : result (Value * option MigrationData) Failure :=
  match not_null (get "account_token" settings) with
  | None => Ok (settings, None)
  | Some t =>
      t <-? ok_or (as_str t) invalid;
      let data := {| token := t; wg_data := not_null (get "wireguard" settings) |} in
      settings <-? remove_key "account_token" settings;
      settings <-? remove_key "wireguard" settings;
      Ok (settings, Some data)
  end.

Definition v5_migrate (settings : Value) : result (Value * option MigrationData) Failure :=
  if version_matches 5 settings then
    settings <-? v5_constraints settings;
    r <-? v5_account settings;
    settings <-? set_version 6 r.1;
    Ok (settings, r.2)
  else Ok (settings, None).

(** ** Version 6 *)
Definition wrap_location (location : Value) : result Value Failure :=
  with_path ["only"] (fun only =>
    only <-? assign ["location"] only only;
    only <-? remove_key "country" only;
    only <-? remove_key "city" only;
    remove_key "hostname" only) location.

Definition migrate_location_constraint (settings : Value) : result Value Failure :=
  settings <-? with_path (NORMAL ++ ["location"]) wrap_location settings;
  settings <-? with_path (WIREGUARD_CONSTRAINTS ++ ["entry_location"]) wrap_location settings;
  with_path ["bridge_settings"; "normal"; "location"] wrap_location settings.

Definition migrate_pq_setting (settings : Value) : result Value Failure :=
  with_path ["tunnel_options"; "wireguard"] (fun options =>
    m <-? ok_or (as_object options) invalid;
    match map_get "use_pq_safe_psk" m with
    | Some psk =>
        assign ["quantum_resistant"] (Str (match as_bool psk with Some true => "on" | _ => "auto" end))
          (Object (map_remove "use_pq_safe_psk" m))
    | None => Ok options
    end) settings.

Definition migrate_udp2tcp_port_443 (settings : Value) : result Value Failure :=
  with_path ["obfuscation_settings"; "udp2tcp"; "port"] (fun p =>
    Ok (if value_eqb p (json_constraint Number (Only 443%Z)) then Str "any" else p)) settings.

Definition v6_migrate (settings : Value) : result Value Failure :=
  if version_matches 6 settings then
    settings <-? migrate_pq_setting settings;
    settings <-? migrate_udp2tcp_port_443 settings;
    settings <-? migrate_location_constraint settings;
    set_version 7 settings
  else Ok settings.

(** ** Version 7 *)
Definition rename_map_field (old_name new_name : string) (m : Map) : result Map Failure :=
  old_value <-? ok_or (map_get old_name m) invalid;
  Ok (map_remove old_name (map_insert new_name old_value m)).
Definition rename_field (old_name new_name : string) (v : Value) : result Value Failure :=
  m <-? ok_or (as_object v) invalid;
  m <-? rename_map_field old_name new_name m;
  Ok (Object m).

Definition migrate_custom_method (custom : Value) : result Value Failure :=
  match get "shadowsocks" custom, get_path ["socks5"; "local"] custom, get_path ["socks5"; "remote"] custom with
  | Some _, _, _ => with_path ["shadowsocks"] (rename_field "peer" "endpoint") custom
  | None, Some local, _ => custom <-? assign ["socks5_local"] local custom; remove_key "socks5" custom
  | None, None, Some remote =>
      remote <-? rename_field "authentication" "auth" remote;
      remote <-? rename_field "peer" "endpoint" remote;
      custom <-? assign ["socks5_remote"] remote custom;
      remove_key "socks5" custom
  | None, None, None => Err invalid
  end.

Definition migrate_access_method (setting : Value) : result Value Failure :=
  match get "access_method" setting with
  | None => Err invalid
  | Some _ => with_path ["access_method"; "custom"] migrate_custom_method setting
  end.

Fixpoint try_map {A B E} (f : A -> result B E) (l : list A) : result (list B) E :=
  match l with [] => Ok [] | a :: l => b <-? f a; l <-? try_map f l; Ok (b :: l) end.

Definition on_array (f : list Value -> result (list Value) Failure) (v : Value) : result Value Failure :=
  match v with Array l => l <-? f l; Ok (Array l) | _ => Ok v end.

Definition is_built_in (v : Value) : bool := bool_decide (is_Some (get_path ["access_method"; "built_in"] v)).

(** Steps 2 and 3: the built-in methods, and the list without all that have the id of one of them. *)
Definition take_built_ins (l : list Value) : list Value * list Value :=
  let built_ins := List.filter is_built_in l in
  (built_ins,
   foldl (fun l b => List.filter (fun v => negb (option_value_eqb (get "id" v) (get "id" b))) l) l built_ins).

Definition built_in_key (v : Value) : option (string * Value) :=
  match get_path ["access_method"; "built_in"] v ≫= as_str with
  | Some s => if decide (s = "direct") then Some ("direct", v)
              else if decide (s = "bridge") then Some ("mullvad_bridges", v) else None
  | None => None
  end.

Definition separate_built_ins (m : Map) : result Map Failure :=
  m <-? rename_map_field "access_method_settings" "custom" m;
  Ok match map_get "custom" m with
     | Some (Array l) =>
         let '(built_ins, rest) := take_built_ins l in
         foldl (fun m e => map_insert e.1 e.2 m) (map_insert "custom" (Array rest) m) (omap built_in_key built_ins)
     | _ => m
     end.

Definition migrate_api_access_settings (settings : Value) : result Value Failure :=
  settings <-? with_path ["api_access_methods"; "access_method_settings"]
                 (on_array (try_map migrate_access_method)) settings;
  with_path ["api_access_methods"]
    (fun v => match v with Object m => m <-? separate_built_ins m; Ok (Object m) | _ => Ok v end) settings.

Definition extract_str (o : option Value) : result string Failure :=
  v <-? ok_or o invalid; ok_or (as_str v) invalid.
Definition parse {T} (f : string -> option T) (o : option Value) : result T Failure :=
  s <-? extract_str o; ok_or (f s) invalid.

(** [SocksAuth::new] *)
Definition socks_auth_ok (s : string) : bool := ((1 <=? String.length s) && (String.length s <=? 255))%nat.
Definition SocksAuth_new (username password : string) : option Value :=
  if socks_auth_ok password && socks_auth_ok username
  then Some (object [("username", Str username); ("password", Str password)]) else None.

Definition BridgeConstraints_default : Value :=
  object [("location", Str "any"); ("providers", Str "any"); ("ownership", Str "any")].
Definition custom_bridge (proxy : Value) : Value :=
  object [("bridge_type", Str "custom"); ("normal", BridgeConstraints_default); ("custom", proxy)].

Definition socks5_local (local : Value) : result Value Failure :=
  address <-? parse socket_addr (get "peer" local);
  p <-? ok_or (get "port" local) invalid;
  n <-? ok_or (as_u64 p) invalid;
  if (n <? 2 ^ 16)%Z then
    Ok (object [("socks5_local",
      object [("remote_endpoint", object [("address", Str address); ("protocol", Str "tcp")]);
              ("local_port", Number n)])])
  else Err invalid.

Definition socks5_remote (remote : Value) : result Value Failure :=
  endpoint <-? parse socket_addr (get "address" remote);
  let auth := auth ← get "auth" remote; u ← get "username" auth; p ← get "password" auth;
              SocksAuth_new (to_text u) (to_text p) in
  Ok (object [("socks5_remote", object [("endpoint", Str endpoint); ("auth", default Null auth)])]).

Definition shadowsocks (s : Value) : result Value Failure :=
  endpoint <-? parse socket_addr (get "peer" s);
  password <-? extract_str (get "password" s);
  cipher <-? parse shadowsocks_cipher (get "cipher" s);
  Ok (object [("shadowsocks", object [("endpoint", Str endpoint); ("password", Str password); ("cipher", Str cipher)])]).

Definition migrate_bridge_settings (settings : Value) : result Value Failure :=
  let custom kind := get_path ["bridge_settings"; "custom"; kind] settings in
  match custom "local", custom "remote", custom "shadowsocks", get_path ["bridge_settings"; "normal"] settings with
  | Some v, _, _, _ => proxy <-? socks5_local v; assign ["bridge_settings"] (custom_bridge proxy) settings
  | None, Some v, _, _ => proxy <-? socks5_remote v; assign ["bridge_settings"] (custom_bridge proxy) settings
  | None, None, Some v, _ => proxy <-? shadowsocks v; assign ["bridge_settings"] (custom_bridge proxy) settings
  | None, None, None, Some v =>
      normal <-? ok_or (bridge_constraints v) (Failed SerializeValue);
      assign ["bridge_settings"]
        (object [("bridge_type", Str "normal"); ("normal", normal); ("custom", Null)]) settings
  | None, None, None, None => Ok settings
  end.

Definition v7_migrate (settings : Value) : result Value Failure :=
  if version_matches 7 settings then
    settings <-? migrate_bridge_settings settings;
    settings <-? migrate_api_access_settings settings;
    set_version 8 settings
  else Ok settings.

(** ** Version 8 *)
Definition migrate_selected_obfuscaton (settings : Value) : result Value Failure :=
  with_path ["obfuscation_settings"; "selected_obfuscation"]
    (fun v => Ok (if value_eqb v (Str "off") then Str "auto" else v)) settings.

Definition v8_migrate (settings : Value) : result Value Failure :=
  if version_matches 8 settings then
    settings <-? migrate_selected_obfuscaton settings; set_version 9 settings
  else Ok settings.

(** ** Version 9: nothing but the version, except on Android *)
Definition v9_migrate (settings : Value) : result Value Failure :=
  if version_matches 9 settings then
    match settings with Object m => Ok (Object (map_insert "settings_version" (Number 10) m)) | _ => Err invalid end
  else Ok settings.

(** ** Version 10 *)
Fixpoint split_from (sep : ascii) (s acc : string) : list string :=
  match s with
  | EmptyString => [acc]
  | String c s => if decide (c = sep) then acc :: split_from sep s "" else split_from sep s (acc ++ String c "")%string
  end.
Definition split (sep : ascii) (s : string) : list string := split_from sep s "".

Definition migrate_tunnel_type_inner (normal : Value) : result Value Failure :=
  match get "tunnel_protocol" normal with
  | Some (Str s) =>
      if decide (s = "any") then
        let openvpn := match get_path ["location"; "only"; "location"; "hostname"] normal with
                       | Some (Str s) => bool_decide ("ovpn" ∈ split "-" s)
                       | _ => false
                       end in
        assign ["tunnel_protocol"] (Str (if openvpn then "openvpn" else "wireguard")) normal
      else Err invalid
  | Some (Object constraint) =>
      match map_get "only" constraint with
      | Some (Str s) =>
          if decide (s = "wireguard" \/ s = "openvpn") then assign ["tunnel_protocol"] (Str s) normal
          else Err invalid
      | _ => Err invalid
      end
  | Some _ => Err invalid
  | None => Ok normal
  end.

Definition v10_migrate (settings : Value) : result Value Failure :=
  if version_matches 10 settings then
    settings <-? with_path NORMAL migrate_tunnel_type_inner settings; set_version 11 settings
  else Ok settings.

(** ** Version 11 *)
Definition migrate_block_when_disconnected (settings : Value) : result Value Failure :=
  m <-? ok_or (as_object settings) invalid;
  value <-? ok_or (map_get "block_when_disconnected" m) invalid;
  Ok (Object (map_remove "block_when_disconnected" (map_insert "lockdown_mode" value m))).

Definition initial_suffix (names : list string) (n : string) : nat :=
  let count := List.length (filter (fun m => m = n) names) in if (1 <? count)%nat then (count - 1)%nat else 1%nat.

Definition get_should_rename_api_access_method (names : list string) (n : string) (index : nat) : bool :=
  bool_decide (n ∈ take index names).

(** [fuel]: the number of suffixes tried. *)
Fixpoint generate_access_method_name (fuel : nat) (names : list string) (n : string) (index suffix : nat)
  : option string :=
  match fuel with
  | 0 => None
  | S fuel =>
      let generated := (n ++ "_" ++ pretty suffix)%string in
      if get_should_rename_api_access_method names generated index
      then generate_access_method_name fuel names n index (S suffix)
      else Some generated
  end.

Definition rename_at (names : list string) (index : nat) : option (list string) :=
  match names !! index with
  | None => Some names
  | Some n =>
      if get_should_rename_api_access_method names n index then
        new ← generate_access_method_name (S (List.length names)) names n index (initial_suffix names n);
        Some (<[index := new]> names)
      else Some names
  end.

Definition rename_all (names : list string) : option (list string) :=
  foldl (fun acc index => names ← acc; rename_at names index) (Some names) (seq 0 (List.length names)).

Definition method_name (v : Value) : option string := get "name" v ≫= as_str.

(** Write the names back to the methods they were collected from. *)
Fixpoint put_names (names : list string) (l : list Value) : list Value :=
  match l with
  | [] => []
  | v :: l =>
      match method_name v, v, names with
      | Some _, Object m, n :: names => Object (map_insert "name" (Str n) m) :: put_names names l
      | _, _, _ => v :: put_names names l
      end
  end.

Definition rename_methods (l : list Value) : result (list Value) Failure :=
  match rename_all (omap method_name l) with
  | Some names => Ok (put_names names l)
  | None => Err Panicked
  end.

Definition migrate_duplicated_api_access_method_names (settings : Value) : result Value Failure :=
  m <-? ok_or (as_object settings) invalid;
  with_path ["api_access_methods"; "custom"] (on_array rename_methods) settings.

Definition v11_migrate (settings : Value) : result Value Failure :=
  if version_matches 11 settings then
    settings <-? migrate_block_when_disconnected settings;
    settings <-? migrate_duplicated_api_access_method_names settings;
    set_version 12 settings
  else Ok settings.

(** ** Version 12 *)
Definition insert_missing (k : string) (v : Value) (m : Map) : Map :=
  match map_get k m with Some _ => m | None => map_insert k v m end.

Definition migrate_filters_to_new_entry_only_filters (settings : Value) : result Value Failure :=
  with_path NORMAL (fun normal =>
    match get "providers" normal, get "ownership" normal with
    | Some providers, Some ownership =>
        with_path ["wireguard_constraints"]
          (fun c => Ok match c with
                       | Object m => Object (insert_missing "entry_ownership" ownership
                                               (insert_missing "entry_providers" providers m))
                       | _ => c
                       end) normal
    | _, _ => Ok normal
    end) settings.

Definition v12_migrate (settings : Value) : result Value Failure :=
  if version_matches 12 settings then
    settings <-? migrate_filters_to_new_entry_only_filters settings; set_version 13 settings
  else Ok settings.

(** ** Version 13 *)
Definition migrate_quantum_resistance (settings : Value) : result Value Failure :=
  m <-? ok_or (as_object settings) invalid;
  options <-? ok_or (map_get "tunnel_options" m) (Failed (MissingKey "'tunnel_options' missing"));
  _ <-? ok_or (get "wireguard" options) (Failed (MissingKey "'wireguard' missing"));
  with_path ["tunnel_options"; "wireguard"] (fun wg =>
    match get "quantum_resistant" wg with
    | Some q => if value_eqb q (Str "auto") then with_path ["quantum_resistant"] (fun _ => Ok (Str "on")) wg else Ok wg
    | None => assign ["quantum_resistant"] (Str "on") wg
    end) settings.

Definition v13_migrate (settings : Value) : result Value Failure :=
  if version_matches 13 settings then
    settings <-? migrate_quantum_resistance settings; set_version 14 settings
  else Ok settings.

(** ** Version 14 *)
Definition migrate_wireguard_port (settings : Value) : result Value Failure :=
  match get_path WIREGUARD_CONSTRAINTS settings ≫= as_object with
  | None => Ok settings
  | Some constraints =>
      match map_get "port" constraints with
      | None => Ok settings
      | Some p =>
          settings <-? with_path WIREGUARD_CONSTRAINTS (fun _ => Ok (Object (map_remove "port" constraints))) settings;
          with_path ["obfuscation_settings"]
            (fun o => Ok match o with
                         | Object m => Object (map_insert "wireguard_port" (object [("port", p)]) m)
                         | _ => o
                         end) settings
      end
  end.

Definition v14_migrate (settings : Value) : result Value Failure :=
  if version_matches 14 settings then
    settings <-? migrate_wireguard_port settings; set_version 15 settings
  else Ok settings.

(** ** Version 15 *)
Definition bad_entry_location : Value := object [("only", object [("location", object [("country", Str "")])])].

(** Indexing a map panics if the key is missing. *)
Definition migrate_entry_location (settings : Value) : result Value Failure :=
  with_path WIREGUARD_CONSTRAINTS (fun c =>
    match c with
    | Object m =>
        match map_get "entry_location" m with
        | None => Err Panicked
        | Some location =>
            Ok (if value_eqb location bad_entry_location then Object (map_insert "entry_location" (Str "any") m) else c)
        end
    | _ => Ok c
    end) settings.

Definition v15_migrate (settings : Value) : result Value Failure :=
  if version_matches 15 settings then
    settings <-? migrate_entry_location settings; set_version 16 settings
  else Ok settings.

(** ** The account history *)
(** A file as it is found: [None] where there is none.  [history_v2] and [history_v1] parse the older
    formats. *)
Context (history_v2 : string -> option (list (string * Value))) (history_v1 : string -> option (list string)).

Definition is_digit (c : ascii) : bool := bool_decide (Ascii.nat_of_ascii c ∈ seq 48 10).
Fixpoint all_digits (s : string) : bool :=
  match s with EmptyString => true | String c s => is_digit c && all_digits s end.
(** Empty, or matched by [^[0-9]+$]. *)
Definition is_format_v3 (content : string) : bool := all_digits content.

(** The token, and the settings. *)
Definition migrate_formats_inner (content : string) (settings : Value)
  : result (Value * option string) Failure :=
  match history_v2 content with
  | Some ((t, data) :: _) => settings <-? assign ["wireguard"] data settings; Ok (settings, Some t)
  | Some [] => Ok (settings, None)
  | None =>
      match history_v1 content with
      | Some accounts => Ok (settings, head accounts)
      | None => Err (Failed ParseHistory)
      end
  end.

(** The settings, and the file. *)
Definition migrate_formats (readable writable : bool) (file : option string) (settings : Value)
  : result (Value * option string) Failure :=
  match file with
  | None => Ok (settings, None)
  | Some content =>
      if negb readable then Err (Failed ReadHistory)
      else if is_format_v3 content then Ok (settings, file)
      else
        r <-? migrate_formats_inner content settings;
        if writable then Ok (r.1, Some (default "" r.2)) else Err (Failed WriteHistory)
  end.

(** [migrate_location]: the files in the old and in the new directory. *)
Definition migrate_location (same_path copied removed : bool) (old new : option string)
  : option string * option string :=
  match old, new with
  | Some content, None =>
      if same_path then (old, new)
      else if copied then ((if removed then None else old), Some content) else (old, new)
  | _, _ => (old, new)
  end.

(** What the migration of the history finds; [None]: no directories are given. *)
Record Histories : Type := {
  same_path : bool; copied : bool; removed : bool; readable : bool; writable : bool;
  old_history : option string; new_history : option string;
}.

Definition migrate_history (h : option Histories) (settings : Value) : result Value Failure :=
  match h with
  | None => Ok settings
  | Some h =>
      let '(_, new) := migrate_location (same_path h) (copied h) (removed h) (old_history h) (new_history h) in
      r <-? migrate_formats (readable h) (writable h) new settings; Ok r.1
  end.

(** ** All migrations *)
Definition migrate_settings (h : option Histories) (settings : Value)
  : result (Value * option MigrationData) Failure :=
  match settings with
  | Object _ =>
      settings <-? v1_migrate settings;
      settings <-? v2_migrate settings;
      settings <-? v3_migrate settings;
      settings <-? v4_migrate settings;
      settings <-? migrate_history h settings;
      r <-? v5_migrate settings;
      settings <-? v6_migrate r.1;
      settings <-? v7_migrate settings;
      settings <-? v8_migrate settings;
      settings <-? v9_migrate settings;
      settings <-? v10_migrate settings;
      settings <-? v11_migrate settings;
      settings <-? v12_migrate settings;
      settings <-? v13_migrate settings;
      settings <-? v14_migrate settings;
      settings <-? v15_migrate settings;
      Ok (settings, r.2)
  | _ => Err invalid
  end.

(** The settings file: missing, or its content, [None] where it is not JSON. *)
Inductive SettingsFile : Type := NoSettings | UnreadableSettings | SettingsContent (v : option Value).

(** How writing the file ends; a write that fails leaves something behind. *)
Inductive WriteResult : Type := Saved | NotSaved (e : MigrationError) (remains : SettingsFile).

(** The file, and the result. *)
Definition migrate_all (h : Histories) (w : WriteResult) (file : SettingsFile)
  : SettingsFile * result (option MigrationData) Failure :=
  match file with
  | NoSettings => (file, Ok None)
  | UnreadableSettings => (file, Err (Failed ReadSettings))
  | SettingsContent None => (file, Err (Failed DeserializeSettings))
  | SettingsContent (Some old) =>
      match migrate_settings (Some h) old with
      | Err e => (file, Err e)
      | Ok (new, data) =>
          if value_eqb new old then (file, Ok data)
          else
            match w with
            | Saved => (SettingsContent (Some new), Ok data)
            | NotSaved e remains => (remains, Err (Failed e))
            end
      end
  end.
End migrations.
