(* ===== verification/MigrationsProps.v ===== *)
(** * Theorems about migrating settings *)

From stdpp Require Import base list strings option numbers sets pretty.
From Stdlib Require Import Ascii.
From S2P Require Import Prelude RelayTypes SettingsPatch SettingsPatchProps Migrations.
Local Open Scope list_scope.
Local Open Scope vpn_scope.
Local Open Scope string_scope.

(** ** What a step leaves alone *)
(** If the step succeeds, the entry [k] is what it was. *)
Definition keeps (k : string) (v : Value) (r : result Value Failure) : Prop :=
  forall v', r = Ok v' -> get k v' = get k v.

Lemma map_get_remove k j m : map_get k (map_remove j m) = if decide (k = j) then None else map_get k m.
Proof.
  unfold map_remove. induction m as [|[i v] m IH]; [by destruct (decide (k = j))|].
  rewrite filter_cons. cbn [fst map_get].
  destruct (decide (i <> j)) as [Hij|Hij]; cbn [map_get]; rewrite IH;
    destruct (decide (k = i)), (decide (k = j)); try done; subst; tauto.
Qed.

Lemma keeps_ok k v : keeps k v (Ok v).
Proof. by intros ? [= ->]. Qed.
Lemma keeps_err k v e : keeps k v (Err e).
Proof. by intros ? [=]. Qed.

Lemma keeps_bind k v r f :
  keeps k v r -> (forall w, keeps k w (f w)) -> keeps k v (bind_result r f).
Proof.
  intros Hr Hf v' (w & Hw & Hv)%bind_result_Ok. apply Hf in Hv. rewrite Hv. by apply Hr.
Qed.

(** A step that computes something first. *)
Lemma keeps_bind_other {A} k v (r : result A Failure) f :
  (forall a, r = Ok a -> keeps k v (f a)) -> keeps k v (bind_result r f).
Proof. intros Hf v' (w & Hw & Hv)%bind_result_Ok. by apply (Hf w). Qed.

Lemma keeps_with_path k j ks f v : k <> j -> keeps k v (with_path (j :: ks) f v).
Proof.
  intros Hk v'. simpl. destruct v as [| | | | |m]; intros Hv; simplify_eq; try done.
  destruct (map_get j m); [|by simplify_eq]. apply bind_result_Ok in Hv as (x & _ & [= <-]).
  unfold get. simpl. rewrite map_get_insert. by rewrite decide_False.
Qed.

Lemma keeps_index_mut k j ks f v : k <> j -> keeps k v (index_mut (j :: ks) f v).
Proof.
  intros Hk v'. simpl. destruct v as [| | | | |m]; intros Hv; simplify_eq.
  - apply bind_result_Ok in Hv as (x & _ & [= <-]). unfold get. simpl. by rewrite decide_False.
  - apply bind_result_Ok in Hv as (x & _ & [= <-]). unfold get. simpl. rewrite map_get_insert.
    by rewrite decide_False.
Qed.

Lemma keeps_remove_key k j v : k <> j -> keeps k v (remove_key j v).
Proof.
  intros Hk v'. destruct v as [| | | | |m]; simpl; intros [= <-]. unfold get. simpl.
  rewrite map_get_remove. by rewrite decide_False.
Qed.

Create HintDb keeps discriminated.
#[global] Hint Resolve keeps_ok keeps_err keeps_with_path keeps_index_mut keeps_remove_key : keeps.

(** Goes through the steps of a migration: a step either changes the settings or computes a value. *)
Ltac keeps_steps :=
  match goal with
  | |- keeps _ _ (bind_result _ _) =>
      first [ apply keeps_bind; [solve [keeps_steps] | intros ?; keeps_steps]
            | apply keeps_bind_other; intros ? ?; keeps_steps ]
  | |- keeps _ _ (match ?x with _ => _ end) => destruct x; keeps_steps
  | |- keeps _ _ _ => solve [ eauto with keeps ]
  end.

(** The entries that migrations change, apart from those of version 11. *)
Definition TOUCHED : list string :=
  ["relay_settings"; "show_beta_releases"; "settings_version"; "tunnel_options"; "account_token"; "wireguard";
   "obfuscation_settings"; "bridge_settings"; "api_access_methods"].

Section props.
Context `{Serde}.

Ltac untouched Hk :=
  repeat match type of Hk with
  | _ ∉ TOUCHED => unfold TOUCHED in Hk
  | _ ∉ _ :: _ => apply not_elem_of_cons in Hk as [? Hk]
  end.

Lemma v1_keeps k v : k ∉ TOUCHED -> keeps k v (v1_migrate v).
Proof. intros Hk. untouched Hk. unfold v1_migrate, set_version, assign, NORMAL. keeps_steps. Qed.
Lemma v2_keeps k v : k ∉ TOUCHED -> keeps k v (v2_migrate v).
Proof. intros Hk. untouched Hk. unfold v2_migrate, set_version, assign. keeps_steps. Qed.
Lemma v3_keeps k v : k ∉ TOUCHED -> keeps k v (v3_migrate v).
Proof. intros Hk. untouched Hk. unfold v3_migrate, set_version, assign. keeps_steps. Qed.
Lemma v4_keeps k v : k ∉ TOUCHED -> keeps k v (v4_migrate v).
Proof.
  intros Hk. untouched Hk. unfold v4_migrate, v4_wireguard, v4_openvpn, set_version, assign,
    WIREGUARD_CONSTRAINTS, OPENVPN_CONSTRAINTS, NORMAL. simpl app. keeps_steps.
Qed.
Lemma v6_keeps k v : k ∉ TOUCHED -> keeps k v (v6_migrate v).
Proof.
  intros Hk. untouched Hk. unfold v6_migrate, migrate_pq_setting, migrate_udp2tcp_port_443,
    migrate_location_constraint, set_version, assign, WIREGUARD_CONSTRAINTS, NORMAL. simpl app. keeps_steps.
Qed.
Lemma v7_keeps k v : k ∉ TOUCHED -> keeps k v (v7_migrate v).
Proof.
  intros Hk. untouched Hk. unfold v7_migrate, migrate_bridge_settings, migrate_api_access_settings, set_version,
    assign. cbv zeta. keeps_steps.
Qed.
Lemma v8_keeps k v : k ∉ TOUCHED -> keeps k v (v8_migrate v).
Proof. intros Hk. untouched Hk. unfold v8_migrate, migrate_selected_obfuscaton, set_version, assign. keeps_steps. Qed.
Lemma v9_keeps k v : k ∉ TOUCHED -> keeps k v (v9_migrate v).
Proof.
  intros Hk. untouched Hk. unfold v9_migrate. destruct (version_matches 9 v); [|eauto with keeps].
  destruct v as [| | | | |m]; eauto with keeps. intros v' [= <-]. unfold get. simpl.
  rewrite map_get_insert. by rewrite decide_False.
Qed.
Lemma v10_keeps k v : k ∉ TOUCHED -> keeps k v (v10_migrate v).
Proof. intros Hk. untouched Hk. unfold v10_migrate, set_version, assign, NORMAL. keeps_steps. Qed.
Lemma v12_keeps k v : k ∉ TOUCHED -> keeps k v (v12_migrate v).
Proof.
  intros Hk. untouched Hk. unfold v12_migrate, migrate_filters_to_new_entry_only_filters, set_version, assign, NORMAL.
  keeps_steps.
Qed.
Lemma v13_keeps k v : k ∉ TOUCHED -> keeps k v (v13_migrate v).
Proof. intros Hk. untouched Hk. unfold v13_migrate, migrate_quantum_resistance, set_version, assign. keeps_steps. Qed.
Lemma v14_keeps k v : k ∉ TOUCHED -> keeps k v (v14_migrate v).
Proof.
  intros Hk. untouched Hk. unfold v14_migrate, migrate_wireguard_port, set_version, assign, WIREGUARD_CONSTRAINTS, NORMAL.
  simpl app. keeps_steps.
Qed.
Lemma v15_keeps k v : k ∉ TOUCHED -> keeps k v (v15_migrate v).
Proof.
  intros Hk. untouched Hk. unfold v15_migrate, migrate_entry_location, set_version, assign, WIREGUARD_CONSTRAINTS, NORMAL.
  simpl app. keeps_steps.
Qed.

Lemma v5_keeps k v v' d : k ∉ TOUCHED -> v5_migrate v = Ok (v', d) -> get k v' = get k v.
Proof.
  intros Hk. untouched Hk. unfold v5_migrate. destruct (version_matches 5 v); [|by intros [= <- <-]].
  intros (v1 & E1 & ([v2 d2] & E2 & (v3 & E3 & [= <- <-])%bind_result_Ok)%bind_result_Ok)%bind_result_Ok.
  assert (Hc : keeps k v (v5_constraints v)).
  { unfold v5_constraints, assign, WIREGUARD_CONSTRAINTS, NORMAL. simpl app. keeps_steps. }
  apply Hc in E1. rewrite <- E1. transitivity (get k v2).
  { revert E3. unfold set_version, assign. by apply keeps_index_mut. }
  unfold v5_account in E2. destruct (not_null (get "account_token" v1)); [|by simplify_eq].
  apply bind_result_Ok in E2 as (s & _ & (w1 & Hw1 & (w2 & Hw2 & [= <- <-])%bind_result_Ok)%bind_result_Ok).
  apply (keeps_remove_key k) in Hw2; [|done]. rewrite Hw2. by apply (keeps_remove_key k) in Hw1.
Qed.

Definition RENAMED : list string := ["block_when_disconnected"; "lockdown_mode"].

Lemma v11_keeps k v : k ∉ TOUCHED -> k ∉ RENAMED -> keeps k v (v11_migrate v).
Proof.
  intros Hk Hr. untouched Hk. apply not_elem_of_cons in Hr as [? [? _]%not_elem_of_cons].
  unfold v11_migrate, migrate_duplicated_api_access_method_names, set_version, assign.
  destruct (version_matches 11 v); [|eauto with keeps]. apply keeps_bind; [|intros ?; keeps_steps].
  intros v' (m & Hm & (x & _ & [= <-])%bind_result_Ok)%bind_result_Ok. apply ok_or_Ok in Hm.
  destruct v; simplify_eq/=. unfold get. simpl. rewrite map_get_remove, map_get_insert.
  by repeat case_decide.
Qed.

(** Version 11 renames the setting that blocks the internet while disconnected. *)
Lemma v11_lockdown v v' :
  version_matches 11 v = true -> v11_migrate v = Ok v' ->
  get "lockdown_mode" v' = get "block_when_disconnected" v /\ is_Some (get "block_when_disconnected" v).
Proof.
  intros Hv. unfold v11_migrate. rewrite Hv. intros (v1 & H1 & H2)%bind_result_Ok.
  assert (Hk : keeps "lockdown_mode" v1 (v2 <-? migrate_duplicated_api_access_method_names v1; set_version 12 v2)).
  { unfold migrate_duplicated_api_access_method_names, set_version, assign. keeps_steps. }
  rewrite (Hk _ H2). apply bind_result_Ok in H1 as (m & Hm & (x & Hx & [= <-])%bind_result_Ok).
  apply ok_or_Ok in Hm, Hx. destruct v; simplify_eq/=. unfold get. simpl.
  rewrite map_get_remove, map_get_insert, Hx. by eauto.
Qed.

(** ** Versions *)
(** The version of settings, 0 where it is none that is known. *)
Definition version_of (v : Value) : Z :=
  match get "settings_version" v with
  | None => 1
  | Some (Number k) => if ((2 <=? k) && (k <=? CURRENT_SETTINGS_VERSION))%Z then k else 0
  | _ => 0
  end.

Definition advances (n : Z) (f : Value -> result Value Failure) : Prop :=
  forall v v', f v = Ok v' ->
    if version_matches n v then get "settings_version" v' = Some (Number (n + 1)) else v' = v.

Lemma set_version_get n v v' : set_version n v = Ok v' -> get "settings_version" v' = Some (Number n).
Proof.
  unfold set_version, assign. simpl. destruct v as [| | | | |m]; intros Hv; simplify_eq/=; [done|].
  unfold get. simpl. rewrite map_get_insert. done.
Qed.

Ltac advances_steps :=
  intros v v';
  match goal with |- (if version_matches ?n v then _ else _) = _ -> _ => destruct (version_matches n v) eqn:E end;
  [ intros Hv; repeat match type of Hv with bind_result _ _ = _ => apply bind_result_Ok in Hv as (? & _ & Hv) end;
    by apply set_version_get in Hv
  | by intros [= ->] ].

Lemma v2_advances : advances 2 v2_migrate. Proof. unfold advances, v2_migrate. advances_steps. Qed.
Lemma v3_advances : advances 3 v3_migrate. Proof. unfold advances, v3_migrate. advances_steps. Qed.
Lemma v4_advances : advances 4 v4_migrate. Proof. unfold advances, v4_migrate. advances_steps. Qed.
Lemma v6_advances : advances 6 v6_migrate. Proof. unfold advances, v6_migrate. advances_steps. Qed.
Lemma v7_advances : advances 7 v7_migrate. Proof. unfold advances, v7_migrate. advances_steps. Qed.
Lemma v8_advances : advances 8 v8_migrate. Proof. unfold advances, v8_migrate. advances_steps. Qed.
Lemma v10_advances : advances 10 v10_migrate. Proof. unfold advances, v10_migrate. advances_steps. Qed.
Lemma v11_advances : advances 11 v11_migrate. Proof. unfold advances, v11_migrate. advances_steps. Qed.
Lemma v12_advances : advances 12 v12_migrate. Proof. unfold advances, v12_migrate. advances_steps. Qed.
Lemma v13_advances : advances 13 v13_migrate. Proof. unfold advances, v13_migrate. advances_steps. Qed.
Lemma v14_advances : advances 14 v14_migrate. Proof. unfold advances, v14_migrate. advances_steps. Qed.
Lemma v15_advances : advances 15 v15_migrate. Proof. unfold advances, v15_migrate. advances_steps. Qed.

Lemma v9_advances : advances 9 v9_migrate.
Proof.
  intros v v'. unfold v9_migrate. destruct (version_matches 9 v); [|by intros [= ->]].
  destruct v as [| | | | |m]; intros [= <-]. unfold get. simpl. by rewrite map_get_insert.
Qed.

Lemma v5_advances v v' d :
  v5_migrate v = Ok (v', d) ->
  if version_matches 5 v then get "settings_version" v' = Some (Number 6) else v' = v /\ d = None.
Proof.
  unfold v5_migrate. destruct (version_matches 5 v); [|by intros [= <- <-]].
  intros (v1 & _ & ([v2 d2] & _ & (v3 & H3 & [= <- <-])%bind_result_Ok)%bind_result_Ok)%bind_result_Ok.
  by apply set_version_get in H3.
Qed.

Lemma v1_advances v v' :
  v1_migrate v = Ok v' ->
  match get "settings_version" v with None => get "settings_version" v' = Some (Number 2) | Some _ => v' = v end.
Proof.
  unfold v1_migrate. destruct (get "settings_version" v); [by intros [= ->]|]. cbv zeta.
  intros (? & _ & (? & _ & Hv)%bind_result_Ok)%bind_result_Ok. by apply set_version_get in Hv.
Qed.

Lemma version_matches_of n v :
  (2 <= n <= CURRENT_SETTINGS_VERSION)%Z -> version_matches n v = (version_of v =? n)%Z.
Proof.
  unfold version_matches, version_of, CURRENT_SETTINGS_VERSION. intros Hn.
  destruct (get "settings_version" v) as [[]|]; try lia.
  destruct ((2 <=? n0)%Z && (n0 <=? 16)%Z) eqn:E; [done|]. lia.
Qed.

(** From version [k] on, every step brings the settings at least to the version after its own. *)
Lemma advance n f k v v' :
  advances n f -> (2 <= n < CURRENT_SETTINGS_VERSION)%Z -> f v = Ok v' -> version_of v = Z.max k n ->
  version_of v' = Z.max k (n + 1) /\ ((n < k)%Z -> v' = v).
Proof.
  intros Hf Hn Hv Hk. apply Hf in Hv. rewrite version_matches_of in Hv by (unfold CURRENT_SETTINGS_VERSION in *; lia).
  destruct (Z.eqb_spec (version_of v) n) as [E|E].
  - split; [|lia]. unfold version_of, CURRENT_SETTINGS_VERSION in *. rewrite Hv.
    destruct ((2 <=? n + 1)%Z && (n + 1 <=? 16)%Z) eqn:E2; lia.
  - subst v'. split; [lia|done].
Qed.

(** ** The chain *)
Definition early (v : Value) : result Value Failure :=
  v <-? v1_migrate v; v <-? v2_migrate v; v <-? v3_migrate v; v4_migrate v.
Definition middle (v : Value) : result Value Failure :=
  v <-? v6_migrate v; v <-? v7_migrate v; v <-? v8_migrate v; v <-? v9_migrate v; v10_migrate v.
Definition late (v : Value) : result Value Failure :=
  v <-? v12_migrate v; v <-? v13_migrate v; v <-? v14_migrate v; v15_migrate v.

#[local] Hint Resolve v1_keeps v2_keeps v3_keeps v4_keeps v6_keeps v7_keeps v8_keeps v9_keeps v10_keeps
  v12_keeps v13_keeps v14_keeps v15_keeps : keeps.

Lemma early_keeps k v : k ∉ TOUCHED -> keeps k v (early v).
Proof. intros Hk. unfold early. keeps_steps. Qed.
Lemma middle_keeps k v : k ∉ TOUCHED -> keeps k v (middle v).
Proof. intros Hk. unfold middle. keeps_steps. Qed.
Lemma late_keeps k v : k ∉ TOUCHED -> keeps k v (late v).
Proof. intros Hk. unfold late. keeps_steps. Qed.

(** A chain of steps, version by version. *)
Ltac chain Hv :=
  repeat match type of Hv with bind_result _ _ = _ => let E := fresh "E" in apply bind_result_Ok in Hv as (? & E & Hv) end.

Lemma early_version v v' :
  early v = Ok v' -> (1 <= version_of v)%Z ->
  version_of v' = Z.max (version_of v) 5 /\ ((4 < version_of v)%Z -> v' = v).
Proof.
  unfold early. intros Hv Hk. chain Hv. apply v1_advances in E.
  assert (H1 : version_of x = Z.max (version_of v) 2 /\ ((1 < version_of v)%Z -> x = v)).
  { unfold version_of at 2 3. destruct (get "settings_version" v) as [w|] eqn:Ew; subst.
    - split; [|done]. unfold version_of in *. rewrite Ew in *. destruct w; try lia.
      destruct ((2 <=? n)%Z && (n <=? CURRENT_SETTINGS_VERSION)%Z) eqn:E3; lia.
    - split; [|lia]. unfold version_of. by rewrite E. }
  destruct H1 as [H1 H1'].
  destruct (advance _ _ _ _ _ v2_advances ltac:(done) E0 H1) as [H2 H2'].
  destruct (advance _ _ _ _ _ v3_advances ltac:(done) E1 H2) as [H3 H3'].
  destruct (advance _ _ _ _ _ v4_advances ltac:(done) Hv H3) as [H4 H4'].
  split; [done|]. intros Hlt. rewrite H4', H3', H2', H1' by lia. done.
Qed.

Lemma middle_version k v v' :
  middle v = Ok v' -> version_of v = Z.max k 6 ->
  version_of v' = Z.max k 11 /\ ((10 < k)%Z -> v' = v).
Proof.
  unfold middle. intros Hv H0. chain Hv.
  destruct (advance _ _ _ _ _ v6_advances ltac:(done) E H0) as [H1 H1'].
  destruct (advance _ _ _ _ _ v7_advances ltac:(done) E0 H1) as [H2 H2'].
  destruct (advance _ _ _ _ _ v8_advances ltac:(done) E1 H2) as [H3 H3'].
  destruct (advance _ _ _ _ _ v9_advances ltac:(done) E2 H3) as [H4 H4'].
  destruct (advance _ _ _ _ _ v10_advances ltac:(done) Hv H4) as [H5 H5'].
  split; [done|]. intros Hlt. rewrite H5', H4', H3', H2', H1' by lia. done.
Qed.

Lemma late_version k v v' :
  late v = Ok v' -> version_of v = Z.max k 12 ->
  version_of v' = Z.max k 16 /\ ((15 < k)%Z -> v' = v).
Proof.
  unfold late. intros Hv H0. chain Hv.
  destruct (advance _ _ _ _ _ v12_advances ltac:(done) E H0) as [H1 H1'].
  destruct (advance _ _ _ _ _ v13_advances ltac:(done) E0 H1) as [H2 H2'].
  destruct (advance _ _ _ _ _ v14_advances ltac:(done) E1 H2) as [H3 H3'].
  destruct (advance _ _ _ _ _ v15_advances ltac:(done) Hv H3) as [H4 H4'].
  split; [done|]. intros Hlt. rewrite H4', H3', H2', H1' by lia. done.
Qed.

Context (history_v2 : string -> option (list (string * Value))) (history_v1 : string -> option (list string)).
Notation migrate := (migrate_settings history_v2 history_v1).

Lemma migrate_settings_inv h s s' d :
  migrate h s = Ok (s', d) ->
  exists e he m5 m10 m11, early s = Ok e /\ migrate_history history_v2 history_v1 h e = Ok he
    /\ v5_migrate he = Ok (m5, d) /\ middle m5 = Ok m10 /\ v11_migrate m10 = Ok m11 /\ late m11 = Ok s'.
Proof.
  unfold migrate_settings. intros Hs. destruct s; try done.
  apply bind_result_Ok in Hs as (x1 & E1 & Hs). apply bind_result_Ok in Hs as (x2 & E2 & Hs).
  apply bind_result_Ok in Hs as (x3 & E3 & Hs). apply bind_result_Ok in Hs as (x4 & E4 & Hs).
  apply bind_result_Ok in Hs as (he & Eh & Hs). apply bind_result_Ok in Hs as ([m5 d5] & E5 & Hs).
  apply bind_result_Ok in Hs as (x6 & E6 & Hs). apply bind_result_Ok in Hs as (x7 & E7 & Hs).
  apply bind_result_Ok in Hs as (x8 & E8 & Hs). apply bind_result_Ok in Hs as (x9 & E9 & Hs).
  apply bind_result_Ok in Hs as (m10 & E10 & Hs). apply bind_result_Ok in Hs as (m11 & E11 & Hs).
  apply bind_result_Ok in Hs as (x12 & E12 & Hs). apply bind_result_Ok in Hs as (x13 & E13 & Hs).
  apply bind_result_Ok in Hs as (x14 & E14 & Hs). apply bind_result_Ok in Hs as (x15 & E15 & [= <- <-]).
  exists x4, he, m5, m10, m11. unfold early, middle, late.
  rewrite E1. simpl. rewrite E2. simpl. rewrite E3. simpl in *. rewrite E6. simpl. rewrite E7. simpl.
  rewrite E8. simpl. rewrite E9. simpl. rewrite E12. simpl. rewrite E13. simpl. rewrite E14. done.
Qed.

Lemma history_keeps h k v : k <> "wireguard" -> keeps k v (migrate_history history_v2 history_v1 h v).
Proof.
  intros Hk. unfold migrate_history. destruct h as [h|]; [|eauto with keeps].
  destruct (migrate_location _ _ _ _ _) as [old new]. intros v' ([w f] & Hw & [= <-])%bind_result_Ok. simpl.
  revert Hw. unfold migrate_formats. destruct new as [content|]; [|by intros [= <- <-]].
  destruct (readable h), (is_format_v3 content); simpl; try by intros [= <- <-].
  intros ([w2 t] & Hw & Hf)%bind_result_Ok. destruct (writable h); [|done]. injection Hf as <- <-. simpl.
  revert Hw. unfold migrate_formats_inner.
  destruct (history_v2 content) as [[|[t' data] l]|].
  - by intros [= <- <-].
  - intros (x & Hx & [= <- <-])%bind_result_Ok. revert Hx. unfold assign. by apply keeps_index_mut.
  - destruct (history_v1 content); by intros [= <- <-].
Qed.

Lemma history_version h v v' :
  migrate_history history_v2 history_v1 h v = Ok v' -> version_of v' = version_of v.
Proof. intros Hv. apply (history_keeps h "settings_version") in Hv; [|done]. unfold version_of. by rewrite Hv. Qed.

Lemma v5_version k v v' d :
  v5_migrate v = Ok (v', d) -> version_of v = Z.max k 5 ->
  version_of v' = Z.max k 6 /\ ((5 < k)%Z -> v' = v).
Proof.
  intros Hv Hk. apply v5_advances in Hv. rewrite version_matches_of in Hv by done.
  destruct (Z.eqb_spec (version_of v) 5) as [E|E].
  - split; [|lia]. unfold version_of. rewrite Hv. simpl. lia.
  - destruct Hv as [-> _]. split; [lia|done].
Qed.

(** The stages of a migration that succeeds, with the versions and the entries between them. *)
Record stages (s s' m10 m11 : Value) : Prop := {
  stage_10 : version_of m10 = Z.max (version_of s) 11;
  stage_11 : v11_migrate m10 = Ok m11;
  stage_12 : version_of m11 = Z.max (version_of s) 12;
  stage_late : late m11 = Ok s';
  stage_16 : version_of s' = 16%Z;
  stage_keeps : forall k, k ∉ TOUCHED -> get k m10 = get k s;
}.

Lemma version_of_range v : (0 <= version_of v <= CURRENT_SETTINGS_VERSION)%Z.
Proof.
  unfold version_of, CURRENT_SETTINGS_VERSION. destruct (get "settings_version" v) as [[]|]; try lia.
  destruct ((2 <=? n)%Z && (n <=? 16)%Z) eqn:E; lia.
Qed.

Lemma migrate_stages h s s' d :
  migrate h s = Ok (s', d) -> version_of s <> 0%Z -> exists m10 m11, stages s s' m10 m11.
Proof.
  intros (e & he & m5 & m10 & m11 & He & Hh & H5 & Hm & H11 & Hl)%migrate_settings_inv Hs.
  assert (Hr := version_of_range s). unfold CURRENT_SETTINGS_VERSION in Hr.
  destruct (early_version _ _ He) as [Ve _]; [lia|].
  assert (Vh := history_version _ _ _ Hh). rewrite Ve in Vh.
  destruct (v5_version _ _ _ _ H5 Vh) as [V5 _]. destruct (middle_version _ _ _ Hm V5) as [Vm _].
  destruct (advance 11 _ _ _ _ v11_advances ltac:(done) H11 Vm) as [V11 _].
  destruct (late_version _ _ _ Hl V11) as [Vl _].
  exists m10, m11. split; try done; [by rewrite Vl; lia|].
  intros k Hk. rewrite (middle_keeps _ _ Hk _ Hm), (v5_keeps _ _ _ _ Hk H5).
  assert (k <> "wireguard") by (intros ->; apply Hk; unfold TOUCHED; set_solver).
  rewrite (history_keeps h k e) with (v' := he) by done. exact (early_keeps _ _ Hk _ He).
Qed.

Lemma version_16 v : version_of v = 16%Z -> get "settings_version" v = Some (Number 16).
Proof.
  unfold version_of. destruct (get "settings_version" v) as [[]|]; try done.
  destruct ((2 <=? n)%Z && (n <=? CURRENT_SETTINGS_VERSION)%Z); [by intros -> | done].
Qed.

(** Settings of the current version are left as they are. *)
Lemma current_unchanged v :
  get "settings_version" v = Some (Number 16) -> migrate None v = Ok (v, None).
Proof.
  intros Hv. assert (Hm : forall n, version_matches n v = (16 =? n)%Z) by (intros n; unfold version_matches; by rewrite Hv).
  assert (H1 : v1_migrate v = Ok v) by (unfold v1_migrate; by rewrite Hv).
  assert (H5 : v5_migrate v = Ok (v, None)) by (unfold v5_migrate; by rewrite Hm).
  unfold migrate_settings. destruct v as [| | | | |m]; try done. rewrite H1. simpl.
  unfold v2_migrate. rewrite Hm. simpl. unfold v3_migrate. rewrite Hm. simpl. unfold v4_migrate. rewrite Hm. simpl.
  rewrite H5. simpl. unfold v6_migrate. rewrite Hm. simpl. unfold v7_migrate. rewrite Hm. simpl.
  unfold v8_migrate. rewrite Hm. simpl. unfold v9_migrate. rewrite Hm. simpl. unfold v10_migrate. rewrite Hm. simpl.
  unfold v11_migrate. rewrite Hm. simpl. unfold v12_migrate. rewrite Hm. simpl. unfold v13_migrate. rewrite Hm. simpl.
  unfold v14_migrate. rewrite Hm. simpl. unfold v15_migrate. by rewrite Hm.
Qed.

(** ** Unique names *)
Lemma generated_inj n a b : (n ++ "_" ++ pretty (a : nat))%string = (n ++ "_" ++ pretty b)%string -> a = b.
Proof. intros E. apply (inj (String.append n)) in E. apply (inj (String.append "_")) in E. by apply (inj pretty) in E. Qed.

Lemma generate_None names n index : forall fuel s,
  generate_access_method_name fuel names n index s = None ->
  forall j, j ∈ seq s fuel -> (n ++ "_" ++ pretty j)%string ∈ take index names.
Proof.
  induction fuel as [|fuel IH]; intros s; simpl; [set_solver|]. unfold get_should_rename_api_access_method.
  case_bool_decide as E; [|done]. intros Hn j [->|Hj]%elem_of_cons; [done | by eapply IH].
Qed.

(** Enough suffixes are tried: each of them could collide with another name only. *)
Lemma generate_total names n index s :
  is_Some (generate_access_method_name (S (List.length names)) names n index s).
Proof.
  destruct (generate_access_method_name _ _ _ _ _) eqn:E; [done|]. exfalso.
  assert (Hall := generate_None _ _ _ _ _ E).
  set (c := map (fun j => (n ++ "_" ++ pretty (j : nat))%string) (seq s (S (List.length names)))) in *.
  assert (Hnd : NoDup c).
  { apply NoDup_fmap_2_strong; [intros a b _ _; apply generated_inj | apply NoDup_seq]. }
  assert (Hsub : c ⊆+ take index names).
  { apply NoDup_submseteq; [done|]. intros x (j & -> & Hj)%list_elem_of_fmap. by apply Hall. }
  apply submseteq_length in Hsub. unfold c in Hsub. rewrite length_fmap, length_seq, length_take in Hsub. lia.
Qed.

Lemma generate_fresh names n index : forall fuel s new,
  generate_access_method_name fuel names n index s = Some new -> new ∉ take index names.
Proof.
  induction fuel as [|fuel IH]; intros s new; simpl; [done|]. unfold get_should_rename_api_access_method.
  case_bool_decide as E; [by apply IH | by intros [= <-]].
Qed.

Lemma rename_at_ok names index :
  NoDup (take index names) ->
  exists names', rename_at names index = Some names' /\ List.length names' = List.length names
    /\ NoDup (take (S index) names').
Proof.
  intros Hnd. unfold rename_at. destruct (names !! index) as [n|] eqn:En.
  - unfold get_should_rename_api_access_method. case_bool_decide as Ed.
    + destruct (generate_total names n index (initial_suffix names n)) as [new Hg]. rewrite Hg. simpl.
      eexists. split; [done|]. split; [by rewrite length_insert|].
      assert (Hi : index < List.length names) by by eapply lookup_lt_Some.
      rewrite (take_S_r _ _ new) by (by rewrite list_lookup_insert_eq).
      rewrite take_insert_ge by lia. apply NoDup_app. split; [done|]. split; [|apply NoDup_singleton].
      intros x Hx ->%list_elem_of_singleton. by eapply generate_fresh.
    + eexists. split_and!; [done..|]. rewrite (take_S_r _ _ n) by done. apply NoDup_app.
      split; [done|]. split; [|apply NoDup_singleton]. by intros x Hx ->%list_elem_of_singleton.
  - eexists. split_and!; [done..|]. apply lookup_ge_None in En. rewrite !take_ge in * by lia. done.
Qed.

Lemma rename_all_ok names :
  exists names', rename_all names = Some names' /\ List.length names' = List.length names /\ NoDup names'.
Proof.
  unfold rename_all.
  assert (Hind : forall n, exists names', 
    foldl (fun acc index => names ← acc; rename_at names index) (Some names) (seq 0 n) = Some names'
    /\ List.length names' = List.length names /\ NoDup (take n names')).
  { induction n as [|n (l & El & Hl & Hn)]; [eexists; split_and!; [done..|]; by rewrite take_0; constructor|].
    rewrite seq_S, foldl_app, El. simpl. destruct (rename_at_ok l n Hn) as (l' & -> & Hl' & Hn').
    eexists. split_and!; [done | congruence | done]. }
  destruct (Hind (List.length names)) as (l & -> & Hl & Hn). exists l. split_and!; [done..|].
  by rewrite take_ge in Hn by lia.
Qed.

Lemma method_name_put v m n : v = Object m -> method_name (Object (map_insert "name" (Str n) m)) = Some n.
Proof. intros ->. unfold method_name, get. simpl. by rewrite map_get_insert. Qed.

Lemma put_names_names l : forall names,
  List.length names = List.length (omap method_name l) -> omap method_name (put_names names l) = names.
Proof.
  induction l as [|v l IH]; intros names Hl; csimpl in *; [by destruct names|].
  destruct (method_name v) as [o|] eqn:E; csimpl in *.
  - destruct names as [|n names]; [done|]. destruct v as [| | | | |m]; try done. csimpl.
    rewrite (method_name_put _ _ _ eq_refl), IH; [done|]. simpl in Hl. lia.
  - rewrite E. by apply IH.
Qed.

Lemma rename_methods_unique l l' : rename_methods l = Ok l' -> NoDup (omap method_name l').
Proof.
  unfold rename_methods. destruct (rename_all_ok (omap method_name l)) as (names & -> & Hl & Hn).
  intros [= <-]. by rewrite put_names_names.
Qed.

Lemma with_path_get ks f : forall v v' x',
  with_path ks f v = Ok v' -> get_path ks v' = Some x' -> exists x, get_path ks v = Some x /\ f x = Ok x'.
Proof.
  induction ks as [|k ks IH]; intros v v' x' Hw Hg; simpl in *; [naive_solver|].
  destruct v as [| | | | |m]; simplify_eq/=; try done.
  unfold get at 1. simpl. destruct (map_get k m) as [y|] eqn:Ey.
  - apply bind_result_Ok in Hw as (y' & Hy & [= <-]). unfold get in Hg. simpl in Hg.
    rewrite map_get_insert, decide_True in Hg by done. simpl in Hg. by eapply IH.
  - simplify_eq. unfold get in Hg. simpl in Hg. by rewrite Ey in Hg.
Qed.

#[local] Hint Extern 1 (_ <> _) => discriminate : keeps.
Lemma late_keeps_methods v : keeps "api_access_methods" v (late v).
Proof.
  unfold late, v12_migrate, v13_migrate, v14_migrate, v15_migrate, migrate_filters_to_new_entry_only_filters,
    migrate_quantum_resistance, migrate_wireguard_port, migrate_entry_location, set_version, assign,
    WIREGUARD_CONSTRAINTS, NORMAL. simpl app. keeps_steps.
Qed.

(** C34. A migration that succeeds reaches the current version, whatever known version it starts from;
    migrating again changes nothing; and settings the migrations are not about are left as they were. *)
Theorem migrations_reach_current h s s' d :
  migrate h s = Ok (s', d) -> version_of s <> 0%Z ->
  get "settings_version" s' = Some (Number CURRENT_SETTINGS_VERSION)
  /\ migrate None s' = Ok (s', None)
  /\ (forall k, k ∉ TOUCHED -> k ∉ RENAMED -> get k s' = get k s).
Proof.
  intros Hm Hs. destruct (migrate_stages _ _ _ _ Hm Hs) as (m10 & m11 & [V10 H11 V11 Hl Vl Hk]). clear Hm.
  apply version_16 in Vl. split_and!; [done | by apply current_unchanged|].
  intros k Ht Hr. rewrite (late_keeps _ _ Ht _ Hl), (v11_keeps _ _ Ht Hr _ H11). by apply Hk.
Qed.

(** C21. The kill switch of the disconnected state survives migrations: whether the internet is blocked
    while disconnected is, under its new name, what it was under its old one. *)
Theorem lockdown_survives h s s' d :
  migrate h s = Ok (s', d) -> version_of s <> 0%Z ->
  get "lockdown_mode" s'
  = (if (version_of s <=? 11)%Z then get "block_when_disconnected" s else get "lockdown_mode" s)
  /\ ((version_of s <= 11)%Z -> is_Some (get "lockdown_mode" s')).
Proof.
  intros Hm Hs. destruct (migrate_stages _ _ _ _ Hm Hs) as (m10 & m11 & [V10 H11 V11 Hl Vl Hk]). clear Hm.
  assert (Ht : forall k, k ∈ RENAMED -> k ∉ TOUCHED) by (unfold RENAMED, TOUCHED; set_solver).
  rewrite (late_keeps "lockdown_mode" _ ltac:(by apply Ht; unfold RENAMED; set_solver) _ Hl).
  rewrite <- !Hk by (apply Ht; unfold RENAMED; set_solver).
  destruct (Z.leb_spec (version_of s) 11) as [E|E].
  - assert (Hm : version_matches 11 m10 = true) by (rewrite version_matches_of by done; apply Z.eqb_eq; lia).
    destruct (v11_lockdown _ _ Hm H11) as [-> ?]. split; [done | by intros _].
  - apply v11_advances in H11. rewrite version_matches_of in H11 by done.
    destruct (Z.eqb_spec (version_of m10) 11); [lia|]. subst. split; [done|lia].
Qed.

(** After a migration from version 11 or before, the names of custom access methods are different, as
    the current version demands; the search for new names always ends. *)
Theorem method_names_unique h s s' d l :
  migrate h s = Ok (s', d) -> version_of s <> 0%Z -> (version_of s <= 11)%Z ->
  get_path ["api_access_methods"; "custom"] s' = Some (Array l) -> NoDup (omap method_name l).
Proof.
  intros Hm Hs Hle Hl'. destruct (migrate_stages _ _ _ _ Hm Hs) as (m10 & m11 & [V10 H11 V11 Hl Vl Hk]).
  simpl in Hl'. rewrite (late_keeps_methods _ _ Hl) in Hl'. change (get_path ["api_access_methods"; "custom"] m11 = Some (Array l)) in Hl'.
  unfold v11_migrate in H11. rewrite version_matches_of in H11 by done.
  destruct (Z.eqb_spec (version_of m10) 11) as [_|]; [|lia].
  apply bind_result_Ok in H11 as (a & _ & (b & Hb & Hc)%bind_result_Ok).
  assert (Hkeep : keeps "api_access_methods" b (set_version 12 b)) by (unfold set_version, assign; eauto with keeps).
  simpl in Hl'. rewrite (Hkeep _ Hc) in Hl'. apply bind_result_Ok in Hb as (m & _ & Hb).
  destruct (with_path_get _ _ _ _ _ Hb Hl') as (x & _ & Hx). unfold on_array in Hx.
  destruct x; simplify_eq. apply bind_result_Ok in Hx as (l2 & Hx & [= <-]). by eapply rename_methods_unique.
Qed.
End props.

(** * Migrations of concrete settings

    The theorems of [MigrationsProps] applied to settings of the first version, and settings that the
    migrations do not treat as they mean to. *)

(** ** The conversions on the texts that the program itself writes *)
Definition constraint_of {T} (f : Value -> option T) (v : Value) : option (Constraint T) :=
  match v with
  | Str s => if decide (s = "any") then Some Any else None
  | Object [(k, x)] => if decide (k = "only") then Only <$> f x else None
  | _ => None
  end.
Definition u16_of (v : Value) : option Z :=
  match v with Number n => if ((0 <=? n) && (n <? 2 ^ 16))%Z then Some n else None | _ => None end.
Definition protocol_of (v : Value) : option TransportProtocol :=
  s ← as_str v; if decide (s = "udp") then Some Udp else if decide (s = "tcp") then Some Tcp else None.
Definition transport_port_of (v : Value) : option TransportPort :=
  t ← get "protocol" v ≫= protocol_of; p ← get "port" v ≫= constraint_of u16_of;
  Some {| protocol := t; port := p |}.
Definition quote : string := String (ascii_of_nat 34) EmptyString.

Definition serde_example : Serde := {|
  constraint_u16 := constraint_of u16_of;
  constraint_protocol := constraint_of protocol_of;
  constraint_transport_port := constraint_of transport_port_of;
  ip_addrs := fun v => as_array v ≫= mapM as_str;
  bridge_constraints := Some;
  socket_addr := Some;
  shadowsocks_cipher := Some;
  to_text := fun v => match v with Str s => (quote ++ s ++ quote)%string | _ => "" end;
|}.
#[local] Existing Instance serde_example.

Definition no_history {A} : string -> option A := fun _ => None.
Notation migrate := (migrate_settings no_history no_history None).

(** ** Settings of the first version *)
Definition custom_method (name : string) : Value :=
  object [("id", Str name); ("name", Str name);
          ("access_method", object [("custom", object [("shadowsocks", object [("peer", Str "1.2.3.4:80")])])])].
Definition settings_v1 : Value :=
  object [("relay_settings", object [("normal", object [("location", Str "any");
             ("tunnel", object [("only", object [("openvpn", object [("port", Str "any"); ("protocol", Str "any")])])])])]);
          ("tunnel_options", object [("wireguard", object [("automatic_rotation", Number 48)])]);
          ("api_access_methods", object [("access_method_settings",
             Array [custom_method "home"; custom_method "home"; custom_method "home"])]);
          ("block_when_disconnected", Bool true); ("allow_lan", Bool true)].

Definition migrated : Value := match migrate settings_v1 with Ok (v, _) => v | Err _ => Null end.

Lemma settings_v1_migrates : migrate settings_v1 = Ok (migrated, None).
Proof. by vm_compute. Qed.

Lemma migrations_reach_current_witness :
  migrate migrated = Ok (migrated, None) /\ get "allow_lan" migrated = get "allow_lan" settings_v1.
Proof.
  destruct (migrations_reach_current no_history no_history None settings_v1 migrated None settings_v1_migrates)
    as (_ & Hi & Hk); [by vm_compute|].
  split; [exact Hi|]. apply Hk; apply (bool_decide_unpack _); vm_compute; exact I.
Defined.

Lemma lockdown_survives_witness : get "lockdown_mode" migrated = Some (Bool true).
Proof.
  apply (lockdown_survives no_history no_history None settings_v1 migrated None settings_v1_migrates).
  by vm_compute.
Defined.

Lemma method_names_unique_witness : NoDup ["home"; "home_2"; "home_1"].
Proof.
  assert (E : exists l, get_path ["api_access_methods"; "custom"] migrated = Some (Array l)
                       /\ omap method_name l = ["home"; "home_2"; "home_1"]) by (vm_compute; eauto).
  destruct E as (l & El & <-).
  apply (method_names_unique no_history no_history None settings_v1 migrated None l settings_v1_migrates);
    [by vm_compute | by vm_compute | exact El].
Defined.

(** ** What goes wrong *)
(** Version 5 removes an entry location that is null, and version 15 panics where there is none: settings
    of version 5 that contain a null entry location, which was valid, stop the daemon at every start. *)
Definition settings_v5 : Value :=
  object [("settings_version", Number 5);
          ("relay_settings", object [("normal", object [("wireguard_constraints", object [("entry_location", Null)])])]);
          ("tunnel_options", object [("wireguard", object [])]); ("block_when_disconnected", Bool false)].

Theorem null_entry_location_panics : migrate settings_v5 = Err Panicked.
Proof. by vm_compute. Qed.

(** A location that is not an object is to be refused, but makes [wrap_location] panic before it looks. *)
Theorem wrap_location_panics : wrap_location (object [("only", Str "se")]) = Err Panicked.
Proof. by vm_compute. Qed.

(** A hostname is stored as an array of country, city and host, in which version 10 does not look: the
    protocol of an OpenVPN relay becomes WireGuard. *)
Theorem openvpn_hostname_ignored :
  let normal := object [("tunnel_protocol", Str "any");
    ("location", object [("only", object [("location", object [("hostname",
       Array [Str "ch"; Str "zrh"; Str "ch-zrh-ovpn-001"])])])])] in
  exists v, migrate_tunnel_type_inner normal = Ok v /\ get "tunnel_protocol" v = Some (Str "wireguard").
Proof. eexists. split; vm_compute; reflexivity. Qed.

(** The port of WireGuard is removed from the constraints also when there are no obfuscation settings it
    could be moved to, and is then lost. *)
Theorem wireguard_port_lost :
  let settings := object [("settings_version", Number 14); ("relay_settings", object [("normal",
    object [("wireguard_constraints", object [("port", object [("only", Number 53)])])])])] in
  v14_migrate settings
  = Ok (object [("settings_version", Number 15); ("relay_settings", object [("normal",
          object [("wireguard_constraints", object [])])])]).
Proof. by vm_compute. Qed.

(** The credentials of a SOCKS5 proxy are stored with the quotes of JSON around them. *)
Theorem credentials_quoted :
  socks5_remote (object [("address", Str "1.2.3.4:80");
                         ("auth", object [("username", Str "user"); ("password", Str "pass")])])
  = Ok (object [("socks5_remote", object [("endpoint", Str "1.2.3.4:80");
         ("auth", object [("username", Str (quote ++ "user" ++ quote)); ("password", Str (quote ++ "pass" ++ quote))])])]).
Proof. by vm_compute. Qed.
