(* ===== verification/Settings.v ===== *)
(** * The settings of the daemon

    [src/mullvad-types/src/settings/mod.rs] with [settings/dns.rs], the settings in the Linux build, and what
    the daemon derives from them: the name servers ([src/mullvad-daemon/src/dns.rs]) and the features shown
    to the user ([src/mullvad-types/src/features.rs]).

    A custom proxy is opaque.  The identifiers of the built-in access methods are drawn when the default
    settings are made; they are an argument. *)

From stdpp Require Import base list strings gmap option numbers sets.
From S2P Require Import Prelude Retry DeviceService DeviceManager AccessMethods NetTypes TunnelTypes FirewallPolicy.
From S2P Require Import RelayTypes RelaySelector.
Local Open Scope vpn_scope.

(** ** Equality of what the settings are made of *)
#[global] Instance IpNetwork_eq_dec : EqDecision IpNetwork.
Proof. solve_decision. Defined.
#[global] Instance PeerConfig_eq_dec : EqDecision PeerConfig.
Proof. solve_decision. Defined.
#[global] Instance TunnelConfig_eq_dec : EqDecision TunnelConfig.
Proof. solve_decision. Defined.
#[global] Instance ConnectionConfig_eq_dec : EqDecision ConnectionConfig.
Proof. solve_decision. Defined.
#[global] Instance GenericTunnelOptions_eq_dec : EqDecision GenericTunnelOptions.
Proof. solve_decision. Defined.
#[global] Instance SelectedObfuscation_eq_dec : EqDecision SelectedObfuscation.
Proof. solve_decision. Defined.
#[global] Instance ObfuscationSettings_eq_dec : EqDecision ObfuscationSettings.
Proof. solve_decision. Defined.
#[global] Instance CustomList_eq_dec : EqDecision CustomList.
Proof. solve_decision. Defined.
#[global] Instance RelayOverride_eq_dec : EqDecision RelayOverride.
Proof. solve_decision. Defined.
#[global] Instance Constraint_Providers_eq_dec : EqDecision (Constraint Providers).
Proof. unfold Providers. solve_decision. Defined.
#[global] Instance WireguardConstraints_eq_dec : EqDecision WireguardConstraints.
Proof. solve_decision. Defined.
#[global] Instance RelayConstraints_eq_dec : EqDecision RelayConstraints.
Proof. solve_decision. Defined.
#[global] Instance RotationInterval_eq_dec : EqDecision RotationInterval.
Proof. solve_decision. Defined.
#[global] Instance AccessSettings_eq_dec `{EqDecision CustomProxy} : EqDecision (@AccessMethods.Settings CustomProxy).
Proof. solve_decision. Defined.

(** ** Tunnel options *)
Inductive QuantumResistantState : Type := QrOn | QrOff.
#[global] Instance QuantumResistantState_eq_dec : EqDecision QuantumResistantState.
Proof. solve_decision. Defined.
Definition quantum_enabled (q : QuantumResistantState) : bool := match q with QrOn => true | QrOff => false end.

Record DaitaSettings : Type := { daita_on : bool; use_multihop_if_necessary : bool }.
#[global] Instance DaitaSettings_eq_dec : EqDecision DaitaSettings.
Proof. solve_decision. Defined.
Definition DaitaSettings_default : DaitaSettings := {| daita_on := false; use_multihop_if_necessary := true |}.

(** [wireguard::TunnelOptions] of [mullvad-types]. *)
Record WireguardOptions : Type := {
  wg_mtu : option Z;
  wg_quantum_resistant : QuantumResistantState;
  wg_daita : DaitaSettings;
  wg_userspace : bool;
  wg_rotation_interval : option RotationInterval;
}.
#[global] Instance WireguardOptions_eq_dec : EqDecision WireguardOptions.
Proof. solve_decision. Defined.
Definition WireguardOptions_default : WireguardOptions :=
  {| wg_mtu := None; wg_quantum_resistant := QrOn; wg_daita := DaitaSettings_default; wg_userspace := false;
     wg_rotation_interval := None |}.
Definition set_wg_mtu (x : option Z) (s : WireguardOptions) : WireguardOptions :=
  {| wg_mtu := x; wg_quantum_resistant := wg_quantum_resistant s; wg_daita := wg_daita s; wg_userspace
     := wg_userspace s; wg_rotation_interval := wg_rotation_interval s |}.
Definition set_wg_quantum_resistant (x : QuantumResistantState) (s : WireguardOptions) : WireguardOptions :=
  {| wg_mtu := wg_mtu s; wg_quantum_resistant := x; wg_daita := wg_daita s; wg_userspace := wg_userspace
     s; wg_rotation_interval := wg_rotation_interval s |}.
Definition set_wg_daita (x : DaitaSettings) (s : WireguardOptions) : WireguardOptions :=
  {| wg_mtu := wg_mtu s; wg_quantum_resistant := wg_quantum_resistant s; wg_daita := x; wg_userspace :=
     wg_userspace s; wg_rotation_interval := wg_rotation_interval s |}.
Definition set_wg_userspace (x : bool) (s : WireguardOptions) : WireguardOptions :=
  {| wg_mtu := wg_mtu s; wg_quantum_resistant := wg_quantum_resistant s; wg_daita := wg_daita s;
     wg_userspace := x; wg_rotation_interval := wg_rotation_interval s |}.
Definition set_wg_rotation_interval (x : option RotationInterval) (s : WireguardOptions) : WireguardOptions :=
  {| wg_mtu := wg_mtu s; wg_quantum_resistant := wg_quantum_resistant s; wg_daita := wg_daita s;
     wg_userspace := wg_userspace s; wg_rotation_interval := x |}.

Definition into_talpid_tunnel_options (s : WireguardOptions) : TunnelOptions :=
  {| mtu := wg_mtu s; quantum_resistant := quantum_enabled (wg_quantum_resistant s);
     NetTypes.daita := daita_on (wg_daita s); userspace := wg_userspace s |}.

(** ** DNS *)
Inductive DnsState : Type := DnsStateDefault | DnsStateCustom.
#[global] Instance DnsState_eq_dec : EqDecision DnsState.
Proof. solve_decision. Defined.

Record DefaultDnsOptions : Type := {
  block_ads : bool; block_trackers : bool; block_malware : bool; block_adult_content : bool;
  block_gambling : bool; block_social_media : bool;
}.
#[global] Instance DefaultDnsOptions_eq_dec : EqDecision DefaultDnsOptions.
Proof. solve_decision. Defined.
Definition DefaultDnsOptions_new : DefaultDnsOptions :=
  {| block_ads := false; block_trackers := false; block_malware := false; block_adult_content := false;
     block_gambling := false; block_social_media := false |}.
Definition any_blockers_enabled (o : DefaultDnsOptions) : bool :=
  block_ads o || block_trackers o || block_malware o || block_adult_content o || block_gambling o
  || block_social_media o.

(** [custom_options] has the addresses as its only field. *)
Record DnsOptions : Type := {
  dns_state : DnsState; default_options : DefaultDnsOptions; custom_addresses : list IpAddr
}.
#[global] Instance DnsOptions_eq_dec : EqDecision DnsOptions.
Proof. solve_decision. Defined.
Definition DnsOptions_default : DnsOptions :=
  {| dns_state := DnsStateDefault; default_options := DefaultDnsOptions_new; custom_addresses := [] |}.

(** 100.64.0.0 *)
Definition DNS_BLOCKING_IP_BASE : Z := 1681915904.
Definition DNS_AD_BLOCKING_IP_BIT : Z := 1.
Definition DNS_TRACKER_BLOCKING_IP_BIT : Z := 2.
Definition DNS_MALWARE_BLOCKING_IP_BIT : Z := 4.
Definition DNS_ADULT_BLOCKING_IP_BIT : Z := 8.
Definition DNS_GAMBLING_BLOCKING_IP_BIT : Z := 16.
Definition DNS_SOCIAL_MEDIA_BLOCKING_IP_BIT : Z := 32.

Definition blocking_last_byte (o : DefaultDnsOptions) : Z :=
  let set (b : bool) bit acc := if b then Z.lor acc bit else acc in
  set (block_social_media o) DNS_SOCIAL_MEDIA_BLOCKING_IP_BIT
    (set (block_gambling o) DNS_GAMBLING_BLOCKING_IP_BIT
      (set (block_adult_content o) DNS_ADULT_BLOCKING_IP_BIT
        (set (block_malware o) DNS_MALWARE_BLOCKING_IP_BIT
          (set (block_trackers o) DNS_TRACKER_BLOCKING_IP_BIT
            (set (block_ads o) DNS_AD_BLOCKING_IP_BIT 0%Z))))).

Definition addresses_from_options `{IpNetworkOps} (options : DnsOptions) : DnsConfig :=
  match dns_state options with
  | DnsStateDefault =>
      let last_byte := blocking_last_byte (default_options options) in
      if (last_byte =? 0)%Z then DnsDefault
      else DnsConfig_from_addresses [V4 (Z.lor DNS_BLOCKING_IP_BASE last_byte)] []
  | DnsStateCustom =>
      match custom_addresses options with
      | [] => DnsDefault
      | addrs =>
          let '(non_tunnel_config, tunnel_config) := List.partition is_local_address addrs in
          DnsConfig_from_addresses tunnel_config non_tunnel_config
      end
  end.

Record DaemonTunnelOptions : Type := {
  wireguard : WireguardOptions; generic : GenericTunnelOptions; dns_options : DnsOptions
}.
#[global] Instance DaemonTunnelOptions_eq_dec : EqDecision DaemonTunnelOptions.
Proof. solve_decision. Defined.
Definition TunnelOptions_default : DaemonTunnelOptions :=
  {| wireguard := WireguardOptions_default; generic := {| enable_ipv6 := false |};
     dns_options := DnsOptions_default |}.
Definition set_wireguard (x : WireguardOptions) (s : DaemonTunnelOptions) : DaemonTunnelOptions :=
  {| wireguard := x; generic := generic s; dns_options := dns_options s |}.
Definition set_generic (x : GenericTunnelOptions) (s : DaemonTunnelOptions) : DaemonTunnelOptions :=
  {| wireguard := wireguard s; generic := x; dns_options := dns_options s |}.
Definition set_dns_options (x : DnsOptions) (s : DaemonTunnelOptions) : DaemonTunnelOptions :=
  {| wireguard := wireguard s; generic := generic s; dns_options := x |}.

(** ** Relay settings *)
Record CustomTunnelEndpoint : Type := { host : string; config : ConnectionConfig }.
#[global] Instance CustomTunnelEndpoint_eq_dec : EqDecision CustomTunnelEndpoint.
Proof. solve_decision. Defined.

Inductive RelaySettings : Type :=
| CustomEndpoint (e : CustomTunnelEndpoint)
| Normal (c : RelayConstraints).
#[global] Instance RelaySettings_eq_dec : EqDecision RelaySettings.
Proof. solve_decision. Defined.

Definition WireguardConstraints_default : WireguardConstraints :=
  {| wc_ip_version := Any; wc_allowed_ips := Any; use_multihop := false; entry_location := Any;
     entry_providers := Any; entry_ownership := Any |}.

Definition with_entry_location (l : Constraint LocationConstraint) (c : WireguardConstraints)
  : WireguardConstraints :=
  {| wc_ip_version := wc_ip_version c; wc_allowed_ips := wc_allowed_ips c; use_multihop := use_multihop c;
     entry_location := l; entry_providers := entry_providers c; entry_ownership := entry_ownership c |}.

Definition with_allowed_ips (ips : Constraint (list IpNetwork)) (c : RelayConstraints) : RelayConstraints :=
  let w := wireguard_constraints c in
  {| rc_location := rc_location c; rc_providers := rc_providers c; rc_ownership := rc_ownership c;
     wireguard_constraints :=
       {| wc_ip_version := wc_ip_version w; wc_allowed_ips := ips; use_multihop := use_multihop w;
          entry_location := entry_location w; entry_providers := entry_providers w;
          entry_ownership := entry_ownership w |} |}.

(** The constraints of the default settings, and of [on_update_default_location]. *)
Definition in_country (country : string) : RelayConstraints :=
  {| rc_location := Only (InLocation (Country country)); rc_providers := Any; rc_ownership := Any;
     wireguard_constraints :=
       with_entry_location (Only (InLocation (Country country))) WireguardConstraints_default |}.

(** ** Recents *)
Inductive Recent : Type :=
| RecentSinglehop (l : LocationConstraint)
| RecentMultihop (entry exit : LocationConstraint).
#[global] Instance Recent_eq_dec : EqDecision Recent.
Proof. solve_decision. Defined.

Definition constraint_option {T} (c : Constraint T) : option T := match c with Any => None | Only t => Some t end.

Definition is_hostname (l : LocationConstraint) : bool :=
  match l with InLocation (Hostname _ _ _) => true | _ => false end.

(** [Recent::try_from]; the texts of the errors are left out. *)
Definition Recent_try_from (value : RelaySettings) : option Recent :=
  match value with
  | CustomEndpoint _ => None
  | Normal constraints =>
      location ← constraint_option (rc_location constraints);
      if use_multihop (wireguard_constraints constraints) then
        entry ← constraint_option (entry_location (wireguard_constraints constraints));
        if is_hostname entry && is_hostname location && bool_decide (entry = location) then None
        else Some (RecentMultihop entry location)
      else Some (RecentSinglehop location)
  end.

Definition RECENTS_MAX_COUNT : nat := 50.

(** ** The settings *)
Definition CURRENT_VERSION : Z := 16.

Section settings.
Context {CustomProxy : Type} `{EqDecision CustomProxy}.

Record Settings : Type := {
  relay_settings : RelaySettings;
  obfuscation_settings : ObfuscationSettings;
  custom_lists : CustomListsSettings;
  api_access_methods : @AccessMethods.Settings CustomProxy;
  update_default_location : bool;
  allow_lan : bool;
  lockdown_mode : bool;
  auto_connect : bool;
  tunnel_options : DaemonTunnelOptions;
  relay_overrides : list RelayOverride;
  show_beta_releases : bool;
  settings_version : Z;
  recents : option (list Recent);
  rollout_threshold_seed : option Z;
}.
#[global] Instance Settings_eq_dec : EqDecision Settings.
Proof. solve_decision. Defined.

Definition set_relay_settings (x : RelaySettings) (s : Settings) : Settings :=
  {| relay_settings := x; obfuscation_settings := obfuscation_settings s; custom_lists := custom_lists
     s; api_access_methods := api_access_methods s; update_default_location := update_default_location
     s; allow_lan := allow_lan s; lockdown_mode := lockdown_mode s; auto_connect := auto_connect s;
     tunnel_options := tunnel_options s; relay_overrides := relay_overrides s; show_beta_releases :=
     show_beta_releases s; settings_version := settings_version s; recents := recents s;
     rollout_threshold_seed := rollout_threshold_seed s |}.
Definition set_obfuscation_settings (x : ObfuscationSettings) (s : Settings) : Settings :=
  {| relay_settings := relay_settings s; obfuscation_settings := x; custom_lists := custom_lists s;
     api_access_methods := api_access_methods s; update_default_location := update_default_location s;
     allow_lan := allow_lan s; lockdown_mode := lockdown_mode s; auto_connect := auto_connect s;
     tunnel_options := tunnel_options s; relay_overrides := relay_overrides s; show_beta_releases :=
     show_beta_releases s; settings_version := settings_version s; recents := recents s;
     rollout_threshold_seed := rollout_threshold_seed s |}.
Definition set_custom_lists (x : CustomListsSettings) (s : Settings) : Settings :=
  {| relay_settings := relay_settings s; obfuscation_settings := obfuscation_settings s; custom_lists :=
     x; api_access_methods := api_access_methods s; update_default_location := update_default_location
     s; allow_lan := allow_lan s; lockdown_mode := lockdown_mode s; auto_connect := auto_connect s;
     tunnel_options := tunnel_options s; relay_overrides := relay_overrides s; show_beta_releases :=
     show_beta_releases s; settings_version := settings_version s; recents := recents s;
     rollout_threshold_seed := rollout_threshold_seed s |}.
Definition set_api_access_methods (x : @AccessMethods.Settings CustomProxy) (s : Settings) : Settings :=
  {| relay_settings := relay_settings s; obfuscation_settings := obfuscation_settings s; custom_lists :=
     custom_lists s; api_access_methods := x; update_default_location := update_default_location s;
     allow_lan := allow_lan s; lockdown_mode := lockdown_mode s; auto_connect := auto_connect s;
     tunnel_options := tunnel_options s; relay_overrides := relay_overrides s; show_beta_releases :=
     show_beta_releases s; settings_version := settings_version s; recents := recents s;
     rollout_threshold_seed := rollout_threshold_seed s |}.
Definition set_update_default_location (x : bool) (s : Settings) : Settings :=
  {| relay_settings := relay_settings s; obfuscation_settings := obfuscation_settings s; custom_lists :=
     custom_lists s; api_access_methods := api_access_methods s; update_default_location := x; allow_lan
     := allow_lan s; lockdown_mode := lockdown_mode s; auto_connect := auto_connect s; tunnel_options :=
     tunnel_options s; relay_overrides := relay_overrides s; show_beta_releases := show_beta_releases s;
     settings_version := settings_version s; recents := recents s; rollout_threshold_seed :=
     rollout_threshold_seed s |}.
Definition set_allow_lan (x : bool) (s : Settings) : Settings :=
  {| relay_settings := relay_settings s; obfuscation_settings := obfuscation_settings s; custom_lists :=
     custom_lists s; api_access_methods := api_access_methods s; update_default_location :=
     update_default_location s; allow_lan := x; lockdown_mode := lockdown_mode s; auto_connect :=
     auto_connect s; tunnel_options := tunnel_options s; relay_overrides := relay_overrides s;
     show_beta_releases := show_beta_releases s; settings_version := settings_version s; recents :=
     recents s; rollout_threshold_seed := rollout_threshold_seed s |}.
Definition set_lockdown_mode (x : bool) (s : Settings) : Settings :=
  {| relay_settings := relay_settings s; obfuscation_settings := obfuscation_settings s; custom_lists :=
     custom_lists s; api_access_methods := api_access_methods s; update_default_location :=
     update_default_location s; allow_lan := allow_lan s; lockdown_mode := x; auto_connect :=
     auto_connect s; tunnel_options := tunnel_options s; relay_overrides := relay_overrides s;
     show_beta_releases := show_beta_releases s; settings_version := settings_version s; recents :=
     recents s; rollout_threshold_seed := rollout_threshold_seed s |}.
Definition set_auto_connect (x : bool) (s : Settings) : Settings :=
  {| relay_settings := relay_settings s; obfuscation_settings := obfuscation_settings s; custom_lists :=
     custom_lists s; api_access_methods := api_access_methods s; update_default_location :=
     update_default_location s; allow_lan := allow_lan s; lockdown_mode := lockdown_mode s; auto_connect
     := x; tunnel_options := tunnel_options s; relay_overrides := relay_overrides s; show_beta_releases
     := show_beta_releases s; settings_version := settings_version s; recents := recents s;
     rollout_threshold_seed := rollout_threshold_seed s |}.
Definition set_tunnel_options (x : DaemonTunnelOptions) (s : Settings) : Settings :=
  {| relay_settings := relay_settings s; obfuscation_settings := obfuscation_settings s; custom_lists :=
     custom_lists s; api_access_methods := api_access_methods s; update_default_location :=
     update_default_location s; allow_lan := allow_lan s; lockdown_mode := lockdown_mode s; auto_connect
     := auto_connect s; tunnel_options := x; relay_overrides := relay_overrides s; show_beta_releases :=
     show_beta_releases s; settings_version := settings_version s; recents := recents s;
     rollout_threshold_seed := rollout_threshold_seed s |}.
Definition set_relay_overrides (x : list RelayOverride) (s : Settings) : Settings :=
  {| relay_settings := relay_settings s; obfuscation_settings := obfuscation_settings s; custom_lists :=
     custom_lists s; api_access_methods := api_access_methods s; update_default_location :=
     update_default_location s; allow_lan := allow_lan s; lockdown_mode := lockdown_mode s; auto_connect
     := auto_connect s; tunnel_options := tunnel_options s; relay_overrides := x; show_beta_releases :=
     show_beta_releases s; settings_version := settings_version s; recents := recents s;
     rollout_threshold_seed := rollout_threshold_seed s |}.
Definition set_show_beta_releases (x : bool) (s : Settings) : Settings :=
  {| relay_settings := relay_settings s; obfuscation_settings := obfuscation_settings s; custom_lists :=
     custom_lists s; api_access_methods := api_access_methods s; update_default_location :=
     update_default_location s; allow_lan := allow_lan s; lockdown_mode := lockdown_mode s; auto_connect
     := auto_connect s; tunnel_options := tunnel_options s; relay_overrides := relay_overrides s;
     show_beta_releases := x; settings_version := settings_version s; recents := recents s;
     rollout_threshold_seed := rollout_threshold_seed s |}.
Definition set_settings_version (x : Z) (s : Settings) : Settings :=
  {| relay_settings := relay_settings s; obfuscation_settings := obfuscation_settings s; custom_lists :=
     custom_lists s; api_access_methods := api_access_methods s; update_default_location :=
     update_default_location s; allow_lan := allow_lan s; lockdown_mode := lockdown_mode s; auto_connect
     := auto_connect s; tunnel_options := tunnel_options s; relay_overrides := relay_overrides s;
     show_beta_releases := show_beta_releases s; settings_version := x; recents := recents s;
     rollout_threshold_seed := rollout_threshold_seed s |}.
Definition set_recents (x : option (list Recent)) (s : Settings) : Settings :=
  {| relay_settings := relay_settings s; obfuscation_settings := obfuscation_settings s; custom_lists :=
     custom_lists s; api_access_methods := api_access_methods s; update_default_location :=
     update_default_location s; allow_lan := allow_lan s; lockdown_mode := lockdown_mode s; auto_connect
     := auto_connect s; tunnel_options := tunnel_options s; relay_overrides := relay_overrides s;
     show_beta_releases := show_beta_releases s; settings_version := settings_version s; recents := x;
     rollout_threshold_seed := rollout_threshold_seed s |}.
Definition set_rollout_threshold_seed (x : option Z) (s : Settings) : Settings :=
  {| relay_settings := relay_settings s; obfuscation_settings := obfuscation_settings s; custom_lists :=
     custom_lists s; api_access_methods := api_access_methods s; update_default_location :=
     update_default_location s; allow_lan := allow_lan s; lockdown_mode := lockdown_mode s; auto_connect
     := auto_connect s; tunnel_options := tunnel_options s; relay_overrides := relay_overrides s;
     show_beta_releases := show_beta_releases s; settings_version := settings_version s; recents :=
     recents s; rollout_threshold_seed := x |}.

(** A change to the WireGuard options. *)
Definition on_wireguard (f : WireguardOptions -> WireguardOptions) (s : Settings) : Settings :=
  set_tunnel_options (set_wireguard (f (wireguard (tunnel_options s))) (tunnel_options s)) s.

Definition built_in (i : nat) (n : string) (b : BuiltInAccessMethod) : @AccessMethodSetting CustomProxy :=
  {| AccessMethods.id := i; AccessMethods.name := n; enabled := true; access_method := BuiltIn b |}.

(** The names are those of [BuiltInAccessMethod::canonical_name]. *)
Definition AccessSettings_default (ids : nat * nat * nat * nat) : @AccessMethods.Settings CustomProxy :=
  let '(i1, i2, i3, i4) := ids in
  {| direct := built_in i1 "Direct" DirectMethod; mullvad_bridges := built_in i2 "Mullvad Bridges" Bridge;
     encrypted_dns_proxy := built_in i3 "Encrypted DNS proxy" EncryptedDnsProxy;
     domain_fronting := built_in i4 "Domain fronting" DomainFronting; custom := [] |}.

Definition Settings_default (ids : nat * nat * nat * nat) : Settings :=
  {| relay_settings := Normal (in_country "se"); update_default_location := true;
     obfuscation_settings := settings_with SelAuto; custom_lists := [];
     api_access_methods := AccessSettings_default ids; allow_lan := false; lockdown_mode := false;
     auto_connect := false; tunnel_options := TunnelOptions_default; relay_overrides := [];
     show_beta_releases := false; settings_version := CURRENT_VERSION; recents := Some [];
     rollout_threshold_seed := None |}.

(** [set_relay_settings]: the change is only logged otherwise. *)
Definition set_relay_settings_update (new_settings : RelaySettings) (s : Settings) : Settings :=
  if decide (relay_settings s <> new_settings) then set_relay_settings new_settings s else s.

Definition override_is_empty (o : RelayOverride) : bool :=
  bool_decide (o = {| ov_hostname := ov_hostname o; ov_ipv4_addr_in := None; ov_ipv6_addr_in := None |}).

(** [Vec::swap_remove] of an index in range: the last element takes the place. *)
Definition swap_remove {A} (i : nat) (l : list A) : list A :=
  match last l with
  | Some x => if (S i =? length l)%nat then take i l else take (length l - 1) (<[i := x]> l)
  | None => l
  end.

Definition set_relay_override (o : RelayOverride) (s : Settings) : Settings :=
  let overrides := relay_overrides s in
  set_relay_overrides
    match list_find (fun elem => ov_hostname elem = ov_hostname o) overrides with
    | None => overrides ++ [o]
    | Some (index, _) => if override_is_empty o then swap_remove index overrides else <[index := o]> overrides
    end s.

Definition update_recents (s : Settings) : Settings :=
  match recents s, Recent_try_from (relay_settings s) with
  | Some rs, Some new_recent =>
      set_recents (Some (take RECENTS_MAX_COUNT (new_recent :: filter (fun r => r <> new_recent) rs))) s
  | _, _ => s
  end.

(** ** What the relay selector uses *)
Definition selector_settings (s : Settings) : SelectorSettings :=
  let d := wg_daita (wireguard (tunnel_options s)) in
  {| RelaySelector.relay_settings := match relay_settings s with Normal c => Some c | CustomEndpoint _ => None end;
     RelaySelector.obfuscation_settings := obfuscation_settings s; daita_enabled := daita_on d;
     RelaySelector.use_multihop_if_necessary := use_multihop_if_necessary d |}.

(** ** Feature indicators *)
Inductive FeatureIndicator : Type :=
| FQuantumResistance | FMultihop | FSplitTunneling | FLockdownMode | FWireguardPort | FUdp2Tcp | FShadowsocks
| FQuic | FLwo | FLanSharing | FDnsContentBlockers | FCustomDns | FServerIpOverride | FCustomMtu | FDaita
| FDaitaMultihop.
#[global] Instance FeatureIndicator_eq_dec : EqDecision FeatureIndicator.
Proof. solve_decision. Defined.
#[global] Instance ObfuscationType_eq_dec : EqDecision ObfuscationType.
Proof. solve_decision. Defined.

Definition has_obfuscation (endpoint : TunnelEndpoint) (obfs : ObfuscationType) : bool :=
  match te_obfuscation endpoint with
  | Some (InfoSingle e) => bool_decide (obfuscation_type e = obfs)
  | Some (InfoMultiplexer _ obfuscators) =>
      existsb (fun single => bool_decide (obfuscation_type single = obfs)) obfuscators
  | None => false
  end.

(** The set of the indicators whose condition holds, as a list in the order of the source. *)
Definition compute_feature_indicators (settings : Settings) (endpoint : TunnelEndpoint) (server_ip_override : bool)
  : list FeatureIndicator :=
  let dns := dns_options (tunnel_options settings) in
  let '(multihop, daita_multihop) :=
    match relay_settings settings with
    | Normal constraints =>
        let use := use_multihop (wireguard_constraints constraints) in
        let two_hops := bool_decide (is_Some (entry_endpoint endpoint)) in
        (two_hops && use, te_daita endpoint && two_hops && negb use)
    | CustomEndpoint _ => (false, false)
    end in
  omap (fun '(active, feature) => if active : bool then Some feature else None)
    [(false, FSplitTunneling);
     (allow_lan settings, FLanSharing);
     (any_blockers_enabled (default_options dns), FDnsContentBlockers);
     (bool_decide (dns_state dns = DnsStateCustom), FCustomDns);
     (server_ip_override, FServerIpOverride);
     (lockdown_mode settings, FLockdownMode);
     (te_quantum_resistant endpoint, FQuantumResistance);
     (multihop, FMultihop);
     (bool_decide (selected_obfuscation (obfuscation_settings settings) = SelWireguardPort), FWireguardPort);
     (has_obfuscation endpoint TypeUdp2Tcp, FUdp2Tcp);
     (has_obfuscation endpoint TypeShadowsocks, FShadowsocks);
     (has_obfuscation endpoint TypeQuic, FQuic);
     (has_obfuscation endpoint TypeLwo, FLwo);
     (bool_decide (is_Some (wg_mtu (wireguard (tunnel_options settings)))), FCustomMtu);
     (te_daita endpoint && negb daita_multihop, FDaita);
     (daita_multihop, FDaitaMultihop)].
End settings.
Arguments Settings : clear implicits.
