(* ===== verification/SettingsPersister.v ===== *)
(** * Keeping the settings

    [src/mullvad-daemon/src/settings/mod.rs], the settings in memory and on disk, and
    [src/mullvad-daemon/src/account_history.rs], the last account number.

    A file is what reading it gives, up to the fields that [serde] skips ([persisted]).  Settings are written to
    a temporary file that is then renamed, so a write that fails leaves the file as it was; [store] says how
    writing given settings ends.  The account history is truncated and then written in place, so a failure can
    leave anything. *)

From stdpp Require Import base list strings gmap option numbers sets.
From S2P Require Import Prelude Retry DeviceService DeviceManager AccessMethods NetTypes TunnelTypes FirewallPolicy.
From S2P Require Import RelayTypes RelaySelector Settings.
Local Open Scope vpn_scope.

Inductive UpdateError : Type :=
| CustomListFailure (e : CustomListError)
| AccessMethodFailure (e : AccessMethods.SettingsError).

Inductive SettingsError : Type :=
| ReadError (not_found : bool) | ParseError | DeleteError | SerializeError | WriteError
| UpdateFailed (e : UpdateError) | ParseIp.

(** What [serde] writes and reads of settings: not the fields of a peer that it skips, which are their defaults when
    they are read. *)
Definition skipping (p : PeerConfig) : PeerConfig :=
  {| NetTypes.public_key := NetTypes.public_key p; NetTypes.allowed_ips := NetTypes.allowed_ips p; peer_endpoint := peer_endpoint p;
     psk := None; constant_packet_size := false |}.
Definition persisted_endpoint (e : CustomTunnelEndpoint) : CustomTunnelEndpoint :=
  let c := config e in
  {| host := host e;
     config := {| cc_tunnel := cc_tunnel c; peer := skipping (peer c); exit_peer := skipping <$> exit_peer c;
                  cc_ipv4_gateway := cc_ipv4_gateway c; cc_ipv6_gateway := cc_ipv6_gateway c; cc_fwmark := cc_fwmark c |} |}.
Definition persisted {CustomProxy} (s : Settings CustomProxy) : Settings CustomProxy :=
  match relay_settings s with
  | CustomEndpoint e => set_relay_settings (CustomEndpoint (persisted_endpoint e)) s
  | Normal _ => s
  end.

Section persister.
Context {CustomProxy : Type} `{EqDecision CustomProxy}.

(** [Parsed None]: the content is not the text of settings. *)
Inductive SettingsFile : Type := NoSettings | UnreadableSettings | Parsed (s : option (Settings CustomProxy)).

Record SettingsPersister : Type := { settings : Settings CustomProxy; file : SettingsFile }.

(** How writing settings ends: [None] if it succeeds, otherwise [SerializeError] or [WriteError]. *)
Context (store : Settings CustomProxy -> option SettingsError).
(** [version::is_beta_version]. *)
Context (is_beta_version : bool).

Definition save_inner (new_settings : Settings CustomProxy) (f : SettingsFile) : SettingsFile * result unit SettingsError :=
  match store new_settings with
  | None => (Parsed (Some (persisted new_settings)), Ok tt)
  | Some e => (f, Err e)
  end.

(** The fresh identifiers of the built-in access methods are [ids]. *)
Definition default_settings (ids : nat * nat * nat * nat) : Settings CustomProxy :=
  let settings := Settings_default ids in
  if is_beta_version then set_show_beta_releases true settings else settings.

(** ** Loading *)
Record LoadSettingsResult : Type := { loaded : Settings CustomProxy; should_save : bool }.

Definition load_from_bytes (content : option (Settings CustomProxy)) : result (Settings CustomProxy) SettingsError :=
  match content with Some s => Ok (persisted s) | None => Err ParseError end.

Definition load_from_file (f : SettingsFile) : result (Settings CustomProxy) SettingsError :=
  match f with
  | NoSettings => Err (ReadError true)
  | UnreadableSettings => Err (ReadError false)
  | Parsed content => load_from_bytes content
  end.

Definition load_inner (ids : nat * nat * nat * nat) (r : result (Settings CustomProxy) SettingsError)
  : LoadSettingsResult :=
  let res :=
    match r with
    | Ok s => {| loaded := s; should_save := false |}
    | Err (ReadError true) => {| loaded := default_settings ids; should_save := true |}
    | Err _ => {| loaded := set_lockdown_mode true (default_settings ids); should_save := true |}
    end in
  if is_beta_version then
    {| loaded := set_show_beta_releases true (loaded res);
       should_save := should_save res || negb (show_beta_releases (loaded res)) |}
  else res.

Definition load (ids : nat * nat * nat * nat) (f : SettingsFile) : SettingsPersister :=
  let res := load_inner ids (load_from_file f) in
  {| settings := loaded res; file := if should_save res then (save_inner (loaded res) f).1 else f |}.

Definition read_only (ids : nat * nat * nat * nat) (f : SettingsFile) : Settings CustomProxy :=
  loaded (load_inner ids (load_from_file f)).

(** ** Changing: with what the listeners are given, if they are called. *)
Definition try_update (update_fn : Settings CustomProxy -> result (Settings CustomProxy) UpdateError) (p : SettingsPersister)
  : SettingsPersister * option (Settings CustomProxy) * result bool SettingsError :=
  match update_fn (settings p) with
  | Err e => (p, None, Err (UpdateFailed e))
  | Ok new_settings =>
      if decide (settings p = new_settings) then (p, None, Ok false)
      else
        match save_inner new_settings (file p) with
        | (f, Err e) => ({| settings := settings p; file := f |}, None, Err e)
        | (f, Ok _) => ({| settings := new_settings; file := f |}, Some new_settings, Ok true)
        end
  end.

Definition update (update_fn : Settings CustomProxy -> Settings CustomProxy) (p : SettingsPersister)
  : SettingsPersister * option (Settings CustomProxy) * result bool SettingsError :=
  try_update (fun s => Ok (update_fn s)) p.

(** [removable]: whether the file could be removed, if it is there. *)
Definition reset (ids : nat * nat * nat * nat) (removable : bool) (p : SettingsPersister)
  : SettingsPersister * option (Settings CustomProxy) * result unit SettingsError :=
  let s := default_settings ids in
  let '(f, r) :=
    match save_inner s (file p) with
    | (f, Ok _) => (f, Ok tt)
    | (f, Err _) =>
        match f with
        | NoSettings => (NoSettings, Ok tt)
        | _ => if removable then (NoSettings, Ok tt) else (f, Err DeleteError)
        end
    end in
  match r with
  | Ok _ => ({| settings := s; file := f |}, Some s, Ok tt)
  | Err e => ({| settings := s; file := f |}, None, Err e)
  end.
End persister.
Arguments SettingsPersister : clear implicits.
Arguments SettingsFile : clear implicits.

(** ** The account history *)
Inductive HistoryError : Type := HistoryRead | HistorySerialize | HistoryWrite | HistoryWriteCancelled.
(** What is in the file, if it can be read as text. *)
Definition HistoryFile : Type := option string.
Record AccountHistory : Type := { history_file : HistoryFile; number : option AccountNumber }.

(** [^[0-9]+$] *)
Definition is_digit (c : Ascii.ascii) : bool := (48 <=? Ascii.nat_of_ascii c)%nat && (Ascii.nat_of_ascii c <=? 57)%nat.
Definition ACCOUNT_REGEX (s : string) : bool :=
  match String.list_ascii_of_string s with [] => false | l => forallb is_digit l end.

(** How truncating and writing ends; a failure leaves something in the file. *)
Inductive HistoryWriteOutcome : Type := HistoryWritten | HistoryWriteFailed (remains : HistoryFile).

Definition save_to_disk (w : HistoryWriteOutcome) (h : AccountHistory) : AccountHistory * result unit HistoryError :=
  match w with
  | HistoryWritten => ({| history_file := Some (default EmptyString (number h)); number := number h |}, Ok tt)
  | HistoryWriteFailed remains => ({| history_file := remains; number := number h |}, Err HistoryWrite)
  end.

(** [opened]: whether the file could be opened or created. *)
Definition AccountHistory_new (opened : bool) (w : HistoryWriteOutcome) (f : HistoryFile) (current_number : option AccountNumber)
  : result AccountHistory HistoryError :=
  if opened then
    let '(n, should_save) :=
      match f with
      | Some buffer => if ACCOUNT_REGEX buffer then (Some buffer, false) else (current_number, true)
      | None => (current_number, true)
      end in
    let h := {| history_file := f; number := n |} in
    Ok (if should_save : bool then (save_to_disk w h).1 else h)
  else Err HistoryRead.

Definition history_set (w : HistoryWriteOutcome) (new_entry : AccountNumber) (h : AccountHistory)
  : AccountHistory * result unit HistoryError :=
  save_to_disk w {| history_file := history_file h; number := Some new_entry |}.

Definition history_clear (w : HistoryWriteOutcome) (h : AccountHistory) : AccountHistory * result unit HistoryError :=
  save_to_disk w {| history_file := history_file h; number := None |}.
