(* ===== verification/Daemon.v ===== *)
(** * The daemon

    [src/mullvad-daemon/src/lib.rs] with [custom_list.rs], [access_method.rs] and [geoip.rs], in the Linux
    build: the events and commands of the daemon, what it does for each of them, its start and its end.

    A handler is a function in a state monad over [Daemon] that lists what the handler does to the rest of
    the program ([Effect]), in order.  What the rest of the program answers while a handler waits for it is
    the record [Env]; what the account manager is asked while the handler waits is an effect.  A client's
    oneshot sender is a number; [NOBODY] is a sender whose receiver has been dropped at once.  Work that is
    handed to another task is an effect with the sender it answers ([Task]).
    The command channel of the tunnel state machine is open as long as the daemon runs: the machine stops
    only when the channel or the receiver of its transitions is gone. *)

From stdpp Require Import base list strings gmap option numbers sets.
From S2P Require Import Prelude Retry DeviceService DeviceManager AccessMethods NetTypes TunnelTypes FirewallPolicy.
From S2P Require Import TunnelStateMachine TargetState SettingsPatch RelayTypes RelaySelector Settings SettingsPersister.
Local Open Scope vpn_scope.

(** ** The state the clients see *)
Definition Tx : Type := nat.
Definition NOBODY : Tx := 0%nat.

(** Latitude and longitude are opaque. *)
Record GeoIpLocation : Type := {
  geo_ipv4 : option Z; geo_ipv6 : option Z; geo_country : string; geo_city : option string;
  geo_latitude : Z; geo_longitude : Z; mullvad_exit_ip : bool; geo_hostname : option string;
  entry_hostname : option string; obfuscator_hostname : option string;
}.

Inductive TunnelState : Type :=
| Disconnected (location : option GeoIpLocation) (locked_down : bool)
| Connecting (endpoint : TunnelEndpoint) (location : option GeoIpLocation) (features : list FeatureIndicator)
| Connected (endpoint : TunnelEndpoint) (location : option GeoIpLocation) (features : list FeatureIndicator)
| Disconnecting (a : ActionAfterDisconnect)
| InError (e : ErrorStateInfo).

Definition is_in_error_state (s : TunnelState) : bool := match s with InError _ => true | _ => false end.
Definition is_connected (s : TunnelState) : bool := match s with Connected _ _ _ => true | _ => false end.
Definition is_disconnected (s : TunnelState) : bool := match s with Disconnected _ _ => true | _ => false end.
Definition tunnel_endpoint (s : TunnelState) : option TunnelEndpoint :=
  match s with Connecting e _ _ | Connected e _ _ => Some e | _ => None end.
Definition get_location (s : TunnelState) : option GeoIpLocation :=
  match s with Connecting _ l _ | Connected _ l _ | Disconnected l _ => l | _ => None end.

(** [version::Error], without the causes. *)
Inductive VersionError : Type :=
| ReadVersionCache | WriteVersionCache | SerializeVersion | DeserializeVersion | DownloadFailure | ApiCheckFailure
| MissingStable | OutdatedVersion | VersionUpdaterDown | VersionRouterClosed | UpdateAborted.

(** The conversions of [serde_json] that patches use. *)
Class SettingsJson (CustomProxy : Type) : Type := {
  to_value : Settings CustomProxy -> option Value;
  from_value : Value -> option (Settings CustomProxy);
  from_str : string -> option Value;
}.

Section daemon.
Context {CustomProxy : Type} `{EqDecision CustomProxy} `{IpNetworkOps} `{Curve} `{SettingsJson CustomProxy}.
Notation Settings := (Settings CustomProxy).
Notation SettingsPersister := (SettingsPersister CustomProxy).
Notation AccessMethodSetting := (@AccessMethodSetting CustomProxy).
Notation AccessMethod := (@AccessMethod CustomProxy).

(** ** Errors *)
Inductive AccessError : Type :=
| NoSuchMethod (i : nat) | ApiService | AccessRest (e : RestError) | AccessSettings (e : SettingsError).

Inductive DaemonError : Type :=
| DaemonUnavailable | InitRpcFactory | RestFailure (e : RestError) | ManagementInterfaceError
| VersionCheckError (e : VersionError) | LoadAccountHistory (e : HistoryError) | LoadAccountManager (e : Error)
| LoginError (e : Error) | LogoutError (e : Error) | KeyRotationError (e : Error) | ListDevicesError (e : Error)
| RemoveDeviceError (e : Error) | UpdateDeviceError (e : Error) | VoucherFailure (e : Error)
| AlreadyLoggedIn | NoAccountNumber | SettingsFailure (e : SettingsError) | HistoryFailure (e : HistoryError)
| FactoryResetError (what : string) | TunnelError | RouteManagerError | ListFailure (e : CustomListError)
| AccessMethodError (e : AccessError) | ApiConnectionModeError.

(** ** Commands *)
Inductive DaemonCommand : Type :=
| SetTargetState (tx : Tx) (s : TargetState)
| Reconnect (tx : Tx)
| GetState (tx : Tx)
| CreateNewAccount (tx : Tx)
| GetAccountData (tx : Tx) (n : AccountNumber)
| GetWwwAuthToken (tx : Tx)
| SubmitVoucherCode (tx : Tx) (voucher : string)
| GetAccountHistory (tx : Tx)
| ClearAccountHistory (tx : Tx)
| GetRelayLocations (tx : Tx)
| UpdateRelayLocations
| GetBridges (tx : Tx)
| LoginAccount (tx : Tx) (n : AccountNumber)
| LogoutAccount (tx : Tx)
| GetDevice (tx : Tx)
| UpdateDevice (tx : Tx)
| ListDevices (tx : Tx) (n : AccountNumber)
| RemoveDevice (tx : Tx) (n : AccountNumber) (i : DeviceId)
| SetRelaySettings (tx : Tx) (update : RelaySettings)
| SetAllowLan (tx : Tx) (allow_lan : bool)
| SetShowBetaReleases (tx : Tx) (enabled : bool)
| SetLockdownMode (tx : Tx) (lockdown_mode : bool)
| SetAutoConnect (tx : Tx) (auto_connect : bool)
| SetEnableIpv6 (tx : Tx) (enable_ipv6 : bool)
| SetUserspaceWireguard (tx : Tx) (userspace : bool)
| SetEnableRecents (tx : Tx) (enable_recents : bool)
| SetQuantumResistantTunnel (tx : Tx) (q : QuantumResistantState)
| SetEnableDaita (tx : Tx) (value : bool)
| SetDaitaUseMultihopIfNecessary (tx : Tx) (value : bool)
| SetDaitaSettings (tx : Tx) (s : DaitaSettings)
| SetDnsOptions (tx : Tx) (o : DnsOptions)
| SetRelayOverride (tx : Tx) (o : RelayTypes.RelayOverride)
| ClearAllRelayOverrides (tx : Tx)
| SetWireguardMtu (tx : Tx) (mtu : option Z)
| SetWireguardAllowedIps (tx : Tx) (ips : Constraint (list IpNetwork))
| SetWireguardRotationInterval (tx : Tx) (i : option RotationInterval)
| GetSettings (tx : Tx)
| ResetSettings (tx : Tx)
| RotateWireguardKey (tx : Tx)
| GetWireguardKey (tx : Tx)
| CreateCustomList (tx : Tx) (name : string) (locations : list GeographicLocationConstraint)
| DeleteCustomList (tx : Tx) (i : Z)
| UpdateCustomList (tx : Tx) (l : CustomList)
| ClearCustomLists (tx : Tx)
| AddApiAccessMethod (tx : Tx) (name : string) (enabled : bool) (m : AccessMethod)
| RemoveApiAccessMethod (tx : Tx) (i : nat)
| SetApiAccessMethod (tx : Tx) (i : nat)
| UpdateApiAccessMethod (tx : Tx) (m : AccessMethodSetting)
| ClearCustomApiAccessMethods (tx : Tx)
| GetCurrentAccessMethod (tx : Tx)
| TestApiAccessMethodById (tx : Tx) (i : nat)
| TestCustomApiAccessMethod (tx : Tx) (p : CustomProxy)
| GetVersionInfo (tx : Tx)
| IsPerformingPostUpgrade (tx : Tx)
| GetCurrentVersion (tx : Tx)
| FactoryReset (tx : Tx)
| SplitTunnelIsSupported (tx : Tx)
| GetSplitTunnelProcesses (tx : Tx)
| AddSplitTunnelProcess (tx : Tx) (pid : Z)
| RemoveSplitTunnelProcess (tx : Tx) (pid : Z)
| ClearSplitTunnelProcesses (tx : Tx)
| SetObfuscationSettings (tx : Tx) (s : ObfuscationSettings)
| PrepareRestart (shutdown : bool)
| ApplyJsonSettings (tx : Tx) (blob : string)
| ExportJsonSettings (tx : Tx)
| GetFeatureIndicators (tx : Tx)
| UpdateDefaultLocationCountry (tx : Tx)
| DisableRelay (relay : string) (tx : Tx)
| EnableRelay (relay : string) (tx : Tx)
| GetRolloutThreshold (tx : Tx)
| GenerateNewRolloutSeed (tx : Tx)
| SetRolloutThresholdSeed (seed : Z) (tx : Tx)
| AppUpgrade (tx : Tx)
| AppUpgradeAbort (tx : Tx)
| GetAppUpgradeCacheDir (tx : Tx).

Inductive AccessMethodEvent : Type :=
| AllowMethodEndpoint (endpoint : AllowedEndpoint)
| NewMethod (setting : AccessMethodSetting) (endpoint : AllowedEndpoint).

Record LocationEventData : Type := { event_request_id : Z; event_location : GeoIpLocation }.

Inductive InternalDaemonEvent : Type :=
| TunnelTransition (t : TunnelStateTransition)
| DaemonCmd (c : DaemonCommand)
| TriggerShutdown (user_init_shutdown : bool)
| NewAppVersionInfo
| DeviceEvent (e : AccountEvent)
| AccessEvent (e : AccessMethodEvent) (endpoint_active_tx : Tx)
| DeviceMigrationEvent (r : result PrivateAccountAndDevice Error)
| LocationEvent (d : LocationEventData)
| SettingsChanged
| LeakDetected.

(** ** What the daemon does to the rest *)
(** The answer to a client.  The answers of a task are those of the call it makes. *)
Inductive Response : Type :=
| RBool (b : bool) | RUnit | RState (s : TunnelState) | RSettingsResult (r : result unit SettingsError)
| RResult (r : result unit DaemonError) | RHistory (n : option AccountNumber) | RRelays (l : RelayList) | RBridges
| RVersion | RSettings (s : Settings) | RKey (r : result (option (Key * Z)) DaemonError) | RToken (r : result string DaemonError)
| RListId (r : result Z DaemonError) | RMethodId (r : result nat DaemonError) | RTested (r : result bool DaemonError)
| RPatch (r : result unit (PatchError + SettingsError)) | RExport (s : Settings) | RFeatures (l : list FeatureIndicator)
| RThreshold (seed : Z) | RPids (r : option (list Z)) | RPid (r : bool) | RCacheDir.

Inductive DeviceNotice : Type := NoticeEvent (e : PrivateDeviceEvent) | NoticeRevoked | NoticeLoggedOut.

Inductive Notification : Type :=
| NotifyState (s : TunnelState) | NotifySettings (s : Settings) | NotifyDevice (n : DeviceNotice)
| NotifyRelayList (l : RelayList) | NotifyAppVersion | NotifyLeak.

(** Spawned tasks. *)
Inductive Task : Type :=
| TaskCreateAccount (tx : Tx)
| TaskGetAccountData (tx : Tx) (n : AccountNumber)
| TaskWwwAuthToken (tx : Tx) (n : AccountNumber)
| TaskSubmitVoucher (tx : Tx) (voucher : string)
| TaskLogin (tx : Tx) (n : AccountNumber)
| TaskLogout (tx : Tx)
| TaskGetDevice (tx : Tx)
| TaskUpdateDevice (tx : Tx)
| TaskListDevices (tx : Tx) (n : AccountNumber)
| TaskRemoveDevice (tx : Tx) (n : AccountNumber) (i : DeviceId)
| TaskGetVersionInfo (tx : Tx)
| TaskRotateKey (tx : Tx)
| TaskGetCurrentMethod (tx : Tx)
| TaskTestProxy (tx : Tx) (p : CustomProxy)
| TaskTestMethod (tx : Tx) (m : AccessMethodSetting)
(** Sends when the firewall has been updated, and then tells the clients. *)
| TaskEndpointActive (tx : Tx) (announce : option AccessMethodSetting)
| TaskMigration (r : result PrivateAccountAndDevice Error)
| TaskUpdateAccessMethods (s : @AccessMethods.Settings CustomProxy)
| TaskSetSettings (s : Settings)
| TaskUpdateOverrides (l : list RelayTypes.RelayOverride)
| TaskShowBetaReleases (b : bool)
| TaskRotateAccessMethod
| TaskSetRotationInterval (i : option RotationInterval)
| TaskSaveConnectionMode (m : AccessMethodSetting)
| TaskCheckDevice.

Inductive Effect : Type :=
| Tunnel (c : TunnelCommand)
| Reply (tx : Tx) (r : Response)
| Spawn (t : Task)
| Notify (n : Notification)
| SendEvent (e : InternalDaemonEvent)
| SendTunnelOptions (o : DaemonTunnelOptions)
| ResumeBackground | ResetInactivityTimer | StopInactivityTimer | ResetApiService
| LeakCheckerTransition (t : TunnelStateTransition)
| GeoReset
| GeoRequest (request_id : Z) (use_ipv6 : bool)
| StartJob (job : nat) (delay : Z)
| AbortJob (job : nat)
| SelectorSetCustomLists (l : CustomListsSettings)
| SelectorSetRelays (l : RelayList)
| UpdateRelayList
| AccountLogout
| AccountSetRotationInterval (i : option RotationInterval)
| ExcludePid (pid : Z) | IncludePid (pid : Z) | IncludeAllPids.

(** ** The daemon
    [target_file] is the file of the target state, [request_id] that of the location handler, [jobs] counts
    the reconnections that were scheduled, and [shutdown_tasks] are those of factory resets. *)
Record Daemon : Type := {
  tunnel_state : TunnelState;
  target_state : PersistentTargetState;
  target_file : CacheFile;
  reconnection_job : option nat;
  jobs : nat;
  persister : SettingsPersister;
  account_history : AccountHistory;
  device_checker : TunnelStateChangeHandler;
  request_id : Z;
  shutdown_tasks : list (Tx * option string);
}.
Definition put_tunnel_state (x : TunnelState) (s : Daemon) : Daemon :=
  {| tunnel_state := x; target_state := target_state s; target_file := target_file s; reconnection_job
     := reconnection_job s; jobs := jobs s; persister := persister s; account_history := account_history
     s; device_checker := device_checker s; request_id := request_id s; shutdown_tasks := shutdown_tasks
     s |}.
Definition put_target_state (x : PersistentTargetState) (s : Daemon) : Daemon :=
  {| tunnel_state := tunnel_state s; target_state := x; target_file := target_file s; reconnection_job
     := reconnection_job s; jobs := jobs s; persister := persister s; account_history := account_history
     s; device_checker := device_checker s; request_id := request_id s; shutdown_tasks := shutdown_tasks
     s |}.
Definition put_target_file (x : CacheFile) (s : Daemon) : Daemon :=
  {| tunnel_state := tunnel_state s; target_state := target_state s; target_file := x; reconnection_job
     := reconnection_job s; jobs := jobs s; persister := persister s; account_history := account_history
     s; device_checker := device_checker s; request_id := request_id s; shutdown_tasks := shutdown_tasks
     s |}.
Definition put_reconnection_job (x : option nat) (s : Daemon) : Daemon :=
  {| tunnel_state := tunnel_state s; target_state := target_state s; target_file := target_file s;
     reconnection_job := x; jobs := jobs s; persister := persister s; account_history := account_history
     s; device_checker := device_checker s; request_id := request_id s; shutdown_tasks := shutdown_tasks
     s |}.
Definition put_jobs (x : nat) (s : Daemon) : Daemon :=
  {| tunnel_state := tunnel_state s; target_state := target_state s; target_file := target_file s;
     reconnection_job := reconnection_job s; jobs := x; persister := persister s; account_history :=
     account_history s; device_checker := device_checker s; request_id := request_id s; shutdown_tasks
     := shutdown_tasks s |}.
Definition put_persister (x : SettingsPersister) (s : Daemon) : Daemon :=
  {| tunnel_state := tunnel_state s; target_state := target_state s; target_file := target_file s;
     reconnection_job := reconnection_job s; jobs := jobs s; persister := x; account_history :=
     account_history s; device_checker := device_checker s; request_id := request_id s; shutdown_tasks
     := shutdown_tasks s |}.
Definition put_account_history (x : AccountHistory) (s : Daemon) : Daemon :=
  {| tunnel_state := tunnel_state s; target_state := target_state s; target_file := target_file s;
     reconnection_job := reconnection_job s; jobs := jobs s; persister := persister s; account_history
     := x; device_checker := device_checker s; request_id := request_id s; shutdown_tasks :=
     shutdown_tasks s |}.
Definition put_device_checker (x : TunnelStateChangeHandler) (s : Daemon) : Daemon :=
  {| tunnel_state := tunnel_state s; target_state := target_state s; target_file := target_file s;
     reconnection_job := reconnection_job s; jobs := jobs s; persister := persister s; account_history
     := account_history s; device_checker := x; request_id := request_id s; shutdown_tasks :=
     shutdown_tasks s |}.
Definition put_request_id (x : Z) (s : Daemon) : Daemon :=
  {| tunnel_state := tunnel_state s; target_state := target_state s; target_file := target_file s;
     reconnection_job := reconnection_job s; jobs := jobs s; persister := persister s; account_history
     := account_history s; device_checker := device_checker s; request_id := x; shutdown_tasks :=
     shutdown_tasks s |}.
Definition put_shutdown_tasks (x : list (Tx * option string)) (s : Daemon) : Daemon :=
  {| tunnel_state := tunnel_state s; target_state := target_state s; target_file := target_file s;
     reconnection_job := reconnection_job s; jobs := jobs s; persister := persister s; account_history
     := account_history s; device_checker := device_checker s; request_id := request_id s;
     shutdown_tasks := x |}.

(** What the rest of the program answers during one event. *)
Record Env : Type := {
  store : Settings -> option SettingsError;
  removable : bool;
  fresh_ids : nat * nat * nat * nat;
  beta : bool;
  (** What a failing write of the target state leaves, if it fails. *)
  target_write_fails : option CacheFile;
  history_write : HistoryWriteOutcome;
  now : Z;
  account_data : result PrivateDeviceState Error;
  last_relay_was_overridden : bool;
  last_location : option GeoIpLocation;
  relay_list : RelayList;
  distance : Location -> GeoIpLocation -> Z;
  use_access_method : bool;
  resolved : result bool unit;
  pids : option (list Z);
  pid_done : bool;
  pids_supported : bool;
  fresh_list_id : Z;
  fresh_method_id : nat;
  fresh_seed : Z;
  migration_complete : bool;
}.

(** ** The monad *)
Definition D (A : Type) : Type := Daemon -> A * Daemon * list Effect.
#[global] Instance D_ret : MRet D := fun _ a d => (a, d, []).
#[global] Instance D_bind : MBind D :=
  fun _ _ k c d => let '(a, d, es) := c d in let '(b, d, es') := k a d in (b, d, es ++ es').

Definition reads {A} (f : Daemon -> A) : D A := fun d => (f d, d, []).
Definition modify (f : Daemon -> Daemon) : D unit := fun d => (tt, f d, []).
Definition emit (e : Effect) : D unit := fun d => (tt, d, [e]).
Definition emits (l : list Effect) : D unit := fun d => (tt, d, l).
Definition oneshot_send (tx : Tx) (r : Response) : D unit := emit (Reply tx r).
Definition when (b : bool) (m : D unit) : D unit := if b then m else mret tt.

Definition current_settings (d : Daemon) : Settings := settings (persister d).
Definition target (d : Daemon) : TargetState := state (target_state d).
Definition is_secured (s : TargetState) : bool := match s with Secured => true | Unsecured => false end.

(** ** Sending to the tunnel *)
Definition send_tunnel_command (c : TunnelCommand) : D unit := emit (Tunnel c).
Definition connect_tunnel : D unit := send_tunnel_command CmdConnect.
Definition disconnect_tunnel : D unit := send_tunnel_command CmdDisconnect.
Definition reconnect_tunnel : D unit :=
  t ← reads target; when (is_secured t) connect_tunnel.

(** ** Settings
    The listeners that [start] registers, in order. *)
Definition notify_listeners (s : Settings) : D unit :=
  emits [Notify (NotifySettings s); Spawn (TaskUpdateAccessMethods (api_access_methods s));
         SendTunnelOptions (tunnel_options s); Spawn (TaskSetSettings s); SendEvent SettingsChanged;
         Spawn (TaskUpdateOverrides (relay_overrides s))].

Section env.
Context (env : Env).

Definition persist {A} (op : SettingsPersister -> SettingsPersister * option Settings * A) : D A :=
  p ← reads persister;
  let '(p, notified, r) := op p in
  modify (put_persister p);;
  match notified with Some s => notify_listeners s | None => mret tt end;;
  mret r.

Definition try_update_settings (f : Settings -> result Settings UpdateError) : D (result bool SettingsError) :=
  persist (SettingsPersister.try_update (store env) f).
Definition update_settings (f : Settings -> Settings) : D (result bool SettingsError) :=
  persist (SettingsPersister.update (store env) f).
Definition reset_settings : D (result unit SettingsError) :=
  persist (SettingsPersister.reset (store env) (beta env) (fresh_ids env) (removable env)).

(** ** Scheduled reconnections *)
Definition unschedule_reconnect : D unit :=
  j ← reads reconnection_job;
  match j with Some job => emit (AbortJob job);; modify (put_reconnection_job None) | None => mret tt end.

Definition schedule_reconnect (delay : Z) : D unit :=
  unschedule_reconnect;;
  n ← reads jobs;
  emit (StartJob n delay);; modify (put_jobs (S n));; modify (put_reconnection_job (Some n)).

Definition WG_RECONNECT_DELAY : Z := from_secs (4 * 60).

(** ** Locations *)
Definition usize_max : Z := 2 ^ 64.

Definition send_geo_location_request (use_ipv6 : bool) : D unit :=
  i ← reads request_id;
  let i := ((i + 1) mod usize_max)%Z in
  modify (put_request_id i);; emit GeoReset;; emit (GeoRequest i use_ipv6).

Definition fetch_am_i_mullvad : D unit :=
  emit GeoReset;;
  s ← reads tunnel_state;
  settings ← reads current_settings;
  match s with
  | Connected _ _ _ => send_geo_location_request (enable_ipv6 (generic (tunnel_options settings)))
  | Disconnected _ _ =>
      send_geo_location_request
        match relay_settings settings with
        | Normal c => bool_decide (wc_ip_version (wireguard_constraints c) = Only IpVersion_V6)
        | CustomEndpoint _ => false
        end
  | _ => mret tt
  end.

Definition with_ips (fetched location : GeoIpLocation) : GeoIpLocation :=
  {| geo_ipv4 := geo_ipv4 fetched; geo_ipv6 := geo_ipv6 fetched; geo_country := geo_country location;
     geo_city := geo_city location; geo_latitude := geo_latitude location;
     geo_longitude := geo_longitude location; mullvad_exit_ip := mullvad_exit_ip location;
     geo_hostname := geo_hostname location; entry_hostname := entry_hostname location;
     obfuscator_hostname := obfuscator_hostname location |}.

Definition handle_location_event (data : LocationEventData) : D unit :=
  i ← reads request_id;
  if (i =? event_request_id data)%Z then
    s ← reads tunnel_state;
    let fetched := event_location data in
    match match s with
          | Disconnected _ locked_down => Some (Disconnected (Some fetched) locked_down)
          | Connected e l f => Some (Connected e (Some (with_ips fetched (default fetched l))) f)
          | _ => None
          end with
    | Some s =>
        modify (put_tunnel_state s);;
        settings ← reads current_settings;
        when (update_default_location settings) (emit (SendEvent (DaemonCmd (UpdateDefaultLocationCountry NOBODY))));;
        emit (Notify (NotifyState s))
    | None => mret tt
    end
  else mret tt.

(** ** Transitions of the tunnel *)
Definition reset_rpc_sockets_on_tunnel_state_transition (t : TunnelStateTransition) : D unit :=
  s ← reads tunnel_state;
  match s, t with
  | Connected _ _ _, _ | _, TrConnected _ => emit ResetApiService
  | _, _ => mret tt
  end.

Definition state_after (t : TunnelStateTransition) (settings : Settings) : TunnelState :=
  let features e := compute_feature_indicators settings e (last_relay_was_overridden env) in
  match t with
  | TrDisconnected locked_down => Disconnected None locked_down
  | TrConnecting e => Connecting e (last_location env) (features e)
  | TrConnected e => Connected e (last_location env) (features e)
  | TrDisconnecting a => Disconnecting a
  | TrError e => InError e
  end.

Definition handle_tunnel_state_transition (t : TunnelStateTransition) : D unit :=
  emit (LeakCheckerTransition t);;
  reset_rpc_sockets_on_tunnel_state_transition t;;
  h ← reads device_checker;
  let '(h, check) := handle_state_transition t h in
  modify (put_device_checker h);; when check (emit (Spawn TaskCheckDevice));;
  settings ← reads current_settings;
  let tunnel_state' := state_after t settings in
  when (negb (is_connected tunnel_state')) unschedule_reconnect;;
  old ← reads tunnel_state;
  when (is_disconnected old && negb (is_disconnected tunnel_state')) (emit ResumeBackground);;
  emit (if is_disconnected tunnel_state' then ResetInactivityTimer else StopInactivityTimer);;
  match tunnel_state' with
  | InError e => match cause e with AuthFailed _ => schedule_reconnect (from_secs 60) | _ => mret tt end
  | _ => mret tt
  end;;
  modify (put_tunnel_state tunnel_state');;
  emit (Notify (NotifyState tunnel_state'));;
  fetch_am_i_mullvad.

#[local] Instance TunnelEndpoint_features_dec : EqDecision (list FeatureIndicator) := _.

(** Indicators are compared as sets; both lists are in the order of the source. *)
Definition update_feature_indicators_on_settings_changed : D unit :=
  s ← reads tunnel_state;
  settings ← reads current_settings;
  let renew (f : list FeatureIndicator) e (k : list FeatureIndicator -> TunnelState) :=
    let ip_override := bool_decide (FServerIpOverride ∈ f) in
    let new_feature_indicators := compute_feature_indicators settings e ip_override in
    if decide (f <> new_feature_indicators) then
      modify (put_tunnel_state (k new_feature_indicators));; emit (Notify (NotifyState (k new_feature_indicators)))
    else mret tt in
  match s with
  | Connecting e l f => renew f e (Connecting e l)
  | Connected e l f => renew f e (Connected e l)
  | _ => mret tt
  end.

(** ** The target state *)
Definition write_outcome : TargetState.WriteOutcome :=
  match target_write_fails env with None => TargetState.Written | Some remains => TargetState.WriteFailed remains end.

Definition set_target_state (new_state : TargetState) : D bool :=
  t ← reads target_state;
  s ← reads tunnel_state;
  if bool_decide (new_state <> state t) || is_in_error_state s then
    f ← reads target_file;
    let '(t', f) := TargetState.set write_outcome new_state t f in
    let t' := default t t' in
    modify (put_target_state t');; modify (put_target_file f);;
    match state t' with Secured => connect_tunnel | Unsecured => disconnect_tunnel end;;
    mret true
  else mret false.

(** ** Events of the account manager *)
Definition EXPIRED_ACCOUNT : string := "[EXPIRED_ACCOUNT]".

(** The result is only logged. *)
Definition update_recents_setting : D unit := update_settings update_recents;; mret tt.
Definition default_location_done : D unit :=
  s ← reads current_settings;
  when (update_default_location s) (update_settings (set_update_default_location false);; mret tt).

Definition set_history (n : AccountNumber) : D unit :=
  h ← reads account_history; modify (put_account_history (history_set (history_write env) n h).1).

Definition handle_device_event (e : AccountEvent) : D unit :=
  t ← reads target;
  match e with
  | DeviceChanged (Login device) =>
      set_history (account_number device);; default_location_done;;
      reconnect_tunnel;; update_recents_setting
  | DeviceChanged Logout => set_target_state Unsecured;; mret tt
  | DeviceChanged RevokedEvent => when (is_secured t) connect_tunnel
  | DeviceChanged (RotatedKey _) => schedule_reconnect WG_RECONNECT_DELAY
  | Expiry expiry =>
      when (is_secured t)
        (if (now env <=? expiry)%Z then
           s ← reads tunnel_state;
           match s with
           | InError i => match cause i with AuthFailed _ => connect_tunnel | _ => mret tt end
           | _ => mret tt
           end
         else send_tunnel_command (CmdBlock (AuthFailed (Some EXPIRED_ACCOUNT))))
  | DeviceChanged (Updated _) => mret tt
  end;;
  match e with DeviceChanged e => emit (Notify (NotifyDevice (NoticeEvent e))) | Expiry _ => mret tt end.

(** ** Access methods and migrated devices
    The sender of the machine's completion is only known to the task and has the number of the sender the
    task then uses. *)
Definition save_connection_mode_to_cache (m : AccessMethodSetting) : D unit := emit (Spawn (TaskSaveConnectionMode m)).

Definition handle_access_method_event (e : AccessMethodEvent) (endpoint_active_tx : Tx) : D unit :=
  match e with
  | AllowMethodEndpoint endpoint =>
      send_tunnel_command (CmdAllowEndpoint endpoint endpoint_active_tx);;
      emit (Spawn (TaskEndpointActive endpoint_active_tx None))
  | NewMethod setting endpoint =>
      save_connection_mode_to_cache setting;;
      send_tunnel_command (CmdAllowEndpoint endpoint endpoint_active_tx);;
      emit (Spawn (TaskEndpointActive endpoint_active_tx (Some setting)))
  end.

(** The task that takes over the device of old settings: what it stores, and what it tells the clients
    when that fails; [data] and [set_result] are the answers of the account manager. *)
Definition migration_task (data : result PrivateDeviceState Error) (r : result PrivateAccountAndDevice Error)
    (set_result : PrivateAccountAndDevice -> result unit Error)
  : option PrivateAccountAndDevice * option DeviceNotice :=
  match data with
  | Ok (LoggedIn _) => (None, None)
  | _ =>
      let failed e := match e with InvalidDevice => NoticeRevoked | _ => NoticeLoggedOut end in
      match r with
      | Err e => (None, Some (failed e))
      | Ok d => (Some d, match set_result d with Ok _ => None | Err e => Some (failed e) end)
      end
  end.

(** ** Commands about the tunnel *)
Definition on_set_target_state (tx : Tx) (new_target_state : TargetState) : D unit :=
  initiated ← set_target_state new_target_state; oneshot_send tx (RBool initiated).

Definition on_reconnect (tx : Tx) : D unit :=
  t ← reads target; s ← reads tunnel_state;
  if is_secured t || is_in_error_state s then connect_tunnel;; oneshot_send tx (RBool true)
  else oneshot_send tx (RBool false).

Definition on_get_state (tx : Tx) : D unit := s ← reads tunnel_state; oneshot_send tx (RState s).

Definition on_is_performing_post_upgrade (tx : Tx) : D unit :=
  oneshot_send tx (RBool (negb (migration_complete env))).

(** ** Commands about accounts
    What the tasks answer, from the answers of the account manager and of the API. *)
Definition create_account_task (data : result PrivateDeviceState Error) (created : result string RestError)
    (login : string -> result unit Error) : result string DaemonError :=
  match data with
  | Ok (LoggedIn _) => Err AlreadyLoggedIn
  | _ =>
      token <-? map_err RestFailure created;
      map_err LoginError (login token) ;? Ok token
  end.

(** Whether background requests are resumed, and the answer. *)
Definition login_task (login : result unit Error) : bool * result unit DaemonError :=
  (is_ok login, map_err LoginError login).

Definition update_device_task (validated : result unit Error) : result unit DaemonError :=
  match validated with
  | Ok _ | Err NoDevice => Ok tt
  | Err error => Err (UpdateDeviceError error)
  end.

Definition on_get_www_auth_token (tx : Tx) : D unit :=
  match account_data env with
  | Ok (LoggedIn device) => emit (Spawn (TaskWwwAuthToken tx (account_number device)))
  | _ => oneshot_send tx (RToken (Err NoAccountNumber))
  end.

Definition on_get_account_history (tx : Tx) : D unit :=
  h ← reads account_history; oneshot_send tx (RHistory (number h)).

Definition on_clear_account_history (tx : Tx) : D unit :=
  h ← reads account_history;
  let '(h, r) := history_clear (history_write env) h in
  modify (put_account_history h);; oneshot_send tx (RResult (map_err HistoryFailure r)).

Definition on_get_wireguard_key (tx : Tx) : D unit :=
  oneshot_send tx (RKey match account_data env with
                        | Ok (LoggedIn config) =>
                            let data := wg_data (device config) in
                            Ok (Some (DeviceService.public_key (DeviceService.private_key data), key_created data))
                        | _ => Err NoAccountNumber
                        end).

(** ** Commands about relays *)
Definition lookup_country_code_by_name (country_name : string) (l : RelayList) : option string :=
  rlc_code <$> List.find (fun c => bool_decide (rlc_name c = country_name)) (countries l).

(** Each country with the distances of its relays, in order. *)
Definition nearest_step (location : GeoIpLocation) (acc : option Z * RelayListCountry) (c : RelayListCountry)
  : option Z * RelayListCountry :=
  foldl (fun acc relay =>
           let d := distance env (RelayTypes.location (inner relay)) location in
           match acc.1 with
           | Some min_dist => if (d <? min_dist)%Z then (Some d, c) else acc
           | None => (Some d, c)
           end) acc (concat (map relays (cities c))).

Definition get_nearest_country_with_relay (location : GeoIpLocation) (l : RelayList) : option string :=
  match countries l with
  | [] => None
  | first :: _ => Some (rlc_code (foldl (nearest_step location) (None, first) (countries l)).2)
  end.

Definition set_active (active : bool) (r : WireguardRelay) : WireguardRelay :=
  let i := inner r in
  with_inner r (overridden_ipv4 r) (overridden_ipv6 r)
    {| hostname := hostname i; ipv4_addr_in := ipv4_addr_in i; ipv6_addr_in := ipv6_addr_in i;
       active := active; weight := weight i; RelayTypes.location := RelayTypes.location i |}.

Definition toggle_relays (relay : string) (active : bool) (l : RelayList) : RelayList :=
  {| countries :=
       map (fun country =>
              {| rlc_name := rlc_name country; rlc_code := rlc_code country;
                 cities :=
                   map (fun city =>
                          {| rc_name := rc_name city; rc_code := rc_code city; rc_latitude := rc_latitude city;
                             rc_longitude := rc_longitude city;
                             relays :=
                               map (fun r =>
                                      if bool_decide (relay = hostname (inner r)) || bool_decide (relay = rc_name city)
                                         || bool_decide (relay = rlc_name country)
                                      then set_active active r else r) (relays city) |}) (cities country) |})
         (countries l);
     RelayTypes.wireguard := RelayTypes.wireguard l |}.

Definition on_toggle_relay (relay : string) (active : bool) (tx : Tx) : D unit :=
  let l := toggle_relays relay active (relay_list env) in
  emit (SelectorSetRelays l);; emit (Notify (NotifyRelayList l));; reconnect_tunnel;; oneshot_send tx RUnit.

Definition on_set_relay_settings (tx : Tx) (update : RelaySettings) : D unit :=
  r ← update_settings (set_relay_settings_update update);
  match r with
  | Ok settings_changed => oneshot_send tx (RSettingsResult (Ok tt));; when settings_changed reconnect_tunnel
  | Err e => oneshot_send tx (RSettingsResult (Err e))
  end;;
  default_location_done;; update_recents_setting.

Definition on_update_default_location (tx : Tx) : D unit :=
  settings ← reads current_settings; s ← reads tunnel_state;
  match (if update_default_location settings then get_location s else None) ≫=
        (fun l => match lookup_country_code_by_name (geo_country l) (relay_list env) with
                  | Some code => Some code
                  | None => get_nearest_country_with_relay l (relay_list env)
                  end) with
  | Some country_code => on_set_relay_settings tx (Normal (in_country country_code))
  | None => oneshot_send tx (RSettingsResult (Ok tt))
  end.

(** ** Commands that change a setting
    The answer comes before the effect of the change, or once the tunnel state machine has taken it. *)
Definition apply_setting (tx : Tx) (f : Settings -> Settings) (changed : D unit) : D unit :=
  r ← update_settings f;
  match r with
  | Ok settings_changed => oneshot_send tx (RSettingsResult (Ok tt));; when settings_changed changed
  | Err e => oneshot_send tx (RSettingsResult (Err e))
  end.

Definition apply_through_tunnel (tx : Tx) (f : Settings -> Settings) (command : Settings -> TunnelCommand) : D unit :=
  r ← update_settings f;
  match r with
  | Ok true => settings ← reads current_settings; send_tunnel_command (command settings)
  | Ok false => oneshot_send tx (RSettingsResult (Ok tt))
  | Err e => oneshot_send tx (RSettingsResult (Err e))
  end.

Definition on_set_allow_lan (tx : Tx) (b : bool) : D unit :=
  apply_through_tunnel tx (set_allow_lan b) (fun _ => CmdAllowLan b tx).

Definition on_set_lockdown_mode (tx : Tx) (b : bool) : D unit :=
  apply_through_tunnel tx (set_lockdown_mode b) (fun _ => CmdLockdownMode (LockdownMode_from b) tx).

Definition on_set_dns_options (tx : Tx) (o : DnsOptions) : D unit :=
  apply_through_tunnel tx (fun s => set_tunnel_options (set_dns_options o (tunnel_options s)) s)
    (fun s => CmdDns (addresses_from_options (dns_options (tunnel_options s))) tx).

Definition on_set_show_beta_releases (tx : Tx) (enabled : bool) : D unit :=
  apply_setting tx (set_show_beta_releases enabled) (emit (Spawn (TaskShowBetaReleases enabled))).

Definition on_set_auto_connect (tx : Tx) (b : bool) : D unit := apply_setting tx (set_auto_connect b) (mret tt).

Definition on_set_obfuscation_settings (tx : Tx) (new_settings : ObfuscationSettings) : D unit :=
  r ← update_settings (set_obfuscation_settings new_settings);
  match r with
  | Ok settings_changed => when settings_changed reconnect_tunnel;; oneshot_send tx (RSettingsResult (Ok tt))
  | Err e => oneshot_send tx (RSettingsResult (Err e))
  end.

Definition on_set_enable_ipv6 (tx : Tx) (b : bool) : D unit :=
  apply_setting tx (fun s => set_tunnel_options (set_generic {| enable_ipv6 := b |} (tunnel_options s)) s) reconnect_tunnel.

Definition on_set_userspace_wireguard (tx : Tx) (b : bool) : D unit :=
  apply_setting tx (on_wireguard (set_wg_userspace b)) reconnect_tunnel.

Definition enable_recents (enable : bool) (s : Settings) : Settings :=
  match recents s, enable with
  | None, true => update_recents (set_recents (Some []) s)
  | Some _, false => set_recents None s
  | _, _ => s
  end.
Definition on_set_enable_recents (tx : Tx) (b : bool) : D unit := apply_setting tx (enable_recents b) (mret tt).

Definition on_set_quantum_resistant_tunnel (tx : Tx) (q : QuantumResistantState) : D unit :=
  apply_setting tx (on_wireguard (set_wg_quantum_resistant q)) reconnect_tunnel.

Definition is_custom_endpoint (s : Settings) : bool :=
  match relay_settings s with CustomEndpoint _ => true | Normal _ => false end.

Definition on_set_daita_enabled (tx : Tx) (value : bool) : D unit :=
  apply_setting tx
    (on_wireguard (fun w => set_wg_daita {| daita_on := value; use_multihop_if_necessary := use_multihop_if_necessary (wg_daita w) |} w))
    (s ← reads current_settings; when (negb (is_custom_endpoint s)) reconnect_tunnel).

Definition on_set_daita_use_multihop_if_necessary (tx : Tx) (value : bool) : D unit :=
  apply_setting tx
    (on_wireguard (fun w => set_wg_daita {| daita_on := daita_on (wg_daita w); use_multihop_if_necessary := value |} w))
    (s ← reads current_settings;
     when (negb (is_custom_endpoint s) && daita_on (wg_daita (wireguard (tunnel_options s)))) reconnect_tunnel).

Definition on_set_daita_settings (tx : Tx) (x : DaitaSettings) : D unit :=
  apply_setting tx (on_wireguard (set_wg_daita x)) reconnect_tunnel.

Definition on_set_relay_override (tx : Tx) (o : RelayTypes.RelayOverride) : D unit :=
  apply_setting tx (set_relay_override o) reconnect_tunnel.

Definition on_clear_all_relay_overrides (tx : Tx) : D unit :=
  apply_setting tx (set_relay_overrides []) reconnect_tunnel.

Definition on_set_wireguard_mtu (tx : Tx) (x : option Z) : D unit :=
  apply_setting tx (on_wireguard (set_wg_mtu x)) reconnect_tunnel.

Definition on_set_wireguard_rotation_interval (tx : Tx) (i : option RotationInterval) : D unit :=
  apply_setting tx (on_wireguard (set_wg_rotation_interval i)) (emit (AccountSetRotationInterval i)).

Definition on_set_wireguard_allowed_ips (tx : Tx) (ips : Constraint (list IpNetwork)) : D unit :=
  apply_setting tx
    (fun s => match relay_settings s with
              | Normal c => set_relay_settings (Normal (with_allowed_ips ips c)) s
              | CustomEndpoint _ => s
              end) reconnect_tunnel.

Definition on_get_settings (tx : Tx) : D unit := s ← reads current_settings; oneshot_send tx (RSettings s).

Definition on_reset_settings (tx : Tx) : D unit :=
  r ← reset_settings;
  oneshot_send tx (RSettingsResult r);;
  s ← reads current_settings;
  send_tunnel_command (CmdLockdownMode (LockdownMode_from (lockdown_mode s)) NOBODY);;
  send_tunnel_command (CmdAllowLan (allow_lan s) NOBODY);;
  send_tunnel_command (CmdDns (addresses_from_options (dns_options (tunnel_options s))) NOBODY);;
  emits [Spawn (TaskShowBetaReleases (show_beta_releases s)); Spawn TaskRotateAccessMethod;
         Spawn (TaskSetRotationInterval (wg_rotation_interval (wireguard (tunnel_options s))))];;
  reconnect_tunnel.

(** [merge_validate_patch]. *)
Definition on_apply_json_settings (tx : Tx) (blob : string) : D unit :=
  s ← reads current_settings;
  match merge_validate_patch_inner to_value from_value from_str s blob with
  | Err e => oneshot_send tx (RPatch (Err (inl e)))
  | Ok new_settings =>
      r ← update_settings (fun _ => new_settings);
      match r with
      | Ok _ => reconnect_tunnel;; oneshot_send tx (RPatch (Ok tt))
      | Err e => oneshot_send tx (RPatch (Err (inr e)))
      end
  end.

Definition on_export_json_settings (tx : Tx) : D unit := s ← reads current_settings; oneshot_send tx (RExport s).

(** ** Custom lists *)
Definition CUSTOM_LIST_NAME_MAX_SIZE : nat := 30.

(** [chars().count()]: the bytes of a text in UTF-8 that do not continue a character. *)
Definition chars_count (s : string) : nat :=
  length (List.filter (fun c => negb (Ascii.nat_of_ascii c / 64 =? 2)%nat) (String.list_ascii_of_string s)).

(** [CustomList::new] and [append]. *)
Definition CustomList_new (name : string) (locations : list GeographicLocationConstraint) : result CustomList CustomListError :=
  if (CUSTOM_LIST_NAME_MAX_SIZE <? chars_count name)%nat then Err NameTooLong
  else Ok {| cl_id := fresh_list_id env; cl_name := name; cl_locations := locations |}.

Definition change_should_cause_reconnect (custom_list_id : option Z) (d : Daemon) : bool :=
  match relay_settings (current_settings d) with
  | CustomEndpoint _ => false
  | Normal c =>
      let chosen (l : Constraint LocationConstraint) :=
        match l with
        | Only (InCustomList list_id) => match custom_list_id with Some i => (i =? list_id)%Z | None => true end
        | _ => false
        end in
      chosen (rc_location c)
      || (bool_decide (is_Some (tunnel_endpoint (tunnel_state d))) && use_multihop (wireguard_constraints c)
          && chosen (entry_location (wireguard_constraints c)))
  end.

Definition create_custom_list (name : string) (locations : list GeographicLocationConstraint) : D (result Z DaemonError) :=
  match CustomList_new name locations with
  | Err e => mret (Err (ListFailure e))
  | Ok new_list =>
      r ← try_update_settings (fun s => l <-? map_err CustomListFailure (CustomLists_add (custom_lists s) new_list);
                                        Ok (set_custom_lists l s));
      mret match r with Ok _ => Ok (cl_id new_list) | Err e => Err (SettingsFailure e) end
  end.

(** The end of the operations that change lists. *)
Definition custom_lists_changed (list_id : option Z) (r : result bool SettingsError) : D (result unit DaemonError) :=
  match r with
  | Ok true =>
      s ← reads current_settings;
      emit (SelectorSetCustomLists (custom_lists s));;
      reconnect ← reads (change_should_cause_reconnect list_id);
      when reconnect reconnect_tunnel
  | _ => mret tt
  end;;
  mret match r with Ok _ => Ok tt | Err e => Err (SettingsFailure e) end.

Definition delete_custom_list (i : Z) : D (result unit DaemonError) :=
  r ← try_update_settings (fun s => l <-? map_err CustomListFailure (CustomLists_remove (custom_lists s) i);
                                    Ok (set_custom_lists l s));
  custom_lists_changed (Some i) r.

Definition update_custom_list (new_list : CustomList) : D (result unit DaemonError) :=
  r ← try_update_settings (fun s => l <-? map_err CustomListFailure (CustomLists_update (custom_lists s) new_list);
                                    Ok (set_custom_lists l s));
  custom_lists_changed (Some (cl_id new_list)) r.

Definition clear_custom_lists : D (result unit DaemonError) :=
  r ← update_settings (set_custom_lists []); custom_lists_changed None r.

(** ** Access methods *)
Definition change_methods (f : @AccessMethods.Settings CustomProxy -> result (@AccessMethods.Settings CustomProxy) AccessMethods.SettingsError)
    (s : Settings) : result Settings UpdateError :=
  m <-? map_err AccessMethodFailure (f (api_access_methods s)); Ok (set_api_access_methods m s).

Definition add_access_method (name : string) (enabled : bool) (m : AccessMethod) : D (result nat DaemonError) :=
  let setting := {| AccessMethods.id := fresh_method_id env; AccessMethods.name := name; AccessMethods.enabled := enabled;
                    access_method := m |} in
  r ← try_update_settings (change_methods (append setting));
  mret match r with Ok _ => Ok (fresh_method_id env) | Err e => Err (SettingsFailure e) end.

Definition remove_access_method (i : nat) : D (result unit AccessError) :=
  r ← try_update_settings (change_methods (AccessMethods.remove i));
  mret match r with Ok _ => Ok tt | Err e => Err (AccessSettings e) end.

Definition use_api_access_method (i : nat) : D (result unit AccessError) :=
  r ← try_update_settings
        (change_methods (fun m => x <-? AccessMethods.update (fun a => bool_decide (AccessMethods.id a = i)) enable m; Ok x.1));
  mret match r with
       | Ok _ => if use_access_method env then Ok tt else Err ApiService
       | Err e => Err (AccessSettings e)
       end.

Definition get_api_access_method (i : nat) (s : Settings) : result AccessMethodSetting AccessError :=
  match List.find (fun a => bool_decide (AccessMethods.id a = i)) (iter (api_access_methods s)) with
  | Some a => Ok a
  | None => Err (NoSuchMethod i)
  end.

Definition update_access_method (new : AccessMethodSetting) : D (result unit DaemonError) :=
  r ← try_update_settings
        (change_methods (fun m => x <-? AccessMethods.update (fun a => bool_decide (AccessMethods.id a = AccessMethods.id new))
                                          (fun _ => new) m; Ok x.1));
  mret match r with Ok _ => Ok tt | Err e => Err (SettingsFailure e) end.

Definition clear_custom_api_access_methods : D (result unit AccessError) :=
  r ← update_settings (fun s => set_api_access_methods (clear_custom (api_access_methods s)) s);
  mret match r with Ok _ => Ok tt | Err e => Err (AccessSettings e) end.

(** [resolved]: an error, a method that cannot be resolved ([false]) or one that can. *)
Definition on_test_api_access_method (tx : Tx) (i : nat) : D unit :=
  s ← reads current_settings;
  match get_api_access_method i s with
  | Err e => oneshot_send tx (RTested (Err (AccessMethodError e)))
  | Ok m =>
      match resolved env with
      | Ok true => emit (Spawn (TaskTestMethod tx m))
      | Ok false | Err _ => oneshot_send tx (RTested (Err ApiConnectionModeError))
      end
  end.

(** [test_access_method]: the endpoints allowed, in order, and the answer; [sent] is whether an event of
    that kind is taken. *)
Definition test_access_method (proxy : AllowedEndpoint) (current : result AllowedEndpoint unit)
    (sent : AllowedEndpoint -> bool) (reached : result bool RestError)
  : list AllowedEndpoint * result bool AccessError :=
  match current with
  | Err _ => ([], Err ApiService)
  | Ok reset =>
      if sent proxy then
        if sent reset then ([proxy; reset], map_err AccessRest reached) else ([proxy; reset], Err ApiService)
      else ([proxy], Err ApiService)
  end.

(** ** Rollouts *)
Definition set_rollout_threshold_seed (seed : Z) : D unit :=
  update_settings (Settings.set_rollout_threshold_seed (Some seed));; mret tt.

Definition generate_and_set : D Z := set_rollout_threshold_seed (fresh_seed env);; mret (fresh_seed env).

(** The threshold that a seed and the running version give is computed in [VersionUpdate]. *)
Definition on_get_rollout_threshold (tx : Tx) : D unit :=
  s ← reads current_settings;
  seed ← match rollout_threshold_seed s with Some seed => mret seed | None => generate_and_set end;
  oneshot_send tx (RThreshold seed).

(** ** Ending *)
Definition on_factory_reset (tx : Tx) : D unit :=
  emit AccountLogout;;
  h ← reads account_history;
  let '(h, cleared) := history_clear (history_write env) h in
  modify (put_account_history h);;
  r ← reset_settings;
  let last_error :=
    match r, cleared with
    | Err _, _ => Some "Failed to reset settings"
    | Ok _, Err _ => Some "Failed to clear account history"
    | Ok _, Ok _ => None
    end in
  emit (SendEvent (TriggerShutdown false));;
  modify (fun d => put_shutdown_tasks (shutdown_tasks d ++ [(tx, last_error)]) d).

Definition on_trigger_shutdown (user_init_shutdown : bool) : D unit :=
  t ← reads target; s ← reads current_settings;
  when (negb user_init_shutdown && (is_secured t || auto_connect s))
    (send_tunnel_command (CmdLockdownMode LockdownMode_yes NOBODY));;
  disconnect_tunnel.

Definition on_prepare_restart (shutdown : bool) : D unit :=
  t ← reads target;
  when (is_secured t) (send_tunnel_command (CmdLockdownMode (LmEnabled true) NOBODY));;
  modify (fun d => put_target_state (lock (target_state d)) d);;
  when shutdown (emit (SendEvent (TriggerShutdown false))).

Definition on_get_feature_indicators (tx : Tx) : D unit :=
  s ← reads tunnel_state;
  oneshot_send tx (RFeatures match s with Connecting _ _ f | Connected _ _ f => f | _ => [] end).

(** ** Commands that are passed on
    What a task answers is the answer of the call it makes. *)
Definition on_create_new_account (tx : Tx) : D unit := emit (Spawn (TaskCreateAccount tx)).
Definition on_get_account_data (tx : Tx) (n : AccountNumber) : D unit := emit (Spawn (TaskGetAccountData tx n)).
Definition on_submit_voucher (tx : Tx) (voucher : string) : D unit := emit (Spawn (TaskSubmitVoucher tx voucher)).
Definition on_get_relay_locations (tx : Tx) : D unit := oneshot_send tx (RRelays (relay_list env)).
Definition on_get_bridges (tx : Tx) : D unit := oneshot_send tx RBridges.
Definition on_update_relay_locations : D unit := emit UpdateRelayList.
Definition on_login_account (tx : Tx) (n : AccountNumber) : D unit := emit (Spawn (TaskLogin tx n)).
Definition on_logout_account (tx : Tx) : D unit := emit (Spawn (TaskLogout tx)).
Definition on_get_device (tx : Tx) : D unit := emit (Spawn (TaskGetDevice tx)).
Definition on_update_device (tx : Tx) : D unit := emit (Spawn (TaskUpdateDevice tx)).
Definition on_list_devices (tx : Tx) (n : AccountNumber) : D unit := emit (Spawn (TaskListDevices tx n)).
Definition on_remove_device (tx : Tx) (n : AccountNumber) (i : DeviceId) : D unit := emit (Spawn (TaskRemoveDevice tx n i)).
Definition on_get_version_info (tx : Tx) : D unit := emit (Spawn (TaskGetVersionInfo tx)).
Definition on_get_current_version (tx : Tx) : D unit := oneshot_send tx RVersion.
Definition on_rotate_wireguard_key (tx : Tx) : D unit := emit (Spawn (TaskRotateKey tx)).
Definition on_split_tunnel_is_supported (tx : Tx) : D unit := oneshot_send tx (RBool (pids_supported env)).
Definition on_get_split_tunnel_processes (tx : Tx) : D unit := oneshot_send tx (RPids (pids env)).
Definition on_add_split_tunnel_process (tx : Tx) (pid : Z) : D unit := emit (ExcludePid pid);; oneshot_send tx (RPid (pid_done env)).
Definition on_remove_split_tunnel_process (tx : Tx) (pid : Z) : D unit := emit (IncludePid pid);; oneshot_send tx (RPid (pid_done env)).
Definition on_clear_split_tunnel_processes (tx : Tx) : D unit := emit IncludeAllPids;; oneshot_send tx (RPid (pid_done env)).

Definition reply_result {A} (tx : Tx) (f : A -> Response) (m : D A) : D unit := r ← m; oneshot_send tx (f r).

Definition on_create_custom_list (tx : Tx) (name : string) (locations : list GeographicLocationConstraint) : D unit :=
  reply_result tx RListId (create_custom_list name locations).
Definition on_delete_custom_list (tx : Tx) (i : Z) : D unit := reply_result tx RResult (delete_custom_list i).
Definition on_update_custom_list (tx : Tx) (l : CustomList) : D unit := reply_result tx RResult (update_custom_list l).
Definition on_clear_custom_lists (tx : Tx) : D unit := reply_result tx RResult clear_custom_lists.
Definition on_add_access_method (tx : Tx) (name : string) (enabled : bool) (m : AccessMethod) : D unit :=
  reply_result tx RMethodId (add_access_method name enabled m).
Definition on_remove_api_access_method (tx : Tx) (i : nat) : D unit :=
  reply_result tx (fun r => RResult (map_err AccessMethodError r)) (remove_access_method i).
Definition on_set_api_access_method (tx : Tx) (i : nat) : D unit :=
  reply_result tx (fun r => RResult (map_err AccessMethodError r)) (use_api_access_method i).
Definition on_update_api_access_method (tx : Tx) (m : AccessMethodSetting) : D unit := reply_result tx RResult (update_access_method m).
Definition on_clear_custom_api_access_methods (tx : Tx) : D unit :=
  reply_result tx (fun r => RResult (map_err AccessMethodError r)) clear_custom_api_access_methods.
Definition on_get_current_api_access_method (tx : Tx) : D unit := emit (Spawn (TaskGetCurrentMethod tx)).
Definition on_test_proxy_as_access_method (tx : Tx) (p : CustomProxy) : D unit := emit (Spawn (TaskTestProxy tx p)).

(** In-app upgrades are not in the Linux build. *)
Definition on_app_upgrade (tx : Tx) : D unit := oneshot_send tx RUnit.
Definition on_app_upgrade_abort (tx : Tx) : D unit := oneshot_send tx RUnit.
Definition on_get_app_upgrade_cache_dir (tx : Tx) : D unit := oneshot_send tx RCacheDir.

Definition handle_new_app_version_info : D unit := emit (Notify NotifyAppVersion).
Definition handle_leak_event : D unit := emit (Notify NotifyLeak).
Definition handle_device_migration_event (r : result PrivateAccountAndDevice Error) : D unit := emit (Spawn (TaskMigration r)).

(** ** All commands *)
Definition handle_command (command : DaemonCommand) : D unit :=
  s ← reads tunnel_state;
  when (is_disconnected s) (emit ResetInactivityTimer);;
  match command with
  | SetTargetState tx s => on_set_target_state tx s
  | Reconnect tx => on_reconnect tx
  | GetState tx => on_get_state tx
  | CreateNewAccount tx => on_create_new_account tx
  | GetAccountData tx n => on_get_account_data tx n
  | GetWwwAuthToken tx => on_get_www_auth_token tx
  | SubmitVoucherCode tx voucher => on_submit_voucher tx voucher
  | GetAccountHistory tx => on_get_account_history tx
  | ClearAccountHistory tx => on_clear_account_history tx
  | GetRelayLocations tx => on_get_relay_locations tx
  | UpdateRelayLocations => on_update_relay_locations
  | GetBridges tx => on_get_bridges tx
  | LoginAccount tx n => on_login_account tx n
  | LogoutAccount tx => on_logout_account tx
  | GetDevice tx => on_get_device tx
  | UpdateDevice tx => on_update_device tx
  | ListDevices tx n => on_list_devices tx n
  | RemoveDevice tx n i => on_remove_device tx n i
  | SetRelaySettings tx update => on_set_relay_settings tx update
  | SetAllowLan tx b => on_set_allow_lan tx b
  | SetShowBetaReleases tx b => on_set_show_beta_releases tx b
  | SetLockdownMode tx b => on_set_lockdown_mode tx b
  | SetAutoConnect tx b => on_set_auto_connect tx b
  | SetEnableIpv6 tx b => on_set_enable_ipv6 tx b
  | SetUserspaceWireguard tx b => on_set_userspace_wireguard tx b
  | SetEnableRecents tx b => on_set_enable_recents tx b
  | SetQuantumResistantTunnel tx q => on_set_quantum_resistant_tunnel tx q
  | SetEnableDaita tx b => on_set_daita_enabled tx b
  | SetDaitaUseMultihopIfNecessary tx b => on_set_daita_use_multihop_if_necessary tx b
  | SetDaitaSettings tx x => on_set_daita_settings tx x
  | SetDnsOptions tx o => on_set_dns_options tx o
  | SetRelayOverride tx o => on_set_relay_override tx o
  | ClearAllRelayOverrides tx => on_clear_all_relay_overrides tx
  | SetWireguardMtu tx x => on_set_wireguard_mtu tx x
  | SetWireguardAllowedIps tx ips => on_set_wireguard_allowed_ips tx ips
  | SetWireguardRotationInterval tx i => on_set_wireguard_rotation_interval tx i
  | GetSettings tx => on_get_settings tx
  | ResetSettings tx => on_reset_settings tx
  | RotateWireguardKey tx => on_rotate_wireguard_key tx
  | GetWireguardKey tx => on_get_wireguard_key tx
  | CreateCustomList tx name locations => on_create_custom_list tx name locations
  | DeleteCustomList tx i => on_delete_custom_list tx i
  | UpdateCustomList tx l => on_update_custom_list tx l
  | ClearCustomLists tx => on_clear_custom_lists tx
  | AddApiAccessMethod tx name enabled m => on_add_access_method tx name enabled m
  | RemoveApiAccessMethod tx i => on_remove_api_access_method tx i
  | SetApiAccessMethod tx i => on_set_api_access_method tx i
  | UpdateApiAccessMethod tx m => on_update_api_access_method tx m
  | ClearCustomApiAccessMethods tx => on_clear_custom_api_access_methods tx
  | GetCurrentAccessMethod tx => on_get_current_api_access_method tx
  | TestApiAccessMethodById tx i => on_test_api_access_method tx i
  | TestCustomApiAccessMethod tx p => on_test_proxy_as_access_method tx p
  | GetVersionInfo tx => on_get_version_info tx
  | IsPerformingPostUpgrade tx => on_is_performing_post_upgrade tx
  | GetCurrentVersion tx => on_get_current_version tx
  | FactoryReset tx => on_factory_reset tx
  | SplitTunnelIsSupported tx => on_split_tunnel_is_supported tx
  | GetSplitTunnelProcesses tx => on_get_split_tunnel_processes tx
  | AddSplitTunnelProcess tx pid => on_add_split_tunnel_process tx pid
  | RemoveSplitTunnelProcess tx pid => on_remove_split_tunnel_process tx pid
  | ClearSplitTunnelProcesses tx => on_clear_split_tunnel_processes tx
  | SetObfuscationSettings tx x => on_set_obfuscation_settings tx x
  | PrepareRestart shutdown => on_prepare_restart shutdown
  | ApplyJsonSettings tx blob => on_apply_json_settings tx blob
  | ExportJsonSettings tx => on_export_json_settings tx
  | GetFeatureIndicators tx => on_get_feature_indicators tx
  | UpdateDefaultLocationCountry tx => on_update_default_location tx
  | DisableRelay relay tx => on_toggle_relay relay false tx
  | EnableRelay relay tx => on_toggle_relay relay true tx
  | GetRolloutThreshold tx => on_get_rollout_threshold tx
  | GenerateNewRolloutSeed tx => reply_result tx RThreshold generate_and_set
  | SetRolloutThresholdSeed seed tx => set_rollout_threshold_seed seed;; oneshot_send tx RUnit
  | AppUpgrade tx => on_app_upgrade tx
  | AppUpgradeAbort tx => on_app_upgrade_abort tx
  | GetAppUpgradeCacheDir tx => on_get_app_upgrade_cache_dir tx
  end.

(** ** All events; the result is whether the daemon is to stop. *)
Definition handle_event (event : InternalDaemonEvent) : D bool :=
  match event with
  | TunnelTransition t => handle_tunnel_state_transition t;; mret false
  | DaemonCmd c => handle_command c;; mret false
  | TriggerShutdown user_init_shutdown => on_trigger_shutdown user_init_shutdown;; mret true
  | NewAppVersionInfo => handle_new_app_version_info;; mret false
  | DeviceEvent e => handle_device_event e;; mret false
  | AccessEvent e tx => handle_access_method_event e tx;; mret false
  | DeviceMigrationEvent r => handle_device_migration_event r;; mret false
  | LocationEvent data => handle_location_event data;; mret false
  | SettingsChanged => update_feature_indicators_on_settings_changed;; mret false
  | LeakDetected => handle_leak_event;; mret false
  end.

Definition handle_initial_target_state : D unit :=
  t ← reads target;
  match t with Secured => send_tunnel_command CmdConnect | Unsecured => fetch_am_i_mullvad end.

(** One event of [disconnect_tunnel_and_wait]; the result is whether it is over. *)
Definition wait_disconnected (event : InternalDaemonEvent) : D bool :=
  match event with TunnelTransition t => handle_tunnel_state_transition t | _ => mret tt end;;
  s ← reads tunnel_state; mret (is_disconnected s).

(** The answers of the shutdown tasks, and the file of the target state; [cleared] is whether the
    directories could be cleared, [removed] whether the file could be removed. *)
Definition finalize (cleared removed : bool) (d : Daemon) : list Effect * CacheFile :=
  (map (fun '(tx, last_error) =>
          let last_error := if cleared then last_error else Some "Failed to clear cache and log directories" in
          Reply tx (RResult match last_error with Some e => Err (FactoryResetError e) | None => Ok tt end))
     (shutdown_tasks d),
   target_finalize removed (target_state d) (target_file d)).
End env.

(** ** Running *)
(** Events until the daemon is to stop: what it has done, and the events that are left if it stops. *)
Fixpoint handle_events (events : list (Env * InternalDaemonEvent)) (d : Daemon)
  : Daemon * list Effect * option (list (Env * InternalDaemonEvent)) :=
  match events with
  | [] => (d, [], None)
  | (env, e) :: events =>
      let '(stop, d, es) := handle_event env e d in
      if stop : bool then (d, es, Some events)
      else let '(d, es', rest) := handle_events events d in (d, es ++ es', rest)
  end.

Fixpoint wait_events (events : list (Env * InternalDaemonEvent)) (d : Daemon)
  : Daemon * list Effect * option (list (Env * InternalDaemonEvent)) :=
  match events with
  | [] => (d, [], None)
  | (env, e) :: events =>
      let '(over, d, es) := wait_disconnected env e d in
      if over : bool then (d, es, Some events)
      else let '(d, es', rest) := wait_events events d in (d, es ++ es', rest)
  end.

Definition disconnect_tunnel_and_wait (events : list (Env * InternalDaemonEvent)) (d : Daemon)
  : Daemon * list Effect * option (list (Env * InternalDaemonEvent)) :=
  if is_disconnected (tunnel_state d) then (d, [], Some events)
  else let '(d, es, rest) := wait_events events d in (d, Tunnel CmdDisconnect :: es, rest).

(** ** Starting
    The results of what [start] depends on. *)
Record StartEnv : Type := {
  start_store : Settings -> option SettingsError;
  start_beta : bool;
  start_ids : nat * nat * nat * nat;
  settings_file : SettingsFile CustomProxy;
  management_interface : bool;
  rpc_factory : bool;
  access_selector : bool;
  account_manager : result PrivateDeviceState Error;
  history_opened : bool;
  start_history_write : HistoryWriteOutcome;
  start_history_file : HistoryFile;
  start_target_write_fails : option CacheFile;
  start_target_file : CacheFile;
  route_manager : bool;
  current_endpoint : result AllowedEndpoint unit;
  tunnel_machine : bool;
  start_seed : Z;
}.

Definition ensure {E} (b : bool) (e : E) : result unit E := if b then Ok tt else Err e.

(** The daemon, what the tunnel state machine is started with, and the settings the listeners are given
    when the seed of rollouts is drawn. *)
Definition start (e : StartEnv) : result (Daemon * InitialTunnelState * option Settings) DaemonError :=
  let p := SettingsPersister.load (start_store e) (start_beta e) (start_ids e) (settings_file e) in
  ensure (management_interface e) ManagementInterfaceError ;?
  ensure (rpc_factory e) InitRpcFactory ;?
  ensure (access_selector e) ApiConnectionModeError ;?
  data <-? map_err LoadAccountManager (account_manager e);
  history <-? map_err LoadAccountHistory
                (AccountHistory_new (history_opened e) (start_history_write e) (start_history_file e)
                   (account_number <$> state_device data));
  let w :=
    match start_target_write_fails e with None => TargetState.Written | Some remains => TargetState.WriteFailed remains end in
  let '(t, f) := if auto_connect (settings p) then new_secured w (start_target_file e) else new w (start_target_file e) in
  match t with
  (** Only if the process has ended. *)
  | None => Err DaemonUnavailable
  | Some t =>
      ensure (route_manager e) RouteManagerError ;?
      endpoint <-? map_err (fun _ => ApiConnectionModeError) (current_endpoint e);
      ensure (tunnel_machine e) TunnelError ;?
      let initial :=
        {| init_allow_lan := allow_lan (settings p); init_lockdown_mode := LockdownMode_from (lockdown_mode (settings p));
           init_dns_config := addresses_from_options (dns_options (tunnel_options (settings p)));
           init_allowed_endpoint := endpoint; reset_firewall := bool_decide (state t <> Secured) |} in
      let '(p, notified, r) :=
        SettingsPersister.update (start_store e)
          (fun s => match rollout_threshold_seed s with
                    | Some _ => s
                    | None => Settings.set_rollout_threshold_seed (Some (start_seed e)) s
                    end) p in
      match r with
      | Err error => Err (SettingsFailure error)
      | Ok _ =>
          Ok ({| tunnel_state := Disconnected None (lockdown_mode (settings p)); target_state := t; target_file := f;
                 reconnection_job := None; jobs := 0; persister := p; account_history := history;
                 device_checker := TunnelStateChangeHandler_new; request_id := 0; shutdown_tasks := [] |},
              initial, notified)
      end
  end.
End daemon.
