(* ===== verification/SettingsProps.v ===== *)
(** * Theorems about the settings

    Settings survive restarts and failed writes, and what the daemon derives from them is what they say. *)

From stdpp Require Import base list strings gmap option numbers sets.
From S2P Require Import Prelude Retry DeviceService DeviceManager AccessMethods NetTypes TunnelTypes FirewallPolicy.
From S2P Require Import RelayTypes RelaySelector Settings SettingsPersister.
Local Open Scope vpn_scope.

(** ** Overrides and recents *)
Lemma swap_remove_middle {A} (l1 l2 : list A) x : swap_remove (length l1) (l1 ++ x :: l2) ≡ₚ l1 ++ l2.
Proof.
  unfold swap_remove. induction l2 as [|y k _] using rev_ind.
  - rewrite last_snoc, length_app. cbn [length]. destruct (Nat.eqb_spec (S (length l1)) (length l1 + 1)); [|lia].
    by rewrite take_app_length, app_nil_r.
  - rewrite app_comm_cons, app_assoc, last_snoc, <- app_assoc, <- app_comm_cons, !length_app. cbn [length].
    rewrite length_app. cbn [length].
    destruct (Nat.eqb_spec (S (length l1)) (length l1 + S (length k + 1))); [lia|].
    rewrite insert_app_r_alt, Nat.sub_diag by done. cbn [insert list_insert].
    rewrite app_comm_cons, app_assoc, take_app_le, take_ge by (rewrite ?length_app; simpl; lia). solve_Permutation.
Qed.

Lemma NoDup_map_split {A B} (f : A -> B) l1 x l2 :
  NoDup (map f (l1 ++ x :: l2)) <-> f x ∉ map f (l1 ++ l2) /\ NoDup (map f (l1 ++ l2)).
Proof.
  rewrite <- Permutation_middle. simpl. apply NoDup_cons.
Qed.

Section props.
Context {CustomProxy : Type} `{EqDecision CustomProxy}.
Implicit Types s : Settings CustomProxy.

(** What every setting of overrides keeps: at most one for each relay. *)
Definition overrides_unique (l : list RelayOverride) : Prop := NoDup (map ov_hostname l).

Lemma set_relay_override_unique o s :
  overrides_unique (relay_overrides s) -> overrides_unique (relay_overrides (set_relay_override o s)).
Proof.
  unfold overrides_unique, set_relay_override. simpl. generalize (relay_overrides s). intros l Hs.
  destruct (list_find _ _) as [[i e]|] eqn:E.
  - apply list_find_Some in E as (Hi & He & _). apply list_elem_of_split_length in Hi as (l1 & l2 & -> & ->).
    apply NoDup_map_split in Hs as [Hx Hs]. case_match; [by rewrite swap_remove_middle|].
    rewrite insert_app_r_alt, Nat.sub_diag by done. simpl. apply NoDup_map_split. by rewrite He in Hx.
  - apply list_find_None in E. rewrite map_app, NoDup_app. split_and!; [done| |apply NoDup_singleton].
    intros h Hh ->%list_elem_of_singleton. apply list_elem_of_fmap in Hh as (e & He & Hin).
    rewrite Forall_forall in E. by apply (E e).
Qed.

(** The recents: no place twice, at most [RECENTS_MAX_COUNT] of them, the current one first. *)
Definition recents_ok (l : list Recent) : Prop := NoDup l /\ length l <= RECENTS_MAX_COUNT.

Lemma update_recents_ok s l :
  recents s = Some l -> recents_ok l ->
  exists l', recents (update_recents s) = Some l' /\ recents_ok l'
    /\ (forall r, Recent_try_from (relay_settings s) = Some r -> head l' = Some r)
    /\ forall r, r ∈ l' -> r ∈ l \/ Recent_try_from (relay_settings s) = Some r.
Proof.
  unfold update_recents, recents_ok. intros Hl [Hn Hlen]. rewrite Hl.
  destruct (Recent_try_from _) as [r|]; [|exists l; naive_solver]. eexists. split; [done|].
  assert (Hnd : NoDup (r :: filter (fun x => x <> r) l)).
  { constructor; [rewrite list_elem_of_filter; naive_solver | by apply NoDup_filter]. }
  split_and!.
  - eapply sublist_NoDup; [apply Hnd|]. apply sublist_take.
  - rewrite length_take. unfold RECENTS_MAX_COUNT. lia.
  - by intros ? [= <-].
  - intros x (j & Hj & _)%elem_of_take. apply list_elem_of_lookup_2 in Hj.
    rewrite elem_of_cons, list_elem_of_filter in Hj. naive_solver.
Qed.

(** ** The settings on disk *)
Context (is_beta_version : bool).
Notation persister := (SettingsPersister CustomProxy).

(** An operation of the persister, with how its writes end. *)
Inductive Operation : Type :=
| Change (store : Settings CustomProxy -> option SettingsError)
    (f : Settings CustomProxy -> result (Settings CustomProxy) UpdateError)
| Reset (store : Settings CustomProxy -> option SettingsError) (ids : nat * nat * nat * nat) (removable : bool).

(** The persister, what its listeners are given, and the error. *)
Definition apply_op (o : Operation) (p : persister) : persister * option (Settings CustomProxy) * option SettingsError :=
  match o with
  | Change store f => let '(p, n, r) := try_update store f p in (p, n, result_err r)
  | Reset store ids removable => let '(p, n, r) := reset store is_beta_version ids removable p in (p, n, result_err r)
  end.

(** The settings a daemon that is started next has; the identifiers of defaults are fresh. *)
Definition restarted ids (p : persister) : Settings CustomProxy := read_only is_beta_version ids (file p).

(** The settings are on disk: they are the content of the file, without what is not written, or the file is gone and
    they are the default settings. *)
Definition on_disk (p : persister) : Prop :=
  (exists s, file p = Parsed (Some s) /\ persisted s = persisted (settings p))
  \/ (file p = NoSettings /\ exists ids, settings p = default_settings is_beta_version ids).

Fixpoint apply_ops (os : list Operation) (p : persister) : persister * list (Settings CustomProxy) * list SettingsError :=
  match os with
  | [] => (p, [], [])
  | o :: os =>
      let '(p, n, e) := apply_op o p in
      let '(p, ns, es) := apply_ops os p in
      (p, option_list n ++ ns, option_list e ++ es)
  end.

Lemma persisted_idemp s : persisted (persisted s) = persisted s.
Proof.
  unfold persisted. destruct (relay_settings s) as [e|c] eqn:E; simpl; [|by rewrite E].
  unfold set_relay_settings, persisted_endpoint. simpl. by destruct (exit_peer (config e)).
Qed.
Lemma persisted_default ids :
  persisted (default_settings (CustomProxy:=CustomProxy) is_beta_version ids) = default_settings is_beta_version ids.
Proof. unfold persisted, default_settings. by destruct is_beta_version. Qed.
Lemma persisted_beta b s : persisted (set_show_beta_releases b s) = set_show_beta_releases b (persisted s).
Proof. unfold persisted. simpl. by destruct (relay_settings s). Qed.

Lemma try_update_spec store f (p p' : persister) n r :
  try_update store f p = (p', n, r) ->
  (p' = p /\ n = None /\ r <> Ok true)
  \/ (n = Some (settings p') /\ r = Ok true /\ file p' = Parsed (Some (persisted (settings p'))) /\ f (settings p) = Ok (settings p')
      /\ settings p' <> settings p).
Proof.
  unfold try_update, save_inner. destruct (f (settings p)) as [s|e] eqn:Hf; [|intros [= <- <- <-]; by left].
  case_decide; [intros [= <- <- <-]; by left|].
  destruct (store s); intros [= <- <- <-]; [left | right; by split_and!]. by destruct p.
Qed.

Lemma apply_op_spec o (p p' : persister) n e :
  on_disk p -> apply_op o p = (p', n, e) ->
  (e <> Some DeleteError -> on_disk p')
  /\ (n = None -> e <> Some DeleteError -> settings p' = settings p)
  /\ (forall s, n = Some s -> s = settings p' /\ e = None).
Proof.
  intros Hp. destruct o as [store f | store ids removable]; simpl.
  - destruct (try_update store f p) as [[q m] r] eqn:E. intros [= <- <- <-].
    apply try_update_spec in E as [(-> & -> & Hr)|(-> & -> & Hf & _)]; [done|].
    split_and!; [intros _; left; eexists; split; [exact Hf|apply persisted_idemp] | done |]. by intros ? [= <-].
  - unfold reset, save_inner. simpl.
    destruct (store _); [destruct (file p) eqn:Hf; [|destruct removable..]|]; intros [= <- <- <-]; split_and!; try done;
      try (by intros ? [= <-]); intros _; first [left; eexists; split; [done|apply persisted_idemp] | right; split; [done | by exists ids]].
Qed.

(** A beta version turns the announcement of beta versions on whenever it is started. *)
Definition as_started s : Settings CustomProxy := if is_beta_version then set_show_beta_releases true s else s.

Lemma as_started_default ids : as_started (default_settings is_beta_version ids) = default_settings is_beta_version ids.
Proof. unfold as_started, default_settings. by destruct is_beta_version. Qed.

Lemma on_disk_restarted (p : persister) : on_disk p -> exists ids, restarted ids p = as_started (persisted (settings p)).
Proof.
  unfold restarted, read_only. intros [(s & -> & E)|(-> & ids & ->)].
  - exists (0, 0, 0, 0). unfold as_started. simpl. rewrite E. by destruct is_beta_version.
  - exists ids. rewrite persisted_default, as_started_default. unfold load_inner, default_settings. simpl. by destruct is_beta_version.
Qed.

Lemma apply_ops_spec os (p p' : persister) ns es :
  on_disk p -> apply_ops os p = (p', ns, es) -> DeleteError ∉ es ->
  on_disk p' /\ default (settings p) (last ns) = settings p'.
Proof.
  revert p ns es. induction os as [|o os IH]; simpl; intros p ns es Hp; [by intros [= <- <- <-]|].
  destruct (apply_op o p) as [[q n] e] eqn:Eo, (apply_ops os q) as [[q' ns'] es'] eqn:E. intros [= <- <- <-] Hes.
  destruct (apply_op_spec _ _ _ _ _ Hp Eo) as (Hq & Hn & Hs).
  assert (He : e <> Some DeleteError) by (intros ->; set_solver).
  destruct (IH _ _ _ (Hq He) E) as [Hp' Hl]; [destruct e; set_solver|]. split; [done|].
  rewrite <- Hl, last_app. destruct (last ns'), n as [s1|]; simpl; try done; [by destruct (Hs s1) | by rewrite Hn].
Qed.

(** C20. Settings survive restarts.  If writing works when the daemon starts, then after any changes and
    resets, failed ones included, unless a reset could neither write nor remove the file: a daemon that is
    started next has the settings of this one, except for the pre-shared keys and packet sizes of the peers of
    an endpoint of the user's own, which are not written, and for the announcement of beta versions, which a
    beta version turns on when it starts; and the listeners were last given the settings of this one. *)
Theorem settings_survive store ids f os p' ns es :
  (forall s, store s = None) -> apply_ops os (load store is_beta_version ids f) = (p', ns, es) -> DeleteError ∉ es ->
  (exists ids', restarted ids' p' = as_started (persisted (settings p')))
  /\ default (settings (load store is_beta_version ids f)) (last ns) = settings p'.
Proof.
  intros Hstore Hops Hes.
  assert (Hp : on_disk (load store is_beta_version ids f)).
  { left. unfold load, save_inner. rewrite Hstore. simpl.
    destruct (should_save _) eqn:E; [eexists; split; [done|apply persisted_idemp]|].
    unfold load_inner in *. destruct f as [| |[s0|]]; simpl in *; destruct is_beta_version; simpl in *; try done;
      (eexists; split; [done|]); [|by rewrite persisted_idemp].
    rewrite persisted_beta, persisted_idemp. apply negb_false_iff in E. destruct (persisted s0). simpl in *. by rewrite E. }
  destruct (apply_ops_spec _ _ _ _ _ Hp Hops Hes). split; [by apply on_disk_restarted | done].
Qed.

(** C19. Settings that cannot be used lock the device down.  Settings that are there are used as they are, but
    for the fields that are never read and, in a beta version, the announcement of beta versions; none at all
    give the defaults, and a file that cannot be read or parsed gives the defaults with lockdown mode, whether
    or not they can be saved. *)
Theorem load_fails_closed store ids f :
  let s := settings (load store is_beta_version ids f) in
  match f with
  | Parsed (Some s0) => s = as_started (persisted s0)
  | NoSettings => s = default_settings is_beta_version ids /\ lockdown_mode s = false
  | UnreadableSettings | Parsed None =>
      lockdown_mode s = true /\ s = set_lockdown_mode true (default_settings is_beta_version ids)
  end.
Proof.
  unfold load, load_inner, default_settings, as_started.
  destruct f as [| |[s|]]; simpl; destruct is_beta_version; by repeat split.
Qed.

(** A reset that fails has reset the settings in memory, without telling the listeners; the old settings
    are back after a restart. *)
Theorem reset_failure_hidden store ids (p : persister) e :
  file p = Parsed (Some (settings p)) -> store (default_settings is_beta_version ids) = Some e ->
  exists p', reset store is_beta_version ids false p = (p', None, Err DeleteError)
    /\ settings p' = default_settings is_beta_version ids /\ file p' = file p.
Proof.
  intros Hf Hs. unfold reset, save_inner. rewrite Hs, Hf. eexists. split; [done|]. by rewrite <- Hf.
Qed.

(** ** What follows from the settings *)
(** The bits of the address of a filtering name server. *)
Definition blocker_bits (o : DefaultDnsOptions) : list bool :=
  [block_ads o; block_trackers o; block_malware o; block_adult_content o; block_gambling o; block_social_media o].

Lemma blocking_last_byte_spec o :
  let b := blocking_last_byte o in
  Z.lor DNS_BLOCKING_IP_BASE b = (DNS_BLOCKING_IP_BASE + b)%Z /\ ((0 <=? b) && (b <? 64))%Z = true
  /\ map (Z.testbit b) [0; 1; 2; 3; 4; 5]%Z = blocker_bits o /\ (b =? 0)%Z = negb (any_blockers_enabled o).
Proof. destruct o as [[] [] [] [] [] []]; vm_compute; by repeat split. Qed.

(** Name servers.  Each combination of content blockers has its own name server, whose last byte says
    which contents are blocked; without blockers, or without custom addresses, the tunnel's own is used;
    custom addresses are all used, outside the tunnel exactly if they are local. *)
Theorem dns_options_exact `{IpNetworkOps} (o : DnsOptions) :
  match addresses_from_options o with
  | DnsDefault =>
      match dns_state o with
      | DnsStateDefault => any_blockers_enabled (default_options o) = false
      | DnsStateCustom => custom_addresses o = []
      end
  | DnsOverride tunnel non_tunnel =>
      match dns_state o with
      | DnsStateDefault =>
          exists b, tunnel = [V4 (DNS_BLOCKING_IP_BASE + b)] /\ non_tunnel = [] /\ (0 < b < 64)%Z
            /\ map (Z.testbit b) [0; 1; 2; 3; 4; 5]%Z = blocker_bits (default_options o)
      | DnsStateCustom =>
          tunnel ++ non_tunnel ≡ₚ custom_addresses o
          /\ (forall a, a ∈ tunnel -> is_local_address a = false) /\ (forall a, a ∈ non_tunnel -> is_local_address a = true)
      end
  end.
Proof.
  unfold addresses_from_options. destruct o as [[] blockers addrs]; cbn [dns_state default_options custom_addresses].
  - destruct (blocking_last_byte_spec blockers) as (Ho & [H0 H1]%andb_true_iff & Hb & Hz). rewrite Ho.
    destruct (Z.eqb_spec (blocking_last_byte blockers) 0) as [E|E]; [by destruct (any_blockers_enabled blockers)|].
    exists (blocking_last_byte blockers). split_and!; [done.. | | | done]; lia.
  - destruct addrs as [|a l]; [done|]. generalize (a :: l). clear a l. intros addrs.
    rewrite List.partition_as_filter. unfold DnsConfig_from_addresses.
    split_and!.
    + induction addrs as [|x k IH]; simpl; [done|]. destruct (is_local_address x); simpl; [rewrite <- Permutation_middle|]; by apply Permutation_skip.
    + intros x Hx. apply list_elem_of_In, List.filter_In in Hx as [_ Hx]. by apply negb_true_iff.
    + intros x Hx. by apply list_elem_of_In, List.filter_In in Hx as [_ Hx].
Qed.

(** Content blockers are shown as active although a custom name server, which ignores them, is used. *)
Theorem blockers_shown_with_custom_dns `{IpNetworkOps} s e b :
  let o := dns_options (tunnel_options s) in
  dns_state o = DnsStateCustom -> any_blockers_enabled (default_options o) = true ->
  FDnsContentBlockers ∈ compute_feature_indicators s e b
  /\ forall blockers, addresses_from_options o
       = addresses_from_options {| dns_state := dns_state o; default_options := blockers; custom_addresses := custom_addresses o |}.
Proof.
  simpl. intros Hs Hb. split.
  - unfold compute_feature_indicators. rewrite Hb. destruct (match relay_settings s with Normal _ => _ | _ => _ end).
    simpl. destruct (allow_lan s); simpl; set_solver.
  - intros blockers. unfold addresses_from_options. simpl. by rewrite Hs.
Qed.
End props.
