(* ===== verification/DaemonSteps.v ===== *)
(** * Rules for the handlers of the daemon

    A relation between the daemon before and after a computation and what it does is kept by sequencing if
    it is reflexive and transitive ([Sequential]).  Such a relation is established for a handler from its
    parts ([does]); the handlers of most commands are covered by the hints of the database [daemon]. *)

From stdpp Require Import base list strings gmap option numbers sets.
From S2P Require Import Prelude Retry DeviceService DeviceManager AccessMethods NetTypes TunnelTypes FirewallPolicy.
From S2P Require Import TunnelStateMachine TargetState SettingsPatch RelayTypes RelaySelector Settings SettingsPersister Daemon.
Local Open Scope vpn_scope.

Create HintDb daemon.

Section steps.
Context {CustomProxy : Type} `{EqDecision CustomProxy} `{IpNetworkOps} `{Curve} `{SettingsJson CustomProxy}.
Notation Daemon := (@Daemon CustomProxy).
Notation Effect := (@Effect CustomProxy).
Notation Env := (@Env CustomProxy).

Class Sequential (Q : Daemon -> Daemon -> list Effect -> Prop) : Prop := {
  seq_nil d : Q d d [];
  seq_app d d1 d2 es1 es2 : Q d d1 es1 -> Q d1 d2 es2 -> Q d d2 (es1 ++ es2);
}.

Definition does {A} (Q : Daemon -> Daemon -> list Effect -> Prop) (m : D A) : Prop :=
  forall d, Q d (m d).1.2 (m d).2.

Section rules.
Context (Q : Daemon -> Daemon -> list Effect -> Prop) `{!Sequential Q}.

Lemma does_ret {A} (a : A) : does Q (mret a).
Proof. intros d. apply seq_nil. Qed.

Lemma does_reads {A} (f : Daemon -> A) : does Q (reads f).
Proof. intros d. apply seq_nil. Qed.

Lemma does_bind {A B} (m : D A) (k : A -> D B) :
  does Q m -> (forall a, does Q (k a)) -> does Q (m ≫= k).
Proof.
  intros Hm Hk d. unfold mbind, D_bind. specialize (Hm d). destruct (m d) as [[a d1] es1].
  specialize (Hk a d1). destruct (k a d1) as [[b d2] es2]. by eapply seq_app.
Qed.

Lemma does_when b (m : D unit) : does Q m -> does Q (when b m).
Proof. intros Hm. destruct b; [done | by apply does_ret]. Qed.

Lemma does_emit e : (forall d, Q d d [e]) -> does Q (emit e).
Proof. intros He d. apply He. Qed.

Lemma does_emits l : (forall d e, e ∈ l -> Q d d [e]) -> does Q (emits l).
Proof.
  intros Hl d. unfold emits. simpl. induction l as [|e l IH]; [apply seq_nil|].
  apply (seq_app _ d _ [e]); [apply Hl; set_solver | apply IH; set_solver].
Qed.

Lemma does_modify f : (forall d, Q d (f d) []) -> does Q (modify f).
Proof. intros Hf d. apply Hf. Qed.

(** Reading the daemon first: the rest is only for that daemon. *)
Lemma does_reads_bind {A B} (f : Daemon -> A) (k : A -> D B) :
  (forall d, Q d (k (f d) d).1.2 (k (f d) d).2) -> does Q (reads f ≫= k).
Proof. intros Hk d. specialize (Hk d). unfold mbind, D_bind, reads. by destruct (k (f d) d) as [[b d2] es2]. Qed.

Lemma does_match_option {A B} (o : option A) (f : A -> D B) (g : D B) :
  (forall a, does Q (f a)) -> does Q g -> does Q (match o with Some a => f a | None => g end).
Proof. destruct o; auto. Qed.
End rules.

(** What changing the settings does. *)
Definition listeners (n : option (Settings CustomProxy)) : list Effect :=
  match n with
  | Some s =>
      [Notify (NotifySettings s); Spawn (TaskUpdateAccessMethods (api_access_methods s));
       SendTunnelOptions (tunnel_options s); Spawn (TaskSetSettings s); SendEvent SettingsChanged;
       Spawn (TaskUpdateOverrides (relay_overrides s))]
  | None => []
  end.

Lemma persist_eq {A} (op : SettingsPersister CustomProxy -> SettingsPersister CustomProxy * option (Settings CustomProxy) * A) d :
  persist op d = let '(p, n, r) := op (persister d) in (r, put_persister p d, listeners n).
Proof. unfold persist, mbind, D_bind. simpl. destruct (op (persister d)) as [[p [s|]] r]; done. Qed.

(** Sequences of events. *)
Lemma handle_events_does (Q : Daemon -> Daemon -> list Effect -> Prop) `{!Sequential Q} events d d' es rest :
  (forall env e, (env, e) ∈ events -> does Q (handle_event env e)) ->
  handle_events events d = (d', es, rest) -> Q d d' es.
Proof.
  revert d es. induction events as [|[env e] events IH]; intros d es Hq; simpl; [intros [= <- <- <-]; apply seq_nil|].
  pose proof (Hq env e ltac:(set_solver) d) as Hd. destruct (handle_event env e d) as [[stop d1] es1].
  destruct stop; [by intros [= <- <- <-]|].
  destruct (handle_events events d1) as [[d2 es2] rest2] eqn:E. intros [= <- <- <-].
  eapply seq_app; [done|]. apply IH; [|done]. intros env0 e0 He0. apply Hq. set_solver.
Qed.

Lemma wait_events_does (Q : Daemon -> Daemon -> list Effect -> Prop) `{!Sequential Q} events d d' es rest :
  (forall env e, (env, e) ∈ events -> does Q (wait_disconnected env e)) ->
  wait_events events d = (d', es, rest) -> Q d d' es.
Proof.
  revert d es. induction events as [|[env e] events IH]; intros d es Hq; simpl; [intros [= <- <- <-]; apply seq_nil|].
  pose proof (Hq env e ltac:(set_solver) d) as Hd. destruct (wait_disconnected env e d) as [[over d1] es1].
  destruct over; [by intros [= <- <- <-]|].
  destruct (wait_events events d1) as [[d2 es2] rest2] eqn:E. intros [= <- <- <-].
  eapply seq_app; [done|]. apply IH; [|done]. intros env0 e0 He0. apply Hq. set_solver.
Qed.
End steps.

(** Takes a handler apart, down to single effects and changes of the daemon. *)
Ltac does_step :=
  match goal with
  | |- does _ (@mbind _ _ _ _ _ _) => apply does_bind; [apply _ | | let a := fresh "a" in intros a]
  | |- does _ (@mret _ _ _ _) => apply does_ret; apply _
  | |- does _ (reads _) => apply does_reads; apply _
  | |- does _ (when _ _) => apply does_when; [apply _|]
  | |- does _ (emit _) => apply does_emit; intros ?
  | |- does _ (modify _) => apply does_modify; intros ?
  | |- does _ (match ?x with _ => _ end) => destruct x eqn:?
  | |- does _ (let '(_, _) := ?x in _) => destruct x eqn:?
  | |- does _ (emits _) => apply does_emits; [apply _ | intros ? ?; rewrite !elem_of_cons, elem_of_nil; intros ?; destruct_or?; subst; try done]
  end.

(** Unfolds the handler itself. *)
Ltac head_of t := lazymatch t with ?f _ => head_of f | _ => t end.
Ltac does_unfold := match goal with |- does _ ?m => let h := head_of m in unfold h end.

(** ** What is never done *)
Section avoids.
Context {CustomProxy : Type} `{EqDecision CustomProxy} `{IpNetworkOps} `{Curve} `{SettingsJson CustomProxy}.
Notation Daemon := (@Daemon CustomProxy).
Notation Effect := (@Effect CustomProxy).

Definition avoids (bad : Effect -> bool) (_ _ : Daemon) (es : list Effect) : Prop := Forall (fun e => bad e = false) es.

#[global] Instance avoids_sequential bad : Sequential (avoids bad).
Proof. split; unfold avoids; [constructor | intros; by apply Forall_app_2]. Qed.

(** Whether an effect is a request to the tunnel, and one that reaches it only as itself. *)
Definition is_tunnel (e : Effect) : bool := match e with Tunnel _ => true | _ => false end.

Context (bad : Effect -> bool) (Hbad : forall e, is_tunnel e = false -> bad e = false).

Lemma avoids_persist {A} op : does (avoids bad) (persist (A := A) op).
Proof.
  unfold persist, notify_listeners. repeat does_step.
  all: unfold avoids; rewrite ?Forall_singleton, ?Forall_nil; first [done | by apply Hbad].
Qed.
End avoids.
