(* ===== verification/TunnelTold.v ===== *)
(** * What the tunnel state machine was told

    The machine keeps the settings it was told last, in every state: each command changes exactly its own
    setting, and nothing else changes any.  Also which way the machine is heading after a command, and that the
    transition reported last stays true ([reports]). *)

From stdpp Require Import base list strings option numbers sets.
From S2P Require Import Prelude NetTypes TunnelTypes FirewallPolicy FirewallLinux TunnelStateMachine.
From S2P Require Import TunnelWp TunnelHandlers TunnelProps.

Local Open Scope vpn_scope.

(** ** What the machine was told *)
(** The values of the shared state that come from the user's settings. *)
Record Told : Type := { told_allow_lan : bool; told_lockdown : bool; told_dns : DnsConfig }.

Definition told_of (v : SharedTunnelStateValues) : Told :=
  {| told_allow_lan := allow_lan v;
     told_lockdown := lockdown_bool (lockdown_mode v); told_dns := dns_config v |}.

Definition tell_command (t : Told) (c : TunnelCommand) : Told :=
  match c with
  | CmdAllowLan b _ => {| told_allow_lan := b; told_lockdown := told_lockdown t; told_dns := told_dns t |}
  | CmdLockdownMode m _ =>
      {| told_allow_lan := told_allow_lan t; told_lockdown := lockdown_bool m; told_dns := told_dns t |}
  | CmdDns c _ => {| told_allow_lan := told_allow_lan t; told_lockdown := told_lockdown t; told_dns := c |}
  | _ => t
  end.

Definition tell_input (i : Input) (t : Told) : Told :=
  match i with InCommand (Some c) => tell_command t c | _ => t end.

(** Nothing. *)
Definition same (t : Told) : Told := t.

Section machine.
Context {W : Type} `{P : TunnelPlatform W} `{V : TunnelView W} {L : TunnelPlatformLaws W P V}.

(** A computation that changes what the machine was told by [f]. *)
Definition tells {A} (f : Told -> Told) (m : M W A) : Prop :=
  forall st, wp m (fun st' _ => told_of (sv st') = f (told_of (sv st))) st.

Lemma tells_then {A B} f (m : M W A) (k : A -> M W B) :
  tells same m -> (forall a, tells f (k a)) -> tells f (bindM m k).
Proof.
  intros Hm Hk st. apply wp_bind. eapply wp_mono; [apply Hm|]. intros st1 a H1.
  eapply wp_mono; [apply Hk|]. intros st2 b H2. by rewrite H2, H1.
Qed.

Lemma tells_first {A B} f (m : M W A) (k : A -> M W B) :
  tells f m -> (forall a, tells same (k a)) -> tells f (bindM m k).
Proof.
  intros Hm Hk st. apply wp_bind. eapply wp_mono; [apply Hm|]. intros st1 a H1.
  eapply wp_mono; [apply Hk|]. intros st2 b H2. by rewrite H2, H1.
Qed.

Lemma tells_nothing {A} f (m : M W A) : (forall t, f t = t) -> tells same m -> tells f m.
Proof. intros Hf Hm st. eapply wp_mono; [apply Hm|]. intros st' a E. by rewrite Hf. Qed.

Lemma tells_ret {A} (a : A) : tells same (@ret W _ a).
Proof. intros st. by apply wp_ret. Qed.
Lemma tells_get_sv : tells same (@get_sv W).
Proof. intros st. by apply wp_get_sv. Qed.
Lemma tells_send_tx tx : tells same (@send_tx W tx).
Proof. intros st. by apply wp_send_tx. Qed.
Lemma tells_on_world {A} (g : W -> W * A) : tells same (on_world g).
Proof. intros st. apply wp_on_world. by intros. Qed.
Lemma tells_set_sv f g : (forall v, told_of (g v) = f (told_of v)) -> tells f (@set_sv W g).
Proof. intros Hg st. apply wp_set_sv, Hg. Qed.

Lemma tells_frame {A} (m : M W A) (Q : St W -> St W -> A -> Prop) :
  (forall st, wp m (Q st) st) -> (forall st st' a, Q st st' a -> frame st st') -> tells same m.
Proof.
  intros Hm HQ st. eapply wp_mono; [apply Hm|]. intros st' a Ha. destruct (HQ _ _ _ Ha) as ((E1 & E2 & _ & E3 & _) & _).
  unfold told_of. by rewrite E1, E2, E3.
Qed.

Lemma tells_set_allow_lan b tx : tells (fun t => tell_command t (CmdAllowLan b tx)) (@set_allow_lan W b).
Proof.
  intros st. unfold set_allow_lan. wp_auto; [done|]. apply negb_false_iff, eqb_prop in Heqb0. unfold told_of. simpl. by rewrite <- Heqb0.
Qed.

Lemma tells_set_dns_config c tx : tells (fun t => tell_command t (CmdDns c tx)) (@set_dns_config W c).
Proof.
  intros st. unfold set_dns_config. wp_auto; [done|]. apply bool_decide_eq_false in Heqb.
  unfold told_of. simpl. by destruct (decide (dns_config (sv st) = c)) as [->|].
Qed.

End machine.

Ltac tell_leaf :=
  lazymatch goal with
  | |- tells _ (set_allow_lan _) => apply tells_set_allow_lan
  | |- tells _ (set_dns_config _) => apply tells_set_dns_config
  | |- tells _ (set_sv _) => apply tells_set_sv; reflexivity
  end.

(** Nothing is told by the parts of a handler that only act on the host. *)
Ltac tell_nothing :=
  repeat first
    [ apply tells_ret | apply tells_get_sv | apply tells_send_tx | apply tells_on_world
    | apply tells_set_sv; reflexivity
    | match goal with
      | |- tells _ (bindM _ _) => apply tells_then; [|intros ?]
      | |- tells _ (if ?b then _ else _) => destruct b
      | |- tells _ (match ?x with _ => _ end) => destruct x
      end ].

Ltac unfold_handlers :=
  unfold Disconnected_handle_commands, Connecting_handle_commands, Connecting_reset_firewall,
    Connecting_disconnect, Connecting_handle_tunnel_events, Connecting_handle_tunnel_close_event,
    Connected_handle_commands, Connected_disconnect, Connected_handle_tunnel_events,
    Connected_handle_tunnel_close_event, Connected_reset_dns, Disconnecting_handle_commands,
    after_disconnect, Error_handle_commands, new_state, Error_reset_dns, Disconnected_reset_dns,
    Connecting_enter, Connected_enter, Disconnecting_enter, Disconnected_enter, Error_enter,
    Disconnected_set_firewall_policy, Connecting_set_firewall_policy, Connected_set_firewall_policy,
    Error_set_firewall_policy, set_dns, reset_routes, start_tunnel, construct_state_transition,
    disable_connectivity_check, reset_connectivity_check.

Ltac solve_tells :=
  lazymatch goal with
  | |- tells same _ => solve [tell_nothing]
  | |- tells _ (bindM _ _) =>
      first [apply tells_first; [solve [tell_leaf | solve_tells] | intros ?; solve [tell_nothing]]
            | apply tells_then; [solve [tell_nothing] | intros ?; solve_tells]]
  | |- tells _ (if ?b then _ else _) => destruct b; solve_tells
  | |- tells _ (match ?x with _ => _ end) => destruct x; solve_tells
  end.

Section machine.
Context {W : Type} `{P : TunnelPlatform W} `{V : TunnelView W} {L : TunnelPlatformLaws W P V}.

Lemma tells_disconnected_lockdown mode tx :
  tells (fun t => tell_command t (CmdLockdownMode mode tx)) (Disconnected_handle_commands (Some (CmdLockdownMode mode tx))).
Proof.
  intros st. unfold Disconnected_handle_commands. apply wp_bind, wp_get_sv.
  destruct (lockdown_eq (lockdown_mode (sv st)) mode) eqn:E; simpl.
  - wp_auto. unfold told_of. simpl. f_equal. by destruct (lockdown_mode (sv st)) as [|[]], mode as [|[]].
  - unfold Disconnected_set_firewall_policy, new_state, construct_state_transition. wp_auto; done.
Qed.

Lemma dispatched_tells s i (m : M W EventConsequence) : dispatched s i m -> tells (tell_input i) m.
Proof.
  intros Hd. destruct Hd as [[[]|]|? [[]|]|? [[]|]|? [[]|]| |? [[]|]|? [[]|]| |??[[]|]| | |];
    first [apply tells_disconnected_lockdown
          | do 3 unfold_handlers; first [apply tells_nothing; [reflexivity | solve [tell_nothing]] | solve_tells]].
Qed.

Lemma handle_event_told s i st st' cons :
  handle_event s i st = Some (st', cons) -> told_of (sv st') = tell_input i (told_of (sv st)).
Proof.
  intros (m & Hd & E)%handle_event_dispatched.
  pose proof (dispatched_tells _ _ _ Hd (note_input i st)) as Hw. unfold wp in Hw. by rewrite E in Hw.
Qed.
End machine.

(** ** Which way the machine is heading *)
Definition aim (b : bool) (c : TunnelCommand) : bool :=
  match c with CmdConnect => true | CmdDisconnect => false | _ => b end.

Section heading.
Context {W : Type} `{P : TunnelPlatform W} `{V : TunnelView W} {L : TunnelPlatformLaws W P V}.

Lemma dispatched_aims s c (m : M W EventConsequence) :
  dispatched s (InCommand (Some c)) m -> heading_out s = true -> aim false c = true -> stays m.
Proof.
  intros Hd Hh Hc. inversion Hd; subst; try done; destruct c; try done;
    unfold Disconnected_handle_commands; solve_stays.
  intros st. unfold Disconnecting_handle_commands. wp_auto; by repeat case_match.
Qed.

(** A machine that is to head in does. *)
Lemma handle_event_aims s c st st' cons :
  live s -> aim (negb (heading_out s)) c = true ->
  handle_event s (InCommand (Some c)) st = Some (st', cons) -> staying cons.
Proof.
  intros Hl Hc E. destruct (heading_out s) eqn:Hh.
  - apply handle_event_dispatched in E as (m & Hd & E).
    pose proof (dispatched_aims _ _ _ Hd Hh Hc (note_input (InCommand (Some c)) st)) as Hw. unfold wp in Hw. by rewrite E in Hw.
  - eapply handle_event_stays; [done..| |done]. by destruct c.
Qed.
(** The machine goes on as long as the command channel is open. *)
Lemma handle_event_goes_on s i st st' :
  i <> InCommand None -> handle_event s i st = Some (st', Finished) -> False.
Proof.
  intros Hi E. destruct (handle_event_handled _ _ _ _ _ E) as [_ [-> _]].
  apply handle_event_dispatched in E as (m & Hd & E). inversion Hd as [cmd| | | | | | | | | | |]; subst; [|done..].
  assert (Hw : wp (Disconnected_handle_commands cmd) (fun _ c => c <> Finished) (note_input (InCommand cmd) st));
    [|unfold wp in Hw; rewrite E in Hw; by apply Hw].
  destruct cmd as [c|]; [|done]. unfold Disconnected_handle_commands, Disconnected_set_firewall_policy, set_allow_lan, set_dns_config,
    construct_state_transition. destruct c; wp_auto; done.
Qed.
End heading.

(** ** What was reported stays true *)
(** A transition says of a state: whether it is locked down, the endpoint, the cause of the error.  What is to be done
    after disconnecting can change without a report, and so can whether traffic could be blocked. *)
Definition reports {W} (t : TunnelStateTransition) (s : TunnelState) (st : St W) : Prop :=
  match t with
  | TrDisconnected locked_down => s = DisconnectedState /\ locked_down = lockdown_bool (lockdown_mode (sv st))
  | TrConnecting e => exists c, s = ConnectingState c /\ e = get_tunnel_endpoint (ct_parameters c)
  | TrConnected e => exists c, s = ConnectedState c /\ e = connected_endpoint c
  | TrDisconnecting _ => exists h after, s = DisconnectingState h after
  | TrError e => s = ErrorState (cause e)
  end.

Definition same_details (s s' : TunnelState) : Prop :=
  match s, s' with
  | DisconnectedState, DisconnectedState | DisconnectingState _ _, DisconnectingState _ _ => True
  | ConnectingState c, ConnectingState c' => ct_parameters c' = ct_parameters c
  | ConnectedState c, ConnectedState c' => c' = c
  | ErrorState r, ErrorState r' => r' = r
  | _, _ => False
  end.
Definition keeping (s : TunnelState) (cons : EventConsequence) : Prop :=
  match cons with SameState s' => same_details s s' | _ => True end.

Section details.
Context {W : Type} `{P : TunnelPlatform W} `{V : TunnelView W} {L : TunnelPlatformLaws W P V}.

Definition keeps_details (s : TunnelState) (m : M W EventConsequence) : Prop := forall st, wp m (fun _ => keeping s) st.

Lemma keeps_details_ret s cons : keeping s cons -> keeps_details s (ret cons).
Proof. intros Hc st. by apply wp_ret. Qed.
Lemma keeps_details_new s m : keeps_details s (new_state m).
Proof. intros st. apply wp_bind. unfold wp. destruct (m st). exact I. Qed.
Lemma keeps_details_bind {A} s (m : M W A) k : (forall a, keeps_details s (k a)) -> keeps_details s (bindM m k).
Proof. intros Hk st. apply wp_bind. unfold wp. destruct (m st). apply Hk. Qed.
Lemma keeps_details_first s (m : M W EventConsequence) tx :
  keeps_details s m -> keeps_details s (bindM m (fun c => bindM (send_tx tx) (fun _ => ret c))).
Proof.
  intros Hm st. apply wp_bind. eapply wp_mono; [apply Hm|]. intros st' c Hc. by apply wp_bind, wp_send_tx, wp_ret.
Qed.

Lemma keeps_details_disconnect s c a : keeps_details s (Connecting_disconnect c a).
Proof. apply keeps_details_bind. intros _. apply keeps_details_new. Qed.
Lemma keeps_details_disconnected s c a : keeps_details s (Connected_disconnect c a).
Proof. do 2 (apply keeps_details_bind; intros _). apply keeps_details_new. Qed.

Ltac keep_details :=
  repeat first
    [ apply keeps_details_new | apply keeps_details_disconnect | apply keeps_details_disconnected
    | apply keeps_details_ret; by repeat case_match | apply keeps_details_first
    | match goal with
      | |- keeps_details _ (bindM _ _) => apply keeps_details_bind; intros ?
      | |- keeps_details _ (if ?b then _ else _) => destruct b
      | |- keeps_details _ (match ?x with _ => _ end) => destruct x
      end ].

Lemma dispatched_keeps_details s i (m : M W EventConsequence) : dispatched s i m -> keeps_details s m.
Proof.
  intros Hd. destruct Hd as [[[]|]|? [[]|]|? [[]|]|? [[]|]| |? [[]|]|? [[]|]| |??[[]|]| | |]; try by keep_details.
  all: unfold Disconnected_handle_commands, Connecting_handle_commands, Connecting_reset_firewall,
    Connecting_handle_tunnel_events, Connecting_handle_tunnel_close_event, Connected_handle_commands,
    Connected_handle_tunnel_events, Connected_handle_tunnel_close_event, Disconnecting_handle_commands, Error_handle_commands;
    by keep_details.
Qed.

Lemma disconnected_lockdown_kept mode tx st :
  wp (Disconnected_handle_commands (Some (CmdLockdownMode mode tx)))
    (fun _ cons => forall s, cons = SameState s -> lockdown_bool mode = lockdown_bool (lockdown_mode (sv st))) st.
Proof.
  unfold Disconnected_handle_commands. apply wp_bind, wp_get_sv. destruct (lockdown_eq (lockdown_mode (sv st)) mode) eqn:E; simpl.
  - apply wp_bind, wp_send_tx, wp_ret. intros _ _. unfold lockdown_eq in E. by apply eqb_prop in E.
  - unfold Disconnected_set_firewall_policy, new_state, construct_state_transition. wp_auto; done.
Qed.

Lemma handle_event_reports s i st st' cons :
  handle_event s i st = Some (st', cons) ->
  match cons with
  | NewState s' t => reports t s' st'
  | SameState s' => forall t, reports t s st -> reports t s' st'
  | Finished => True
  end.
Proof.
  intros E. destruct (handle_event_handled _ _ _ _ _ E) as [_ Hh]. pose proof (handle_event_told _ _ _ _ _ E) as Ht.
  apply handle_event_dispatched in E as (m & Hd & E).
  pose proof (dispatched_keeps_details _ _ _ Hd (note_input i st)) as Hw. unfold wp in Hw. rewrite E in Hw. simpl in Hw.
  destruct cons as [s' t|s'|]; [destruct Hh as [Htr _]; destruct t; simpl in *; by repeat destruct Htr as [? Htr]; simplify_eq; eauto| |done].
  intros t Hr. destruct t as [b|e|e|a|e]; simpl in *.
  - destruct Hr as [-> ->], s'; try done. split; [done|]. apply (f_equal told_lockdown) in Ht. simpl in Ht. rewrite Ht.
    inversion Hd as [cmd| | | | | | | | | | |]; subst; [|done..]. destruct cmd as [[]|]; try done.
    match goal with E : Disconnected_handle_commands (Some (CmdLockdownMode ?mode ?tx)) _ = _ |- _ =>
      pose proof (disconnected_lockdown_kept mode tx (note_input (InCommand (Some (CmdLockdownMode mode tx))) st)) as Hk;
      unfold wp in Hk; rewrite E in Hk end. simpl. symmetry. by eapply Hk.
  - destruct Hr as (c & -> & ->), s'; try done. simpl in Hw. eexists. split; [done|]. by rewrite Hw.
  - destruct Hr as (c & -> & ->), s'; try done. simpl in Hw. subst. eauto.
  - destruct Hr as (h & after & ->), s'; try done. eauto.
  - subst s. destruct s'; try done. by simplify_eq/=.
Qed.
End details.

Section executions.
Context {W : Type} `{P : TunnelPlatform W} `{V : TunnelView W}.

Lemma exec_told m inputs ts (m' : @Machine W) :
  exec m inputs ts m' ->
  told_of (sv (machine_st m')) = foldl (fun t i => tell_input i t) (told_of (sv (machine_st m))) inputs.
Proof.
  intros He. induction He as [m|s st w ins ts m Hk He IH|m i l m1 t ins ts m2 E He IH]; [done..|]. simpl. rewrite IH. f_equal.
  destruct m as [s st|]; [|done]. simpl in E. destruct (handle_event s i st) as [[st' cons]|] eqn:Eh; [|done].
  apply handle_event_told in Eh. simpl in E. destruct cons, l; by simplify_eq/=.
Qed.
End executions.
