(* ===== verification/DaemonSync.v ===== *)
(** * What the daemon tells the tunnel state machine

    Which events reach the machine, and how ([may_send]); and that what the machine was told last agrees with
    the settings, event by event ([in_sync]). *)

From stdpp Require Import base list strings gmap option numbers sets.
From S2P Require Import Prelude Retry DeviceService DeviceManager AccessMethods NetTypes TunnelTypes FirewallPolicy.
From S2P Require Import TunnelStateMachine TunnelTold TargetState SettingsPatch SettingsPatchProps RelayTypes RelaySelector Settings.
From S2P Require Import SettingsPersister SettingsProps Daemon DaemonSteps.
Local Open Scope vpn_scope.

(** A structure is read field by field, each from its own key, except those that are skipped. *)
Class SettingsJsonLaws (CustomProxy : Type) `{SettingsJson CustomProxy} : Prop := {
  to_value_object s v : to_value s = Some v -> exists m, v = Object m;
  from_str_unique text v : from_str text = Some v -> keys_unique v;
  from_value_fields s m m' s' :
    to_value s = Some (Object m) -> from_value (Object m') = Some s' ->
    (forall k, k <> "relay_overrides" -> map_get k m' = map_get k m) -> s' = set_relay_overrides (relay_overrides s') (persisted s);
}.

Section props.
Context {CustomProxy : Type} `{EqDecision CustomProxy} `{IpNetworkOps} `{Curve} `{SettingsJson CustomProxy}.
Notation Daemon := (@Daemon CustomProxy).
Notation Effect := (@Effect CustomProxy).
Notation Env := (@Env CustomProxy).
Notation Event := (@InternalDaemonEvent CustomProxy).
Notation Command := (@DaemonCommand CustomProxy).

(** ** Which events reach the tunnel, and how *)
Definition may_send (e : Event) (c : TunnelCommand) : bool :=
  match c with
  | CmdConnect => true
  | CmdDisconnect =>
      match e with
      | DaemonCmd (SetTargetState _ Unsecured) | DeviceEvent (DeviceChanged Logout) | TriggerShutdown _ => true
      | _ => false
      end
  | CmdBlock _ => match e with DeviceEvent (Expiry _) => true | _ => false end
  | CmdAllowLan _ _ => match e with DaemonCmd (SetAllowLan _ _) | DaemonCmd (ResetSettings _) => true | _ => false end
  | CmdDns _ _ => match e with DaemonCmd (SetDnsOptions _ _) | DaemonCmd (ResetSettings _) => true | _ => false end
  | CmdLockdownMode m _ =>
      match e with
      | DaemonCmd (SetLockdownMode _ b) => bool_decide (lockdown_bool m = b)
      | DaemonCmd (ResetSettings _) => true
      | DaemonCmd (PrepareRestart _) | TriggerShutdown _ => lockdown_bool m
      | _ => false
      end
  | CmdAllowEndpoint _ _ => match e with AccessEvent _ _ => true | _ => false end
  | CmdConnectivity _ => false
  end.

Definition not_allowed (e : Event) (x : Effect) : bool :=
  match x with Tunnel c => negb (may_send e c) | _ => false end.

Lemma not_allowed_tunnel e x : is_tunnel x = false -> not_allowed e x = false.
Proof. by destruct x. Qed.

Lemma set_state_is w n t f :
  (forall r, w <> Interrupted r) -> state (default t (TargetState.set w n t f).1) = n.
Proof.
  intros Hw. unfold TargetState.set. case_decide as E; [|simpl; by destruct (decide (n = state t)); [|destruct E]].
  destruct w as [| |r]; simpl; [done..|by destruct (Hw r)].
Qed.

Lemma write_outcome_runs (env : Env) r : write_outcome env <> Interrupted r.
Proof. unfold write_outcome. by destruct (target_write_fails env). Qed.

Ltac leaf := unfold avoids; first [by constructor | apply Forall_singleton; reflexivity].

Lemma set_target_state_sends (env : Env) e new_state :
  may_send e match new_state with Secured => CmdConnect | Unsecured => CmdDisconnect end = true ->
  does (avoids (not_allowed e)) (set_target_state env new_state).
Proof.
  intros He. repeat first [does_step | does_unfold]; try leaf.
  all: match goal with E : TargetState.set _ ?n ?t ?f = _ |- _ =>
         pose proof (set_state_is _ n t f (write_outcome_runs env)) as Hs; rewrite E in Hs; simpl in Hs end.
  match goal with E : state _ = Unsecured |- _ => rewrite <- Hs, E in He end.
  apply Forall_singleton. unfold not_allowed. by rewrite He.
Qed.

Lemma handle_event_sends (env : Env) e : does (avoids (not_allowed e)) (handle_event env e).
Proof.
  pose proof (fun A op => avoids_persist _ (not_allowed_tunnel e) (A := A) op) as Hpersist.
  destruct e as [t|c|b| |e|e tx|r|l| |]; simpl; unfold handle_command.
  2: destruct c.
  all: repeat first [lazymatch goal with
                     | |- does _ (persist _) => apply Hpersist
                     | |- does _ (set_target_state _ _) => apply set_target_state_sends; try done
                     end | does_step | does_unfold].
  all: unfold avoids; try first [by constructor | apply Forall_singleton; reflexivity].
  - apply Forall_singleton. by destruct (is_disconnected _).
  - by destruct s.
  - apply Forall_singleton. by destruct lockdown_mode.
Qed.

Lemma handle_events_send (events : list (Env * Event)) d d' es rest c :
  handle_events events d = (d', es, rest) -> Tunnel c ∈ es -> exists env e, (env, e) ∈ events /\ may_send e c = true.
Proof.
  intros Hrun Hc.
  set (bad := fun x : Effect => match x with Tunnel c => negb (existsb (fun y => may_send y.2 c) events) | _ => false end).
  assert (Hes : avoids bad d d' es).
  { eapply handle_events_does; [apply _| |done]. intros env e He d0. eapply Forall_impl; [apply handle_event_sends|].
    intros x Hx. destruct x as [c0| | | | | | | | | | | | | | | | | | | | | |]; try done. simpl in *.
    apply negb_false_iff in Hx. apply negb_false_iff, List.existsb_exists. exists (env, e).
    split; [by apply list_elem_of_In | done]. }
  unfold avoids in Hes. rewrite Forall_forall in Hes. specialize (Hes _ Hc). simpl in Hes.
  apply negb_false_iff, List.existsb_exists in Hes as ([env e] & He & Hs). exists env, e.
  split; [by apply list_elem_of_In | done].
Qed.

(** ** What the tunnel state machine was told *)
Definition tell (t : Told) (x : Effect) : Told := match x with Tunnel c => tell_command t c | _ => t end.

(** It agrees with the settings; without [exact] it may also be locked down when the settings do not ask
    for that. *)
Definition agrees (exact : bool) (s : Settings CustomProxy) (t : Told) : Prop :=
  told_allow_lan t = allow_lan s /\ told_dns t = addresses_from_options (dns_options (tunnel_options s))
  /\ if exact then told_lockdown t = lockdown_mode s else (lockdown_mode s = true -> told_lockdown t = true).

Definition in_sync (exact : bool) (d d' : Daemon) (es : list Effect) : Prop :=
  forall t, agrees exact (current_settings d) t -> agrees exact (current_settings d') (foldl tell t es).

#[global] Instance in_sync_sequential exact : Sequential (in_sync exact).
Proof. split; unfold in_sync; [done|]. intros. rewrite foldl_app. auto. Qed.

(** The part of the settings the machine is told. *)
Definition told_part (s : Settings CustomProxy) : bool * bool * DnsOptions :=
  (allow_lan s, lockdown_mode s, dns_options (tunnel_options s)).

Lemma agrees_part exact s s' t : told_part s' = told_part s -> agrees exact s t -> agrees exact s' t.
Proof. unfold told_part, agrees. intros [= -> -> ->]. done. Qed.

Lemma told_part_persisted o s : told_part (set_relay_overrides o (persisted s)) = told_part s.
Proof. unfold persisted. by destruct (relay_settings s). Qed.

Lemma listeners_tell t n : foldl tell t (listeners n) = t.
Proof. by destruct n. Qed.

Lemma sync_try_update exact (env : Env) f :
  (forall s s', f s = Ok s' -> told_part s' = told_part s) -> does (in_sync exact) (try_update_settings env f).
Proof.
  intros Hf d t Ht. unfold try_update_settings. rewrite persist_eq. destruct (try_update _ _ _) as [[p n] r] eqn:E. simpl.
  rewrite listeners_tell. apply try_update_spec in E as [(-> & _)|(_ & _ & _ & E & _)]; [done|].
  eapply agrees_part; [by eapply Hf | done].
Qed.

Lemma sync_update exact (env : Env) f :
  (forall s, told_part (f s) = told_part s) -> does (in_sync exact) (update_settings env f).
Proof. intros Hf. apply (sync_try_update exact env (fun s => Ok (f s))). by intros s s' [= <-]. Qed.

Lemma sync_through_tunnel exact (env : Env) tx f command :
  (forall s t, agrees exact s t -> agrees exact (f s) (tell t (Tunnel (command (f s))))) ->
  does (in_sync exact) (apply_through_tunnel env tx f command).
Proof.
  intros Hf d t Ht. unfold apply_through_tunnel, update_settings, update, mbind, D_bind. rewrite persist_eq.
  destruct (try_update _ _ _) as [[p n] r] eqn:E.
  apply try_update_spec in E as [(-> & -> & Hr)|(-> & -> & _ & [= E] & _)]; simpl.
  - destruct r as [[]|]; simpl; done.
  - unfold current_settings in *. simpl. rewrite <- E. by apply (Hf _ t).
Qed.

Lemma sync_reset exact (env : Env) tx : does (in_sync exact) (on_reset_settings env tx).
Proof.
  intros d t Ht. unfold on_reset_settings, reset_settings, mbind, D_bind. rewrite persist_eq.
  destruct (SettingsPersister.reset _ _ _ _ _) as [[p n] r]. destruct n; simpl; unfold reconnect_tunnel, mbind, D_bind; simpl;
    destruct (is_secured _); simpl; unfold agrees, current_settings; simpl;
    (split_and!; [done..|]); by destruct exact, (lockdown_mode (settings p)).
Qed.
(** Patches change overrides only. *)
Lemma patch_changes_overrides `{!SettingsJsonLaws CustomProxy} s blob s' :
  merge_validate_patch_inner to_value from_value from_str s blob = Ok s' -> s' = set_relay_overrides (relay_overrides s') (persisted s).
Proof.
  intros (v & Hv%ok_or_Ok & (pv & Hpv%ok_or_Ok & ([] & Hval%patch_form_validated & (v' & Hm & Hs%ok_or_Ok)%bind_result_Ok)%bind_result_Ok)%bind_result_Ok)%bind_result_Ok.
  destruct (to_value_object _ _ Hv) as [m ->].
  destruct (merge_patch_spec m pv v' Hval (from_str_unique _ _ Hpv) Hm) as (m' & -> & Hk & _).
  by eapply from_value_fields.
Qed.

Lemma sync_apply_json `{!SettingsJsonLaws CustomProxy} exact (env : Env) tx blob :
  does (in_sync exact) (on_apply_json_settings env tx blob).
Proof.
  apply does_reads_bind. intros d t Ht.
  destruct (merge_validate_patch_inner _ _ _ _ _) as [s'|] eqn:E; [|done]. apply patch_changes_overrides in E.
  unfold mbind, D_bind. unfold update_settings, update. rewrite persist_eq.
  destruct (try_update _ _ _) as [[p n] r] eqn:Eu.
  assert (Hp : agrees exact (settings p) t).
  { apply try_update_spec in Eu as [(-> & _)|(_ & _ & _ & [= <-] & _)]; [done|].
    eapply agrees_part; [|done]. rewrite E. apply told_part_persisted. }
  destruct r; simpl; [|destruct n; done]. unfold reconnect_tunnel, mbind, D_bind. simpl. destruct (is_secured _), n; done.
Qed.

Lemma change_methods_part f s s' : change_methods f s = Ok s' -> told_part s' = told_part s.
Proof. unfold change_methods. rewrite bind_result_Ok. by intros (? & _ & [= <-]). Qed.

Definition resets (e : Event) : bool := match e with DaemonCmd (FactoryReset _) => true | _ => false end.
Definition locks_down (e : Event) : bool :=
  match e with DaemonCmd (PrepareRestart _) | TriggerShutdown _ => true | _ => false end.

(** The handlers proved above, by name. *)
Ltac known :=
  lazymatch goal with
  | |- does _ (on_reset_settings _ _) => apply sync_reset
  | |- does _ (on_apply_json_settings _ _ _) => apply sync_apply_json
  | |- does _ (update_settings _ _) => apply sync_update
  | |- does _ (try_update_settings _ _) => apply sync_try_update
  | |- does _ (apply_through_tunnel _ _ _ _) => apply sync_through_tunnel
  end.

Lemma handle_event_syncs `{!SettingsJsonLaws CustomProxy} exact (env : Env) e :
  resets e = false -> (exact = true -> locks_down e = false) -> does (in_sync exact) (handle_event env e).
Proof.
  intros Hr Hl. destruct e as [t|c|b| |e|e tx|r|l| |]; simpl; unfold handle_command.
  2: destruct c; try done.
  all: repeat first [known | does_step | does_unfold].
  all: try (let t := fresh in let Ht := fresh in intros t Ht; exact Ht).
  all: try (intros s0; unfold set_relay_settings_update, update_recents, Daemon.enable_recents; repeat case_match; reflexivity).
  all: try (intros s0 s1; rewrite bind_result_Ok; intros (? & _ & [= <-]); reflexivity).
  all: try (intros s0 t0 (? & ? & ?); by repeat split).
  - intros told Ht. by destruct (is_disconnected _).
  - intros s0 t0 (? & ? & ?). split_and!; [done..|]. simpl. by destruct exact, lockdown_mode.
  - intros s0. unfold Daemon.enable_recents, update_recents. repeat case_match; reflexivity.
  - by apply change_methods_part.
  - by apply change_methods_part.
  - by apply change_methods_part.
  - by apply change_methods_part.
  - destruct exact; [by specialize (Hl eq_refl)|]. intros t0 (? & ? & ?). by split_and!.
  - destruct exact; [by specialize (Hl eq_refl)|]. intros t0 (? & ? & ?). by split_and!.
Qed.
End props.

(** * Theorems about the daemon

    What the daemon asks of the tunnel state machine, and when; that every client gets its answer; and that
    what the machine was told agrees with the settings. *)

Section props.
Context {CustomProxy : Type} `{EqDecision CustomProxy} `{IpNetworkOps} `{Curve} `{SettingsJson CustomProxy}.
Notation Daemon := (@Daemon CustomProxy).
Notation Effect := (@Effect CustomProxy).
Notation Env := (@Env CustomProxy).
Notation Event := (@InternalDaemonEvent CustomProxy).
Notation Command := (@DaemonCommand CustomProxy).

(** The rest of [start] *)
Lemma start_agrees (e : @StartEnv CustomProxy) (d : Daemon) i n :
  start e = Ok (d, i, n) ->
  agrees true (current_settings d)
    {| told_allow_lan := init_allow_lan i; told_lockdown := lockdown_bool (init_lockdown_mode i); told_dns := init_dns_config i |}.
Proof.
  unfold start. intros (? & _ & (? & _ & (? & _ & (? & _ & (h & _ & Hs)%bind_result_Ok)%bind_result_Ok)%bind_result_Ok)%bind_result_Ok)%bind_result_Ok.
  destruct (if auto_connect _ then _ else _) as [[t|] f]; [|done].
  apply bind_result_Ok in Hs as (? & _ & (ep & _ & (? & _ & Hs)%bind_result_Ok)%bind_result_Ok).
  destruct (update _ _ _) as [[p m] r] eqn:E. unfold update in E. destruct r; [|done]. injection Hs as <- <- <-.
  apply try_update_spec in E as [(-> & _)|(_ & _ & _ & [= E] & _)]; unfold agrees, current_settings; simpl.
  - split_and!; [done..|]. by destruct (lockdown_mode _).
  - rewrite <- E. case_match; split_and!; try done; simpl; by destruct (lockdown_mode _).
Qed.

(** The tunnel state machine knows the settings.  After any events but a factory reset, the last
    values the machine was told, or was started with, of local network sharing and of the name servers are
    those the settings give, also if settings could not be saved; it has been told to lock down if the
    settings say so, and only then unless a restart was prepared or the daemon is shutting down. *)
Theorem tunnel_follows_settings `{!SettingsJsonLaws CustomProxy} (e : @StartEnv CustomProxy) d0 i n (events : list (Env * Event)) d es rest :
  start e = Ok (d0, i, n) -> handle_events events d0 = (d, es, rest) ->
  forallb (fun x => negb (resets x.2)) events = true ->
  let t := foldl tell {| told_allow_lan := init_allow_lan i; told_lockdown := lockdown_bool (init_lockdown_mode i);
                         told_dns := init_dns_config i |} es in
  let s := current_settings d in
  told_allow_lan t = allow_lan s /\ told_dns t = addresses_from_options (dns_options (tunnel_options s))
  /\ (lockdown_mode s = true -> told_lockdown t = true)
  /\ (forallb (fun x => negb (locks_down x.2)) events = true -> told_lockdown t = lockdown_mode s).
Proof.
  intros Hs%start_agrees Hrun Hr. rewrite forallb_forall in Hr.
  assert (Hsync : forall exact, (exact = true -> forallb (fun x => negb (locks_down x.2)) events = true) -> in_sync exact d0 d es).
  { intros exact Hx. eapply handle_events_does; [apply _| |done]. intros env ev Hev. apply list_elem_of_In in Hev.
    apply handle_event_syncs; [by apply negb_true_iff, (Hr (env, ev))|].
    intros Ht. specialize (Hx Ht). rewrite forallb_forall in Hx. by apply negb_true_iff, (Hx (env, ev)). }
  assert (Hs' : agrees false (current_settings d0)
                  {| told_allow_lan := init_allow_lan i; told_lockdown := lockdown_bool (init_lockdown_mode i);
                     told_dns := init_dns_config i |}).
  { destruct Hs as (? & ? & Hld). split_and!; [done..|]. intros Hm. by rewrite Hld. }
  destruct (Hsync false ltac:(done) _ Hs') as (Ha & Hd & Hl).
  split_and!; [done..|]. intros Hx. by apply (Hsync true (fun _ => Hx) _ Hs).
Qed.
End props.
