(* ===== verification/DaemonReplies.v ===== *)
(** * Every client gets its answer

    A sender that comes with a command is answered by the handler, given to one task that answers it, given
    to the tunnel state machine with the command it waits for, or kept for the shutdown; and all that
    exactly once. *)

From stdpp Require Import base list strings gmap option numbers sets.
From S2P Require Import Prelude Retry DeviceService DeviceManager AccessMethods NetTypes TunnelTypes FirewallPolicy.
From S2P Require Import TunnelStateMachine TargetState SettingsPatch RelayTypes RelaySelector Settings.
From S2P Require Import SettingsPersister SettingsProps Daemon DaemonSteps.
Local Open Scope vpn_scope.

Section replies.
Context {CustomProxy : Type} `{EqDecision CustomProxy} `{IpNetworkOps} `{Curve} `{SettingsJson CustomProxy}.
Notation Daemon := (@Daemon CustomProxy).
Notation Effect := (@Effect CustomProxy).
Notation Env := (@Env CustomProxy).
Notation Event := (@InternalDaemonEvent CustomProxy).
Notation Command := (@DaemonCommand CustomProxy).

Definition command_tx (c : Command) : option Tx :=
  match c with
  | SetTargetState tx _ | Reconnect tx | GetState tx | CreateNewAccount tx | GetAccountData tx _ |
  GetWwwAuthToken tx | SubmitVoucherCode tx _ | GetAccountHistory tx | ClearAccountHistory tx |
  GetRelayLocations tx | GetBridges tx | LoginAccount tx _ | LogoutAccount tx | GetDevice tx | UpdateDevice
  tx | ListDevices tx _ | RemoveDevice tx _ _ | SetRelaySettings tx _ | SetAllowLan tx _ |
  SetShowBetaReleases tx _ | SetLockdownMode tx _ | SetAutoConnect tx _ | SetEnableIpv6 tx _ |
  SetUserspaceWireguard tx _ | SetEnableRecents tx _ | SetQuantumResistantTunnel tx _ | SetEnableDaita tx _
  | SetDaitaUseMultihopIfNecessary tx _ | SetDaitaSettings tx _ | SetDnsOptions tx _ | SetRelayOverride tx _
  | ClearAllRelayOverrides tx | SetWireguardMtu tx _ | SetWireguardAllowedIps tx _ |
  SetWireguardRotationInterval tx _ | GetSettings tx | ResetSettings tx | RotateWireguardKey tx |
  GetWireguardKey tx | CreateCustomList tx _ _ | DeleteCustomList tx _ | UpdateCustomList tx _ |
  ClearCustomLists tx | AddApiAccessMethod tx _ _ _ | RemoveApiAccessMethod tx _ | SetApiAccessMethod tx _ |
  UpdateApiAccessMethod tx _ | ClearCustomApiAccessMethods tx | GetCurrentAccessMethod tx |
  TestApiAccessMethodById tx _ | TestCustomApiAccessMethod tx _ | GetVersionInfo tx |
  IsPerformingPostUpgrade tx | GetCurrentVersion tx | FactoryReset tx | SplitTunnelIsSupported tx |
  GetSplitTunnelProcesses tx | AddSplitTunnelProcess tx _ | RemoveSplitTunnelProcess tx _ |
  ClearSplitTunnelProcesses tx | SetObfuscationSettings tx _ | ApplyJsonSettings tx _ | ExportJsonSettings
  tx | GetFeatureIndicators tx | UpdateDefaultLocationCountry tx | DisableRelay _ tx | EnableRelay _ tx |
  GetRolloutThreshold tx | GenerateNewRolloutSeed tx | SetRolloutThresholdSeed _ tx | AppUpgrade tx |
  AppUpgradeAbort tx | GetAppUpgradeCacheDir tx => Some tx
  | UpdateRelayLocations | PrepareRestart _ => None
  end.

Definition task_tx (t : @Task CustomProxy) : option Tx :=
  match t with
  | TaskCreateAccount tx | TaskGetAccountData tx _ | TaskWwwAuthToken tx _ | TaskSubmitVoucher tx _ | TaskLogin tx _
  | TaskLogout tx | TaskGetDevice tx | TaskUpdateDevice tx | TaskListDevices tx _ | TaskRemoveDevice tx _ _
  | TaskGetVersionInfo tx | TaskRotateKey tx | TaskGetCurrentMethod tx | TaskTestProxy tx _ | TaskTestMethod tx _
  | TaskEndpointActive tx _ => Some tx
  | _ => None
  end.

(** The sender an effect takes care of. *)
Definition effect_tx (e : Effect) : option Tx :=
  match e with
  | Reply tx _ => Some tx
  | Spawn t => task_tx t
  | Tunnel (CmdAllowLan _ tx) | Tunnel (CmdDns _ tx) | Tunnel (CmdLockdownMode _ tx) => Some tx
  | _ => None
  end.

Definition event_tx (e : Event) : option Tx :=
  match e with DaemonCmd c => command_tx c | AccessEvent _ tx => Some tx | _ => None end.

(** Those that somebody waits for. *)
Definition waited (l : list Tx) : list Tx := filter (fun tx => tx <> NOBODY) l.
Definition answered (es : list Effect) : list Tx := waited (omap effect_tx es).
Definition kept (d : Daemon) : list Tx := waited (map fst (shutdown_tasks d)).

Definition settles (l : list Tx) (d d' : Daemon) (es : list Effect) : Prop :=
  answered es ++ kept d' ≡ₚ kept d ++ waited l.

Lemma settles_app l1 l2 d d1 d2 es1 es2 :
  settles l1 d d1 es1 -> settles l2 d1 d2 es2 -> settles (l1 ++ l2) d d2 (es1 ++ es2).
Proof.
  unfold settles, answered, waited. rewrite omap_app, !filter_app, <- app_assoc. intros H2 ->.
  by rewrite app_assoc, H2, app_assoc.
Qed.

#[global] Instance settles_sequential : Sequential (settles []).
Proof.
  split; [intros d; unfold settles; by rewrite app_nil_r|]. intros d d1 d2 es1 es2. apply (settles_app [] []).
Qed.

Lemma settles_bind {A B} l1 l2 (m : D A) (k : A -> D B) :
  does (settles l1) m -> (forall a, does (settles l2) (k a)) -> does (settles (l1 ++ l2)) (m ≫= k).
Proof.
  intros Hm Hk d. unfold mbind, D_bind. specialize (Hm d). destruct (m d) as [[a d1] es1].
  specialize (Hk a d1). destruct (k a d1) as [[b d2] es2]. by eapply settles_app.
Qed.

Lemma settles_then {A B} l (m : D A) (k : A -> D B) :
  does (settles []) m -> (forall a, does (settles l) (k a)) -> does (settles l) (m ≫= k).
Proof. apply (settles_bind [] l). Qed.

Lemma settles_first {A B} l (m : D A) (k : A -> D B) :
  does (settles l) m -> (forall a, does (settles []) (k a)) -> does (settles l) (m ≫= k).
Proof. rewrite <- (app_nil_r l) at 2. apply settles_bind. Qed.

Lemma settles_emit e : does (settles (option_list (effect_tx e))) (emit e).
Proof.
  intros d. unfold settles, answered. simpl. rewrite Permutation_app_comm. by destruct (effect_tx e).
Qed.

Lemma settles_persist {A} op : does (settles []) (persist (A := A) op).
Proof.
  intros d. rewrite persist_eq. destruct (op (persister d)) as [[p n] r].
  unfold settles, answered. simpl. rewrite app_nil_r. by destruct n.
Qed.

Ltac quiet :=
  repeat first [lazymatch goal with |- does _ (persist _) => apply settles_persist end | does_step | does_unfold];
  unfold settles; simpl; rewrite ?app_nil_r; repeat case_match; reflexivity.

Ltac settle :=
  lazymatch goal with
  | |- does (settles []) _ => quiet
  | |- does _ (emit ?e) => apply (settles_emit e)
  | |- does _ (@mbind _ _ _ _ _ _) =>
      first [apply settles_then; [solve [quiet] | intros ?; settle]
            | apply settles_first; [solve [settle] | intros ?; quiet]]
  | |- does _ (match ?x with _ => _ end) => destruct x eqn:?; settle
  | |- does _ _ => does_unfold; settle
  end.

Lemma settles_set_target_state (env : Env) s : does (settles []) (set_target_state env s).
Proof. quiet. Qed.

Lemma settles_factory_reset (env : Env) tx : does (settles [tx]) (on_factory_reset env tx).
Proof.
  unfold on_factory_reset. do 2 (apply settles_then; [quiet | intros ?]).
  destruct (history_clear _ _). do 3 (apply settles_then; [quiet | intros ?]).
  intros d. unfold settles, kept, waited. simpl. by rewrite map_app, filter_app.
Qed.

Lemma handle_command_settles (env : Env) (c : Command) :
  does (settles (option_list (command_tx c))) (handle_command env c).
Proof.
  destruct c; unfold handle_command; (do 2 (apply settles_then; [quiet | intros ?])); simpl;
    first [apply settles_factory_reset | settle].
Qed.

Lemma handle_event_settles (env : Env) (e : Event) : does (settles (option_list (event_tx e))) (handle_event env e).
Proof.
  destruct e as [t|c|b| |e|e tx|r|l| |]; simpl.
  2: apply settles_first; [apply handle_command_settles | intros ?; quiet].
  all: settle.
Qed.

(** The senders of the events a run has handled. *)
Definition handled_tx (events : list (Env * Event)) (rest : option (list (Env * Event))) : list Tx :=
  omap (fun x => event_tx x.2) (take (length events - length (default [] rest)) events).

Lemma rest_length (events : list (Env * Event)) d d' es rest :
  handle_events events d = (d', es, rest) -> length (default [] rest) <= length events.
Proof.
  revert d es. induction events as [|[env e] events IH]; intros d es; simpl; [by intros [= <- <- <-]|].
  destruct (handle_event env e d) as [[stop d1] es1]. destruct stop; [intros [= <- <- <-]; simpl; lia|].
  destruct (handle_events events d1) as [[d2 es2] rest2] eqn:E. intros [= <- <- <-]. apply IH in E. lia.
Qed.

Lemma handle_events_settle (events : list (Env * Event)) d d' es rest :
  handle_events events d = (d', es, rest) -> settles (handled_tx events rest) d d' es.
Proof.
  revert d es. induction events as [|[env e] events IH]; intros d es; simpl.
  - intros [= <- <- <-]. unfold settles. simpl. by rewrite app_nil_r.
  - pose proof (handle_event_settles env e d) as Hd. destruct (handle_event env e d) as [[stop d1] es1]. simpl in Hd.
    destruct stop.
    + intros [= <- <- <-]. unfold handled_tx. change (length (default [] (Some events))) with (length events).
      replace (length ((env, e) :: events) - length events) with 1 by (simpl; lia). simpl. by destruct (event_tx e).
    + destruct (handle_events events d1) as [[d2 es2] rest2] eqn:E. intros [= <- <- <-].
      assert (Hlen : length (default [] rest2) <= length events) by (by eapply rest_length).
      unfold handled_tx. replace (length ((env, e) :: events) - _) with (S (length events - length (default [] rest2))) by (simpl; lia).
      simpl. eapply IH in E. destruct (event_tx e) as [tx|]; simpl in *; by eapply (settles_app _ _ _ _ _ _ _ Hd E).
Qed.

Lemma omap_finalize cleared removed (d : Daemon) :
  omap effect_tx (finalize cleared removed d).1 = map fst (shutdown_tasks d).
Proof.
  unfold finalize. cbn [fst]. induction (shutdown_tasks d) as [|[tx e] l IH]; [done|].
  cbn [map omap list_omap]. exact (f_equal (cons tx) IH).
Qed.

(** C17. No client is left without an answer, and none gets two.  Over any run of the daemon the senders of
    the commands it has handled are, up to order, those it has answered or handed to the one task or tunnel
    command that answers them, and those of factory resets, which [finalize] answers. *)
Theorem clients_answered (events : list (Env * Event)) d d' es rest cleared removed :
  handle_events events d = (d', es, rest) -> shutdown_tasks d = [] ->
  answered (es ++ (finalize cleared removed d').1) ≡ₚ waited (handled_tx events rest).
Proof.
  intros Hrun%handle_events_settle Hd. unfold settles, kept in Hrun. rewrite Hd in Hrun. simpl in Hrun.
  unfold answered, waited in *. rewrite omap_app, filter_app, <- Hrun.
  by rewrite omap_finalize.
Qed.
End replies.

(** * Changed settings take effect

    A change of the settings that the tunnel depends on makes the daemon connect again if the user wants to
    be connected. *)
From S2P Require Import SettingsPatchProps DaemonSync.

Section reconnect.
Context {CustomProxy : Type} `{EqDecision CustomProxy} `{IpNetworkOps} `{Curve} `{SettingsJson CustomProxy}.
Notation Daemon := (@Daemon CustomProxy).
Notation Effect := (@Effect CustomProxy).
Notation Env := (@Env CustomProxy).
Notation Event := (@InternalDaemonEvent CustomProxy).
Implicit Types s : Settings CustomProxy.

(** DAITA does not apply to an endpoint of the user's own, and its multihop only matters with it. *)
Definition daita_part s : option (bool * bool) :=
  let d := wg_daita (wireguard (tunnel_options s)) in
  if is_custom_endpoint s then None else Some (daita_on d, daita_on d && use_multihop_if_necessary d).

(** What the parameters of a tunnel are made from, apart from the contents of custom lists. *)
Definition connection_part s :=
  let w := wireguard (tunnel_options s) in
  (relay_settings s, obfuscation_settings s, relay_overrides s, generic (tunnel_options s),
   (wg_mtu w, wg_quantum_resistant w, wg_userspace w), daita_part s).

(** If the user wants to be connected, a tunnel was asked for, or nothing has changed. *)
Definition in_effect (d d' : Daemon) (es : list Effect) : Prop :=
  target d' = Secured ->
  Tunnel CmdConnect ∈ es \/ (target d = Secured /\ connection_part (current_settings d') = connection_part (current_settings d)).

#[global] Instance in_effect_sequential : Sequential in_effect.
Proof.
  split; unfold in_effect; [auto|]. intros d d1 d2 es1 es2 Hq1 Hq2 Ht.
  destruct (Hq2 Ht) as [?|[Ht1 E2]]; [set_solver|]. destruct (Hq1 Ht1) as [?|[Ht0 E1]]; [set_solver|].
  right. split; [done | congruence].
Qed.

Lemma effect_try_update (env : Env) f :
  (forall s s', f s = Ok s' -> connection_part s' = connection_part s) -> does in_effect (try_update_settings env f).
Proof.
  intros Hf d Ht. unfold try_update_settings in *. rewrite persist_eq in *. destruct (try_update _ _ _) as [[p n] r] eqn:E. simpl in *.
  right. split; [done|]. apply try_update_spec in E as [(-> & _)|(_ & _ & _ & E & _)]; [done|]. by eapply Hf.
Qed.

Lemma effect_update (env : Env) f :
  (forall s, connection_part (f s) = connection_part s) -> does in_effect (update_settings env f).
Proof. intros Hf. apply (effect_try_update env (fun s => Ok (f s))). by intros s s' [= <-]. Qed.

(** A change of the settings, and what follows it when they have changed. *)
Lemma effect_update_then (env : Env) f (K : result bool SettingsError -> D unit) :
  (forall r, r <> Ok true -> does in_effect (K r)) ->
  (forall d p, settings p = f (current_settings d) ->
     let x := K (Ok true) (put_persister p d) in
     target x.1.2 = Secured ->
     Tunnel CmdConnect ∈ x.2 \/ (target d = Secured /\ connection_part (current_settings x.1.2) = connection_part (current_settings d))) ->
  does in_effect (update_settings env f ≫= K).
Proof.
  intros Hsame Hchanged d. unfold update_settings, update, mbind, D_bind. rewrite persist_eq.
  destruct (try_update _ _ _) as [[p n] r] eqn:E.
  apply try_update_spec in E as [(-> & -> & Hr)|(-> & -> & _ & [= E] & _)]; simpl.
  - specialize (Hsame r Hr (put_persister (persister d) d)). destruct (K r _) as [[b d2] es2]. simpl in *. by destruct d.
  - specialize (Hchanged d p (eq_sym E)). destruct (K (Ok true) _) as [[b d2] es2]. simpl in *.
    intros Ht. destruct (Hchanged Ht); [left; set_solver | by right].
Qed.

Lemma secured_connects (d : Daemon) p : target d = Secured -> is_secured (target (put_persister p d)) = true.
Proof. unfold target. simpl. by intros ->. Qed.

Ltac same := repeat first [does_step | does_unfold]; let Ht := fresh in intros Ht; by right.

(** The target state does not change, so a reconnection is one. *)
Ltac connects d p :=
  unfold reconnect_tunnel, mbind, D_bind; simpl;
  destruct (is_secured (target (put_persister p d))) eqn:Hs; simpl; intros Hsec;
  [left; set_solver | unfold target in *; simpl in *; by rewrite Hsec in Hs].

Lemma effect_apply (env : Env) tx f : does in_effect (apply_setting env tx f reconnect_tunnel).
Proof. apply effect_update_then; [intros [[]|] Hr; try done; same|]. intros d p _. connects d p. Qed.

Lemma effect_obfuscation (env : Env) tx o : does in_effect (on_set_obfuscation_settings env tx o).
Proof. apply effect_update_then; [intros [[]|] Hr; try done; same|]. intros d p _. connects d p. Qed.

Lemma effect_patch (env : Env) tx blob : does in_effect (on_apply_json_settings env tx blob).
Proof.
  unfold on_apply_json_settings. does_step; [same|]. does_step; [|same].
  apply effect_update_then; [intros [[]|] Hr; try done; same|]. intros d p _. connects d p.
Qed.

Lemma effect_daita (env : Env) tx b : does in_effect (on_set_daita_enabled env tx b).
Proof.
  apply effect_update_then; [intros [[]|] Hr; try done; same|]. intros d p Hp.
  unfold current_settings, mbind, D_bind in *. simpl. rewrite Hp. unfold is_custom_endpoint. simpl.
  destruct (relay_settings (settings (persister d))) eqn:E; simpl; [|connects d p].
  intros Ht. right. split; [done|]. unfold connection_part, daita_part, is_custom_endpoint. simpl. by rewrite Hp; simpl; rewrite E.
Qed.

Lemma effect_daita_multihop (env : Env) tx b : does in_effect (on_set_daita_use_multihop_if_necessary env tx b).
Proof.
  apply effect_update_then; [intros [[]|] Hr; try done; same|]. intros d p Hp.
  unfold current_settings, mbind, D_bind in *. simpl. rewrite Hp. unfold is_custom_endpoint. simpl.
  destruct (relay_settings (settings (persister d))) eqn:E; simpl.
  - intros Ht. right. split; [done|]. unfold connection_part, daita_part, is_custom_endpoint. simpl. by rewrite Hp; simpl; rewrite E.
  - destruct (daita_on _) eqn:Ed; simpl; [connects d p|].
    intros Ht. right. split; [done|]. unfold connection_part, daita_part, is_custom_endpoint. simpl. by rewrite Hp; simpl; rewrite E, Ed.
Qed.

Lemma effect_reset (env : Env) tx : does in_effect (on_reset_settings env tx).
Proof.
  intros d. unfold on_reset_settings, reset_settings, mbind, D_bind. rewrite persist_eq.
  destruct (SettingsPersister.reset _ _ _ _ _) as [[p n] r]. simpl. connects d p.
Qed.

Lemma effect_target (env : Env) n : does in_effect (set_target_state env n).
Proof.
  intros d. unfold in_effect, set_target_state, mbind, D_bind. simpl. destruct (_ || _); [|by right].
  pose proof (set_state_is _ n (target_state d) (target_file d) (write_outcome_runs env)) as Hs.
  destruct (TargetState.set _ _ _ _) as [t' f]. simpl in *. rewrite Hs. unfold target. simpl.
  destruct n; simpl; rewrite ?Hs; [done | intros _; left; set_solver].
Qed.

Lemma does_assoc (Q : Daemon -> Daemon -> list Effect -> Prop) {A B C} (m : D A) (k : A -> D B) (h : B -> D C) :
  does Q ((m ≫= k) ≫= h) -> does Q (m ≫= (fun a => k a ≫= h)).
Proof.
  intros Hq d. specialize (Hq d). unfold mbind, D_bind in *. destruct (m d) as [[a d1] es1]. destruct (k a d1) as [[b d2] es2].
  destruct (h b d2) as [[c d3] es3]. simpl in *. by rewrite app_assoc.
Qed.

Lemma recents_part s : connection_part (update_recents s) = connection_part s.
Proof. unfold update_recents. by repeat case_match. Qed.

Lemma effect_relay_settings (env : Env) tx r : does in_effect (on_set_relay_settings env tx r).
Proof.
  unfold on_set_relay_settings. apply does_assoc. apply does_bind; [apply _|apply effect_apply|intros _].
  unfold default_location_done, update_recents_setting.
  repeat first [apply effect_update; intros ?; first [apply recents_part | reflexivity] | does_step]; by right.
Qed.

Lemma methods_part f s s' : change_methods f s = Ok s' -> connection_part s' = connection_part s.
Proof. unfold change_methods. rewrite bind_result_Ok. by intros (? & _ & [= <-]). Qed.

(** The handlers proved above, by name. *)
Ltac known :=
  lazymatch goal with
  | |- does _ (apply_setting _ _ _ reconnect_tunnel) => apply effect_apply
  | |- does _ (on_set_obfuscation_settings _ _ _) => apply effect_obfuscation
  | |- does _ (on_apply_json_settings _ _ _) => apply effect_patch
  | |- does _ (on_set_daita_enabled _ _ _) => apply effect_daita
  | |- does _ (on_set_daita_use_multihop_if_necessary _ _ _) => apply effect_daita_multihop
  | |- does _ (on_reset_settings _ _) => apply effect_reset
  | |- does _ (set_target_state _ _) => apply effect_target
  | |- does _ (on_set_relay_settings _ _ _) => apply effect_relay_settings
  | |- does _ (update_settings _ _) => apply effect_update
  | |- does _ (try_update_settings _ _) => apply effect_try_update
  end.

Lemma handle_event_in_effect (env : Env) e : resets e = false -> does in_effect (handle_event env e).
Proof.
  intros Hr. destruct e as [t|c|b| |e|e tx|r|l| |]; simpl; unfold handle_command.
  2: destruct c; try done.
  all: repeat first [known | does_step | does_unfold].
  all: try (let Ht := fresh in intros Ht; by right).
  all: try (intros s0; first [reflexivity | apply recents_part]).
  all: try (intros s0 s1; rewrite bind_result_Ok; intros (? & _ & [= <-]); reflexivity).
  all: try apply methods_part.
  intros s0. unfold Daemon.enable_recents. repeat case_match; by rewrite ?recents_part.
Qed.

(** C18. Changed settings take effect.  Over any events but a factory reset: if the user wants to be connected
    at the end, then the daemon has asked for a tunnel, or the user wanted that at the beginning too and these
    settings are the same as then ([connection_part]): the relay settings, the obfuscation, the overrides, the
    generic tunnel options, the MTU, quantum resistance, the userspace implementation, and DAITA unless the
    endpoint is the user's own.  The contents of custom lists are not among them: a change of the list of the
    entry can be ignored. *)
Theorem settings_take_effect (events : list (Env * Event)) d d' es rest :
  handle_events events d = (d', es, rest) -> forallb (fun x => negb (resets x.2)) events = true -> target d' = Secured ->
  Tunnel CmdConnect ∈ es
  \/ (target d = Secured /\ connection_part (current_settings d') = connection_part (current_settings d)).
Proof.
  intros Hrun Hr. rewrite forallb_forall in Hr. revert Hrun. apply (handle_events_does in_effect).
  intros env e He%list_elem_of_In. by apply handle_event_in_effect, negb_true_iff, (Hr (env, e)).
Qed.
End reconnect.
