(* ===== verification/DaemonTunnel.v ===== *)
(** * The daemon and the tunnel state machine together

    The daemon sends commands to the machine and the machine reports transitions to the daemon, each over a
    channel that keeps the order; the two run side by side.  [system_step] is one step of either, of the
    offline monitor, of the tunnel or of the rest of the host.  What the theorems of the parts say of each
    alone is composed here: the user's wish and settings are what the firewall enforces. *)

From stdpp Require Import base list strings gmap option numbers sets.
From S2P Require Import Prelude Retry DeviceService DeviceManager AccessMethods NetTypes TunnelTypes FirewallPolicy.
From S2P Require Import FirewallLinux TunnelStateMachine TunnelWp TunnelHandlers TunnelProps TunnelTold.
From S2P Require Import TargetState SettingsPatch SettingsPatchProps RelayTypes RelaySelector Settings.
From S2P Require Import SettingsPersister SettingsProps Daemon DaemonSteps DaemonSync.
Local Open Scope vpn_scope.

Section system.
Context {CustomProxy : Type} `{EqDecision CustomProxy} `{IpNetworkOps} `{Curve} `{SettingsJson CustomProxy}.
Context {W : Type} `{P : TunnelPlatform W} `{V : TunnelView W}.
Notation Daemon := (@Daemon CustomProxy).
Notation Effect := (@Effect CustomProxy).
Notation Env := (@Env CustomProxy).
Notation Event := (@InternalDaemonEvent CustomProxy).

(** ** The system *)
Definition tunnel_commands (es : list Effect) : list TunnelCommand :=
  omap (fun e => match e with Tunnel c => Some c | _ => None end) es.

(** With the commands sent but not handled, and the transitions reported but not handled. *)
Record System : Type := {
  daemon : Daemon; commands : list TunnelCommand; machine : @Machine W; transitions : list TunnelStateTransition
}.

(** What [Daemon::start] and the begin of [Daemon::run] set up. *)
Definition initial_system (e : @StartEnv CustomProxy) (c : Connectivity) (w : W) : result System DaemonError :=
  match start e with
  | Err e => Err e
  | Ok (d, i, _) =>
      let '(_, d, es) := handle_initial_target_state d in
      Ok {| daemon := d; commands := tunnel_commands es; machine := TunnelStateMachine_new i c w; transitions := [] |}
  end.

(** The label is the event the daemon handles, if it is its step.  The machine and the daemon are the
    ends of each other's channels, so both are open. *)
Inductive system_step : System -> option Event -> System -> Prop :=
| step_transition env d d' es t ts cs m :
    handle_event env (TunnelTransition t) d = (false, d', es) ->
    system_step {| daemon := d; commands := cs; machine := m; transitions := t :: ts |} (Some (TunnelTransition t))
      {| daemon := d'; commands := cs ++ tunnel_commands es; machine := m; transitions := ts |}
| step_event env e d d' es ts cs m :
    (forall t, e <> TunnelTransition t) -> handle_event env e d = (false, d', es) ->
    system_step {| daemon := d; commands := cs; machine := m; transitions := ts |} (Some e)
      {| daemon := d'; commands := cs ++ tunnel_commands es; machine := m; transitions := ts |}
| step_connectivity c d ts cs m :
    system_step {| daemon := d; commands := cs; machine := m; transitions := ts |} None
      {| daemon := d; commands := cs ++ [CmdConnectivity c]; machine := m; transitions := ts |}
| step_command c d ts cs m m' t :
    iterate m (InCommand (Some c)) true = Some (m', t) ->
    system_step {| daemon := d; commands := c :: cs; machine := m; transitions := ts |} None
      {| daemon := d; commands := cs; machine := m'; transitions := ts ++ option_list t |}
| step_tunnel i d ts cs m m' t :
    (forall c, i <> InCommand c) -> iterate m i true = Some (m', t) ->
    system_step {| daemon := d; commands := cs; machine := m; transitions := ts |} None
      {| daemon := d; commands := cs; machine := m'; transitions := ts ++ option_list t |}
| step_host d ts cs s st w :
    keeps_rules (world st) w ->
    system_step {| daemon := d; commands := cs; machine := Running s st; transitions := ts |} None
      {| daemon := d; commands := cs; machine := Running s (update_world w st); transitions := ts |}.

(** Runs, with the events the daemon handles. *)
Inductive system_run : System -> list Event -> System -> Prop :=
| run_refl s : system_run s [] s
| run_step s s1 s2 l events : system_step s l s1 -> system_run s1 events s2 -> system_run s (option_list l ++ events) s2.

Lemma system_invariant (ok : Event -> bool) (I : System -> Prop) :
  (forall s l s', system_step s l s' -> (forall e, l = Some e -> ok e = true) -> I s -> I s') ->
  forall s events s', system_run s events s' -> forallb ok events = true -> I s -> I s'.
Proof.
  intros Hstep s events s' Hrun. induction Hrun as [s|s s1 s2 l events Hs Hrun IH]; [done|].
  rewrite forallb_app. intros [Hl He]%andb_true_iff Hi. apply IH; [done|].
  eapply Hstep; [done| |done]. intros e ->. simpl in Hl. by rewrite andb_true_r in Hl.
Qed.

(** ** The daemon's part *)
(** What the daemon wants is what its last command asks for. *)
Definition wants (d d' : Daemon) (es : list Effect) : Prop :=
  forall b, (target d = Secured -> b = true) -> target d' = Secured -> foldl aim b (tunnel_commands es) = true.

#[global] Instance wants_sequential : Sequential wants.
Proof.
  split; unfold wants; [simpl; auto|]. intros d d1 d2 es1 es2 Hw1 Hw2 b Hb Ht.
  unfold tunnel_commands. rewrite omap_app, foldl_app. apply Hw2; [|done]. intros Ht1. by apply Hw1.
Qed.

Lemma wants_persist {A} op : does wants (persist (A := A) op).
Proof.
  intros d. rewrite persist_eq. destruct (op (persister d)) as [[p n] r]. unfold wants. destruct n; simpl; auto.
Qed.

Lemma wants_set_target_state (env : Env) n : does wants (set_target_state env n).
Proof.
  intros d b Hb. unfold set_target_state, mbind, D_bind. simpl. destruct (_ || _); [|simpl; auto].
  pose proof (set_state_is _ n (target_state d) (target_file d) (write_outcome_runs env)) as Hs.
  destruct (TargetState.set _ _ _ _) as [t' f]. simpl in *. rewrite Hs. unfold target. simpl.
  destruct n; simpl; rewrite ?Hs; done.
Qed.

Lemma handle_event_wants (env : Env) e :
  (forall b, e <> TriggerShutdown b) -> does wants (handle_event env e).
Proof.
  intros He. destruct e as [t|c|b| |e|e tx|r|l| |]; simpl; unfold handle_command.
  3: by destruct (He b).
  2: destruct c.
  all: repeat first [lazymatch goal with
                     | |- does _ (persist _) => apply wants_persist
                     | |- does _ (set_target_state _ _) => apply wants_set_target_state
                     end | does_step | does_unfold].
  all: try (let b := fresh in let Hb := fresh in intros b Hb; simpl; repeat case_match; auto; done).
Qed.
(** What the clients are shown of the tunnel, apart from its location and features. *)
Definition shown (s : Daemon.TunnelState) : TunnelStateTransition :=
  match s with
  | Daemon.Disconnected _ locked_down => TrDisconnected locked_down
  | Daemon.Connecting e _ _ => TrConnecting e
  | Daemon.Connected e _ _ => TrConnected e
  | Disconnecting a => TrDisconnecting a
  | InError e => TrError e
  end.

Definition same_view (d d' : Daemon) (_ : list Effect) : Prop :=
  shown (tunnel_state d') = shown (tunnel_state d).

#[global] Instance same_view_sequential : Sequential same_view.
Proof. split; unfold same_view; [done|]. by intros d d1 d2 _ _ -> ->. Qed.

Lemma same_view_persist {A} op : does same_view (persist (A := A) op).
Proof. intros d. rewrite persist_eq. by destruct (op (persister d)) as [[p n] r]. Qed.

Lemma same_view_location data : does same_view (handle_location_event data).
Proof.
  intros d. unfold same_view, handle_location_event, mbind, D_bind. simpl. destruct (_ =? _)%Z; [|done].
  destruct (tunnel_state d) eqn:E; simpl; rewrite ?E; try done; unfold when; destruct (update_default_location _); by simpl.
Qed.

Lemma same_view_features : does same_view update_feature_indicators_on_settings_changed.
Proof.
  intros d. unfold same_view, update_feature_indicators_on_settings_changed, mbind, D_bind. simpl.
  destruct (tunnel_state d) eqn:E; simpl; try by rewrite E. all: case_decide; simpl; by rewrite ?E.
Qed.

Lemma handle_event_view (env : Env) e :
  (forall t, e <> TunnelTransition t) -> does same_view (handle_event env e).
Proof.
  intros He. destruct e as [t|c|b| |e|e tx|r|l| |]; simpl; unfold handle_command.
  1: by destruct (He t).
  1: destruct c.
  all: repeat first [lazymatch goal with
                     | |- does _ (persist _) => apply same_view_persist
                     | |- does _ (handle_location_event _) => apply same_view_location
                     | |- does _ update_feature_indicators_on_settings_changed => apply same_view_features
                     end | does_step | does_unfold].
  all: by unfold same_view.
Qed.

(** A computation that ends with a state that is shown as given. *)
Definition ends_in {A} (k : TunnelStateTransition) (m : D A) : Prop := forall d : Daemon, shown (tunnel_state (m d).1.2) = k.

Lemma ends_in_last {A B} k (m : D A) (f : A -> D B) : (forall a, ends_in k (f a)) -> ends_in k (m ≫= f).
Proof.
  intros Hf d. unfold mbind, D_bind. destruct (m d) as [[a d1] es]. specialize (Hf a d1). by destruct (f a d1) as [[b d2] es2].
Qed.

Lemma ends_in_first {A B} k (m : D A) (f : A -> D B) :
  ends_in k m -> (forall a, does same_view (f a)) -> ends_in k (m ≫= f).
Proof.
  intros Hm Hf d. unfold mbind, D_bind. specialize (Hm d). destruct (m d) as [[a d1] es]. specialize (Hf a d1).
  destruct (f a d1) as [[b d2] es2]. unfold same_view in Hf. simpl in *. by rewrite Hf.
Qed.

Lemma state_after_shown (env : Env) t s : shown (state_after env t s) = t.
Proof. by destruct t. Qed.

Lemma transition_view (env : Env) t : ends_in t (handle_event env (TunnelTransition t)).
Proof.
  assert (Hf : does same_view fetch_am_i_mullvad).
  { repeat first [does_step | does_unfold]; by unfold same_view. }
  simpl. apply ends_in_first; [|intros ?; does_step]. unfold handle_tunnel_state_transition.
  do 3 (apply ends_in_last; intros ?). destruct (handle_state_transition _ _).
  do 8 (apply ends_in_last; intros ?). apply ends_in_first; [intros d; apply state_after_shown|]. intros _.
  apply does_bind; [apply _| |done]. by does_step.
Qed.

(** A computation that tells the clients the state with which it ends. *)
Definition notified {A} (m : D A) : Prop := forall d : Daemon, Notify (NotifyState (tunnel_state (m d).1.2)) ∈ (m d).2.
Definition same_state (d d' : Daemon) (_ : list Effect) : Prop := tunnel_state d' = tunnel_state d.
#[global] Instance same_state_sequential : Sequential same_state.
Proof. split; unfold same_state; [done|]. by intros d d1 d2 _ _ -> ->. Qed.

Lemma notified_last {A B} (m : D A) (f : A -> D B) : (forall a, notified (f a)) -> notified (m ≫= f).
Proof.
  intros Hf d. unfold mbind, D_bind. destruct (m d) as [[a d1] es]. specialize (Hf a d1). destruct (f a d1) as [[b d2] es2].
  simpl in *. set_solver.
Qed.
Lemma notified_first {A B} (m : D A) (f : A -> D B) :
  notified m -> (forall a, does same_state (f a)) -> notified (m ≫= f).
Proof.
  intros Hm Hf d. unfold mbind, D_bind. specialize (Hm d). destruct (m d) as [[a d1] es]. specialize (Hf a d1).
  destruct (f a d1) as [[b d2] es2]. unfold same_state in Hf. simpl in *. rewrite Hf. set_solver.
Qed.

Lemma transition_notified (env : Env) t : notified (handle_event env (TunnelTransition t)).
Proof.
  assert (Hf : does same_state fetch_am_i_mullvad).
  { repeat first [does_step | does_unfold]; by unfold same_state. }
  simpl. apply notified_first; [|intros ?; does_step]. unfold handle_tunnel_state_transition.
  do 3 (apply notified_last; intros ?). destruct (handle_state_transition _ _).
  do 8 (apply notified_last; intros ?). intros d. specialize (Hf (put_tunnel_state (state_after env t a4) d)). unfold same_state in Hf.
  unfold mbind, D_bind in *. simpl. destruct (fetch_am_i_mullvad _) as [[u d2] es2]. simpl in *. rewrite Hf. left.
Qed.
End system.

(** ** Both parts *)
Section together.
Context {CustomProxy : Type} `{EqDecision CustomProxy} `{IpNetworkOps} `{Curve} `{SettingsJson CustomProxy}.
Context {W : Type} `{P : TunnelPlatform W} `{V : TunnelView W} {L : TunnelPlatformLaws W P V}.
Notation Event := (@InternalDaemonEvent CustomProxy).
Notation System := (@System CustomProxy W).

(** An input is handled: the machine runs on, and reports exactly the states it enters. *)
Lemma iterate_handled s st i m' t :
  i <> InCommand None -> iterate (Running s st) i true = Some (m', t) ->
  exists s' st' cons, m' = Running s' st' /\ TunnelStateMachine.handle_event s i st = Some (st', cons)
    /\ cons = match t with Some t => NewState s' t | None => SameState s' end.
Proof.
  intros Hi. simpl. destruct (TunnelStateMachine.handle_event s i st) as [[st' cons]|] eqn:E; [|done]. simpl.
  destruct cons as [s1 t1|s1|]; [intros [= <- <-]; eauto 7..|]. by destruct (handle_event_goes_on _ _ _ _ Hi E).
Qed.

(** ** The wish of the user *)
Definition heads_in (s : System) : Prop :=
  exists x st, machine s = Running x st /\ live x
    /\ (target (daemon s) = Secured -> foldl aim (negb (heading_out x)) (commands s) = true).

Lemma foldl_aim_true l b : foldl aim false l = true -> foldl aim b l = true.
Proof.
  revert b. induction l as [|c l IH]; [done|]. intros b. simpl. destruct c; simpl; auto.
Qed.

Lemma foldl_aim_mono l b b' : (b = true -> b' = true) -> foldl aim b l = true -> foldl aim b' l = true.
Proof. destruct b, b'; try done; [by intros Hb; specialize (Hb eq_refl) | intros _; apply foldl_aim_true]. Qed.

Lemma live_handled x i st st' cons :
  TunnelStateMachine.handle_event x i st = Some (st', cons) -> live x ->
  match cons with NewState x' _ | SameState x' => live x' | Finished => True end.
Proof. intros E Hl. destruct (handle_event_handled _ _ _ _ _ E) as [_ Hh]. destruct cons; naive_solver. Qed.

Lemma heads_in_step s l s' : system_step s l s' -> heads_in s -> heads_in s'.
Proof.
  intros Hs (x & st & Hm & Hl & Ha).
  destruct Hs as [env d d' es t ts cs m E|env e d d' es ts cs m Hne E|c d ts cs m|c d ts cs m m' t E|i d ts cs m m' t Hi E|d ts cs y z w Hk];
    cbn [daemon commands machine transitions] in *; subst.
  1,2: exists x, st; split_and!; [done..|]; intros Ht; cbn [daemon commands machine transitions] in *; rewrite foldl_app.
  - pose proof (handle_event_wants env (TunnelTransition t) ltac:(done) d) as Hw. rewrite E in Hw. by apply Hw.
  - assert (Hw : does wants (Daemon.handle_event env e)).
    { apply handle_event_wants. intros b ->. unfold Daemon.handle_event, mbind, D_bind in E.
      by destruct (on_trigger_shutdown b d) as [[? ?] ?]. }
    specialize (Hw d). rewrite E in Hw. by apply Hw.
  - exists x, st. split_and!; [done..|]. intros Ht. cbn [daemon commands machine transitions] in *. rewrite foldl_app. simpl. auto.
  - apply iterate_handled in E as (x' & st' & cons & -> & E & Hc); [|done]. exists x', st'.
    pose proof (live_handled _ _ _ _ _ E Hl) as Hl'. split_and!; [done | by destruct t; subst cons |].
    intros Ht. specialize (Ha Ht). simpl in Ha. eapply foldl_aim_mono; [|done]. intros Haim.
    pose proof (handle_event_aims _ _ _ _ _ Hl Haim E) as Hst. apply negb_true_iff. by destruct t; subst cons.
  - apply iterate_handled in E as (x' & st' & cons & -> & E & Hc); [|done]. exists x', st'.
    pose proof (live_handled _ _ _ _ _ E Hl) as Hl'. split_and!; [done | by destruct t; subst cons |].
    intros Ht. eapply foldl_aim_mono; [|by apply Ha]. intros Hh%negb_true_iff. apply negb_true_iff.
    assert (Hst : staying cons).
    { eapply handle_event_stays; [done..| |done]. destruct i as [c| | |]; [by destruct (Hi c)|done..]. }
    by destruct t; subst cons.
  - simplify_eq. eexists _, _. by split_and!.
Qed.

(** ** The settings of the user *)
Definition follows (exact : bool) (s : System) : Prop :=
  exists x st, machine s = Running x st /\ settled x st
    /\ agrees exact (current_settings (daemon s)) (foldl tell_command (told_of (sv st)) (commands s)).

Lemma foldl_tell (es : list (@Effect CustomProxy)) (t : Told) : foldl tell t es = foldl tell_command t (tunnel_commands es).
Proof. revert t. induction es as [|e es IH]; intros t; [done|]. simpl. rewrite IH. by destruct e. Qed.

Lemma handle_event_settled x i st st' cons :
  settled x st -> TunnelStateMachine.handle_event x i st = Some (st', cons) ->
  match cons with NewState s' _ | SameState s' => settled s' st' | Finished => True end.
Proof.
  intros Hs (m & Hd & E)%handle_event_dispatched.
  pose proof (dispatched_settled x i m (note_input i st) Hd Hs (dispatched_handled x i m _ Hd)) as Hw.
  unfold wp in Hw. by rewrite E in Hw.
Qed.

Lemma follows_step `{!SettingsJsonLaws CustomProxy} exact s l s' :
  system_step s l s' -> (forall e, l = Some e -> resets e = false /\ (exact = true -> locks_down e = false)) ->
  follows exact s -> follows exact s'.
Proof.
  intros Hs Hok (x & st & Hm & Hset & Ha).
  destruct Hs as [env d d' es t ts cs m E|env e d d' es ts cs m Hne E|c d ts cs m|c d ts cs m m' t E|i d ts cs m m' t Hi E|d ts cs y z w Hk];
    cbn [daemon commands machine transitions] in *; subst.
  1,2: exists x, st; split_and!; [done..|]; destruct (Hok _ eq_refl) as [Hr Hx].
  - pose proof (handle_event_syncs exact env _ Hr Hx d) as Hw. rewrite E in Hw. simpl. rewrite foldl_app, <- foldl_tell. by apply Hw.
  - pose proof (handle_event_syncs exact env _ Hr Hx d) as Hw. rewrite E in Hw. simpl. rewrite foldl_app, <- foldl_tell. by apply Hw.
  - exists x, st. split_and!; [done..|]. simpl. by rewrite foldl_app.
  - apply iterate_handled in E as (x' & st' & cons & -> & E & Hc); [|done]. exists x', st'. split_and!; [done|..].
    + pose proof (handle_event_settled _ _ _ _ _ Hset E). by destruct t; subst cons.
    + by rewrite (handle_event_told _ _ _ _ _ E).
  - apply iterate_handled in E as (x' & st' & cons & -> & E & Hc); [|done]. exists x', st'. split_and!; [done|..].
    + pose proof (handle_event_settled _ _ _ _ _ Hset E). by destruct t; subst cons.
    + rewrite (handle_event_told _ _ _ _ _ E). destruct i as [c| | |]; [by destruct (Hi c)|done..].
  - simplify_eq. eexists _, _. split_and!; [done | by apply settled_world | done].
Qed.

(** ** What the clients see *)
Definition view_agrees (s : System) : Prop :=
  exists x st, machine s = Running x st
    /\ reports (default (shown (tunnel_state (daemon s))) (last (transitions s))) x st.

Lemma view_reported x i st st' x' t ts o :
  TunnelStateMachine.handle_event x i st = Some (st', match t with Some t => NewState x' t | None => SameState x' end) ->
  reports (default o (last ts)) x st -> reports (default o (last (ts ++ option_list t))) x' st'.
Proof.
  intros E Hr. apply handle_event_reports in E. rewrite last_app. destruct t as [t|]; [done|]. by apply E.
Qed.

Lemma view_agrees_step s l s' : system_step s l s' -> view_agrees s -> view_agrees s'.
Proof.
  intros Hs (x & st & Hm & Ha).
  destruct Hs as [env d d' es t ts cs m E|env e d d' es ts cs m Hne E|c d ts cs m|c d ts cs m m' t E|i d ts cs m m' t Hi E|d ts cs y z w Hk];
    cbn [daemon commands machine transitions] in *; subst.
  - exists x, st. split; [done|]. pose proof (transition_view env t d) as Hv. rewrite E in Hv. cbn [fst snd daemon transitions] in *. rewrite Hv.
    rewrite last_cons in Ha. by destruct (last ts).
  - exists x, st. split; [done|]. pose proof (handle_event_view env e Hne d) as Hv. rewrite E in Hv. unfold same_view in Hv. simpl in *.
    by rewrite Hv.
  - eexists _, _. by split.
  - apply iterate_handled in E as (x' & st' & cons & -> & E & ->); [|done]. exists x', st'. split; [done|].
    by eapply view_reported.
  - apply iterate_handled in E as (x' & st' & cons & -> & E & ->); [|done]. exists x', st'. split; [done|].
    by eapply view_reported.
  - simplify_eq. eexists _, _. by split.
Qed.

(** ** At the start *)
Lemma new_machine i c (w : W) :
  exists st, TunnelStateMachine_new i c w = Running DisconnectedState st
    /\ told_of (sv st) = {| told_allow_lan := init_allow_lan i; told_lockdown := lockdown_bool (init_lockdown_mode i);
                            told_dns := init_dns_config i |}.
Proof.
  unfold TunnelStateMachine_new. set (st0 := {| sv := _; world := w; replies := _; commands_done := _ |}).
  assert (Hw : wp (Disconnected_enter (TunnelStateMachine.reset_firewall i))
                 (fun st x => x.1 = DisconnectedState /\ told_of (sv st) = told_of (sv st0)) st0).
  { unfold Disconnected_enter, Disconnected_set_firewall_policy, reset_connectivity_check, construct_state_transition. wp_auto; done. }
  unfold wp in Hw. destruct (Disconnected_enter _ st0) as [st [x t]]. destruct Hw as [Hx Ht]. simpl in Hx. subst x. eauto.
Qed.

Lemma initial_target (d : @Daemon CustomProxy) :
  let '(_, d', es) := handle_initial_target_state d in
  target d' = target d /\ current_settings d' = current_settings d /\ tunnel_state d' = tunnel_state d
  /\ tunnel_commands es = match target d with Secured => [CmdConnect] | Unsecured => [] end.
Proof.
  unfold handle_initial_target_state, fetch_am_i_mullvad, mbind, D_bind. simpl. destruct (target d) eqn:Et; [|done].
  destruct (tunnel_state d) eqn:E; simpl; rewrite ?E; by repeat case_match.
Qed.

Lemma initial_heads_in e c (w : W) s : initial_system e c w = Ok s -> heads_in s.
Proof.
  unfold initial_system. destruct (start e) as [[[d i] n]|] eqn:E; [|done]. pose proof (initial_target d) as Hd.
  destruct (handle_initial_target_state d) as [[u d'] es]. destruct Hd as (Ht & _ & _ & Hc). intros [= <-].
  destruct (new_machine i c w) as (st & Hm & _). exists DisconnectedState, st. simpl.
  split_and!; [done..|]. rewrite Ht, Hc. by intros ->.
Qed.

Lemma initial_follows exact e c (w : W) s : initial_system e c w = Ok s -> follows exact s.
Proof.
  unfold initial_system. destruct (start e) as [[[d i] n]|] eqn:E; [|done]. pose proof (initial_target d) as Hd.
  destruct (handle_initial_target_state d) as [[u d'] es]. destruct Hd as (Ht & Hs & _ & Hc). intros [= <-].
  destruct (new_machine i c w) as (st & Hm & Htold). exists DisconnectedState, st. simpl.
  split_and!; [done..|]. rewrite Hs, Hc. apply start_agrees in E as (Ha & Hn & Hl).
  assert (Hg : agrees exact (current_settings d) (told_of (sv st))).
  { rewrite Htold. split_and!; [done..|]. destruct exact; [done|]. by rewrite Hl. }
  by destruct (target d).
Qed.

Lemma start_disconnected (e : @StartEnv CustomProxy) d i n : start e = Ok (d, i, n) -> shown (tunnel_state d) = TrDisconnected (lockdown_mode (current_settings d)).
Proof.
  unfold start. intros (? & _ & (? & _ & (? & _ & (? & _ & (h & _ & Hs)%bind_result_Ok)%bind_result_Ok)%bind_result_Ok)%bind_result_Ok)%bind_result_Ok.
  destruct (if Settings.auto_connect _ then _ else _) as [[t|] f]; [|done].
  apply bind_result_Ok in Hs as (? & _ & (ep & _ & (? & _ & Hs)%bind_result_Ok)%bind_result_Ok).
  destruct (update _ _ _) as [[p m] r]. destruct r; [|done]. by injection Hs as <- _ _.
Qed.

Lemma initial_view e c (w : W) s : initial_system e c w = Ok s -> view_agrees s.
Proof.
  unfold initial_system. destruct (start e) as [[[d i] n]|] eqn:E; [|done]. pose proof (initial_target d) as Hd.
  destruct (handle_initial_target_state d) as [[u d'] es]. destruct Hd as (_ & _ & Hv & _). intros [= <-].
  destruct (new_machine i c w) as (st & Hm & Htold). exists DisconnectedState, st. simpl. split; [done|].
  rewrite Hv. pose proof (start_disconnected _ _ _ _ E) as ->. apply start_agrees in E as (_ & _ & El). split; [done|].
  apply (f_equal told_lockdown) in Htold. simpl in Htold. by rewrite Htold, <- El.
Qed.

(** ** The theorems *)
Lemma reachable (I : System -> Prop) (ok : Event -> bool) e c (w : W) s0 events s :
  (forall s, initial_system e c w = Ok s -> I s) ->
  (forall s l s', system_step s l s' -> (forall e, l = Some e -> ok e = true) -> I s -> I s') ->
  initial_system e c w = Ok s0 -> system_run s0 events s -> forallb ok events = true -> I s.
Proof. intros Hi Hs Hinit Hrun Hok. eapply system_invariant; eauto. Qed.

(** C7. The machine is where the user wants it.  In every run of the daemon, the tunnel state machine, the
    tunnel and the host side by side, whatever happens and however the steps interleave: while the target
    state is secured the machine is not disconnected and not about to be, or a command that is still in the
    channel makes it leave that state with no command to disconnect after it. *)
Theorem target_pursued e c (w : W) s0 events s :
  initial_system e c w = Ok s0 -> system_run s0 events s ->
  exists x st, machine s = Running x st
    /\ (target (daemon s) = Secured -> commands s = [] -> heading_out x = false)
    /\ (target (daemon s) = Secured -> heading_out x = true ->
        exists cs1 cs2, commands s = cs1 ++ CmdConnect :: cs2 /\ CmdDisconnect ∉ cs2).
Proof.
  intros Hinit Hrun.
  assert (Hh : heads_in s).
  { eapply (reachable heads_in (fun _ => true)); [apply initial_heads_in | | done..|by clear; induction events].
    intros. by eapply heads_in_step. }
  destruct Hh as (x & st & Hm & _ & Ha). exists x, st. split_and!; [done|..].
  - intros Ht Hc. specialize (Ha Ht). rewrite Hc in Ha. by apply negb_true_iff.
  - intros Ht Hx. specialize (Ha Ht). rewrite Hx in Ha. simpl in Ha. clear -Ha.
    induction (commands s) as [|k cs IH] using rev_ind; [done|]. rewrite foldl_app in Ha. simpl in Ha.
    assert (Hk : k = CmdConnect \/ (k <> CmdDisconnect /\ foldl aim false cs = true)) by (destruct k; simpl in Ha; first [done | by left | by right]).
    destruct Hk as [->|[Hk Hcs]]; [exists cs, []; set_solver|].
    destruct (IH Hcs) as (cs1 & cs2 & -> & Hn). exists cs1, (cs2 ++ [k]). rewrite <- app_assoc. set_solver.
Qed.

(** C6. The firewall follows the user's settings.  In every run, until a factory reset, when the machine
    has handled its commands and has a tunnel up or coming up, the policy in force lets local networks
    through exactly if the settings say so, and once connected name servers are those the settings give;
    it is locked down if the settings say so, and only then unless a restart was prepared. *)
Theorem firewall_follows_user `{!SettingsJsonLaws CustomProxy} e c (w : W) s0 events s :
  initial_system e c w = Ok s0 -> system_run s0 events s -> commands s = [] ->
  forallb (fun e => negb (resets e)) events = true ->
  let settings := current_settings (daemon s) in
  exists x st, machine s = Running x st
    /\ (Settings.lockdown_mode settings = true -> lockdown_bool (TunnelStateMachine.lockdown_mode (sv st)) = true)
    /\ (forallb (fun e => negb (locks_down e)) events = true ->
        lockdown_bool (TunnelStateMachine.lockdown_mode (sv st)) = Settings.lockdown_mode settings)
    /\ match x with
       | ConnectingState data =>
           exists metadata traffic endpoint,
             enforces (world st) (FirewallPolicy.Connecting (peer_endpoints_of (ct_parameters data)) metadata (Settings.allow_lan settings) endpoint traffic)
       | ConnectedState data =>
           enforces (world st)
             (FirewallPolicy.Connected (peer_endpoints_of (cd_parameters data)) (cd_metadata data) (Settings.allow_lan settings)
                (DnsConfig_resolve (addresses_from_options (dns_options (tunnel_options settings))) (gateways (cd_metadata data))))
       | _ => True
       end.
Proof.
  intros Hinit Hrun Hc Hr settings.
  assert (Hf : forall exact, (exact = true -> forallb (fun e => negb (locks_down e)) events = true) -> follows exact s).
  { intros exact Hx. eapply (reachable (follows exact) (fun e => negb (resets e) && (negb exact || negb (locks_down e))));
      [apply initial_follows | | done.. |].
    - intros s1 l s2 Hs Hok. apply follows_step with (l := l); [done|]. intros ev Hev. specialize (Hok ev Hev).
      apply andb_true_iff in Hok as [Hr1%negb_true_iff Hl1]. split; [done|]. intros ->. by apply negb_true_iff.
    - apply forallb_forall. intros ev Hev. rewrite forallb_forall in Hr. rewrite (Hr _ Hev). simpl.
      destruct exact; [|done]. specialize (Hx eq_refl). rewrite forallb_forall in Hx. by apply Hx. }
  destruct (Hf false ltac:(done)) as (x & st & Hm & Hset & Ha & Hd & Hl). rewrite Hc in Ha, Hd, Hl. simpl in Ha, Hd, Hl.
  exists x, st. split_and!; [done|done|..].
  - intros Hx. destruct (Hf true (fun _ => Hx)) as (x1 & st1 & Hm1 & _ & _ & _ & Hl1). rewrite Hm in Hm1.
    injection Hm1 as <- <-. rewrite Hc in Hl1. done.
  - destruct x as [|data|data|h a|reason]; simpl in Hset; [done| | |done..].
    + destruct Hset as (m & t & He & _). exists m, t, (TunnelStateMachine.allowed_endpoint (sv st)).
      unfold connecting_policy in He. by rewrite Ha in He.
    + unfold get_firewall_policy, resolve_dns in Hset. by rewrite Ha, Hd in Hset.
Qed.

(** C26. Clients see the tunnel's state.  In every run, once the daemon has handled the transitions that were
    reported, the state that clients are shown is that of the machine: disconnected with the machine's
    lockdown mode, connecting or connected to its endpoint, disconnecting, or in error for its cause.  And
    whatever transition is reported next, when the daemon has handled it the clients are shown and were sent
    just what it says, the action after disconnecting and whether traffic could be blocked included. *)
Theorem clients_see_tunnel e c (w : W) s0 events s :
  initial_system e c w = Ok s0 -> system_run s0 events s -> transitions s = [] ->
  (exists x st, machine s = Running x st /\ reports (shown (tunnel_state (daemon s))) x st)
  /\ forall env t r d es, handle_event env (TunnelTransition t) (daemon s) = (r, d, es) ->
       shown (tunnel_state d) = t /\ Notify (NotifyState (tunnel_state d)) ∈ es.
Proof.
  intros Hinit Hrun Ht.
  assert (Hv : view_agrees s).
  { eapply (reachable view_agrees (fun _ => true)); [apply initial_view | | done..|by clear; induction events].
    intros. by eapply view_agrees_step. }
  destruct Hv as (x & st & Hm & Hv). rewrite Ht in Hv. split; [eauto|]. intros env t r d es E.
  pose proof (transition_view env t (daemon s)) as Hs. pose proof (transition_notified env t (daemon s)) as Hn.
  rewrite E in Hs, Hn. done.
Qed.
End together.
