(* ===== verification/DaemonLinux.v ===== *)
(** * The daemon on Linux, down to packets

    The system of [DaemonTunnel] with the Linux firewall: while the user wants to be connected the kernel
    passes only what some policy of the machine permits, and it does so through a shutdown that the user did
    not ask for. *)

From stdpp Require Import base list strings gmap option numbers sets.
From S2P Require Import Prelude Retry DeviceService DeviceManager AccessMethods NetTypes TunnelTypes FirewallPolicy.
From S2P Require Import Nftables FirewallLinux FirewallSpec FirewallRefine FirewallApply FirewallProps.
From S2P Require Import TunnelStateMachine TunnelWp TunnelHandlers TunnelProps TunnelTold LinuxPlatform.
From S2P Require Import TargetState SettingsPatch SettingsPatchProps RelayTypes RelaySelector Settings.
From S2P Require Import SettingsPersister SettingsProps Daemon DaemonSteps DaemonSync DaemonTunnel.
Local Open Scope vpn_scope.

Section protection.
Context {CustomProxy : Type} `{EqDecision CustomProxy} `{IpNetworkOps} `{Curve} `{SettingsJson CustomProxy}.
Context {W : Type} `{P : TunnelPlatform W} `{V : TunnelView W} {L : TunnelPlatformLaws W P V}.
Notation Daemon := (@Daemon CustomProxy).
Notation Effect := (@Effect CustomProxy).
Notation Env := (@Env CustomProxy).
Notation Event := (@InternalDaemonEvent CustomProxy).
Notation System := (@System CustomProxy W).

(** ** While the user wants to be connected *)
Definition gives_up (e : Event) : bool :=
  match e with DaemonCmd (SetTargetState _ Unsecured) | DeviceEvent (DeviceChanged Logout) => true | _ => false end.

Definition guarded (s : System) : Prop :=
  (exists x st, machine s = Running x st /\ protected x st) /\ CmdDisconnect ∉ commands s.

Lemma elem_of_tunnel_commands c (es : list Effect) : c ∈ tunnel_commands es <-> Tunnel c ∈ es.
Proof.
  unfold tunnel_commands. rewrite list_elem_of_omap. split; [|by exists (Tunnel c)]. intros (x & Hx & Hc). destruct x; naive_solver.
Qed.

Lemma no_disconnect (env : Env) e d d' es :
  gives_up e = false -> handle_event env e d = (false, d', es) -> CmdDisconnect ∉ tunnel_commands es.
Proof.
  intros Hg E. rewrite elem_of_tunnel_commands. pose proof (handle_event_sends env e d) as Hs. rewrite E in Hs.
  intros Hin. unfold avoids in Hs. rewrite Forall_forall in Hs. specialize (Hs _ Hin). simpl in Hs. apply negb_false_iff in Hs.
  destruct e as [t|c|b| |e|e tx|r|l| |]; try done; simpl in Hs.
  - destruct c; try done. by destruct s.
  - unfold Daemon.handle_event, mbind, D_bind in E. by destruct (on_trigger_shutdown b d) as [[? ?] ?].
  - by destruct e as [[]|].
Qed.

Lemma iterate_protected x st i m t :
  protected x st -> asks_disconnect i = false -> iterate (Running x st) i true = Some (m, t) ->
  exists x' st', m = Running x' st' /\ protected x' st'.
Proof.
  intros Hp Hi E. pose proof E as E1. apply iterate_handled in E as (x' & st' & cons & -> & _); [|by intros ->].
  exists x', st'. split; [done|]. assert (He : exec (Running x st) [i] (option_list t ++ []) (Running x' st')) by (econstructor; [done|constructor]).
  apply (exec_protected _ _ _ _ _ Hp) in He; [done|]. simpl. by rewrite Hi.
Qed.

Lemma guarded_step s l s' :
  system_step s l s' -> (forall e, l = Some e -> negb (gives_up e) = true) -> guarded s -> guarded s'.
Proof.
  intros Hs Hok [(x & st & Hm & Hp) Hc].
  destruct Hs as [env d d' es t ts cs m E|env e d d' es ts cs m Hne E|c d ts cs m|c d ts cs m m' t E|i d ts cs m m' t Hi E|d ts cs y z w Hk];
    cbn [daemon commands machine transitions] in *; subst; unfold guarded; cbn [daemon commands machine transitions].
  1,2: specialize (Hok _ eq_refl); apply negb_true_iff in Hok;
       pose proof (no_disconnect _ _ _ _ _ Hok E); split; [eauto | set_solver].
  - split; [eauto | set_solver].
  - apply not_elem_of_cons in Hc as [Hc Hcs].
    assert (Hi : asks_disconnect (InCommand (Some c)) = false) by (by destruct c).
    destruct (iterate_protected _ _ _ _ _ Hp Hi E) as (x' & st' & -> & Hp'). split; [eauto | done].
  - assert (Hd : asks_disconnect i = false) by (destruct i as [c| | |]; [by destruct (Hi c)|done..]).
    destruct (iterate_protected _ _ _ _ _ Hp Hd E) as (x' & st' & -> & Hp'). split; [eauto | done].
  - simplify_eq. destruct Hp as (? & ? & ?). split; [|done]. eexists _, _. split; [done|]. split_and!; [done..|]. by eapply secured_keeps.
Qed.

(** ** Shutting down *)
Lemma exec_split m ins1 ins2 ts (m' : @Machine W) :
  exec m (ins1 ++ ins2) ts m' -> exists m1 ts1 ts2, exec m ins1 ts1 m1 /\ exec m1 ins2 ts2 m'.
Proof.
  intros He. remember (ins1 ++ ins2) as ins eqn:Hins. revert ins1 Hins.
  induction He as [m|s st w ins ts m Hk He IH|m i l m1 t ins ts m2 E He IH]; intros ins1 Hins.
  - symmetry in Hins. apply app_eq_nil in Hins as [-> ->]. eexists _, [], []. split; constructor.
  - destruct (IH _ Hins) as (m1 & ts1 & ts2 & H1' & H2'). exists m1, ts1, ts2. split; [by econstructor | done].
  - destruct ins1 as [|i1 ins1]; simpl in Hins.
    + exists m, [], (option_list t ++ ts). split; [constructor|]. subst ins2. by econstructor.
    + injection Hins as <- Hins. destruct (IH _ Hins) as (m1' & ts1 & ts2 & H1' & H2').
      exists m1', (option_list t ++ ts1), ts2. split; [by econstructor | done].
Qed.

(** The commands of the daemon among the inputs, in order. *)
Definition from_daemon (i : Input) : option TunnelCommand :=
  match i with InCommand (Some (CmdConnectivity _)) => None | InCommand (Some c) => Some c | _ => None end.

Lemma omap_from_daemon i ins :
  omap from_daemon (i :: ins) = match from_daemon i with Some c => c :: omap from_daemon ins | None => omap from_daemon ins end.
Proof. done. Qed.

Lemma from_daemon_split ins c cs1 cs2 :
  omap from_daemon ins = cs1 ++ c :: cs2 ->
  exists ins1 ins2, ins = ins1 ++ InCommand (Some c) :: ins2 /\ omap from_daemon ins1 = cs1 /\ omap from_daemon ins2 = cs2.
Proof.
  revert cs1. induction ins as [|i ins IH]; intros cs1; [by destruct cs1|]. rewrite omap_from_daemon.
  destruct (from_daemon i) as [k|] eqn:Ei.
  - destruct cs1 as [|k1 cs1]; simpl.
    + intros [= -> <-]. exists [], ins. split_and!; [|done..]. destruct i as [[[]|]| | |]; naive_solver.
    + intros [= -> E]. destruct (IH _ E) as (ins1 & ins2 & -> & H1' & H2'). exists (i :: ins1), ins2.
      split_and!; [done| |done]. by rewrite omap_from_daemon, Ei, H1'.
  - intros E. destruct (IH _ E) as (ins1 & ins2 & -> & H1' & H2'). exists (i :: ins1), ins2.
    split_and!; [done| |done]. by rewrite omap_from_daemon, Ei.
Qed.

(** What the daemon sends once it shuts down. *)
Lemma shutdown_commands (env : Env) b d d1 es1 :
  handle_event env (TriggerShutdown b) d = (true, d1, es1) ->
  tunnel_commands es1 =
    (if negb b && (is_secured (target d) || Settings.auto_connect (current_settings d))
     then [CmdLockdownMode LockdownMode_yes NOBODY] else []) ++ [CmdDisconnect].
Proof.
  unfold Daemon.handle_event, on_trigger_shutdown, mbind, D_bind, when. simpl. destruct (negb b && _); by intros [= <- <-].
Qed.

Definition quiet (x : Effect) : bool := match x with Tunnel _ => true | _ => false end.

Lemma wait_quiet (env : Env) e : does (avoids quiet) (wait_disconnected env e).
Proof.
  destruct e; repeat first [does_step | does_unfold]; unfold avoids; try first [by constructor | by apply Forall_singleton].
  apply Forall_singleton. by destruct (is_disconnected _).
Qed.

Lemma wait_commands (events : list (Env * Event)) d d' es rest :
  disconnect_tunnel_and_wait events d = (d', es, rest) -> Forall (fun c => c = CmdDisconnect) (tunnel_commands es).
Proof.
  unfold disconnect_tunnel_and_wait. destruct (is_disconnected _); [by intros [= <- <- <-]; constructor|].
  destruct (wait_events events d) as [[d1 es1] rest1] eqn:E. intros [= <- <- <-].
  apply (wait_events_does (avoids quiet)) in E; [|intros; apply wait_quiet]. simpl. constructor; [done|].
  unfold avoids in E. rewrite Forall_forall in E. apply Forall_forall. intros c Hc%elem_of_tunnel_commands. by specialize (E _ Hc).
Qed.

(** The machine gets the commands that were pending, those of the shutdown, and when it has got them all the
    end of the channel; the offline monitor and the tunnel go on. *)
Definition winds_up (all : list TunnelCommand) (inputs : list Input) : Prop :=
  exists ins tail, inputs = ins ++ tail /\ InCommand None ∉ ins
    /\ ((exists later, all = omap from_daemon ins ++ later /\ later <> []) /\ tail = []
        \/ omap from_daemon ins = all /\ omap from_daemon tail = []).

Lemma no_lift ins : Forall (fun c => c = CmdDisconnect) (omap from_daemon ins) -> forallb (fun i => negb (lifts_lockdown i)) ins = true.
Proof.
  intros Hc. apply forallb_forall. intros i Hi%list_elem_of_In. apply negb_true_iff.
  destruct (from_daemon i) as [c|] eqn:E; [|destruct i as [[[]|]| | |]; naive_solver].
  rewrite Forall_forall in Hc. rewrite (Hc c) in E; [destruct i as [[[]|]| | |]; naive_solver|]. apply list_elem_of_omap. eauto.
Qed.

Lemma no_ask ins : InCommand None ∉ ins -> CmdDisconnect ∉ omap from_daemon ins -> forallb (fun i => negb (asks_disconnect i)) ins = true.
Proof.
  intros Hn Hc. apply forallb_forall. intros i Hi%list_elem_of_In. apply negb_true_iff. destruct (asks_disconnect i) eqn:E; [|done].
  destruct i as [[c|]| | |]; try done; destruct c; try done. exfalso. apply Hc, list_elem_of_omap. by eexists.
Qed.

Lemma machine_protected_secured (m : @Machine W) :
  match m with Running s' st' => protected s' st' | Stopped st' => secured st' end -> secured (machine_st m).
Proof. destruct m; [by intros (_ & _ & ?) | done]. Qed.

Lemma shutdown_secured x st cs mode tx cs2 inputs ts m' :
  protected x st -> CmdDisconnect ∉ cs -> lockdown_bool mode = true -> Forall (fun c => c = CmdDisconnect) cs2 ->
  winds_up (cs ++ CmdLockdownMode mode tx :: cs2) inputs -> exec (Running x st) inputs ts m' -> secured (machine_st m').
Proof.
  intros Hp Hcs Hmode Hcs2 (ins & tail & -> & Hn & Hw) He.
  assert (Hends : (exists later, cs = omap from_daemon ins ++ later) /\ tail = []
                  \/ exists ins1 ins2, ins ++ tail = ins1 ++ InCommand (Some (CmdLockdownMode mode tx)) :: ins2
                       /\ omap from_daemon ins1 = cs /\ InCommand None ∉ ins1 /\ Forall (fun c => c = CmdDisconnect) (omap from_daemon ins2)).
  { destruct Hw as [((later & Hall & Hl) & ->)|[Hall Ht]].
    - apply List.app_eq_app in Hall as (k & [[-> Hk]|[Hk Hl2]]); [left; eauto|].
      destruct k as [|c k]; [left; split; [|done]; exists []; by rewrite Hk, !app_nil_r|].
      injection Hl2 as <- ->. right. rewrite app_nil_r.
      destruct (from_daemon_split _ _ _ _ Hk) as (ins1 & ins2 & -> & H1' & H2'). exists ins1, ins2.
      split_and!; [done..|set_solver|]. rewrite H2'. by apply Forall_app in Hcs2 as [? _].
    - apply from_daemon_split in Hall as (ins1 & ins2 & -> & H1' & H2'). right. exists ins1, (ins2 ++ tail).
      rewrite <- app_assoc. split_and!; [done..|set_solver|]. by rewrite omap_app, H2', Ht, app_nil_r. }
  destruct Hends as [[[later Hl] ->]|(ins1 & ins2 & E & H1' & Hn1 & H2')].
  - rewrite app_nil_r in He. apply machine_protected_secured. eapply exec_protected; [exact Hp| |exact He].
    apply no_ask; [done|]. intros Hin. apply Hcs. rewrite Hl. set_solver.
  - rewrite E, cons_middle, app_assoc in He. apply exec_split in He as (m1 & ts1 & ts2 & He1 & He2).
    eapply exec_locked; [| |by apply no_lift|exact He2].
    + apply exec_told in He1. rewrite foldl_app in He1. simpl in He1. unfold told_of at 1 in He1. injection He1 as _ Hl _.
      unfold TunnelProps.locked. by rewrite Hl.
    + apply machine_protected_secured. eapply exec_protected; [exact Hp| |exact He1]. rewrite forallb_app, no_ask; [done..|by rewrite H1'].
Qed.
End protection.

Section linux.
Context {CustomProxy : Type} `{EqDecision CustomProxy} `{Curve} `{SettingsJson CustomProxy}.
Context `{O : IpNetworkOps} {K : Type} `{NF : Netfilter K} `{HS : HostServices K}.
Context (env : fw_env) (fw : Firewall) `{N : Nftables} {NL : NftablesLaws N} {NFL : NetfilterLaws K NF}.
Context {HSL : HostServicesLaws K NF HS}.
Notation Env := (@Daemon.Env CustomProxy).
Notation Event := (@InternalDaemonEvent CustomProxy).

(** C2. The kill switch as the user sees it.  From a system whose machine is not disconnected, with a policy
    in force and no command to disconnect pending, whatever events the daemon handles other than the user
    disconnecting or logging out, whatever the tunnel, the network and the host do and however all that
    interleaves, the running kernel accepts packets exactly as some policy of the machine permits. *)
Theorem user_kill_switch (s s' : @System CustomProxy K) events :
  @guarded _ K (linux_view env fw) s -> @system_run _ _ _ _ _ K (linux_platform env fw) (linux_view env fw) s events s' ->
  forallb (fun e => negb (gives_up e)) events = true ->
  exists policy, kernel_follows env fw (world (machine_st (machine s'))) policy.
Proof.
  intros Hg Hrun Hev. pose proof (linux_platform_laws env fw) as Hlaws.
  assert (Hg' : @guarded _ K (linux_view env fw) s').
  { eapply system_invariant; [|exact Hrun|exact Hev|exact Hg]. 
    intros s1 l s2 Hs Hok Hg1. exact (guarded_step s1 l s2 Hs Hok Hg1). }
  destruct Hg' as [(x & st & -> & _ & _ & [q Hq]) _]. exists q. by apply enforced_packets.
Qed.

(** C5. No gap at shutdown.  Let the daemon be shut down other than by the user while the target state is
    secured or it is to connect when it starts again.  If at that moment a policy is in force and the machine
    is neither disconnected nor on its way there ([protected]), and none of the commands the machine has yet
    to take is to disconnect, then through the end of the tunnel, of the daemon and of the machine the kernel
    accepts packets exactly as some policy permits, whatever happens in between. *)
Theorem no_gap_at_shutdown denv d d1 es1 (events : list (Env * Event)) d2 es2 rest x st cs inputs ts m' :
  Daemon.handle_event denv (TriggerShutdown false) d = (true, d1, es1) ->
  is_secured (target d) || Settings.auto_connect (current_settings d) = true ->
  disconnect_tunnel_and_wait events d1 = (d2, es2, rest) ->
  @protected K (linux_view env fw) x st -> CmdDisconnect ∉ cs ->
  winds_up (cs ++ tunnel_commands (es1 ++ es2)) inputs ->
  @exec K (linux_platform env fw) (linux_view env fw) (Running x st) inputs ts m' ->
  exists policy, kernel_follows env fw (world (machine_st m')) policy.
Proof.
  intros E Hs Hw Hp Hcs Hup He. pose proof (linux_platform_laws env fw) as Hlaws.
  apply shutdown_commands in E. rewrite Hs in E. apply wait_commands in Hw.
  assert (Hall : tunnel_commands (es1 ++ es2) = CmdLockdownMode LockdownMode_yes NOBODY :: CmdDisconnect :: tunnel_commands es2).
  { unfold tunnel_commands in *. by rewrite omap_app, E. }
  rewrite Hall in Hup.
  assert (Hsec : @secured K (linux_view env fw) (machine_st m')).
  { eapply (shutdown_secured (L := Hlaws)); [exact Hp|exact Hcs| | |exact Hup|exact He]; [done|]. by constructor. }
  destruct Hsec as [q Hq]. exists q. by apply enforced_packets.
Qed.
End linux.
