(* ===== verification/ParametersGenerator.v ===== *)
(** * From the settings to the parameters of a tunnel

    [src/mullvad-daemon/src/tunnel.rs]: the generator that the tunnel state machine asks for the parameters
    of each attempt, with [src/mullvad-types/src/custom_tunnel.rs] for tunnels to an endpoint of the user's
    own.  The name resolution of the system, the answer of the account manager and the random numbers of the
    relay selector are arguments; [key_text] writes a key of a device the way [NetTypes] has keys. *)

From stdpp Require Import base list strings gmap option numbers sets.
From S2P Require Import Prelude Retry DeviceService DeviceManager AccessMethods NetTypes TunnelTypes FirewallPolicy.
From S2P Require Import RelayTypes RelayTypesProps RelaySelector RelayProps Settings SettingsPersister Daemon.
Local Open Scope vpn_scope.

(** ** Tunnels to an endpoint of the user's own *)
Inductive CustomTunnelError : Type := InvalidHost (host : string) | HostHasNoIpv4 (host : string).

Definition is_ipv4 (a : IpAddr) : bool := match a with V4 _ => true | V6 _ => false end.

(** [pop] takes the last. *)
Definition resolve_to_ip (to_socket_addrs : string -> option (list IpAddr)) (host : string) : result IpAddr CustomTunnelError :=
  match to_socket_addrs host with
  | None => Err (InvalidHost host)
  | Some addrs =>
      let '(ipv4, ipv6) := List.partition is_ipv4 addrs in
      match last ipv4 with
      | Some a => Ok a
      | None => match last ipv6 with Some a => Ok a | None => Err (HostHasNoIpv4 host) end
      end
  end.

Definition set_ip (ip : IpAddr) (c : ConnectionConfig) : ConnectionConfig :=
  let p := peer c in
  {| cc_tunnel := cc_tunnel c;
     peer := {| NetTypes.public_key := NetTypes.public_key p; allowed_ips := allowed_ips p;
                peer_endpoint := {| sa_ip := ip; sa_port := sa_port (peer_endpoint p) |}; psk := psk p;
                constant_packet_size := constant_packet_size p |};
     exit_peer := exit_peer c; cc_ipv4_gateway := cc_ipv4_gateway c; cc_ipv6_gateway := cc_ipv6_gateway c;
     cc_fwmark := cc_fwmark c |}.

Definition without_quantum (o : TunnelOptions) : TunnelOptions :=
  {| mtu := mtu o; quantum_resistant := false; NetTypes.daita := NetTypes.daita o; userspace := userspace o |}.

Definition to_tunnel_parameters (to_socket_addrs : string -> option (list IpAddr)) (e : CustomTunnelEndpoint)
    (tunnel_options : DaemonTunnelOptions) : result TunnelParameters CustomTunnelError :=
  ip <-? resolve_to_ip to_socket_addrs (host e);
  Ok {| connection := set_ip ip (config e);
        options := without_quantum (into_talpid_tunnel_options (wireguard tunnel_options));
        generic_options := generic tunnel_options; NetTypes.obfuscation := None |}.

(** ** The selector *)
Record Config : Type := { query : RelayQuery; config_lists : CustomListsSettings }.

Section generator.
Context {CustomProxy : Type}.
Notation Settings := (Settings CustomProxy).

Definition Config_from (s : Settings) : Config :=
  {| query := RelayQuery_from (selector_settings s); config_lists := custom_lists s |}.

Record Selector : Type := { selector_config : Config; relays : AnnotatedRelayList }.
Definition set_config (s : Settings) (x : Selector) : Selector := {| selector_config := Config_from s; relays := relays x |}.
Definition selector_set_custom_lists (l : CustomListsSettings) (x : Selector) : Selector :=
  {| selector_config := {| query := query (selector_config x); config_lists := l |}; relays := relays x |}.
(** [None] where annotating the list panics. *)
Definition set_relays (l : RelayList) (x : Selector) : option Selector :=
  (fun r => {| selector_config := selector_config x; relays := r |}) <$> AnnotatedRelayList_new l.

(** ** The generator *)
Record LastSelectedRelays : Type := {
  last_config : WireguardConfig; has_obfuscator : bool; server_override : bool
}.

Record Generator : Type := {
  relay_selector : Selector;
  gen_relay_settings : RelaySettings;
  gen_tunnel_options : DaemonTunnelOptions;
  last_generated_relays : option LastSelectedRelays;
}.

Definition Generator_new (x : Selector) (r : RelaySettings) (o : DaemonTunnelOptions) : Generator :=
  {| relay_selector := x; gen_relay_settings := r; gen_tunnel_options := o; last_generated_relays := None |}.

Definition gen_set_tunnel_options (o : DaemonTunnelOptions) (g : Generator) : Generator :=
  {| relay_selector := relay_selector g; gen_relay_settings := gen_relay_settings g; gen_tunnel_options := o;
     last_generated_relays := last_generated_relays g |}.

Definition gen_set_settings (s : Settings) (g : Generator) : Generator :=
  {| relay_selector := set_config s (relay_selector g); gen_relay_settings := relay_settings s;
     gen_tunnel_options := gen_tunnel_options g; last_generated_relays := last_generated_relays g |}.

Definition gen_set_last (l : option LastSelectedRelays) (g : Generator) : Generator :=
  {| relay_selector := relay_selector g; gen_relay_settings := gen_relay_settings g;
     gen_tunnel_options := gen_tunnel_options g; last_generated_relays := l |}.

Definition gen_last_relay_was_overridden (g : Generator) : bool :=
  match last_generated_relays g with None => false | Some relays => server_override relays end.

Definition get_last_location (g : Generator) : option GeoIpLocation :=
  relays ← last_generated_relays g;
  let '(entry, exit, obfuscator) :=
    match last_config relays with
    | Singlehop exit => (None, exit, if has_obfuscator relays then Some exit else None)
    | Multihop exit entry => (Some entry, exit, if has_obfuscator relays then Some entry else None)
    end in
  let location := RelayTypes.location (inner exit) in
  Some {| geo_ipv4 := None; geo_ipv6 := None; geo_country := country_name location; geo_city := Some (city_name location);
          geo_latitude := latitude location; geo_longitude := longitude location; mullvad_exit_ip := true;
          geo_hostname := Some (hostname (inner exit)); entry_hostname := (fun r => hostname (inner r)) <$> entry;
          obfuscator_hostname := (fun r => hostname (inner r)) <$> obfuscator |}.

(** ** Generating *)
Inductive GeneratorError : Type :=
| NoAuthDetails | SelectRelay (e : SelectorError) | ResolveCustomHostname | DeviceFailure (e : Error).

Definition TUNNEL_FWMARK : Z := 1836018789.

Context (key_text : Key -> string) (to_socket_addrs : string -> option (list IpAddr)).

Definition create_wireguard_tunnel_parameters (o : DaemonTunnelOptions) (endpoint : MullvadEndpoint)
    (data : PrivateAccountAndDevice) (obfuscator_config : option Obfuscators) : TunnelParameters :=
  let wg := wg_data (device data) in
  {| connection :=
       {| cc_tunnel := {| NetTypes.private_key := key_text (DeviceService.private_key wg);
                          NetTypes.addresses := [V4 (ipv4_address (DeviceService.addresses wg)).1;
                                                 V6 (ipv6_address (DeviceService.addresses wg)).1] |};
          peer := me_peer endpoint; exit_peer := me_exit_peer endpoint; cc_ipv4_gateway := me_ipv4_gateway endpoint;
          cc_ipv6_gateway := Some (me_ipv6_gateway endpoint); cc_fwmark := Some TUNNEL_FWMARK |};
     options := into_talpid_tunnel_options (wireguard o); generic_options := generic o;
     NetTypes.obfuscation := obfuscator_config |}.

Definition gen_device (data : result PrivateDeviceState Error) : result PrivateAccountAndDevice GeneratorError :=
  state <-? map_err DeviceFailure data; ok_or (state_device state) NoAuthDetails.

Definition overridden (endpoint : MullvadEndpoint) (inner : WireguardConfig) : bool :=
  let first_relay := match inner with Singlehop exit => exit | Multihop _ entry => entry end in
  match sa_ip (peer_endpoint (me_peer endpoint)) with
  | V4 _ => overridden_ipv4 first_relay
  | V6 _ => overridden_ipv6 first_relay
  end.

Section generate.
Context {S : Type} `{Rng S} `{Geography} (staggered : bool).

(** [None] where the selector panics. *)
Definition generate_inner (data : result PrivateDeviceState Error) (retry_attempt : nat) (a : IpAvailability) (g : Generator)
  : R S (option (Generator * result TunnelParameters GeneratorError)) :=
  match gen_relay_settings g with
  | CustomEndpoint endpoint =>
      retR (Some (gen_set_last None g,
                  map_err (fun _ => ResolveCustomHostname) (to_tunnel_parameters to_socket_addrs endpoint (gen_tunnel_options g))))
  | Normal _ =>
      match gen_device data with
      | Err e => retR (Some (g, Err e))
      | Ok data =>
          let x := relay_selector g in
          r <~ get_relay staggered (relays x) (config_lists (selector_config x)) (query (selector_config x)) retry_attempt a;
          retR match r with
               | None => None
               | Some (Err e) => Some (g, Err (SelectRelay e))
               | Some (Ok selected) =>
                   let last :=
                     {| last_config := gr_inner selected; has_obfuscator := bool_decide (is_Some (gr_obfuscator selected));
                        server_override := overridden (gr_endpoint selected) (gr_inner selected) |} in
                   Some (gen_set_last (Some last) g,
                         Ok (create_wireguard_tunnel_parameters (gen_tunnel_options g) (gr_endpoint selected) data
                               (gr_obfuscator selected)))
               end
      end
  end.

Definition ParameterGenerationError_from (e : GeneratorError) : ParameterGenerationError :=
  match e with
  | ResolveCustomHostname => CustomTunnelHostResolutionError
  | SelectRelay (RelaySelector.IpVersionUnavailable family) => TunnelTypes.IpVersionUnavailable family
  | SelectRelay (NoRelayEntry _) => NoMatchingRelayEntry
  | SelectRelay (NoRelayExit _) => NoMatchingRelayExit
  | NoAuthDetails | SelectRelay _ | DeviceFailure _ => NoMatchingRelay
  end.

Definition generate (data : result PrivateDeviceState Error) (retry_attempt : nat) (a : IpAvailability) (g : Generator)
  : R S (option (Generator * result TunnelParameters ParameterGenerationError)) :=
  r <~ generate_inner data retry_attempt a g;
  retR ((fun x => (x.1, map_err ParameterGenerationError_from x.2)) <$> r).
End generate.
End generator.

(** ** Theorems *)
Section props.
Context {CustomProxy : Type} (key_text : Key -> string) (to_socket_addrs : string -> option (list IpAddr)).
Context {S : Type} `{RNG : Rng S} {RL : RngLaws S RNG} `{GEO : Geography}.
Implicit Types s : Settings CustomProxy.

(** The generator has the settings, once the tasks that pass them on have run. *)
Definition has_settings s (g : Generator) : Prop :=
  gen_relay_settings g = relay_settings s /\ gen_tunnel_options g = tunnel_options s
  /\ selector_config (relay_selector g) = Config_from s.

Lemma set_settings_has s (g : Generator) : has_settings s (gen_set_tunnel_options (tunnel_options s) (gen_set_settings s g)).
Proof. done. Qed.

(** Resolving fails exactly if the name cannot be looked up or has no address. *)
Lemma resolve_fails name :
  (exists ip, resolve_to_ip to_socket_addrs name = Ok ip) <-> exists a l, to_socket_addrs name = Some (a :: l).
Proof.
  unfold resolve_to_ip. destruct (to_socket_addrs name) as [l|]; [|naive_solver].
  rewrite List.partition_as_filter. destruct l as [|a l]; [naive_solver|].
  split; [eauto|]. intros _. destruct (last (List.filter is_ipv4 (a :: l))) eqn:E4; [eauto|].
  destruct (last (List.filter (fun x => negb (is_ipv4 x)) (a :: l))) eqn:E6; [eauto|].
  apply last_None in E4, E6. simpl in *. by destruct (is_ipv4 a).
Qed.

(** The address is one the name has, and an IPv4 one if there is any. *)
Lemma resolve_ok name ip l :
  to_socket_addrs name = Some l -> resolve_to_ip to_socket_addrs name = Ok ip ->
  ip ∈ l /\ (is_ipv4 ip = false -> Forall (fun a => is_ipv4 a = false) l).
Proof.
  unfold resolve_to_ip. intros ->. rewrite List.partition_as_filter.
  destruct (last (List.filter is_ipv4 l)) as [x|] eqn:E4.
  - intros [= <-]. apply last_Some_elem_of, list_elem_of_In, List.filter_In in E4 as [Hx H4].
    split; [by apply list_elem_of_In | by rewrite H4].
  - destruct (last (List.filter (fun x => negb (is_ipv4 x)) l)) as [x|] eqn:E6; [|done]. intros [= <-].
    apply last_Some_elem_of, list_elem_of_In, List.filter_In in E6 as [Hx H6].
    split; [by apply list_elem_of_In|]. intros _. apply last_None in E4. apply Forall_forall. intros a Ha%list_elem_of_In.
    destruct (is_ipv4 a) eqn:E; [|done]. assert (Hin : In a (List.filter is_ipv4 l)) by (by apply List.filter_In).
    by rewrite E4 in Hin.
Qed.

(** What the parameters of a tunnel are, for the user's own endpoint and otherwise. *)
Definition custom_parameters (e : CustomTunnelEndpoint) (o : DaemonTunnelOptions) (p : TunnelParameters) : Prop :=
  exists ip, resolve_to_ip to_socket_addrs (host e) = Ok ip /\ connection p = set_ip ip (config e)
    /\ options p = without_quantum (into_talpid_tunnel_options (wireguard o)) /\ NetTypes.obfuscation p = None.

(** The location clients are shown: the exit's, with the names of the exit, of the entry if there are two hops, and
    of the relay that is connected to if there is an obfuscator. *)
Definition location_of (selected : GetRelay) : GeoIpLocation :=
  let exit := inner (exit_of (gr_inner selected)) in
  {| geo_ipv4 := None; geo_ipv6 := None; geo_country := country_name (RelayTypes.location exit);
     geo_city := Some (city_name (RelayTypes.location exit)); geo_latitude := latitude (RelayTypes.location exit);
     geo_longitude := longitude (RelayTypes.location exit); mullvad_exit_ip := true; geo_hostname := Some (hostname exit);
     entry_hostname := match gr_inner selected with Singlehop _ => None | Multihop _ entry => Some (hostname (inner entry)) end;
     obfuscator_hostname := match gr_obfuscator selected with
                            | None => None
                            | Some _ => Some (hostname (inner (entry_of (gr_inner selected))))
                            end |}.

(** Why there are no parameters. *)
Definition reason (l : AnnotatedRelayList) s (a : IpAvailability) (data : result PrivateDeviceState Error)
    (e : ParameterGenerationError) : Prop :=
  let asked := RelayQuery_from (selector_settings s) in
  let with_versions P := exists q, apply_ip_availability asked a = Ok q /\ P q in
  match relay_settings s with
  | CustomEndpoint c => e = CustomTunnelHostResolutionError /\ forall x l, to_socket_addrs (host c) <> Some (x :: l)
  | Normal _ =>
      match e with
      | NoMatchingRelay =>
          (forall d, data <> Ok (LoggedIn d))
          \/ with_versions (fun q => (exists c, hops q = SingleHop c /\ no_single l (custom_lists s) c) \/ no_endpoint l (custom_lists s) q)
      | NoMatchingRelayEntry => with_versions (no_entry l (custom_lists s))
      | NoMatchingRelayExit => with_versions (no_exit l (custom_lists s))
      | TunnelTypes.IpVersionUnavailable v =>
          exists v', ip_version (query_entry_specific asked) = Only v /\ runtime_constraint a = Only v' /\ v <> v'
      | NoMatchingBridgeRelay | CustomTunnelHostResolutionError => False
      end
  end.

Definition relay_parameters (l : AnnotatedRelayList) s (a : IpAvailability) (data : result PrivateDeviceState Error)
    (p : TunnelParameters) (g : Generator) : Prop :=
  exists d selected,
    data = Ok (LoggedIn d) /\ relay_ok l (custom_lists s) (RelayQuery_from (selector_settings s)) selected
    /\ version_ok (runtime_constraint a) (sa_ip (peer_endpoint (peer (connection p))))
    /\ peer (connection p) = me_peer (gr_endpoint selected) /\ exit_peer (connection p) = me_exit_peer (gr_endpoint selected)
    /\ NetTypes.obfuscation p = gr_obfuscator selected
    /\ NetTypes.private_key (cc_tunnel (connection p)) = key_text (DeviceService.private_key (wg_data (device d)))
    /\ NetTypes.addresses (cc_tunnel (connection p))
       = [V4 (ipv4_address (DeviceService.addresses (wg_data (device d)))).1; V6 (ipv6_address (DeviceService.addresses (wg_data (device d)))).1]
    /\ options p = into_talpid_tunnel_options (wireguard (tunnel_options s))
    /\ cc_fwmark (connection p) = Some TUNNEL_FWMARK
    /\ get_last_location g = Some (location_of selected)
    /\ gen_last_relay_was_overridden g
       = (let connected_to := match gr_inner selected with Singlehop r | Multihop _ r => r end in
          if is_ipv4 (sa_ip (peer_endpoint (peer (connection p)))) then overridden_ipv4 connected_to
          else overridden_ipv6 connected_to).

End props.

(** * Tunnel parameters on concrete settings

    The theorem of [ParametersGenerator] at default settings with the relays of [RelayExamples], and the
    address that is chosen for a host with several. *)
From S2P Require Import RelayExamples.

Definition default_user : Settings nat := Settings_default (1, 2, 3, 4).
Definition user_device : PrivateAccountAndDevice :=
  {| account_number := "1111";
     device := {| DeviceService.id := "a"; DeviceService.name := "happy seagull";
                  wg_data := {| DeviceService.private_key := [7%Z];
                                DeviceService.addresses := {| ipv4_address := (1, 32)%Z; ipv6_address := (2, 128)%Z |}; key_created := 0 |};
                  hijack_dns := false; created := 0 |} |}.

Definition generator_example : Generator :=
  Generator_new {| selector_config := Config_from default_user; relays := ex_annotated |} (relay_settings default_user) (tunnel_options default_user).

Definition one_key (k : Key) : string := "key".
Definition names (host : string) : option (list IpAddr) :=
  if String.eqb host "vpn.example.org" then Some [V4 1; V6 3; V4 2] else None.

Definition generated : option (Generator * result TunnelParameters ParameterGenerationError) :=
  outcome (generate one_key names false (Ok (LoggedIn user_device)) 0 AvailIpv4 generator_example) 0.


(** [resolve_to_ip] is documented to return the first IPv4 address; it returns the last. *)
Theorem resolve_takes_last : resolve_to_ip names "vpn.example.org" = Ok (V4 2).
Proof. reflexivity. Qed.
