(* ===== verification/DaemonExamples.v ===== *)
(** * The daemon at work

    A daemon on the host of [TunnelExamples] that connects when it starts: the theorems about the settings, the
    daemon and the whole system applied to it, and runs that show behaviour the code does not mean to have. *)

From stdpp Require Import base list strings gmap option numbers sets.
From S2P Require Import Prelude Retry DeviceService DeviceManager AccessMethods NetTypes TunnelTypes FirewallPolicy.
From S2P Require Import Nftables FirewallLinux FirewallSpec FirewallRefine FirewallApply FirewallProps.
From S2P Require Import TunnelStateMachine TunnelWp TunnelHandlers TunnelProps TunnelTold LinuxPlatform TunnelExamples.
From S2P Require Import TargetState SettingsPatch SettingsPatchProps RelayTypes RelaySelector RelayProps Settings.
From S2P Require Import SettingsPersister SettingsProps Daemon DaemonSteps DaemonSync DaemonReplies.
From S2P Require Import DaemonReplies DaemonTunnel DaemonLinux ParametersGenerator.
Local Open Scope vpn_scope.

Notation Proxy := nat (only parsing).

Definition curve_identity : Curve := fun k => k.
#[local] Existing Instance curve_identity.

(** ** Settings as JSON
    Settings that differ from [user_settings] in overrides without addresses only have a text here. *)
Definition user_settings : Settings Proxy :=
  Settings.set_rollout_threshold_seed (Some 42%Z) (set_auto_connect true (Settings_default (1, 2, 3, 4))).

Definition override_of (name : string) : RelayTypes.RelayOverride :=
  {| ov_hostname := name; ov_ipv4_addr_in := None; ov_ipv6_addr_in := None |}.

Definition write_override (o : RelayTypes.RelayOverride) : Value := Object [("hostname", Str (ov_hostname o))].
Definition read_override (v : Value) : option RelayTypes.RelayOverride :=
  match v with
  | Object m => match map_get "hostname" m with Some (Str name) => Some (override_of name) | _ => None end
  | _ => None
  end.

Definition patch_text : string := "relay_overrides: se-got-wg-001".
Definition patch_value : Value := Object [("relay_overrides", Array [Object [("hostname", Str "se-got-wg-001")]])].

#[local] Instance json_example : SettingsJson Proxy := {
  to_value s :=
    if decide (s = set_relay_overrides (map override_of (map ov_hostname (relay_overrides s))) user_settings)
    then Some (Object [("settings_version", Number 16); ("relay_overrides", Array (map write_override (relay_overrides s)))])
    else None;
  from_value v :=
    match v with
    | Object m =>
        match map_get "settings_version" m, map_get "relay_overrides" m with
        | Some (Number 16), Some (Array l) =>
            (fun o => set_relay_overrides o user_settings) <$> mapM read_override l
        | _, _ => None
        end
    | _ => None
    end;
  from_str text := if String.eqb text patch_text then Some patch_value else None;
}.

#[local] Instance json_example_laws : SettingsJsonLaws Proxy.
Proof.
  split.
  - intros s v. simpl. case_decide; [|done]. intros [= <-]. eauto.
  - intros text v. simpl. case_match; [|done]. intros [= <-]. simpl. by repeat split; try apply NoDup_singleton.
  - intros s m m' s' Hm Hs _. simpl in *. case_decide as E; [|done].
    destruct (map_get "settings_version" m') as [[| |[|p|]| | |]|]; try done. repeat (destruct p; try done).
    destruct (map_get "relay_overrides" m') as [[| | | |l|]|]; try done.
    apply fmap_Some in Hs as (o & _ & ->). rewrite E. done.
Qed.

(** ** The daemon *)
Definition no_relays : RelayList :=
  {| countries := []; RelayTypes.wireguard := {| port_ranges := []; ed_ipv4_gateway := 0; ed_ipv6_gateway := 0;
                                                 shadowsocks_port_ranges := []; udp2tcp_ports := [] |} |}.

Definition env_works : Env := {|
  store := fun _ : Settings Proxy => None; removable := true; fresh_ids := (5, 6, 7, 8); beta := false; target_write_fails := None;
  history_write := HistoryWritten; now := 0; account_data := Ok LoggedOut; last_relay_was_overridden := false;
  last_location := None; relay_list := no_relays; distance := fun _ _ => 0%Z; use_access_method := true; resolved := Ok true;
  pids := None; pid_done := true; pids_supported := true; fresh_list_id := 0; fresh_method_id := 9; fresh_seed := 0;
  migration_complete := true |}.

Definition start_works (s : Settings Proxy) : StartEnv := {|
  start_store := fun _ => None; start_beta := false; start_ids := (1, 2, 3, 4); settings_file := Parsed (Some s);
  management_interface := true; rpc_factory := true; access_selector := true; account_manager := Ok LoggedOut; history_opened := true;
  start_history_write := HistoryWritten; start_history_file := None; start_target_write_fails := None;
  start_target_file := NotFound; route_manager := true; current_endpoint := Ok ex_api; tunnel_machine := true; start_seed := 42 |}.

(** ** Running the system *)
Inductive Action : Type :=
| Deliver
| Handle (e : @InternalDaemonEvent Proxy)
| Report (c : Connectivity)
| Take
| Happen (i : Input).

Definition act (a : Action) (s : @System Proxy RefKernel) : option (System * option (@InternalDaemonEvent Proxy)) :=
  let handle e ts :=
    match handle_event env_works e (daemon s) with
    | (false, d, es) => Some ({| daemon := d; commands := commands s ++ tunnel_commands es; machine := machine s; transitions := ts |}, Some e)
    | _ => None
    end in
  let input i cs :=
    '(m, t) ← iterate (machine s) i true;
    Some ({| daemon := daemon s; commands := cs; machine := m; transitions := transitions s ++ option_list t |}, None) in
  match a with
  | Deliver => match transitions s with t :: ts => handle (TunnelTransition t) ts | [] => None end
  | Handle e => match e with TunnelTransition _ => None | _ => handle e (transitions s) end
  | Report c => Some ({| daemon := daemon s; commands := commands s ++ [CmdConnectivity c]; machine := machine s;
                         transitions := transitions s |}, None)
  | Take => match commands s with c :: cs => input (InCommand (Some c)) cs | [] => None end
  | Happen i => match i with InCommand _ => None | _ => input i (commands s) end
  end.

Fixpoint acts (l : list Action) (s : System) : option (System * list (@InternalDaemonEvent Proxy)) :=
  match l with
  | [] => Some (s, [])
  | a :: l => '(s, e) ← act a s; '(s, es) ← acts l s; Some (s, option_list e ++ es)
  end.

Lemma act_sound a s s' e : act a s = Some (s', e) -> system_step s e s'.
Proof.
  destruct s as [d cs m ts]. destruct a as [|ev|c| |i]; unfold act; cbn [daemon commands machine transitions].
  - destruct ts as [|t ts]; [done|]. destruct (handle_event env_works (TunnelTransition t) d) as [[[] d'] es] eqn:E; [done|].
    intros [= <- <-]. by eapply step_transition.
  - intros Ha. assert (Hne : forall t, ev <> TunnelTransition t) by (intros t ->; done).
    assert (Hh : match handle_event env_works ev d with
                 | (false, d', es) => Some ({| daemon := d'; commands := cs ++ tunnel_commands es; machine := m; transitions := ts |}, Some ev)
                 | _ => None end = Some (s', e)) by (destruct ev; [by destruct (Hne t) | exact Ha..]).
    destruct (handle_event env_works ev d) as [[[] d'] es] eqn:E; [done|]. injection Hh as <- <-. by eapply step_event.
  - intros [= <- <-]. apply step_connectivity.
  - destruct cs as [|c cs]; [done|]. intros ([m' t] & E & [= <- <-])%bind_Some. by apply step_command.
  - intros Ha. assert (Hne : forall c, i <> InCommand c) by (intros c ->; done).
    assert (Hi : ('(m', t) ← iterate m i true;
                  Some ({| daemon := d; commands := cs; machine := m'; transitions := ts ++ option_list t |}, None)) = Some (s', e))
      by (destruct i; [by destruct (Hne command) | exact Ha..]).
    apply bind_Some in Hi as ([m' t] & E & [= <- <-]). by eapply step_tunnel.
Qed.

Lemma acts_sound l s s' es : acts l s = Some (s', es) -> system_run s es s'.
Proof.
  revert s es. induction l as [|a l IH]; intros s es; simpl; [intros [= <- <-]; constructor|].
  intros ([s1 e] & Ha & ([s2 es'] & Hl & [= <- <-])%bind_Some)%bind_Some. econstructor; [by eapply act_sound | by apply IH].
Qed.

(** ** A session
    The daemon starts and connects; the user shares the local network, asks for a name server, and applies a
    patch. *)
Definition s_start : option (@System Proxy RefKernel) :=
  match initial_system (start_works user_settings) PresumeOnline ex_kernel with Ok s => Some s | Err _ => None end.

Definition custom_dns : DnsOptions :=
  {| dns_state := DnsStateCustom; default_options := DefaultDnsOptions_new; custom_addresses := [V4 (Ipv4Addr_new 9 9 9 9)] |}.

Definition connecting_actions : list Action :=
  [Take; Deliver; Happen (InEvent (Some (EvInterfaceUp ex_tunnel TrafficAll))); Happen (InEvent (Some (EvUp ex_tunnel))); Deliver].

Definition session_actions : list Action :=
  connecting_actions ++
  [Handle (DaemonCmd (ApplyJsonSettings 1 patch_text)); Handle (DaemonCmd (SetAllowLan 2 true)); Take; Take;
   Handle (DaemonCmd (SetDnsOptions 3 custom_dns)); Happen (InClose (Some None)); Take; Deliver; Deliver;
   Happen (InEvent (Some (EvInterfaceUp ex_tunnel TrafficAll))); Happen (InEvent (Some (EvUp ex_tunnel))); Deliver;
   Handle SettingsChanged].

Definition s_of (l : list Action) : option (System * list (@InternalDaemonEvent Proxy)) := s_start ≫= acts l.

Lemma session_facts :
  match s_of session_actions with
  | Some (s, ev) =>
      commands s = [] /\ transitions s = [] /\ target (daemon s) = Secured
      /\ forallb (fun e => negb (resets e)) ev = true /\ forallb (fun e => negb (locks_down e)) ev = true
      /\ Settings.allow_lan (current_settings (daemon s)) = true
      /\ addresses_from_options (dns_options (tunnel_options (current_settings (daemon s)))) = DnsOverride [V4 (Ipv4Addr_new 9 9 9 9)] []
      /\ match machine s with Running x _ => kind x = KConnected | _ => False end
  | None => False
  end.
Proof. vm_compute. repeat split. Qed.

Lemma s_of_run l s ev :
  s_of l = Some (s, ev) ->
  exists s0, initial_system (start_works user_settings) PresumeOnline ex_kernel = Ok s0 /\ system_run s0 ev s.
Proof.
  unfold s_of, s_start. generalize (initial_system (start_works user_settings) PresumeOnline ex_kernel). intros [s0|]; [|done].
  simpl. intros E. exists s0. split; [done|]. by eapply acts_sound.
Qed.

Lemma session_run :
  match s_of session_actions with
  | Some (s, ev) =>
      exists s0, initial_system (start_works user_settings) PresumeOnline ex_kernel = Ok s0 /\ system_run s0 ev s
  | None => False
  end.
Proof.
  pose proof session_facts as Hf. destruct (s_of session_actions) as [[s ev]|] eqn:E; [|exact Hf]. exact (s_of_run _ _ _ E).
Qed.

Lemma target_pursued_witness :
  match s_of session_actions with
  | Some (s, _) => exists x st, machine s = Running x st /\ heading_out x = false
  | None => False
  end.
Proof.
  pose proof session_facts as Hf. pose proof session_run as Hr. destruct (s_of session_actions) as [[s ev]|]; [|exact Hr].
  destruct Hr as (s0 & H0 & Hr), Hf as (Hc & _ & Ht & _).
  destruct (target_pursued _ _ _ _ _ _ H0 Hr) as (x & st & Hm & Hh & _). exists x, st. split; [exact Hm | exact (Hh Ht Hc)].
Defined.

(** The local network is shared and the user's name server is the one allowed in the tunnel. *)
Lemma firewall_follows_user_witness :
  match s_of session_actions with
  | Some (s, _) =>
      exists x st, machine s = Running x st /\ lockdown_bool (TunnelStateMachine.lockdown_mode (sv st)) = false
        /\ exists peers metadata, enforces (world st)
             (FirewallPolicy.Connected peers metadata true {| tunnel_config := [V4 (Ipv4Addr_new 9 9 9 9)]; non_tunnel_config := [] |})
  | None => False
  end.
Proof.
  pose proof session_facts as Hf. pose proof session_run as Hr.
  assert (Hlm : match s_of session_actions with
                | Some (s, _) => Settings.lockdown_mode (current_settings (daemon s)) = false | None => False end)
    by (vm_compute; reflexivity).
  destruct (s_of session_actions) as [[s ev]|]; [|exact Hr].
  destruct Hr as (s0 & H0 & Hr), Hf as (Hc & _ & _ & Hev & Hld & Hlan & Hdns & Hk).
  destruct (firewall_follows_user _ _ _ _ _ _ H0 Hr Hc Hev) as (x & st & Hm & _ & Hl & Hp). exists x, st.
  rewrite Hm in Hk. rewrite Hlan, Hdns in Hp. split_and!; [exact Hm | rewrite (Hl Hld); exact Hlm |].
  destruct x as [| |data| |]; try discriminate Hk. exists (peer_endpoints_of (cd_parameters data)), (cd_metadata data). exact Hp.
Defined.

Lemma clients_see_tunnel_witness :
  match s_of session_actions with
  | Some (s, _) =>
      exists c st, machine s = Running (ConnectedState c) st /\ shown (tunnel_state (daemon s)) = TrConnected (connected_endpoint c)
  | None => False
  end.
Proof.
  pose proof session_facts as Hf. pose proof session_run as Hr. destruct (s_of session_actions) as [[s ev]|]; [|exact Hr].
  destruct Hr as (s0 & H0 & Hr), Hf as (_ & Ht & _ & _ & _ & _ & _ & Hk).
  destruct (clients_see_tunnel _ _ _ _ _ _ H0 Hr Ht) as [(x & st & Hm & Hv) _]. rewrite Hm in Hk.
  destruct x as [| |c| |]; try discriminate Hk. exists c, st. split; [exact Hm|].
  destruct (shown (tunnel_state (daemon s))) as [b|e|e|a|e]; simpl in Hv.
  - destruct Hv as [[=] _].
  - destruct Hv as (? & [=] & _).
  - destruct Hv as (c' & [= <-] & ->). reflexivity.
  - destruct Hv as (? & ? & [=]).
  - discriminate Hv.
Defined.

(** ** Connected, in trouble and shut down *)
Definition connected_policy : FirewallPolicy :=
  FirewallPolicy.Connected [ex_peer] ex_tunnel false {| tunnel_config := [V4 (Ipv4Addr_new 10 64 0 1)]; non_tunnel_config := [] |}.
Definition connected_batch : list batch_msg :=
  match FirewallLinux.finalize (env_at ex_env ex_kernel) connected_policy ex_fw with Ok b => b | Err _ => [] end.

Definition shutdown_wait : list (Env * @InternalDaemonEvent Proxy) :=
  map (pair env_works) [TunnelTransition (TrDisconnecting ActionNothing); NewAppVersionInfo; TunnelTransition (TrDisconnected true)].

Definition shutdown_ins : list Input :=
  [InCommand (Some (CmdLockdownMode LockdownMode_yes NOBODY)); InCommand (Some (CmdConnectivity Offline));
   InCommand (Some CmdDisconnect); InClose (Some None); InCommand (Some CmdDisconnect)].
Definition shutdown_inputs : list (Input * bool) := map (fun i => (i, true)) (shutdown_ins ++ [InCommand None]).

Lemma connected_facts :
  match s_of connecting_actions with
  | Some (s, _) =>
      commands s = [] /\ target (daemon s) = Secured
      /\ match machine s with
         | Running x st => heading_out x = false /\ live x /\ installed (world st) = Some (drop 3 connected_batch)
         | Stopped _ => False
         end
      /\ (let '(stop, d1, es1) := handle_event env_works (TriggerShutdown false) (daemon s) in
          let '(d2, es2, rest) := disconnect_tunnel_and_wait shutdown_wait d1 in
          stop = true /\ tunnel_commands (es1 ++ es2) = [CmdLockdownMode LockdownMode_yes NOBODY; CmdDisconnect; CmdDisconnect])
      /\ match run (machine s) shutdown_inputs with Some _ => true | None => false end = true
  | None => False
  end.
Proof. vm_compute. repeat split. Qed.

Lemma connected_protected x (st : St RefKernel) :
  heading_out x = false -> live x -> installed (world st) = Some (drop 3 connected_batch) -> protected x st.
Proof.
  intros Hh Hl Hi. split_and!; [done..|]. exists connected_policy. exists ex_kernel, connected_batch. split; [|done].
  vm_compute. reflexivity.
Qed.

(** The tunnel goes down, the host is offline for a while, the user changes settings. *)
Definition trouble_actions : list Action :=
  [Happen (InEvent (Some EvDown)); Report Offline; Handle (DaemonCmd (SetAllowLan 1 true)); Take; Deliver; Happen (InClose (Some None));
   Deliver; Report (Online AvailIpv4); Take; Handle (DaemonCmd (SetWireguardMtu 2 (Some 1280%Z))); Handle (DaemonCmd (Reconnect 3)); Take; Deliver].

Definition troubled (s : @System Proxy RefKernel) : System := match acts trouble_actions s with Some (s, _) => s | None => s end.

Lemma trouble_facts :
  match s_of connecting_actions with
  | Some (s, _) =>
      match acts trouble_actions s with Some (_, ev) => forallb (fun e => negb (gives_up e)) ev = true | None => False end
  | None => False
  end.
Proof. vm_compute. reflexivity. Qed.

Lemma user_kill_switch_witness :
  match s_of connecting_actions with
  | Some (s, _) => exists policy, kernel_follows ex_env ex_fw (world (machine_st (machine (troubled s)))) policy
  | None => False
  end.
Proof.
  pose proof connected_facts as Hf. pose proof trouble_facts as Ht. destruct (s_of connecting_actions) as [[s ev0]|]; [|exact Hf].
  destruct Hf as (Hc & _ & Hm & _). unfold troubled.
  destruct (acts trouble_actions s) as [[s' ev]|] eqn:E; [|contradiction Ht].
  refine (user_kill_switch ex_env ex_fw s s' ev _ (acts_sound _ _ _ _ E) Ht).
  destruct (machine s) as [x st|st] eqn:Es; [|contradiction Hm]. destruct Hm as (Hh & Hl & Hi).
  split; [exists x, st; split; [exact Es | by apply connected_protected] | rewrite Hc; apply not_elem_of_nil].
Defined.

Lemma run_to_exec m inputs :
  match run m inputs with Some _ => true | None => false end = true ->
  exists ts, exec m (map fst inputs) ts (run_to m inputs).
Proof. unfold run_to. destruct (run m inputs) as [[m' ts]|] eqn:E; [|done]. intros _. exists ts. by apply run_exec. Qed.

Lemma no_gap_at_shutdown_witness :
  match s_of connecting_actions with
  | Some (s, _) => exists policy, kernel_follows ex_env ex_fw (world (machine_st (run_to (machine s) shutdown_inputs))) policy
  | None => False
  end.
Proof.
  pose proof connected_facts as Hf. destruct (s_of connecting_actions) as [[s ev0]|]; [|exact Hf].
  destruct Hf as (Hc & Ht & Hm & Hs & Hr). destruct (run_to_exec _ _ Hr) as [ts He].
  destruct (handle_event env_works (TriggerShutdown false) (daemon s)) as [[stop d1] es1] eqn:E1.
  destruct (disconnect_tunnel_and_wait shutdown_wait d1) as [[d2 es2] rest] eqn:E2. destruct Hs as [-> Hs].
  destruct (machine s) as [x st|st]; [|contradiction Hm]. destruct Hm as (Hh & Hl & Hi).
  refine (no_gap_at_shutdown ex_env ex_fw _ _ _ _ _ _ _ _ _ _ [] _ _ _ E1 _ E2 (connected_protected x st Hh Hl Hi) _ _ He).
  - rewrite Ht. reflexivity.
  - apply not_elem_of_nil.
  - rewrite Hs. exists shutdown_ins, [InCommand None]. split; [reflexivity|]. split; [|right; split; reflexivity].
    unfold shutdown_ins. rewrite !not_elem_of_cons. repeat split; try discriminate. apply not_elem_of_nil.
Defined.

(** ** Answers, settings and reconnections *)
Definition running_daemon : @Daemon Proxy :=
  {| tunnel_state := Daemon.Disconnected None false; target_state := {| state := Secured; TargetState.locked := false |};
     target_file := Content (Some Secured); reconnection_job := None; jobs := 0;
     persister := {| settings := user_settings; file := Parsed (Some user_settings) |};
     account_history := {| history_file := None; number := None |}; device_checker := TunnelStateChangeHandler_new;
     request_id := 0; shutdown_tasks := [] |}.

Definition client_events : list (Env * @InternalDaemonEvent Proxy) :=
  map (pair env_works)
    [DaemonCmd (SetAllowLan 1 true); DaemonCmd (SetAllowLan 2 true); DaemonCmd (GetSettings 3); DaemonCmd (LoginAccount 4 "1234");
     DaemonCmd (FactoryReset 5); TriggerShutdown false; DaemonCmd (GetState 6)].

Lemma clients_answered_witness :
  exists d es rest,
    handle_events client_events running_daemon = (d, es, rest) /\ answered (es ++ (Daemon.finalize true true d).1) ≡ₚ [1; 2; 3; 4; 5].
Proof.
  destruct (handle_events client_events running_daemon) as [[d es] rest] eqn:E. exists d, es, rest. split; [reflexivity|].
  assert (Hr : waited (handled_tx client_events (handle_events client_events running_daemon).2) = [1; 2; 3; 4; 5])
    by (vm_compute; reflexivity).
  rewrite E in Hr. rewrite <- Hr. exact (clients_answered client_events running_daemon d es rest true true E eq_refl).
Defined.

Definition change_events : list (Env * @InternalDaemonEvent Proxy) :=
  map (pair env_works)
    [DaemonCmd (SetTargetState 1 Unsecured); DaemonCmd (SetWireguardMtu 2 (Some 1280%Z)); DaemonCmd (SetTargetState 3 Secured);
     DaemonCmd (SetEnableIpv6 4 true)].

Lemma settings_take_effect_witness : Tunnel CmdConnect ∈ (handle_events change_events running_daemon).1.2.
Proof.
  assert (Ht : target (handle_events change_events running_daemon).1.1 = Secured) by (vm_compute; reflexivity).
  assert (Hm : wg_mtu (wireguard (tunnel_options (current_settings (handle_events change_events running_daemon).1.1))) = Some 1280%Z)
    by (vm_compute; reflexivity).
  destruct (handle_events change_events running_daemon) as [[d es] rest] eqn:E.
  destruct (settings_take_effect change_events running_daemon d es rest E eq_refl Ht) as [Hc|[_ Hp]]; [exact Hc|].
  exfalso. apply (f_equal (fun x => x.1.2.1.1)) in Hp. unfold connection_part in Hp. simpl in Hp, Hm. congruence.
Defined.

(** The disk is full for a while. *)
Definition store_fails (s : Settings Proxy) : option SettingsError := Some WriteError.
Definition survival_ops : list (@Operation Proxy) :=
  [Change (fun _ => None) (fun s => Ok (Settings.set_allow_lan true s)); Change store_fails (fun s => Ok (Settings.set_lockdown_mode false s));
   Change (fun _ => None) (fun s => Ok (set_auto_connect true s)); Reset store_fails (5, 6, 7, 8) true].

Lemma settings_survive_witness :
  exists p ns es,
    apply_ops false survival_ops (SettingsPersister.load (fun _ => None) false (1, 2, 3, 4) (Parsed None)) = (p, ns, es)
    /\ (exists ids, restarted false ids p = persisted (settings p)) /\ last ns = Some (Settings_default (5, 6, 7, 8)).
Proof.
  assert (Hns : last (apply_ops false survival_ops (SettingsPersister.load (fun _ => None) false (1, 2, 3, 4) (Parsed None))).1.2
                = Some (Settings_default (5, 6, 7, 8))) by (vm_compute; reflexivity).
  assert (Hes : (apply_ops false survival_ops (SettingsPersister.load (fun _ => None) false (1, 2, 3, 4) (Parsed None))).2 = [WriteError])
    by (vm_compute; reflexivity).
  destruct (apply_ops false survival_ops _) as [[p ns] es] eqn:E. exists p, ns, es. split; [reflexivity|].
  assert (Hd : DeleteError ∉ es) by (simpl in Hes; rewrite Hes; rewrite not_elem_of_cons; split; [discriminate | apply not_elem_of_nil]).
  destruct (settings_survive false (fun _ => None) (1, 2, 3, 4) (Parsed None) survival_ops p ns es (fun _ => eq_refl) E Hd) as [Hids _].
  split; [exact Hids | exact Hns].
Defined.

(** ** What the code does not mean to do *)
(** A tunnel against the user's wish.  The machine is in the error state when the user disconnects; until
    the daemon has handled the transition it takes the tunnel to be in the error state, so a reconnection
    (of a client, or the one it has scheduled itself) starts a tunnel although the target state is unsecured. *)
Definition failed_actions : list Action :=
  connecting_actions ++ [Happen (InClose (Some (Some StartTunnelError))); Deliver].
Definition race_actions : list Action :=
  failed_actions ++ [Handle (DaemonCmd (SetTargetState 1 Unsecured)); Handle (DaemonCmd (Reconnect 2)); Take; Take; Deliver; Deliver].

Theorem reconnect_overrides_disconnect :
  match s_of race_actions with
  | Some (s, _) =>
      target (daemon s) = Unsecured /\ commands s = [] /\ transitions s = []
      /\ match machine s with Running x _ => kind x = KConnecting | Stopped _ => False end
  | None => False
  end.
Proof. vm_compute. repeat split. Qed.

(** The tasks that pass settings to the generator of tunnel parameters. *)
Definition generator_tasks (es : list (@Effect Proxy)) : list (Settings Proxy) :=
  omap (fun e => match e with Spawn (TaskSetSettings s) => Some s | _ => None end) es.

Definition country_events : list (Env * @InternalDaemonEvent Proxy) :=
  map (pair env_works) [DaemonCmd (SetRelaySettings 1 (Normal (in_country "no"))); DaemonCmd (SetRelaySettings 2 (Normal (in_country "fi")))].

(** Nothing orders these tasks: run the other way round, they leave the generator with settings that were
    replaced, and the tunnel that was asked for leads to another country than the settings name. *)
Theorem generator_left_behind (g : Generator) :
  let '(d, es, _) := handle_events country_events running_daemon in
  exists order, order ≡ₚ generator_tasks es
    /\ gen_relay_settings (foldl (fun g s => gen_set_settings s g) g order) = Normal (in_country "no")
    /\ relay_settings (current_settings d) = Normal (in_country "fi").
Proof.
  destruct (handle_events country_events running_daemon) as [[d es] rest] eqn:E.
  exists (reverse (generator_tasks es)). split; [apply reverse_Permutation|].
  assert (Hd : relay_settings (current_settings (handle_events country_events running_daemon).1.1) = Normal (in_country "fi"))
    by (vm_compute; reflexivity).
  assert (Hl : relay_settings <$> last (reverse (generator_tasks (handle_events country_events running_daemon).1.2))
               = Some (Normal (in_country "no"))) by (vm_compute; reflexivity).
  rewrite E in Hd, Hl. split; [|exact Hd]. apply fmap_Some in Hl as (s & (l & Hl)%last_Some & Hs).
  simpl in Hl. rewrite Hl, foldl_app. simpl. by rewrite Hs.
Qed.

(** The user's exit and entry are custom lists, the tunnel cannot be set up for lack of an entry, and the user
    adds locations to a list: with the exit's list the daemon connects again, with the entry's it does not. *)
Definition list_settings : Settings Proxy :=
  set_custom_lists [{| cl_id := 1; cl_name := "exits"; cl_locations := [Country "se"] |}; {| cl_id := 2; cl_name := "entries"; cl_locations := [] |}]
    (Settings.set_relay_settings
       (Normal {| rc_location := Only (InCustomList 1); rc_providers := Any; rc_ownership := Any;
                  wireguard_constraints :=
                    {| wc_ip_version := Any; wc_allowed_ips := Any; use_multihop := true; entry_location := Only (InCustomList 2);
                       entry_providers := Any; entry_ownership := Any |} |}) user_settings).

Definition blocked_daemon : @Daemon Proxy :=
  put_persister {| settings := list_settings; file := Parsed (Some list_settings) |}
    (put_tunnel_state (InError {| cause := TunnelParameterError NoMatchingRelayEntry; block_failure := None |}) running_daemon).

Definition fills (i : Z) (n : string) : CustomList := {| cl_id := i; cl_name := n; cl_locations := [Country "fi"] |}.
Definition sent (c : @DaemonCommand Proxy) (d : @Daemon Proxy) : list TunnelCommand :=
  tunnel_commands (handle_event env_works (DaemonCmd c) d).2.

Theorem entry_list_change_ignored :
  target blocked_daemon = Secured
  /\ sent (UpdateCustomList 1 (fills 2 "entries")) blocked_daemon = []
  /\ sent (UpdateCustomList 1 (fills 1 "exits")) blocked_daemon = [CmdConnect].
Proof. vm_compute. repeat split. Qed.
