(* ===== verification/Routing.v ===== *)
(** * The route manager of Linux

    [src/talpid-routing/src/lib.rs], [src/talpid-routing/src/unix/mod.rs] and [unix/linux.rs]: the routes of
    the tunnel, the rules that send packets without the tunnel's mark to the table of the tunnel, and the
    task that keeps both.  The kernel's side of netlink is the class [Rtnetlink]; what the documentation of
    rtnetlink says of it is [RtnetlinkLaws], in terms of [fib_lookup], the decision of policy routing. *)

From stdpp Require Import base list strings option numbers gmap.
From S2P Require Import Prelude NetTypes.

(** ** Routes *)
Record Node : Type := { node_ip : option IpAddr; node_device : option string }.

Definition Node_new (address : IpAddr) (iface_name : string) : Node :=
  {| node_ip := Some address; node_device := Some iface_name |}.
Definition Node_address (address : IpAddr) : Node := {| node_ip := Some address; node_device := None |}.
Definition Node_device (iface_name : string) : Node := {| node_ip := None; node_device := Some iface_name |}.

(** A [NetNode] is a [RealNode] on Linux. *)
Record RequiredRoute : Type := {
  rr_prefix : IpNetwork;
  rr_node : Node;
  main_table : bool;
  rr_mtu : option Z;
}.

Definition RequiredRoute_new (prefix : IpNetwork) (node : Node) : RequiredRoute :=
  {| rr_prefix := prefix; rr_node := node; main_table := true; rr_mtu := None |}.
Definition use_main_table (b : bool) (r : RequiredRoute) : RequiredRoute :=
  {| rr_prefix := rr_prefix r; rr_node := rr_node r; main_table := b; rr_mtu := rr_mtu r |}.
Definition with_mtu (mtu : Z) (r : RequiredRoute) : RequiredRoute :=
  {| rr_prefix := rr_prefix r; rr_node := rr_node r; main_table := main_table r; rr_mtu := Some mtu |}.

Definition RT_TABLE_MAIN : Z := 254.
Definition RT_TABLE_COMPAT : Z := 252.

Record Route : Type := {
  route_node : Node;
  route_prefix : IpNetwork;
  route_metric : option Z;
  table_id : Z;
  route_mtu : option Z;
}.

Definition Route_new (node : Node) (prefix : IpNetwork) : Route :=
  {| route_node := node; route_prefix := prefix; route_metric := None; table_id := RT_TABLE_MAIN; route_mtu := None |}.
Definition Route_table (new_id : Z) (r : Route) : Route :=
  {| route_node := route_node r; route_prefix := route_prefix r; route_metric := route_metric r;
     table_id := new_id; route_mtu := route_mtu r |}.
Definition set_route_mtu (mtu : option Z) (r : Route) : Route :=
  {| route_node := route_node r; route_prefix := route_prefix r; route_metric := route_metric r;
     table_id := table_id r; route_mtu := mtu |}.

#[global] Instance IpNetwork_eq_dec : EqDecision IpNetwork.
Proof. solve_decision. Defined.
#[global] Instance Node_eq_dec : EqDecision Node.
Proof. solve_decision. Defined.
#[global] Instance RequiredRoute_eq_dec : EqDecision RequiredRoute.
Proof. solve_decision. Defined.
#[global] Instance Route_eq_dec : EqDecision Route.
Proof. solve_decision. Defined.

(** ** Rules, as netlink messages

    Of the attributes the kernel reports, those the code names, and the others as a type and a value. *)
Inductive AddressFamily : Type := Inet | Inet6 | OtherFamily (n : Z).
Inductive RuleAction : Type := ToTable | OtherAction (n : Z).
Inductive RuleAttribute : Type :=
| SuppressPrefixLen (n : Z)
| AttrTable (id : Z)
| FwMark (m : Z)
| OtherRuleAttribute (type value : Z).

(** The bit of [RuleFlags::Invert]. *)
Definition RuleFlags_Invert : Z := 2.

Record RuleHeader : Type := {
  family : AddressFamily;
  dst_len : Z;
  src_len : Z;
  tos : Z;
  header_table : Z;
  action : RuleAction;
  flags : Z;
}.

Record RuleMessage : Type := { header : RuleHeader; attributes : list RuleAttribute }.

#[global] Instance AddressFamily_eq_dec : EqDecision AddressFamily.
Proof. solve_decision. Defined.
#[global] Instance RuleAction_eq_dec : EqDecision RuleAction.
Proof. solve_decision. Defined.
#[global] Instance RuleAttribute_eq_dec : EqDecision RuleAttribute.
Proof. solve_decision. Defined.
#[global] Instance RuleHeader_eq_dec : EqDecision RuleHeader.
Proof. solve_decision. Defined.
#[global] Instance RuleMessage_eq_dec : EqDecision RuleMessage.
Proof. solve_decision. Defined.

(** [RuleHeader::default()] with a family, the action [ToTable] and flags. *)
Definition to_table_header (f : AddressFamily) (fl : Z) : RuleHeader :=
  {| family := f; dst_len := 0; src_len := 0; tos := 0; header_table := 0; action := ToTable; flags := fl |}.

Definition SUPPRESS_RULE_V4 : RuleMessage :=
  {| header := to_table_header Inet 0; attributes := [SuppressPrefixLen 0; AttrTable RT_TABLE_MAIN] |}.
Definition SUPPRESS_RULE_V6 : RuleMessage :=
  {| header := to_table_header Inet6 0; attributes := attributes SUPPRESS_RULE_V4 |}.
Definition no_fwmark_rule_v4 (fwmark table : Z) : RuleMessage :=
  {| header := to_table_header Inet RuleFlags_Invert; attributes := [FwMark fwmark; AttrTable table] |}.
Definition no_fwmark_rule_v6 (fwmark table : Z) : RuleMessage :=
  {| header := to_table_header Inet6 RuleFlags_Invert; attributes := attributes (no_fwmark_rule_v4 fwmark table) |}.

Definition all_rules (fwmark table : Z) : list RuleMessage :=
  [no_fwmark_rule_v4 fwmark table; no_fwmark_rule_v6 fwmark table; SUPPRESS_RULE_V4; SUPPRESS_RULE_V6].

(** ** Routes and links, as netlink messages *)
Inductive RouteAttribute : Type :=
| Oif (index : Z)
| Via (address : list Z)
| Destination (address : list Z)
| Gateway (address : list Z)
| Priority (priority : Z)
| RouteTable (id : Z)
| Metrics (mtus : list (option Z))
| OtherRouteAttribute.

Record RouteMessage : Type := {
  address_family : AddressFamily;
  destination_prefix_length : Z;
  message_table : Z;
  route_attributes : list RouteAttribute;
}.

Record NetworkInterface : Type := { iface_name : string; iface_loopback : bool }.
#[global] Instance NetworkInterface_eq_dec : EqDecision NetworkInterface.
Proof. solve_decision. Defined.

(** A link: its index, whether its layer is loopback, and the names among its attributes. *)
Record LinkMessage : Type := { link_index : Z; link_loopback : bool; if_names : list string; link_mtus : list Z }.

(** What the code asks [rtnetlink] for: a route to add or delete.  The builder puts a route into the main
    table unless it is given another. *)
Record RouteRequest : Type := {
  rq_prefix : IpNetwork;
  rq_link_scope : bool;
  rq_table : Z;
  rq_oif : option Z;
  rq_gateway : option IpAddr;
  rq_via : option IpAddr;
  rq_priority : option Z;
  rq_mtu : option Z;
}.

Inductive PlatformError : Type :=
| NetlinkError (code : Z)
| InvalidRoute
| InvalidIpBytes
| InvalidNetworkPrefix
| UnknownDeviceIndex (i : Z)
| GetRouteError (code : Z)
| NoRoute
| InvalidRouteNode
| LinkNotFound
| Shutdown.

(** What a request answers: the messages of the stream, of which errors carry a code. *)
Inductive Payload : Type := InnerRule (r : RuleMessage) | PayloadError (code : Z) | OtherPayload.

(** A query for a route: the route, nothing at all, or an error. *)
Inductive RouteAnswer : Type := GotRoute (m : RouteMessage) | NoAnswer | QueryError (code : Z).

Definition ENOENT : Z := 2.
Definition ESRCH : Z := 3.
Definition ENETUNREACH : Z := 101.

Class Rtnetlink (K : Type) : Type := {
  nl_get_rules : K -> result (list Payload) Z;
  nl_new_rule : RuleMessage -> K -> K * result (list Payload) Z;
  nl_del_rule : RuleMessage -> K -> K * result (list Payload) Z;
  nl_add_route : RouteRequest -> K -> K * result unit Z;
  nl_del_route : RouteRequest -> K -> K * result unit Z;
  nl_get_route : IpAddr -> option Z -> K -> RouteAnswer;
  nl_links : K -> list LinkMessage * option Z;
  (** The order in which a hash set is iterated over. *)
  hash_order : list Route -> list Route;
}.

(** ** The manager *)
Inductive CallbackMessage : Type := NewRoute (r : Route) | DelRoute (r : Route).

Record RouteManagerImpl : Type := {
  iface_map : gmap Z NetworkInterface;
  listeners : list nat;
  added_routes : list Route;
  tunnel_table : Z;
  fwmark : Z;
}.

Definition set_iface_map (x : gmap Z NetworkInterface) (m : RouteManagerImpl) : RouteManagerImpl :=
  {| iface_map := x; listeners := listeners m; added_routes := added_routes m;
     tunnel_table := tunnel_table m; fwmark := fwmark m |}.
Definition set_listeners (x : list nat) (m : RouteManagerImpl) : RouteManagerImpl :=
  {| iface_map := iface_map m; listeners := x; added_routes := added_routes m;
     tunnel_table := tunnel_table m; fwmark := fwmark m |}.
Definition set_added_routes (x : list Route) (m : RouteManagerImpl) : RouteManagerImpl :=
  {| iface_map := iface_map m; listeners := listeners m; added_routes := x;
     tunnel_table := tunnel_table m; fwmark := fwmark m |}.

Section manager.
Context {K : Type} `{Rtnetlink K}.

(** The answers of a stream up to the first error. *)
Fixpoint first_error (accept : Z -> bool) (ps : list Payload) : result unit PlatformError :=
  match ps with
  | [] => Ok tt
  | PayloadError code :: ps => if accept code then first_error accept ps else Err (NetlinkError code)
  | _ :: ps => first_error accept ps
  end.

Definition requested (accept : Z -> bool) (r : K * result (list Payload) Z) : K * result unit PlatformError :=
  (r.1, match r.2 with Ok ps => first_error accept ps | Err code => Err (NetlinkError code) end).

Fixpoint collect_rules (ps : list Payload) : result (list RuleMessage) PlatformError :=
  match ps with
  | [] => Ok []
  | InnerRule r :: ps => match collect_rules ps with Ok rs => Ok (r :: rs) | Err e => Err e end
  | PayloadError code :: _ => Err (NetlinkError code)
  | OtherPayload :: ps => collect_rules ps
  end.

Definition get_rules (k : K) : result (list RuleMessage) PlatformError :=
  match nl_get_rules k with Ok ps => collect_rules ps | Err code => Err (NetlinkError code) end.

Definition delete_rule_if_exists (r : RuleMessage) (k : K) : K * result unit PlatformError :=
  requested (fun code => bool_decide (code = - ENOENT)%Z) (nl_del_rule r k).

Definition rule_matches (rule found_rule : RuleMessage) : bool :=
  bool_decide (family (header found_rule) = family (header rule))
  && bool_decide (action (header found_rule) = action (header rule))
  && bool_decide (Z.land (flags (header found_rule)) (flags (header rule)) = flags (header rule))
  && forallb (fun nla => bool_decide (nla ∈ attributes found_rule)) (attributes rule).

Definition matching_rule (rules : list RuleMessage) (rule : RuleMessage) : option RuleMessage :=
  List.find (rule_matches rule) rules.

(** A loop that ends at the first failure. *)
Fixpoint each {A} (f : A -> K -> K * result unit PlatformError) (l : list A) (k : K) : K * result unit PlatformError :=
  match l with
  | [] => (k, Ok tt)
  | a :: l => match f a k with (k, Ok _) => each f l k | (k, Err e) => (k, Err e) end
  end.

Definition clear_routing_rules (m : RouteManagerImpl) (k : K) : K * result unit PlatformError :=
  match get_rules k with
  | Err e => (k, Err e)
  | Ok rules =>
      each (fun rule k => match matching_rule rules rule with
                          | Some found => delete_rule_if_exists found k
                          | None => (k, Ok tt)
                          end) (all_rules (fwmark m) (tunnel_table m)) k
  end.

Definition create_routing_rules (enable_ipv6 : bool) (m : RouteManagerImpl) (k : K) : K * result unit PlatformError :=
  match clear_routing_rules m k with
  | (k, Err e) => (k, Err e)
  | (k, Ok _) =>
      each (fun rule k => requested (fun _ => false) (nl_new_rule rule k))
        (List.filter (fun rule => bool_decide (family (header rule) = Inet) || enable_ipv6)
           (all_rules (fwmark m) (tunnel_table m))) k
  end.

(** ** Links *)
Definition map_interface (msg : LinkMessage) : option (Z * NetworkInterface) :=
  match if_names msg with
  | name :: _ => Some (link_index msg, {| iface_name := name; iface_loopback := link_loopback msg |})
  | [] => None
  end.

Definition insert_link (m : gmap Z NetworkInterface) (link : LinkMessage) : gmap Z NetworkInterface :=
  match map_interface link with Some (i, device) => <[i := device]> m | None => m end.

Definition initialize_link_map (k : K) : result (gmap Z NetworkInterface) PlatformError :=
  let '(links, error) := nl_links k in
  match error with
  | Some code => Err (NetlinkError code)
  | None => Ok (foldl insert_link ∅ links)
  end.

(** [BTreeMap::iter] goes through the keys in order. *)
Definition least_index (x y : Z * NetworkInterface) : bool := (x.1 <=? y.1)%Z.
Fixpoint insert_sorted (x : Z * NetworkInterface) (l : list (Z * NetworkInterface)) : list (Z * NetworkInterface) :=
  match l with
  | [] => [x]
  | y :: r => if least_index x y then x :: l else y :: insert_sorted x r
  end.
Definition links_in_order (m : gmap Z NetworkInterface) : list (Z * NetworkInterface) :=
  foldr insert_sorted [] (map_to_list m).

Definition find_iface_idx (name : string) (m : RouteManagerImpl) : option Z :=
  fst <$> List.find (fun x => bool_decide (iface_name x.2 = name)) (links_in_order (iface_map m)).

(** ** Adding and deleting routes *)
Definition addr_width (ip : IpAddr) : Z := match ip with V4 _ => 32 | V6 _ => 128 end.
Definition compat_table_id (id : Z) : Z := if (id >? 255)%Z then RT_TABLE_COMPAT else id.
Definition link_scope (prefix : IpNetwork) : bool :=
  (0 <? net_prefix prefix)%Z && (net_prefix prefix <? addr_width (net_ip prefix))%Z.
Definition same_version (x y : IpAddr) : bool := bool_decide (IpVersion_from x = IpVersion_from y).
Definition oif_of (m : RouteManagerImpl) (node : Node) : option Z :=
  match node_device node with Some name => find_iface_idx name m | None => None end.

Definition add_request (m : RouteManagerImpl) (route : Route) : RouteRequest :=
  {| rq_prefix := route_prefix route;
     rq_link_scope := link_scope (route_prefix route);
     rq_table := if (compat_table_id (table_id route) =? RT_TABLE_COMPAT)%Z then table_id route else RT_TABLE_MAIN;
     rq_oif := oif_of m (route_node route);
     rq_gateway :=
       match node_ip (route_node route) with
       | Some ip => if same_version ip (net_ip (route_prefix route)) then Some ip else None
       | None => None
       end;
     rq_via := None; rq_priority := route_metric route; rq_mtu := route_mtu route |}.

Definition add_route_direct (m : RouteManagerImpl) (route : Route) (k : K) : K * result unit PlatformError :=
  let '(k, r) := nl_add_route (add_request m route) k in (k, map_err NetlinkError r).

Definition delete_request (m : RouteManagerImpl) (route : Route) : RouteRequest :=
  {| rq_prefix := route_prefix route;
     rq_link_scope := link_scope (route_prefix route);
     rq_table := if (compat_table_id (table_id route) =? RT_TABLE_COMPAT)%Z then table_id route
                 else compat_table_id (table_id route);
     rq_oif := oif_of m (route_node route);
     rq_gateway := match node_device (route_node route) with Some _ => node_ip (route_node route) | None => None end;
     rq_via := match node_device (route_node route) with Some _ => None | None => node_ip (route_node route) end;
     rq_priority := route_metric route; rq_mtu := None |}.

Definition delete_route_if_exists (m : RouteManagerImpl) (route : Route) (k : K) : K * result unit PlatformError :=
  match nl_del_route (delete_request m route) k with
  | (k, Ok _) => (k, Ok tt)
  | (k, Err code) => (k, if bool_decide (code = - ESRCH)%Z then Ok tt else Err (NetlinkError code))
  end.

Definition insert_route (r : Route) (l : list Route) : list Route := if decide (r ∈ l) then l else l ++ [r].

Definition add_route (route : Route) (m : RouteManagerImpl) (k : K) : RouteManagerImpl * K * result unit PlatformError :=
  match add_route_direct m route k with
  | (k, Ok _) => (set_added_routes (insert_route route (added_routes m)) m, k, Ok tt)
  | (k, Err e) => (m, k, Err e)
  end.

Definition normal_route (m : RouteManagerImpl) (r : RequiredRoute) : Route :=
  set_route_mtu (rr_mtu r)
    (Route_table (if main_table r then RT_TABLE_MAIN else tunnel_table m) (Route_new (rr_node r) (rr_prefix r))).

Fixpoint add_all (l : list Route) (m : RouteManagerImpl) (k : K) : RouteManagerImpl * K * result unit PlatformError :=
  match l with
  | [] => (m, k, Ok tt)
  | r :: l => match add_route r m k with (m, k, Ok _) => add_all l m k | (m, k, Err e) => (m, k, Err e) end
  end.

Definition add_required_routes (required : list RequiredRoute) (m : RouteManagerImpl) (k : K)
  : RouteManagerImpl * K * result unit PlatformError :=
  add_all (hash_order (remove_dups (map (normal_route m) required))) m k.

(** Failures to delete are logged. *)
Definition cleanup_routes (m : RouteManagerImpl) (k : K) : RouteManagerImpl * K :=
  (set_added_routes [] m,
   foldl (fun k route => (delete_route_if_exists m route k).1) k (hash_order (added_routes m))).

Definition destructor (m : RouteManagerImpl) (k : K) : RouteManagerImpl * K :=
  let '(m, k) := cleanup_routes m k in (m, (clear_routing_rules m k).1).

(** ** Queries *)
Definition parse_ip (bytes : list Z) : result IpAddr PlatformError :=
  let value := foldl (fun v b => Z.lor (Z.shiftl v 8) b) 0%Z bytes in
  if (length bytes =? 4)%nat then Ok (V4 value)
  else if (length bytes =? 16)%nat then Ok (V6 value)
  else Err InvalidIpBytes.

(** [IpNetwork::new] checks the length of the prefix. *)
Definition IpNetwork_new (ip : IpAddr) (prefix : Z) : result IpNetwork PlatformError :=
  if (prefix <=? addr_width ip)%Z then Ok {| net_ip := ip; net_prefix := prefix |} else Err InvalidNetworkPrefix.

Record Parsed : Type := {
  p_prefix : IpNetwork;
  p_node : option IpAddr;
  p_device : option NetworkInterface;
  p_gateway : option IpAddr;
  p_metric : option Z;
  p_table : Z;
  p_mtu : option Z;
}.

Definition LOCALHOST (v4 : bool) : IpAddr := if v4 then V4 (Ipv4Addr_new 127 0 0 1) else V6 1.

Definition parse_attribute (m : RouteManagerImpl) (is_v4 : bool) (len : Z) (p : Parsed) (nla : RouteAttribute)
  : result Parsed PlatformError :=
  match nla with
  | Oif i =>
      match iface_map m !! i with
      | Some d =>
          if negb (iface_loopback d)
          then Ok {| p_prefix := p_prefix p; p_node := p_node p; p_device := Some d; p_gateway := p_gateway p;
                     p_metric := p_metric p; p_table := p_table p; p_mtu := p_mtu p |}
          else Ok {| p_prefix := p_prefix p; p_node := p_node p; p_device := p_device p;
                     p_gateway := Some (LOCALHOST is_v4); p_metric := p_metric p; p_table := p_table p; p_mtu := p_mtu p |}
      | None => Err (UnknownDeviceIndex i)
      end
  | Via bytes =>
      (ip <-? parse_ip bytes;
       Ok {| p_prefix := p_prefix p; p_node := Some ip; p_device := p_device p; p_gateway := p_gateway p;
             p_metric := p_metric p; p_table := p_table p; p_mtu := p_mtu p |})%vpn
  | Destination bytes =>
      (ip <-? parse_ip bytes; network <-? IpNetwork_new ip len;
       Ok {| p_prefix := network; p_node := p_node p; p_device := p_device p; p_gateway := p_gateway p;
             p_metric := p_metric p; p_table := p_table p; p_mtu := p_mtu p |})%vpn
  | Gateway bytes =>
      (ip <-? parse_ip bytes;
       Ok {| p_prefix := p_prefix p; p_node := p_node p; p_device := p_device p; p_gateway := Some ip;
             p_metric := p_metric p; p_table := p_table p; p_mtu := p_mtu p |})%vpn
  | Priority x =>
      Ok {| p_prefix := p_prefix p; p_node := p_node p; p_device := p_device p; p_gateway := p_gateway p;
            p_metric := Some x; p_table := p_table p; p_mtu := p_mtu p |}
  | RouteTable id =>
      Ok {| p_prefix := p_prefix p; p_node := p_node p; p_device := p_device p; p_gateway := p_gateway p;
            p_metric := p_metric p; p_table := id; p_mtu := p_mtu p |}
  | Metrics metrics =>
      Ok {| p_prefix := p_prefix p; p_node := p_node p; p_device := p_device p; p_gateway := p_gateway p;
            p_metric := p_metric p; p_table := p_table p; p_mtu := head (omap (fun x => x) metrics) |}
  | OtherRouteAttribute => Ok p
  end.

Fixpoint parse_attributes (m : RouteManagerImpl) (is_v4 : bool) (len : Z) (l : list RouteAttribute) (p : Parsed)
  : result Parsed PlatformError :=
  match l with
  | [] => Ok p
  | nla :: l => bind_result (parse_attribute m is_v4 len p nla) (parse_attributes m is_v4 len l)
  end.

Definition parse_family (m : RouteManagerImpl) (is_v4 : bool) (msg : RouteMessage) : result Route PlatformError :=
  (prefix <-? IpNetwork_new (if is_v4 then V4 0 else V6 0) (destination_prefix_length msg);
   p <-? parse_attributes m is_v4 (destination_prefix_length msg) (route_attributes msg)
         {| p_prefix := prefix; p_node := None; p_device := None; p_gateway := None; p_metric := None;
            p_table := message_table msg; p_mtu := None |};
   match p_device p, p_node p, p_gateway p with
   | None, None, None => Err InvalidRoute
   | _, _, _ =>
       Ok {| route_node := {| node_ip := match p_node p with Some ip => Some ip | None => p_gateway p end;
                              node_device := iface_name <$> p_device p |};
             route_prefix := p_prefix p; route_metric := p_metric p; table_id := p_table p; route_mtu := p_mtu p |}
   end)%vpn.

Definition parse_route_message (m : RouteManagerImpl) (msg : RouteMessage) : result (option Route) PlatformError :=
  match address_family msg with
  | Inet => match parse_family m true msg with Ok r => Ok (Some r) | Err e => Err e end
  | Inet6 => match parse_family m false msg with Ok r => Ok (Some r) | Err e => Err e end
  | OtherFamily _ => Ok None
  end.

Definition get_destination_route (m : RouteManagerImpl) (destination : IpAddr) (mark : option Z) (k : K)
  : result (option Route) PlatformError :=
  match nl_get_route destination mark k with
  | GotRoute msg => parse_route_message m msg
  | NoAnswer => Err NoRoute
  | QueryError code => if bool_decide (code = - ENETUNREACH)%Z then Ok None else Err (GetRouteError code)
  end.

(** [Panicked] is the [expect] of a conversion to [u16]. *)
Inductive MtuAnswer : Type := Mtu (mtu : Z) | MtuError (e : PlatformError) | MtuPanicked.

(** An error of the stream and its end both give [LinkNotFound]. *)
Fixpoint device_mtu (device : string) (links : list LinkMessage) : MtuAnswer :=
  match links with
  | [] => MtuError LinkNotFound
  | l :: links =>
      match bool_decide (device ∈ if_names l), link_mtus l with
      | true, mtu :: _ => if (mtu <? 2 ^ 16)%Z then Mtu mtu else MtuPanicked
      | _, _ => device_mtu device links
      end
  end.

Definition get_device_mtu (device : string) (k : K) : MtuAnswer :=
  device_mtu device (nl_links k).1.

Definition RECURSION_LIMIT : nat := 10.

Fixpoint mtu_for_route (fuel : nat) (m : RouteManagerImpl) (ip : IpAddr) (k : K) : MtuAnswer :=
  match fuel with
  | O => MtuError NoRoute
  | S fuel =>
      match get_destination_route m ip (Some (fwmark m)) k with
      | Err e => MtuError e
      | Ok None => MtuError NoRoute
      | Ok (Some route) =>
          match node_device (route_node route), node_ip (route_node route) with
          | Some device, _ => get_device_mtu device k
          | None, Some address => mtu_for_route fuel m address k
          | None, None => MtuError InvalidRouteNode
          end
      end
  end.

Definition get_mtu_for_route (m : RouteManagerImpl) (ip : IpAddr) (k : K) : MtuAnswer :=
  mtu_for_route RECURSION_LIMIT m ip k.

(** ** The task *)
Inductive RouteManagerCommand : Type :=
| AddRoutes (routes : list RequiredRoute) (tx : nat)
| ClearRoutes
| ShutdownManager (tx : nat)
| CreateRoutingRules (enable_ipv6 : bool) (tx : nat)
| ClearRoutingRules (tx : nat)
| NewChangeListener (tx : nat)
| GetMtuForRoute (ip : IpAddr) (tx : nat)
| GetDestinationRoute (destination : IpAddr) (mark : option Z) (tx : nat).

Inductive Response : Type :=
| Done (r : result unit PlatformError)
| Stopped
| Listener (id : nat)
| RouteMtu (a : MtuAnswer)
| RouteFound (r : result (option Route) PlatformError).

Inductive Output : Type :=
| Answer (tx : nat) (r : Response)
| Callback (listener : nat) (msg : CallbackMessage).

(** The receiver of a listener is numbered by the request that made it. *)
Definition listen (tx : nat) (m : RouteManagerImpl) : RouteManagerImpl := set_listeners (listeners m ++ [tx]) m.

Definition process_command (c : RouteManagerCommand) (m : RouteManagerImpl) (k : K)
  : option RouteManagerImpl * K * list Output :=
  match c with
  | ShutdownManager tx => let '(m, k) := destructor m k in (None, k, [Answer tx Stopped])
  | AddRoutes routes tx => let '(m, k, r) := add_required_routes routes m k in (Some m, k, [Answer tx (Done r)])
  | CreateRoutingRules enable_ipv6 tx => let '(k, r) := create_routing_rules enable_ipv6 m k in (Some m, k, [Answer tx (Done r)])
  | ClearRoutingRules tx => let '(k, r) := clear_routing_rules m k in (Some m, k, [Answer tx (Done r)])
  | NewChangeListener tx => (Some (listen tx m), k, [Answer tx (Listener tx)])
  | GetDestinationRoute destination mark tx => (Some m, k, [Answer tx (RouteFound (get_destination_route m destination mark k))])
  | GetMtuForRoute ip tx =>
      match get_mtu_for_route m ip k with
      | MtuPanicked => (None, k, [])
      | a => (Some m, k, [Answer tx (RouteMtu a)])
      end
  | ClearRoutes => let '(m, k) := cleanup_routes m k in (Some m, k, [])
  end.

Inductive RouteNetlinkMessage : Type :=
| NewLink (l : LinkMessage)
| DelLink (l : LinkMessage)
| NewRouteMessage (m : RouteMessage)
| DelRouteMessage (m : RouteMessage)
| OtherMessage.

(** [open] tells which listeners still have their receiver. *)
Definition notify_change_listeners (opened : nat -> bool) (message : CallbackMessage) (m : RouteManagerImpl)
  : RouteManagerImpl * list Output :=
  let l := List.filter opened (listeners m) in
  (set_listeners l m, map (fun i => Callback i message) l).

Definition process_deleted_route (route : Route) (m : RouteManagerImpl) : RouteManagerImpl :=
  set_added_routes (filter (fun r => r <> route) (added_routes m)) m.

(** An error is logged and the manager is as it was. *)
Definition process_netlink_message (opened : nat -> bool) (msg : RouteNetlinkMessage) (m : RouteManagerImpl)
  : RouteManagerImpl * list Output :=
  match msg with
  | NewLink link => (set_iface_map (insert_link (iface_map m) link) m, [])
  | DelLink link =>
      match map_interface link with
      | Some (i, _) => (set_iface_map (delete i (iface_map m)) m, [])
      | None => (m, [])
      end
  | NewRouteMessage r =>
      match parse_route_message m r with
      | Ok (Some addition) => notify_change_listeners opened (NewRoute addition) m
      | _ => (m, [])
      end
  | DelRouteMessage r =>
      match parse_route_message m r with
      | Ok (Some deletion) => notify_change_listeners opened (DelRoute deletion) (process_deleted_route deletion m)
      | _ => (m, [])
      end
  | OtherMessage => (m, [])
  end.

Definition RouteManagerImpl_new (table fw : Z) (k : K) : K * result RouteManagerImpl PlatformError :=
  match initialize_link_map k with
  | Err e => (k, Err e)
  | Ok links =>
      let m := {| iface_map := links; listeners := []; added_routes := []; tunnel_table := table; fwmark := fw |} in
      match clear_routing_rules m k with (k, Ok _) => (k, Ok m) | (k, Err e) => (k, Err e) end
  end.

(** [RouteManagerHandle::spawn] passes its arguments on in its own order. *)
Definition spawn (fw table : Z) (k : K) : K * result RouteManagerImpl PlatformError :=
  RouteManagerImpl_new fw table k.

(** One turn of [run]: a command or a message of the kernel. *)
Inductive ManagerEvent : Type :=
| Command (c : RouteManagerCommand)
| KernelMessage (opened : nat -> bool) (msg : RouteNetlinkMessage).

Definition run_turn (e : ManagerEvent) (m : RouteManagerImpl) (k : K) : option RouteManagerImpl * K * list Output :=
  match e with
  | Command c => process_command c m k
  | KernelMessage opened msg => let '(m, out) := process_netlink_message opened msg m in (Some m, k, out)
  end.
End manager.

(** ** What the kernel decides

    A rule is read as the selectors the code sets; a rule with any other selector may or may not match, and
    [other_selectors] says so.  A [SuppressPrefixLen] of [2^32 - 1] is none. *)
Definition rule_mark (r : RuleMessage) : option Z :=
  head (omap (fun a => match a with FwMark m => Some m | _ => None end) (attributes r)).
Definition rule_table (r : RuleMessage) : option Z :=
  head (omap (fun a => match a with AttrTable t => Some t | _ => None end) (attributes r)).
Definition rule_suppress (r : RuleMessage) : option Z :=
  head (omap (fun a => match a with SuppressPrefixLen n => if (n =? u32_max)%Z then None else Some n | _ => None end) (attributes r)).

Record FibRoute : Type := {
  fib_table : Z;
  fib_dst : IpNetwork;
  fib_oif : option Z;
  fib_gateway : option IpAddr;
  fib_priority : Z;
  fib_mtu : option Z;
}.
#[global] Instance FibRoute_eq_dec : EqDecision FibRoute.
Proof. solve_decision. Defined.

Record Packet : Type := { pkt_dst : IpAddr; pkt_mark : Z }.

(** The priority of a route that is given none. *)
Definition default_priority (dst : IpNetwork) : Z := if is_ipv4 (net_ip dst) then 0 else 1024.

Definition fib_of (r : RouteRequest) : FibRoute :=
  {| fib_table := rq_table r; fib_dst := rq_prefix r; fib_oif := rq_oif r; fib_gateway := rq_gateway r;
     fib_priority := default (default_priority (rq_prefix r)) (rq_priority r); fib_mtu := rq_mtu r |}.

(** [NLM_F_REPLACE]: a route with the same table, destination and priority is replaced. *)
Definition same_key (x y : FibRoute) : bool :=
  bool_decide (fib_table x = fib_table y) && bool_decide (fib_dst x = fib_dst y)
  && bool_decide (fib_priority x = fib_priority y).
Definition fib_replace (r : FibRoute) (l : list FibRoute) : list FibRoute :=
  r :: List.filter (fun x => negb (same_key r x)) l.

(** Deleting takes away the first route that has what the request says. *)
Definition given {A} `{EqDecision A} (x y : option A) : bool := match x with Some _ => bool_decide (x = y) | None => true end.
Definition deletes (r : RouteRequest) (x : FibRoute) : bool :=
  bool_decide (fib_table x = rq_table r) && bool_decide (fib_dst x = rq_prefix r) && given (rq_oif r) (fib_oif x)
  && given (rq_gateway r) (fib_gateway x) && given (rq_via r) (fib_gateway x) && given (rq_priority r) (Some (fib_priority x)).
Fixpoint remove_first {A} (f : A -> bool) (l : list A) : list A :=
  match l with
  | [] => []
  | x :: l => if f x then l else x :: remove_first f l
  end.

(** The longest prefix of the table that holds the destination, and the least priority among those. *)
Definition better (x y : FibRoute) : bool :=
  (net_prefix (fib_dst y) <? net_prefix (fib_dst x))%Z
  || ((net_prefix (fib_dst x) =? net_prefix (fib_dst y))%Z && (fib_priority x <=? fib_priority y)%Z).
Fixpoint best (l : list FibRoute) : option FibRoute :=
  match l with
  | [] => None
  | x :: l => match best l with Some y => if better x y then Some x else Some y | None => Some x end
  end.

Section fib.
Context `{IpNetworkOps}.

Definition in_table (t : Z) (dst : IpAddr) (x : FibRoute) : bool :=
  bool_decide (fib_table x = t) && net_contains (fib_dst x) dst.
Definition table_lookup (t : Z) (dst : IpAddr) (routes : list FibRoute) : option FibRoute :=
  best (List.filter (in_table t dst) routes).

(** A rule with selectors the code does not use is decided by [other]. *)
Definition rule_selects (other : RuleMessage -> Packet -> bool) (p : Packet) (r : RuleMessage) : bool :=
  let marked := match rule_mark r with Some m => (pkt_mark p =? m)%Z | None => true end in
  let selected := marked && other r p in
  if Z.testbit (flags (header r)) 1 then negb selected else selected.

Definition rule_lookup (p : Packet) (routes : list FibRoute) (r : RuleMessage) : option FibRoute :=
  match rule_table r with
  | Some t =>
      match table_lookup t (pkt_dst p) routes with
      | Some x =>
          match rule_suppress r with
          | Some n => if (net_prefix (fib_dst x) <=? n)%Z then None else Some x
          | None => Some x
          end
      | None => None
      end
  | None => None
  end.

Fixpoint fib_lookup (other : RuleMessage -> Packet -> bool) (p : Packet) (rules : list RuleMessage) (routes : list FibRoute)
  : option FibRoute :=
  match rules with
  | [] => None
  | r :: rules =>
      if rule_selects other p r then
        match rule_lookup p routes r with
        | Some x => Some x
        | None => fib_lookup other p rules routes
        end
      else fib_lookup other p rules routes
  end.
End fib.

Definition family_of (ip : IpAddr) : AddressFamily := match ip with V4 _ => Inet | V6 _ => Inet6 end.

(** What the kernel keeps of a rule: its header and attributes, and attributes of its own. *)
Definition kernel_rule (r r' : RuleMessage) : Prop :=
  header r' = header r /\ attributes r ⊆ attributes r' /\ rule_mark r' = rule_mark r /\ rule_table r' = rule_table r
  /\ rule_suppress r' = rule_suppress r.

(** A rule without a priority gets one below the second rule of its family, so it is tried right after the first. *)
Definition place (r : RuleMessage) (l : list RuleMessage) : list RuleMessage :=
  match l with [] => [r] | x :: l => x :: r :: l end.

Definition no_errors (ps : list Payload) : bool :=
  forallb (fun p => match p with PayloadError _ => false | _ => true end) ps.

(** Nothing but a mark, a table and a prefix length to suppress. *)
Definition plain (r : RuleMessage) : bool :=
  (dst_len (header r) =? 0)%Z && (src_len (header r) =? 0)%Z && (tos (header r) =? 0)%Z
  && forallb (fun a => match a with OtherRuleAttribute _ _ => false | _ => true end) (attributes r).

(** [fib_other] is what the other selectors of a rule say of a packet. *)
Class RtnetlinkLaws (K : Type) `{Rtnetlink K} : Type := {
  fib_other : RuleMessage -> Packet -> bool;
  fib_rules : AddressFamily -> K -> list RuleMessage;
  fib_routes : K -> list FibRoute;
  hash_order_perm l : hash_order l ≡ₚ l;
  rules_family f k r : r ∈ fib_rules f k -> family (header r) = f;
  get_rules_law k ps :
    nl_get_rules k = Ok ps -> no_errors ps = true ->
    omap (fun p => match p with InnerRule r => Some r | _ => None end) ps = fib_rules Inet k ++ fib_rules Inet6 k;
  new_rule_law r k :
    let '(k', a) := nl_new_rule r k in
    fib_routes k' = fib_routes k
    /\ (forall f, f <> family (header r) -> fib_rules f k' = fib_rules f k)
    /\ match a with
       | Ok ps => if no_errors ps
                  then exists r', kernel_rule r r' /\ (plain r = true -> forall p, fib_other r' p = true)
                               /\ fib_rules (family (header r)) k' = place r' (fib_rules (family (header r)) k)
                  else fib_rules (family (header r)) k' = fib_rules (family (header r)) k
       | Err _ => fib_rules (family (header r)) k' = fib_rules (family (header r)) k
       end;
  del_rule_law r k :
    let '(k', a) := nl_del_rule r k in
    fib_routes k' = fib_routes k
    /\ (forall f, f <> family (header r) -> fib_rules f k' = fib_rules f k)
    /\ match a with
       | Ok ps => fib_rules (family (header r)) k'
                  = (if no_errors ps then remove_first (fun x => bool_decide (x = r)) else id) (fib_rules (family (header r)) k)
                  /\ (PayloadError (- ENOENT) ∈ ps -> r ∉ fib_rules (family (header r)) k)
       | Err _ => fib_rules (family (header r)) k' = fib_rules (family (header r)) k
       end;
  add_route_law r k :
    let '(k', a) := nl_add_route r k in
    (forall f, fib_rules f k' = fib_rules f k)
    /\ match a with
       | Ok _ => fib_routes k' = fib_replace (fib_of r) (fib_routes k) /\ (rq_oif r <> None \/ rq_gateway r <> None)
       | Err _ => fib_routes k' = fib_routes k
       end;
  del_route_law r k :
    let '(k', a) := nl_del_route r k in
    (forall f, fib_rules f k' = fib_rules f k)
    /\ match a with
       | Ok _ => fib_routes k' = remove_first (deletes r) (fib_routes k)
       | Err _ => fib_routes k' = fib_routes k
       end;
}.
