(* ===== verification/RoutingProps.v ===== *)
(** * Theorems about the route manager *)

From stdpp Require Import base list strings option numbers gmap.
From S2P Require Import Prelude NetTypes Routing.

(** ** Lists *)
Lemma remove_first_filter {A} `{EqDecision A} (x : A) (l : list A) :
  (length (List.filter (fun y => bool_decide (y = x)) l) <= 1)%nat ->
  remove_first (fun y => bool_decide (y = x)) l = List.filter (fun y => negb (bool_decide (y = x))) l.
Proof.
  induction l as [|y l IH]; simpl; [done|]. destruct (bool_decide (y = x)) eqn:E; simpl; intros Hl.
  - assert (Hnil : List.filter (fun y => bool_decide (y = x)) l = []) by (apply nil_length_inv; lia).
    clear -Hnil. induction l as [|z l IH]; simpl in *; [done|]. destruct (bool_decide (z = x)); [done|]. simpl. f_equal. auto.
  - f_equal. auto.
Qed.

Lemma filter_filter {A} (f g : A -> bool) (l : list A) :
  List.filter f (List.filter g l) = List.filter (fun x => g x && f x) l.
Proof.
  induction l as [|x l IH]; simpl; [done|]. destruct (g x) eqn:E; simpl; [|by rewrite IH].
  destruct (f x); by rewrite IH.
Qed.

Lemma filter_ext_in {A} (f g : A -> bool) (l : list A) :
  (forall x, x ∈ l -> f x = g x) -> List.filter f l = List.filter g l.
Proof. intros Hfg. apply List.filter_ext_in. intros x Hx. apply Hfg. by apply list_elem_of_In. Qed.

Lemma elem_of_filter_bool {A} (f : A -> bool) (l : list A) x : x ∈ List.filter f l <-> x ∈ l /\ f x = true.
Proof. by rewrite !list_elem_of_In, List.filter_In. Qed.

Lemma remove_first_sublist {A} (f : A -> bool) (l : list A) : remove_first f l `sublist_of` l.
Proof.
  induction l as [|x l IH]; simpl; [done|]. destruct (f x); [by constructor|]. by constructor.
Qed.

Lemma filter_length_sublist {A} (f : A -> bool) (l k : list A) :
  l `sublist_of` k -> (length (List.filter f l) <= length (List.filter f k))%nat.
Proof. induction 1; simpl; repeat case_match; simpl; lia. Qed.

(** ** Rules *)
Section rules.
Context {K : Type} `{RT : Rtnetlink K} {RL : RtnetlinkLaws K}.
Implicit Types (k : K) (m : RouteManagerImpl) (r o : RuleMessage).

Definition own_rules m : list RuleMessage := all_rules (fwmark m) (tunnel_table m).
Definition own m r : bool := existsb (fun o => rule_matches o r) (own_rules m).

(** Of each of the manager's rules the kernel has at most one. *)
Definition unique_rules m k : Prop :=
  forall f o, o ∈ own_rules m -> (length (List.filter (rule_matches o) (fib_rules f k)) <= 1)%nat.

Lemma matches_family o r : rule_matches o r = true -> family (header r) = family (header o).
Proof. unfold rule_matches. rewrite !andb_true_iff, !bool_decide_eq_true. tauto. Qed.

Lemma get_rules_ok k rules : get_rules k = Ok rules -> rules = fib_rules Inet k ++ fib_rules Inet6 k.
Proof.
  unfold get_rules. destruct (nl_get_rules k) as [ps|] eqn:E; [|done]. intros Hc.
  assert (Hp : no_errors ps = true /\ omap (fun p => match p with InnerRule r => Some r | _ => None end) ps = rules).
  { clear E. revert rules Hc. induction ps as [|[r| |] ps IH]; simpl; intros rules Hc; [by simplify_eq/=| |done|].
    - destruct (collect_rules ps) as [rs|]; [|done]. simplify_eq/=. destruct (IH rs eq_refl) as [? <-]. done.
    - by apply IH. }
  destruct Hp as [Hn <-]. by apply get_rules_law.
Qed.

Lemma remove_first_notin {A} `{EqDecision A} (x : A) (l : list A) : x ∉ l -> remove_first (fun y => bool_decide (y = x)) l = l.
Proof.
  induction l as [|y l IH]; simpl; [done|]. rewrite not_elem_of_cons. intros [Hne Hl].
  rewrite bool_decide_eq_false_2 by congruence. f_equal. auto.
Qed.

Lemma accepted_errors ps :
  first_error (fun code => bool_decide (code = - ENOENT)%Z) ps = Ok tt -> no_errors ps = true \/ PayloadError (- ENOENT) ∈ ps.
Proof.
  induction ps as [|[r|code|] ps IH]; simpl; [by left|set_solver| |set_solver].
  case_bool_decide; [|done]. subst. intros _. right. set_solver.
Qed.

(** A deletion takes the rule away, or fails and leaves the rules as they are. *)
Lemma delete_rule_cases r k :
  let '(k', a) := delete_rule_if_exists r k in
  fib_routes k' = fib_routes k
  /\ (forall f, f <> family (header r) -> fib_rules f k' = fib_rules f k)
  /\ (fib_rules (family (header r)) k' = remove_first (fun x => bool_decide (x = r)) (fib_rules (family (header r)) k)
      \/ a <> Ok tt /\ fib_rules (family (header r)) k' = fib_rules (family (header r)) k).
Proof.
  unfold delete_rule_if_exists, requested. pose proof (del_rule_law r k) as Hl. destruct (nl_del_rule r k) as [k' a]. simpl.
  destruct Hl as (Hr & Hf & Ha). split_and!; [done..|]. destruct a as [ps|]; [|by right]. destruct Ha as [-> Hin].
  destruct (first_error _ ps) as [[]|] eqn:E; [|destruct (no_errors ps); auto].
  left. destruct (no_errors ps) eqn:En; [done|]. apply accepted_errors in E as [|He]; [congruence|].
  by rewrite remove_first_notin by auto.
Qed.

(** The kernel's rules after some have been taken away. *)
Definition fewer_rules k k' : Prop :=
  fib_routes k' = fib_routes k /\ forall f, fib_rules f k' `sublist_of` fib_rules f k.

Lemma fewer_refl k : fewer_rules k k.
Proof. by split. Qed.

Lemma fewer_trans k1 k2 k3 : fewer_rules k1 k2 -> fewer_rules k2 k3 -> fewer_rules k1 k3.
Proof. intros [H1 H2] [H3 H4]. split; [congruence|]. intros f. etrans; [apply H4 | apply H2]. Qed.

Lemma delete_rule_fewer r k : fewer_rules k (delete_rule_if_exists r k).1.
Proof.
  pose proof (delete_rule_cases r k) as Hc. destruct (delete_rule_if_exists r k) as [k' a]. simpl.
  destruct Hc as (Hr & Hf & Hd). split; [done|]. intros f. destruct (decide (f = family (header r))) as [->|Hne]; [|by rewrite Hf].
  destruct Hd as [-> | [_ ->]]; [apply remove_first_sublist | done].
Qed.

Lemma each_fewer {A} (f : A -> K -> K * result unit PlatformError) l k :
  (forall a k, fewer_rules k (f a k).1) -> fewer_rules k (each f l k).1.
Proof.
  intros Hf. revert k. induction l as [|a l IH]; intros k; simpl; [apply fewer_refl|].
  specialize (Hf a k). destruct (f a k) as [k1 [|]]; simpl in *; [|done]. eapply fewer_trans; [done | apply IH].
Qed.

Lemma clear_fewer m k : fewer_rules k (clear_routing_rules m k).1.
Proof.
  unfold clear_routing_rules. destruct (get_rules k) as [rules|]; [|apply fewer_refl].
  apply each_fewer. intros o k1. destruct (matching_rule rules o); [apply delete_rule_fewer | apply fewer_refl].
Qed.

Lemma fewer_unique m k k' : fewer_rules k k' -> unique_rules m k -> unique_rules m k'.
Proof. intros [_ Hs] Hu f o Ho. pose proof (filter_length_sublist (rule_matches o) _ _ (Hs f)). specialize (Hu f o Ho). lia. Qed.

(** Taking away what [o] matches, for each [o] of a list. *)
Definition without (os : list RuleMessage) (l : list RuleMessage) : list RuleMessage :=
  List.filter (fun r => negb (existsb (fun o => rule_matches o r) os)) l.

Lemma find_spec (rules : list RuleMessage) o :
  match matching_rule rules o with
  | Some r => r ∈ rules /\ rule_matches o r = true
  | None => forall r, r ∈ rules -> rule_matches o r = false
  end.
Proof.
  unfold matching_rule. destruct (List.find (rule_matches o) rules) as [r|] eqn:E.
  - apply List.find_some in E as [Hi Hm]. split; [by apply list_elem_of_In | done].
  - intros r Hr%list_elem_of_In. by apply (List.find_none _ _ E).
Qed.

Lemma matches_once o r (l : list RuleMessage) :
  (length (List.filter (rule_matches o) l) <= 1)%nat -> r ∈ l -> rule_matches o r = true ->
  forall r', r' ∈ l -> rule_matches o r' = true -> r' = r.
Proof.
  intros Hl Hr Hm r' Hr' Hm'. assert (H1 : r ∈ List.filter (rule_matches o) l) by (by apply elem_of_filter_bool).
  assert (H2 : r' ∈ List.filter (rule_matches o) l) by (by apply elem_of_filter_bool).
  destruct (List.filter (rule_matches o) l) as [|x [|y l']]; [set_solver| |simpl in Hl; lia]. set_solver.
Qed.

Lemma copies_once o r (l : list RuleMessage) :
  (length (List.filter (rule_matches o) l) <= 1)%nat -> rule_matches o r = true ->
  (length (List.filter (fun x => bool_decide (x = r)) l) <= 1)%nat.
Proof.
  intros Hl Hm. etrans; [|exact Hl]. clear Hl. induction l as [|x l IH]; simpl; [done|].
  case_bool_decide as E; simpl; [subst; rewrite Hm; simpl; lia|]. destruct (rule_matches o x); simpl; lia.
Qed.

(** One round of the loop. *)
Lemma remove_match rules o (l : list RuleMessage) :
  (length (List.filter (rule_matches o) rules) <= 1)%nat -> l `sublist_of` rules ->
  match matching_rule rules o with
  | Some r => remove_first (fun x => bool_decide (x = r)) l
  | None => l
  end = without [o] l.
Proof.
  intros Hu Hl. assert (Hsub : forall x, x ∈ l -> x ∈ rules) by (intros x Hx; by eapply elem_of_sublist).
  pose proof (find_spec rules o) as Hf. unfold without. destruct (matching_rule rules o) as [r|].
  - destruct Hf as [Hr Hm]. rewrite remove_first_filter.
    + apply filter_ext_in. intros x Hx. simpl. rewrite orb_false_r. f_equal. case_bool_decide as E; [by subst|].
      destruct (rule_matches o x) eqn:Ex; [|done]. destruct E. by eapply matches_once; eauto.
    + pose proof (filter_length_sublist (fun x => bool_decide (x = r)) _ _ Hl). pose proof (copies_once o r rules Hu Hm). lia.
  - rewrite (filter_ext_in _ (fun _ => true)); [|intros x Hx; simpl; by rewrite Hf by auto].
    clear. induction l as [|x l IH]; simpl; [done | by f_equal].
Qed.

Lemma without_app os os' l : without os' (without os l) = without (os ++ os') l.
Proof.
  unfold without. rewrite filter_filter. apply filter_ext_in. intros r _. rewrite existsb_app.
  by rewrite negb_orb.
Qed.

(** Matching is within a family. *)
Lemma no_match_elsewhere o f k r : f <> family (header o) -> r ∈ fib_rules f k -> rule_matches o r = false.
Proof.
  intros Hf Hr. destruct (rule_matches o r) eqn:E; [|done]. apply matches_family in E.
  apply rules_family in Hr. congruence.
Qed.

Lemma without_elsewhere o f k (l : list RuleMessage) :
  f <> family (header o) -> l `sublist_of` fib_rules f k -> without [o] l = l.
Proof.
  intros Hf Hl. unfold without. rewrite (filter_ext_in _ (fun _ => true)).
  - clear. induction l as [|x l IH]; simpl; [done | by f_equal].
  - intros x Hx. simpl. rewrite (no_match_elsewhere o f k); [done..|]. by eapply elem_of_sublist.
Qed.

Definition known (f : AddressFamily) : Prop := f = Inet \/ f = Inet6.

Lemma snapshot_sublist f k : known f -> fib_rules f k `sublist_of` fib_rules Inet k ++ fib_rules Inet6 k.
Proof. intros [-> | ->]; [by apply sublist_inserts_r | by apply sublist_inserts_l]. Qed.

Lemma snapshot_unique m k o :
  unique_rules m k -> o ∈ own_rules m ->
  (length (List.filter (rule_matches o) (fib_rules Inet k ++ fib_rules Inet6 k)) <= 1)%nat.
Proof.
  intros Hu Ho. rewrite List.filter_app, length_app. pose proof (Hu Inet o Ho). pose proof (Hu Inet6 o Ho).
  destruct (decide (family (header o) = Inet)) as [E|E].
  - assert (Hn : List.filter (rule_matches o) (fib_rules Inet6 k) = []) by
      (apply filter_nil_iff; intros r Hr; apply (no_match_elsewhere o Inet6 k); [by rewrite E | done]).
    rewrite Hn. simpl. lia.
  - assert (Hn : List.filter (rule_matches o) (fib_rules Inet k) = []) by
      (apply filter_nil_iff; intros r Hr; apply (no_match_elsewhere o Inet k); [congruence | done]).
    rewrite Hn. simpl. lia.
Qed.

Lemma own_known m o : o ∈ own_rules m -> known (family (header o)).
Proof. unfold own_rules, all_rules, known. rewrite !elem_of_cons. intros [->|[->|[->|[->|[]%elem_of_nil]]]]; simpl; auto. Qed.

Definition clear_one (rules : list RuleMessage) (o : RuleMessage) k : K * result unit PlatformError :=
  match matching_rule rules o with
  | Some found => delete_rule_if_exists found k
  | None => (k, Ok tt)
  end.

Lemma clear_one_ok m k0 o k k' :
  unique_rules m k0 -> o ∈ own_rules m -> fewer_rules k0 k ->
  clear_one (fib_rules Inet k0 ++ fib_rules Inet6 k0) o k = (k', Ok tt) ->
  fib_routes k' = fib_routes k /\ forall f, known f -> fib_rules f k' = without [o] (fib_rules f k).
Proof.
  intros Hu Ho [_ Hs] Hc. unfold clear_one in Hc. pose proof (own_known m o Ho) as Hk.
  pose proof (find_spec (fib_rules Inet k0 ++ fib_rules Inet6 k0) o) as Hf.
  pose proof (fun l Hl => remove_match _ o l (snapshot_unique m k0 o Hu Ho) Hl) as Hm.
  destruct (matching_rule _ o) as [r|].
  - destruct Hf as [_ Hr%matches_family]. pose proof (delete_rule_cases r k) as Hd. rewrite Hc in Hd.
    destruct Hd as (? & Hf & [Hd|[? _]]); [|done]. split; [done|]. intros f Hkf.
    destruct (decide (f = family (header r))) as [->|Hne].
    + rewrite Hd. apply Hm. etrans; [apply Hs | by apply snapshot_sublist].
    + rewrite Hf by done. rewrite Hr in Hne. by rewrite (without_elsewhere o f k0).
  - simplify_eq. split; [done|]. intros f Hkf. apply Hm. etrans; [apply Hs | by apply snapshot_sublist].
Qed.

Lemma clear_one_fewer rules o k : fewer_rules k (clear_one rules o k).1.
Proof. unfold clear_one. destruct (matching_rule rules o); [apply delete_rule_fewer | apply fewer_refl]. Qed.

Lemma clear_all_ok m k0 os k k' :
  unique_rules m k0 -> (forall o, o ∈ os -> o ∈ own_rules m) -> fewer_rules k0 k ->
  each (clear_one (fib_rules Inet k0 ++ fib_rules Inet6 k0)) os k = (k', Ok tt) ->
  fib_routes k' = fib_routes k /\ forall f, known f -> fib_rules f k' = without os (fib_rules f k).
Proof.
  intros Hu. revert k. induction os as [|o os IH]; intros k Hos Hs He; simpl in He.
  - simplify_eq. split; [done|]. intros f _. unfold without. simpl. clear. induction (fib_rules f k'); simpl; congruence.
  - pose proof (clear_one_fewer (fib_rules Inet k0 ++ fib_rules Inet6 k0) o k) as Hf.
    destruct (clear_one _ o k) as [k1 [[]|]] eqn:E; [|done]. simpl in Hf.
    destruct (clear_one_ok m k0 o k k1 Hu ltac:(set_solver) Hs E) as [Hr1 Hf1].
    destruct (IH k1 ltac:(set_solver) (fewer_trans _ _ _ Hs Hf) He) as [Hr2 Hf2]. split; [congruence|].
    intros f Hk. rewrite Hf2, Hf1 by done. apply without_app.
Qed.

(** Clearing takes away the manager's rules and no others. *)
Lemma clear_ok m k k' :
  unique_rules m k -> clear_routing_rules m k = (k', Ok tt) ->
  fib_routes k' = fib_routes k /\ forall f, known f -> fib_rules f k' = without (own_rules m) (fib_rules f k).
Proof.
  unfold clear_routing_rules. intros Hu Hc. destruct (get_rules k) as [rules|] eqn:E; [|done].
  apply get_rules_ok in E. subst. by apply (clear_all_ok m k (own_rules m)); [| |apply fewer_refl|].
Qed.

(** ** Creating rules *)
Definition fwmark_rule m (f : AddressFamily) : RuleMessage :=
  match f with Inet => no_fwmark_rule_v4 (fwmark m) (tunnel_table m) | _ => no_fwmark_rule_v6 (fwmark m) (tunnel_table m) end.
Definition suppress_rule (f : AddressFamily) : RuleMessage :=
  match f with Inet => SUPPRESS_RULE_V4 | _ => SUPPRESS_RULE_V6 end.

Definition add_rule (rule : RuleMessage) k : K * result unit PlatformError := requested (fun _ => false) (nl_new_rule rule k).

Lemma strict_errors ps : first_error (fun _ => false) ps = Ok tt <-> no_errors ps = true.
Proof. induction ps as [|[] ps IH]; simpl; naive_solver. Qed.

Lemma add_rule_cases r k :
  let '(k', a) := add_rule r k in
  fib_routes k' = fib_routes k
  /\ (forall f, f <> family (header r) -> fib_rules f k' = fib_rules f k)
  /\ ((exists r', kernel_rule r r' /\ (plain r = true -> forall p, fib_other r' p = true)
          /\ fib_rules (family (header r)) k' = place r' (fib_rules (family (header r)) k))
      \/ a <> Ok tt /\ fib_rules (family (header r)) k' = fib_rules (family (header r)) k).
Proof.
  unfold add_rule, requested. pose proof (new_rule_law r k) as Hl. destruct (nl_new_rule r k) as [k' a]. simpl.
  destruct Hl as (Hr & Hf & Ha). split_and!; [done..|]. destruct a as [ps|]; [|by right].
  destruct (no_errors ps) eqn:E; [by left|]. right. split; [|done]. intros He. apply strict_errors in He. congruence.
Qed.

Definition matched o (l : list RuleMessage) : nat := length (List.filter (rule_matches o) l).

Lemma matched_place o r l : matched o (place r l) = (matched o [r] + matched o l)%nat.
Proof.
  destruct l as [|x l]; unfold matched; simpl; [lia|]. destruct (rule_matches o x), (rule_matches o r); simpl; lia.
Qed.

Lemma suppress_none r n : rule_suppress r = None -> n <> u32_max -> SuppressPrefixLen n ∉ attributes r.
Proof.
  unfold rule_suppress. intros Hs Hn Hin. destruct (omap _ (attributes r)) as [|x l] eqn:E; [|done].
  assert (Hx : n ∈ omap (fun a => match a with SuppressPrefixLen n => if (n =? u32_max)%Z then None else Some n | _ => None end) (attributes r)).
  { apply list_elem_of_omap. exists (SuppressPrefixLen n). split; [done|]. by rewrite (proj2 (Z.eqb_neq _ _) Hn). }
  rewrite E in Hx. set_solver.
Qed.

(** What the kernel keeps of one of the manager's rules matches that rule and no other. *)
Lemma kernel_matches m o o' r :
  o ∈ own_rules m -> o' ∈ own_rules m -> kernel_rule o r -> rule_matches o' r = true -> o' = o.
Proof.
  unfold own_rules, all_rules. rewrite !elem_of_cons, !elem_of_nil. intros Ho Ho' (Hh & Ha & _ & _ & Hs) Hm.
  unfold rule_matches in Hm. rewrite !andb_true_iff, !bool_decide_eq_true, Hh in Hm. destruct Hm as (((Hf & _) & Hi) & Hall).
  assert (Hn : rule_suppress o = None -> SuppressPrefixLen 0 ∉ attributes r) by
    (intros Hso; apply suppress_none; [by rewrite Hs | done]).
  destruct Ho as [->|[->|[->|[->|[]]]]], Ho' as [->|[->|[->|[->|[]]]]]; unfold RuleFlags_Invert in *; simpl in *; try done;
    rewrite !andb_true_iff, !bool_decide_eq_true in Hall; by destruct (Hn eq_refl); destruct Hall.
Qed.

Lemma add_rule_matched m o o' f k :
  o ∈ own_rules m -> o' ∈ own_rules m ->
  (matched o' (fib_rules f (add_rule o k).1) <= matched o' (fib_rules f k) + if decide (o' = o) then 1 else 0)%nat.
Proof.
  intros Ho Ho'. pose proof (add_rule_cases o k) as Hc. destruct (add_rule o k) as [k' a]. simpl.
  destruct Hc as (_ & Hf & Hc). destruct (decide (f = family (header o))) as [->|Hne]; [|rewrite Hf by done; lia].
  destruct Hc as [(r & Hr & _ & ->)|[_ ->]]; [|lia]. rewrite matched_place. unfold matched at 1. simpl.
  destruct (rule_matches o' r) eqn:E; simpl; [|lia]. rewrite (kernel_matches m o o' r Ho Ho' Hr E), decide_True by done. lia.
Qed.

Lemma add_all_matched m os k f o' :
  NoDup os -> (forall o, o ∈ os -> o ∈ own_rules m) -> o' ∈ own_rules m ->
  (matched o' (fib_rules f (each add_rule os k).1) <= matched o' (fib_rules f k) + if decide (o' ∈ os) then 1 else 0)%nat.
Proof.
  intros Hd Hos Ho'. revert k. induction Hd as [|o os Ho Hd IH]; intros k; cbn [each fst]; [lia|].
  pose proof (add_rule_matched m o o' f k ltac:(set_solver) Ho') as Ha. destruct (add_rule o k) as [k1 [|]]; simpl in *.
  - specialize (IH ltac:(set_solver) k1). destruct (decide (o' = o)) as [->|].
    + rewrite decide_False in IH by done. rewrite decide_True by set_solver.
      lia.
    + destruct (decide (o' ∈ os)); [rewrite decide_True by set_solver; lia|]. rewrite decide_False by set_solver. lia.
  - destruct (decide (o' = o)); [rewrite decide_True by set_solver; lia|]. destruct (decide (o' ∈ o :: os)); lia.
Qed.

Lemma own_nodup m : NoDup (own_rules m).
Proof. unfold own_rules, all_rules. repeat constructor; rewrite ?elem_of_cons, elem_of_nil; intros Hx; naive_solver. Qed.

Lemma nodup_filter {A} (f : A -> bool) (l : list A) : NoDup l -> NoDup (List.filter f l).
Proof.
  induction 1 as [|x l Hx Hd IH]; simpl; [constructor|]. destruct (f x); [|done].
  constructor; [|done]. by intros [Hin _]%elem_of_filter_bool.
Qed.

(** However creating and clearing ends, no rule is there twice. *)
Lemma create_unique en m k : unique_rules m k -> unique_rules m (create_routing_rules en m k).1.
Proof.
  intros Hu. unfold create_routing_rules. pose proof (clear_fewer m k) as Hf.
  destruct (clear_routing_rules m k) as [k1 [[]|]] eqn:E; [|by eapply fewer_unique]. simpl in Hf.
  destruct (clear_ok m k k1 Hu E) as [_ Hc]. intros f o Ho. fold (matched o).
  set (os := List.filter (fun rule => bool_decide (family (header rule) = Inet) || en) (own_rules m)).
  assert (Ha : (matched o (fib_rules f (each add_rule os k1).1) <= matched o (fib_rules f k1) + if decide (o ∈ os) then 1 else 0)%nat).
  { apply (add_all_matched m); [apply nodup_filter, own_nodup | by intros o' [? _]%elem_of_filter_bool | done]. }
  assert (Hz : matched o (fib_rules f k1) = 0%nat); [|rewrite Hz in Ha; etrans; [exact Ha|]; case_decide; lia].
  unfold matched. rewrite (proj2 (filter_nil_iff _ _)); [done|]. intros r Hr.
  destruct (decide (f = family (header o))) as [->|Hne]; [|by eapply no_match_elsewhere].
  rewrite Hc in Hr by (by eapply own_known). apply elem_of_filter_bool in Hr as [_ Hn].
  destruct (rule_matches o r) eqn:Em; [|done]. apply negb_true_iff in Hn.
  assert (Hex : existsb (fun o => rule_matches o r) (own_rules m) = true); [|congruence].
  apply existsb_exists. exists o. split; [by apply list_elem_of_In | done].
Qed.

(** The rules of a family after a success: the manager's two, the first of them first. *)
Definition ruled m f k k' : Prop :=
  exists s n, kernel_rule (suppress_rule f) s /\ kernel_rule (fwmark_rule m f) n
    /\ (forall p, fib_other s p = true /\ fib_other n p = true)
    /\ fib_rules f k' = place s (place n (without (own_rules m) (fib_rules f k))).

Definition kept o r : Prop := kernel_rule o r /\ (plain o = true -> forall p, fib_other r p = true).

Lemma add_each_ok f os k k' :
  each add_rule os k = (k', Ok tt) ->
  exists rs, Forall2 kept (List.filter (fun o => bool_decide (family (header o) = f)) os) rs
    /\ fib_rules f k' = foldl (fun l r => place r l) (fib_rules f k) rs.
Proof.
  revert k. induction os as [|o os IH]; intros k; cbn [each List.filter]; [intros [= ->]; by exists []|].
  pose proof (add_rule_cases o k) as Hc. destruct (add_rule o k) as [k1 [[]|]]; [|done]. intros He.
  destruct (IH k1 He) as (rs & Hrs & Hk). destruct Hc as (_ & Hf & [(r & Hr & Or & Hp)|[? _]]); [|done].
  case_bool_decide as E; [|exists rs; rewrite <- (Hf f) by congruence; done].
  subst f. exists (r :: rs). split; [by constructor|]. cbn [foldl]. by rewrite <- Hp.
Qed.

Lemma fewer_create_routes en m k : fib_routes (create_routing_rules en m k).1 = fib_routes k.
Proof.
  unfold create_routing_rules. pose proof (clear_fewer m k) as [Hr _]. destruct (clear_routing_rules m k) as [k1 [|]]; [|done].
  simpl in Hr. rewrite <- Hr. clear Hr. generalize (List.filter (fun rule => bool_decide (family (header rule) = Inet) || en) (all_rules (fwmark m) (tunnel_table m))).
  intros os. revert k1. induction os as [|o os IH]; intros k1; cbn [each fst]; [done|].
  pose proof (add_rule_cases o k1) as Hc. unfold add_rule in Hc. destruct (requested _ _) as [k2 [|]]; simpl; [|naive_solver].
  rewrite IH. naive_solver.
Qed.

(** Created rules are in place, before the others but the first, for each family asked for. *)
Lemma create_ok en m k k' :
  unique_rules m k -> create_routing_rules en m k = (k', Ok tt) ->
  fib_routes k' = fib_routes k /\ ruled m Inet k k' /\ (if en then ruled m Inet6 k k' else True).
Proof.
  intros Hu Hc. split; [by rewrite <- (fewer_create_routes en m k), Hc|]. unfold create_routing_rules in Hc.
  destruct (clear_routing_rules m k) as [k0 [[]|]] eqn:E; [|done]. destruct (clear_ok m k k0 Hu E) as [_ H0].
  change (each add_rule (List.filter (fun rule => bool_decide (family (header rule) = Inet) || en) (own_rules m)) k0 = (k', Ok tt)) in Hc.
  assert (Hr : forall f, known f -> (f = Inet \/ en = true) -> ruled m f k k').
  { intros f Hk Hen. destruct (add_each_ok f _ _ _ Hc) as (rs & Hrs & Hk'). unfold ruled. rewrite <- H0 by done.
    assert (Hf : List.filter (fun o => bool_decide (family (header o) = f))
              (List.filter (fun rule => bool_decide (family (header rule) = Inet) || en) (own_rules m))
            = [fwmark_rule m f; suppress_rule f]) by (destruct Hk as [-> | ->], en; naive_solver).
    rewrite Hf in Hrs. apply Forall2_cons_inv_l in Hrs as (n & rs1 & [Hn On] & Hrs & ->).
    apply Forall2_cons_inv_l in Hrs as (s & rs2 & [Hs Os] & ->%Forall2_nil_inv_l & ->). exists s, n.
    split_and!; [done..| |done]. intros p. split; [apply Os | apply On]; by destruct Hk as [-> | ->]. }
  split; [apply Hr; [by left | by left]|]. destruct en; [|done]. apply Hr; [by right | by right].
Qed.

(** ** No rule is there twice, whatever the manager is asked to do *)
Lemma add_route_rules route m k f :
  let '(m', k', _) := add_route route m k in
  fib_rules f k' = fib_rules f k /\ fwmark m' = fwmark m /\ tunnel_table m' = tunnel_table m.
Proof.
  unfold add_route, add_route_direct. pose proof (add_route_law (add_request m route) k) as Hl.
  destruct (nl_add_route _ k) as [k' [|]]; simpl; by destruct Hl as [-> _].
Qed.

Lemma add_all_rules l m k f :
  let '(m', k', _) := add_all l m k in
  fib_rules f k' = fib_rules f k /\ fwmark m' = fwmark m /\ tunnel_table m' = tunnel_table m.
Proof.
  revert m k. induction l as [|r l IH]; intros m k; simpl; [done|]. pose proof (add_route_rules r m k f) as Ha.
  destruct (add_route r m k) as [[m1 k1] [|]]; simpl; [|done]. specialize (IH m1 k1).
  destruct (add_all l m1 k1) as [[m2 k2] ?]. naive_solver congruence.
Qed.

Lemma cleanup_rules m k f :
  fib_rules f (cleanup_routes m k).2 = fib_rules f k.
Proof.
  unfold cleanup_routes. simpl. generalize (hash_order (added_routes m)). intros l. revert k.
  induction l as [|r l IH]; intros k; simpl; [done|]. rewrite IH. unfold delete_route_if_exists.
  pose proof (del_route_law (delete_request m r) k) as Hl. destruct (nl_del_route _ k) as [k' [|]]; simpl; apply Hl.
Qed.

Lemma unique_ext m m' k k' :
  fwmark m' = fwmark m -> tunnel_table m' = tunnel_table m -> (forall f, fib_rules f k' = fib_rules f k) ->
  unique_rules m k -> unique_rules m' k'.
Proof. unfold unique_rules, own_rules. intros -> -> Hf Hu f o Ho. rewrite Hf. by apply Hu. Qed.

Lemma turn_unique e m k (m' : option RouteManagerImpl) k' out :
  unique_rules m k -> run_turn e m k = (m', k', out) -> unique_rules m k' /\ (forall x, m' = Some x -> own_rules x = own_rules m).
Proof.
  intros Hu. destruct e as [c|opened msg]; simpl.
  - destruct c; simpl; intros Ht.
    + pose proof (fun f => add_all_rules (hash_order (remove_dups (map (normal_route m) routes))) m k f) as Ha.
      unfold add_required_routes in Ht. destruct (add_all _ m k) as [[m1 k1] r]. simplify_eq/=. split.
      * eapply unique_ext; [done|done| |done]. intros f. by destruct (Ha f).
      * intros x [= <-]. unfold own_rules. destruct (Ha Inet) as (_ & -> & ->). done.
    + simplify_eq/=. split; [|by intros x [= <-]]. eapply unique_ext; [done|done| |done]. apply cleanup_rules.
    + simplify_eq/=. split; [|done]. eapply fewer_unique; [apply clear_fewer|].
      eapply unique_ext; [done|done| |done]. apply cleanup_rules.
    + pose proof (create_unique enable_ipv6 m k Hu) as Hc. destruct (create_routing_rules enable_ipv6 m k). simplify_eq/=.
      split; [done|]. by intros x [= <-].
    + pose proof (fewer_unique m _ _ (clear_fewer m k) Hu) as Hc. destruct (clear_routing_rules m k). simplify_eq/=.
      split; [done|]. by intros x [= <-].
    + simplify_eq/=. split; [done|]. by intros x [= <-].
    + destruct (get_mtu_for_route m ip k); simplify_eq/=; naive_solver.
    + simplify_eq/=. split; [done|]. by intros x [= <-].
  - assert (Hm : own_rules (process_netlink_message opened msg m).1 = own_rules m).
    { unfold own_rules. destruct msg as [link|link|r|r|]; simpl; [done| |..|done].
      - by destruct (map_interface link) as [[]|].
      - by destruct (parse_route_message m r) as [[]|].
      - by destruct (parse_route_message m r) as [[]|]. }
    destruct (process_netlink_message opened msg m) as [m1 o1]. intros Ht. injection Ht as <- <- <-. split; [done|]. by intros x [= <-].
Qed.
End rules.

(** ** What the rules make of a packet *)
Section decision.
Context {K : Type} `{RT : Rtnetlink K} {RL : RtnetlinkLaws K} `{O : IpNetworkOps}.
Implicit Types (k : K) (m : RouteManagerImpl) (p : Packet).

Lemma best_elem l x : best l = Some x -> x ∈ l.
Proof.
  revert x. induction l as [|y l IH]; simpl; [done|]. intros x. destruct (best l) as [z|]; [destruct (better y z)|];
    intros [= ->]; set_solver.
Qed.

Lemma best_some l x : x ∈ l -> is_Some (best l).
Proof. destruct l as [|y l]; simpl; [set_solver|]. intros _. destruct (best l) as [z|]; [destruct (better y z)|]; eauto. Qed.

Lemma table_lookup_elem t dst routes x :
  table_lookup t dst routes = Some x -> x ∈ routes /\ fib_table x = t /\ net_contains (fib_dst x) dst = true.
Proof.
  unfold table_lookup. intros Hx%best_elem. apply elem_of_filter_bool in Hx as [? Hx].
  unfold in_table in Hx. rewrite andb_true_iff, bool_decide_eq_true in Hx. tauto.
Qed.

Lemma table_lookup_some t dst routes x :
  x ∈ routes -> fib_table x = t -> net_contains (fib_dst x) dst = true -> is_Some (table_lookup t dst routes).
Proof.
  intros Hx Ht Hc. apply (best_some _ x), elem_of_filter_bool. split; [done|]. unfold in_table.
  by rewrite bool_decide_eq_true_2, Hc.
Qed.

(** A route of the main table that is more specific than a default route. *)
Definition specific p (routes : list FibRoute) : option FibRoute :=
  match table_lookup RT_TABLE_MAIN (pkt_dst p) routes with
  | Some x => if (net_prefix (fib_dst x) <=? 0)%Z then None else Some x
  | None => None
  end.

Lemma suppress_lookup f s p routes :
  known f -> kernel_rule (suppress_rule f) s -> rule_lookup p routes s = specific p routes.
Proof.
  intros Hk (_ & _ & _ & Ht & Hs). unfold rule_lookup. rewrite Ht, Hs. by destruct Hk as [-> | ->].
Qed.

Lemma suppress_selects f s p :
  known f -> kernel_rule (suppress_rule f) s -> fib_other s p = true -> rule_selects fib_other p s = true.
Proof.
  intros Hk (Hh & _ & Hm & _) Ho. unfold rule_selects. rewrite Hh, Hm, Ho. by destruct Hk as [-> | ->].
Qed.

Lemma fwmark_lookup m f n p routes :
  known f -> kernel_rule (fwmark_rule m f) n -> rule_lookup p routes n = table_lookup (tunnel_table m) (pkt_dst p) routes.
Proof.
  intros Hk (_ & _ & _ & Ht & Hs). unfold rule_lookup. rewrite Ht, Hs.
  destruct Hk as [-> | ->]; simpl; by destruct (table_lookup _ _ _).
Qed.

Lemma fwmark_selects m f n p :
  known f -> kernel_rule (fwmark_rule m f) n -> fib_other n p = true ->
  rule_selects fib_other p n = negb (pkt_mark p =? fwmark m)%Z.
Proof.
  intros Hk (Hh & _ & Hm & _) Ho. unfold rule_selects. rewrite Hh, Hm, Ho.
  destruct Hk as [-> | ->]; simpl; by rewrite andb_true_r.
Qed.

(** A packet without the mark is routed by a specific route of the main table, else by the table of the tunnel, else
    as without the manager; one with the mark is never routed by the table of the tunnel. *)
Lemma routing_decision m k k' p l0 rest :
  ruled m (family_of (pkt_dst p)) k k' -> without (own_rules m) (fib_rules (family_of (pkt_dst p)) k) = l0 :: rest ->
  fib_lookup fib_other p [l0] (fib_routes k') = None ->
  fib_lookup fib_other p (fib_rules (family_of (pkt_dst p)) k') (fib_routes k')
  = match specific p (fib_routes k') with
    | Some x => Some x
    | None =>
        if (pkt_mark p =? fwmark m)%Z then fib_lookup fib_other p rest (fib_routes k')
        else match table_lookup (tunnel_table m) (pkt_dst p) (fib_routes k') with
             | Some x => Some x
             | None => fib_lookup fib_other p rest (fib_routes k')
             end
    end.
Proof.
  assert (Hk : known (family_of (pkt_dst p))) by (unfold known; destruct (pkt_dst p); simpl; auto).
  intros (s & n & Hs & Hn & Ho & Hr) Hw H0. rewrite Hr, Hw. simpl. simpl in H0. destruct (Ho p) as [Os On].
  assert (E0 : forall l, (if rule_selects fib_other p l0 then match rule_lookup p (fib_routes k') l0 with Some x => Some x | None => l end else l) = l).
  { intros l. destruct (rule_selects fib_other p l0); [|done]. by destruct (rule_lookup p (fib_routes k') l0). }
  rewrite E0, (suppress_selects _ s), (suppress_lookup _ s) by eauto. destruct (specific p (fib_routes k')); [done|].
  rewrite (fwmark_selects m _ n), (fwmark_lookup m _ n) by eauto. by destruct (pkt_mark p =? fwmark m)%Z.
Qed.
End decision.

(** * Routes in the kernel

    What adding the routes of a tunnel leaves in the kernel's tables, and what clearing takes away. *)

Section adding.
Context {K : Type} `{RT : Rtnetlink K} {RL : RtnetlinkLaws K}.
Implicit Types (k : K) (m : RouteManagerImpl) (r : Route).

Definition entry m r : FibRoute := fib_of (add_request m r).

(** What a request says depends on the links the manager knows. *)
Definition same_links m m' : Prop :=
  iface_map m' = iface_map m /\ fwmark m' = fwmark m /\ tunnel_table m' = tunnel_table m.

Lemma entry_ext m m' r : same_links m m' -> entry m' r = entry m r.
Proof. intros (Hi & _). unfold entry, fib_of, add_request, oif_of, find_iface_idx. simpl. by rewrite Hi. Qed.

(** A route that leads somewhere. *)
Definition leads (x : FibRoute) : Prop := fib_oif x <> None \/ fib_gateway x <> None.

Lemma add_route_routes r m k m' k' a :
  add_route r m k = (m', k', a) ->
  same_links m m' /\ (forall f, fib_rules f k' = fib_rules f k)
  /\ match a with
     | Ok _ => fib_routes k' = fib_replace (entry m r) (fib_routes k) /\ leads (entry m r)
     | Err _ => fib_routes k' = fib_routes k
     end.
Proof.
  unfold add_route, add_route_direct. pose proof (add_route_law (add_request m r) k) as Hl.
  destruct (nl_add_route _ k) as [k1 [[]|]]; simpl; intros [= <- <- <-]; destruct Hl as [Hf Hr]; done.
Qed.

Lemma same_key_iff (x y : FibRoute) :
  same_key x y = true <-> fib_table x = fib_table y /\ fib_dst x = fib_dst y /\ fib_priority x = fib_priority y.
Proof. unfold same_key. rewrite !andb_true_iff, !bool_decide_eq_true. tauto. Qed.

Lemma add_all_routes l m k m' k' :
  add_all l m k = (m', k', Ok tt) ->
  same_links m m' /\ (forall f, fib_rules f k' = fib_rules f k)
  /\ (forall x, x ∈ fib_routes k' -> x ∈ fib_routes k \/ exists r, r ∈ l /\ x = entry m r /\ leads x)
  /\ (forall x, (x ∈ fib_routes k \/ exists r, r ∈ l /\ x = entry m r) ->
        exists y, y ∈ fib_routes k' /\ fib_table y = fib_table x /\ fib_dst y = fib_dst x).
Proof.
  revert m k. induction l as [|r l IH]; intros m k; simpl.
  - intros [= <- <-]. split_and!; [done..|by left|]. intros x [Hx|(r & Hr & _)]; [by exists x | set_solver].
  - destruct (add_route r m k) as [[m1 k1] [[]|]] eqn:E; [|done]. intros Hall.
    destruct (add_route_routes _ _ _ _ _ _ E) as (Hs1 & Hf1 & Hr1 & Hlead).
    destruct (IH m1 k1 Hall) as (Hs & Hf & Hin & Hex).
    assert (Hent : forall r, entry m1 r = entry m r) by (intros; by apply entry_ext).
    split; [unfold same_links in *; naive_solver congruence|]. split; [intros f; by rewrite Hf|]. split.
    + intros x Hx. apply Hin in Hx as [Hx|(r' & Hr' & -> & Hl')]; [|rewrite Hent in *; right; exists r'; set_solver].
      rewrite Hr1 in Hx. apply elem_of_cons in Hx as [->|Hx]; [right; exists r; set_solver|].
      apply elem_of_filter_bool in Hx as [Hx _]. by left.
    + intros x Hx. assert (Hx1 : x ∈ fib_routes k1 \/ (exists r', r' ∈ l /\ x = entry m1 r')
                               \/ (entry m r ∈ fib_routes k1 /\ fib_table (entry m r) = fib_table x /\ fib_dst (entry m r) = fib_dst x)).
      { rewrite Hr1. destruct Hx as [Hx|(r' & Hr' & ->)].
        - destruct (same_key (entry m r) x) eqn:Ek.
          + right. right. apply same_key_iff in Ek as (? & ? & _). split; [set_solver|done].
          + left. apply elem_of_cons. right. apply elem_of_filter_bool. by rewrite Ek.
        - apply elem_of_cons in Hr' as [->|Hr']; [left; set_solver|]. right. left. exists r'. by rewrite Hent. }
      destruct Hx1 as [Hx1|[Hx1|(Hx1 & Ht & Hd)]]; [apply Hex; by left|apply Hex; by right|].
      destruct (Hex (entry m r)) as (y & Hy & Hyt & Hyd); [by left|]. exists y. split_and!; [done|congruence..].
Qed.

Lemma add_required_ok required m k m' k' :
  add_required_routes required m k = (m', k', Ok tt) ->
  same_links m m' /\ (forall f, fib_rules f k' = fib_rules f k)
  /\ (forall x, x ∈ fib_routes k' -> x ∈ fib_routes k \/ exists r : RequiredRoute, r ∈ required /\ x = entry m (normal_route m r) /\ leads x)
  /\ (forall r : RequiredRoute, r ∈ required -> exists y, y ∈ fib_routes k'
        /\ fib_table y = fib_table (entry m (normal_route m r)) /\ fib_dst y = rr_prefix r).
Proof.
  unfold add_required_routes. intros Hall. apply add_all_routes in Hall as (Hs & Hf & Hin & Hex). split_and!; [done..| |].
  - intros x Hx. apply Hin in Hx as [Hx|(r & Hr & Hx & Hl)]; [by left|]. right.
    rewrite hash_order_perm, elem_of_remove_dups, list_elem_of_fmap in Hr. destruct Hr as (q & -> & Hq). by exists q.
  - intros r Hr. destruct (Hex (entry m (normal_route m r))) as (y & Hy & Ht & Hd); [|by exists y].
    right. exists (normal_route m r). split; [|done]. rewrite hash_order_perm, elem_of_remove_dups, list_elem_of_fmap. by exists r.
Qed.

(** The tables routes go to. *)
Lemma entry_table m (r : RequiredRoute) :
  (255 < tunnel_table m)%Z ->
  fib_table (entry m (normal_route m r)) = if main_table r then RT_TABLE_MAIN else tunnel_table m.
Proof.
  intros Ht. unfold entry, fib_of, add_request, normal_route, compat_table_id. simpl. destruct (main_table r); [done|].
  rewrite (proj2 (Z.gtb_lt _ _)) by lia. done.
Qed.

Lemma entry_oif m (r : RequiredRoute) name :
  rr_node r = Node_device name -> fib_oif (entry m (normal_route m r)) = find_iface_idx name m
  /\ fib_gateway (entry m (normal_route m r)) = None.
Proof. intros Hn. unfold entry, fib_of, add_request, normal_route, oif_of. simpl. by rewrite Hn. Qed.
End adding.
