(* ===== verification/WireguardTunnel.v ===== *)
(** * The WireGuard tunnel

    [src/talpid-wireguard/src/config.rs], [obfuscation.rs], [ephemeral.rs] and [lib.rs]: the configuration of a
    tunnel, its MTU, the obfuscator in front of it, the exchange of ephemeral peers, the routes, and the
    order in which [WireguardMonitor::start] sets all this up and reports it.

    The future that [start] spawns is a program over the services it uses, the class [TunnelServices], and
    over the route manager; its trace records what it does in order, so that a future that is aborted leaves
    a prefix of a trace. *)

From stdpp Require Import base list strings option numbers gmap.
From S2P Require Import Prelude NetTypes TunnelTypes TunnelMonitor Routing.

(** ** The configuration *)
Record Config : Type := {
  c_tunnel : TunnelConfig;
  entry_peer : PeerConfig;
  c_exit_peer : option PeerConfig;
  c_ipv4_gateway : Z;
  c_ipv6_gateway : option Z;
  c_mtu : Z;
  c_fwmark : option Z;
  c_enable_ipv6 : bool;
  obfuscator_config : option Obfuscators;
  c_quantum_resistant : bool;
  c_daita : bool;
}.

Inductive ConfigError : Type := InvalidTunnelIpError | InvalidPeerIpError.

Definition set_allowed_ips (l : list IpNetwork) (p : PeerConfig) : PeerConfig :=
  {| public_key := public_key p; allowed_ips := l; peer_endpoint := peer_endpoint p; psk := psk p;
     constant_packet_size := constant_packet_size p |}.
Definition set_peer_endpoint (a : SocketAddr) (p : PeerConfig) : PeerConfig :=
  {| public_key := public_key p; allowed_ips := allowed_ips p; peer_endpoint := a; psk := psk p;
     constant_packet_size := constant_packet_size p |}.
Definition set_psk (k : option string) (p : PeerConfig) : PeerConfig :=
  {| public_key := public_key p; allowed_ips := allowed_ips p; peer_endpoint := peer_endpoint p; psk := k;
     constant_packet_size := constant_packet_size p |}.
Definition set_constant_packet_size (b : bool) (p : PeerConfig) : PeerConfig :=
  {| public_key := public_key p; allowed_ips := allowed_ips p; peer_endpoint := peer_endpoint p; psk := psk p;
     constant_packet_size := b |}.

Definition set_entry_peer (p : PeerConfig) (c : Config) : Config :=
  {| c_tunnel := c_tunnel c; entry_peer := p; c_exit_peer := c_exit_peer c; c_ipv4_gateway := c_ipv4_gateway c;
     c_ipv6_gateway := c_ipv6_gateway c; c_mtu := c_mtu c; c_fwmark := c_fwmark c; c_enable_ipv6 := c_enable_ipv6 c;
     obfuscator_config := obfuscator_config c; c_quantum_resistant := c_quantum_resistant c; c_daita := c_daita c |}.
Definition set_exit_peer (p : option PeerConfig) (c : Config) : Config :=
  {| c_tunnel := c_tunnel c; entry_peer := entry_peer c; c_exit_peer := p; c_ipv4_gateway := c_ipv4_gateway c;
     c_ipv6_gateway := c_ipv6_gateway c; c_mtu := c_mtu c; c_fwmark := c_fwmark c; c_enable_ipv6 := c_enable_ipv6 c;
     obfuscator_config := obfuscator_config c; c_quantum_resistant := c_quantum_resistant c; c_daita := c_daita c |}.
Definition set_mtu (mtu : Z) (c : Config) : Config :=
  {| c_tunnel := c_tunnel c; entry_peer := entry_peer c; c_exit_peer := c_exit_peer c; c_ipv4_gateway := c_ipv4_gateway c;
     c_ipv6_gateway := c_ipv6_gateway c; c_mtu := mtu; c_fwmark := c_fwmark c; c_enable_ipv6 := c_enable_ipv6 c;
     obfuscator_config := obfuscator_config c; c_quantum_resistant := c_quantum_resistant c; c_daita := c_daita c |}.
Definition set_private_key (k : string) (c : Config) : Config :=
  {| c_tunnel := {| private_key := k; addresses := addresses (c_tunnel c) |}; entry_peer := entry_peer c;
     c_exit_peer := c_exit_peer c; c_ipv4_gateway := c_ipv4_gateway c; c_ipv6_gateway := c_ipv6_gateway c;
     c_mtu := c_mtu c; c_fwmark := c_fwmark c; c_enable_ipv6 := c_enable_ipv6 c;
     obfuscator_config := obfuscator_config c; c_quantum_resistant := c_quantum_resistant c; c_daita := c_daita c |}.

(** [peer.allowed_ips.retain(..)], and an error if nothing is left. *)
Definition retain_allowed (ipv6 : bool) (p : PeerConfig) : result PeerConfig ConfigError :=
  let p := set_allowed_ips (List.filter (fun n => is_ipv4 (net_ip n) || ipv6) (allowed_ips p)) p in
  if bool_decide (allowed_ips p = []) then Err InvalidPeerIpError else Ok p.

Definition Config_new (connection : ConnectionConfig) (wg_options : TunnelOptions) (generic : GenericTunnelOptions)
    (obfuscator : option Obfuscators) (default_mtu : Z) : result Config ConfigError :=
  let tunnel := cc_tunnel connection in
  let ipv6 := enable_ipv6 generic in
  if bool_decide (addresses tunnel = []) then Err InvalidTunnelIpError
  else
    (exit <-? match exit_peer connection with
              | Some p => p <-? retain_allowed ipv6 p; Ok (Some p)
              | None => Ok None
              end;
     entry <-? retain_allowed ipv6 (peer connection);
     Ok {| c_tunnel := {| private_key := private_key tunnel;
                          addresses := List.filter (fun ip => is_ipv4 ip || ipv6) (addresses tunnel) |};
           entry_peer := entry; c_exit_peer := exit; c_ipv4_gateway := cc_ipv4_gateway connection;
           c_ipv6_gateway := if ipv6 then cc_ipv6_gateway connection else None;
           c_mtu := default default_mtu (mtu wg_options); c_fwmark := cc_fwmark connection; c_enable_ipv6 := ipv6;
           obfuscator_config := obfuscator; c_quantum_resistant := quantum_resistant wg_options;
           c_daita := daita wg_options |})%vpn.

Definition Config_from_parameters (params : TunnelParameters) (default_mtu : Z) : result Config ConfigError :=
  Config_new (connection params) (options params) (generic_options params) (obfuscation params) default_mtu.

Definition is_multihop (c : Config) : bool := match c_exit_peer c with Some _ => true | None => false end.
Definition config_exit_peer (c : Config) : PeerConfig := default (entry_peer c) (c_exit_peer c).
Definition on_exit_peer (f : PeerConfig -> PeerConfig) (c : Config) : Config :=
  match c_exit_peer c with Some p => set_exit_peer (Some (f p)) c | None => set_entry_peer (f (entry_peer c)) c end.
Definition peers (c : Config) : list PeerConfig := option_list (c_exit_peer c) ++ [entry_peer c].
Definition get_tunnel_destinations (c : Config) : list IpNetwork := concat (map allowed_ips (peers c)).

(** ** The MTU: [u16], whose subtraction wraps around *)
Definition u16_sub (a b : Z) : Z := ((a - b) mod 2 ^ 16)%Z.
Definition u16_saturating_sub (a b : Z) : Z := Z.max 0 (a - b).

Definition IPV4_HEADER_SIZE : Z := 20.
Definition IPV6_HEADER_SIZE : Z := 40.
Definition WIREGUARD_HEADER_SIZE : Z := 8 + 32.
Definition MIN_IPV4_MTU : Z := 576.
Definition MIN_IPV6_MTU : Z := 1280.
Definition DEFAULT_MTU : Z := 1380.
Definition MTU_SAFETY_MARGIN : Z := 60.
Definition PADDING_BYTES_MARGIN : Z := 15.

Definition wireguard_overhead (ip : IpAddr) : Z :=
  match ip with
  | V4 _ => IPV4_HEADER_SIZE + WIREGUARD_HEADER_SIZE
  | V6 _ => IPV6_HEADER_SIZE + WIREGUARD_HEADER_SIZE
  end.

(** [Ord::clamp] panics if the bounds are the wrong way round. *)
Definition clamp (lo hi x : Z) : option Z := if (lo <=? hi)%Z then Some (Z.max lo (Z.min hi x)) else None.

Definition clamp_tunnel_mtu (params : TunnelParameters) (mtu : Z) : option Z :=
  let min_mtu := if enable_ipv6 (generic_options params) then MIN_IPV6_MTU else MIN_IPV4_MTU in
  let max_peer_mtu :=
    (1500 - MTU_SAFETY_MARGIN - wireguard_overhead (sa_ip (peer_endpoint (peer (connection params)))))%Z in
  clamp min_mtu max_peer_mtu mtu.

Definition calculate_tunnel_mtu (link_mtu_for_peer : Z) (params : TunnelParameters) (userspace_multihop : bool) : option Z :=
  match mtu (options params) with
  | Some mtu => Some mtu
  | None =>
      let overhead := wireguard_overhead (sa_ip (peer_endpoint (peer (connection params)))) in
      let overhead :=
        match exit_peer (connection params) with
        | Some p => if userspace_multihop then (overhead + wireguard_overhead (sa_ip (peer_endpoint p)))%Z else overhead
        | None => overhead
        end in
      clamp_tunnel_mtu params (u16_saturating_sub link_mtu_for_peer overhead)
  end.

(** [get_route_mtu]: any failure of the query gives the default. *)
Definition get_route_mtu (answer : MtuAnswer) : Z := match answer with Mtu mtu => mtu | _ => DEFAULT_MTU end.

(** ** Routes *)
Definition apply_route_mtu_for_multihop (config : Config) (userspace_wireguard : bool) (route : RequiredRoute) : RequiredRoute :=
  if negb (is_multihop config) || userspace_wireguard then route
  else with_mtu (u16_sub (u16_sub (c_mtu config) (wireguard_overhead (net_ip (rr_prefix route)))) PADDING_BYTES_MARGIN) route.

Definition get_endpoint_routes (endpoints : list IpAddr) : list RequiredRoute := [].

(** [Ipv4Network::from] gives a network of one address. *)
Definition get_pre_tunnel_routes (iface : string) (config : Config) (userspace_wireguard : bool) : list RequiredRoute :=
  let node := Node_device iface in
  map (apply_route_mtu_for_multihop config userspace_wireguard)
    (RequiredRoute_new (v4 (c_ipv4_gateway config) 32) node
       :: match c_ipv6_gateway config with Some g => [RequiredRoute_new (v6 g 128) node] | None => [] end)
  ++ map (fun allowed_ip => RequiredRoute_new allowed_ip node)
       (List.filter (fun n => negb (net_prefix n =? 0)%Z) (get_tunnel_destinations config)).

Definition get_post_tunnel_routes (iface : string) (config : Config) (userspace_wireguard : bool) : list RequiredRoute :=
  map (fun allowed_ip => apply_route_mtu_for_multihop config userspace_wireguard
                           (use_main_table false (RequiredRoute_new allowed_ip (Node_device iface))))
    (List.filter (fun n => (net_prefix n =? 0)%Z) (get_tunnel_destinations config)).

Definition tunnel_metadata (interface_name : string) (config : Config) : TunnelMetadata :=
  {| interface := interface_name; ips := addresses (c_tunnel config); ipv4_gateway := c_ipv4_gateway config;
     ipv6_gateway := c_ipv6_gateway config |}.

(** ** Traffic while the tunnel is configured *)
Definition CONFIG_SERVICE_PORT : Z := 1337.

Definition allowed_traffic_during_tunnel_config (config : Config) : AllowedTunnelTraffic :=
  if c_quantum_resistant config || c_daita config then
    let config_endpoint := Endpoint_new (V4 (c_ipv4_gateway config)) CONFIG_SERVICE_PORT Tcp in
    if is_multihop config
    then TrafficTwo config_endpoint {| address := peer_endpoint (config_exit_peer config); protocol := Udp |}
    else TrafficOne config_endpoint
  else TrafficAll.

Definition allowed_traffic_after_tunnel_config : AllowedTunnelTraffic := TrafficAll.

(** ** Obfuscation *)
Inductive ObfuscationSettings : Type :=
| SUdp2Tcp (peer : SocketAddr) (fwmark : option Z)
| SShadowsocks (shadowsocks_endpoint wireguard_endpoint : SocketAddr) (fwmark : option Z)
| SQuic (quic_endpoint : SocketAddr) (hostname token : string) (wireguard_endpoint : SocketAddr) (mtu : Z) (fwmark : option Z)
| SLwo (server_addr : SocketAddr) (client_public_key server_public_key : string) (fwmark : option Z)
| SMultiplexer (direct : option SocketAddr) (obfuscated : list ObfuscationSettings) (fwmark : option Z).

Definition is_single_lwo (o : Obfuscators) : bool :=
  match o with Single (NetTypes.Lwo _) => true | _ => false end.

Definition patch_endpoint (endpoint : SocketAddr) (config : Config) : Config :=
  set_entry_peer (set_peer_endpoint endpoint (entry_peer config)) config.

(** [AuthToken::new]. *)
Definition AuthToken_new (token : string) : option string := if String.prefix "Bearer" token then None else Some token.

Section obfuscation.
Context (public_key_of : string -> string).

(** [None] is the [unwrap] of a token that does not parse. *)
Definition settings_from_single_config (config : Config) (o : ObfuscatorConfig) (mtu : Z) (fwmark : option Z)
  : option ObfuscationSettings :=
  match o with
  | NetTypes.Udp2Tcp endpoint => Some (SUdp2Tcp endpoint fwmark)
  | NetTypes.Shadowsocks endpoint =>
      Some (SShadowsocks endpoint {| sa_ip := LOCALHOST (is_ipv4 (sa_ip endpoint)); sa_port := 51820 |} fwmark)
  | NetTypes.Quic hostname endpoint auth_token =>
      token ← AuthToken_new auth_token;
      Some (SQuic endpoint hostname token {| sa_ip := LOCALHOST true; sa_port := 51820 |} mtu fwmark)
  | NetTypes.Lwo endpoint =>
      Some (SLwo endpoint (public_key_of (private_key (c_tunnel config))) (public_key (entry_peer config)) fwmark)
  end.

Definition settings_from_config (config : Config) (o : Obfuscators) (mtu : Z) (fwmark : option Z) : option ObfuscationSettings :=
  match o with
  | Single o => settings_from_single_config config o mtu fwmark
  | NetTypes.Multiplexer direct first_obfs remaining_obfs =>
      l ← mapM (fun o => settings_from_single_config config o mtu fwmark) (first_obfs :: remaining_obfs);
      Some (SMultiplexer direct l fwmark)
  end.
End obfuscation.

(** [Obfuscator::packet_overhead]; the lengths of the Shadowsocks cipher are those of its crate. *)
Definition packet_overhead (shadowsocks_overhead : IpAddr -> Z) (s : ObfuscationSettings) : Z :=
  match s with
  | SUdp2Tcp _ _ => 60 - 8 + 2
  | SShadowsocks _ wireguard_endpoint _ => shadowsocks_overhead (sa_ip wireguard_endpoint)
  | SQuic _ _ _ _ _ _ => 0
  | SLwo _ _ _ _ => 0
  | SMultiplexer _ _ _ => 60
  end.

(** ** Ephemeral peers *)
Definition INITIAL_PSK_EXCHANGE_TIMEOUT : Z := 8.
Definition MAX_PSK_EXCHANGE_TIMEOUT : Z := 48.
Definition PSK_EXCHANGE_TIMEOUT_MULTIPLIER : Z := 2.

(** In seconds; [u32::saturating_pow] and [Duration::saturating_mul] saturate above the maximum. *)
Definition psk_exchange_timeout (retry_attempt : nat) : Z :=
  Z.min MAX_PSK_EXCHANGE_TIMEOUT
    (INITIAL_PSK_EXCHANGE_TIMEOUT * Z.min u32_max (PSK_EXCHANGE_TIMEOUT_MULTIPLIER ^ Z.of_nat retry_attempt)).

Record EphemeralRequest : Type := {
  service_address : Z;
  parent_pubkey : string;
  ephemeral_pubkey : string;
  enable_post_quantum : bool;
  enable_daita : bool;
  timeout : Z;
}.

Inductive Negotiation (DaitaSettings : Type) : Type :=
| NegotiationTimeout
| NegotiationFailed
| EphemeralPeer (psk : option string) (daita : option DaitaSettings).
Arguments NegotiationTimeout {_}.
Arguments NegotiationFailed {_}.
Arguments EphemeralPeer {_} psk daita.

Inductive CloseMsg : Type :=
| Stop
| EphemeralPeerNegotiationTimeout
| PingErr
| SetupError (e : WireguardError)
| ObfuscatorExpired
| ObfuscatorFailed (e : WireguardError).

(** A program ends with a value, with a reason to close, or by a panic. *)
Inductive Outcome (A : Type) : Type :=
| Val (a : A)
| Closed (m : CloseMsg)
| Panicked.
Arguments Val {A} a.
Arguments Closed {A} m.
Arguments Panicked {A}.

(** ** The services *)
Class TunnelServices (W DaitaSettings : Type) : Type := {
  public_key_of : string -> string;
  shadowsocks_overhead : IpAddr -> Z;
  new_from_random : W -> W * string;
  create_obfuscator : ObfuscationSettings -> W -> W * option SocketAddr;
  will_nm_manage_dns : W -> bool;
  open_network_manager : Config -> W -> W * result string TunnelError;
  open_netlink : Config -> W -> W * result string TunnelError;
  open_gotatun : Config -> W -> W * result string TunnelError;
  connectivity_check_new : W -> W * bool;
  device_set_config : Config -> option DaitaSettings -> W -> W * result unit TunnelError;
  config_service : EphemeralRequest -> W -> W * Negotiation DaitaSettings;
  establish_connectivity : W -> W * result bool unit;
  (** [Tunnel::stop]; a failure is logged. *)
  device_stop : W -> W;
  (** What the route manager hears from the kernel before its next command. *)
  kernel_messages : W -> W * list RouteNetlinkMessage;
}.

Section tunnel.
Context {W DaitaSettings K : Type} `{TunnelServices W DaitaSettings} `{Rtnetlink K}.

(** What is done, in order. *)
Inductive Item : Type :=
| Reported (e : TunnelEvent)
| RulesCreated (enable_ipv6 : bool) (ok : bool)
| RoutesAdded (routes : list RequiredRoute) (ok : bool)
| ObfuscatorStarted (s : ObfuscationSettings) (endpoint : SocketAddr)
| ObfuscatorAborted
| PeerRequested (r : EphemeralRequest) (answer : Negotiation DaitaSettings)
| DeviceConfigured (c : Config) (daita : option DaitaSettings) (ok : bool)
| MtuDetectionSpawned (gateway : Z) (mtu : Z) (daita : bool)
| ConnectivityChecked (ok : bool).

Record State : Type := {
  config : Config;
  obfuscator : option Z;
  tunnel : bool;
  manager : option RouteManagerImpl;
  kernel : K;
  world : W;
  trace : list Item;
}.

Definition set_config (c : Config) (s : State) : State :=
  {| config := c; obfuscator := obfuscator s; tunnel := tunnel s; manager := manager s; kernel := kernel s;
     world := world s; trace := trace s |}.
Definition set_obfuscator (o : option Z) (s : State) : State :=
  {| config := config s; obfuscator := o; tunnel := tunnel s; manager := manager s; kernel := kernel s;
     world := world s; trace := trace s |}.
Definition set_routing (m : option RouteManagerImpl) (k : K) (s : State) : State :=
  {| config := config s; obfuscator := obfuscator s; tunnel := tunnel s; manager := m; kernel := k;
     world := world s; trace := trace s |}.
Definition set_world (w : W) (s : State) : State :=
  {| config := config s; obfuscator := obfuscator s; tunnel := tunnel s; manager := manager s; kernel := kernel s;
     world := w; trace := trace s |}.
Definition log (i : Item) (s : State) : State :=
  {| config := config s; obfuscator := obfuscator s; tunnel := tunnel s; manager := manager s; kernel := kernel s;
     world := world s; trace := trace s ++ [i] |}.

Definition T (A : Type) : Type := State -> State * Outcome A.

#[global] Instance T_ret : MRet T := fun A a s => (s, Val a).
#[global] Instance T_bind : MBind T := fun A B f m s =>
  match m s with
  | (s, Val a) => f a s
  | (s, Closed c) => (s, Closed c)
  | (s, Panicked) => (s, Panicked)
  end.

Definition get : T State := fun s => (s, Val s).
Definition modify (f : State -> State) : T unit := fun s => (f s, Val tt).
Definition close {A} (m : CloseMsg) : T A := fun s => (s, Closed m).
Definition panic {A} : T A := fun s => (s, Panicked).
Definition emit (i : Item) : T unit := modify (log i).
Definition call {A} (f : W -> W * A) : T A := fun s => let '(w, a) := f (world s) in (set_world w s, Val a).

(** [.map_err(..)?]. *)
Definition expect {A E} (r : result A E) (e : E -> CloseMsg) : T A :=
  match r with Ok a => mret a | Err x => close (e x) end.

(** ** Calls to the route manager

    The manager handles what the kernel has sent it and then the command; a manager that has stopped
    answers with an error. *)
Definition hear (m : option RouteManagerImpl) (l : list RouteNetlinkMessage) : option RouteManagerImpl :=
  (fun m => foldl (fun m msg => (process_netlink_message (fun _ => true) msg m).1) m l) <$> m.

Definition route_command (f : RouteManagerImpl -> K -> RouteManagerImpl * K * result unit PlatformError)
  : T (result unit unit) :=
  l ← call kernel_messages;
  s ← get;
  match hear (manager s) l with
  | Some m =>
      let '(m, k, r) := f m (kernel s) in
      modify (set_routing (Some m) k);; mret (map_err (fun _ => tt) r)
  | None => mret (Err tt)
  end.

Definition handle_create_routing_rules (enable_ipv6 : bool) : T (result unit unit) :=
  r ← route_command (fun m k => let '(k, r) := create_routing_rules enable_ipv6 m k in (m, k, r));
  emit (RulesCreated enable_ipv6 (is_ok r));; mret r.

Definition handle_add_routes (routes : list RequiredRoute) : T (result unit unit) :=
  r ← route_command (add_required_routes routes);
  emit (RoutesAdded routes (is_ok r));; mret r.

Definition on_event (e : TunnelEvent) : T unit := emit (Reported e).

(** ** Obfuscation *)
Definition apply_obfuscation_config (c : Config) (obfuscation_mtu : Z) (is_gotatun : bool)
  : T (Config * result (option Z) WireguardError) :=
  match obfuscator_config c with
  | None => mret (c, Ok None)
  | Some o =>
      if is_gotatun && is_single_lwo o then mret (c, Ok None)
      else
        match settings_from_config public_key_of c o obfuscation_mtu (c_fwmark c) with
        | None => panic
        | Some settings =>
            endpoint ← call (create_obfuscator settings);
            match endpoint with
            | None => mret (c, Err ObfuscationError)
            | Some endpoint =>
                emit (ObfuscatorStarted settings endpoint);;
                mret (patch_endpoint endpoint c, Ok (Some (packet_overhead shadowsocks_overhead settings)))
            end
        end
  end.

(** ** Ephemeral peers *)
Definition request_ephemeral_peer (retry_attempt : nat) (c : Config) (pubkey : string) (pq daita : bool)
  : T (option string * option DaitaSettings) :=
  let r := {| service_address := c_ipv4_gateway c; parent_pubkey := public_key_of (private_key (c_tunnel c));
              ephemeral_pubkey := pubkey; enable_post_quantum := pq; enable_daita := daita;
              timeout := psk_exchange_timeout retry_attempt |} in
  answer ← call (config_service r);
  emit (PeerRequested r answer);;
  match answer with
  | NegotiationTimeout => close EphemeralPeerNegotiationTimeout
  | NegotiationFailed => close (SetupError EphemeralPeerNegotiationError)
  | EphemeralPeer psk daita => mret (psk, daita)
  end.

Definition reconfigure_tunnel (c : Config) (daita : option DaitaSettings) (obfuscation_mtu : Z) (is_gotatun : bool) : T Config :=
  s ← get;
  c ← match obfuscator s with
      | Some _ =>
          modify (set_obfuscator None);; emit ObfuscatorAborted;;
          r ← apply_obfuscation_config c obfuscation_mtu is_gotatun;
          handle ← expect r.2 ObfuscatorFailed;
          modify (set_obfuscator handle);; mret r.1
      | None => mret c
      end;
  s ← get;
  (if tunnel s then
     r ← call (device_set_config c daita);
     emit (DeviceConfigured c daita (is_ok r));;
     expect r (fun e => SetupError (WgTunnelError e))
   else mret tt);;
  mret c.

Definition push_allowed_ip (n : IpNetwork) (p : PeerConfig) : PeerConfig := set_allowed_ips (allowed_ips p ++ [n]) p.

Definition config_ephemeral_peers (retry_attempt : nat) (obfuscation_mtu : Z) (is_gotatun : bool) : T unit :=
  ephemeral_private_key ← call new_from_random;
  s ← get;
  let c := config s in
  let pubkey := public_key_of ephemeral_private_key in
  exit ← request_ephemeral_peer retry_attempt c pubkey (c_quantum_resistant c) (c_daita c && negb (is_multihop c));
  entry ← (if is_multihop c then
             let entry_tun_config := set_exit_peer None c in
             let entry_tun_config :=
               set_entry_peer (push_allowed_ip (v4 (c_ipv4_gateway c) 32) (entry_peer entry_tun_config)) entry_tun_config in
             entry_config ← reconfigure_tunnel entry_tun_config None obfuscation_mtu is_gotatun;
             entry ← request_ephemeral_peer retry_attempt entry_config pubkey (c_quantum_resistant c) (c_daita c);
             mret (Some entry)
           else mret None);
  let '(c, daita) :=
    match entry with
    | Some entry => (set_entry_peer (set_psk entry.1 (entry_peer c)) c, entry.2)
    | None => (c, exit.2)
    end in
  let c := on_exit_peer (set_psk exit.1) c in
  let c := if c_daita c then set_entry_peer (set_constant_packet_size true (entry_peer c)) c else c in
  let c := set_private_key ephemeral_private_key c in
  modify (set_config c);;
  c ← reconfigure_tunnel c daita obfuscation_mtu is_gotatun;
  modify (set_config c).

(** ** The future *)
Definition tunnel_fut (iface : string) (gateway : Z) (endpoint_addrs : list IpAddr) (retry_attempt : nat)
    (obfuscation_mtu : Z) (userspace_wireguard detect_mtu : bool) : T Empty_set :=
  s ← get;
  on_event (EvInterfaceUp (tunnel_metadata iface (config s)) (allowed_traffic_during_tunnel_config (config s)));;
  r ← handle_create_routing_rules (c_enable_ipv6 (config s));
  expect r (fun _ => SetupError SetupRoutingError);;
  r ← handle_add_routes (get_pre_tunnel_routes iface (config s) userspace_wireguard ++ get_endpoint_routes endpoint_addrs);
  expect r (fun _ => SetupError SetupRoutingError);;
  (if c_quantum_resistant (config s) || c_daita (config s) then
     config_ephemeral_peers retry_attempt obfuscation_mtu userspace_wireguard;;
     s ← get;
     on_event (EvInterfaceUp (tunnel_metadata iface (config s)) allowed_traffic_after_tunnel_config)
   else mret tt);;
  s ← get;
  (if detect_mtu then emit (MtuDetectionSpawned gateway (c_mtu (config s)) (c_daita (config s))) else mret tt);;
  s ← get;
  (if tunnel s then mret tt else panic);;
  r ← call establish_connectivity;
  let connected := match r with Ok b => b | Err _ => false end in
  emit (ConnectivityChecked connected);;
  (if connected then mret tt else close PingErr);;
  s ← get;
  r ← handle_add_routes (get_post_tunnel_routes iface (config s) userspace_wireguard);
  expect r (fun _ => SetupError SetupRoutingError);;
  on_event (EvUp (tunnel_metadata iface (config s)));;
  close PingErr.

(** ** Starting *)
Definition open_tunnel (c : Config) (userspace_wireguard : bool) (w : W) : W * result string TunnelError :=
  if userspace_wireguard then open_gotatun c w
  else
    match (if will_nm_manage_dns w then open_network_manager c w else open_netlink c w) with
    | (w, Ok name) => (w, Ok name)
    | (w, Err _) => open_gotatun c w
    end.

Definition use_userspace_wg (params : TunnelParameters) : bool := userspace (options params) || daita (options params).

(** What [start] ends with: the future it spawns and the state it leaves to it. *)
Inductive Started : Type :=
| Running (future : T Empty_set) (s : State)
| StartFailed (e : WireguardError)
| StartPanicked.

Definition initial (c : Config) (m : option RouteManagerImpl) (k : K) (w : W) : State :=
  {| config := c; obfuscator := None; tunnel := false; manager := m; kernel := k; world := w; trace := [] |}.
(** The trace of the future begins with the future. *)
Definition opened (c : Config) (o : option Z) (w : W) (s : State) : State :=
  {| config := c; obfuscator := o; tunnel := true; manager := manager s; kernel := kernel s; world := w; trace := [] |}.

(** The answer of the route manager about the link to the first hop; [get_mtu_for_route] can end it by a panic. *)
Definition ask_mtu (params : TunnelParameters) (m : option RouteManagerImpl) (k : K) : MtuAnswer :=
  match m with
  | Some m => get_mtu_for_route m (sa_ip (peer_endpoint (peer (connection params)))) k
  | None => MtuError NoRoute
  end.

Definition uses_userspace (force_userspace : bool) (params : TunnelParameters) : bool :=
  force_userspace || use_userspace_wg params
  || match obfuscation params with Some o => is_single_lwo o | None => false end.

Definition start (force_userspace : bool) (params : TunnelParameters) (retry_attempt : nat)
    (m : option RouteManagerImpl) (k : K) (w : W) : Started :=
  let userspace_wireguard := uses_userspace force_userspace params in
  let '(w, l) := kernel_messages w in
  let m := hear m l in
  let answer := ask_mtu params m k in
  let m := match answer with MtuPanicked => None | _ => m end in
  let route_mtu := get_route_mtu answer in
  match calculate_tunnel_mtu route_mtu params userspace_wireguard with
  | None => StartPanicked
  | Some tunnel_mtu =>
      match Config_from_parameters params tunnel_mtu with
      | Err _ => StartFailed WireguardConfigError
      | Ok c =>
          let endpoint_addrs := map (fun ep => sa_ip (address ep)) (get_next_hop_endpoints params) in
          match apply_obfuscation_config c route_mtu userspace_wireguard (initial c m k w) with
          | (s, Val (c, Ok o)) =>
              match match mtu (options params), o with
                    | None, Some overhead => clamp_tunnel_mtu params (u16_saturating_sub (c_mtu c) overhead)
                    | _, _ => Some (c_mtu c)
                    end with
              | None => StartPanicked
              | Some mtu' =>
                  let c := set_mtu mtu' c in
                  match open_tunnel c userspace_wireguard (world s) with
                  | (_, Err e) => StartFailed (WgTunnelError e)
                  | (w, Ok iface) =>
                      match connectivity_check_new w with
                      | (_, false) => StartFailed ConnectivityMonitorError
                      | (w, true) =>
                          Running (tunnel_fut iface (c_ipv4_gateway c) endpoint_addrs retry_attempt route_mtu
                                     userspace_wireguard match mtu (options params) with None => true | Some _ => false end)
                            (opened c o w s)
                      end
                  end
              end
          | (_, Val (_, Err e)) => StartFailed e
          | (_, _) => StartPanicked
          end
      end
  end.

(** The tunnel is taken, so that it is stopped once. *)
Definition stop_tunnel (s : State) : State :=
  if tunnel s then
    {| config := config s; obfuscator := obfuscator s; tunnel := false; manager := manager s; kernel := kernel s;
       world := device_stop (world s); trace := trace s |}
  else s.

(** The first message on the channel, or none if every sender is gone, decides the result; the tunnel is
    reported down before it is stopped. *)
Definition wait (received : option CloseMsg) (s : State) : State * result unit WireguardError :=
  let wait_result :=
    match received with
    | Some EphemeralPeerNegotiationTimeout | Some PingErr => Err TimeoutError
    | Some Stop | Some ObfuscatorExpired => Ok tt
    | Some (SetupError error) => Err error
    | Some (ObfuscatorFailed error) => Err error
    | None => Ok tt
    end in
  (stop_tunnel (log (Reported EvDown) s), wait_result).
End tunnel.
