(* ===== verification/WireguardProps.v ===== *)
(** * Theorems about the WireGuard tunnel

    What is true of every trace of the future that sets a tunnel up, of its routes in the kernel, and of its MTU. *)

From stdpp Require Import base list strings option numbers gmap.
From S2P Require Import Prelude NetTypes TunnelTypes TunnelMonitor Routing RoutingProps WireguardTunnel.

Section traces.
Context {W DaitaSettings K : Type} `{TS : TunnelServices W DaitaSettings} `{RT : Rtnetlink K}.
Notation State := (@State W DaitaSettings K).
Notation Item := (@Item DaitaSettings).
Notation T := (@T W DaitaSettings K).
Implicit Types (s : State) (i : Item).

(** Only the trace and these parts of the state change. *)
Definition keeps s s' : Prop := config s' = config s /\ obfuscator s' = obfuscator s /\ tunnel s' = tunnel s.

Lemma wg_keeps_refl s : keeps s s.
Proof. done. Qed.
Lemma wg_keeps_trans s1 s2 s3 : keeps s1 s2 -> keeps s2 s3 -> keeps s1 s3.
Proof. unfold keeps. naive_solver congruence. Qed.

(** A routing call logs itself and touches only the routing. *)
Lemma route_command_keeps f s :
  let '(s', o) := route_command f s in exists r, o = Val r /\ keeps s s' /\ trace s' = trace s.
Proof.
  unfold route_command, call, mbind, T_bind. simpl. destruct (kernel_messages (world s)) as [w l]. simpl.
  destruct (hear (manager s) l) as [m|]; simpl; [|by eexists]. destruct (f m (kernel s)) as [[m' k'] r]. simpl. by eexists.
Qed.

Lemma create_rules_spec en s :
  let '(s', o) := handle_create_routing_rules en s in
  exists r, o = Val r /\ keeps s s' /\ trace s' = trace s ++ [RulesCreated en (is_ok r)].
Proof.
  unfold handle_create_routing_rules, mbind, T_bind.
  pose proof (route_command_keeps (fun m k => let '(k, r) := create_routing_rules en m k in (m, k, r)) s) as Hr.
  destruct (route_command _ s) as [s1 o]. destruct Hr as (r & -> & Hk & Ht). simpl. eexists. split_and!; [done..|]. simpl. by rewrite Ht.
Qed.

Lemma add_routes_spec l s :
  let '(s', o) := handle_add_routes l s in
  exists r, o = Val r /\ keeps s s' /\ trace s' = trace s ++ [RoutesAdded l (is_ok r)].
Proof.
  unfold handle_add_routes, mbind, T_bind.
  pose proof (route_command_keeps (add_required_routes l) s) as Hr.
  destruct (route_command _ s) as [s1 o]. destruct Hr as (r & -> & Hk & Ht). simpl. eexists. split_and!; [done..|]. simpl. by rewrite Ht.
Qed.

(** ** Configuring the device *)
Definition quiet i : bool :=
  match i with ObfuscatorStarted _ _ | ObfuscatorAborted | DeviceConfigured _ _ false => true | _ => false end.

(** A configuration up to the endpoint of the entry peer, which an obfuscator takes over. *)
Definition same_but_endpoint (c c' : Config) : Prop := c' = c \/ exists e, c' = patch_endpoint e c.

Lemma apply_obfuscation_spec c omtu gt s :
  let '(s', o) := apply_obfuscation_config c omtu gt s in
  keeps s s' /\ exists t, trace s' = trace s ++ t /\ Forall (fun i => quiet i = true) t
    /\ match o with Val (c', _) => same_but_endpoint c c' | Closed _ => False | Panicked => True end.
Proof.
  unfold apply_obfuscation_config. destruct (obfuscator_config c) as [ob|].
  2: { simpl. split; [done|]. exists []. rewrite app_nil_r. split_and!; [done..|by left]. }
  destruct (gt && is_single_lwo ob). { simpl. split; [done|]. exists []. rewrite app_nil_r. split_and!; [done..|by left]. }
  destruct (settings_from_config _ _ _ _ _) as [st|]; simpl.
  2: { split; [done|]. exists []. by rewrite app_nil_r. }
  unfold mbind, T_bind, call. destruct (create_obfuscator st (world s)) as [w [e|]]; simpl.
  - split; [done|]. eexists. split_and!; [done|by repeat constructor|]. right. by exists e.
  - split; [done|]. exists []. rewrite app_nil_r. split_and!; [done..|by left].
Qed.

(** On success the last thing done is that the device took the configuration that is returned. *)
Lemma reconfigure_spec c d omtu gt s :
  tunnel s = true ->
  let '(s', o) := reconfigure_tunnel c d omtu gt s in
  config s' = config s /\ tunnel s' = true /\ exists t, trace s' = trace s ++ t
    /\ match o with
       | Val c' => same_but_endpoint c c' /\ exists t', t = t' ++ [DeviceConfigured c' d true] /\ Forall (fun i => quiet i = true) t'
       | _ => Forall (fun i => quiet i = true) t
       end.
Proof.
  intros Htun. unfold reconfigure_tunnel, mbind, T_bind. simpl.
  (** the second half *)
  assert (Hset : forall c' s1, tunnel s1 = true -> let '(s', o) :=
      (match (r ← call (device_set_config c' d); emit (DeviceConfigured c' d (is_ok r));; expect r (fun e => SetupError (WgTunnelError e))) s1 with
       | (s, Val _) => (s, Val c') | (s, Closed m) => (s, Closed m) | (s, Panicked) => (s, Panicked) end : State * Outcome Config) in
      config s' = config s1 /\ tunnel s' = true /\ match o with
        | Val c'' => c'' = c' /\ trace s' = trace s1 ++ [DeviceConfigured c' d true]
        | Closed _ => trace s' = trace s1 ++ [DeviceConfigured c' d false]
        | Panicked => False end).
  { intros c' s1 Ht1. unfold mbind, T_bind, call. simpl. destruct (device_set_config c' d (world s1)) as [w [[]|e]]; simpl; done. }
  destruct (obfuscator s) as [ob|].
  - simpl. pose proof (apply_obfuscation_spec c omtu gt (log ObfuscatorAborted (set_obfuscator None s))) as Ha.
    destruct (apply_obfuscation_config c omtu gt _) as [s1 o1]. destruct Ha as ((Hc & _ & Ht) & t & Htr & Hq & Ho). simpl in *.
    destruct o1 as [[c' [h|e]]|m|]; simpl; [|split_and!; [congruence..|]|done|split_and!; [congruence..|]].
    + specialize (Hset c' (set_obfuscator h s1) ltac:(simpl; congruence)). simpl in Hset. rewrite Ht, Htun.
      unfold mbind, T_bind, call in *. simpl in *. destruct (device_set_config c' d (world s1)) as [w [[]|e]]; simpl in *;
        destruct Hset as (Hc' & Ht' & Hset); (split_and!; [congruence|congruence|]).
      * exists (ObfuscatorAborted :: t ++ [DeviceConfigured c' d true]). split; [rewrite Htr, <- !app_assoc; done|].
        split; [done|]. exists (ObfuscatorAborted :: t). split; [done|]. by constructor.
      * exists (ObfuscatorAborted :: t ++ [DeviceConfigured c' d false]). split; [rewrite Htr, <- !app_assoc; done|].
        constructor; [done|]. apply Forall_app. split; [done|]. by repeat constructor.
    + exists (ObfuscatorAborted :: t). split; [by rewrite Htr, <- app_assoc|]. by constructor.
    + exists (ObfuscatorAborted :: t). split; [by rewrite Htr, <- app_assoc|]. by constructor.
  - simpl. rewrite Htun. specialize (Hset c s Htun). unfold mbind, T_bind, call in *. simpl in *.
    destruct (device_set_config c d (world s)) as [w [[]|e]]; simpl in *; (split_and!; [done|done|]).
    + eexists. split; [done|]. split; [by left|]. by exists [].
    + eexists. split; [done|]. by repeat constructor.
Qed.

(** ** Ephemeral peers *)
Definition silent i : bool :=
  match i with
  | ObfuscatorStarted _ _ | ObfuscatorAborted | PeerRequested _ _ | DeviceConfigured _ _ _ => true
  | _ => false
  end.

Definition request_of (c : Config) (pubkey : string) (pq daita : bool) (retry : nat) : EphemeralRequest :=
  {| service_address := c_ipv4_gateway c; parent_pubkey := public_key_of (private_key (c_tunnel c));
     ephemeral_pubkey := pubkey; enable_post_quantum := pq; enable_daita := daita; timeout := psk_exchange_timeout retry |}.

Lemma request_spec retry c pubkey pq d s :
  let '(s', o) := request_ephemeral_peer retry c pubkey pq d s in
  keeps s s' /\ exists answer, trace s' = trace s ++ [PeerRequested (request_of c pubkey pq d retry) answer]
    /\ match o with Val (p, x) => answer = EphemeralPeer p x | Closed _ => True | Panicked => False end.
Proof.
  unfold request_ephemeral_peer, mbind, T_bind, call. simpl. fold (request_of c pubkey pq d retry).
  destruct (config_service _ (world s)) as [w [| |p x]]; simpl; (split; [done|]); by eexists.
Qed.

(** The configuration that leads to the entry only. *)
Definition entry_only (c : Config) : Config :=
  set_entry_peer (push_allowed_ip (v4 (c_ipv4_gateway c) 32) (entry_peer c)) (set_exit_peer None c).

(** Every hop of [c] has agreed, through the tunnel of [c0], to the key of [c] and to the secrets in [c]. *)
Definition negotiated (retry : nat) (c0 c : Config) (daita : option DaitaSettings) (t : list Item) : Prop :=
  let pubkey := public_key_of (private_key (c_tunnel c)) in
  let pq := c_quantum_resistant c0 in
  exists psk1 daita1,
    PeerRequested (request_of c0 pubkey pq (c_daita c0 && negb (is_multihop c0)) retry) (EphemeralPeer psk1 daita1) ∈ t
    /\ psk (config_exit_peer c) = psk1
    /\ if is_multihop c0 then
         exists c1 psk2, same_but_endpoint (entry_only c0) c1 /\ DeviceConfigured c1 None true ∈ t
           /\ PeerRequested (request_of c1 pubkey pq (c_daita c0) retry) (EphemeralPeer psk2 daita) ∈ t
           /\ psk (entry_peer c) = psk2
       else daita = daita1.

(** What the negotiation leaves as it was. *)
Definition same_network (c0 c : Config) : Prop :=
  get_tunnel_destinations c = get_tunnel_destinations c0 /\ is_multihop c = is_multihop c0
  /\ c_ipv4_gateway c = c_ipv4_gateway c0 /\ c_ipv6_gateway c = c_ipv6_gateway c0 /\ c_mtu c = c_mtu c0
  /\ c_fwmark c = c_fwmark c0 /\ addresses (c_tunnel c) = addresses (c_tunnel c0)
  /\ map public_key (peers c) = map public_key (peers c0).

(** The configuration asked of the device at the end. *)
Definition final_config (key : string) (psk1 : option string) (entry : option (option string)) (c : Config) : Config :=
  let c := match entry with Some psk2 => set_entry_peer (set_psk psk2 (entry_peer c)) c | None => c end in
  let c := on_exit_peer (set_psk psk1) c in
  let c := if c_daita c then set_entry_peer (set_constant_packet_size true (entry_peer c)) c else c in
  set_private_key key c.

Lemma final_config_network key psk1 entry c c' :
  same_but_endpoint (final_config key psk1 entry c) c' -> same_network c c'.
Proof.
  unfold same_but_endpoint, final_config, on_exit_peer, same_network, get_tunnel_destinations, peers, is_multihop.
  destruct c as [tun en [ex|] g4 g6 mt fw v6 ob q [|]], entry; simpl; intros [->|[e ->]]; done.
Qed.

Lemma final_config_secrets key psk1 entry c c' :
  same_but_endpoint (final_config key psk1 entry c) c' -> (is_multihop c = match entry with Some _ => true | None => false end) ->
  private_key (c_tunnel c') = key /\ psk (config_exit_peer c') = psk1
  /\ match entry with Some psk2 => psk (entry_peer c') = psk2 | None => True end.
Proof.
  unfold same_but_endpoint, final_config, on_exit_peer, is_multihop, config_exit_peer.
  destruct c as [tun en [ex|] g4 g6 mt fw v6 ob q [|]], entry; simpl; intros [->|[e ->]] Hm; done.
Qed.

Lemma quiet_silent (l : list Item) : Forall (fun i => quiet i = true) l -> Forall (fun i => silent i = true) l.
Proof. intros Hl. eapply Forall_impl; [exact Hl|]. intros [] ?; done. Qed.

(** The end of the exchange: the configuration is stored, given to the device, and stored as it was given. *)
Definition finish (c : Config) (d : option DaitaSettings) (omtu : Z) (gt : bool) : T unit :=
  modify (set_config c);; c ← reconfigure_tunnel c d omtu gt; modify (set_config c).

Lemma finish_spec c d omtu gt s :
  tunnel s = true ->
  let '(s', o) := finish c d omtu gt s in
  tunnel s' = true /\ exists t, trace s' = trace s ++ t /\ Forall (fun i => silent i = true) t
    /\ match o with
       | Val _ => same_but_endpoint c (config s') /\ exists t', t = t' ++ [DeviceConfigured (config s') d true]
       | _ => True
       end.
Proof.
  intros Htun. unfold finish, mbind, T_bind. simpl. pose proof (reconfigure_spec c d omtu gt (set_config c s) Htun) as Hr.
  destruct (reconfigure_tunnel c d omtu gt _) as [s1 [c'|m|]]; destruct Hr as (_ & Ht & t & Htr & Ho); simpl in *;
    (split; [done|]); exists t; (split; [done|]); [|by eauto using quiet_silent..].
  destruct Ho as (Hs & t' & -> & Hq). split; [apply Forall_app; split; [by apply quiet_silent | by repeat constructor]|]. eauto.
Qed.

Definition entry_half (retry : nat) (c : Config) (pubkey : string) (omtu : Z) (gt : bool)
  : T (option (option string * option DaitaSettings)) :=
  if is_multihop c then
    entry_config ← reconfigure_tunnel (entry_only c) None omtu gt;
    entry ← request_ephemeral_peer retry entry_config pubkey (c_quantum_resistant c) (c_daita c);
    mret (Some entry)
  else mret None.

Lemma entry_half_spec retry c pubkey omtu gt s :
  tunnel s = true ->
  let '(s', o) := entry_half retry c pubkey omtu gt s in
  config s' = config s /\ tunnel s' = true /\ exists t, trace s' = trace s ++ t /\ Forall (fun i => silent i = true) t
    /\ match o with
       | Val (Some (p, d)) => is_multihop c = true /\ exists c1, same_but_endpoint (entry_only c) c1 /\ DeviceConfigured c1 None true ∈ t
           /\ PeerRequested (request_of c1 pubkey (c_quantum_resistant c) (c_daita c) retry) (EphemeralPeer p d) ∈ t
       | Val None => is_multihop c = false
       | _ => True
       end.
Proof.
  intros Htun. unfold entry_half. destruct (is_multihop c) eqn:Em.
  2: { simpl. split_and!; [done..|]. exists []. by rewrite app_nil_r. }
  unfold mbind, T_bind. pose proof (reconfigure_spec (entry_only c) None omtu gt s Htun) as Hr.
  destruct (reconfigure_tunnel _ None omtu gt s) as [s1 [c1|m|]]; destruct Hr as (Hc1 & Ht1 & t1 & Htr1 & Ho); simpl;
    [|split_and!; [done..|]; exists t1; eauto using quiet_silent..].
  destruct Ho as (Hs & t' & -> & Hq). pose proof (request_spec retry c1 pubkey (c_quantum_resistant c) (c_daita c) s1) as Hreq.
  destruct (request_ephemeral_peer retry c1 pubkey _ _ s1) as [s2 o]. destruct Hreq as ((Hc2 & _ & Ht2) & a & Htr2 & Ho).
  assert (Htr : trace s2 = trace s ++ (t' ++ [DeviceConfigured c1 None true]) ++
                  [PeerRequested (request_of c1 pubkey (c_quantum_resistant c) (c_daita c) retry) a]) by
    (by rewrite Htr2, Htr1, <- !app_assoc).
  assert (Hsil : Forall (fun i => silent i = true) ((t' ++ [DeviceConfigured c1 None true]) ++
                  [PeerRequested (request_of c1 pubkey (c_quantum_resistant c) (c_daita c) retry) a])) by
    (rewrite !Forall_app; split_and!; [by apply quiet_silent | by repeat constructor..]).
  destruct o as [[p d]|m|]; simpl; (split_and!; [congruence|congruence|]); (eexists; split; [exact Htr|]; split; [exact Hsil|]); [|done..].
  subst a. split; [done|]. exists c1. split_and!; [done|set_solver..].
Qed.

Lemma ephemeral_unfold retry omtu gt s :
  config_ephemeral_peers retry omtu gt s
  = (key ← call new_from_random;
     exit ← request_ephemeral_peer retry (config s) (public_key_of key) (c_quantum_resistant (config s))
              (c_daita (config s) && negb (is_multihop (config s)));
     entry ← entry_half retry (config s) (public_key_of key) omtu gt;
     finish (final_config key exit.1 (fst <$> entry) (config s))
       match entry with Some e => e.2 | None => exit.2 end omtu gt) s.
Proof.
  unfold config_ephemeral_peers, entry_half, finish, mbind, T_bind, call. simpl. destruct (new_from_random (world s)) as [w key]. simpl.
  destruct (request_ephemeral_peer _ _ _ _ _ _) as [s1 [[p1 d1]|m|]]; [|done..]. unfold entry_only.
  destruct (is_multihop (config s)).
  - simpl. destruct (reconfigure_tunnel _ _ _ _ s1) as [s2 [c1|m|]]; [|done..].
    destruct (request_ephemeral_peer _ _ _ _ _ s2) as [s3 [[p2 d2]|m|]]; done.
  - done.
Qed.

Lemma ephemeral_spec retry omtu gt s :
  tunnel s = true ->
  let '(s', o) := config_ephemeral_peers retry omtu gt s in
  tunnel s' = true /\ exists t, trace s' = trace s ++ t /\ Forall (fun i => silent i = true) t
    /\ match o with
       | Val _ => exists t' d, t = t' ++ [DeviceConfigured (config s') d true] /\ negotiated retry (config s) (config s') d t'
                    /\ same_network (config s) (config s')
       | _ => True
       end.
Proof.
  intros Htun. rewrite ephemeral_unfold. unfold mbind, T_bind, call. simpl. destruct (new_from_random (world s)) as [w key]. simpl.
  pose proof (request_spec retry (config s) (public_key_of key) (c_quantum_resistant (config s))
                (c_daita (config s) && negb (is_multihop (config s))) (set_world w s)) as Hreq.
  destruct (request_ephemeral_peer _ _ _ _ _ _) as [s1 o1]. destruct Hreq as ((Hc1 & _ & Ht1) & a1 & Htr1 & Ho1). simpl in *.
  destruct o1 as [[psk1 d1]|m|]; [|simpl; split; [congruence|]; eexists; split_and!; [done|by repeat constructor|done]|done].
  subst a1. simpl in Ht1.
  pose proof (entry_half_spec retry (config s) (public_key_of key) omtu gt s1 ltac:(congruence)) as He.
  destruct (entry_half _ _ _ _ _ s1) as [s2 o2]. destruct He as (Hc2 & Ht2 & t2 & Htr2 & Hs2 & Ho2).
  rewrite Htr1, <- app_assoc in Htr2. set (i1 := PeerRequested _ _) in *.
  destruct o2 as [entry|m|]; [|simpl; split; [done|]; eexists; split_and!; [done|by constructor|done]..].
  simpl. pose proof (finish_spec (final_config key psk1 (fst <$> entry) (config s)) match entry with Some e => e.2 | None => d1 end
                       omtu gt s2 Ht2) as Hf.
  destruct (finish _ _ _ _ s2) as [s3 o3]. destruct Hf as (Ht3 & t3 & Htr3 & Hs3 & Ho3). split; [done|].
  rewrite Htr2, <- app_assoc in Htr3. eexists. split_and!; [exact Htr3|constructor; [done|by apply Forall_app]|].
  destruct o3 as [[]|m|]; [|done..]. destruct Ho3 as (Hsame & t' & ->).
  exists (i1 :: t2 ++ t'), match entry with Some e => e.2 | None => d1 end. split; [simpl; by rewrite <- app_assoc|].
  split; [|by eapply final_config_network].
  assert (Hm : is_multihop (config s) = match fst <$> entry with Some _ => true | None => false end).
  { destruct entry as [[]|]; simpl; [by destruct Ho2 as [? _] | done]. }
  destruct (final_config_secrets _ _ _ _ _ Hsame Hm) as (Hk & Hp1 & Hp2). unfold negotiated. rewrite Hk.
  exists psk1, d1. split_and!; [apply elem_of_cons; by left|done|]. rewrite Hm. destruct entry as [[p2 d2]|]; simpl in *; [|done].
  destruct Ho2 as (_ & c1 & Hc & Hd & Hr). exists c1, p2. split_and!; [done|set_solver|set_solver|done].
Qed.

(** ** Reports *)
Definition is_report i : bool := match i with Reported _ => true | _ => false end.

(** Every report of a trace is right about what comes before it. *)
Definition reports_ok (P : list Item -> TunnelEvent -> Prop) (tr : list Item) : Prop :=
  forall t1 e t2, tr = t1 ++ Reported e :: t2 -> P t1 e.

Lemma reports_nil P : reports_ok P [].
Proof. intros [] ? ? ?; done. Qed.

Lemma reports_snoc P tr i :
  reports_ok P tr -> match i with Reported e => P tr e | _ => True end -> reports_ok P (tr ++ [i]).
Proof.
  intros Htr Hi t1 e t2 Heq. destruct t2 as [|x t2 _] using rev_ind.
  - apply app_inj_tail in Heq as [<- ->]. done.
  - rewrite app_comm_cons, app_assoc in Heq. apply app_inj_tail in Heq as [-> _]. by eapply Htr.
Qed.

Lemma reports_app P tr l :
  reports_ok P tr -> Forall (fun i => is_report i = false) l -> reports_ok P (tr ++ l).
Proof.
  intros Htr Hl. revert tr Htr. induction Hl as [|i l Hi Hl IH]; intros tr Htr; [by rewrite app_nil_r|].
  rewrite cons_middle, app_assoc. apply IH. apply reports_snoc; [done|]. by destruct i.
Qed.

Lemma silent_reports (l : list Item) : Forall (fun i => silent i = true) l -> Forall (fun i => is_report i = false) l.
Proof. intros Hl. eapply Forall_impl; [exact Hl|]. intros [] ?; done. Qed.

(** No default route is added. *)
Definition no_default i : Prop :=
  match i with RoutesAdded l _ => forall r, r ∈ l -> net_prefix (rr_prefix r) <> 0%Z | _ => True end.
Definition is_device i : bool := match i with DeviceConfigured _ _ _ => true | _ => false end.

(** The device has the configuration [c]: negotiated if that is called for, else the one it was opened with. *)
Definition device_ready (retry : nat) (c0 c : Config) (u : list Item) : Prop :=
  same_network c0 c /\
  if c_quantum_resistant c0 || c_daita c0
  then exists t d t', u = t ++ DeviceConfigured c d true :: t' /\ negotiated retry c0 c d t /\ Forall (fun i => is_device i = false) t'
  else c = c0 /\ Forall (fun i => is_device i = false) u.

(** The endpoints inside the tunnel that may be reached; [None] for all. *)
Definition open_endpoints (t : AllowedTunnelTraffic) : option (list Endpoint) :=
  match t with
  | TrafficAll => None
  | TrafficNone => Some []
  | TrafficOne e => Some [e]
  | TrafficTwo e1 e2 => Some [e1; e2]
  end.
(** What is needed before the device is in use: if there are keys to exchange, the configuration service, on TCP port
    1337 of the gateway, and the exit, which is reached through the entry; nothing is held back otherwise. *)
Definition needed_endpoints (c : Config) : option (list Endpoint) :=
  if c_quantum_resistant c || c_daita c
  then Some ({| address := {| sa_ip := V4 (c_ipv4_gateway c); sa_port := 1337 |}; protocol := Tcp |}
             :: match c_exit_peer c with
                | Some exit => [{| address := peer_endpoint exit; protocol := Udp |}]
                | None => []
                end)
  else None.

Lemma during_config_needed c : open_endpoints (allowed_traffic_during_tunnel_config c) = needed_endpoints c.
Proof.
  unfold allowed_traffic_during_tunnel_config, needed_endpoints, is_multihop, config_exit_peer.
  destruct (_ || _); [|done]. by destruct (c_exit_peer c).
Qed.

Definition report_right (iface : string) (retry : nat) (us : bool) (addrs : list IpAddr) (c0 : Config) (before : list Item) (e : TunnelEvent) : Prop :=
  match e with
  | EvInterfaceUp md traffic =>
      (before = [] /\ md = tunnel_metadata iface c0 /\ open_endpoints traffic = needed_endpoints c0)
      \/ (exists c, device_ready retry c0 c before /\ md = tunnel_metadata iface c /\ traffic = TrafficAll)
  | EvUp md =>
      exists c u, before = u ++ [ConnectivityChecked true; RoutesAdded (get_post_tunnel_routes iface c us) true]
        /\ device_ready retry c0 c u /\ md = tunnel_metadata iface c
        /\ RulesCreated (c_enable_ipv6 c0) true ∈ u
        /\ RoutesAdded (get_pre_tunnel_routes iface c0 us ++ get_endpoint_routes addrs) true ∈ u
        /\ Forall no_default u
  | _ => False
  end.

Definition is_up i : bool := match i with Reported (EvUp _) => true | _ => false end.

(** The configuration the device has at the end of the first part. *)
Lemma negotiate_spec iface retry us addrs c0 omtu s :
  tunnel s = true -> config s = c0 -> reports_ok (report_right iface retry us addrs c0) (trace s) ->
  Forall (fun i => is_device i = false) (trace s) ->
  let '(s', o) := (if c_quantum_resistant c0 || c_daita c0 then
     config_ephemeral_peers retry omtu us;;
     s ← get;
     on_event (EvInterfaceUp (tunnel_metadata iface (config s)) allowed_traffic_after_tunnel_config)
   else mret tt) s in
  tunnel s' = true /\ reports_ok (report_right iface retry us addrs c0) (trace s')
  /\ (exists l, trace s' = trace s ++ l /\ Forall no_default l /\ Forall (fun i => is_up i = false) l)
  /\ match o with Val _ => device_ready retry c0 (config s') (trace s') | _ => True end.
Proof.
  intros Htun Hc Hok Hdev. destruct (c_quantum_resistant c0 || c_daita c0) eqn:Eneed.
  2: { simpl. split_and!; [done..| |]; [exists []; by rewrite app_nil_r|]. unfold device_ready. rewrite Eneed. subst. done. }
  unfold mbind, T_bind. pose proof (ephemeral_spec retry omtu us s Htun) as He.
  destruct (config_ephemeral_peers retry omtu us s) as [s1 o1]. destruct He as (Ht1 & t & Htr & Hs & Ho).
  assert (Hd : Forall no_default t) by (eapply Forall_impl; [exact Hs|]; by intros []).
  assert (Hu : Forall (fun i => is_up i = false) t) by (eapply Forall_impl; [exact Hs|]; by intros []).
  assert (Hr : reports_ok (report_right iface retry us addrs c0) (trace s1)) by (rewrite Htr; by apply reports_app, silent_reports).
  destruct o1 as [[]|m|]; [|by eauto 10..]. destruct Ho as (t' & d & -> & Hn & Hsame).
  assert (Hready : forall l, Forall (fun i => is_device i = false) l -> device_ready retry c0 (config s1) (trace s1 ++ l)).
  { intros l Hl. split; [by subst|]. rewrite Eneed. exists (trace s ++ t'), d, l.
    split; [rewrite Htr, <- !app_assoc; done|]. split; [|done]. subst c0. unfold negotiated in *.
    destruct Hn as (p1 & d1 & Hin & Hp & Hm). exists p1, d1. split_and!; [set_solver|done|].
    destruct (is_multihop (config s)); [|done]. destruct Hm as (c1 & p2 & ? & ? & ? & ?). exists c1, p2. split_and!; [done|set_solver..|done]. }
  simpl. split_and!; [done| | |].
  - apply reports_snoc; [done|]. simpl. right. exists (config s1). split_and!; [|done..].
    specialize (Hready [] ltac:(constructor)). by rewrite app_nil_r in Hready.
  - exists ((t' ++ [DeviceConfigured (config s1) d true]) ++ [Reported (EvInterfaceUp (tunnel_metadata iface (config s1)) allowed_traffic_after_tunnel_config)]).
    split; [by rewrite Htr, <- !app_assoc|]. split; (apply Forall_app; split; [done|]; by repeat constructor).
  - apply Hready. by repeat constructor.
Qed.

(** The last part: connectivity, the default routes and the report. *)
Definition last_part (iface : string) (gateway : Z) (us detect : bool) : T Empty_set :=
  s ← get;
  (if detect then emit (MtuDetectionSpawned gateway (c_mtu (config s)) (c_daita (config s))) else mret tt);;
  s ← get;
  (if tunnel s then mret tt else panic);;
  r ← call establish_connectivity;
  let connected := match r with Ok b => b | Err _ => false end in
  emit (ConnectivityChecked connected);;
  (if connected then mret tt else close PingErr);;
  s ← get;
  r ← handle_add_routes (get_post_tunnel_routes iface (config s) us);
  expect r (fun _ => SetupError SetupRoutingError);;
  on_event (EvUp (tunnel_metadata iface (config s)));;
  close PingErr.

Lemma device_ready_snoc retry c0 c u i : is_device i = false -> device_ready retry c0 c u -> device_ready retry c0 c (u ++ [i]).
Proof.
  intros Hi [Hn Hd]. split; [done|]. destruct (c_quantum_resistant c0 || c_daita c0).
  - destruct Hd as (t & d & t' & -> & ? & ?). exists t, d, (t' ++ [i]). split_and!; [by rewrite <- app_assoc|done|].
    apply Forall_app. split; [done|]. by repeat constructor.
  - destruct Hd as [-> Hd]. split; [done|]. apply Forall_app. split; [done|]. by repeat constructor.
Qed.

Lemma last_part_spec iface gw retry us detect addrs c0 s :
  tunnel s = true -> device_ready retry c0 (config s) (trace s) ->
  RulesCreated (c_enable_ipv6 c0) true ∈ trace s ->
  RoutesAdded (get_pre_tunnel_routes iface c0 us ++ get_endpoint_routes addrs) true ∈ trace s ->
  Forall no_default (trace s) ->
  reports_ok (report_right iface retry us addrs c0) (trace s) ->
  let '(s', o) := last_part iface gw us detect s in
  reports_ok (report_right iface retry us addrs c0) (trace s')
  /\ (o = Closed PingErr \/ o = Closed (SetupError SetupRoutingError)).
Proof.
  intros Htun Hready Hrules Hpre Hnd Hok. unfold last_part, mbind, T_bind. cbn [get fst snd].
  set (s1 := if detect then log (MtuDetectionSpawned gw (c_mtu (config s)) (c_daita (config s))) s else s).
  assert (H1 : ((if detect then emit (MtuDetectionSpawned gw (c_mtu (config s)) (c_daita (config s))) else mret tt) s) = (s1, Val tt))
    by (by destruct detect).
  rewrite H1. cbn [get].
  assert (F1 : tunnel s1 = true /\ config s1 = config s /\ device_ready retry c0 (config s1) (trace s1)
    /\ RulesCreated (c_enable_ipv6 c0) true ∈ trace s1
    /\ RoutesAdded (get_pre_tunnel_routes iface c0 us ++ get_endpoint_routes addrs) true ∈ trace s1
    /\ Forall no_default (trace s1) /\ reports_ok (report_right iface retry us addrs c0) (trace s1)).
  { subst s1. destruct detect; [|done]. simpl. split_and!; [done..|by apply device_ready_snoc|set_solver|set_solver| |by apply reports_snoc].
    apply Forall_app. split; [done|]. by repeat constructor. }
  clearbody s1. destruct F1 as (Ht1 & Hc1 & Hr1 & Hru1 & Hp1 & Hn1 & Ho1). rewrite Ht1. cbn [mret T_ret].
  unfold call. destruct (establish_connectivity (world s1)) as [w r]. cbn [mret T_ret emit modify].
  set (connected := match r with Ok b => b | Err _ => false end). set (s2 := log (ConnectivityChecked connected) (set_world w s1)).
  assert (Ho2 : reports_ok (report_right iface retry us addrs c0) (trace s2)) by (by apply reports_snoc).
  destruct connected; [|by cbn; auto]. unfold mret, T_ret. cbn [get].
  pose proof (add_routes_spec (get_post_tunnel_routes iface (config s2) us) s2) as Ha.
  destruct (handle_add_routes _ s2) as [s3 o3]. destruct Ha as (r3 & -> & (Hc3 & _ & _) & Htr3).
  assert (Ho3 : reports_ok (report_right iface retry us addrs c0) (trace s3)) by (rewrite Htr3; by apply reports_snoc).
  destruct r3 as [[]|]; simpl; [|by cbn; auto]. split; [|by cbn; auto]. apply reports_snoc; [done|]. simpl.
  exists (config s1), (trace s1). split_and!; [by rewrite Htr3; simpl; rewrite <- app_assoc|done..].
Qed.

Lemma pre_routes_no_default iface c us addrs r :
  r ∈ get_pre_tunnel_routes iface c us ++ get_endpoint_routes addrs -> net_prefix (rr_prefix r) <> 0%Z.
Proof.
  unfold get_pre_tunnel_routes, get_endpoint_routes. rewrite app_nil_r, elem_of_app, !list_elem_of_In, !List.in_map_iff.
  intros [(x & <- & Hx)|(x & <- & Hx)].
  - assert (E : forall y, rr_prefix (apply_route_mtu_for_multihop c us y) = rr_prefix y)
      by (intros y; unfold apply_route_mtu_for_multihop; by destruct (negb (is_multihop c) || us)).
    rewrite E. destruct Hx as [<-|Hx]; [done|]. destruct (c_ipv6_gateway c); [|done]. destruct Hx as [<-|[]]; done.
  - apply List.filter_In in Hx as [_ Hx]. simpl. intros Hz. by rewrite Hz in Hx.
Qed.

Lemma tunnel_fut_unfold iface gw addrs retry omtu us detect s :
  tunnel_fut iface gw addrs retry omtu us detect s
  = (on_event (EvInterfaceUp (tunnel_metadata iface (config s)) (allowed_traffic_during_tunnel_config (config s)));;
     r ← handle_create_routing_rules (c_enable_ipv6 (config s));
     expect r (fun _ => SetupError SetupRoutingError);;
     r ← handle_add_routes (get_pre_tunnel_routes iface (config s) us ++ get_endpoint_routes addrs);
     expect r (fun _ => SetupError SetupRoutingError);;
     (if c_quantum_resistant (config s) || c_daita (config s) then
        config_ephemeral_peers retry omtu us;;
        s ← get;
        on_event (EvInterfaceUp (tunnel_metadata iface (config s)) allowed_traffic_after_tunnel_config)
      else mret tt);;
     last_part iface gw us detect) s.
Proof. done. Qed.

(** C10. The tunnel is reported as it is.  Whatever the services do, and wherever the future is stopped: the
    first report allows all traffic in the tunnel if no keys are to be exchanged, and otherwise exactly the
    configuration service on TCP port 1337 of the gateway and, over two hops, the exit; all traffic is allowed only
    once the device has a configuration whose key and secrets every hop has agreed to; the tunnel is reported
    up only after that, after the rules and the specific routes are in place, after a connectivity check has
    succeeded and then the default routes have been added, none of which was added before. *)
Theorem tunnel_reports iface gw addrs retry omtu us detect s s' o t1 e t2 :
  tunnel s = true -> trace s = [] -> tunnel_fut iface gw addrs retry omtu us detect s = (s', o) ->
  trace s' = t1 ++ Reported e :: t2 -> report_right iface retry us addrs (config s) t1 e.
Proof.
  intros Htun Htr Hrun. enough (Hok : reports_ok (report_right iface retry us addrs (config s)) (trace s')) by (intros Heq; by eapply Hok).
  rewrite tunnel_fut_unfold in Hrun. unfold mbind, T_bind in Hrun. cbn [on_event emit modify] in Hrun.
  set (c0 := config s) in *. set (P := report_right iface retry us addrs c0).
  set (s1 := log (Reported _) s) in Hrun.
  assert (H1 : reports_ok P (trace s1)).
  { subst s1. simpl. rewrite Htr. apply (reports_snoc P []); [apply reports_nil|]. simpl. left. by rewrite during_config_needed. }
  pose proof (create_rules_spec (c_enable_ipv6 c0) s1) as Hc. destruct (handle_create_routing_rules _ s1) as [s2 o2].
  destruct Hc as (r2 & -> & (Hc2 & _ & Ht2) & Htr2).
  assert (H2 : reports_ok P (trace s2)) by (rewrite Htr2; by apply reports_snoc).
  destruct r2 as [[]|]; simpl in Hrun; [|by simplify_eq].
  pose proof (add_routes_spec (get_pre_tunnel_routes iface c0 us ++ get_endpoint_routes addrs) s2) as Ha.
  destruct (handle_add_routes _ s2) as [s3 o3]. destruct Ha as (r3 & -> & (Hc3 & _ & Ht3) & Htr3).
  assert (H3 : reports_ok P (trace s3)) by (rewrite Htr3; by apply reports_snoc).
  destruct r3 as [[]|]; simpl in Hrun; [|by simplify_eq].
  assert (E3 : trace s3 = [Reported (EvInterfaceUp (tunnel_metadata iface c0) (allowed_traffic_during_tunnel_config c0));
                           RulesCreated (c_enable_ipv6 c0) true;
                           RoutesAdded (get_pre_tunnel_routes iface c0 us ++ get_endpoint_routes addrs) true])
    by (rewrite Htr3, Htr2; subst s1; simpl; by rewrite Htr).
  pose proof (negotiate_spec iface retry us addrs c0 omtu s3 ltac:(by rewrite Ht3, Ht2) ltac:(by rewrite Hc3, Hc2) H3
                ltac:(rewrite E3; by repeat constructor)) as Hn. unfold mbind, T_bind in Hn.
  destruct (_ s3) as [s4 o4]. destruct Hn as (Ht4 & H4 & (l & Htr4 & Hl & _) & Hready).
  destruct o4 as [[]|m|]; [|by simplify_eq..].
  pose proof (last_part_spec iface gw retry us detect addrs c0 s4 Ht4 Hready) as Hlast. rewrite Hrun in Hlast.
  apply Hlast; [rewrite Htr4, E3; set_solver..| |done].
  rewrite Htr4, E3. apply Forall_app. split; [|done]. repeat (apply Forall_cons; split); try done.
  intros r. apply pre_routes_no_default.
Qed.
End traces.
