(* ===== verification/WireguardRouting.v ===== *)
(** * Where packets go once the tunnel is up

    The future of [WireguardTunnel] drives the route manager of [Routing], and this is what the kernel then does
    with packets. *)

From stdpp Require Import base list strings option numbers gmap.
From S2P Require Import Prelude NetTypes TunnelTypes TunnelMonitor Routing RoutingProps WireguardTunnel WireguardProps.

Section routing.
Context {W DaitaSettings K : Type} `{TS : TunnelServices W DaitaSettings} `{RT : Rtnetlink K} {RL : RtnetlinkLaws K}.
Notation State := (@State W DaitaSettings K).
Notation T := (@T W DaitaSettings K).
Implicit Types (s : State) (m : RouteManagerImpl) (k : K).

(** ** Programs that leave the routing alone *)
Definition frame {A} (c : T A) : Prop := forall s, manager (c s).1 = manager s /\ kernel (c s).1 = kernel s.

Lemma frame_bind {A B} (c : T A) (f : A -> T B) : frame c -> (forall a, frame (f a)) -> frame (c ≫= f).
Proof.
  intros Hc Hf s. specialize (Hc s). unfold mbind, T_bind. destruct (c s) as [s1 [a|m|]]; simpl in *; [|done..].
  destruct (Hf a s1) as [-> ->]. done.
Qed.
Lemma frame_ret {A} (a : A) : frame (mret a).
Proof. done. Qed.
Lemma frame_get : frame get.
Proof. done. Qed.
Lemma frame_close {A} x : frame (close (A:=A) x).
Proof. done. Qed.
Lemma frame_panic {A} : frame (panic (A:=A)).
Proof. done. Qed.
Lemma frame_emit i : frame (emit i).
Proof. done. Qed.
Lemma frame_set_config c : frame (modify (set_config c)).
Proof. done. Qed.
Lemma frame_set_obfuscator o : frame (modify (set_obfuscator o)).
Proof. done. Qed.
Lemma frame_call {A} (f : W -> W * A) : frame (call f).
Proof. intros s. unfold call. by destruct (f (world s)). Qed.
Lemma frame_expect {A E} (r : result A E) e : frame (expect r e).
Proof. by destruct r. Qed.

Hint Resolve frame_ret frame_get frame_close frame_panic frame_emit frame_set_config frame_set_obfuscator frame_call frame_expect : frame.

Ltac frames :=
  repeat first [progress auto with frame | apply frame_bind; [|intros ?] | progress case_match].

Lemma frame_obfuscation c omtu gt : frame (apply_obfuscation_config c omtu gt).
Proof. unfold apply_obfuscation_config. frames. Qed.
Hint Resolve frame_obfuscation : frame.

Lemma frame_reconfigure c d omtu gt : frame (reconfigure_tunnel c d omtu gt).
Proof. unfold reconfigure_tunnel. frames. Qed.
Lemma frame_request retry c p q d : frame (request_ephemeral_peer retry c p q d).
Proof. unfold request_ephemeral_peer. frames. Qed.
Hint Resolve frame_reconfigure frame_request : frame.

Lemma frame_ephemeral retry omtu gt : frame (config_ephemeral_peers retry omtu gt).
Proof. unfold config_ephemeral_peers. frames. Qed.
Hint Resolve frame_ephemeral : frame.

(** ** Routing calls *)
Lemma hear_marks m l m' : hear (Some m) l = Some m' -> fwmark m' = fwmark m /\ tunnel_table m' = tunnel_table m.
Proof.
  unfold hear. simpl. intros [= <-]. revert m. induction l as [|msg l IH]; intros m; simpl; [done|].
  destruct (IH (process_netlink_message (fun _ => true) msg m).1) as [-> ->].
  destruct msg as [link|link|r|r|]; simpl; [done| |..|done].
  - by destruct (map_interface link) as [[]|].
  - by destruct (parse_route_message m r) as [[]|].
  - by destruct (parse_route_message m r) as [[]|].
Qed.

(** A call is answered well only by a manager that runs, after it has heard from the kernel. *)
Lemma route_command_ok f s s' :
  route_command f s = (s', Val (Ok tt)) ->
  exists m l m' m'' k', manager s = Some m /\ hear (Some m) l = Some m' /\ f m' (kernel s) = (m'', k', Ok tt)
    /\ manager s' = Some m'' /\ kernel s' = k'.
Proof.
  unfold route_command, call, mbind, T_bind. simpl. destruct (kernel_messages (world s)) as [w l]. simpl.
  destruct (manager s) as [m|] eqn:Em; [|done]. destruct (hear (Some m) l) as [m'|] eqn:Eh; [|done].
  destruct (f m' (kernel s)) as [[m'' k'] [[]|]] eqn:Ef; intros [= <-]. by eexists m, l, m', m'', k'.
Qed.

(** The marks of the manager, over whatever calls. *)
Definition manages s (mark table : Z) : Prop :=
  exists m, manager s = Some m /\ fwmark m = mark /\ tunnel_table m = table.

Definition marks (mark table : Z) : RouteManagerImpl :=
  {| iface_map := ∅; listeners := []; added_routes := []; tunnel_table := table; fwmark := mark |}.

Lemma ruled_ext m m' f k k' : fwmark m' = fwmark m -> tunnel_table m' = tunnel_table m -> ruled m f k k' -> ruled m' f k k'.
Proof. unfold ruled, own_rules, fwmark_rule. intros -> ->. done. Qed.

Lemma create_rules_ok en s s' mark table :
  handle_create_routing_rules en s = (s', Val (Ok tt)) -> manages s mark table -> unique_rules (marks mark table) (kernel s) ->
  manages s' mark table /\ fib_routes (kernel s') = fib_routes (kernel s)
  /\ ruled (marks mark table) Inet (kernel s) (kernel s')
  /\ (if en then ruled (marks mark table) Inet6 (kernel s) (kernel s') else True).
Proof.
  unfold handle_create_routing_rules, mbind, T_bind. destruct (route_command _ s) as [s1 [r|c|]] eqn:E; [|done..].
  simpl. intros [= <- ->] (m & Hm & Hw & Ht) Hu. simpl.
  apply route_command_ok in E as (m0 & l & m1 & m2 & k1 & Hm0 & Hh & Hf & Hm2 & Hk).
  assert (m0 = m) by congruence. subst m0. apply hear_marks in Hh as [Hw1 Ht1].
  destruct (create_routing_rules en m1 (kernel s)) as [k2 [[]|]] eqn:Ec; [|done]. injection Hf as Hmm Hkk. subst m2 k2 k1 mark table.
  assert (Hu1 : unique_rules m1 (kernel s)) by (by eapply (unique_ext (marks (fwmark m) (tunnel_table m)))).
  destruct (create_ok en m1 (kernel s) (kernel s1) Hu1 Ec) as (Hr & H4 & H6).
  split_and!; [by exists m1|done|by apply (ruled_ext m1)|]. destruct en; [|done]. by apply (ruled_ext m1).
Qed.

Lemma add_routes_ok l s s' mark table :
  handle_add_routes l s = (s', Val (Ok tt)) -> manages s mark table ->
  exists m, manager s' = Some m /\ fwmark m = mark /\ tunnel_table m = table
  /\ (forall f, fib_rules f (kernel s') = fib_rules f (kernel s))
  /\ (forall x, x ∈ fib_routes (kernel s') ->
        x ∈ fib_routes (kernel s) \/ exists r : RequiredRoute, r ∈ l /\ x = entry m (normal_route m r) /\ leads x)
  /\ (forall r : RequiredRoute, r ∈ l -> exists y, y ∈ fib_routes (kernel s')
        /\ fib_table y = fib_table (entry m (normal_route m r)) /\ fib_dst y = rr_prefix r).
Proof.
  unfold handle_add_routes, mbind, T_bind. destruct (route_command _ s) as [s1 [r|c|]] eqn:E; [|done..].
  cbn. intros [= <- ->] (m & Hm & Hw & Ht). cbn [manager kernel log].
  apply route_command_ok in E as (m0 & msgs & m1 & m2 & k1 & Hm0 & Hh & Hf & Hm2 & Hk).
  assert (m0 = m) by congruence. subst m0. apply hear_marks in Hh as [Hw1 Ht1].
  destruct (add_required_ok l m1 (kernel s) m2 k1 Hf) as ((Hi & Hw2 & Ht2) & Hr & Hin & Hex).
  assert (He : forall r : RequiredRoute, entry m2 (normal_route m2 r) = entry m1 (normal_route m1 r)).
  { intros r. rewrite (entry_ext m1 m2) by done. unfold normal_route. by rewrite Ht2. }
  exists m2. subst k1. split_and!; [done|congruence..| | |].
  - done.
  - intros x Hx. apply Hin in Hx as [Hx|(r & Hr' & -> & Hl)]; [by left|]. right. exists r. by rewrite He.
  - intros r Hr'. destruct (Hex r Hr') as (y & ? & ? & ?). exists y.
    split_and!; [done| |done]. trans (fib_table (entry m2 (normal_route m2 r))); [by rewrite He | done].
Qed.

(** ** The kernel when the tunnel is up *)
Section up.
Context `{O : IpNetworkOps} {OL : IpNetworkLaws O}.

Lemma contains_default n ip :
  net_prefix n = 0%Z -> IpVersion_from (net_ip n) = IpVersion_from ip -> net_contains n ip = true.
Proof.
  intros Hz Hv. rewrite net_contains_spec, net_mask_spec.
  - rewrite Hz. simpl. rewrite bool_decide_eq_true_2 by done. unfold Z.ones. rewrite Z.shiftl_0_l. by rewrite !Z.land_0_r.
  - rewrite Hz. destruct (net_ip n); simpl; lia.
Qed.

(** The state once the rules, the specific routes and the default routes are in place. *)
Definition routed (s0 s : State) (iface : string) (c : Config) (mark table : Z) : Prop :=
  exists m, manager s = Some m /\ fwmark m = mark /\ tunnel_table m = table
    /\ ruled (marks mark table) Inet (kernel s0) (kernel s)
    /\ (c_enable_ipv6 (config s0) = true -> ruled (marks mark table) Inet6 (kernel s0) (kernel s))
    /\ (forall x, x ∈ fib_routes (kernel s) -> fib_table x = table -> fib_oif x = find_iface_idx iface m /\ fib_oif x <> None)
    /\ (forall n, n ∈ get_tunnel_destinations c -> net_prefix n = 0%Z ->
          exists y, y ∈ fib_routes (kernel s) /\ fib_table y = table /\ fib_dst y = n).

Lemma routed_decision s0 s iface c mark table p l0 rest :
  routed s0 s iface c mark table ->
  is_ipv4 (pkt_dst p) || c_enable_ipv6 (config s0) = true ->
  without (all_rules mark table) (fib_rules (family_of (pkt_dst p)) (kernel s0)) = l0 :: rest ->
  fib_lookup fib_other p [l0] (fib_routes (kernel s)) = None ->
  let routes := fib_routes (kernel s) in
  let found := fib_lookup fib_other p (fib_rules (family_of (pkt_dst p)) (kernel s)) routes in
  match specific p routes with
  | Some x => found = Some x
  | None =>
      if (pkt_mark p =? mark)%Z then found = fib_lookup fib_other p rest routes
      else forall n, n ∈ get_tunnel_destinations c -> net_prefix n = 0%Z -> IpVersion_from (net_ip n) = IpVersion_from (pkt_dst p) ->
           exists x m, found = Some x /\ manager s = Some m /\ fib_oif x = find_iface_idx iface m /\ fib_oif x <> None
  end.
Proof.
  intros (m & Hm & Hw & Ht & H4 & H6 & Hout & Hdef) Hv Hrules H0 routes found.
  assert (Hruled : ruled (marks mark table) (family_of (pkt_dst p)) (kernel s0) (kernel s)).
  { destruct (pkt_dst p); simpl in *; [done | by apply H6]. }
  pose proof (routing_decision (marks mark table) _ _ p l0 rest Hruled Hrules H0) as Hd. fold routes found in Hd. simpl in Hd.
  rewrite Hd. destruct (specific p routes) as [x|]; [by destruct (pkt_mark p =? mark)%Z|].
  destruct (pkt_mark p =? mark)%Z; [done|]. intros n Hn Hz Hver. destruct (Hdef n Hn Hz) as (y & Hy & Hyt & Hyd).
  assert (Hs : is_Some (table_lookup table (pkt_dst p) routes)).
  { apply (table_lookup_some _ _ _ y); [done..|]. rewrite Hyd. by apply contains_default. }
  destruct Hs as [x Hx]. rewrite Hx. exists x, m. split; [done|].
  apply table_lookup_elem in Hx as (Hx & Hxt & _). destruct (Hout x Hx Hxt). done.
Qed.

Lemma multihop_mtu_fields c us r :
  let r' := apply_route_mtu_for_multihop c us r in
  rr_prefix r' = rr_prefix r /\ rr_node r' = rr_node r /\ main_table r' = main_table r.
Proof. unfold apply_route_mtu_for_multihop. by destruct (negb (is_multihop c) || us). Qed.

Lemma pre_routes_main iface c us addrs r :
  r ∈ get_pre_tunnel_routes iface c us ++ get_endpoint_routes addrs -> main_table r = true.
Proof.
  unfold get_pre_tunnel_routes, get_endpoint_routes. rewrite app_nil_r, elem_of_app, !list_elem_of_In, !List.in_map_iff.
  intros [(x & <- & Hx)|(x & <- & _)]; [|done]. destruct (multihop_mtu_fields c us x) as (_ & _ & ->).
  destruct Hx as [<-|Hx]; [done|]. destruct (c_ipv6_gateway c); [|done]. by destruct Hx as [<-|[]].
Qed.

Lemma post_routes_tunnel iface c us r :
  r ∈ get_post_tunnel_routes iface c us -> main_table r = false /\ rr_node r = Node_device iface.
Proof.
  unfold get_post_tunnel_routes. rewrite list_elem_of_In, List.in_map_iff. intros (n & <- & _).
  by destruct (multihop_mtu_fields c us (use_main_table false (RequiredRoute_new n (Node_device iface)))) as (_ & -> & ->).
Qed.

Lemma post_routes_all iface c us n :
  n ∈ get_tunnel_destinations c -> net_prefix n = 0%Z -> exists r, r ∈ get_post_tunnel_routes iface c us /\ rr_prefix r = n.
Proof.
  intros Hn Hz. eexists. split.
  - unfold get_post_tunnel_routes. apply list_elem_of_In, List.in_map_iff. exists n. split; [done|].
    apply List.filter_In. split; [by apply list_elem_of_In|]. by rewrite Hz.
  - by destruct (multihop_mtu_fields c us (use_main_table false (RequiredRoute_new n (Node_device iface)))) as (-> & _ & _).
Qed.

(** The default routes, added to what the rules and the specific routes have left. *)
Lemma post_routed iface us c s0 s s' mark table :
  (255 < table)%Z -> handle_add_routes (get_post_tunnel_routes iface c us) s = (s', Val (Ok tt)) -> manages s mark table ->
  ruled (marks mark table) Inet (kernel s0) (kernel s) ->
  (c_enable_ipv6 (config s0) = true -> ruled (marks mark table) Inet6 (kernel s0) (kernel s)) ->
  (forall x, x ∈ fib_routes (kernel s) -> fib_table x <> table) ->
  routed s0 s' iface c mark table.
Proof.
  intros Ht Ha Hm H4 H6 Hno. destruct (add_routes_ok _ _ _ _ _ Ha Hm) as (m & Hms & Hw & Htm & Hf & Hin & Hex).
  exists m. split_and!; [done..| | | |].
  - unfold ruled in *. by rewrite Hf.
  - unfold ruled in *. by rewrite Hf.
  - intros x Hx Hxt. apply Hin in Hx as [Hx|(r & Hr & -> & Hl)]; [by destruct (Hno x Hx)|].
    destruct (post_routes_tunnel _ _ _ _ Hr) as [_ Hn]. destruct (entry_oif m r iface Hn) as [Ho Hg].
    split; [done|]. destruct Hl as [Hl|Hl]; [done | by rewrite Hg in Hl].
  - intros n Hn Hz. destruct (post_routes_all iface c us n Hn Hz) as (r & Hr & Hp).
    destruct (Hex r Hr) as (y & Hy & Hyt & Hyd). exists y. split_and!; [done| |congruence].
    rewrite Hyt, entry_table by (by rewrite Htm). destruct (post_routes_tunnel _ _ _ _ Hr) as [-> _]. done.
Qed.

Lemma not_up (l : list (@Item DaitaSettings)) md : Forall (fun i => is_up i = false) l -> Reported (EvUp md) ∈ l -> False.
Proof. rewrite Forall_forall. intros Hl Hi. by specialize (Hl _ Hi). Qed.

Lemma last_part_routed iface gw us detect s0 s s' o md mark table :
  (255 < table)%Z -> tunnel s = true -> Forall (fun i => is_up i = false) (trace s) -> manages s mark table ->
  ruled (marks mark table) Inet (kernel s0) (kernel s) ->
  (c_enable_ipv6 (config s0) = true -> ruled (marks mark table) Inet6 (kernel s0) (kernel s)) ->
  (forall x, x ∈ fib_routes (kernel s) -> fib_table x <> table) ->
  last_part iface gw us detect s = (s', o) -> Reported (EvUp md) ∈ trace s' -> routed s0 s' iface (config s) mark table.
Proof.
  intros Ht Htun Hup Hm H4 H6 Hno. unfold last_part, mbind, T_bind. cbn [get].
  set (s1 := if detect then log (MtuDetectionSpawned gw (c_mtu (config s)) (c_daita (config s))) s else s).
  assert (E1 : ((if detect then emit (MtuDetectionSpawned gw (c_mtu (config s)) (c_daita (config s))) else mret tt) s) = (s1, Val tt))
    by (by destruct detect).
  rewrite E1. cbn [get].
  assert (F1 : tunnel s1 = true /\ config s1 = config s /\ manager s1 = manager s /\ kernel s1 = kernel s
               /\ Forall (fun i => is_up i = false) (trace s1)).
  { subst s1. destruct detect; [|done]. simpl. split_and!; [done..|]. apply Forall_app. split; [done|]. by repeat constructor. }
  clearbody s1. destruct F1 as (Ht1 & Hc1 & Hm1 & Hk1 & Hup1). rewrite Ht1. unfold mret, T_ret.
  unfold call. destruct (establish_connectivity (world s1)) as [w r]. cbn [emit modify].
  set (connected := match r with Ok b => b | Err _ => false end). set (s2 := log (ConnectivityChecked connected) (set_world w s1)).
  assert (Hup2 : Forall (fun i => is_up i = false) (trace s2)) by (apply Forall_app; split; [done|]; by repeat constructor).
  destruct connected; [|by intros [= <- <-] []%(not_up _ _ Hup2)]. cbn [get].
  pose proof (add_routes_spec (get_post_tunnel_routes iface (config s2) us) s2) as Ha.
  destruct (handle_add_routes _ s2) as [s3 o3] eqn:E3. destruct Ha as (r3 & -> & _ & Htr3).
  destruct r3 as [[]|].
  - simpl. intros [= <- <-] _. rewrite <- Hc1. change (config s1) with (config s2).
    assert (Hr : routed s0 s3 iface (config s2) mark table); [|done].
    apply (post_routed iface us (config s2) s0 s2); [done|done| |by subst s2; simpl; rewrite Hk1..].
    destruct Hm as (m & ? & ? & ?). exists m. subst s2. simpl. by rewrite Hm1.
  - simpl. intros [= <- <-]. rewrite Htr3. intros []%not_up. apply Forall_app. split; [done|]. by repeat constructor.
Qed.

(** Everything is in place when the tunnel is reported up. *)
Lemma tunnel_up_routed iface gw addrs retry omtu us detect s s' o md m :
  tunnel s = true -> trace s = [] -> manager s = Some m -> (255 < tunnel_table m)%Z -> unique_rules m (kernel s) ->
  (forall x, x ∈ fib_routes (kernel s) -> fib_table x <> tunnel_table m) ->
  tunnel_fut iface gw addrs retry omtu us detect s = (s', o) -> Reported (EvUp md) ∈ trace s' ->
  exists c, same_network (config s) c /\ routed s s' iface c (fwmark m) (tunnel_table m).
Proof.
  intros Htun Htr Hm Ht Hu Hno Hrun Hup. rewrite tunnel_fut_unfold in Hrun. unfold mbind, T_bind in Hrun.
  cbn [on_event emit modify] in Hrun. set (c0 := config s) in *. set (s1 := log (Reported _) s) in Hrun.
  pose proof (create_rules_spec (c_enable_ipv6 c0) s1) as Hc. destruct (handle_create_routing_rules _ s1) as [s2 o2] eqn:E2.
  destruct Hc as (r2 & -> & (Hc2 & _ & Ht2) & Htr2).
  assert (Hup2 : Forall (fun i => is_up i = false) (trace s2)) by (rewrite Htr2; subst s1; simpl; rewrite Htr; by repeat constructor).
  destruct r2 as [[]|]; simpl in Hrun; [|simplify_eq; by destruct (not_up _ _ Hup2 Hup)].
  destruct (create_rules_ok _ _ _ (fwmark m) (tunnel_table m) E2) as (M2 & R2 & R4 & R6);
    [by exists m|by eapply (unique_ext m)|].
  pose proof (add_routes_spec (get_pre_tunnel_routes iface c0 us ++ get_endpoint_routes addrs) s2) as Ha.
  destruct (handle_add_routes _ s2) as [s3 o3] eqn:E3. destruct Ha as (r3 & -> & (Hc3 & _ & Ht3) & Htr3).
  assert (Hup3 : Forall (fun i => is_up i = false) (trace s3)) by (rewrite Htr3; apply Forall_app; split; [done|]; by repeat constructor).
  destruct r3 as [[]|]; simpl in Hrun; [|simplify_eq; by destruct (not_up _ _ Hup3 Hup)].
  destruct (add_routes_ok _ _ _ _ _ E3 M2) as (m3 & Hm3 & Hw3 & Hm3t & Hf3 & Hin3 & _).
  assert (H3 : tunnel s3 = true /\ config s3 = c0) by (rewrite Ht3, Ht2, Hc3, Hc2; done). destruct H3 as [Ht3' Hc3'].
  assert (Hframe : frame (if c_quantum_resistant c0 || c_daita c0 then
     config_ephemeral_peers retry omtu us;;
     s ← get;
     on_event (EvInterfaceUp (tunnel_metadata iface (config s)) allowed_traffic_after_tunnel_config)
   else mret tt)) by frames.
  pose proof (negotiate_spec iface retry us addrs c0 omtu s3 Ht3' Hc3') as Hn. specialize (Hframe s3).
  unfold mbind, T_bind in Hn, Hframe. destruct (_ s3) as [s4 o4]. simpl in Hframe. destruct Hframe as [Fm Fk].
  assert (Hok3 : reports_ok (report_right iface retry us addrs c0) (trace s3)).
  { rewrite Htr3, Htr2. do 2 (apply reports_snoc; [|done]). subst s1. simpl. rewrite Htr. apply (reports_snoc _ []); [apply reports_nil|].
    simpl. left. by rewrite during_config_needed. }
  destruct Hn as (Ht4 & _ & (l & Htr4 & _ & Hl) & Hready); [done|rewrite Htr3, Htr2; subst s1; simpl; rewrite Htr; by repeat constructor|].
  assert (Hup4 : Forall (fun i => is_up i = false) (trace s4)) by (rewrite Htr4; by apply Forall_app).
  destruct o4 as [[]|x|]; [|simplify_eq; by destruct (not_up _ _ Hup4 Hup)..].
  exists (config s4). split; [by destruct Hready|].
  apply (last_part_routed iface gw us detect s s4 s' o md); try done.
  - exists m3. by rewrite Fm.
  - unfold ruled in *. by rewrite Fk, Hf3.
  - intros Hen. fold c0 in Hen. rewrite Hen in R6. unfold ruled in *. by rewrite Fk, Hf3.
  - rewrite Fk. intros x Hx. apply Hin3 in Hx as [Hx|(r & Hr & -> & _)]; [apply Hno; by rewrite R2 in Hx|].
    rewrite entry_table by (by rewrite Hm3t). rewrite (pre_routes_main _ _ _ _ _ Hr). unfold RT_TABLE_MAIN. lia.
Qed.

(** C9. Once the tunnel is up, traffic goes through it.  The kernel's table of the tunnel is empty before and has
    at most one of each of the manager's rules.  When the future has then reported the tunnel up, a packet for
    which the first of the host's own rules, usually that of local addresses, finds no route is routed as
    follows, for IPv4 and, if that is enabled, IPv6.  Whatever its mark, a route of the main table that is more
    specific than a default route is taken first.  Otherwise, with the tunnel's mark, which WireGuard's own
    packets have, it is routed by the rest of the host's own rules.  Without the mark, and if the allowed
    addresses of a peer contain all of its version, it goes to the device of the tunnel. *)
Theorem traffic_through_tunnel iface gw addrs retry omtu us detect s s' o md m p l0 rest :
  tunnel s = true -> trace s = [] -> manager s = Some m -> (255 < tunnel_table m)%Z -> unique_rules m (kernel s) ->
  (forall x, x ∈ fib_routes (kernel s) -> fib_table x <> tunnel_table m) ->
  tunnel_fut iface gw addrs retry omtu us detect s = (s', o) -> Reported (EvUp md) ∈ trace s' ->
  is_ipv4 (pkt_dst p) || c_enable_ipv6 (config s) = true ->
  without (own_rules m) (fib_rules (family_of (pkt_dst p)) (kernel s)) = l0 :: rest ->
  fib_lookup fib_other p [l0] (fib_routes (kernel s')) = None ->
  let routes := fib_routes (kernel s') in
  let found := fib_lookup fib_other p (fib_rules (family_of (pkt_dst p)) (kernel s')) routes in
  match specific p routes with
  | Some x => found = Some x
  | None =>
      if (pkt_mark p =? fwmark m)%Z then found = fib_lookup fib_other p rest routes
      else forall n, n ∈ get_tunnel_destinations (config s) -> net_prefix n = 0%Z ->
           IpVersion_from (net_ip n) = IpVersion_from (pkt_dst p) ->
           exists x m', found = Some x /\ manager s' = Some m' /\ fib_oif x = find_iface_idx iface m' /\ fib_oif x <> None
  end.
Proof.
  intros Htun Htr Hm Ht Hu Hno Hrun Hup Hv Hrules H0.
  destruct (tunnel_up_routed _ _ _ _ _ _ _ _ _ _ _ _ Htun Htr Hm Ht Hu Hno Hrun Hup) as (c & (Hd & _) & Hr).
  rewrite <- Hd. by eapply routed_decision.
Qed.
End up.
End routing.
