(* ===== verification/WireguardMtu.v ===== *)
(** * The MTU of the tunnel

    [calculate_tunnel_mtu], [clamp_tunnel_mtu] and [apply_route_mtu_for_multihop] in [src/talpid-wireguard/src/lib.rs],
    as [start] and the routes put them together. *)

From stdpp Require Import base list strings option numbers gmap.
From S2P Require Import Prelude NetTypes TunnelTypes TunnelMonitor Routing WireguardTunnel.

Definition min_mtu (params : TunnelParameters) : Z :=
  if enable_ipv6 (generic_options params) then MIN_IPV6_MTU else MIN_IPV4_MTU.

Definition entry_overhead (params : TunnelParameters) : Z :=
  wireguard_overhead (sa_ip (peer_endpoint (peer (connection params)))).

(** What is put around a packet by WireGuard, twice if the implementation does multihop itself. *)
Definition tunnel_overhead (params : TunnelParameters) (us : bool) : Z :=
  entry_overhead params
  + match exit_peer (connection params) with
    | Some p => if us then wireguard_overhead (sa_ip (peer_endpoint p)) else 0
    | None => 0
    end.

Lemma overhead_bounds ip : (60 <= wireguard_overhead ip <= 80)%Z.
Proof. destruct ip; vm_compute; split; intros H; discriminate. Qed.

Lemma min_mtu_pos params : (576 <= min_mtu params)%Z.
Proof. unfold min_mtu, MIN_IPV4_MTU, MIN_IPV6_MTU. destruct (enable_ipv6 _); lia. Qed.

(** Clamping never panics, and a size that is large enough is not made larger. *)
Lemma clamp_mtu_ok params x :
  exists y, clamp_tunnel_mtu params x = Some y
    /\ (min_mtu params <= y <= 1440 - entry_overhead params)%Z
    /\ ((min_mtu params <= x)%Z -> (y <= x)%Z) /\ ((x < min_mtu params)%Z -> y = min_mtu params).
Proof.
  unfold clamp_tunnel_mtu, clamp, min_mtu, entry_overhead, MTU_SAFETY_MARGIN, MIN_IPV4_MTU, MIN_IPV6_MTU.
  pose proof (overhead_bounds (sa_ip (peer_endpoint (peer (connection params))))) as Ho.
  set (ov := wireguard_overhead _) in *.
  destruct (enable_ipv6 _); rewrite (proj2 (Z.leb_le _ _)) by lia; eexists; (split; [done|]); lia.
Qed.

Lemma calculate_mtu_ok link params us :
  mtu (options params) = None ->
  exists y, calculate_tunnel_mtu link params us = Some y
    /\ (min_mtu params <= y <= 1440 - entry_overhead params)%Z
    /\ ((min_mtu params <= link - tunnel_overhead params us)%Z -> (y <= link - tunnel_overhead params us)%Z).
Proof.
  intros Hn. unfold calculate_tunnel_mtu. rewrite Hn. unfold tunnel_overhead, u16_saturating_sub.
  fold (entry_overhead params).
  pose proof (min_mtu_pos params) as Hm.
  destruct (exit_peer (connection params)) as [p|]; [destruct us|];
    match goal with |- context [clamp_tunnel_mtu params ?x] => destruct (clamp_mtu_ok params x) as (y & -> & Hb & Hy & _) end;
    exists y; (split; [done|]; split; [done|]); intros Hl; lia.
Qed.

Section mtu.
Context {W DaitaSettings K : Type} `{TS : TunnelServices W DaitaSettings} `{RT : Rtnetlink K}.

(** The MTU that [start] asks the route manager for. *)
Definition link_mtu (params : TunnelParameters) (m : option RouteManagerImpl) (k : K) (w : W) : Z :=
  get_route_mtu (ask_mtu params (hear m (kernel_messages w).2) k).

Lemma apply_mtu c omtu gt (s : @State W DaitaSettings K) :
  match (apply_obfuscation_config c omtu gt s).2 with
  | Val (c', Ok o) => c_mtu c' = c_mtu c /\ is_multihop c' = is_multihop c
      /\ ((forall ip, (0 <= shadowsocks_overhead ip)%Z) -> (0 <= default 0 o)%Z)
  | _ => True
  end.
Proof.
  unfold apply_obfuscation_config. destruct (obfuscator_config c); [|done]. destruct (gt && _); [done|].
  destruct (settings_from_config _ _ _ _ _) as [st|]; [|done]. unfold mbind, T_bind, call.
  destruct (create_obfuscator st (world s)) as [w [e|]]; simpl; [|done]. split_and!; [done..|]. intros Hs.
  destruct st; simpl; [lia|apply Hs|lia..].
Qed.

Lemma route_mtu_exact c us r x :
  (576 <= c_mtu c < 2 ^ 16)%Z -> rr_mtu r = None -> rr_mtu (apply_route_mtu_for_multihop c us r) = Some x ->
  (0 < x)%Z /\ (x + wireguard_overhead (net_ip (rr_prefix r)) + PADDING_BYTES_MARGIN)%Z = c_mtu c.
Proof.
  intros Hm Hn. unfold apply_route_mtu_for_multihop. destruct (negb (is_multihop c) || us); [by rewrite Hn|].
  simpl. intros [= <-]. pose proof (overhead_bounds (net_ip (rr_prefix r))). unfold u16_sub, PADDING_BYTES_MARGIN.
  rewrite !Z.mod_small; rewrite ?Z.mod_small; lia.
Qed.

(** C40. Packets fit.  If the user has not chosen an MTU, starting computes one without a panic that is at
    least the minimum of the IP versions in use; if the link can carry packets of that size, then a packet of
    the tunnel's MTU fits the link with everything WireGuard and the obfuscator put around it; and where the
    kernel does multihop, a packet of a route's MTU fits the tunnel once more with the headers of the version
    of that route and with padding. *)
Theorem packets_fit force params retry m k w fut (s : @State W DaitaSettings K) :
  mtu (options params) = None -> (forall ip, (0 <= shadowsocks_overhead ip)%Z) ->
  start force params retry m k w = Running fut s ->
  let us := uses_userspace force params in
  let link := link_mtu params m k w in
  let overhead := (tunnel_overhead params us + default 0 (obfuscator s))%Z in
  (min_mtu params <= c_mtu (config s) <= 1440 - entry_overhead params)%Z
  /\ ((min_mtu params + overhead <= link)%Z -> (c_mtu (config s) + overhead <= link)%Z)
  /\ (forall iface r x, r ∈ get_pre_tunnel_routes iface (config s) us ++ get_post_tunnel_routes iface (config s) us ->
        rr_mtu r = Some x ->
        (0 < x)%Z /\ (x + wireguard_overhead (net_ip (rr_prefix r)) + PADDING_BYTES_MARGIN)%Z = c_mtu (config s)).
Proof.
  intros Hn Hss Hstart us link overhead.
  assert (Hmain : (min_mtu params <= c_mtu (config s) <= 1440 - entry_overhead params)%Z
    /\ ((min_mtu params + overhead <= link)%Z -> (c_mtu (config s) + overhead <= link)%Z)).
  { unfold start in Hstart. fold us in Hstart. unfold link, link_mtu. clear link. destruct (kernel_messages w) as [w1 l]. cbn [snd] in *.
    set (link := get_route_mtu _) in *. destruct (calculate_mtu_ok link params us Hn) as (y & Hy & Hb & Hl). rewrite Hy in Hstart.
    unfold Config_from_parameters in Hstart. destruct (Config_new _ _ _ _ y) as [c|] eqn:Ec; [|done].
    assert (Hmc : c_mtu c = y).
    { unfold Config_new in Ec. rewrite Hn in Ec. case_bool_decide; [done|]. apply bind_result_Ok in Ec as (ex & _ & Ec).
      apply bind_result_Ok in Ec as (en & _ & Ec). by simplify_eq/=. }
    pose proof (apply_mtu c link us (initial c match ask_mtu params (hear m l) k with MtuPanicked => None | _ => hear m l end k w1)) as Ha.
    destruct (apply_obfuscation_config _ _ _ _) as [s1 [[c1 [o|e]]|x|]]; try done. simpl in Ha. destruct Ha as (Hm1 & _ & Ho).
    specialize (Ho Hss). rewrite Hn in Hstart.
    assert (Hmtu : exists z, match o with Some ov => clamp_tunnel_mtu params (u16_saturating_sub (c_mtu c1) ov) | None => Some (c_mtu c1) end = Some z
              /\ (min_mtu params <= z <= 1440 - entry_overhead params)%Z
              /\ ((min_mtu params + (tunnel_overhead params us + default 0 o) <= link)%Z ->
                  (z + (tunnel_overhead params us + default 0 o) <= link)%Z)).
    { destruct o as [ov|]; simpl in *.
      - destruct (clamp_mtu_ok params (u16_saturating_sub (c_mtu c1) ov)) as (z & -> & Hzb & Hz & Hz'). exists z.
        split; [done|]. split; [done|]. unfold u16_saturating_sub in Hz, Hz'. intros Hlink.
        assert (Hlo : (min_mtu params <= link - tunnel_overhead params us)%Z) by lia. specialize (Hl Hlo).
        destruct (Z.lt_ge_cases (Z.max 0 (c_mtu c1 - ov)) (min_mtu params)) as [Hc|Hc]; [rewrite (Hz' Hc); lia|].
        specialize (Hz Hc). pose proof (min_mtu_pos params). lia.
      - exists (c_mtu c1). split_and!; [done|lia..|]. rewrite Hm1, Hmc. intros. lia. }
    destruct Hmtu as (z & Hz & Hzb & Hzl). rewrite Hz in Hstart.
    destruct (open_tunnel _ us (world s1)) as [w2 [iface|e]]; [|done]. destruct (connectivity_check_new w2) as [w3 []]; [|done].
    injection Hstart as _ <-. done. }
  split; [apply Hmain|]. split; [apply Hmain|]. intros iface r x Hr Hx. destruct Hmain as [Hb _].
  assert (Hrange : (576 <= c_mtu (config s) < 2 ^ 16)%Z).
  { pose proof (overhead_bounds (sa_ip (peer_endpoint (peer (connection params))))). unfold entry_overhead in Hb.
    pose proof (min_mtu_pos params). lia. }
  assert (Hf : forall r, rr_prefix (apply_route_mtu_for_multihop (config s) us r) = rr_prefix r)
    by (intros r'; unfold apply_route_mtu_for_multihop; by destruct (negb (is_multihop (config s)) || us)).
  unfold get_pre_tunnel_routes, get_post_tunnel_routes in Hr. rewrite !elem_of_app, !list_elem_of_In, !List.in_map_iff in Hr.
  destruct Hr as [[(y & <- & Hy)|(y & <- & _)]|(y & <- & _)]; [|done|].
  - rewrite Hf. apply (route_mtu_exact (config s) us); [done| |done].
    destruct Hy as [<-|Hy]; [done|]. destruct (c_ipv6_gateway (config s)); [|done]. by destruct Hy as [<-|[]].
  - rewrite Hf. by apply (route_mtu_exact (config s) us).
Qed.
End mtu.
