(* ===== verification/OfflineMonitor.v ===== *)
(** * The offline monitor of Linux

    [src/talpid-core/src/offline/linux.rs] and [mod.rs]: whether the host has a route to the internet outside the
    tunnel, asked of the route manager with the tunnel's mark whenever a route changes. *)

From stdpp Require Import base list strings option numbers gmap.
From S2P Require Import Prelude NetTypes Routing.

Definition PUBLIC_INTERNET_ADDRESS_V4 : IpAddr := V4 (Ipv4Addr_new 193 138 218 78).
Definition PUBLIC_INTERNET_ADDRESS_V6 : IpAddr := V6 (Ipv6Addr_new 0x2001 0xdb8 0x1 0x2 0x3 0x4 0x5 0x6).

(** What the handle answers: the route, or an error of the manager or of its channel. *)
Definition Query : Type := IpAddr -> result (option Route) unit.

Definition route_exists (query : Query) (destination : IpAddr) : result bool unit :=
  match query destination with Ok (Some _) => Ok true | Ok None => Ok false | Err e => Err e end.

Definition check_connectivity (query : Query) : Connectivity :=
  match route_exists query PUBLIC_INTERNET_ADDRESS_V4, route_exists query PUBLIC_INTERNET_ADDRESS_V6 with
  | Ok ipv4, Ok ipv6 => Connectivity_new ipv4 ipv6
  | Err _, _ => PresumeOnline
  | Ok ipv4, Err _ => Connectivity_new ipv4 false
  end.

(** The answers of a manager that runs on the kernel [k]. *)
Definition manager_query {K} `{Rtnetlink K} (m : RouteManagerImpl) (fwmark : option Z) (k : K) : Query :=
  fun destination => map_err (fun _ => tt) (get_destination_route m destination fwmark k).

(** A monitor that is disabled, or that could not be started, presumes connectivity. *)
Inductive MonitorHandle : Type := Disabled | Monitoring.

Definition spawn_monitor (force_disable : bool) (listening : bool) (query : Query) : MonitorHandle * option Connectivity :=
  if force_disable then (Disabled, None)
  else if listening then (Monitoring, Some (check_connectivity query)) else (Disabled, None).

Definition connectivity (h : MonitorHandle) (query : Query) : Connectivity :=
  match h with Disabled => PresumeOnline | Monitoring => check_connectivity query end.

(** One turn of the task: [alive] if the handle has not been dropped.  The value is sent if it is new. *)
Definition monitor_turn (alive : bool) (query : Query) (last : Connectivity) : option Connectivity * list Connectivity :=
  if alive then
    let new_connectivity := check_connectivity query in
    if bool_decide (new_connectivity <> last) then (Some new_connectivity, [new_connectivity]) else (Some last, [])
  else (None, []).

(** The task over the changes it is told of, each with the answers at that time, while the handle lives. *)
Fixpoint monitor_task (queries : list Query) (last : Connectivity) : Connectivity * list Connectivity :=
  match queries with
  | [] => (last, [])
  | query :: queries =>
      match monitor_turn true query last with
      | (Some last, sent) => let '(last, sent') := monitor_task queries last in (last, sent ++ sent')
      | (None, sent) => (last, sent)
      end
  end.

(** Errors never make the host offline, and nothing but the lack of both routes does. *)
Lemma offline_exactly query :
  check_connectivity query = Offline
  <-> route_exists query PUBLIC_INTERNET_ADDRESS_V4 = Ok false /\ route_exists query PUBLIC_INTERNET_ADDRESS_V6 <> Ok true.
Proof.
  unfold check_connectivity.
  destruct (route_exists query PUBLIC_INTERNET_ADDRESS_V4) as [[]|], (route_exists query PUBLIC_INTERNET_ADDRESS_V6) as [[]|];
    simpl; naive_solver.
Qed.

Lemma monitor_task_last queries last :
  let '(last', sent) := monitor_task queries last in
  last' = List.last (map check_connectivity queries) last /\ List.last sent last = last'.
Proof.
  revert last. induction queries as [|q queries IH]; intros last; simpl; [done|]. unfold monitor_turn.
  case_bool_decide as E; simpl.
  - specialize (IH (check_connectivity q)). destruct (monitor_task queries (check_connectivity q)) as [last' sent].
    destruct IH as [-> Hs]. split.
    + destruct (map check_connectivity queries) as [|x l] eqn:El; [done|]. simpl. clear. revert x. induction l; simpl; auto.
    + destruct sent as [|y sent]; simpl in *; [done|]. rewrite <- Hs. clear. revert y. induction sent; simpl; auto.
  - subst last. specialize (IH (check_connectivity q)).
    destruct (monitor_task queries (check_connectivity q)) as [last' sent]. destruct IH as [-> Hs]. split; [|done].
    destruct (map check_connectivity queries) as [|x l] eqn:El; [done|]. simpl. clear. revert x. induction l; simpl; auto.
Qed.

(** The machine is told whether the host is offline.  Over any changes of routes, someone who starts with the
    monitor's first value and follows what it sends has, after the last change, exactly what the routes gave
    then: offline if and only if there is no route for IPv4 and none is found for IPv6, and never because the
    routes could not be asked for. *)
Theorem offline_reported query0 queries query :
  let told := List.last (monitor_task (queries ++ [query]) (check_connectivity query0)).2 (check_connectivity query0) in
  told = check_connectivity query
  /\ (told = Offline <-> route_exists query PUBLIC_INTERNET_ADDRESS_V4 = Ok false
                         /\ route_exists query PUBLIC_INTERNET_ADDRESS_V6 <> Ok true).
Proof.
  intros told. assert (Ht : told = check_connectivity query); [|by rewrite Ht, offline_exactly].
  unfold told. pose proof (monitor_task_last (queries ++ [query]) (check_connectivity query0)) as Hm.
  destruct (monitor_task (queries ++ [query]) (check_connectivity query0)) as [last' sent]. destruct Hm as [Hl Hs]. simpl.
  rewrite Hs, Hl, map_app. apply List.last_last.
Qed.

(** The first value is computed before changes are listened to.  A route that appears in between is not noticed,
    and when it disappears again nothing is sent: a machine that asked for the connectivity in between believes
    that the host is still online. *)
Theorem change_before_listening (r : Route) :
  let offline : Query := fun _ => Ok None in
  let online : Query := fun _ => Ok (Some r) in
  let '(h, first) := spawn_monitor false true offline in
  first = Some Offline /\ connectivity h online = Online AvailIpv4AndIpv6
  /\ (monitor_task [offline] Offline).2 = [] /\ connectivity h offline = Offline.
Proof. done. Qed.
