(* ===== verification/WireguardExamples.v ===== *)
(** * Routing and the tunnel at work

    A kernel with rules and routes that meets the laws of [Routing], services that always succeed, and the
    theorems applied to a tunnel over two hops on it; and what the code does where it does not do what it means to. *)

From stdpp Require Import base list strings option numbers gmap.
From S2P Require Import Prelude NetTypes TunnelTypes FirewallPolicy TunnelMonitor Routing RoutingProps.
From S2P Require Import WireguardTunnel WireguardProps WireguardRouting WireguardMtu.

(** ** A kernel *)
Record Fib : Type := { fib4 : list RuleMessage; fib6 : list RuleMessage; fib_all : list FibRoute; fib_links : list LinkMessage }.

Definition of_family (f : AddressFamily) (l : list RuleMessage) : list RuleMessage :=
  List.filter (fun r => bool_decide (family (header r) = f)) l.
Definition rules_in (f : AddressFamily) (k : Fib) : list RuleMessage :=
  match f with Inet => of_family Inet (fib4 k) | Inet6 => of_family Inet6 (fib6 k) | OtherFamily _ => [] end.
Definition put_rules (f : AddressFamily) (l : list RuleMessage) (k : Fib) : Fib :=
  match f with
  | Inet => {| fib4 := l; fib6 := fib6 k; fib_all := fib_all k; fib_links := fib_links k |}
  | Inet6 => {| fib4 := fib4 k; fib6 := l; fib_all := fib_all k; fib_links := fib_links k |}
  | OtherFamily _ => k
  end.
Definition put_routes (l : list FibRoute) (k : Fib) : Fib :=
  {| fib4 := fib4 k; fib6 := fib6 k; fib_all := l; fib_links := fib_links k |}.

#[export] Instance fib_reference : Rtnetlink Fib := {
  nl_get_rules k := Ok (map InnerRule (rules_in Inet k ++ rules_in Inet6 k));
  nl_new_rule r k :=
    match family (header r) with
    | OtherFamily _ => (k, Err (-97)%Z)
    | f => (put_rules f (place r (rules_in f k)) k, Ok [])
    end;
  nl_del_rule r k :=
    let f := family (header r) in
    if decide (r ∈ rules_in f k)
    then (put_rules f (remove_first (fun x => bool_decide (x = r)) (rules_in f k)) k, Ok [])
    else (k, Ok [PayloadError (- ENOENT)]);
  nl_add_route r k :=
    match rq_oif r, rq_gateway r with
    | None, None => (k, Err (-19)%Z)
    | _, _ => (put_routes (fib_replace (fib_of r) (fib_all k)) k, Ok tt)
    end;
  nl_del_route r k :=
    if existsb (deletes r) (fib_all k) then (put_routes (remove_first (deletes r) (fib_all k)) k, Ok tt)
    else (k, Err (- ESRCH)%Z);
  nl_get_route dst mark k :=
    match fib_lookup (fun _ _ => true) {| pkt_dst := dst; pkt_mark := default 0%Z mark |} (rules_in (family_of dst) k) (fib_all k) with
    | Some x =>
        GotRoute {| address_family := family_of dst; destination_prefix_length := net_prefix (fib_dst x);
                    message_table := fib_table x; route_attributes := match fib_oif x with Some i => [Oif i] | None => [] end |}
    | None => QueryError (- ENETUNREACH)%Z
    end;
  nl_links k := (fib_links k, None);
  hash_order l := l;
}.

Lemma of_family_idem f l : (forall r, r ∈ l -> family (header r) = f) -> of_family f l = l.
Proof.
  intros Hl. unfold of_family. rewrite (filter_ext_in _ (fun _ => true)).
  - clear. induction l; simpl; congruence.
  - intros r Hr. apply bool_decide_eq_true. by apply Hl.
Qed.

Lemma rules_in_family f k r : r ∈ rules_in f k -> family (header r) = f.
Proof.
  destruct f; simpl; [| |set_solver]; unfold of_family; rewrite elem_of_filter_bool, bool_decide_eq_true; tauto.
Qed.

Lemma put_rules_in f l k : known f -> (forall r, r ∈ l -> family (header r) = f) -> rules_in f (put_rules f l k) = l.
Proof. intros [-> | ->] Hl; simpl; by apply of_family_idem. Qed.

Lemma put_rules_other f f' l k : f' <> f -> rules_in f' (put_rules f l k) = rules_in f' k.
Proof. by destruct f, f'. Qed.

Lemma place_elem r x l : x ∈ place r l -> x = r \/ x ∈ l.
Proof. destruct l; simpl; set_solver. Qed.

Lemma inner_rules (l : list RuleMessage) :
  omap (fun p => match p with InnerRule r => Some r | _ => None end) (map InnerRule l) = l.
Proof. induction l as [|x l IH]; [done|]. cbn. f_equal. exact IH. Qed.

#[export] Instance fib_reference_laws : RtnetlinkLaws Fib.
Proof.
  refine {| fib_other := fun _ _ => true; fib_rules := rules_in; fib_routes := fib_all |}.
  - done.
  - intros f k r. apply rules_in_family.
  - intros k ps Hps _. injection Hps as <-. apply inner_rules.
  - intros r k. cbn [nl_new_rule fib_reference].
    assert (Hp : known (family (header r)) -> let f := family (header r) in
              rules_in f (put_rules f (place r (rules_in f k)) k) = place r (rules_in f k)).
    { intros Hk f. apply put_rules_in; [done|]. intros x [->|Hx]%place_elem; [done|]. by eapply rules_in_family. }
    destruct (family (header r)) as [| |n] eqn:E; [| |done].
    all: split; [done|]; split; [intros f Hf; by apply put_rules_other|]; cbn [no_errors forallb]; exists r.
    all: split; [by repeat split|]; split; [done|]; apply Hp; unfold known; auto.
  - intros r k. cbn [nl_del_rule fib_reference]. case_decide as Hin.
    + assert (Hk : known (family (header r))) by (unfold known; destruct (family (header r)); simpl in Hin; [auto|auto|set_solver]).
      split; [by destruct (family (header r))|]. split; [intros f Hf; by apply put_rules_other|]. cbn [no_errors forallb].
      split; [|set_solver]. apply put_rules_in; [done|]. intros x Hx.
      apply (rules_in_family _ k). eapply elem_of_sublist; [exact Hx | apply remove_first_sublist].
    + split; [done|]. split; [done|]. split; [done|]. by intros _.
  - intros r k. simpl. destruct (rq_oif r), (rq_gateway r); simpl; (split; [done|]); try done; (split; [done|]); naive_solver.
  - intros r k. simpl. by destruct (existsb (deletes r) (fib_all k)).
Defined.

(** ** A host with one network card, and a tunnel over two hops *)
Definition table_rule (f : AddressFamily) (table : Z) : RuleMessage :=
  {| header := to_table_header f 0; attributes := [AttrTable table] |}.
Definition ex_route (table : Z) (dst : IpNetwork) (oif : Z) : FibRoute :=
  {| fib_table := table; fib_dst := dst; fib_oif := Some oif; fib_gateway := None; fib_priority := 0; fib_mtu := None |}.
Definition ex_lan : IpNetwork := v4 (Ipv4Addr_new 192 168 1 0) 24.

Definition ex_fib : Fib :=
  {| fib4 := [table_rule Inet 255; table_rule Inet 254; table_rule Inet 253];
     fib6 := [table_rule Inet6 255; table_rule Inet6 254];
     fib_all := [ex_route 255 (v4 (Ipv4Addr_new 127 0 0 1) 32) 1; ex_route 254 ex_lan 2; ex_route 254 (v4 0 0) 2];
     fib_links := [{| link_index := 1; link_loopback := true; if_names := ["lo"]; link_mtus := [65536%Z] |};
                   {| link_index := 2; link_loopback := false; if_names := ["eth0"]; link_mtus := [1500%Z] |}] |}.

Definition MARK : Z := 0x6d6f6c65.

Definition first_manager : RouteManagerImpl :=
  match (spawn MARK MARK ex_fib).2 with
  | Ok m => m
  | Err _ => {| iface_map := ∅; listeners := []; added_routes := []; tunnel_table := 0; fwmark := 0 |}
  end.

Definition wg_link : LinkMessage :=
  {| link_index := 7; link_loopback := false; if_names := ["wg0-mullvad"]; link_mtus := [1380%Z] |}.

#[export] Instance ex_services : TunnelServices unit unit := {
  public_key_of k := String.append "pub-" k;
  shadowsocks_overhead ip := if is_ipv4 ip then 55%Z else 67%Z;
  new_from_random w := (w, "ephemeral");
  create_obfuscator s w := (w, Some {| sa_ip := LOCALHOST true; sa_port := 40000 |});
  will_nm_manage_dns w := false;
  open_network_manager c w := (w, Err SetupTunnelDevice);
  open_netlink c w := (w, Ok "wg0-mullvad");
  open_gotatun c w := (w, Ok "wg0-mullvad");
  connectivity_check_new w := (w, true);
  device_set_config c d w := (w, Ok tt);
  config_service r w := (w, EphemeralPeer (Some (String.append "psk-for-" (parent_pubkey r))) None);
  establish_connectivity w := (w, Ok true);
  device_stop w := w;
  kernel_messages w := (w, [NewLink wg_link]);
}.

Definition ex_peer (key : string) (ip : Z) (nets : list IpNetwork) : PeerConfig :=
  {| public_key := key; allowed_ips := nets; peer_endpoint := {| sa_ip := V4 ip; sa_port := 51820 |}; psk := None;
     constant_packet_size := false |}.

Definition two_hops : TunnelParameters :=
  {| connection :=
       {| cc_tunnel := {| private_key := "device"; addresses := [V4 (Ipv4Addr_new 10 64 0 2)] |};
          peer := ex_peer "entry" (Ipv4Addr_new 185 1 2 3) [v4 (Ipv4Addr_new 45 83 1 2) 32];
          exit_peer := Some (ex_peer "exit" (Ipv4Addr_new 45 83 1 2) [v4 0 0]);
          cc_ipv4_gateway := Ipv4Addr_new 10 64 0 1; cc_ipv6_gateway := None; cc_fwmark := Some MARK |};
     options := {| mtu := None; quantum_resistant := true; daita := false; userspace := false |};
     generic_options := {| enable_ipv6 := false |};
     obfuscation := Some (Single (NetTypes.Udp2Tcp {| sa_ip := V4 (Ipv4Addr_new 185 1 2 3); sa_port := 443 |})) |}.

Definition ex_started : @Started unit unit Fib := start false two_hops 0 (Some first_manager) ex_fib tt.
Definition ex_state : @State unit unit Fib :=
  match ex_started with
  | Running _ s => s
  | _ => initial {| c_tunnel := cc_tunnel (connection two_hops); entry_peer := peer (connection two_hops);
                    c_exit_peer := None; c_ipv4_gateway := 0; c_ipv6_gateway := None; c_mtu := 0; c_fwmark := None;
                    c_enable_ipv6 := false; obfuscator_config := None; c_quantum_resistant := false; c_daita := false |}
           None ex_fib tt
  end.
(** The manager has been told of the new device meanwhile. *)
Definition ex_manager : RouteManagerImpl := default first_manager (manager ex_state).
Definition ex_run : @State unit unit Fib * Outcome Empty_set :=
  tunnel_fut "wg0-mullvad" (Ipv4Addr_new 10 64 0 1) [] 0 1500 false true ex_state.

Definition before_up : list (@Item unit) := removelast (trace ex_run.1).
Definition up_metadata : TunnelMetadata := tunnel_metadata "wg0-mullvad" (config ex_run.1).
Definition ex_packet (mark : Z) : Packet := {| pkt_dst := V4 (Ipv4Addr_new 1 1 1 1); pkt_mark := mark |}.

Lemma ex_state_facts :
  tunnel ex_state = true /\ trace ex_state = [] /\ manager ex_state = Some ex_manager /\ (255 < tunnel_table ex_manager)%Z
  /\ kernel ex_state = ex_fib.
Proof. split_and!; by vm_compute. Qed.

Lemma ex_trace : trace ex_run.1 = before_up ++ [Reported (EvUp up_metadata)].
Proof. by vm_compute. Qed.

Lemma ex_up : Reported (EvUp up_metadata) ∈ trace ex_run.1.
Proof. rewrite ex_trace. apply elem_of_app. right. constructor. Qed.

Lemma ex_unique : unique_rules ex_manager (kernel ex_state).
Proof.
  assert (Hz : forall f o, (o ∈ own_rules ex_manager) -> List.filter (rule_matches o) (rules_in f ex_fib) = []).
  { intros f o. unfold own_rules, all_rules. rewrite !elem_of_cons, elem_of_nil.
    intros [->|[->|[->|[->|[]]]]]; destruct f; by vm_compute. }
  intros f o Ho. cbn [fib_rules fib_reference_laws]. destruct ex_state_facts as (_ & _ & _ & _ & ->). rewrite Hz by done. simpl. lia.
Qed.

Lemma ex_table_free x : x ∈ fib_routes (kernel ex_state) -> fib_table x <> tunnel_table ex_manager.
Proof.
  intros Hx. assert (Hall : Forall (fun x => fib_table x <> tunnel_table ex_manager) (fib_routes (kernel ex_state))) by
    (apply (bool_decide_eq_true _); by vm_compute).
  rewrite Forall_forall in Hall. auto.
Qed.

(** The future reports the tunnel up, with everything done that has to be done before. *)
Lemma tunnel_reports_witness :
  trace ex_run.1 = before_up ++ [Reported (EvUp up_metadata)]
  /\ report_right "wg0-mullvad" 0 false [] (config ex_state) before_up (EvUp up_metadata).
Proof.
  split; [exact ex_trace|].
  apply (tunnel_reports "wg0-mullvad" (Ipv4Addr_new 10 64 0 1) [] 0 1500 false true ex_state ex_run.1 ex_run.2 before_up (EvUp up_metadata) []).
  - apply ex_state_facts.
  - apply ex_state_facts.
  - apply surjective_pairing.
  - exact ex_trace.
Defined.

(** A packet to 1.1.1.1 without the mark goes to the tunnel's device. *)
Lemma traffic_through_tunnel_witness :
  exists x m', fib_lookup fib_other (ex_packet 0) (fib_rules Inet (kernel ex_run.1)) (fib_routes (kernel ex_run.1)) = Some x
    /\ manager ex_run.1 = Some m' /\ fib_oif x = find_iface_idx "wg0-mullvad" m' /\ fib_oif x <> None.
Proof.
  assert (Hspec : specific (ex_packet 0) (fib_routes (kernel ex_run.1)) = None) by (by vm_compute).
  assert (Hmark : (pkt_mark (ex_packet 0) =? fwmark ex_manager)%Z = false) by (by vm_compute).
  assert (Hall : v4 0 0 ∈ get_tunnel_destinations (config ex_state)) by (apply (bool_decide_eq_true _); by vm_compute).
  assert (Hd : without (own_rules ex_manager) (fib_rules (family_of (pkt_dst (ex_packet 0))) (kernel ex_state))
               = [table_rule Inet 255; table_rule Inet 254; table_rule Inet 253]) by (by vm_compute).
  assert (H0 : fib_lookup fib_other (ex_packet 0) [table_rule Inet 255] (fib_routes (kernel ex_run.1)) = None) by (by vm_compute).
  destruct ex_state_facts as (H1 & H2 & H3 & H4 & _).
  pose proof (traffic_through_tunnel "wg0-mullvad" (Ipv4Addr_new 10 64 0 1) [] 0 1500 false true ex_state ex_run.1 ex_run.2 up_metadata
    ex_manager (ex_packet 0) _ _ H1 H2 H3 H4 ex_unique ex_table_free (surjective_pairing _) ex_up eq_refl Hd H0) as H.
  cbv zeta in H. rewrite Hspec, Hmark in H. exact (H _ Hall eq_refl eq_refl).
Defined.

(** It does: its device is the one with index 7. *)
Example packet_in_tunnel :
  fib_oif <$> fib_lookup fib_other (ex_packet 0) (fib_rules Inet (kernel ex_run.1)) (fib_routes (kernel ex_run.1)) = Some (Some 7%Z)
  /\ fib_oif <$> fib_lookup fib_other (ex_packet MARK) (fib_rules Inet (kernel ex_run.1)) (fib_routes (kernel ex_run.1)) = Some (Some 2%Z).
Proof. by vm_compute. Qed.

Lemma packets_fit_witness :
  exists fut, start false two_hops 0 (Some first_manager) ex_fib tt = Running fut ex_state
  /\ (min_mtu two_hops <= c_mtu (config ex_state) <= 1440 - entry_overhead two_hops)%Z.
Proof.
  assert (Hs : exists fut, start false two_hops 0 (Some first_manager) ex_fib tt = Running fut ex_state).
  { unfold ex_state. change (start false two_hops 0 (Some first_manager) ex_fib tt) with ex_started.
    assert (Hr : match ex_started with Running _ _ => true | _ => false end = true) by (by vm_compute).
    destruct ex_started as [fut s| |]; [by exists fut | done..]. }
  destruct Hs as [fut Hs]. exists fut. split; [exact Hs|].
  assert (Hss : forall ip, (0 <= shadowsocks_overhead ip)%Z) by (intros []; simpl; lia).
  exact (proj1 (packets_fit false two_hops 0 (Some first_manager) ex_fib tt fut ex_state eq_refl Hss Hs)).
Defined.

(** ** Corners of the code *)

(** The MTU of a user is taken as it is: 70 with two hops in the kernel wraps around to a route MTU of 65531. *)
Definition tiny_mtu : TunnelParameters :=
  {| connection := connection two_hops;
     options := {| mtu := Some 70%Z; quantum_resistant := false; daita := false; userspace := false |};
     generic_options := generic_options two_hops; obfuscation := None |}.
Theorem small_mtu_wraps :
  match start false tiny_mtu 0 (Some first_manager) ex_fib tt with
  | Running _ s => map rr_mtu (get_post_tunnel_routes "wg0-mullvad" (config s) false) = [Some 65531%Z]
  | _ => False
  end.
Proof. by vm_compute. Qed.

(** A tunnel with only an IPv6 address is accepted without IPv6, and then has no address at all. *)
Definition only_ipv6 : TunnelParameters :=
  {| connection := {| cc_tunnel := {| private_key := "device"; addresses := [V6 1] |};
                      peer := peer (connection two_hops); exit_peer := exit_peer (connection two_hops);
                      cc_ipv4_gateway := Ipv4Addr_new 10 64 0 1; cc_ipv6_gateway := None; cc_fwmark := Some MARK |};
     options := options two_hops; generic_options := generic_options two_hops; obfuscation := None |}.
Theorem no_address_left :
  match Config_from_parameters only_ipv6 1380 with Ok c => addresses (c_tunnel c) = [] | Err _ => False end.
Proof. by vm_compute. Qed.

(** A token that names its scheme panics. *)
Definition bearer_token : TunnelParameters :=
  {| connection := connection two_hops; options := options two_hops; generic_options := generic_options two_hops;
     obfuscation := Some (Single (NetTypes.Quic "relay" {| sa_ip := V4 (Ipv4Addr_new 185 1 2 3); sa_port := 443 |} "Bearer x")) |}.
Theorem bearer_token_panics : start false bearer_token 0 (Some first_manager) ex_fib tt = StartPanicked.
Proof. by vm_compute. Qed.

(** The mark and the table change places on their way to the manager. *)
Theorem spawn_swaps fw table k m : (spawn fw table k : Fib * _).2 = Ok m -> fwmark m = table /\ tunnel_table m = fw.
Proof.
  unfold spawn, RouteManagerImpl_new. destruct (initialize_link_map k); [|done].
  destruct (clear_routing_rules _ k) as [k' [[]|e]]; simpl; [|done]. by intros [= <-].
Qed.

(** A rule of the user, with a selector of its own (here of type 1, a source), is deleted when the manager starts. *)
Definition user_rule : RuleMessage :=
  {| header := to_table_header Inet 0;
     attributes := [SuppressPrefixLen 0; AttrTable RT_TABLE_MAIN; OtherRuleAttribute 1 10] |}.
Theorem foreign_rule_deleted :
  user_rule ∉ rules_in Inet (spawn MARK MARK (put_rules Inet [table_rule Inet 255; user_rule] ex_fib)).1.
Proof. apply (bool_decide_eq_true _). by vm_compute. Qed.

(** A route is added; the message about an earlier deletion of the same route is read afterwards, and the manager
    no longer removes the route. *)
Definition gateway_route : RequiredRoute := RequiredRoute_new (v4 (Ipv4Addr_new 10 64 0 1) 32) (Node_device "eth0").
Definition late_message : RouteMessage :=
  {| address_family := Inet; destination_prefix_length := 32; message_table := 254;
     route_attributes := [Oif 2; Destination [10; 64; 0; 1]%Z; RouteTable 254] |}.
Theorem route_forgotten :
  let '(m, k, _) := add_required_routes [gateway_route] first_manager ex_fib in
  let m' := (process_netlink_message (fun _ => true) (DelRouteMessage late_message) m).1 in
  length (fib_all k) = 4 /\ length (fib_all (cleanup_routes m k).2) = 3 /\ length (fib_all (cleanup_routes m' k).2) = 4.
Proof. by vm_compute. Qed.
