(* ===== verification/DnsLinux.v ===== *)
(** * The DNS monitor of Linux

    [src/talpid-dns/src/lib.rs] and [src/talpid-dns/src/linux/]: how the name servers of the tunnel are handed to
    systemd-resolved, NetworkManager, resolvconf or [/etc/resolv.conf], and how that is undone.

    The files are part of the model: every operation on them may fail or be the last thing the daemon does,
    which a list of faults decides.  [/etc/resolv.conf] is watched, and others may change it. *)

From stdpp Require Import base list strings option numbers.
From S2P Require Import Prelude NetTypes TunnelTypes.

(** ** The [resolv_conf] crate *)
Record ScopedIp : Type := { scoped_address : IpAddr; ip_scope : option string }.
#[global] Instance ScopedIp_eq_dec : EqDecision ScopedIp.
Proof. solve_decision. Defined.

Definition ScopedIp_from (address : IpAddr) : ScopedIp := {| scoped_address := address; ip_scope := None |}.

Class ResolvConf (Text Config : Type) : Type := {
  Config_new : Config;
  Config_parse : Text -> option Config;
  Config_to_string : Config -> Text;
  nameservers : Config -> list ScopedIp;
  set_nameservers : list ScopedIp -> Config -> Config;
  (** The text contains "Generated by resolvconf". *)
  generated_by_resolvconf : Text -> bool;
}.

(** What is written is read back as it was, and [nameservers] is a field. *)
Class ResolvConfLaws (Text Config : Type) `{ResolvConf Text Config} : Prop := {
  parse_to_string c : Config_parse (Config_to_string c) = Some c;
  nameservers_set l c : nameservers (set_nameservers l c) = l;
  set_nameservers_same c : set_nameservers (nameservers c) c = c;
  set_nameservers_twice l l' c : set_nameservers l (set_nameservers l' c) = set_nameservers l c;
}.

(** ** The services *)
Inductive NmError : Type := DeviceNotFound | NmOther.

(** [W] is the state of the services, [DeviceConfig] the settings NetworkManager has for a device. *)
Class DnsServices (W DeviceConfig : Type) : Type := {
  TALPID_DNS_MODULE : option string;
  DbusInterface_new : W -> W * bool;
  if_nametoindex : string -> W -> option Z;
  disable_dot : Z -> W -> W * bool;
  set_domains : Z -> list (string * bool) -> W -> W * bool;
  resolved_set_dns : Z -> list IpAddr -> W -> W * bool;
  DBus_new : W -> W * bool;
  ensure_can_be_used_to_manage_dns : W -> W * bool;
  nm_set_dns : string -> list IpAddr -> W -> W * option DeviceConfig;
  fetch_device : string -> W -> W * result string NmError;
  (** Whether the device is ready, or that this could not be found out. *)
  device_ready : string -> W -> W * option bool;
  reapply_settings : string -> DeviceConfig -> W -> W * bool;
  which_resolvconf : W -> option string;
  (** The file name of the target, if the path is a symbolic link. *)
  read_link : string -> W -> option string;
  (** The contents of [/var/run/dnsmasq/dnsmasq.pid], and whether [/proc] has a directory of a name. *)
  dnsmasq_pid : W -> option string;
  proc_exists : string -> W -> bool;
  (** The lines of the configuration files of dnsmasq that can be read, without the space around them. *)
  dnsmasq_lines : W -> list string;
  (** The components of the path that [/etc/resolv.conf] stands for. *)
  canonicalize_resolv_conf : W -> option (list string);
  (** Running the program with arguments and an input: not at all, or with success or not. *)
  run_resolvconf : string -> list string -> string -> W -> W * option bool;
}.

(** ** Errors *)
Inductive ConfPath : Type := RESOLV_CONF_PATH | RESOLV_CONF_BACKUP_PATH.

Inductive StaticError : Type :=
| WatchResolvConf
| WriteResolvConf (p : ConfPath)
| ReadResolvConf (p : ConfPath)
| ParseError (p : ConfPath)
| RemoveBackup (p : ConfPath).

Inductive ResolvconfError : Type :=
| NoResolvconf
| ResolvconfUsesResolved
| RunResolvconf
| AddRecord
| DeleteRecord
| DnsmasqMisconfiguration
| ResolvconfNotInUse.

Inductive SystemdError : Type := SystemdResolvedError | InterfaceNameError.

Inductive DnsError : Type :=
| SystemdResolvedDns (e : SystemdError)
| NetworkManagerDns (e : NmError)
| ResolvconfDns (e : ResolvconfError)
| StaticResolvConfDns (e : StaticError)
| NoDnsMonitor.

(** ** Programs: a value, an error, or the end of the daemon *)
Inductive Outcome (E A : Type) : Type :=
| Ret (a : A)
| Throw (e : E)
| Crashed.
Arguments Ret {E A} a.
Arguments Throw {E A} e.
Arguments Crashed {E A}.

Section dns.
Context {Text Config W DeviceConfig : Type} `{ResolvConf Text Config} `{DnsServices W DeviceConfig}.

(** ** The state *)
Record RState : Type := { rs_backup : Config; desired_dns : list IpAddr }.

Definition desired_nameservers (s : RState) : list ScopedIp := map ScopedIp_from (desired_dns s).
Definition desired_config (s : RState) : Config := set_nameservers (desired_nameservers s) (rs_backup s).

(** A watcher with the state it shares with its [StaticResolvConf], the events that it has not yet handled, and
    whether what it watches is still the file. *)
Record Watcher : Type := { w_state : option RState; w_pending : nat; w_watching : bool }.

(** The [StaticResolvConf] of a holder is the live watcher. *)
Inductive DnsMonitorHolder : Type :=
| HolderSystemdResolved (tunnel_index : Z)
| HolderNetworkManager (device : option string) (settings_backup : option DeviceConfig)
| HolderResolvconf (record_names : list string) (resolvconf : string)
| HolderStaticResolvConf.

(** What can happen to an operation on a file: it fails, and may leave the file as it is or with other contents,
    or the daemon ends in it. *)
Inductive Fault : Type :=
| Fails
| FailsLeaving (t : option Text)
| EndsBefore
| EndsLeaving (t : option Text).

Record Sys : Type := {
  inner : option DnsMonitorHolder;
  resolv_conf : option Text;
  backup_file : option Text;
  live : option Watcher;
  (** Watchers that have been dropped and not yet noticed. *)
  dropped : list Watcher;
  faults : list (option Fault);
  services : W;
}.

Definition set_inner (x : option DnsMonitorHolder) (s : Sys) : Sys :=
  {| inner := x; resolv_conf := resolv_conf s; backup_file := backup_file s; live := live s; dropped := dropped s;
     faults := faults s; services := services s |}.
Definition set_resolv_conf (x : option Text) (s : Sys) : Sys :=
  {| inner := inner s; resolv_conf := x; backup_file := backup_file s; live := live s; dropped := dropped s;
     faults := faults s; services := services s |}.
Definition set_backup_file (x : option Text) (s : Sys) : Sys :=
  {| inner := inner s; resolv_conf := resolv_conf s; backup_file := x; live := live s; dropped := dropped s;
     faults := faults s; services := services s |}.
Definition set_watchers (x : option Watcher) (l : list Watcher) (s : Sys) : Sys :=
  {| inner := inner s; resolv_conf := resolv_conf s; backup_file := backup_file s; live := x; dropped := l;
     faults := faults s; services := services s |}.
Definition set_faults (x : list (option Fault)) (s : Sys) : Sys :=
  {| inner := inner s; resolv_conf := resolv_conf s; backup_file := backup_file s; live := live s; dropped := dropped s;
     faults := x; services := services s |}.
Definition set_services (x : W) (s : Sys) : Sys :=
  {| inner := inner s; resolv_conf := resolv_conf s; backup_file := backup_file s; live := live s; dropped := dropped s;
     faults := faults s; services := x |}.

Definition D (E A : Type) : Type := Sys -> Sys * Outcome E A.

#[global] Instance D_ret {E} : MRet (D E) := fun A a s => (s, Ret a).
#[global] Instance D_bind {E} : MBind (D E) := fun A B f m s =>
  match m s with
  | (s, Ret a) => f a s
  | (s, Throw e) => (s, Throw e)
  | (s, Crashed) => (s, Crashed)
  end.

Definition throw {E A} (e : E) : D E A := fun s => (s, Throw e).
Definition gets {E A} (f : Sys -> A) : D E A := fun s => (s, Ret (f s)).
Definition modify {E} (f : Sys -> Sys) : D E unit := fun s => (f s, Ret tt).
Definition service {E A} (f : W -> W * A) : D E A := fun s => let '(w, a) := f (services s) in (set_services w s, Ret a).
(** [?] with a conversion of the error. *)
Definition lift {E E' A} (f : E -> E') (m : D E A) : D E' A := fun s =>
  match m s with
  | (s, Ret a) => (s, Ret a)
  | (s, Throw e) => (s, Throw (f e))
  | (s, Crashed) => (s, Crashed)
  end.
(** The result of a fallible program as a value. *)
Definition try {E E' A} (m : D E A) : D E' (result A E) := fun s =>
  match m s with
  | (s, Ret a) => (s, Ret (Ok a))
  | (s, Throw e) => (s, Ret (Err e))
  | (s, Crashed) => (s, Crashed)
  end.
Definition check {E} (b : bool) (e : E) : D E unit := if b then mret tt else throw e.

(** ** Files *)
Definition notify (w : Watcher) : Watcher :=
  {| w_state := w_state w; w_pending := if w_watching w then S (w_pending w) else w_pending w; w_watching := w_watching w |}.

(** A file that was opened for writing has been closed. *)
Definition wrote (t : option Text) (s : Sys) : Sys :=
  set_watchers (notify <$> live s) (map notify (dropped s)) (set_resolv_conf t s).

(** An operation on a file: [ok] is its effect, [left] that of leaving other contents. *)
Definition attempt {E} (ok : Sys -> Sys) (left : option Text -> Sys -> Sys) : D E bool := fun s =>
  match faults s with
  | [] => (ok s, Ret true)
  | fault :: l =>
      let s := set_faults l s in
      match fault with
      | None => (ok s, Ret true)
      | Some Fails => (s, Ret false)
      | Some (FailsLeaving t) => (left t s, Ret false)
      | Some EndsBefore => (s, Crashed)
      | Some (EndsLeaving t) => (left t s, Crashed)
      end
  end.

Definition keep (t : option Text) (s : Sys) : Sys := s.

Definition write_config (c : Config) : D StaticError unit :=
  ok ← attempt (wrote (Some (Config_to_string c))) wrote;
  check ok (WriteResolvConf RESOLV_CONF_PATH).

Definition write_backup (c : Config) : D StaticError unit :=
  ok ← attempt (set_backup_file (Some (Config_to_string c))) set_backup_file;
  check ok (WriteResolvConf RESOLV_CONF_BACKUP_PATH).

Definition read_config : D StaticError Config :=
  t ← gets resolv_conf;
  match t with
  | None => mret Config_new
  | Some contents =>
      ok ← attempt id keep;
      check ok (ReadResolvConf RESOLV_CONF_PATH);;
      match Config_parse contents with
      | Some config => mret config
      | None => throw (ParseError RESOLV_CONF_PATH)
      end
  end.

Definition restore_from_backup : D StaticError unit :=
  ok ← attempt id keep;
  t ← gets backup_file;
  check ok (ReadResolvConf RESOLV_CONF_BACKUP_PATH);;
  match t with
  | None => mret tt
  | Some backup =>
      match Config_parse backup with
      | None => throw (ParseError RESOLV_CONF_BACKUP_PATH)
      | Some config =>
          write_config config;;
          ok ← attempt (set_backup_file None) (fun _ => id);
          check ok (RemoveBackup RESOLV_CONF_BACKUP_PATH)
      end
  end.

(** ** [StaticResolvConf] *)
Definition DnsWatcher_start : D StaticError unit :=
  ok ← attempt id keep;
  check ok WatchResolvConf;;
  t ← gets resolv_conf;
  match t with
  | None => throw WatchResolvConf
  | Some _ => modify (fun s => set_watchers (Some {| w_state := None; w_pending := 0; w_watching := true |}) (dropped s) s)
  end.

Definition StaticResolvConf_new : D StaticError unit := restore_from_backup;; DnsWatcher_start.

Definition live_state (s : Sys) : option RState := w ← live s; w_state w.
Definition with_state (x : option RState) (w : Watcher) : Watcher :=
  {| w_state := x; w_pending := w_pending w; w_watching := w_watching w |}.
Definition set_live_state (x : option RState) (s : Sys) : Sys := set_watchers (with_state x <$> live s) (dropped s) s.

(** The lock is held throughout. *)
Definition static_set_dns (servers : list IpAddr) : D StaticError unit :=
  state ← gets live_state;
  modify (set_live_state None);;
  new_state ← match state with
              | None =>
                  backup ← read_config;
                  write_backup backup;;
                  mret {| rs_backup := backup; desired_dns := servers |}
              | Some previous => mret {| rs_backup := rs_backup previous; desired_dns := servers |}
              end;
  modify (set_live_state (Some new_state));;
  write_config (desired_config new_state).

(** That the backup could not be removed is ignored. *)
Definition static_reset : D StaticError unit :=
  state ← gets live_state;
  modify (set_live_state None);;
  match state with
  | Some state =>
      write_config (rs_backup state);;
      attempt (set_backup_file None) (fun _ => id);;
      mret tt
  | None => mret tt
  end.

(** Dropping cancels the watcher, which its task notices when it is next scheduled. *)
Definition drop_static (s : Sys) : Sys := set_watchers None (option_list (live s) ++ dropped s) s.

(** [DnsWatcher::update]; [put] stores the state of the watcher. *)
Definition update (put : RState -> Sys -> Sys) (state : option RState) : D StaticError unit :=
  match state with
  | None => mret tt
  | Some state =>
      new_config ← read_config;
      if bool_decide (nameservers new_config <> desired_nameservers state) then
        modify (put {| rs_backup := new_config; desired_dns := desired_dns state |});;
        write_config (set_nameservers (desired_nameservers state) new_config)
      else
        let backup := set_nameservers (nameservers (rs_backup state)) new_config in
        modify (put {| rs_backup := backup; desired_dns := desired_dns state |});;
        write_backup backup
  end.

Definition handled (w : Watcher) : Watcher :=
  {| w_state := w_state w; w_pending := pred (w_pending w); w_watching := w_watching w |}.

(** One turn of [event_loop] with an event; an error is logged. *)
Definition live_event : D StaticError unit :=
  w ← gets live;
  match w with
  | Some w =>
      match w_pending w with
      | O => mret tt
      | S _ =>
          modify (fun s => set_watchers (handled <$> live s) (dropped s) s);;
          try (E' := StaticError) (update (fun x => set_live_state (Some x)) (w_state w));;
          mret tt
      end
  | None => mret tt
  end.

(** The same of a watcher that has not yet noticed that it was dropped: the selection between its cancellation
    and an event is random. *)
Definition dropped_event (i : nat) : D StaticError unit :=
  l ← gets dropped;
  match l !! i with
  | Some w =>
      match w_pending w with
      | O => mret tt
      | S _ =>
          modify (fun s => set_watchers (live s) (alter handled i (dropped s)) s);;
          try (E' := StaticError)
            (update (fun x s => set_watchers (live s) (alter (with_state (Some x)) i (dropped s)) s) (w_state w));;
          mret tt
      end
  | None => mret tt
  end.

(** ** [Resolvconf] *)
Definition is_dnsmasq_running (w : W) : bool :=
  match dnsmasq_pid w with Some pid => proc_exists pid w | None => false end.

Definition is_dnsmasq_configured_wrong (w : W) : bool := existsb (String.prefix "no-resolv") (dnsmasq_lines w).

Fixpoint starts_with (prefix path : list string) : bool :=
  match prefix, path with
  | [], _ => true
  | x :: prefix, y :: path => bool_decide (x = y) && starts_with prefix path
  | _ :: _, [] => false
  end.

Definition check_if_resolvconf_is_symlinked_correctly (w : W) : bool :=
  match canonicalize_resolv_conf w with Some path => starts_with ["var"; "run"; "resolvconf"] path | None => false end.

Definition check_if_resolvconf_was_generated (t : option Text) : bool :=
  match t with Some contents => generated_by_resolvconf contents | None => false end.

Definition resolvconf_is_resolved_symlink (path : string) (w : W) : bool := bool_decide (read_link path w = Some "resolvectl").

Definition Resolvconf_new : D ResolvconfError DnsMonitorHolder :=
  w ← gets services;
  t ← gets resolv_conf;
  match which_resolvconf w with
  | None => throw NoResolvconf
  | Some path =>
      check (negb (resolvconf_is_resolved_symlink path w)) ResolvconfUsesResolved;;
      check (is_dnsmasq_running w || check_if_resolvconf_is_symlinked_correctly w || check_if_resolvconf_was_generated t)
        ResolvconfNotInUse;;
      check (negb (is_dnsmasq_running w && is_dnsmasq_configured_wrong w)) DnsmasqMisconfiguration;;
      mret (HolderResolvconf [] path)
  end.

(** [to_string] is that of an address. *)
Definition newline : string := String (Ascii.ascii_of_nat 10) EmptyString.
Definition record_contents (to_string : IpAddr -> string) (servers : list IpAddr) : string :=
  foldl (fun s address => String.append s (String.append "nameserver " (String.append (to_string address) newline)))
    EmptyString servers.

Definition insert_name (n : string) (l : list string) : list string := if bool_decide (n ∈ l) then l else l ++ [n].

Definition resolvconf_set_dns (to_string : IpAddr -> string) (names : list string) (path interface : string)
    (servers : list IpAddr) : D ResolvconfError (list string) :=
  let record_name := String.append interface ".mullvad" in
  output ← service (run_resolvconf path ["-a"; record_name] (record_contents to_string servers));
  match output with
  | None => throw RunResolvconf
  | Some success => check success AddRecord;; mret (insert_name record_name names)
  end.

(** The records that are left when the program cannot be run are forgotten with the others. *)
Fixpoint resolvconf_reset (names : list string) (path : string) (result : D ResolvconfError unit) : D ResolvconfError unit :=
  match names with
  | [] => result
  | record_name :: names =>
      output ← service (run_resolvconf path ["-d"; record_name; "-f"] EmptyString);
      match output with
      | None => throw RunResolvconf
      | Some true => resolvconf_reset names path result
      | Some false => resolvconf_reset names path (throw DeleteRecord)
      end
  end.

(** ** [NetworkManager] *)
Definition NetworkManager_new : D NmError DnsMonitorHolder :=
  ok ← service DBus_new;
  check ok NmOther;;
  ok ← service ensure_can_be_used_to_manage_dns;
  check ok NmOther;;
  mret (HolderNetworkManager None None).

Definition nm_set (interface_name : string) (servers : list IpAddr) : D NmError DnsMonitorHolder :=
  old_settings ← service (nm_set_dns interface_name servers);
  match old_settings with
  | Some old => mret (HolderNetworkManager (Some interface_name) (Some old))
  | None => throw NmOther
  end.

Definition nm_reset (device : option string) (settings_backup : option DeviceConfig) : D NmError unit :=
  match settings_backup, device with
  | Some settings_backup, Some device =>
      path ← service (fetch_device device);
      match path with
      | Ok device_path =>
          ready ← service (device_ready device_path);
          match ready with
          | None => throw NmOther
          | Some true => ok ← service (reapply_settings device_path settings_backup); check ok NmOther
          | Some false => mret tt
          end
      | Err DeviceNotFound => mret tt
      | Err error => throw error
      end
  | _, _ => mret tt
  end.

(** ** [SystemdResolved] *)
Definition SystemdResolved_new : D SystemdError DnsMonitorHolder :=
  ok ← service DbusInterface_new;
  check ok SystemdResolvedError;;
  mret (HolderSystemdResolved 0).

Definition resolved_set (interface_name : string) (servers : list IpAddr) : D SystemdError DnsMonitorHolder :=
  w ← gets services;
  match if_nametoindex interface_name w with
  | None => throw InterfaceNameError
  | Some tunnel_index =>
      service (disable_dot tunnel_index);;
      service (set_domains tunnel_index [(".", true)]);;
      ok ← service (resolved_set_dns tunnel_index servers);
      check ok SystemdResolvedError;;
      mret (HolderSystemdResolved tunnel_index)
  end.

Definition resolved_reset (tunnel_index : Z) : D SystemdError unit :=
  service (set_domains tunnel_index []);;
  ok ← service (resolved_set_dns tunnel_index []);
  check ok SystemdResolvedError.

(** ** [DnsMonitorHolder] *)
Definition or_else {E A} (m m' : D E A) : D E A :=
  r ← try m;
  match r with Ok a => mret a | Err _ => m' end.

Definition new_static : D DnsError DnsMonitorHolder := lift StaticResolvConfDns (StaticResolvConf_new);; mret HolderStaticResolvConf.

Definition with_detected_dns_manager : D DnsError DnsMonitorHolder :=
  r ← try (or_else (lift SystemdResolvedDns SystemdResolved_new)
            (or_else (lift NetworkManagerDns NetworkManager_new)
              (or_else (lift ResolvconfDns Resolvconf_new) new_static)));
  match r with Ok holder => mret holder | Err _ => throw NoDnsMonitor end.

Definition DnsMonitorHolder_new : D DnsError DnsMonitorHolder :=
  match TALPID_DNS_MODULE with
  | Some "static-file" => new_static
  | Some "resolvconf" => lift ResolvconfDns Resolvconf_new
  | Some "systemd" => lift SystemdResolvedDns SystemdResolved_new
  | Some "network-manager" => lift NetworkManagerDns NetworkManager_new
  | Some _ | None => with_detected_dns_manager
  end%string.

Definition holder_set (to_string : IpAddr -> string) (h : DnsMonitorHolder) (interface : string) (servers : list IpAddr)
  : D DnsError DnsMonitorHolder :=
  match h with
  | HolderResolvconf names path =>
      names ← lift ResolvconfDns (resolvconf_set_dns to_string names path interface servers);
      mret (HolderResolvconf names path)
  | HolderStaticResolvConf => lift StaticResolvConfDns (static_set_dns servers);; mret HolderStaticResolvConf
  | HolderSystemdResolved _ => lift SystemdResolvedDns (resolved_set interface servers)
  | HolderNetworkManager _ _ => lift NetworkManagerDns (nm_set interface servers)
  end.

Definition holder_reset (h : DnsMonitorHolder) : D DnsError unit :=
  match h with
  | HolderResolvconf names path => lift ResolvconfDns (resolvconf_reset names path (mret tt))
  | HolderStaticResolvConf => lift StaticResolvConfDns static_reset
  | HolderSystemdResolved tunnel_index => lift SystemdResolvedDns (resolved_reset tunnel_index)
  | HolderNetworkManager device settings_backup => lift NetworkManagerDns (nm_reset device settings_backup)
  end.

Definition drop_holder (h : DnsMonitorHolder) (s : Sys) : Sys :=
  match h with HolderStaticResolvConf => drop_static s | _ => s end.

(** A program whose holder is dropped at its end, whatever its result. *)
Definition dropping {E A} (h : DnsMonitorHolder) (m : D E A) : D E A := fun s =>
  match m s with
  | (s, Crashed) => (s, Crashed)
  | (s, r) => (drop_holder h s, r)
  end.

(** ** [DnsMonitor] *)
Definition DnsMonitor_reset : D DnsError unit :=
  holder ← gets inner;
  modify (set_inner None);;
  match holder with
  | Some holder => dropping holder (holder_reset holder)
  | None => mret tt
  end.

Definition DnsMonitor_set (to_string : IpAddr -> string) (interface : string) (config : ResolvedDnsConfig) : D DnsError unit :=
  let servers := tunnel_config config in
  DnsMonitor_reset;;
  holder ← DnsMonitorHolder_new;
  if bool_decide (servers = []) then modify (drop_holder holder)
  else
    r ← try (holder_set to_string holder interface servers);
    match r with
    | Ok holder => modify (set_inner (Some holder))
    | Err e => modify (drop_holder holder);; throw e
    end.

(** [will_use_nm]. *)
Definition will_use_nm : D DnsError bool :=
  systemd ← try SystemdResolved_new;
  match systemd with
  | Ok _ => mret false
  | Err _ => nm ← try NetworkManager_new; mret (is_ok nm)
  end.

(** ** Runs *)
Inductive DnsEvent : Type :=
| DnsSet (interface : string) (config : ResolvedDnsConfig)
| DnsReset
| WatchEvent
| DroppedEvent (i : nat)
| DroppedEnds (i : nat)
(** Another program writes to the file, puts another file in its place, or deletes it. *)
| Rewritten (t : Text)
| Replaced (t : Text)
| Deleted
(** The daemon is killed, or crashes. *)
| Killed.

(** The daemon ends: nothing but the files and the services is left. *)
Definition dead (s : Sys) : Sys :=
  {| inner := None; resolv_conf := resolv_conf s; backup_file := backup_file s; live := None; dropped := [];
     faults := []; services := services s |}.

(** The file that is watched is gone: its watchers are told, and of nothing after that. *)
Definition lost (w : Watcher) : Watcher :=
  {| w_state := w_state w; w_pending := w_pending (notify w); w_watching := false |}.
Definition moved (t : option Text) (s : Sys) : Sys :=
  set_watchers (lost <$> live s) (map lost (dropped s)) (set_resolv_conf t s).

Definition settled {E A} (r : Sys * Outcome E A) : Sys :=
  match r with (s, Crashed) => dead s | (s, _) => set_faults [] s end.

(** A step with the faults of its operations; an error is given to the caller. *)
Definition dns_step (to_string : IpAddr -> string) (e : DnsEvent) (l : list (option Fault)) (s : Sys) : Sys :=
  let s := set_faults l s in
  match e with
  | DnsSet interface config => settled (DnsMonitor_set to_string interface config s)
  | DnsReset => settled (DnsMonitor_reset s)
  | WatchEvent => settled (live_event s)
  | DroppedEvent i => settled (dropped_event i s)
  | DroppedEnds i => set_faults [] (set_watchers (live s) (delete i (dropped s)) s)
  | Rewritten t => set_faults [] (wrote (Some t) s)
  | Replaced t => set_faults [] (moved (Some t) s)
  | Deleted => set_faults [] (moved None s)
  | Killed => dead s
  end.

Definition dns_run (to_string : IpAddr -> string) (l : list (DnsEvent * list (option Fault))) (s : Sys) : Sys :=
  foldl (fun s e => dns_step to_string e.1 e.2 s) s l.

(** What the daemon starts with: [imp::DnsMonitor::new] has no holder. *)
Definition DnsMonitor_new (t backup : option Text) (w : W) : Sys :=
  {| inner := None; resolv_conf := t; backup_file := backup; live := None; dropped := []; faults := []; services := w |}.
End dns.
