(* ===== verification/DnsProps.v ===== *)
(** * The theorems about the DNS monitor of Linux

    Programs are reasoned about with [ends]: what holds of the state and the outcome at the end of a program. *)

From stdpp Require Import base list strings option numbers.
From S2P Require Import Prelude NetTypes TunnelTypes DnsLinux.

Section props.
Context {Text Config W DeviceConfig : Type} `{RC : ResolvConf Text Config} {RL : ResolvConfLaws Text Config}.
Context {DS : DnsServices W DeviceConfig}.
Notation Sys := (@Sys Text Config W DeviceConfig).
Notation Holder := (@DnsMonitorHolder DeviceConfig).

(** ** A logic for programs *)
Notation D := (@D Text Config W DeviceConfig).

Definition ends {E A} (m : D E A) (s : Sys) (Q : Sys -> Outcome E A -> Prop) : Prop := Q (m s).1 (m s).2.

Lemma ends_mono {E A} (m : D E A) s (P Q : Sys -> Outcome E A -> Prop) :
  ends m s P -> (forall s' o, P s' o -> Q s' o) -> ends m s Q.
Proof. unfold ends. auto. Qed.

Lemma ends_ret {E A} (a : A) s (Q : Sys -> Outcome E A -> Prop) : Q s (Ret a) -> ends (mret a : D E A) s Q.
Proof. done. Qed.

Lemma ends_bind {E A B} (m : D E A) (f : A -> D E B) s (Q : Sys -> Outcome E B -> Prop) :
  ends m s (fun s' o => match o with Ret a => ends (f a) s' Q | Throw e => Q s' (Throw e) | Crashed => Q s' Crashed end) ->
  ends (m ≫= f) s Q.
Proof. unfold ends, mbind, D_bind. by destruct (m s) as [s' [a|e|]]. Qed.

Lemma ends_modify {E} (f : Sys -> Sys) s (Q : Sys -> Outcome E unit -> Prop) : Q (f s) (Ret tt) -> ends (modify f : D E unit) s Q.
Proof. done. Qed.

Lemma ends_gets {E A} (f : Sys -> A) s (Q : Sys -> Outcome E A -> Prop) : Q s (Ret (f s)) -> ends (gets f : D E A) s Q.
Proof. done. Qed.

Lemma ends_throw {E A} (e : E) s (Q : Sys -> Outcome E A -> Prop) : Q s (Throw e) -> ends (throw e : D E A) s Q.
Proof. done. Qed.

Lemma ends_check {E} (b : bool) (e : E) s (Q : Sys -> Outcome E unit -> Prop) :
  (if b then Q s (Ret tt) else Q s (Throw e)) -> ends (check b e : D E unit) s Q.
Proof. by destruct b. Qed.

Lemma ends_lift {E E' A} (f : E -> E') (m : D E A) s (Q : Sys -> Outcome E' A -> Prop) :
  ends m s (fun s' o => Q s' match o with Ret a => Ret a | Throw e => Throw (f e) | Crashed => Crashed end) ->
  ends (lift f m) s Q.
Proof. unfold ends, lift. by destruct (m s) as [s' [a|e|]]. Qed.

Lemma ends_try {E E' A} (m : D E A) s (Q : Sys -> Outcome E' (result A E) -> Prop) :
  ends m s (fun s' o => Q s' match o with Ret a => Ret (Ok a) | Throw e => Ret (Err e) | Crashed => Crashed end) ->
  ends (try m) s Q.
Proof. unfold ends, try. by destruct (m s) as [s' [a|e|]]. Qed.

Lemma ends_service {E A} (f : W -> W * A) s (Q : Sys -> Outcome E A -> Prop) :
  Q (set_services (f (services s)).1 s) (Ret (f (services s)).2) -> ends (service f : D E A) s Q.
Proof. unfold ends, service. by destruct (f (services s)). Qed.

Lemma ends_or_else {E A} (m m' : D E A) s (Q : Sys -> Outcome E A -> Prop) :
  ends m s (fun s' o => match o with Throw _ => ends m' s' Q | _ => Q s' o end) -> ends (or_else m m') s Q.
Proof.
  intros Hm. apply ends_bind, ends_try. eapply ends_mono; [exact Hm|]. by intros s' [a|e|].
Qed.

Lemma ends_dropping {E A} h (m : D E A) s (Q : Sys -> Outcome E A -> Prop) :
  ends m s (fun s' o => match o with Crashed => Q s' Crashed | _ => Q (drop_holder h s') o end) -> ends (dropping h m) s Q.
Proof. unfold ends, dropping. by destruct (m s) as [s' [a|e|]]. Qed.

(** ** Faults

    Writes are atomic here: one that fails, or that the daemon ends in, leaves the file as it was. *)
Definition atomic (f : option (@Fault Text)) : Prop :=
  match f with None | Some Fails | Some EndsBefore => True | _ => False end.
Definition atomic_writes (s : Sys) : Prop := Forall atomic (faults s).

Lemma ends_attempt {E} (ok : Sys -> Sys) left s (Q : Sys -> Outcome E bool -> Prop) :
  atomic_writes s ->
  (forall l, Forall atomic l -> let s' := set_faults l s in
     Q (ok s') (Ret true) /\ Q s' (Ret false) /\ Q s' Crashed) ->
  ends (attempt ok left : D E bool) s Q.
Proof.
  unfold atomic_writes, ends, attempt. intros Ha HQ. destruct (faults s) as [|f l] eqn:Ef.
  - assert (Hs : set_faults [] s = s) by (destruct s; simpl in *; by subst).
    assert (Hn : Forall atomic (@nil (option (@Fault Text)))) by constructor.
    pose proof (proj1 (HQ _ Hn)) as Ht. by rewrite Hs in Ht.
  - apply Forall_cons_1 in Ha as [Hf Hl]. destruct (HQ l Hl) as (H1 & H2 & H3). by destruct f as [[]|].
Qed.

(** ** What leaves the files alone *)
Definition only_services (s s' : Sys) : Prop := s' = set_services (services s') s.
Definition quiet {E A} (m : D E A) : Prop := forall s, ends m s (fun s' o => only_services s s' /\ o <> Crashed).

Lemma only_services_refl s : only_services s s.
Proof. by destruct s. Qed.

Lemma only_services_trans s1 s2 s3 : only_services s1 s2 -> only_services s2 s3 -> only_services s1 s3.
Proof. unfold only_services. by intros -> ->. Qed.

Lemma quiet_bind {E A B} (m : D E A) (f : A -> D E B) : quiet m -> (forall a, quiet (f a)) -> quiet (m ≫= f).
Proof.
  intros Hm Hf s. apply ends_bind. eapply ends_mono; [apply Hm|]. intros s' [a|e|] [Hs Ho]; [|done..].
  eapply ends_mono; [apply Hf|]. intros s'' o [Hs' Ho']. split; [|done]. by eapply only_services_trans.
Qed.

Lemma quiet_return {E A} (a : A) : quiet (mret a : D E A).
Proof. intros s. split; [apply only_services_refl | done]. Qed.
Lemma quiet_gets {E A} (f : Sys -> A) : quiet (gets f : D E A).
Proof. intros s. split; [apply only_services_refl | done]. Qed.
Lemma quiet_throw {E A} (e : E) : quiet (throw e : D E A).
Proof. intros s. split; [apply only_services_refl | done]. Qed.
Lemma quiet_check {E} (b : bool) (e : E) : quiet (check b e : D E unit).
Proof. destruct b; [apply quiet_return | apply quiet_throw]. Qed.
Lemma quiet_service {E A} (f : W -> W * A) : quiet (service f : D E A).
Proof. intros s. unfold ends, service. by destruct (f (services s)). Qed.
Lemma quiet_lift {E E' A} (f : E -> E') (m : D E A) : quiet m -> quiet (lift f m).
Proof. intros Hm s. apply ends_lift. eapply ends_mono; [apply Hm|]. by intros s' [] [? ?]. Qed.
Lemma quiet_try {E E' A} (m : D E A) : quiet m -> quiet (try m : D E' _).
Proof. intros Hm s. apply ends_try. eapply ends_mono; [apply Hm|]. by intros s' [] [? ?]. Qed.

Create HintDb dns.
#[local] Hint Resolve quiet_bind quiet_return quiet_gets quiet_throw quiet_check quiet_service quiet_lift quiet_try : dns.

(** Splits a program into its parts. *)
Local Ltac quiet_tac :=
  repeat (intros || apply quiet_bind || (eauto with dns; done) || case_match).

Lemma quiet_Resolvconf_new : quiet (Resolvconf_new : D ResolvconfError _).
Proof. unfold Resolvconf_new. quiet_tac. Qed.
Lemma quiet_NetworkManager_new : quiet (NetworkManager_new : D NmError _).
Proof. unfold NetworkManager_new. quiet_tac. Qed.
Lemma quiet_SystemdResolved_new : quiet (SystemdResolved_new : D SystemdError _).
Proof. unfold SystemdResolved_new. quiet_tac. Qed.
Lemma quiet_resolvconf_set ts names path iface servers : quiet (resolvconf_set_dns ts names path iface servers : D ResolvconfError _).
Proof. unfold resolvconf_set_dns. quiet_tac. Qed.
Lemma quiet_resolvconf_reset names path r : quiet r -> quiet (resolvconf_reset names path r : D ResolvconfError unit).
Proof. revert r. induction names as [|n names IH]; intros r Hr; [done|]. simpl. quiet_tac; apply IH; auto with dns. Qed.
Lemma quiet_nm_set iface servers : quiet (nm_set iface servers : D NmError _).
Proof. unfold nm_set. quiet_tac. Qed.
Lemma quiet_nm_reset d b : quiet (nm_reset d b : D NmError unit).
Proof. unfold nm_reset. quiet_tac. Qed.
Lemma quiet_resolved_set iface servers : quiet (resolved_set iface servers : D SystemdError _).
Proof. unfold resolved_set. quiet_tac. Qed.
Lemma quiet_resolved_reset i : quiet (resolved_reset i : D SystemdError unit).
Proof. unfold resolved_reset. quiet_tac. Qed.

(** ** The user's configuration *)
Definition parsed (t : option Text) : option Config := t ≫= Config_parse.

Definition alone (user : Config) (s : Sys) : Prop := backup_file s = None /\ parsed (resolv_conf s) = Some user.
Definition saved (user : Config) (s : Sys) : Prop := parsed (backup_file s) = Some user.
(** It is in the file, or in the backup. *)
Definition kept (user : Config) (s : Sys) : Prop := is_Some (resolv_conf s) /\ (alone user s \/ saved user s).

(** Where a watcher has a state, the backup in it and in the file is that of the user, and the file is not anyone
    else's. *)
Definition overlaid (user : Config) (s : Sys) : Prop :=
  match live_state s with
  | Some st => rs_backup st = user /\ saved user s
               /\ (parsed (resolv_conf s) = Some user \/ parsed (resolv_conf s) = Some (desired_config st))
  | None => True
  end.

Definition holds_live (s : Sys) : Prop := inner s <> Some HolderStaticResolvConf -> live_state s = None.
Definition user_kept (user : Config) (s : Sys) : Prop := kept user s /\ overlaid user s /\ holds_live s.

Lemma live_state_wrote t (s : Sys) : live_state (wrote t s) = live_state s.
Proof. unfold live_state. simpl. by destruct (live s). Qed.

Lemma live_state_set x (s : Sys) : live_state (set_live_state x s) = (w ← live s; x).
Proof. unfold live_state. simpl. by destruct (live s). Qed.

Lemma live_state_faults l (s : Sys) : live_state (set_faults l s) = live_state s.
Proof. done. Qed.
Lemma live_state_backup t (s : Sys) : live_state (set_backup_file t s) = live_state s.
Proof. done. Qed.
Lemma live_state_inner h (s : Sys) : live_state (set_inner h s) = live_state s.
Proof. done. Qed.
Lemma live_state_services w (s : Sys) : live_state (set_services w s) = live_state s.
Proof. done. Qed.
Hint Rewrite live_state_wrote live_state_set live_state_faults live_state_backup live_state_inner live_state_services : dns.

Lemma atomic_set l (s : Sys) : Forall atomic l -> atomic_writes (set_faults l s).
Proof. done. Qed.

Local Ltac step :=
  match goal with
  | |- ends (mbind _ _) _ _ => apply ends_bind
  | |- ends (mret _) _ _ => apply ends_ret
  | |- ends (modify _) _ _ => apply ends_modify
  | |- ends (gets _) _ _ => apply ends_gets
  | |- ends (throw _) _ _ => apply ends_throw
  | |- ends (service _) _ _ => apply ends_service
  | |- ends (check _ _) _ _ => apply ends_check
  | |- ends (lift _ _) _ _ => apply ends_lift
  | |- ends (try _) _ _ => apply ends_try
  | |- ends (attempt _ _) _ _ => apply ends_attempt; [by eauto using atomic_set|intros ? ?; cbv zeta; refine (conj _ (conj _ _))]
  end; cbv beta iota.
Local Ltac steps := repeat step.

(** Nothing is known of the faults once the daemon has ended. *)
Definition going {E A} (o : Outcome E A) (s : Sys) : Prop := o = Crashed \/ atomic_writes s.

Local Ltac at_end := first [by right | by left | by autorewrite with dns | done | idtac].

Lemma restore_spec user s :
  atomic_writes s -> kept user s -> live_state s = None ->
  ends (restore_from_backup : D StaticError unit) s (fun s' o =>
    going o s' /\ kept user s' /\ live_state s' = None /\ inner s' = inner s /\ (o = Ret tt -> alone user s')).
Proof.
  intros Ha [[t Ht] Hk] Hl. unfold restore_from_backup, write_config.
  assert (Hkept : kept user s) by (split; [by exists t | done]).
  steps; [|by split_and!; [right|..]|by split_and!; [left|..]].
  change (backup_file (id (set_faults l s))) with (backup_file s).
  destruct (backup_file s) as [b|] eqn:Eb.
  - assert (Hp : Config_parse b = Some user).
    { destruct Hk as [[Hn _]|Hs]; [congruence|]. unfold saved in Hs. by rewrite Eb in Hs. }
    rewrite Hp. assert (Hsaved : forall s', resolv_conf s' <> None -> backup_file s' = Some b -> kept user s').
    { intros s' Hr Hb. split; [by apply not_eq_None_Some|]. right. unfold saved, parsed. by rewrite Hb. }
    steps; split_and!; at_end.
    all: try (apply Hsaved; simpl; congruence).
    + split; [done|]. left. split; [done|]. simpl. apply parse_to_string.
    + intros _. split; [done|]. simpl. apply parse_to_string.
  - destruct Hk as [Hk|Hs]; [|unfold saved in Hs; by rewrite Eb in Hs]. steps.
    split_and!; at_end.
Qed.

(** Ways to show the parts of the invariant. *)
Lemma kept_alone user t (s : Sys) :
  resolv_conf s = Some t -> Config_parse t = Some user -> backup_file s = None -> kept user s.
Proof. intros Hr Hp Hb. split; [by exists t|]. left. split; [done|]. by rewrite Hr. Qed.

Lemma kept_saved user (s : Sys) : is_Some (resolv_conf s) -> backup_file s = Some (Config_to_string user) -> kept user s.
Proof. intros Hr Hb. split; [done|]. right. unfold saved. rewrite Hb. apply parse_to_string. Qed.

Lemma overlaid_none user (s : Sys) : live_state s = None -> overlaid user s.
Proof. unfold overlaid. by intros ->. Qed.

Lemma overlaid_some user st (s : Sys) :
  live_state s = Some st -> rs_backup st = user -> saved user s ->
  (parsed (resolv_conf s) = Some user \/ parsed (resolv_conf s) = Some (desired_config st)) -> overlaid user s.
Proof. unfold overlaid. by intros -> ? ? ?. Qed.

(** What [set_dns] leaves: the file is still the user's, or the state and the backup are. *)
Lemma static_set_spec user servers s :
  atomic_writes s -> alone user s -> live_state s = None -> is_Some (live s) ->
  ends (static_set_dns servers : D StaticError unit) s (fun s' o =>
    going o s' /\ kept user s' /\ overlaid user s' /\ inner s' = inner s).
Proof.
  intros Ha [Hb Hr] Hl [w Hw]. unfold static_set_dns, read_config, write_backup, write_config.
  destruct (resolv_conf s) as [t|] eqn:Et; [|done]. simpl in Hr.
  assert (Hn : forall s' : Sys, live s' = Some (with_state None w) -> live_state s' = None) by (unfold live_state; by intros s' ->).
  assert (Hset : live (set_live_state None s) = Some (with_state None w)) by (simpl; by rewrite Hw).
  steps. rewrite Hl. steps. change (resolv_conf (set_live_state None s)) with (resolv_conf s). rewrite Et.
  steps; try (rewrite Hr; steps).
  all: split_and!; try (first [by right | by left | done]).
  all: try (apply overlaid_none, Hn; exact Hset).
  all: try (eapply kept_alone; [exact Et | exact Hr | exact Hb]).
  all: try (apply kept_saved; [first [by exists t | by eexists] | done]).
  all: eapply overlaid_some; [unfold live_state; simpl; by rewrite Hw | done | apply parse_to_string|].
  - right. apply parse_to_string.
  - left. simpl. by rewrite Et.
  - left. simpl. by rewrite Et.
Qed.

Lemma static_reset_spec user s :
  atomic_writes s -> kept user s -> overlaid user s ->
  ends (static_reset : D StaticError unit) s (fun s' o =>
    going o s' /\ kept user s' /\ live_state s' = None /\ inner s' = inner s).
Proof.
  intros Ha Hk Ho. unfold static_reset, write_config. steps.
  assert (Hn : live_state (set_live_state None s) = None) by (rewrite live_state_set; by destruct (live s)).
  unfold overlaid in Ho. destruct (live_state s) as [st|].
  - destruct Ho as (<- & Hs & _). assert (Hs' : forall s' : Sys, is_Some (resolv_conf s') -> backup_file s' = backup_file s -> kept (rs_backup st) s').
    { intros s' Hr Hb. split; [done|]. right. unfold saved. by rewrite Hb. }
    destruct Hk as [[t Ht] _]. steps; split_and!; try (first [by right | by left | done]).
    all: try (apply Hs'; [first [by eexists | by exists t] | done]).
    all: try (autorewrite with dns; by destruct (live s)).
    split; [by eexists|]. left. split; [done|]. apply parse_to_string.
  - steps. split_and!; [by right | exact Hk | done | done].
Qed.

Lemma user_kept_ext user (s s' : Sys) :
  resolv_conf s' = resolv_conf s -> backup_file s' = backup_file s -> live_state s' = live_state s -> inner s' = inner s ->
  user_kept user s -> user_kept user s'.
Proof. unfold user_kept, kept, overlaid, alone, saved, holds_live. by intros -> -> -> ->. Qed.

(** Neither branch of [update] takes anything but the user's configuration for the backup. *)
Lemma update_spec user st s :
  atomic_writes s -> kept user s -> overlaid user s -> live_state s = Some st ->
  ends (update (fun x => set_live_state (Some x)) (Some st) : D StaticError unit) s (fun s' o =>
    going o s' /\ kept user s' /\ overlaid user s' /\ inner s' = inner s).
Proof.
  intros Ha Hk Ho Hl. unfold update, read_config, write_config, write_backup.
  assert (Ho' := Ho). unfold overlaid in Ho'. rewrite Hl in Ho'. destruct Ho' as (Hst & Hs & Hr).
  destruct (live s) as [w|] eqn:Ew; [|unfold live_state in Hl; by rewrite Ew in Hl].
  assert (Hext : forall l, kept user (set_faults l s) /\ overlaid user (set_faults l s)) by (split; [exact Hk | exact Ho]).
  destruct (resolv_conf s) as [t|] eqn:Et; [|by destruct Hk as [[? ?] _]; congruence]. simpl in Hr.
  assert (Hnew : forall s' : Sys, is_Some (resolv_conf s') -> saved user s' -> kept user s') by (intros; split; [done | by right]).
  steps. rewrite Et. steps; [|split_and!; first [by right | by left | apply Hext | done]..].
  destruct st as [b d]. simpl in Hst. subst b. cbn [rs_backup desired_dns] in *.
  assert (Hc : exists c, Config_parse t = Some c /\ set_nameservers (nameservers user) c = user
    /\ (nameservers c <> desired_nameservers {| rs_backup := user; desired_dns := d |} -> c = user)).
  { destruct Hr as [Hr|Hr]; rewrite Hr; eexists; (split; [done|]); [by rewrite set_nameservers_same|].
    unfold desired_config. rewrite set_nameservers_twice, set_nameservers_same, nameservers_set. done. }
  destruct Hc as (c & -> & Hback & Huser). steps. case_bool_decide as Hd; [rewrite (Huser Hd)|rewrite Hback]; steps.
  all: split_and!; try (first [by right | by left | done]).
  all: try (apply Hnew; [first [by exists t | by eexists] | first [exact Hs | apply parse_to_string]]).
  all: eapply overlaid_some; [unfold live_state; simpl; by rewrite Ew | done | first [exact Hs | apply parse_to_string] |].
  all: first [right; apply parse_to_string | simpl; rewrite Et; exact Hr].
Qed.

Lemma live_event_spec user s :
  atomic_writes s -> user_kept user s -> ends (live_event : D StaticError unit) s (fun s' o => going o s' /\ user_kept user s').
Proof.
  intros Ha (Hk & Ho & Hh). unfold live_event. steps.
  destruct (live s) as [w|] eqn:Ew; [|steps; split; [by right|done]].
  destruct (w_pending w) as [|n]; [steps; split; [by right|done]|]. steps.
  set (s1 := set_watchers _ _ s).
  assert (H1 : user_kept user s1) by (eapply user_kept_ext; [..|split_and!; eassumption]; unfold live_state; simpl; by rewrite ?Ew).
  assert (L1 : live_state s1 = w_state w) by (unfold live_state; simpl; by rewrite Ew). destruct H1 as (Hk1 & Ho1 & Hh1).
  destruct (w_state w) as [st|] eqn:Ew'; [|steps; steps; by split; [right|]].
  eapply ends_mono; [by apply update_spec|]. intros s' o (Hg & Hk' & Ho' & Hi').
  assert (Hu : user_kept user s').
  { split_and!; [done..|]. intros Hn. rewrite Hi' in Hn. specialize (Hh1 Hn). congruence. }
  destruct o as [[]|e|]; [..|by split; [left|]]; (destruct Hg as [|Hg]; [done|]); steps; (split; [by right|done]).
Qed.

(** ** The monitor *)
Lemma only_services_kept user (s s' : Sys) : only_services s s' -> user_kept user s -> user_kept user s' /\ faults s' = faults s.
Proof. unfold only_services. intros -> Hu. split; [|done]. revert Hu. by apply user_kept_ext. Qed.

Lemma static_or_not (h : Holder) : h = HolderStaticResolvConf \/ h <> HolderStaticResolvConf.
Proof. destruct h; auto. Qed.

Lemma quiet_holder_reset h : h <> HolderStaticResolvConf -> quiet (holder_reset h).
Proof.
  destruct h; intros Hh; simpl; [..|done]; apply quiet_lift;
    auto using quiet_resolved_reset, quiet_nm_reset, quiet_resolvconf_reset, quiet_return.
Qed.

Lemma quiet_holder_set ts h iface servers : h <> HolderStaticResolvConf -> quiet (holder_set ts h iface servers).
Proof.
  destruct h; intros Hh; simpl; [..|done];
    auto using quiet_bind, quiet_lift, quiet_resolved_set, quiet_nm_set, quiet_resolvconf_set, quiet_return.
Qed.

(** What a manager finds once every holder is gone. *)
Definition unmanaged (user : Config) (s : Sys) : Prop := kept user s /\ live_state s = None.

Lemma unmanaged_kept user s : unmanaged user s -> user_kept user s.
Proof. intros [Hk Hl]. split; [done|]. split; [by apply overlaid_none | by intros _]. Qed.

Lemma drop_unmanaged user h s : user_kept user s -> (h <> HolderStaticResolvConf -> live_state s = None) -> unmanaged user (drop_holder h s).
Proof. intros (Hk & _) Hl. destruct h; (split; [exact Hk|]); simpl; auto. Qed.

Lemma DnsMonitor_reset_spec user s :
  atomic_writes s -> user_kept user s ->
  ends DnsMonitor_reset s (fun s' o => going o s' /\ kept user s' /\ (o <> Crashed -> unmanaged user s' /\ inner s' = None)).
Proof.
  intros Ha (Hk & Ho & Hh). unfold DnsMonitor_reset. steps. destruct (inner s) as [h|] eqn:Eh.
  2: { steps. split_and!; [by right | exact Hk|]. intros _. split; [|done]. split; [exact Hk|]. by apply Hh; rewrite Eh. }
  apply ends_dropping. set (s1 := set_inner None s).
  destruct (static_or_not h) as [->|Hn].
  - simpl. steps. eapply ends_mono; [by apply (static_reset_spec user)|].
    intros s' o (Hg & Hk' & Hl' & Hi'). destruct o as [[]|e|]; cbv beta iota; (split_and!; [|exact Hk'|]); try done.
    all: try (first [by left | destruct Hg as [|Hg]; [done|]; by right]).
    all: intros _; (split; [|exact Hi']); (split; [exact Hk'|done]).
  - eapply ends_mono; [by apply quiet_holder_reset|]. intros s' o [-> Hc].
    assert (Hl : live_state s = None) by (apply Hh; rewrite Eh; congruence).
    destruct o as [a|e|]; [| |done]; destruct h; try done; (split_and!; [by right | exact Hk|]); intros _; (split; [|done]); by split.
Qed.

(** The end of a program that makes a holder. *)
Definition made {E} (user : Config) (h : option Holder) (s' : Sys) (o : Outcome E Holder) : Prop :=
  going o s' /\ unmanaged user s' /\ inner s' = h
  /\ (o = Ret HolderStaticResolvConf -> alone user s' /\ is_Some (live s')).

Definition never_static {E} (m : D E Holder) : Prop := forall s, ends m s (fun _ o => o <> Ret HolderStaticResolvConf).

Lemma made_quiet {E} user s (m : D E Holder) :
  quiet m -> never_static m -> atomic_writes s -> unmanaged user s -> ends m s (made user (inner s)).
Proof.
  intros Hq Hn Ha [Hk Hl]. unfold ends. destruct (Hq s) as [Hs _]. specialize (Hn s). unfold ends in Hn.
  rewrite Hs. split_and!; [right; exact Ha | split; [exact Hk | exact Hl] | done | done].
Qed.

Lemma made_lift {E E'} user h s (f : E -> E') (m : D E Holder) : ends m s (made user h) -> ends (lift f m) s (made user h).
Proof.
  intros Hm. apply ends_lift. eapply ends_mono; [exact Hm|]. intros s' o (Hg & Hu & Hi & Hs).
  split_and!; [|done..|].
  - destruct Hg as [->|]; [by left | by right].
  - destruct o; [|done..]. intros [= ->]. by apply Hs.
Qed.

Lemma made_or_else {E} user s (m m' : D E Holder) :
  ends m s (made user (inner s)) ->
  (forall s', atomic_writes s' -> unmanaged user s' -> ends m' s' (made user (inner s'))) ->
  ends (or_else m m') s (made user (inner s)).
Proof.
  intros Hm Hm'. apply ends_or_else. eapply ends_mono; [exact Hm|]. intros s' [a|e|] (Hg & Hu & Hi & Hs); [done| |done].
  destruct Hg as [|Hg]; [done|]. rewrite <- Hi. by apply Hm'.
Qed.

Lemma never_Resolvconf : never_static (Resolvconf_new : D ResolvconfError _).
Proof. intros s. unfold Resolvconf_new. steps. case_match; steps; [repeat (case_match; steps)|]; done. Qed.
Lemma never_NetworkManager : never_static (NetworkManager_new : D NmError _).
Proof. intros s. unfold NetworkManager_new. steps. repeat (case_match; steps); done. Qed.
Lemma never_Systemd : never_static (SystemdResolved_new : D SystemdError _).
Proof. intros s. unfold SystemdResolved_new. steps. case_match; steps; done. Qed.

Lemma new_static_spec user s :
  atomic_writes s -> unmanaged user s -> ends (new_static : D DnsError _) s (made user (inner s)).
Proof.
  intros Ha [Hk Hl]. unfold new_static, StaticResolvConf_new, DnsWatcher_start. steps.
  eapply ends_mono; [by apply (restore_spec user)|]. intros s' o (Hg & Hk' & Hl' & Hi' & Hal).
  assert (Hu : unmanaged user s') by done.
  unfold made. destruct o as [[]|e|]; [|by split_and!; first [by left | destruct Hg as [|Hg]; [done|]; by right | done]..].
  destruct Hg as [|Hg]; [done|]. specialize (Hal eq_refl).
  destruct (resolv_conf s') as [t|] eqn:Et; [|by destruct Hk' as [[? ?] _]; congruence].
  steps; [match goal with |- context [resolv_conf (id (set_faults ?l s'))] => change (resolv_conf (id (set_faults l s'))) with (resolv_conf s') end;
    rewrite Et; steps| |].
  all: split_and!; try (first [by right | by left | done]).
  all: split; [exact Hk' | first [done | exact Hl']].
Qed.

Lemma DnsMonitorHolder_new_spec user s :
  atomic_writes s -> unmanaged user s -> ends DnsMonitorHolder_new s (made user (inner s)).
Proof.
  intros Ha Hu.
  assert (Hsys : forall s', atomic_writes s' -> unmanaged user s' -> ends (lift SystemdResolvedDns SystemdResolved_new) s' (made user (inner s'))).
  { intros. apply made_lift, made_quiet; auto using quiet_SystemdResolved_new, never_Systemd. }
  assert (Hnm : forall s', atomic_writes s' -> unmanaged user s' -> ends (lift NetworkManagerDns NetworkManager_new) s' (made user (inner s'))).
  { intros. apply made_lift, made_quiet; auto using quiet_NetworkManager_new, never_NetworkManager. }
  assert (Hrc : forall s', atomic_writes s' -> unmanaged user s' -> ends (lift ResolvconfDns Resolvconf_new) s' (made user (inner s'))).
  { intros. apply made_lift, made_quiet; auto using quiet_Resolvconf_new, never_Resolvconf. }
  assert (Hdet : ends with_detected_dns_manager s (made user (inner s))).
  { unfold with_detected_dns_manager. steps.
    eapply ends_mono; [apply made_or_else; [by apply Hsys|]; intros; apply made_or_else; [by apply Hnm|]; intros;
      apply made_or_else; [by apply Hrc|]; intros; by apply new_static_spec|].
    intros s' [a|e|] (Hg & Hu' & Hi & Hs); steps; (split_and!; [|done..|]); try done; try (first [by left | destruct Hg as [|Hg]; [done|]; by right]). }
  unfold DnsMonitorHolder_new. repeat case_match; auto using new_static_spec.
Qed.

Local Ltac go_on Hg := first [by left | destruct Hg as [|Hg]; [done|]; by right].

Lemma DnsMonitor_set_spec user ts iface config s :
  atomic_writes s -> user_kept user s ->
  ends (DnsMonitor_set ts iface config) s (fun s' o => going o s' /\ (o = Crashed -> kept user s') /\ (o <> Crashed -> user_kept user s')).
Proof.
  intros Ha Hu. unfold DnsMonitor_set. steps.
  eapply ends_mono; [by apply (DnsMonitor_reset_spec user)|]. intros s1 o1 (Hg1 & Hk1 & Hu1).
  destruct o1 as [[]|e|]; [|split_and!; [go_on Hg1|done|intros _; by apply unmanaged_kept, Hu1]|split_and!; [by left|by intros _|done]].
  destruct Hg1 as [|Hg1]; [done|]. destruct (Hu1 ltac:(done)) as [Hun1 Hi1]. clear Hk1 Hu1.
  steps. eapply ends_mono; [by apply (DnsMonitorHolder_new_spec user)|]. intros s2 o2 (Hg2 & Hu2 & Hi2 & Hs2).
  destruct o2 as [h|e|]; [|split_and!; [go_on Hg2|done|intros _; by apply unmanaged_kept]|split_and!; [by left|intros _; apply Hu2|done]].
  destruct Hg2 as [|Hg2]; [done|]. steps.
  assert (Hdrop : forall h s', atomic_writes s' -> user_kept user s' -> (h <> HolderStaticResolvConf -> live_state s' = None) ->
    atomic_writes (drop_holder h s') /\ user_kept user (drop_holder h s')).
  { intros h' s' Ha' Hk' Hl'. split; [by destruct h'|]. by apply unmanaged_kept, drop_unmanaged. }
  case_bool_decide as Hservers.
  { destruct (Hdrop h s2 Hg2 (unmanaged_kept _ _ Hu2)) as [Hg3 Hu3]; [intros _; apply Hu2|]. steps. split_and!; [by right|done|by intros _]. }
  steps. destruct (static_or_not h) as [->|Hn].
  - destruct (Hs2 eq_refl) as [Hal Hlive]. simpl. steps.
    eapply ends_mono; [apply (static_set_spec user); [done|done|apply Hu2|done]|]. intros s3 o3 (Hg3 & Hk3 & Ho3 & Hi3).
    destruct o3 as [[]|e|]; [| |split_and!; [by left|by intros _|done]]; (destruct Hg3 as [|Hg3]; [done|]); steps.
    + split_and!; [by right|done|]. intros _. split; [exact Hk3|]. split; [exact Ho3|]. intros Hn. by destruct Hn.
    + split_and!; [by right|done|]. intros _. by apply unmanaged_kept.
  - eapply ends_mono; [by apply quiet_holder_set|]. intros s3 o3 [-> Hc].
    destruct Hu2 as [Hk2 Hl2]. destruct o3 as [h'|e|]; [| |done]; steps; (split_and!; [right|done|intros _]).
    + exact Hg2.
    + apply unmanaged_kept. by split.
    + by destruct h.
    + apply unmanaged_kept. by destruct h.
Qed.

(** ** Watchers that were dropped *)
Lemma Forall_notify (l : list (@Watcher Config)) : Forall (fun w => w_state w = None) l -> Forall (fun w => w_state w = None) (map notify l).
Proof. intros Hl. apply Forall_map. eapply Forall_impl; [|exact Hl]. done. Qed.

(** A watcher that was dropped has no state, unless the last write of setting name servers failed: then it goes on
    enforcing them as long as it has not noticed that it was dropped. *)
Section dropped.
Context (P : option (@Fault Text) -> Prop).
Definition clean (s : Sys) : Prop := Forall (fun w => w_state w = None) (dropped s) /\ Forall P (faults s).
Definition neat {E A} (m : D E A) : Prop := forall s, clean s -> ends m s (fun s' _ => clean s').

Lemma neat_bind {E A B} (m : D E A) (f : A -> D E B) : neat m -> (forall a, neat (f a)) -> neat (m ≫= f).
Proof.
  intros Hm Hf s Hs. apply ends_bind. eapply ends_mono; [by apply Hm|]. intros s' [a|e|] Hs'; [by apply Hf|done..].
Qed.
Lemma neat_return {E A} (a : A) : neat (mret a : D E A).
Proof. by intros s. Qed.
Lemma neat_gets {E A} (f : Sys -> A) : neat (gets f : D E A).
Proof. by intros s. Qed.
Lemma neat_throw {E A} (e : E) : neat (throw e : D E A).
Proof. by intros s. Qed.
Lemma neat_check {E} (b : bool) (e : E) : neat (check b e : D E unit).
Proof. destruct b; [apply neat_return | apply neat_throw]. Qed.
Lemma neat_modify {E} (f : Sys -> Sys) : (forall s, clean s -> clean (f s)) -> neat (modify f : D E unit).
Proof. intros Hf s Hs. by apply Hf. Qed.
Lemma neat_quiet {E A} (m : D E A) : quiet m -> neat m.
Proof. intros Hq s Hs. eapply ends_mono; [apply Hq|]. intros s' o [-> _]. exact Hs. Qed.
Lemma neat_lift {E E' A} (f : E -> E') (m : D E A) : neat m -> neat (lift f m).
Proof. intros Hm s Hs. apply ends_lift. eapply ends_mono; [by apply Hm|]. by intros s' []. Qed.
Lemma neat_try {E E' A} (m : D E A) : neat m -> neat (try m : D E' _).
Proof. intros Hm s Hs. apply ends_try. eapply ends_mono; [by apply Hm|]. by intros s' []. Qed.
Lemma neat_or_else {E A} (m m' : D E A) : neat m -> neat m' -> neat (or_else m m').
Proof. intros Hm Hm'. apply neat_bind; [by apply neat_try|]. intros []; [apply neat_return | done]. Qed.
Lemma neat_attempt {E} (ok : Sys -> Sys) left :
  (forall s, clean s -> clean (ok s)) -> (forall t s, clean s -> clean (left t s)) -> neat (attempt ok left : D E bool).
Proof.
  intros Hok Hleft s [Hd Hf]. unfold ends, attempt. destruct (faults s) as [|f l] eqn:Ef.
  - apply Hok. split; [done|]. by rewrite Ef.
  - apply Forall_cons_1 in Hf as [_ Hl]. assert (Hs : clean (set_faults l s)) by done. destruct f as [[]|]; simpl; auto.
Qed.

Lemma clean_wrote t s : clean s -> clean (wrote t s).
Proof. intros [Hd Hf]. split; [|done]. by apply Forall_notify. Qed.

Local Ltac neat_tac :=
  repeat (intros || apply neat_bind || apply neat_return || apply neat_gets || apply neat_throw || apply neat_check
          || (apply neat_try; []) || (apply neat_attempt; [by auto using clean_wrote..])
          || (apply neat_modify; [intros ? [? ?]; by split]) || case_match).

Lemma neat_restore : neat (restore_from_backup : D StaticError unit).
Proof. unfold restore_from_backup, write_config. neat_tac. Qed.
Lemma neat_new_static : neat (new_static : D DnsError _).
Proof.
  unfold new_static, StaticResolvConf_new, DnsWatcher_start. apply neat_bind; [|neat_tac]. apply neat_lift.
  apply neat_bind; [apply neat_restore|]. neat_tac.
Qed.
Lemma neat_new : neat DnsMonitorHolder_new.
Proof.
  pose proof (neat_quiet _ quiet_SystemdResolved_new). pose proof (neat_quiet _ quiet_NetworkManager_new).
  pose proof (neat_quiet _ quiet_Resolvconf_new). pose proof neat_new_static.
  assert (Hd : neat with_detected_dns_manager).
  { apply neat_bind; [|neat_tac]. apply neat_try. auto using neat_or_else, neat_lift. }
  unfold DnsMonitorHolder_new. repeat case_match; auto using neat_lift.
Qed.
Lemma neat_static_set servers : neat (static_set_dns servers : D StaticError unit).
Proof. unfold static_set_dns, read_config, write_backup, write_config. neat_tac. Qed.
Lemma neat_static_reset : neat (static_reset : D StaticError unit).
Proof. unfold static_reset, write_config. neat_tac. Qed.
Lemma neat_live_event : neat (live_event : D StaticError unit).
Proof. unfold live_event, DnsLinux.update, read_config, write_backup, write_config. neat_tac. Qed.
Lemma neat_holder_reset h : neat (holder_reset h).
Proof.
  destruct (static_or_not h) as [->|Hn]; [apply neat_lift, neat_static_reset | by apply neat_quiet, quiet_holder_reset].
Qed.

Lemma clean_drop h s : clean s -> (h = HolderStaticResolvConf -> live_state s = None) -> clean (drop_holder h s).
Proof.
  intros [Hd Hf] Hl. destruct h; try done. split; [|done]. simpl. specialize (Hl eq_refl). unfold live_state in Hl.
  destruct (live s) as [w|]; simpl in *; [by constructor | done].
Qed.
End dropped.

Lemma ends_and {E A} (m : D E A) s Q R : ends m s Q -> ends m s R -> ends m s (fun s' o => Q s' o /\ R s' o).
Proof. by split. Qed.

Lemma reset_neat P user s :
  atomic_writes s -> user_kept user s -> clean P s -> ends DnsMonitor_reset s (fun s' o => o <> Crashed -> clean P s').
Proof.
  intros Ha (Hk & Ho & _) Hc. unfold DnsMonitor_reset. steps. destruct (inner s) as [h|] eqn:Eh; [|by steps; intros _].
  apply ends_dropping. set (s1 := set_inner None s). assert (Hc1 : clean P s1) by done.
  destruct (static_or_not h) as [->|Hn].
  - simpl. steps. eapply ends_mono; [apply ends_and; [by apply (static_reset_spec user)|by apply neat_static_reset]|].
    intros s' o [(_ & _ & Hl & _) Hs']. destruct o; try done; intros _; by apply (clean_drop P HolderStaticResolvConf).
  - eapply ends_mono; [by apply neat_holder_reset|]. intros s' o Hs'. destruct o; try done; intros _; by destruct h.
Qed.

(** No operation fails; the daemon may end in one. *)
Definition sure (f : option (@Fault Text)) : Prop := match f with None | Some EndsBefore => True | _ => False end.

Lemma ends_sure {E} (ok : Sys -> Sys) left s (Q : Sys -> Outcome E bool -> Prop) :
  Forall sure (faults s) ->
  (forall l, Forall sure l -> Q (ok (set_faults l s)) (Ret true) /\ Q (set_faults l s) Crashed) ->
  ends (attempt ok left : D E bool) s Q.
Proof.
  unfold ends, attempt. intros Ha HQ. destruct (faults s) as [|f l] eqn:Ef.
  - assert (Hs : set_faults [] s = s) by (destruct s; simpl in *; by subst).
    pose proof (proj1 (HQ [] ltac:(constructor))) as Ht. by rewrite Hs in Ht.
  - apply Forall_cons_1 in Ha as [Hf Hl]. destruct (HQ l Hl). by destruct f as [[]|].
Qed.

Local Ltac sure_step := first [apply ends_sure; [done|intros ? ?; split; [|done]] | step].

(** Setting name servers only fails before there is a state. *)
Lemma static_set_throws servers s :
  Forall sure (faults s) ->
  ends (static_set_dns servers : D StaticError unit) s (fun s' o => forall e, o = Throw e -> live_state s' = None).
Proof.
  intros Hf. unfold static_set_dns, read_config, write_backup, write_config. steps.
  assert (Hn : forall x (s' : Sys), live s' = (with_state None <$> live s) -> live_state (set_faults x s') = None)
    by (intros x s' E; unfold live_state; simpl; rewrite E; by destruct (live s)).
  destruct (live_state s).
  - repeat sure_step. done.
  - repeat sure_step. destruct (resolv_conf _) as [t|]; repeat sure_step; [|done].
    destruct (Config_parse t); repeat sure_step; [done|]. intros e _. by apply Hn.
Qed.

Lemma sure_atomic l : Forall sure l -> Forall atomic l.
Proof. intros Hl. eapply Forall_impl; [|exact Hl]. by intros [[]|]. Qed.

Lemma set_neat user ts iface config s :
  user_kept user s -> clean sure s -> ends (DnsMonitor_set ts iface config) s (fun s' o => o <> Crashed -> clean sure s').
Proof.
  intros Hu Hc. assert (Ha : atomic_writes s) by apply sure_atomic, Hc. unfold DnsMonitor_set. steps.
  eapply ends_mono; [apply ends_and; [by apply (DnsMonitor_reset_spec user)|by apply (reset_neat sure user)]|].
  intros s1 o1 [(_ & _ & Hu1) Hc1]. destruct o1 as [[]|e|]; [|done|done]. specialize (Hc1 ltac:(done)).
  destruct (Hu1 ltac:(done)) as [Hun1 _]. steps.
  eapply ends_mono; [apply ends_and; [apply (DnsMonitorHolder_new_spec user); [apply sure_atomic, Hc1|done]|by apply neat_new]|].
  intros s2 o2 [(_ & Hu2 & _ & _) Hc2]. destruct o2 as [h|e|]; [|done|done]. steps. case_bool_decide.
  { steps. intros _. apply clean_drop; [done|]. intros _. apply Hu2. }
  steps. destruct (static_or_not h) as [->|Hn].
  - simpl. steps. eapply ends_mono; [apply ends_and; [by apply static_set_throws, Hc2|by apply neat_static_set]|].
    intros s3 o3 [Ht Hc3]. destruct o3 as [[]|e|]; steps; try done. intros _.
    apply (clean_drop sure HolderStaticResolvConf); [done|]. intros _. by apply (Ht e).
  - eapply ends_mono; [apply (neat_quiet sure); [by apply quiet_holder_set|done]|]. intros s3 o3 Hc3.
    destruct o3 as [h'|e|]; steps; try done. by destruct h.
Qed.

(** ** Runs without other programs *)
Definition undisturbed (e : @DnsEvent Text) : bool :=
  match e with Rewritten _ | Replaced _ | Deleted => false | _ => true end.
Definition of_dropped (e : @DnsEvent Text) : bool := match e with DroppedEvent _ => true | _ => false end.

(** No operation of setting name servers fails. *)
Definition sets_surely (e : @DnsEvent Text * list (option (@Fault Text))) : Prop :=
  match e.1 with DnsSet _ _ => Forall sure e.2 | _ => True end.

(** Nobody else touches the file, writes are atomic, and either no operation of setting name servers fails or the
    watchers that were dropped notice that before they handle another event. *)
Definition own_steps (l : list (@DnsEvent Text * list (option (@Fault Text)))) : Prop :=
  Forall (fun e => undisturbed e.1 = true /\ Forall atomic e.2) l
  /\ (Forall sets_surely l \/ Forall (fun e => of_dropped e.1 = false) l).

Lemma dead_kept user (s : Sys) : kept user s -> user_kept user (dead s).
Proof. intros Hk. by apply unmanaged_kept. Qed.

Lemma settled_kept {E A} user (m : D E A) s :
  ends m s (fun s' o => (o = Crashed -> kept user s') /\ (o <> Crashed -> user_kept user s')) -> user_kept user (settled (m s)).
Proof.
  unfold ends. destruct (m s) as [s' [a|e|]]; intros [Hc Hn]; simpl in *; [..|by apply dead_kept, Hc];
    (eapply user_kept_ext; [..|by apply Hn]; done).
Qed.

Definition stateless (s : Sys) : Prop := Forall (fun w => w_state w = None) (dropped s).

Lemma dropped_event_kept user i l s :
  stateless s -> user_kept user s -> user_kept user (settled (dropped_event i (set_faults l s)))
  /\ stateless (settled (dropped_event i (set_faults l s))).
Proof.
  intros Hs Hu. unfold dropped_event, mbind, D_bind, gets. cbn [dropped set_faults]. unfold stateless in *.
  destruct (dropped s !! i) as [w|] eqn:Ew; [|split; [by apply (user_kept_ext user s)|done]].
  assert (Hw : w_state w = None) by (eapply (Forall_lookup_1 _ _ _ _ Hs), Ew).
  destruct (w_pending w); [split; [by apply (user_kept_ext user s)|done]|]. rewrite Hw. simpl.
  split; [by apply (user_kept_ext user s)|]. apply Forall_alter; [done|]. intros w' _ Hw'. by simpl.
Qed.

Lemma dns_step_kept user ts e l s :
  undisturbed e = true -> Forall atomic l -> (of_dropped e = true -> stateless s) -> user_kept user s ->
  user_kept user (dns_step ts e l s).
Proof.
  intros He Hl Hs Hu. assert (Hu' : user_kept user (set_faults l s)) by (by apply (user_kept_ext user s)).
  destruct e; try done; unfold dns_step.
  - apply settled_kept. eapply ends_mono; [by apply (DnsMonitor_set_spec user)|]. intros s' o (_ & Hk & Hn). by split.
  - apply settled_kept. eapply ends_mono; [by apply (DnsMonitor_reset_spec user)|]. intros s' o (_ & Hk & Hn).
    split; [done|]. intros Ho. by apply unmanaged_kept, Hn.
  - apply settled_kept. eapply ends_mono; [by apply (live_event_spec user)|]. intros s' o (_ & Hk). split; [intros _; apply Hk|done].
  - by apply dropped_event_kept; [apply Hs|].
  - apply dead_kept, Hu'.
Qed.

Lemma settled_stateless {E A} P (m : D E A) s :
  ends m s (fun s' o => o <> Crashed -> clean P s') -> stateless (settled (m s)).
Proof. unfold ends, stateless. destruct (m s) as [s' [a|e|]]; simpl; intros Hc; [by apply Hc..|constructor]. Qed.

Lemma dns_step_stateless user ts e l s :
  undisturbed e = true -> Forall atomic l -> sets_surely (e, l) -> user_kept user s -> stateless s -> stateless (dns_step ts e l s).
Proof.
  intros He Hl Hsure Hu Hs. assert (Hu' : user_kept user (set_faults l s)) by (by apply (user_kept_ext user s)).
  assert (Hc : forall P : option (@Fault Text) -> Prop, Forall P l -> clean P (set_faults l s)) by (by split).
  destruct e; try done; unfold dns_step.
  - apply (settled_stateless sure). by apply (set_neat user); [|apply Hc].
  - apply (settled_stateless atomic). by apply (reset_neat atomic user); [..|apply Hc].
  - apply (settled_stateless atomic). eapply ends_mono; [apply neat_live_event; by apply Hc|]. by intros.
  - by apply (dropped_event_kept user).
  - by apply Forall_delete.
  - constructor.
Qed.

Lemma dns_run_kept user ts l s : own_steps l -> stateless s -> user_kept user s -> user_kept user (dns_run ts l s).
Proof.
  intros [Hl [Hs|Hd]]; revert s.
  - induction Hl as [|[e f] l [He Hf] _ IH]; intros s Hst Hu; [done|]. apply Forall_cons_1 in Hs as [Hsure Hs]. simpl.
    apply IH; [done|by eapply dns_step_stateless|by apply dns_step_kept].
  - intros s _. revert s. induction Hl as [|[e f] l [He Hf] _ IH]; intros s Hu; [done|].
    apply Forall_cons_1 in Hd as [Hno Hd]. simpl in *. apply IH; [done|]. apply dns_step_kept; [done..| |done]. by rewrite Hno.
Qed.

Lemma ends_no_fault {E} (ok : Sys -> Sys) left s (Q : Sys -> Outcome E bool -> Prop) :
  faults s = [] -> Q (ok s) (Ret true) -> ends (attempt ok left : D E bool) s Q.
Proof. unfold ends, attempt. by intros ->. Qed.

Local Ltac step_ok := first [apply ends_no_fault; [done|]; cbv beta iota | step].

Lemma new_restores user s :
  faults s = [] -> kept user s ->
  ends (StaticResolvConf_new : D StaticError unit) s (fun s' o => o = Ret tt /\ alone user s').
Proof.
  intros Hf [[t Ht] Hk]. unfold StaticResolvConf_new, restore_from_backup, DnsWatcher_start, write_config.
  repeat step_ok. change (backup_file (id s)) with (backup_file s). destruct (backup_file s) as [b|] eqn:Eb.
  - assert (Hp : Config_parse b = Some user).
    { destruct Hk as [[Hn _]|Hs]; [congruence|]. unfold saved in Hs. by rewrite Eb in Hs. }
    rewrite Hp. repeat step_ok. split; [done|]. split; [done|]. apply parse_to_string.
  - destruct Hk as [Hk|Hs]; [|unfold saved in Hs; by rewrite Eb in Hs]. repeat step_ok. simpl. rewrite Ht. by repeat step_ok.
Qed.

Lemma reset_restores user s st :
  faults s = [] -> user_kept user s -> live_state s = Some st ->
  ends DnsMonitor_reset s (fun s' o => o = Ret tt /\ alone user s').
Proof.
  intros Hf (Hk & Ho & Hh) Hl. unfold overlaid in Ho. rewrite Hl in Ho. destruct Ho as (<- & _ & _).
  assert (Hi : inner s = Some HolderStaticResolvConf).
  { destruct (inner s) as [h|] eqn:Ei; [|by rewrite (Hh ltac:(by rewrite Ei)) in Hl].
    destruct (static_or_not h) as [->|Hn]; [done|]. rewrite (Hh ltac:(rewrite Ei; congruence)) in Hl. done. }
  unfold DnsMonitor_reset. repeat step_ok. rewrite Hi. apply ends_dropping. simpl. unfold static_reset, write_config.
  repeat step_ok. rewrite live_state_inner, Hl. repeat step_ok. split; [done|]. split; [done|]. apply parse_to_string.
Qed.

(** C37. The user's name servers are not lost.  Whatever the daemon does with them and wherever it is killed:
    if writing a file is atomic and nobody else writes to it, then a file that parses to the user's
    configuration is in place again after a reset, and whenever [/etc/resolv.conf] is managed the next time, at
    the latest after a crash.  Operations on files may fail, but if one of setting name servers does, no watcher
    that was dropped may handle an event before it notices that: without this, the configuration can be lost
    ([dropped_watcher_loses_dns]). *)
Theorem user_dns_restored ts t user w l :
  Config_parse t = Some user -> own_steps l ->
  let s := dns_run ts l (DnsMonitor_new (Some t) None w) in
  (let '(s', o) := StaticResolvConf_new (dead s) in o = Ret tt /\ alone user s')
  /\ (live_state s <> None -> let '(s', o) := DnsMonitor_reset (set_faults [] s) in o = Ret tt /\ alone user s').
Proof.
  intros Ht Hl s. assert (Hu : user_kept user s).
  { apply dns_run_kept; [done|constructor|]. apply unmanaged_kept. split; [|done]. eapply kept_alone; [done|exact Ht|done]. }
  split.
  - pose proof (new_restores user (dead s) eq_refl (proj1 Hu)) as Hr. unfold ends in Hr. by destruct (StaticResolvConf_new (dead s)).
  - intros Hn. destruct (live_state s) as [st|] eqn:El; [|done].
    pose proof (reset_restores user (set_faults [] s) st eq_refl) as Hr. unfold ends in Hr. destruct (DnsMonitor_reset _).
    apply Hr; [by apply (user_kept_ext user s) | exact El].
Qed.
End props.
