(* ===== verification/DnsRefine.v ===== *)
(** * The DNS monitor and other programs

    Others may write to [/etc/resolv.conf] while it is managed, and what they write is taken over apart from
    the name servers.  Here operations on files do not fail. *)

From stdpp Require Import base list strings option numbers.
From S2P Require Import Prelude NetTypes TunnelTypes DnsLinux DnsProps.

Section refine.
Context {Text Config W DeviceConfig : Type} `{RC : ResolvConf Text Config} {RL : ResolvConfLaws Text Config}.
Context {DS : DnsServices W DeviceConfig}.
Notation Sys := (@Sys Text Config W DeviceConfig).
Notation Watcher := (@Watcher Config).
Notation RState := (@RState Config).
Notation Event := (@DnsEvent Text).
Notation Fault := (@Fault Text).
Notation D := (@D Text Config W DeviceConfig).

Local Ltac step :=
  match goal with
  | |- ends (mbind _ _) _ _ => apply ends_bind
  | |- ends (mret _) _ _ => apply ends_ret
  | |- ends (modify _) _ _ => apply ends_modify
  | |- ends (gets _) _ _ => apply ends_gets
  | |- ends (throw _) _ _ => apply ends_throw
  | |- ends (check _ _) _ _ => apply ends_check
  | |- ends (lift _ _) _ _ => apply ends_lift
  | |- ends (try _) _ _ => apply ends_try
  | |- ends (attempt _ _) _ _ => apply ends_no_fault; [done|]
  end; cbv beta iota.
Local Ltac steps := repeat step.

(** ** Any interleaving *)

(** The file shows what the state wants, and the backup is on disk. *)
Definition in_step (st : RState) (s : Sys) : Prop :=
  parsed (resolv_conf s) = Some (desired_config st) /\ parsed (backup_file s) = Some (rs_backup st).

Definition enforcing (s : Sys) : Prop :=
  match live s with
  | Some w => w_watching w = true
              /\ match w_state w with Some st => w_pending w = 0 -> in_step st s | None => True end
  | None => True
  end.

Record steady (s : Sys) : Prop := {
  steady_faults : faults s = [];
  steady_file : is_Some (parsed (resolv_conf s));
  steady_backup : backup_file s = None \/ is_Some (parsed (backup_file s));
  steady_dropped : Forall (fun w => w_state w = None) (dropped s);
  steady_live : holds_live s;
  steady_enforcing : enforcing s;
}.

Definition idle (s : Sys) : Prop := steady s /\ live_state s = None.

(** Programs for a system whose watchers have no state. *)
Definition tame {E A} (m : D E A) : Prop := forall s, idle s -> ends m s (fun s' o => o <> Crashed /\ idle s' /\ inner s' = inner s).

Lemma idle_ext (s s' : Sys) :
  faults s' = faults s -> resolv_conf s' = resolv_conf s -> backup_file s' = backup_file s -> dropped s' = dropped s ->
  live s' = live s -> idle s -> idle s'.
Proof.
  intros Hf Hr Hb Hd Hl [[] Hn]. unfold live_state in *. rewrite <- Hl in Hn. split; [|exact Hn]. split.
  - by rewrite Hf.
  - by rewrite Hr.
  - by rewrite Hb.
  - by rewrite Hd.
  - by intros _.
  - unfold enforcing in *. rewrite Hl. unfold live_state in Hn. rewrite Hl in Hn. destruct (live s) as [w|]; [|done].
    simpl in Hn. rewrite Hn in *. tauto.
Qed.

Lemma tame_quiet {E A} (m : D E A) : quiet m -> tame m.
Proof.
  intros Hq s Hi. eapply ends_mono; [apply Hq|]. intros s' o [-> Ho]. split; [done|]. split; [|done].
  revert Hi. by apply idle_ext.
Qed.

Lemma tame_lift {E E' A} (f : E -> E') (m : D E A) : tame m -> tame (lift f m).
Proof. intros Hm s Hi. apply ends_lift. eapply ends_mono; [by apply Hm|]. by intros s' [] (? & ? & ?). Qed.

Lemma tame_try {E E' A} (m : D E A) : tame m -> tame (try m : D E' _).
Proof. intros Hm s Hi. apply ends_try. eapply ends_mono; [by apply Hm|]. by intros s' [] (? & ? & ?). Qed.

Lemma tame_bind {E A B} (m : D E A) (f : A -> D E B) : tame m -> (forall a, tame (f a)) -> tame (m ≫= f).
Proof.
  intros Hm Hf s Hi. apply ends_bind. eapply ends_mono; [by apply Hm|]. intros s' [a|e|] (Ho & Hi' & Hin); [|done..].
  eapply ends_mono; [by apply Hf|]. intros s'' o (Ho' & Hi'' & Hin'). split_and!; [done..|]. by rewrite Hin'.
Qed.

Lemma tame_or_else {E A} (m m' : D E A) : tame m -> tame m' -> tame (or_else m m').
Proof. intros. unfold or_else. apply tame_bind; [by apply tame_try|]. intros [a|e]; [apply tame_quiet, quiet_return|done]. Qed.

(** Writing a configuration, with no state in the watchers. *)
Lemma idle_wrote c (s : Sys) : idle s -> idle (wrote (Some (Config_to_string c)) s).
Proof.
  intros [[] Hn]. split; [|by rewrite live_state_wrote]. split; simpl; [done| |done|by apply Forall_notify|intros _; by rewrite live_state_wrote|].
  - exists c. apply parse_to_string.
  - unfold enforcing, live_state in *. simpl. destruct (live s) as [w|]; [|done]. simpl in *. by rewrite Hn in *.
Qed.

Lemma idle_no_backup (s : Sys) : idle s -> idle (set_backup_file None s).
Proof.
  intros [[] Hn]. split; [|exact Hn]. split; try done; [by left|].
  unfold enforcing, live_state in *. simpl. destruct (live s) as [w|]; [|done]. simpl in *. by rewrite Hn in *.
Qed.

Lemma tame_restore : tame (restore_from_backup : D StaticError unit).
Proof.
  intros s Hi. unfold restore_from_backup, write_config. pose proof (steady_faults _ (proj1 Hi)) as Hf. steps.
  change (backup_file (id s)) with (backup_file s).
  destruct (steady_backup _ (proj1 Hi)) as [Hb|[c Hc]]; [rewrite Hb; by steps|].
  destruct (backup_file s) as [b|]; [|by steps]. simpl in Hc. rewrite Hc. steps.
  split; [done|]. split; [|done]. by apply idle_no_backup, idle_wrote.
Qed.

Lemma tame_new_static : tame (new_static : D DnsError _).
Proof.
  apply tame_bind; [|intros; apply tame_quiet, quiet_return]. apply tame_lift. apply tame_bind; [apply tame_restore|intros _].
  intros s Hi. unfold DnsWatcher_start. pose proof (steady_faults _ (proj1 Hi)) as Hf. steps.
  destruct (resolv_conf (id s)); steps; (split; [done|]); (split; [|done]); [|done].
  destruct Hi as [[] _]. by split.
Qed.

Lemma tame_new : tame DnsMonitorHolder_new.
Proof.
  assert (H1 : tame (lift SystemdResolvedDns SystemdResolved_new)) by apply tame_lift, tame_quiet, quiet_SystemdResolved_new.
  assert (H2 : tame (lift NetworkManagerDns NetworkManager_new)) by apply tame_lift, tame_quiet, quiet_NetworkManager_new.
  assert (H3 : tame (lift ResolvconfDns Resolvconf_new)) by apply tame_lift, tame_quiet, quiet_Resolvconf_new.
  assert (H4 : tame with_detected_dns_manager).
  { apply tame_bind; [|intros []; apply tame_quiet; [apply quiet_return|apply quiet_throw]].
    apply tame_try. repeat (apply tame_or_else; [done|]). apply tame_new_static. }
  unfold DnsMonitorHolder_new. repeat case_match; auto using tame_new_static.
Qed.

(** Forgetting a state makes nothing wrong. *)
Lemma idle_forget (s : Sys) : steady s -> idle (set_live_state None s).
Proof.
  intros []. assert (Hn : live_state (set_live_state None s) = None) by (rewrite live_state_set; by destruct (live s)).
  split; [|exact Hn]. split; try done; [by intros _|].
  unfold enforcing in *. simpl. destruct (live s) as [w|]; simpl; [tauto|exact I].
Qed.

Lemma idle_inner h (s : Sys) : idle s -> idle (set_inner h s).
Proof. by apply idle_ext. Qed.

Lemma idle_drop h (s : Sys) : idle s -> idle (drop_holder h s).
Proof.
  intros [[] Hn]. destruct h; try (split; [by split | exact Hn]). simpl. split; [|done]. split; try done.
  simpl. unfold live_state in Hn. destruct (live s) as [w|]; simpl; [by constructor | done].
Qed.

(** A reset leaves no state, from any steady system. *)
Lemma reset_steady (s : Sys) :
  steady s -> ends DnsMonitor_reset s (fun s' o => o <> Crashed /\ idle s' /\ inner s' = None).
Proof.
  intros Hs. unfold DnsMonitor_reset. steps. destruct (inner s) as [h|] eqn:Eh.
  2: { steps. split; [done|]. split; [|done]. apply idle_inner. split; [done|]. apply (steady_live _ Hs). by rewrite Eh. }
  apply ends_dropping. destruct (static_or_not h) as [->|Hn].
  - simpl. unfold static_reset, write_config. pose proof (steady_faults _ Hs) as Hf. steps.
    assert (Hi : idle (set_live_state None (set_inner None s))).
    { pose proof (idle_inner None _ (idle_forget s Hs)) as Hi. revert Hi. by apply idle_ext. }
    rewrite live_state_inner. destruct (live_state s) as [st|]; steps; (split; [done|]); (split; [|done]).
    + apply (idle_drop HolderStaticResolvConf), idle_no_backup, idle_wrote, Hi.
    + by apply (idle_drop HolderStaticResolvConf).
  - assert (Hi : idle (set_inner None s)).
    { apply idle_inner. split; [done|]. apply (steady_live _ Hs). rewrite Eh. congruence. }
    eapply ends_mono; [by apply quiet_holder_reset|]. intros s' o [-> Hc].
    assert (Hi' : idle (drop_holder h (set_services (services s') (set_inner None s)))).
    { apply idle_drop. revert Hi. by apply idle_ext. }
    destruct o; [..|done]; (split; [done|]); (split; [exact Hi'|by destruct h]).
Qed.

Lemma enforcing_pending (s : Sys) w n :
  live s = Some w -> w_watching w = true -> w_pending w = S n -> enforcing s.
Proof. unfold enforcing. intros -> -> Hp. split; [done|]. rewrite Hp. by destruct (w_state w). Qed.

(** What is written to the file makes an event. *)
Lemma steady_wrote t (s : Sys) :
  steady s -> is_Some (Config_parse t) -> steady (wrote (Some t) s).
Proof.
  intros [] Ht. split; simpl; [done|done|done|by apply Forall_notify| |].
  - intros Hn. rewrite live_state_wrote. auto.
  - unfold enforcing in steady_enforcing0. destruct (live s) as [w|] eqn:Ew; [|unfold enforcing; simpl; by rewrite Ew].
    destruct steady_enforcing0 as [Hw _]. eapply enforcing_pending; [simpl; rewrite Ew; done | done |]. simpl. by rewrite Hw.
Qed.

(** The write comes last, so that an event is pending when the state is there. *)
Lemma static_set_steady servers (s : Sys) :
  idle s -> ends (static_set_dns servers : D StaticError unit) s (fun s' o =>
    o <> Crashed /\ steady (set_inner (Some HolderStaticResolvConf) s') /\ (o <> Ret tt -> idle s')
    /\ forall st, live_state s' = Some st -> desired_dns st = servers).
Proof.
  intros Hi. pose proof (idle_forget s (proj1 Hi)) as Hf. unfold static_set_dns, read_config, write_backup, write_config.
  steps. rewrite (proj2 Hi). steps. destruct (steady_file _ (proj1 Hf)) as [c Hc].
  destruct (resolv_conf (set_live_state None s)) as [t|] eqn:Et; [|done]. simpl in Hc.
  pose proof (steady_faults _ (proj1 Hf)) as Hn. steps. rewrite Hc. steps. split; [done|].
  assert (Hs : steady (set_inner (Some HolderStaticResolvConf) (wrote (Some (Config_to_string (desired_config {| rs_backup := c; desired_dns := servers |})))
    (set_live_state (Some {| rs_backup := c; desired_dns := servers |}) (set_backup_file (Some (Config_to_string c)) (id (set_live_state None s))))))).
  { split; simpl; [done| | |apply Forall_notify, (steady_dropped _ (proj1 Hi))|by intros []|].
    - eexists. apply parse_to_string.
    - right. eexists. apply parse_to_string.
    - pose proof (steady_enforcing _ (proj1 Hf)) as He. unfold enforcing in *. simpl in *. destruct (live s) as [w|]; [|done].
      simpl in *. split; [tauto|]. destruct He as [He _]. by rewrite He. }
  split; [exact Hs|]. split; [by intros []|]. intros st Hl. unfold live_state in Hl. simpl in Hl.
  destruct (live s); simpl in Hl; by simplify_eq.
Qed.

(** What is asked for is what the state wants. *)
Definition asks (servers : list IpAddr) (s : Sys) : Prop := forall st, live_state s = Some st -> desired_dns st = servers.
Lemma idle_asks servers (s : Sys) : idle s -> steady s /\ asks servers s.
Proof. intros [Hs Hn]. split; [done|]. intros st. by rewrite Hn. Qed.

Lemma set_steady ts iface config (s : Sys) :
  steady s -> ends (DnsMonitor_set ts iface config) s (fun s' o => o <> Crashed /\ steady s' /\ asks (tunnel_config config) s').
Proof.
  intros Hs. unfold DnsMonitor_set. steps. eapply ends_mono; [by apply reset_steady|]. intros s1 o1 (Ho1 & Hi1 & Hn1).
  destruct o1 as [[]|e|]; [|split; [done|by apply idle_asks]|done]. steps.
  eapply ends_mono; [by apply tame_new|]. intros s2 o2 (Ho2 & Hi2 & Hn2).
  destruct o2 as [h|e|]; [|split; [done|by apply idle_asks]|done]. steps. case_bool_decide.
  { steps. split; [done|]. by apply idle_asks, idle_drop. }
  steps. destruct (static_or_not h) as [->|Hn].
  - simpl. steps. eapply ends_mono; [by apply static_set_steady|]. intros s3 [[]|e|] (Ho3 & Hs3 & Hi3 & Hd3); [steps..|done].
    + done.
    + split; [done|]. by apply idle_asks, (idle_drop HolderStaticResolvConf), Hi3.
  - eapply ends_mono; [by apply quiet_holder_set|]. intros s3 o3 [-> Hc].
    assert (Hi3 : idle (set_services (services s3) s2)) by (revert Hi2; by apply idle_ext).
    destruct o3 as [h'|e|]; [| |done]; steps; (split; [done|]); apply idle_asks; [by apply idle_inner | by apply idle_drop].
Qed.

(** ** Events *)
Definition pending (s : Sys) : nat := match live s with Some w => w_pending w | None => 0 end.

(** How many events it takes until nothing is pending. *)
Definition behind (s : Sys) : nat :=
  pending s
  + match live_state s, parsed (resolv_conf s) with
    | Some st, Some c => if decide (nameservers c = desired_nameservers st) then 0 else 1
    | _, _ => 0
    end.

Lemma desired_same (st : RState) c :
  nameservers c = desired_nameservers st ->
  desired_config {| rs_backup := set_nameservers (nameservers (rs_backup st)) c; desired_dns := desired_dns st |} = c.
Proof. intros Hc. unfold desired_config. cbn [rs_backup]. rewrite set_nameservers_twice.
  change (desired_nameservers {| rs_backup := set_nameservers (nameservers (rs_backup st)) c; desired_dns := desired_dns st |}) with (desired_nameservers st).
  by rewrite <- Hc, set_nameservers_same.
Qed.

(** [update] with an event taken: the user's settings are taken over, and either the file is written, with an
    event to come, or it is as it should be and the backup is written. *)
Lemma update_steady w st c (s : Sys) :
  live s = Some w -> w_state w = Some st -> w_watching w = true -> parsed (resolv_conf s) = Some c -> faults s = [] ->
  let same := bool_decide (nameservers c = desired_nameservers st) in
  let b := if same then set_nameservers (nameservers (rs_backup st)) c else c in
  let st' := {| rs_backup := b; desired_dns := desired_dns st |} in
  ends (update (fun x => set_live_state (Some x)) (Some st) : D StaticError unit) s (fun s' o =>
    o <> Crashed /\ faults s' = [] /\ inner s' = inner s /\ dropped s' = (if same then dropped s else map notify (dropped s))
    /\ backup_file s' = (if same then Some (Config_to_string b) else backup_file s)
    /\ parsed (resolv_conf s') = Some (desired_config st')
    /\ live s' = Some {| w_state := Some st'; w_pending := if same then w_pending w else S (w_pending w); w_watching := true |}).
Proof.
  intros Hl Hst Hw Hc Hf. cbv zeta. unfold update, read_config, write_config, write_backup. steps.
  destruct (resolv_conf s) as [t|] eqn:Et; [|done]. simpl in Hc. steps. rewrite Hc. steps.
  destruct (decide (nameservers c = desired_nameservers st)) as [Hd|Hd].
  - rewrite (bool_decide_eq_true_2 (_ = _)), bool_decide_eq_false_2 by tauto. steps. split_and!; [done..| |].
    + simpl. rewrite Et. simpl. by rewrite Hc, desired_same.
    + simpl. rewrite Hl. simpl. unfold with_state. by rewrite Hw.
  - rewrite (bool_decide_eq_false_2 (_ = _)), bool_decide_eq_true_2 by done. steps. split_and!; [done..| |].
    + apply parse_to_string.
    + simpl. rewrite Hl. simpl. unfold notify, with_state. simpl. by rewrite Hw.
Qed.

Lemma no_event ts (s : Sys) : faults s = [] -> pending s = 0 -> dns_step ts WatchEvent [] s = s.
Proof.
  intros Hf. unfold pending, dns_step, live_event. assert (Hs : set_faults [] s = s) by (destruct s; simpl in *; by subst).
  rewrite Hs. unfold mbind, D_bind, gets. destruct (live s) as [w|]; [|simpl; by rewrite Hs]. intros ->. simpl. by rewrite Hs.
Qed.

(** A watcher without a state only takes the event. *)
Lemma event_forgotten ts w n (s : Sys) :
  steady s -> live s = Some w -> w_state w = None -> w_pending w = S n ->
  let s' := dns_step ts WatchEvent [] s in
  steady s' /\ inner s' = inner s /\ desired_dns <$> live_state s' = desired_dns <$> live_state s /\ behind s' < behind s.
Proof.
  intros Hs Hl Hst Hp. assert (H0 : live_state s = None) by (unfold live_state; by rewrite Hl).
  assert (He : dns_step ts WatchEvent [] s = set_watchers (Some (handled w)) (dropped s) s).
  { unfold dns_step, live_event. destruct s as [i r b l d f v]. destruct Hs as [Hf]. simpl in *. subst.
    unfold mbind, D_bind, gets, modify. simpl. by rewrite Hp, Hst. }
  cbv zeta. rewrite He. split_and!; [|done|by rewrite H0; unfold live_state; simpl; rewrite Hst|].
  - pose proof (steady_enforcing _ Hs) as Hen. unfold enforcing in Hen. rewrite Hl in Hen.
    destruct Hs; split; try done; [by intros _|]. unfold enforcing. simpl. rewrite Hst. tauto.
  - unfold behind, pending. rewrite H0, Hl. unfold live_state. simpl. rewrite Hst, Hp. simpl. lia.
Qed.

Lemma no_faults (s : Sys) : faults s = [] -> set_faults [] s = s.
Proof. destruct s. simpl. by intros ->. Qed.

(** What an event does to a watcher with a state. *)
Lemma event_updates ts w st c n (s : Sys) :
  live s = Some w -> w_state w = Some st -> w_watching w = true -> w_pending w = S n -> parsed (resolv_conf s) = Some c -> faults s = [] ->
  let s' := dns_step ts WatchEvent [] s in
  let same := bool_decide (nameservers c = desired_nameservers st) in
  let b := if same then set_nameservers (nameservers (rs_backup st)) c else c in
  let st' := {| rs_backup := b; desired_dns := desired_dns st |} in
  faults s' = [] /\ inner s' = inner s /\ dropped s' = (if same then dropped s else map notify (dropped s))
  /\ backup_file s' = (if same then Some (Config_to_string b) else backup_file s)
  /\ parsed (resolv_conf s') = Some (desired_config st')
  /\ live s' = Some {| w_state := Some st'; w_pending := if same then n else S n; w_watching := true |}.
Proof.
  intros Hl Hst Hw Hp Hc Hf. cbv zeta. unfold dns_step, live_event. rewrite (no_faults s Hf).
  unfold mbind, D_bind, gets, modify. rewrite Hl, Hp, Hst. cbn [fst snd].
  set (s1 := set_watchers _ _ s).
  assert (Hu := update_steady (handled w) st c s1). destruct Hu as (Ho & Hu); [unfold s1; simpl; by rewrite Hl|done..|].
  unfold try. destruct (update _ (Some st) s1) as [s' o]. simpl in Ho, Hu. destruct Hu as (Hf' & Hi & Hd & Hb & Hr & Hl').
  assert (Hs' : s' = set_faults [] s') by (symmetry; by apply no_faults). rewrite Hp in Hl'. simpl in Hl'.
  destruct o as [[]|e|]; [..|done]; simpl; by split_and!.
Qed.

(** An event brings the system closer to where nothing is pending. *)
Lemma event_steady ts (s : Sys) :
  steady s -> pending s <> 0 ->
  let s' := dns_step ts WatchEvent [] s in
  steady s' /\ inner s' = inner s /\ desired_dns <$> live_state s' = desired_dns <$> live_state s /\ behind s' < behind s.
Proof.
  intros Hs Hp. pose proof (steady_enforcing _ Hs) as Hen. unfold pending in Hp. unfold enforcing in Hen.
  destruct (live s) as [w|] eqn:Ew; [|done]. destruct Hen as [Hw Hen].
  destruct (w_pending w) as [|n] eqn:Ep; [done|]. destruct (steady_file _ Hs) as [c Hc].
  destruct (w_state w) as [st|] eqn:Est; [|by eapply event_forgotten].
  assert (H0 : live_state s = Some st) by (unfold live_state; rewrite Ew; simpl; done).
  destruct (event_updates ts w st c n s Ew Est Hw Ep Hc (steady_faults _ Hs)) as (Hf & Hi & Hd & Hb & Hr & Hl).
  intros s'. fold s' in Hf, Hi, Hd, Hb, Hr, Hl. clearbody s'.
  set (same := bool_decide _) in *. set (b := if same then set_nameservers (nameservers (rs_backup st)) c else c) in *.
  set (st' := {| rs_backup := b; desired_dns := desired_dns st |}) in *.
  assert (H1 : live_state s' = Some st') by (unfold live_state; by rewrite Hl).
  split_and!; [|done|by rewrite H1, H0|].
  - destruct Hs. split; [done|by rewrite Hr| | |intros Hn; rewrite Hi in Hn; specialize (steady_live0 Hn); congruence|].
    + rewrite Hb. destruct same; [right; eexists; apply parse_to_string|done].
    + rewrite Hd. destruct same; [done|by apply Forall_notify].
    + unfold enforcing. rewrite Hl. cbn [w_watching w_state w_pending]. split; [done|]. intros Hz. split; [exact Hr|].
      rewrite Hb. destruct same; [apply parse_to_string|done].
  - unfold behind, pending. rewrite H1, H0, Hl, Ew, Hr, Hc. cbn [w_pending]. rewrite Ep.
    rewrite decide_True by apply nameservers_set. unfold same. case_bool_decide; [rewrite decide_True by done|rewrite decide_False by done]; lia.
Qed.

(** ** Runs with other programs, which write in place what can be parsed *)
Definition harmless (e : Event) : Prop :=
  match e with Rewritten t => is_Some (Config_parse t) | Replaced _ | Deleted => False | _ => True end.

Lemma settled_steady {E A} (m : D E A) (s : Sys) :
  ends m s (fun s' o => o <> Crashed /\ steady s') -> steady (settled (m s)).
Proof.
  unfold ends. destruct (m s) as [s' o]. simpl. intros [Ho Hs]. assert (Hf : set_faults [] s' = s') by (destruct Hs; destruct s'; simpl in *; by subst).
  destruct o; simpl; rewrite ?Hf; done.
Qed.

(** A watcher that has been dropped has no state any more. *)
Lemma dropped_event_steady i (s : Sys) :
  steady s -> ends (dropped_event i : D StaticError unit) s (fun s' o => o <> Crashed /\ steady s').
Proof.
  intros Hs. unfold dropped_event. steps. destruct (dropped s !! i) as [w|] eqn:Ew; [|by steps].
  assert (Hw : w_state w = None).
  { pose proof (steady_dropped _ Hs) as Hd. rewrite Forall_lookup in Hd. by eapply Hd. }
  destruct (w_pending w); [by steps|]. rewrite Hw. unfold update. steps. split; [done|].
  destruct Hs; split; try done. simpl. apply Forall_alter; [done|]. intros w' _ Hw'. by simpl.
Qed.

Lemma dns_step_steady ts e (s : Sys) : harmless e -> steady s -> steady (dns_step ts e [] s).
Proof.
  intros He Hs. assert (Hf : set_faults [] s = s) by (destruct Hs; destruct s; simpl in *; by subst).
  unfold dns_step. rewrite Hf. destruct e; try done.
  - apply settled_steady. eapply ends_mono; [by apply set_steady|]. by intros s' o (Ho & Hs' & _).
  - apply settled_steady. eapply ends_mono; [by apply reset_steady|]. intros s' o (Ho & Hi & _). split; [done|apply Hi].
  - destruct (decide (pending s = 0)) as [Hp|Hp].
    + pose proof (no_event ts s (steady_faults _ Hs) Hp) as Hn. unfold dns_step in Hn. rewrite Hf in Hn. by rewrite Hn.
    + pose proof (event_steady ts s Hs Hp) as Hn. unfold dns_step in Hn. rewrite Hf in Hn. apply Hn.
  - apply settled_steady. by apply dropped_event_steady.
  - destruct Hs; split; try done. simpl. by apply Forall_delete.
  - pose proof (steady_wrote t s Hs He) as Hw. by destruct Hw.
  - by destruct Hs.
Qed.

Definition quietly (e : Event) : Event * list (option Fault) := (e, []).

Lemma dns_run_steady ts l (s : Sys) : Forall harmless l -> steady s -> steady (dns_run ts (map quietly l) s).
Proof.
  intros Hl. revert s. induction l as [|e l IH]; intros s Hs; [done|]. inversion_clear Hl. simpl. apply IH; [done|]. by apply dns_step_steady.
Qed.

Lemma settles ts (s : Sys) :
  steady s -> exists n, n <= behind s /\
    let s' := dns_run ts (map quietly (repeat WatchEvent n)) s in
    steady s' /\ pending s' = 0 /\ desired_dns <$> live_state s' = desired_dns <$> live_state s.
Proof.
  remember (behind s) as k eqn:Hk. assert (Hle : behind s <= k) by lia. clear Hk. revert s Hle.
  induction k as [|k IH]; intros s Hle Hs; (destruct (decide (pending s = 0)) as [Hp|Hp]; [exists 0; split; [lia|done]|]).
  - unfold behind in Hle. lia.
  - destruct (event_steady ts s Hs Hp) as (Hs' & _ & Hd & Hb). destruct (IH (dns_step ts WatchEvent [] s)) as (n & Hn & H1 & H2 & H3); [lia|done|].
    exists (S n). split; [lia|]. split; [exact H1|]. split; [exact H2|]. rewrite <- Hd. exact H3.
Qed.

(** ** What is asked for, and what others write *)
(** The name servers that were set last and not reset since. *)
Definition asked (a : option (list IpAddr)) (e : Event) : option (list IpAddr) :=
  match e with DnsSet _ config => Some (tunnel_config config) | DnsReset | Killed => None | _ => a end.

Definition goes_on (e : Event) : bool := match e with DnsSet _ _ | DnsReset | Killed => false | _ => true end.
Definition is_rewritten (e : Event) : bool := match e with Rewritten _ => true | _ => false end.
(** What others wrote last, or else what was there. *)
Definition last_written (c : Config) (l : list Event) : Config :=
  foldl (fun c e => match e with Rewritten t => default c (Config_parse t) | _ => c end) c l.

Lemma dropped_event_eq i (s : Sys) : steady s ->
  resolv_conf (settled (dropped_event i s)) = resolv_conf s /\ live (settled (dropped_event i s)) = live s.
Proof.
  intros Hs. unfold dropped_event, mbind, D_bind, gets. destruct (dropped s !! i) as [w|] eqn:Ew; [|done].
  assert (Hw : w_state w = None) by (eapply (Forall_lookup_1 _ _ _ _ (steady_dropped _ Hs)), Ew).
  destruct (w_pending w); [done|]. by rewrite Hw.
Qed.

(** Steps other than setting, resetting and ending keep what is asked for. *)
Lemma step_desired ts e (s : Sys) :
  goes_on e = true -> harmless e -> steady s ->
  desired_dns <$> live_state (dns_step ts e [] s) = desired_dns <$> live_state s.
Proof.
  intros Hg He Hs. pose proof (no_faults s (steady_faults _ Hs)) as Hf. destruct e; try done.
  - destruct (decide (pending s = 0)) as [Hp|Hp]; [by rewrite (no_event ts s (steady_faults _ Hs) Hp)|].
    apply (event_steady ts s Hs Hp).
  - unfold dns_step. rewrite Hf. destruct (dropped_event_eq i s Hs) as [_ Hl]. unfold live_state. by rewrite Hl.
  - unfold dns_step. rewrite Hf. rewrite live_state_faults, live_state_wrote. done.
Qed.

Definition asking (a : option (list IpAddr)) (s : Sys) : Prop := forall st, live_state s = Some st -> a = Some (desired_dns st).

Lemma settled_asks {E A} (m : D E A) servers (s : Sys) :
  ends m s (fun s' o => o <> Crashed /\ asks servers s') -> asking (Some servers) (settled (m s)).
Proof.
  unfold ends. destruct (m s) as [s' o]. simpl. intros [Ho Hs] st Hst. f_equal. symmetry. destruct o; [..|done]; by apply Hs.
Qed.

Lemma step_asking ts a e (s : Sys) : harmless e -> steady s -> asking a s -> asking (asked a e) (dns_step ts e [] s).
Proof.
  intros He Hs Ha. destruct (goes_on e) eqn:Hg.
  - intros st Hst. pose proof (step_desired ts e s Hg He Hs) as Hd. rewrite Hst in Hd.
    destruct (live_state s) as [st0|] eqn:E0; [|done]. injection Hd as ->. destruct e; try done; by apply Ha.
  - pose proof (no_faults s (steady_faults _ Hs)) as Hf. destruct e; try done; unfold dns_step; rewrite Hf.
    + apply settled_asks. eapply ends_mono; [by apply set_steady|]. by intros s' o (Ho & _ & Hs').
    + intros st. pose proof (reset_steady s Hs) as (_ & [_ Hn] & _). unfold settled.
      destruct (DnsMonitor_reset s) as [s' [a'|e|]]; simpl in *; [by rewrite live_state_faults, Hn..|done].
Qed.

(** The file is what others wrote last, apart from the name servers, and the backup is just that if it has others
    than those that are asked for. *)
Definition follows (c : Config) (written : bool) (s : Sys) : Prop :=
  exists c0, parsed (resolv_conf s) = Some c0 /\ set_nameservers [] c0 = set_nameservers [] c
    /\ (written = true ->
        match live_state s with
        | Some st => (c0 = c /\ pending s <> 0)
                     \/ (nameservers c <> desired_nameservers st -> rs_backup st = c /\ c0 = desired_config st)
        | None => True
        end).

Lemma rest_set l c : set_nameservers [] (set_nameservers l c) = set_nameservers [] c.
Proof. apply set_nameservers_twice. Qed.

Lemma event_follows ts c b (s : Sys) : steady s -> follows c b s -> follows c b (dns_step ts WatchEvent [] s).
Proof.
  intros Hs Hfol. destruct (decide (pending s = 0)) as [Hp|Hp]; [by rewrite (no_event ts s (steady_faults _ Hs) Hp)|].
  destruct Hfol as (c0 & Hc & Hrest & Hb). pose proof (steady_enforcing _ Hs) as Hen. unfold pending in Hp. unfold enforcing in Hen.
  destruct (live s) as [w|] eqn:Ew; [|done]. destruct Hen as [Hw _]. destruct (w_pending w) as [|n] eqn:Ep; [done|].
  destruct (w_state w) as [st|] eqn:Est.
  - destruct (event_updates ts w st c0 n s Ew Est Hw Ep Hc (steady_faults _ Hs)) as (_ & _ & _ & _ & Hr & Hl).
    assert (H0 : live_state s = Some st) by (unfold live_state; rewrite Ew; simpl; done). rewrite H0 in Hb.
    eexists. split; [exact Hr|]. split.
    { unfold desired_config. rewrite rest_set. cbn [rs_backup]. destruct (bool_decide _); by rewrite ?rest_set. }
    intros Hwr. specialize (Hb Hwr). unfold live_state. rewrite Hl. simpl. right. intros Hne. split; [|done].
    change (desired_nameservers _) with (desired_nameservers st) in Hne.
    destruct Hb as [[-> _]|Hb]; [by rewrite bool_decide_eq_false_2|]. destruct (Hb Hne) as [Hbk ->].
    rewrite bool_decide_eq_true_2 by apply nameservers_set. rewrite Hbk. unfold desired_config.
    by rewrite set_nameservers_twice, Hbk, set_nameservers_same.
  - destruct (event_forgotten ts w n s Hs Ew Est Ep) as (_ & _ & Hd & _).
    assert (H0 : live_state s = None) by (unfold live_state; by rewrite Ew). rewrite H0 in Hd.
    exists c0. split; [|split; [done|]].
    + rewrite <- Hc. f_equal. unfold dns_step, live_event. rewrite (no_faults s (steady_faults _ Hs)).
      unfold mbind, D_bind, gets, modify. by rewrite Ew, Ep, Est.
    + intros _. by destruct (live_state (dns_step ts WatchEvent [] s)).
Qed.

Lemma step_follows ts c b e (s : Sys) :
  goes_on e = true -> harmless e -> steady s -> follows c b s ->
  follows (last_written c [e]) (b || is_rewritten e) (dns_step ts e [] s).
Proof.
  intros Hg He Hs Hfol. pose proof (no_faults s (steady_faults _ Hs)) as Hf. rewrite orb_comm.
  destruct e as [| | |i|i|t| | |]; try done.
  - exact (event_follows ts c b s Hs Hfol).
  - unfold dns_step. rewrite Hf. destruct (dropped_event_eq i s Hs) as [Hr Hl].
    destruct Hfol as (c0 & Hc & Hrest & Hb). exists c0. unfold live_state, pending in *. by rewrite Hr, Hl.
  - destruct He as [c1 Hc1]. unfold last_written. cbn [foldl is_rewritten orb]. rewrite Hc1. exists c1. split; [done|]. split; [done|]. intros _.
    destruct (live_state _) as [st|] eqn:Est; [|done]. left. split; [done|]. unfold live_state, pending in *. simpl in *.
    pose proof (steady_enforcing _ Hs) as Hen. unfold enforcing in Hen. destruct (live s) as [w|]; [|done]. simpl in *.
    destruct Hen as [-> _]. done.
Qed.

Lemma run_follows ts l c b (s : Sys) :
  Forall harmless l -> forallb goes_on l = true -> steady s -> follows c b s ->
  follows (last_written c l) (b || existsb is_rewritten l) (dns_run ts (map quietly l) s).
Proof.
  revert c b s. induction l as [|e l IH]; intros c b s Hl Hg Hs Hfol; [by rewrite orb_false_r|].
  inversion_clear Hl. simpl in Hg. apply andb_true_iff in Hg as [Hge Hgl]. cbn [existsb]. rewrite orb_assoc.
  apply (IH (last_written c [e])); [done|done|by apply dns_step_steady|by apply step_follows].
Qed.

Lemma run_asking ts l a (s : Sys) :
  Forall harmless l -> steady s -> asking a s -> asking (foldl asked a l) (dns_run ts (map quietly l) s).
Proof.
  revert a s. induction l as [|e l IH]; intros a s Hl Hs Ha; [done|]. inversion_clear Hl.
  apply IH; [done|by apply dns_step_steady|by apply step_asking].
Qed.

Lemma last_written_events c n : last_written c (repeat WatchEvent n) = c.
Proof. induction n; simpl; [done|exact IHn]. Qed.
Lemma events_harmless n : Forall harmless (repeat WatchEvent n) /\ forallb goes_on (repeat WatchEvent n) = true
  /\ existsb is_rewritten (repeat WatchEvent n) = false.
Proof. induction n as [|n (? & ? & ?)]; simpl; split_and!; try done. by constructor. Qed.

Lemma settles_following ts (s : Sys) st c b :
  steady s -> live_state s = Some st -> follows c b s ->
  exists n st', n <= S (pending s) /\
    let s' := dns_run ts (map quietly (repeat WatchEvent n)) s in
    live_state s' = Some st' /\ desired_dns st' = desired_dns st
    /\ parsed (resolv_conf s') = Some (set_nameservers (desired_nameservers st) c)
    /\ parsed (backup_file s') = Some (rs_backup st')
    /\ (b = true -> nameservers c <> desired_nameservers st -> rs_backup st' = c).
Proof.
  intros Hs Hst Hfol. destruct (settles ts s Hs) as (n & Hn & Hs' & Hp & Hd). destruct (events_harmless n) as (He & Hg & Hr).
  pose proof (run_follows ts _ c b s He Hg Hs Hfol) as Hf'. rewrite last_written_events, Hr, orb_false_r in Hf'.
  set (s' := dns_run ts (map quietly (repeat WatchEvent n)) s) in *. rewrite Hst in Hd.
  destruct (live_state s') as [st'|] eqn:E'; [|done]. injection Hd as Hd. exists n, st'. split.
  { unfold behind in Hn. rewrite Hst in Hn. destruct (parsed (resolv_conf s)); [destruct (decide _)|]; lia. }
  assert (Hds : desired_nameservers st' = desired_nameservers st) by (unfold desired_nameservers; by rewrite Hd).
  assert (Hin : in_step st' s').
  { pose proof (steady_enforcing _ Hs') as Hen. unfold enforcing, live_state, pending in *. destruct (live s') as [w'|]; [|done].
    simpl in E'. rewrite E' in Hen. by apply Hen. }
  destruct Hin as [H1 H2], Hf' as (c0 & Hc0 & Hrest & Hb). rewrite H1 in Hc0. injection Hc0 as <-. fold s'.
  split_and!; [done|done| |done|].
  - rewrite H1. f_equal. unfold desired_config in *. rewrite rest_set in Hrest. rewrite Hds.
    by rewrite <- (set_nameservers_twice _ [] (rs_backup st')), Hrest, set_nameservers_twice.
  - intros Hwr Hne. specialize (Hb Hwr). rewrite E', Hds in Hb. destruct Hb as [[_ Hb]|Hb]; [done|]. by apply Hb.
Qed.

(** C38. The name servers that are asked for are enforced.  If no operation on a file fails, then however settings,
    resets, crashes, events and what others write in place interleave: while [/etc/resolv.conf] is managed, after
    at most one event more than are pending it has exactly the name servers that were set last and not reset since.
    The rest of it is what others wrote to it last, or, if they have written nothing since some moment after the last
    setting, resetting or end of the daemon, what it was at that moment.  The backup on disk is the configuration a
    reset would put there, and it is just what others wrote if that has other name servers. *)
Theorem servers_enforced ts t w l1 l2 st c1 :
  is_Some (Config_parse t) -> Forall harmless (l1 ++ l2) -> forallb goes_on l2 = true ->
  let s1 := dns_run ts (map quietly l1) (DnsMonitor_new (Some t) None w) in
  let s := dns_run ts (map quietly l2) s1 in
  let c := last_written c1 l2 in
  live_state s = Some st -> parsed (resolv_conf s1) = Some c1 ->
  exists servers n st', foldl asked None (l1 ++ l2) = Some servers /\ n <= S (pending s) /\
    let s' := dns_run ts (map quietly (repeat WatchEvent n)) s in
    live_state s' = Some st' /\ desired_dns st' = servers
    /\ parsed (resolv_conf s') = Some (set_nameservers (map ScopedIp_from servers) c)
    /\ parsed (backup_file s') = Some (rs_backup st')
    /\ (existsb is_rewritten l2 = true -> nameservers c <> map ScopedIp_from servers -> rs_backup st' = c).
Proof.
  intros Ht Hl Hg s1 s c Hst Hc1. pose proof (proj1 (Forall_app _ _ _) Hl) as [Hl1 Hl2].
  assert (Hs0 : steady (DnsMonitor_new (Some t) None w)) by (split; [done|exact Ht|by left|constructor|by intros _|done]).
  assert (Hs1 : steady s1) by by apply dns_run_steady. assert (Hs : steady s) by by apply dns_run_steady.
  assert (Ha : asking (foldl asked None (l1 ++ l2)) s).
  { rewrite foldl_app. apply run_asking; [done..|]. by apply run_asking. }
  assert (Hfol : follows c (false || existsb is_rewritten l2) s) by (apply run_follows; [done..|]; by exists c1).
  destruct (settles_following ts s st c _ Hs Hst Hfol) as (n & st' & Hn & H). exists (desired_dns st), n, st'.
  split; [by apply Ha|]. split; [exact Hn|exact H].
Qed.
End refine.

(** * Examples of the DNS monitor of Linux

    A configuration is its name servers with the other lines, and a text is a list of lines; of the services,
    none but the file is used.  The examples show the theorems at work, and what they do not promise. *)

(** ** A configuration file *)
Inductive Line : Type := NameServer (a : ScopedIp) | OtherLine (n : nat) | Garbage.
Record ExConfig : Type := { ex_servers : list ScopedIp; ex_rest : list nat }.

Fixpoint ex_parse (l : list Line) : option ExConfig :=
  match l with
  | [] => Some {| ex_servers := []; ex_rest := [] |}
  | NameServer a :: l => c ← ex_parse l; Some {| ex_servers := a :: ex_servers c; ex_rest := ex_rest c |}
  | OtherLine n :: l => c ← ex_parse l; Some {| ex_servers := ex_servers c; ex_rest := n :: ex_rest c |}
  | Garbage :: _ => None
  end.

#[global] Instance ex_resolv_conf : ResolvConf (list Line) ExConfig := {|
  Config_new := {| ex_servers := []; ex_rest := [] |};
  Config_parse := ex_parse;
  Config_to_string c := map NameServer (ex_servers c) ++ map OtherLine (ex_rest c);
  nameservers := ex_servers;
  set_nameservers l c := {| ex_servers := l; ex_rest := ex_rest c |};
  generated_by_resolvconf _ := false;
|}.

Lemma ex_parse_rest l : ex_parse (map OtherLine l) = Some {| ex_servers := []; ex_rest := l |}.
Proof. induction l as [|n l IH]; [done|]. simpl. by rewrite IH. Qed.

#[global] Instance ex_resolv_conf_laws : ResolvConfLaws (list Line) ExConfig.
Proof.
  split; [|done|by intros []|done]. intros [l r]. simpl. induction l as [|a l IH]; simpl; [apply ex_parse_rest|by rewrite IH].
Qed.

(** Nothing works but the file, which a variable asks for. *)
#[global] Instance ex_services : DnsServices unit unit := {|
  TALPID_DNS_MODULE := Some "static-file"%string;
  DbusInterface_new w := (w, false);
  if_nametoindex _ _ := None;
  disable_dot _ w := (w, false);
  set_domains _ _ w := (w, false);
  resolved_set_dns _ _ w := (w, false);
  DBus_new w := (w, false);
  ensure_can_be_used_to_manage_dns w := (w, false);
  nm_set_dns _ _ w := (w, None);
  fetch_device _ w := (w, Err DeviceNotFound);
  device_ready _ w := (w, None);
  reapply_settings _ _ w := (w, false);
  which_resolvconf _ := None;
  read_link _ _ := None;
  dnsmasq_pid _ := None;
  proc_exists _ _ := false;
  dnsmasq_lines _ := [];
  canonicalize_resolv_conf _ := None;
  run_resolvconf _ _ _ w := (w, None);
|}.

Definition ip (d : Z) : IpAddr := V4 (Ipv4Addr_new 10 64 0 d).
Definition server (d : Z) : Line := NameServer (ScopedIp_from (ip d)).
Definition tunnel_dns (d : Z) : ResolvedDnsConfig := {| tunnel_config := [ip d]; non_tunnel_config := [] |}.
Definition set_event (d : Z) : @DnsEvent (list Line) := DnsSet "wg0-mullvad" (tunnel_dns d).
Definition show_ip (a : IpAddr) : string := EmptyString.

(** The user's file. *)
Definition home : list Line := [server 99; OtherLine 1].
Definition home_config : ExConfig := {| ex_servers := [ScopedIp_from (ip 99)]; ex_rest := [1] |}.
Definition ex_start : @Sys (list Line) ExConfig unit unit := DnsMonitor_new (Some home) None tt.
Definition dns_after (l : list (@DnsEvent (list Line) * list (option (@Fault (list Line))))) : @Sys (list Line) ExConfig unit unit :=
  dns_run show_ip l ex_start.

(** Name servers are set, a write fails, the daemon is killed and starts again, and ends in the middle of a write. *)
Definition hard_day : list (@DnsEvent (list Line) * list (option (@Fault (list Line)))) :=
  [(set_event 1, []); (WatchEvent, []); (set_event 2, [None; None; None; None; None; None; Some Fails]); (Killed, []);
   (set_event 3, [None; None; None; None; None; None; None; Some EndsBefore]); (set_event 1, []); (WatchEvent, [None; Some Fails])].

(** A watcher that was dropped handles events, and a reset and an event fail. *)
Definition fair_day : list (@DnsEvent (list Line) * list (option (@Fault (list Line)))) :=
  [(set_event 1, []); (DnsReset, [Some Fails]); (DroppedEvent 0, []); (set_event 2, []); (DroppedEvent 0, []); (WatchEvent, [Some Fails])].

Lemma user_dns_restored_witness :
  (let '(s', o) := StaticResolvConf_new (dead (dns_after hard_day)) in o = Ret tt /\ alone home_config s')
  /\ (live_state (dns_after hard_day) <> None ->
      let '(s', o) := DnsMonitor_reset (set_faults [] (dns_after hard_day)) in o = Ret tt /\ alone home_config s')
  /\ live_state (dns_after hard_day) <> None
  /\ (let '(s', o) := DnsMonitor_reset (set_faults [] (dns_after fair_day)) in o = Ret tt /\ alone home_config s').
Proof.
  destruct (user_dns_restored show_ip home home_config tt hard_day) as [H1 H2].
  - reflexivity.
  - split; [|right]; repeat constructor.
  - split; [exact H1|]. split; [exact H2|]. split; [vm_compute; discriminate|].
    destruct (user_dns_restored show_ip home home_config tt fair_day) as [_ H3].
    + reflexivity.
    + split; [|left]; repeat constructor.
    + apply H3. vm_compute. discriminate.
Defined.

(** Another program writes before and after the settings are changed. *)
Definition busy_morning : list (@DnsEvent (list Line)) :=
  [set_event 1; WatchEvent; Rewritten [server 7; OtherLine 2]; set_event 2].
Definition busy_evening : list (@DnsEvent (list Line)) := [DroppedEvent 0; Rewritten [OtherLine 3; server 7]].

Lemma servers_enforced_witness :
  let s := dns_run show_ip (map quietly busy_evening) (dns_run show_ip (map quietly busy_morning) ex_start) in
  exists n, n <= S (pending s) /\
    let s' := dns_run show_ip (map quietly (repeat WatchEvent n)) s in
    parsed (resolv_conf s') = Some {| ex_servers := [ScopedIp_from (ip 2)]; ex_rest := [3] |}
    /\ parsed (backup_file s') = Some {| ex_servers := [ScopedIp_from (ip 7)]; ex_rest := [3] |}.
Proof.
  intros s.
  destruct (servers_enforced show_ip home tt busy_morning busy_evening {| rs_backup := home_config; desired_dns := [ip 2] |}
              {| ex_servers := [ScopedIp_from (ip 2)]; ex_rest := [1] |}) as (servers & n & st' & Ha & Hn & _ & _ & Hr & Hb & Hw).
  - eexists. reflexivity.
  - repeat constructor; eexists; reflexivity.
  - reflexivity.
  - vm_compute. reflexivity.
  - vm_compute. reflexivity.
  - vm_compute in Ha. injection Ha as <-. exists n. split; [exact Hn|]. cbv zeta. split; [exact Hr|].
    rewrite Hw in Hb; [exact Hb|reflexivity|]. vm_compute. discriminate.
Defined.

(** ** What is not promised *)
Definition on_disk (s : @Sys (list Line) ExConfig unit unit) : option (list Line) * option (list Line) := (resolv_conf s, backup_file s).
Definition ok_then (f : @Fault (list Line)) (n : nat) : list (option (@Fault (list Line))) := repeat None n ++ [Some f].

(** The backup is not written atomically.  If the daemon ends when it has been opened, the next one restores an
    empty backup over the user's file. *)
Theorem half_a_backup_is_restored :
  on_disk (dns_after [(set_event 1, ok_then (EndsLeaving (Some [])) 3); (set_event 1, [])]) = (Some [server 1], Some []).
Proof. by vm_compute. Qed.

(** If it ends in the middle of a line, the backup cannot be parsed, and name servers can never be set again. *)
Definition broken : @Sys (list Line) ExConfig unit unit := dns_after [(set_event 1, ok_then (EndsLeaving (Some [Garbage])) 3)].
Theorem broken_backup_stays config l :
  let '(s, o) := DnsMonitor_set show_ip "wg0-mullvad" config (set_faults (repeat None l) broken) in
  o = Throw (StaticResolvConfDns (ParseError RESOLV_CONF_BACKUP_PATH)) /\ on_disk s = on_disk broken.
Proof. destruct config as [[|a t] r]; destruct l as [|l]; by vm_compute. Qed.

(** The daemon that starts after a crash leaves the tunnel's name servers in place until it sets others. *)
Theorem crash_keeps_tunnel_dns :
  on_disk (dns_after [(set_event 1, []); (Killed, []); (DnsReset, [])]) = (Some [server 1; OtherLine 1], Some home).
Proof. by vm_compute. Qed.

(** Another program replaces the file, as editors and DHCP clients do, by renaming a new one.  That is overwritten
    once; the next change is never noticed. *)
Definition elsewhere (n : nat) : list Line := [server 7; OtherLine n].
Theorem replaced_file_is_not_watched n :
  on_disk (dns_after ([(set_event 1, []); (WatchEvent, []); (Replaced (elsewhere 2), []); (WatchEvent, []);
                       (Rewritten (elsewhere 3), [])] ++ repeat (WatchEvent, []) n)) = (Some (elsewhere 3), Some home).
Proof.
  unfold dns_after, dns_run. rewrite foldl_app.
  match goal with |- on_disk (foldl _ ?s _) = _ => assert (Hs : dns_step show_ip WatchEvent [] s = s) by (by vm_compute); remember s as s0 eqn:E0 end.
  induction n as [|n IH]; [by rewrite E0; vm_compute|]. cbn [repeat foldl fst snd].
  replace (dns_step _ _ _ s0) with s0 by (symmetry; exact Hs). exact IH.
Qed.

(** That the backup could not be removed is ignored; it is restored later, over what the user has now. *)
Theorem stale_backup_is_restored :
  on_disk (dns_after [(set_event 1, []); (DnsReset, ok_then Fails 1); (Rewritten (elsewhere 2), []);
                      (set_event 1, []); (WatchEvent, []); (DnsReset, [])]) = (Some home, None).
Proof. by vm_compute. Qed.

(** Without a file, name servers cannot be set, although [read_config] has a configuration for that case. *)
Theorem missing_file_fails config l :
  let s := dns_after [(Deleted, [])] in
  (DnsMonitor_set show_ip "wg0-mullvad" config (set_faults (repeat None l) s)).2 = Throw (StaticResolvConfDns WatchResolvConf)
  /\ (read_config s).2 = Ret Config_new.
Proof. destruct config as [[|a t] r]; destruct l as [|[|l]]; by vm_compute. Qed.

(** A write that fails half way leaves a watcher with a state behind, which takes what was written for the
    user's file and makes a backup of it. *)
Theorem failed_write_loses_backup :
  on_disk (dns_after [(set_event 1, ok_then (FailsLeaving (Some [])) 4); (DroppedEvent 0, []); (DroppedEvent 0, [])])
  = (Some [server 1], Some []).
Proof. by vm_compute. Qed.

(** Even if writes are atomic: the write of the first servers fails, and the watcher that was left behind overwrites
    the second ones before it notices that it was dropped.  What it wrote is then taken for the user's. *)
Theorem dropped_watcher_loses_dns :
  on_disk (dns_after [(set_event 1, ok_then Fails 4); (set_event 2, []); (DroppedEvent 0, []); (WatchEvent, []); (WatchEvent, []);
                      (WatchEvent, []); (DnsReset, [])]) = (Some [server 1; OtherLine 1], None).
Proof. by vm_compute. Qed.

(** A change to the name servers that is written just before a reset is lost. *)
Theorem change_before_reset_is_lost :
  on_disk (dns_after [(set_event 1, []); (WatchEvent, []); (Rewritten (elsewhere 2), []); (DnsReset, [])]) = (Some home, None).
Proof. by vm_compute. Qed.

(** ** Detection *)

(** Services where NetworkManager can be used, and the process id of dnsmasq is written as dnsmasq writes it,
    with a newline. *)
Definition with_nm (module : option string) : DnsServices unit unit := {|
  TALPID_DNS_MODULE := module;
  DbusInterface_new w := (w, false);
  if_nametoindex _ _ := None;
  disable_dot _ w := (w, false);
  set_domains _ _ w := (w, false);
  resolved_set_dns _ _ w := (w, false);
  DBus_new w := (w, true);
  ensure_can_be_used_to_manage_dns w := (w, true);
  nm_set_dns _ _ w := (w, Some tt);
  fetch_device _ w := (w, Err DeviceNotFound);
  device_ready _ w := (w, Some true);
  reapply_settings _ _ w := (w, true);
  which_resolvconf _ := Some "/sbin/resolvconf"%string;
  read_link _ _ := None;
  dnsmasq_pid _ := Some (String.append "1234" newline);
  proc_exists pid _ := bool_decide (pid = "1234"%string);
  dnsmasq_lines _ := ["no-resolv"%string];
  canonicalize_resolv_conf _ := Some ["run"; "resolvconf"; "resolv.conf"]%string;
  run_resolvconf _ _ _ w := (w, Some true);
|}.

(** [will_use_nm] does not consider the variable that chooses another monitor. *)
Theorem nm_despite_module :
  (@will_use_nm _ _ _ _ (with_nm (Some "static-file"%string)) ex_start).2 = Ret true
  /\ (@DnsMonitorHolder_new _ _ _ _ _ (with_nm (Some "static-file"%string)) ex_start).2 = Ret HolderStaticResolvConf.
Proof. by vm_compute. Qed.

(** dnsmasq runs, and is configured to ignore resolvconf, but it is not found; nor is the link to
    [/run/resolvconf] what [/var/run/resolvconf] is where that is a link itself. *)
Theorem resolvconf_not_detected :
  @is_dnsmasq_running _ _ (with_nm None) tt = false
  /\ @check_if_resolvconf_is_symlinked_correctly _ _ (with_nm None) tt = false
  /\ (@Resolvconf_new (list Line) ExConfig _ _ _ (with_nm None) ex_start).2 = Throw ResolvconfNotInUse.
Proof. by vm_compute. Qed.
