(* ===== verification/ProtoSettings.v ===== *)
(** * What clients send and are sent: the settings

    [src/mullvad-management-interface/src/types/conversions/]: the conversions between the messages of
    [src/mullvad-management-interface/proto/management_interface.proto] and the daemon's own types, as far as
    settings are made of them: addresses and proxies ([net.rs]), [relay_constraints.rs], [custom_list.rs],
    [custom_tunnel.rs], [access_method.rs], [wireguard.rs] and [settings.rs] in the Linux build.

    A message is a record: an optional message or scalar is an [option], a repeated one a list, and an
    enumeration is the number that was sent.  Keys are the bytes themselves. *)

From stdpp Require Import base list strings gmap option numbers sets.
From S2P Require Import Prelude Migrations Retry DeviceService DeviceManager AccessMethods NetTypes TunnelTypes FirewallPolicy.
From S2P Require Import RelayTypes RelaySelector Settings ParametersGenerator.
Local Open Scope vpn_scope.

(** ** Texts and durations

    How addresses, networks and identifiers are written and read: [Display] and [FromStr] of the standard
    library, [ipnetwork], [uuid], [shadowsocks_crypto] and the durations of [prost_types]. *)
Record PDuration : Type := { seconds : Z; nanos : Z }.

Class Formats : Type := {
  show_ipv4 : Z -> string;
  parse_ipv4 : string -> option Z;
  show_ipv6 : Z -> string;
  parse_ipv6 : string -> option Z;
  show_ip : IpAddr -> string;
  parse_ip : string -> option IpAddr;
  show_socket : SocketAddr -> string;
  parse_socket : string -> option SocketAddr;
  show_network : IpNetwork -> string;
  parse_network : string -> option IpNetwork;
  (** [IpNetwork::network]: the address without its host part. *)
  network_address : IpNetwork -> IpAddr;
  trim : string -> string;
  show_list_id : Z -> string;
  parse_list_id : string -> option Z;
  show_method_id : nat -> string;
  parse_method_id : string -> option nat;
  (** The name of a cipher as it is known. *)
  parse_cipher : string -> option string;
  duration_of_std : Z -> option PDuration;
  std_of_duration : PDuration -> option Z;
}.

(** The values of the Rust types. *)
Definition ipv4_ok (a : Z) : Prop := (0 <= a < 2 ^ 32)%Z.
Definition ipv6_ok (a : Z) : Prop := (0 <= a < 2 ^ 128)%Z.
Definition ip_ok (a : IpAddr) : Prop := match a with V4 a => ipv4_ok a | V6 a => ipv6_ok a end.
Definition u16_ok (n : Z) : Prop := (0 <= n < 2 ^ 16)%Z.
Definition socket_ok (a : SocketAddr) : Prop := ip_ok (sa_ip a) /\ u16_ok (sa_port a).
Definition network_ok (n : IpNetwork) : Prop := ip_ok (net_ip n) /\ (0 <= net_prefix n <= addr_bits (net_ip n))%Z.

(** The address with the bits after the prefix cleared. *)
Definition network_of (n : IpNetwork) : IpAddr :=
  let clear a := Z.land a (Z.shiftl (Z.ones (net_prefix n)) (addr_bits (net_ip n) - net_prefix n)) in
  match net_ip n with V4 a => V4 (clear a) | V6 a => V6 (clear a) end.

(** What is written can be read, and a network is written without space around it. *)
Class FormatsLaws `{Formats} : Prop := {
  parse_show_ipv4 a : ipv4_ok a -> parse_ipv4 (show_ipv4 a) = Some a;
  parse_show_ipv6 a : ipv6_ok a -> parse_ipv6 (show_ipv6 a) = Some a;
  parse_show_ip a : ip_ok a -> parse_ip (show_ip a) = Some a;
  parse_show_socket a : socket_ok a -> parse_socket (show_socket a) = Some a;
  parse_show_network n : network_ok n -> parse_network (show_network n) = Some n;
  trim_network n : network_ok n -> trim (show_network n) = show_network n;
  show_network_nonempty n : network_ok n -> show_network n <> EmptyString;
  network_address_spec n : network_ok n -> network_address n = network_of n;
  parse_show_list_id i : parse_list_id (show_list_id i) = Some i;
  parse_show_method_id i : parse_method_id (show_method_id i) = Some i;
  (** [prost_types] keeps a duration of less than 2^63 seconds. *)
  duration_round_trip d :
    (0 <= d < 2 ^ 63 * 10 ^ 9)%Z -> exists p, duration_of_std d = Some p /\ std_of_duration p = Some d;
}.

(** ** Errors *)
Inductive FromProtobufTypeError : Type := InvalidArgument (message : string).
Definition invalid_argument (message : string) : FromProtobufTypeError := InvalidArgument message.
Notation converted A := (result A FromProtobufTypeError).

Definition ok_or {A} (x : option A) (message : string) : converted A :=
  match x with Some a => Ok a | None => Err (invalid_argument message) end.

(** [map(f).transpose()]. *)
Definition try_option {A B} (f : A -> converted B) (x : option A) : converted (option B) :=
  match x with Some a => b <-? f a; Ok (Some b) | None => Ok None end.

(** [map(f).collect::<Result<Vec<_>, _>>()]. *)
Fixpoint try_map {A B} (f : A -> converted B) (l : list A) : converted (list B) :=
  match l with
  | [] => Ok []
  | a :: l => b <-? f a; l <-? try_map f l; Ok (b :: l)
  end.

Definition WG_KEY_SIZE : nat := 32.
Definition bytes_to_wg_key (bytes error_msg : string) : converted string :=
  if (String.length bytes =? WG_KEY_SIZE)%nat then Ok bytes else Err (invalid_argument error_msg).
Definition bytes_to_pubkey (bytes : string) : converted string := bytes_to_wg_key bytes "invalid public key".
Definition bytes_to_privkey (bytes : string) : converted string := bytes_to_wg_key bytes "invalid private key".

Definition arg_from_str {T} (from_str : string -> option T) (s invalid_arg_msg : string) : converted T :=
  ok_or (from_str s) invalid_arg_msg.

(** ** Enumerations

    The numbers of an enumeration's values with the values they are converted to and from. *)
Class ProtoEnum (A : Type) : Type := enum_values : list (Z * A).
Definition of_i32 {A} `{ProtoEnum A} (n : Z) : option A := snd <$> List.find (fun p => (p.1 =? n)%Z) enum_values.
Definition to_i32 {A} `{ProtoEnum A} `{EqDecision A} (a : A) : Z :=
  match List.find (fun p => bool_decide (p.2 = a)) enum_values with Some p => p.1 | None => 0%Z end.

#[global] Instance PTransportProtocol : ProtoEnum TransportProtocol := [(0, Udp); (1, Tcp)]%Z.
#[global] Instance PIpVersion : ProtoEnum IpVersion := [(0, IpVersion_V4); (1, IpVersion_V6)]%Z.
#[global] Instance PObfuscationType : ProtoEnum ObfuscationType :=
  [(0, TypeUdp2Tcp); (1, TypeShadowsocks); (2, TypeQuic); (3, TypeLwo)]%Z.
#[global] Instance POwnership : ProtoEnum (Constraint Ownership) :=
  [(0, Any); (1, Only MullvadOwned); (2, Only Rented)]%Z.
#[global] Instance PSelectedObfuscation : ProtoEnum SelectedObfuscation :=
  [(0, SelAuto); (1, SelOff); (2, SelWireguardPort); (3, SelUdp2Tcp); (4, SelShadowsocks); (5, SelQuic); (6, SelLwo)]%Z.
#[global] Instance PQuantumResistantState : ProtoEnum QuantumResistantState := [(0, QrOn); (1, QrOff)]%Z.
#[global] Instance PDnsState : ProtoEnum DnsState := [(0, DnsStateDefault); (1, DnsStateCustom)]%Z.

#[global] Instance ConstraintOwnership_eq_dec : EqDecision (Constraint Ownership).
Proof. solve_decision. Defined.

(** [port as u16]. *)
Definition as_u16 (n : Z) : Z := Z.modulo n (2 ^ 16).

(** [Constraint::from]. *)
Definition constraint_from {T} (x : option T) : Constraint T := match x with Some t => Only t | None => Any end.

(** ** [net.rs] *)
Definition try_transport_protocol_from_i32 (protocol : Z) : converted TransportProtocol :=
  ok_or (of_i32 protocol) "invalid transport protocol".

(** *** Proxies ([src/talpid-types/src/net/proxy.rs]) *)
Record ShadowsocksProxy : Type := { ss_endpoint : SocketAddr; ss_password : string; ss_cipher : string }.
Record Socks5Local : Type := { remote_endpoint : Endpoint; local_port : Z }.
Record SocksAuth : Type := { username : string; password : string }.
Record Socks5Remote : Type := { s5_endpoint : SocketAddr; auth : option SocksAuth }.
Inductive CustomProxy : Type :=
| ProxyShadowsocks (s : ShadowsocksProxy)
| ProxySocks5Local (s : Socks5Local)
| ProxySocks5Remote (s : Socks5Remote).
#[global] Instance CustomProxy_eq_dec : EqDecision CustomProxy.
Proof.
  assert (EqDecision ShadowsocksProxy) by solve_decision. assert (EqDecision Socks5Local) by solve_decision.
  assert (EqDecision SocksAuth) by solve_decision. assert (EqDecision Socks5Remote) by solve_decision. solve_decision.
Defined.

Definition credential_ok (s : string) : bool := (1 <=? String.length s)%nat && (String.length s <=? 255)%nat.
Definition SocksAuth_new (username password : string) : option SocksAuth :=
  if negb (credential_ok password) then None
  else if negb (credential_ok username) then None
  else Some {| username := username; password := password |}.

Inductive ProxyType : Type := ProxyIsShadowsocks | ProxyIsCustom.
Record ProxyEndpoint : Type := { pe_endpoint : Endpoint; proxy_type : ProxyType }.
Definition get_remote_endpoint (p : CustomProxy) : ProxyEndpoint :=
  match p with
  | ProxySocks5Local settings => {| pe_endpoint := remote_endpoint settings; proxy_type := ProxyIsCustom |}
  | ProxySocks5Remote settings =>
      {| pe_endpoint := {| address := s5_endpoint settings; protocol := Tcp |}; proxy_type := ProxyIsCustom |}
  | ProxyShadowsocks settings =>
      {| pe_endpoint := {| address := ss_endpoint settings; protocol := Tcp |}; proxy_type := ProxyIsShadowsocks |}
  end.

Record PShadowsocks : Type := { psh_ip : string; psh_port : Z; psh_password : string; psh_cipher : string }.
Record PSocks5Local : Type := {
  psl_remote_ip : string; psl_remote_port : Z; psl_remote_transport_protocol : Z; psl_local_port : Z
}.
Record PSocksAuth : Type := { psa_username : string; psa_password : string }.
Record PSocks5Remote : Type := { psr_ip : string; psr_port : Z; psr_auth : option PSocksAuth }.
Inductive PProxyMethod : Type := PMSocks5local (s : PSocks5Local) | PMSocks5remote (s : PSocks5Remote) | PMShadowsocks (s : PShadowsocks).
Record PCustomProxy : Type := { proxy_method : option PProxyMethod }.

Section conversions.
Context `{Formats}.

Definition Shadowsocks_try_from (value : PShadowsocks) : converted ShadowsocksProxy :=
  ip <-? ok_or (parse_ip (psh_ip value)) "Could not parse Shadowsocks message from protobuf";
  cipher <-? ok_or (parse_cipher (psh_cipher value)) (String.append "invalid shadowsocks cipher: " (psh_cipher value));
  Ok {| ss_endpoint := {| sa_ip := ip; sa_port := as_u16 (psh_port value) |}; ss_cipher := cipher;
        ss_password := psh_password value |}.

Definition Socks5Local_try_from (value : PSocks5Local) : converted Socks5Local :=
  remote_ip <-? ok_or (parse_ip (psl_remote_ip value)) "Could not parse Socks5 (local) message from protobuf";
  protocol <-? try_transport_protocol_from_i32 (psl_remote_transport_protocol value);
  Ok {| remote_endpoint :=
          {| address := {| sa_ip := remote_ip; sa_port := as_u16 (psl_remote_port value) |}; protocol := protocol |};
        local_port := as_u16 (psl_local_port value) |}.

Definition SocksAuth_try_from (value : PSocksAuth) : converted SocksAuth :=
  ok_or (SocksAuth_new (psa_username value) (psa_password value))
    "Failed to parse Socks5 with authentication. Make sure the credentials are valid.".

Definition Socks5Remote_try_from (value : PSocks5Remote) : converted Socks5Remote :=
  ip <-? ok_or (parse_ip (psr_ip value)) "Could not parse Socks5 (remote) message from protobuf";
  let endpoint := {| sa_ip := ip; sa_port := as_u16 (psr_port value) |} in
  match psr_auth value with
  | Some credentials => auth <-? SocksAuth_try_from credentials; Ok {| s5_endpoint := endpoint; auth := Some auth |}
  | None => Ok {| s5_endpoint := endpoint; auth := None |}
  end.

Definition CustomProxy_try_from (value : PCustomProxy) : converted CustomProxy :=
  match proxy_method value with
  | Some (PMSocks5local local) => s <-? Socks5Local_try_from local; Ok (ProxySocks5Local s)
  | Some (PMSocks5remote remote) => s <-? Socks5Remote_try_from remote; Ok (ProxySocks5Remote s)
  | Some (PMShadowsocks shadowsocks) => s <-? Shadowsocks_try_from shadowsocks; Ok (ProxyShadowsocks s)
  | None => Err (invalid_argument "CustomProxy missing proxy_method field")
  end.

Definition from_Shadowsocks (value : ShadowsocksProxy) : PShadowsocks :=
  {| psh_ip := show_ip (sa_ip (ss_endpoint value)); psh_port := sa_port (ss_endpoint value);
     psh_password := ss_password value; psh_cipher := ss_cipher value |}.
Definition from_Socks5Local (value : Socks5Local) : PSocks5Local :=
  {| psl_remote_ip := show_ip (sa_ip (address (remote_endpoint value)));
     psl_remote_port := sa_port (address (remote_endpoint value));
     psl_remote_transport_protocol := to_i32 (protocol (remote_endpoint value));
     psl_local_port := local_port value |}.
Definition from_SocksAuth (value : SocksAuth) : PSocksAuth :=
  {| psa_username := username value; psa_password := password value |}.
Definition from_Socks5Remote (value : Socks5Remote) : PSocks5Remote :=
  {| psr_ip := show_ip (sa_ip (s5_endpoint value)); psr_port := sa_port (s5_endpoint value);
     psr_auth := from_SocksAuth <$> auth value |}.
Definition from_CustomProxy (value : CustomProxy) : PCustomProxy :=
  {| proxy_method := Some match value with
                     | ProxyShadowsocks config => PMShadowsocks (from_Shadowsocks config)
                     | ProxySocks5Local config => PMSocks5local (from_Socks5Local config)
                     | ProxySocks5Remote config => PMSocks5remote (from_Socks5Remote config)
                     end |}.
End conversions.

(** ** Allowed addresses ([allowed_ip] of [src/mullvad-types/src/relay_constraints.rs]) *)
Definition allow_all_ips : list IpNetwork := [v4 0 0; v6 0 0].

Inductive AllowedIpParseError : Type := ParseNetwork | NonZeroHostBits (n : IpNetwork) (network : IpAddr).

Definition to_constraint (ips : list IpNetwork) : Constraint (list IpNetwork) :=
  if bool_decide (ips = []) then Any else Only ips.

Definition resolve (ips : list IpNetwork) (host_ipv4 host_ipv6 : option Z) : list IpNetwork :=
  ips ++ match host_ipv6 with Some a => [v6 a 128] | None => [] end
      ++ match host_ipv4 with Some a => [v4 a 32] | None => [] end.

Definition resolve_from_constraint (allowed_ips : Constraint (list IpNetwork)) (host_ipv4 host_ipv6 : option Z) : list IpNetwork :=
  resolve match allowed_ips with
          | Any => allow_all_ips
          | Only ips => if bool_decide (ips = []) then allow_all_ips else ips
          end host_ipv4 host_ipv6.

(** ** Messages *)
Record PGeographicLocationConstraint : Type := { pg_country : string; pg_city : option string; pg_hostname : option string }.
(** The fields of a [oneof]. *)
Inductive PLocationType : Type := PLocation (l : PGeographicLocationConstraint) | PCustomListId (i : string).
Record PLocationConstraint : Type := { location_type : option PLocationType }.

Record PPort : Type := { pp_port : option Z }.
Record PObfuscationSettings : Type := {
  po_selected_obfuscation : Z; po_udp2tcp : option PPort; po_shadowsocks : option PPort;
  po_wireguard_port : option PPort; po_lwo : option PPort;
}.

Record PWireguardConstraints : Type := {
  pw_ip_version : option Z; pw_allowed_ips : list string; pw_use_multihop : bool;
  pw_entry_location : option PLocationConstraint; pw_entry_providers : list string; pw_entry_ownership : Z;
}.
Record PNormalRelaySettings : Type := {
  pn_location : option PLocationConstraint; pn_providers : list string;
  pn_wireguard_constraints : option PWireguardConstraints; pn_ownership : Z;
}.
Record PTunnelConfig : Type := { pt_private_key : string; pt_addresses : list string }.
Record PPeerConfig : Type := { pe_public_key : string; pe_allowed_ips : list string; pe_peer_endpoint : string }.
Record PWireguardConfig : Type := {
  pc_tunnel : option PTunnelConfig; pc_peer : option PPeerConfig; pc_ipv4_gateway : string; pc_ipv6_gateway : option string;
}.
Record PCustomRelaySettings : Type := { pcr_host : string; pcr_config : option PWireguardConfig }.
Inductive PEndpointType : Type := PCustom (c : PCustomRelaySettings) | PNormal (n : PNormalRelaySettings).
Record PRelaySettings : Type := { endpoint_type : option PEndpointType }.
Record PRelayOverride : Type := { pv_hostname : string; pv_ipv4_addr_in : option string; pv_ipv6_addr_in : option string }.

Record PCustomList : Type := { pl_id : string; pl_name : string; pl_locations : list PGeographicLocationConstraint }.
Record PCustomListSettings : Type := { pl_custom_lists : list PCustomList }.

Inductive PAccessMethodType : Type :=
| PDirect | PBridges | PEncryptedDnsProxy | PCustomMethod (p : PCustomProxy) | PDomainFronting.
Record PAccessMethod : Type := { access_method_type : option PAccessMethodType }.
Record PAccessMethodSetting : Type := {
  pm_id : option string; pm_name : string; pm_enabled : bool; pm_access_method : option PAccessMethod
}.
Record PApiAccessMethodSettings : Type := {
  pa_direct : option PAccessMethodSetting; pa_mullvad_bridges : option PAccessMethodSetting;
  pa_encrypted_dns_proxy : option PAccessMethodSetting; pa_domain_fronting : option PAccessMethodSetting;
  pa_custom : list PAccessMethodSetting;
}.

Record PDaitaSettings : Type := { pd_enabled : bool; pd_direct_only : bool }.
Record PDnsOptions : Type := {
  pdns_state : Z; pdns_default_options : option DefaultDnsOptions; pdns_custom_options : option (list string)
}.
Record PTunnelOptions : Type := {
  pto_mtu : option Z; pto_rotation_interval : option PDuration; pto_quantum_resistant : option Z;
  pto_daita : option PDaitaSettings; pto_enable_ipv6 : bool; pto_dns_options : option PDnsOptions; pto_userspace : bool;
}.
Inductive PRecentType : Type :=
| PSinglehop (l : PLocationConstraint) | PMultihop (entry exit : option PLocationConstraint).
Record PSettings : Type := {
  ps_relay_settings : option PRelaySettings; ps_allow_lan : bool; ps_lockdown_mode : bool; ps_auto_connect : bool;
  ps_tunnel_options : option PTunnelOptions; ps_show_beta_releases : bool;
  ps_obfuscation_settings : option PObfuscationSettings; ps_custom_lists : option PCustomListSettings;
  ps_api_access_methods : option PApiAccessMethodSettings; ps_relay_overrides : list PRelayOverride;
  ps_recents : option (list PRecentType); ps_update_default_location : bool;
}.

Notation DaemonSettings := (Settings.Settings CustomProxy).
Notation AccessSettings := (@AccessMethods.Settings CustomProxy).
Notation AccessMethodSetting := (@AccessMethods.AccessMethodSetting CustomProxy).
Notation AccessMethod := (@AccessMethods.AccessMethod CustomProxy).

(** ** [BTreeSet]

    The order that is derived for locations, and collecting into a set. *)
Definition geo_cmp (a b : GeographicLocationConstraint) : comparison :=
  match a, b with
  | Country a, Country b => String.compare a b
  | Country _, _ => Lt
  | City _ _, Country _ => Gt
  | City a c, City b d => lexico (String.compare a b) (String.compare c d)
  | City _ _, Hostname _ _ _ => Lt
  | Hostname a c e, Hostname b d f => lexico (String.compare a b) (lexico (String.compare c d) (String.compare e f))
  | Hostname _ _ _, _ => Gt
  end.
Fixpoint set_insert (x : GeographicLocationConstraint) (l : list GeographicLocationConstraint) : list GeographicLocationConstraint :=
  match l with
  | [] => [x]
  | y :: l => match geo_cmp x y with Lt => x :: y :: l | Eq => y :: l | Gt => y :: set_insert x l end
  end.
Definition btree_set (l : list GeographicLocationConstraint) : list GeographicLocationConstraint := foldr set_insert [] l.

Section settings.
Context `{Formats}.

Fixpoint parse_networks (l : list string) : result (list IpNetwork) AllowedIpParseError :=
  match l with
  | [] => Ok []
  | s :: l =>
      let s := trim s in
      if bool_decide (s <> EmptyString) then
        match parse_network s with
        | None => Err ParseNetwork
        | Some net =>
            if bool_decide (network_address net <> net_ip net) then Err (NonZeroHostBits net (network_address net))
            else networks <-? parse_networks l; Ok (net :: networks)
        end
      else parse_networks l
  end.

(** ** [relay_constraints.rs] *)
Definition GeographicLocationConstraint_try_from (relay_location : PGeographicLocationConstraint)
  : converted GeographicLocationConstraint :=
  match pg_country relay_location, pg_city relay_location, pg_hostname relay_location with
  | country, None, None => Ok (Country country)
  | country, Some city, None => Ok (City country city)
  | country, Some city, Some hostname => Ok (Hostname country city hostname)
  | _, None, Some _ => Err (invalid_argument "Relay location contains hostname but no city")
  end.

Definition from_GeographicLocationConstraint (location : GeographicLocationConstraint) : PGeographicLocationConstraint :=
  match location with
  | Country country => {| pg_country := country; pg_city := None; pg_hostname := None |}
  | City country city => {| pg_country := country; pg_city := Some city; pg_hostname := None |}
  | Hostname country city hostname => {| pg_country := country; pg_city := Some city; pg_hostname := Some hostname |}
  end.

Definition LocationConstraint_try_from (location : PLocationConstraint) : converted LocationConstraint :=
  match location_type location with
  | None => Err (invalid_argument "Type of location constraint was not provided")
  | Some (PLocation location) => l <-? GeographicLocationConstraint_try_from location; Ok (InLocation l)
  | Some (PCustomListId list_id) =>
      i <-? ok_or (parse_list_id list_id) "Id could not be parsed to a uuid"; Ok (InCustomList i)
  end.

Definition from_LocationConstraint (location : LocationConstraint) : PLocationConstraint :=
  {| location_type := Some match location with
                           | InLocation location => PLocation (from_GeographicLocationConstraint location)
                           | InCustomList list_id => PCustomListId (show_list_id list_id)
                           end |}.

(** [and_then(|loc| LocationConstraint::try_from(loc).ok()).into()]. *)
Definition location_or_any (location : option PLocationConstraint) : Constraint LocationConstraint :=
  constraint_from (l ← location; match LocationConstraint_try_from l with Ok l => Some l | Err _ => None end).

(** The set cannot be empty here. *)
Definition providers_constraint_from_proto (providers : list string) : Constraint Providers :=
  if bool_decide (providers = []) then Any else Only (list_to_set providers).
Definition convert_providers_constraint (providers : Constraint Providers) : list string :=
  match providers with Any => [] | Only providers => elements providers end.

Definition try_ownership_constraint_from_i32 (ownership : Z) : converted (Constraint Ownership) :=
  ok_or (of_i32 ownership) "invalid ownership argument".
Definition convert_ownership_constraint (ownership : Constraint Ownership) : Z := to_i32 ownership.

Definition WireguardConstraints_try_from (constraints : PWireguardConstraints) : converted WireguardConstraints :=
  ip_version <-? try_option (fun v => ok_or (of_i32 v) "invalid IP protocol version") (pw_ip_version constraints);
  allowed_ips <-? match parse_networks (pw_allowed_ips constraints) with
                  | Ok ips => Ok (to_constraint ips)
                  | Err _ => Err (invalid_argument "invalid allowed IPs")
                  end;
  entry_ownership <-? try_ownership_constraint_from_i32 (pw_entry_ownership constraints);
  Ok {| wc_ip_version := constraint_from ip_version; wc_allowed_ips := allowed_ips;
        use_multihop := pw_use_multihop constraints;
        entry_location := location_or_any (pw_entry_location constraints);
        entry_providers := providers_constraint_from_proto (pw_entry_providers constraints);
        entry_ownership := entry_ownership |}.

(** ** [custom_tunnel.rs] *)
Definition ConnectionConfig_try_from (config : PWireguardConfig) : converted ConnectionConfig :=
  tunnel <-? ok_or (pc_tunnel config) "missing tunnel config";
  private_key <-? bytes_to_privkey (pt_private_key tunnel);
  peer <-? ok_or (pc_peer config) "missing peer config";
  public_key <-? bytes_to_pubkey (pe_public_key peer);
  ipv4_gateway <-? ok_or (parse_ipv4 (pc_ipv4_gateway config)) "invalid IPv4 gateway";
  ipv6_gateway <-? try_option (fun addr => ok_or (parse_ipv6 addr) "invalid IPv6 gateway") (pc_ipv6_gateway config);
  endpoint <-? ok_or (parse_socket (pe_peer_endpoint peer)) "invalid peer address";
  tunnel_addresses <-? try_map (fun a => ok_or (parse_ip a) "invalid address") (pt_addresses tunnel);
  allowed_ips <-? try_map (fun a => ok_or (parse_network a) "invalid address") (pe_allowed_ips peer);
  Ok {| cc_tunnel := {| NetTypes.private_key := private_key; NetTypes.addresses := tunnel_addresses |};
        NetTypes.peer := {| NetTypes.public_key := public_key; NetTypes.allowed_ips := allowed_ips;
                            peer_endpoint := endpoint; psk := None; constant_packet_size := false |};
        exit_peer := None; cc_ipv4_gateway := ipv4_gateway; cc_ipv6_gateway := ipv6_gateway;
        cc_fwmark := Some TUNNEL_FWMARK |}.

Definition from_ConnectionConfig (config : ConnectionConfig) : PWireguardConfig :=
  {| pc_tunnel := Some {| pt_private_key := NetTypes.private_key (cc_tunnel config);
                          pt_addresses := map show_ip (NetTypes.addresses (cc_tunnel config)) |};
     pc_peer := Some {| pe_public_key := NetTypes.public_key (peer config);
                        pe_allowed_ips := map show_network (NetTypes.allowed_ips (peer config));
                        pe_peer_endpoint := show_socket (peer_endpoint (peer config)) |};
     pc_ipv4_gateway := show_ipv4 (cc_ipv4_gateway config);
     pc_ipv6_gateway := show_ipv6 <$> cc_ipv6_gateway config |}.

(** *** Relay settings: the filters of the exit are also those of the entry *)
Definition with_entry_filters (ownership : Constraint Ownership) (providers : Constraint Providers) (c : WireguardConstraints)
  : WireguardConstraints :=
  {| wc_ip_version := wc_ip_version c; wc_allowed_ips := wc_allowed_ips c; use_multihop := use_multihop c;
     entry_location := entry_location c; entry_providers := providers; entry_ownership := ownership |}.

Definition RelaySettings_try_from (settings : PRelaySettings) : converted RelaySettings :=
  update_value <-? ok_or (endpoint_type settings) "missing relay settings";
  match update_value with
  | PCustom settings =>
      config <-? ok_or (pcr_config settings) "missing relay connection config";
      config <-? ConnectionConfig_try_from config;
      Ok (CustomEndpoint {| host := pcr_host settings; Settings.config := config |})
  | PNormal settings =>
      let location := location_or_any (pn_location settings) in
      let providers := providers_constraint_from_proto (pn_providers settings) in
      ownership <-? try_ownership_constraint_from_i32 (pn_ownership settings);
      constraints <-? ok_or (pn_wireguard_constraints settings) "missing wireguard constraints";
      constraints <-? WireguardConstraints_try_from constraints;
      Ok (Normal {| rc_location := location; rc_providers := providers; rc_ownership := ownership;
                    wireguard_constraints := with_entry_filters ownership providers constraints |})
  end.

Definition from_WireguardConstraints (c : WireguardConstraints) : PWireguardConstraints :=
  {| pw_ip_version := to_i32 <$> constraint_option (wc_ip_version c);
     pw_allowed_ips := map show_network (resolve_from_constraint (wc_allowed_ips c) None None);
     pw_use_multihop := use_multihop c;
     pw_entry_location := from_LocationConstraint <$> constraint_option (entry_location c);
     pw_entry_providers := convert_providers_constraint (entry_providers c);
     pw_entry_ownership := convert_ownership_constraint (entry_ownership c) |}.

Definition from_RelaySettings (settings : RelaySettings) : PRelaySettings :=
  {| endpoint_type := Some
       match settings with
       | CustomEndpoint endpoint =>
           PCustom {| pcr_host := host endpoint; pcr_config := Some (from_ConnectionConfig (Settings.config endpoint)) |}
       | Normal constraints =>
           PNormal {| pn_location := from_LocationConstraint <$> constraint_option (rc_location constraints);
                      pn_providers := convert_providers_constraint (rc_providers constraints);
                      pn_ownership := convert_ownership_constraint (rc_ownership constraints);
                      pn_wireguard_constraints := Some (from_WireguardConstraints (wireguard_constraints constraints)) |}
       end |}.

(** *** Obfuscation: the same for each kind of port settings *)
Definition PortSettings_try_from (settings : PPort) : PortSettings := {| port := constraint_from (as_u16 <$> pp_port settings) |}.
Definition from_PortSettings (settings : PortSettings) : PPort := {| pp_port := constraint_option (port settings) |}.

Definition ObfuscationSettings_try_from (settings : PObfuscationSettings) : converted ObfuscationSettings :=
  selected <-? ok_or (of_i32 (po_selected_obfuscation settings)) "invalid obfuscation settings";
  udp2tcp <-? ok_or (po_udp2tcp settings) "invalid udp2tcp settings";
  shadowsocks <-? ok_or (po_shadowsocks settings) "invalid shadowsocks settings";
  wireguard_port <-? ok_or (po_wireguard_port settings) "invalid Wireguard port";
  lwo <-? ok_or (po_lwo settings) "invalid LWO settings";
  Ok {| selected_obfuscation := selected; os_udp2tcp := PortSettings_try_from udp2tcp;
        os_shadowsocks := PortSettings_try_from shadowsocks; os_wireguard_port := PortSettings_try_from wireguard_port;
        os_lwo := PortSettings_try_from lwo |}.

Definition from_ObfuscationSettings (settings : ObfuscationSettings) : PObfuscationSettings :=
  {| po_selected_obfuscation := to_i32 (selected_obfuscation settings);
     po_udp2tcp := Some (from_PortSettings (os_udp2tcp settings));
     po_shadowsocks := Some (from_PortSettings (os_shadowsocks settings));
     po_wireguard_port := Some (from_PortSettings (os_wireguard_port settings));
     po_lwo := Some (from_PortSettings (os_lwo settings)) |}.

Definition RelayOverride_try_from (o : PRelayOverride) : converted RelayOverride :=
  ipv4 <-? try_option (fun a => ok_or (parse_ipv4 a) "invalid IPv4 address") (pv_ipv4_addr_in o);
  ipv6 <-? try_option (fun a => ok_or (parse_ipv6 a) "invalid IPv6 address") (pv_ipv6_addr_in o);
  Ok {| ov_hostname := pv_hostname o; ov_ipv4_addr_in := ipv4; ov_ipv6_addr_in := ipv6 |}.

Definition from_RelayOverride (o : RelayOverride) : PRelayOverride :=
  {| pv_hostname := ov_hostname o; pv_ipv4_addr_in := show_ipv4 <$> ov_ipv4_addr_in o;
     pv_ipv6_addr_in := show_ipv6 <$> ov_ipv6_addr_in o |}.

(** ** [custom_list.rs] *)
Definition CustomList_try_from (custom_list : PCustomList) : converted CustomList :=
  locations <-? try_map GeographicLocationConstraint_try_from (pl_locations custom_list);
  i <-? ok_or (parse_list_id (pl_id custom_list)) "Invalid list ID";
  Ok {| cl_id := i; cl_name := pl_name custom_list; cl_locations := btree_set locations |}.

Definition from_CustomList (custom_list : CustomList) : PCustomList :=
  {| pl_id := show_list_id (cl_id custom_list); pl_name := cl_name custom_list;
     pl_locations := map from_GeographicLocationConstraint (cl_locations custom_list) |}.

Definition CustomListsSettings_try_from (settings : PCustomListSettings) : converted CustomListsSettings :=
  try_map CustomList_try_from (pl_custom_lists settings).
Definition from_CustomListsSettings (settings : CustomListsSettings) : PCustomListSettings :=
  {| pl_custom_lists := map from_CustomList settings |}.

(** ** [access_method.rs] *)
Definition AccessMethod_try_from (value : PAccessMethod) : converted AccessMethod :=
  access_method <-? ok_or (access_method_type value) "Could not deserialize Access Method from protobuf";
  match access_method with
  | PDirect => Ok (BuiltIn DirectMethod)
  | PBridges => Ok (BuiltIn Bridge)
  | PEncryptedDnsProxy => Ok (BuiltIn EncryptedDnsProxy)
  | PDomainFronting => Ok (BuiltIn DomainFronting)
  | PCustomMethod custom => proxy <-? CustomProxy_try_from custom; Ok (Custom proxy)
  end.

Definition from_AccessMethod (value : AccessMethod) : PAccessMethod :=
  {| access_method_type := Some match value with
                                | Custom value => PCustomMethod (from_CustomProxy value)
                                | BuiltIn DirectMethod => PDirect
                                | BuiltIn Bridge => PBridges
                                | BuiltIn EncryptedDnsProxy => PEncryptedDnsProxy
                                | BuiltIn DomainFronting => PDomainFronting
                                end |}.

Definition MethodId_try_from (value : string) : converted nat :=
  ok_or (parse_method_id value) "Could not parse UUID message from protobuf".

Definition AccessMethodSetting_try_from (value : PAccessMethodSetting) : converted AccessMethodSetting :=
  i <-? ok_or (pm_id value) "Could not deserialize Access Method from protobuf";
  i <-? MethodId_try_from i;
  access_method <-? ok_or (pm_access_method value) "Could not deserialize Access Method from protobuf";
  access_method <-? AccessMethod_try_from access_method;
  Ok {| AccessMethods.id := i; AccessMethods.name := pm_name value; AccessMethods.enabled := pm_enabled value;
        AccessMethods.access_method := access_method |}.

Definition from_AccessMethodSetting (value : AccessMethodSetting) : PAccessMethodSetting :=
  {| pm_id := Some (show_method_id (AccessMethods.id value)); pm_name := AccessMethods.name value;
     pm_enabled := AccessMethods.enabled value; pm_access_method := Some (from_AccessMethod (AccessMethods.access_method value)) |}.

Definition AccessSettings_try_from (settings : PApiAccessMethodSettings) : converted AccessSettings :=
  direct <-? ok_or (pa_direct settings) "Could not deserialize Direct Access Method from protobuf";
  direct <-? AccessMethodSetting_try_from direct;
  mullvad_bridges <-? ok_or (pa_mullvad_bridges settings) "Could not deserialize Mullvad Bridges Access Method from protobuf";
  mullvad_bridges <-? AccessMethodSetting_try_from mullvad_bridges;
  encrypted_dns_proxy <-? ok_or (pa_encrypted_dns_proxy settings)
                           "Could not deserialize Encrypted DNS proxy Access Method from protobuf";
  encrypted_dns_proxy <-? AccessMethodSetting_try_from encrypted_dns_proxy;
  domain_fronting <-? ok_or (pa_domain_fronting settings) "Could not deserialize Domain fronting Access Method from protobuf";
  domain_fronting <-? AccessMethodSetting_try_from domain_fronting;
  custom <-? try_map AccessMethodSetting_try_from (pa_custom settings);
  Ok {| AccessMethods.direct := direct; AccessMethods.mullvad_bridges := mullvad_bridges;
        AccessMethods.encrypted_dns_proxy := encrypted_dns_proxy; AccessMethods.domain_fronting := domain_fronting;
        AccessMethods.custom := custom |}.

Definition from_AccessSettings (settings : AccessSettings) : PApiAccessMethodSettings :=
  {| pa_direct := Some (from_AccessMethodSetting (AccessMethods.direct settings));
     pa_mullvad_bridges := Some (from_AccessMethodSetting (AccessMethods.mullvad_bridges settings));
     pa_encrypted_dns_proxy := Some (from_AccessMethodSetting (AccessMethods.encrypted_dns_proxy settings));
     pa_domain_fronting := Some (from_AccessMethodSetting (AccessMethods.domain_fronting settings));
     pa_custom := map from_AccessMethodSetting (AccessMethods.custom settings) |}.

(** ** [wireguard.rs] *)
Definition QuantumResistantState_try_from (state : Z) : converted QuantumResistantState :=
  ok_or (of_i32 state) "invalid quantum resistance state".
Definition DaitaSettings_from (settings : PDaitaSettings) : DaitaSettings :=
  {| daita_on := pd_enabled settings; use_multihop_if_necessary := negb (pd_direct_only settings) |}.
Definition from_DaitaSettings (settings : DaitaSettings) : PDaitaSettings :=
  {| pd_enabled := daita_on settings; pd_direct_only := negb (use_multihop_if_necessary settings) |}.

(** ** [settings.rs] *)
Definition DnsOptions_try_from (options : PDnsOptions) : converted DnsOptions :=
  state <-? ok_or (of_i32 (pdns_state options)) "invalid DNS options state";
  default_options <-? ok_or (pdns_default_options options) "missing default DNS options";
  custom_options <-? ok_or (pdns_custom_options options) "missing default DNS options";
  addresses <-? try_map (fun a => ok_or (parse_ip a) "invalid IP address") custom_options;
  Ok {| dns_state := state; Settings.default_options := default_options; custom_addresses := addresses |}.

Definition from_DnsOptions (options : DnsOptions) : PDnsOptions :=
  {| pdns_state := to_i32 (dns_state options); pdns_default_options := Some (Settings.default_options options);
     pdns_custom_options := Some (map show_ip (custom_addresses options)) |}.

Definition RotationInterval_try_from (ivl : PDuration) : converted RotationInterval :=
  d <-? ok_or (std_of_duration ivl) "invalid duration";
  match RotationInterval_new d with Ok i => Ok i | Err _ => Err (invalid_argument "invalid rotation interval") end.

Definition TunnelOptions_try_from (options : PTunnelOptions) : converted DaemonTunnelOptions :=
  dns_options <-? ok_or (pto_dns_options options) "missing tunnel DNS options";
  rotation_interval <-? try_option RotationInterval_try_from (pto_rotation_interval options);
  quantum_resistant <-? ok_or (pto_quantum_resistant options) "missing quantum resistant state";
  quantum_resistant <-? QuantumResistantState_try_from quantum_resistant;
  daita <-? ok_or (pto_daita options) "missing daita settings";
  dns_options <-? DnsOptions_try_from dns_options;
  Ok {| Settings.wireguard :=
          {| wg_mtu := as_u16 <$> pto_mtu options; wg_rotation_interval := rotation_interval;
             wg_quantum_resistant := quantum_resistant; wg_daita := DaitaSettings_from daita;
             wg_userspace := pto_userspace options |};
        Settings.generic := {| enable_ipv6 := pto_enable_ipv6 options |};
        Settings.dns_options := dns_options |}.

(** [None] is a panic: the duration does not fit. *)
Definition from_TunnelOptions (options : DaemonTunnelOptions) : option PTunnelOptions :=
  let w := Settings.wireguard options in
  rotation_interval ← match wg_rotation_interval w with
                      | Some ivl => d ← duration_of_std (as_duration ivl); Some (Some d)
                      | None => Some None
                      end;
  Some {| pto_mtu := wg_mtu w; pto_rotation_interval := rotation_interval;
          pto_quantum_resistant := Some (to_i32 (wg_quantum_resistant w)); pto_daita := Some (from_DaitaSettings (wg_daita w));
          pto_enable_ipv6 := enable_ipv6 (Settings.generic options);
          pto_dns_options := Some (from_DnsOptions (Settings.dns_options options)); pto_userspace := wg_userspace w |}.

Definition from_Recent (recent : Recent) : PRecentType :=
  match recent with
  | RecentSinglehop location => PSinglehop (from_LocationConstraint location)
  | RecentMultihop entry exit => PMultihop (Some (from_LocationConstraint entry)) (Some (from_LocationConstraint exit))
  end.

Definition from_Settings (settings : DaemonSettings) : option PSettings :=
  tunnel_options ← from_TunnelOptions (Settings.tunnel_options settings);
  Some {| ps_relay_settings := Some (from_RelaySettings (Settings.relay_settings settings));
          ps_allow_lan := Settings.allow_lan settings; ps_lockdown_mode := Settings.lockdown_mode settings;
          ps_auto_connect := Settings.auto_connect settings; ps_tunnel_options := Some tunnel_options;
          ps_show_beta_releases := Settings.show_beta_releases settings;
          ps_obfuscation_settings := Some (from_ObfuscationSettings (Settings.obfuscation_settings settings));
          ps_custom_lists := Some (from_CustomListsSettings (Settings.custom_lists settings));
          ps_api_access_methods := Some (from_AccessSettings (Settings.api_access_methods settings));
          ps_relay_overrides := map from_RelayOverride (Settings.relay_overrides settings);
          ps_recents := map from_Recent <$> Settings.recents settings;
          ps_update_default_location := Settings.update_default_location settings |}.

(** The version, the recents and the seed are not taken from the message. *)
Definition Settings_try_from (settings : PSettings) : converted DaemonSettings :=
  relay_settings <-? ok_or (ps_relay_settings settings) "missing relay settings";
  tunnel_options <-? ok_or (ps_tunnel_options settings) "missing tunnel options";
  obfuscation_settings <-? ok_or (ps_obfuscation_settings settings) "missing obfuscation settings";
  custom_lists_settings <-? ok_or (ps_custom_lists settings) "missing custom lists settings";
  api_access_methods_settings <-? ok_or (ps_api_access_methods settings) "missing api access methods settings";
  relay_settings <-? RelaySettings_try_from relay_settings;
  tunnel_options <-? TunnelOptions_try_from tunnel_options;
  relay_overrides <-? try_map RelayOverride_try_from (ps_relay_overrides settings);
  obfuscation_settings <-? ObfuscationSettings_try_from obfuscation_settings;
  custom_lists <-? CustomListsSettings_try_from custom_lists_settings;
  api_access_methods <-? AccessSettings_try_from api_access_methods_settings;
  Ok {| Settings.relay_settings := relay_settings; Settings.allow_lan := ps_allow_lan settings;
        Settings.lockdown_mode := ps_lockdown_mode settings; Settings.auto_connect := ps_auto_connect settings;
        Settings.tunnel_options := tunnel_options; Settings.relay_overrides := relay_overrides;
        Settings.show_beta_releases := ps_show_beta_releases settings; Settings.obfuscation_settings := obfuscation_settings;
        Settings.settings_version := CURRENT_SETTINGS_VERSION; Settings.custom_lists := custom_lists;
        Settings.api_access_methods := api_access_methods; Settings.recents := Some [];
        Settings.update_default_location := ps_update_default_location settings;
        Settings.rollout_threshold_seed := None |}.
End settings.
