(* ===== verification/ProtoState.v ===== *)
(** * What clients are sent: the state of the program

    The other conversions of [src/mullvad-management-interface/src/types/conversions/] in the Linux build: the state
    of the tunnel ([states.rs], [features.rs], [location.rs], the endpoints of [net.rs]), devices and accounts
    ([device.rs], [account.rs]), the relay list ([relay_list.rs]), questions to the relay selector
    ([relay_selector.rs]) and new versions of the program ([version.rs]).

    A [HashSet] is a list without duplicates, in the order in which it happens to be iterated. *)

From Stdlib Require Import Ascii.
From stdpp Require Import base list strings gmap option numbers sets.
From S2P Require Import Version VersionUpdate VersionRouter.
From S2P Require Import Prelude Migrations Retry DeviceService DeviceManager AccessMethods NetTypes TunnelTypes FirewallPolicy.
From S2P Require Import RelayTypes RelaySelector Settings Daemon ProtoSettings.
Local Open Scope vpn_scope.

(** ** Dates: seconds and nanoseconds of [chrono] *)
Record PTimestamp : Type := { ts_seconds : Z; ts_nanos : Z }.
Class Dates : Type := { from_timestamp : Z -> Z -> option Z }.
Definition timestamp (date : Z) : Z := Z.div date NANOS_PER_SEC.
(** A date within 200,000 years. *)
Definition seconds_ok (s : Z) : Prop := (- 6 * 10 ^ 12 <= s <= 6 * 10 ^ 12)%Z.
Class DatesLaws `{Dates} : Prop := {
  from_timestamp_ok s n :
    seconds_ok s -> (0 <= n < NANOS_PER_SEC)%Z -> from_timestamp s n = Some (s * NANOS_PER_SEC + n)%Z;
}.

(** ** Enumerations *)
#[global] Instance PFeatureIndicator : ProtoEnum FeatureIndicator :=
  [(0, FQuantumResistance); (1, FMultihop); (2, FSplitTunneling); (3, FLockdownMode); (4, FWireguardPort); (5, FUdp2Tcp);
   (6, FShadowsocks); (7, FQuic); (8, FLwo); (9, FLanSharing); (10, FDnsContentBlockers); (11, FCustomDns);
   (12, FServerIpOverride); (13, FCustomMtu); (14, FDaita); (15, FDaitaMultihop)]%Z.

#[global] Instance ActionAfterDisconnect_eq_dec : EqDecision ActionAfterDisconnect.
Proof. solve_decision. Defined.
#[global] Instance PAfterDisconnect : ProtoEnum ActionAfterDisconnect := [(0, ActionNothing); (1, ActionBlock); (2, ActionReconnect)]%Z.

(** The causes of an error state, without what comes with some of them; the other numbers are those of other
    platforms. *)
Inductive CauseKind : Type :=
| KAuthFailed | KIpv6Unavailable | KSetFirewallPolicyError | KSetDnsError | KStartTunnelError | KTunnelParameterError | KIsOffline.
#[global] Instance CauseKind_eq_dec : EqDecision CauseKind.
Proof. solve_decision. Defined.
#[global] Instance PCause : ProtoEnum CauseKind :=
  [(0, KAuthFailed); (1, KIpv6Unavailable); (2, KSetFirewallPolicyError); (3, KSetDnsError); (4, KStartTunnelError);
   (6, KTunnelParameterError); (7, KIsOffline)]%Z.

Inductive AuthFailedReason : Type := InvalidAccountReason | ExpiredAccountReason | TooManyConnections | UnknownReason.
#[global] Instance AuthFailedReason_eq_dec : EqDecision AuthFailedReason.
Proof. solve_decision. Defined.
#[global] Instance PAuthFailedError : ProtoEnum AuthFailedReason :=
  [(0, UnknownReason); (1, InvalidAccountReason); (2, ExpiredAccountReason); (3, TooManyConnections)]%Z.

#[global] Instance PGenerationError : ProtoEnum ParameterGenerationError :=
  [(0, TunnelTypes.NoMatchingRelayEntry); (1, TunnelTypes.NoMatchingRelayExit); (2, TunnelTypes.NoMatchingRelay);
   (3, TunnelTypes.NoMatchingBridgeRelay); (4, TunnelTypes.CustomTunnelHostResolutionError);
   (5, TunnelTypes.IpVersionUnavailable IpVersion_V4); (6, TunnelTypes.IpVersionUnavailable IpVersion_V6)]%Z.
(** [Locked] is of Windows. *)
#[global] Instance PPolicyErrorType : ProtoEnum FirewallPolicyError := [(0, Generic)]%Z.

Inductive DeviceStateKind : Type := StateLoggedIn | StateLoggedOut | StateRevoked.
#[global] Instance DeviceStateKind_eq_dec : EqDecision DeviceStateKind.
Proof. solve_decision. Defined.
#[global] Instance PDeviceStateKind : ProtoEnum DeviceStateKind := [(0, StateLoggedIn); (1, StateLoggedOut); (2, StateRevoked)]%Z.
Inductive DeviceEventCause : Type := CauseLoggedIn | CauseLoggedOut | CauseRevoked | CauseUpdated | CauseRotatedKey.
#[global] Instance DeviceEventCause_eq_dec : EqDecision DeviceEventCause.
Proof. solve_decision. Defined.
#[global] Instance PDeviceEventCause : ProtoEnum DeviceEventCause :=
  [(0, CauseLoggedIn); (1, CauseLoggedOut); (2, CauseRevoked); (3, CauseUpdated); (4, CauseRotatedKey)]%Z.

(** ** [AuthFailed] ([src/mullvad-types/src/auth_failed.rs])

    A word of the regular expression is one of ASCII letters, digits and underscores; no other is compared. *)
Definition word_char (c : Ascii.ascii) : bool :=
  let n := Ascii.nat_of_ascii c in
  ((48 <=? n) && (n <=? 57) || (65 <=? n) && (n <=? 90) || (97 <=? n) && (n <=? 122) || (n =? 95))%nat.
Fixpoint take_word (s : string) : string * string :=
  match s with
  | String c s' => if word_char c then let '(w, rest) := take_word s' in (String c w, rest) else (EmptyString, s)
  | EmptyString => (EmptyString, s)
  end.
Definition parse_string (reason : string) : option string :=
  match reason with
  | String "["%char s => match take_word s with
                         | (String c w, String "]"%char _) => Some (String c w)
                         | _ => None
                         end
  | _ => None
  end.
Definition AuthFailed_from (reason : string) : AuthFailedReason :=
  match parse_string reason with
  | Some "INVALID_ACCOUNT" => InvalidAccountReason
  | Some "EXPIRED_ACCOUNT" => ExpiredAccountReason
  | Some "TOO_MANY_CONNECTIONS" => TooManyConnections
  | Some _ | None => UnknownReason
  end%string.
Definition as_str (a : AuthFailedReason) : string :=
  match a with
  | InvalidAccountReason => "[INVALID_ACCOUNT]"
  | ExpiredAccountReason => "[EXPIRED_ACCOUNT]"
  | TooManyConnections => "[TOO_MANY_CONNECTIONS]"
  | UnknownReason => "[Unknown]"
  end.
(** [AuthFailed::try_from(error_state.cause())]. *)
Definition auth_failed_of_cause (c : ErrorStateCause) : option AuthFailedReason :=
  match c with
  | AuthFailed (Some reason) => Some (AuthFailed_from reason)
  | AuthFailed None => Some UnknownReason
  | _ => None
  end.

(** ** Messages *)
Record PEndpoint : Type := { pep_address : string; pep_protocol : Z }.
Record PObfuscationEndpoint : Type := { pob_endpoint : option PEndpoint; pob_obfuscation_type : Z }.
Inductive PObfuscationInfoType : Type :=
| PSingle (e : PObfuscationEndpoint)
| PMultiple (direct : option PEndpoint) (obfuscators : list PObfuscationEndpoint).
Record PObfuscationInfo : Type := { info_type : option PObfuscationInfoType }.
Record PTunnelEndpoint : Type := {
  pte_address : string; pte_protocol : Z; pte_quantum_resistant : bool; pte_obfuscation : option PObfuscationInfo;
  pte_entry_endpoint : option PEndpoint; pte_tunnel_metadata : option string; pte_daita : bool;
}.
Record PGeoIpLocation : Type := {
  pgl_ipv4 : option string; pgl_ipv6 : option string; pgl_country : string; pgl_city : option string;
  pgl_latitude : Z; pgl_longitude : Z; pgl_mullvad_exit_ip : bool; pgl_hostname : option string;
  pgl_entry_hostname : option string; pgl_obfuscator_hostname : option string;
}.
Record PFirewallPolicyError : Type := { pf_type : Z; pf_lock_pid : Z; pf_lock_name : option string }.
Record PErrorState : Type := {
  pes_cause : Z; pes_blocking_error : option PFirewallPolicyError; pes_auth_failed_error : Z; pes_parameter_error : Z;
  pes_policy_error : option PFirewallPolicyError; pes_create_tunnel_error : option Z;
}.
Record PRelayInfo : Type := { pri_tunnel_endpoint : option PTunnelEndpoint; pri_location : option PGeoIpLocation }.
Inductive PState : Type :=
| PDisconnected (disconnected_location : option PGeoIpLocation) (locked_down : bool)
| PConnecting (relay_info : option PRelayInfo) (feature_indicators : option (list Z))
| PConnected (relay_info : option PRelayInfo) (feature_indicators : option (list Z))
| PDisconnecting (after_disconnect : Z)
| PError (error_state : option PErrorState).
Record PTunnelState : Type := { p_state : option PState }.

Record PDevice : Type := {
  pdv_id : string; pdv_name : string; pdv_pubkey : Key; pdv_hijack_dns : bool; pdv_created : option PTimestamp
}.
Record PAccountAndDevice : Type := { pad_account_number : string; pad_device : option PDevice }.
Record PDeviceState : Type := { pds_state : Z; pds_device : option PAccountAndDevice }.
Record PDeviceEvent : Type := { pde_cause : Z; pde_new_state : option PDeviceState }.
Record PRemoveDeviceEvent : Type := { prd_account_number : string; prd_new_device_list : list PDevice }.
Record PVoucherSubmission : Type := { pvs_seconds_added : Z; pvs_new_expiry : option PTimestamp }.
Record PAccountData : Type := { pac_id : string; pac_expiry : option PTimestamp }.

(** *** Relays *)
Record PQuic : Type := { pq_domain : string; pq_token : string; pq_addr_in : list string }.
Record PWireguardEndpoint : Type := {
  pwe_public_key : string; pwe_daita : bool; pwe_quic : option PQuic; pwe_shadowsocks_extra_addr_in : list string; pwe_lwo : bool
}.
(** [proto::Location] has the fields of [Location]. *)
Record PRelay : Type := {
  prl_hostname : string; prl_ipv4_addr_in : string; prl_ipv6_addr_in : option string; prl_include_in_country : bool;
  prl_active : bool; prl_owned : bool; prl_provider : string; prl_weight : Z;
  prl_endpoint_data : option PWireguardEndpoint; prl_location : option Location;
}.
Record PRelayListCity : Type := {
  pci_name : string; pci_code : string; pci_latitude : Z; pci_longitude : Z; pci_relays : list PRelay
}.
Record PRelayListCountry : Type := { pco_name : string; pco_code : string; pco_cities : list PRelayListCity }.
Record PPortRange : Type := { pr_first : Z; pr_last : Z }.
Record PWireguardEndpointData : Type := {
  pwd_port_ranges : list PPortRange; pwd_ipv4_gateway : string; pwd_ipv6_gateway : string;
  pwd_shadowsocks_port_ranges : list PPortRange; pwd_udp2tcp_ports : list Z;
}.
Record PRelayList : Type := { prl_countries : list PRelayListCountry; prl_list_endpoint_data : option PWireguardEndpointData }.

Record PShadowsocksEndpointData : Type := { pse_port : Z; pse_cipher : string; pse_password : string; pse_protocol : Z }.
Record PBridge : Type := {
  pb_hostname : string; pb_ipv4_addr_in : string; pb_ipv6_addr_in : option string; pb_active : bool; pb_weight : Z;
  pb_location : option Location;
}.
Record PBridgeList : Type := { pb_bridges : list PBridge; pb_endpoint_data : option (list PShadowsocksEndpointData) }.

(** *** Questions to the relay selector *)
Record PExitConstraints : Type := { pex_location : option PLocationConstraint; pex_providers : list string; pex_ownership : Z }.
Record PEntryConstraints : Type := {
  pen_general_constraints : option PExitConstraints; pen_obfuscation_settings : option PObfuscationSettings;
  pen_daita_settings : option PDaitaSettings; pen_ip_version : Z;
}.
Record PMultiHopConstraints : Type := { pmh_entry : option PEntryConstraints; pmh_exit : option PExitConstraints }.
Inductive PContext : Type :=
| PSinglehopContext (c : PEntryConstraints) | PAutohopContext (c : PEntryConstraints)
| PEntryContext (c : PMultiHopConstraints) | PExitContext (c : PMultiHopConstraints).
Record PIncompatibleConstraints : Type := {
  pic_inactive : bool; pic_location : bool; pic_providers : bool; pic_ownership : bool; pic_ip_version : bool;
  pic_daita : bool; pic_obfuscation : bool; pic_port : bool; pic_conflict_with_other_hop : bool;
}.
Record PRelayPartitions : Type := { ppt_matches : list string; ppt_discards : list (string * PIncompatibleConstraints) }.

(** ** The daemon's types that are not elsewhere *)
(** [Bridge] is a [Relay], and [BridgeEndpointData] the list of its Shadowsocks endpoints. *)
Record ShadowsocksEndpointData : Type := { sed_port : Z; sed_cipher : string; sed_password : string; sed_protocol : TransportProtocol }.
Record BridgeList : Type := { bridges : list Relay; bridge_endpoint : list ShadowsocksEndpointData }.
Record AccountAndDevice : Type := { ad_account_number : AccountNumber; ad_device : Device }.
Inductive DeviceState : Type := IsLoggedIn (d : AccountAndDevice) | IsLoggedOut | IsRevoked.
Record DeviceEventInfo : Type := { de_cause : DeviceEventCause; new_state : DeviceState }.
Record RemoveDeviceEvent : Type := { rd_account_number : AccountNumber; new_devices : list Device }.

(** *** New versions

    What happens during an upgrade; [server] is a text.  Upgrades are for Windows and macOS. *)
Inductive AppUpgradeError : Type := GeneralError | UpgradeDownloadFailed | VerificationFailed.
#[global] Instance AppUpgradeError_eq_dec : EqDecision AppUpgradeError.
Proof. solve_decision. Defined.
#[global] Instance PAppUpgradeError : ProtoEnum AppUpgradeError :=
  [(0, GeneralError); (1, UpgradeDownloadFailed); (2, VerificationFailed)]%Z.
Record AppUpgradeDownloadProgress : Type := { up_server : string; up_progress : Z; up_time_left : option Z }.
Inductive AppUpgradeEvent : Type :=
| DownloadStarting | DownloadProgress (p : AppUpgradeDownloadProgress) | UpgradeAborted
| VerifyingInstaller | VerifiedInstaller | UpgradeFailed (e : AppUpgradeError).

Record PSuggestedUpgrade : Type := { psu_version : text; psu_changelog : text; psu_verified_installer_path : option text }.
Record PAppVersionInfo : Type := { pav_supported : bool; pav_suggested_upgrade : option PSuggestedUpgrade }.
Record PAppUpgradeDownloadProgress : Type := { pup_server : string; pup_progress : Z; pup_time_left : option PDuration }.
Inductive PAppUpgradeEvent : Type :=
| PDownloadStarting | PDownloadProgress (p : PAppUpgradeDownloadProgress) | PUpgradeAborted
| PVerifyingInstaller | PVerifiedInstaller | PUpgradeError (e : Z).

(** [Path::to_str]: the path, if it is text. *)
Class Paths : Type := { path_to_str : text -> option text }.

Section version.
Context `{Formats} `{Paths} `{VersionRegex}.

Definition from_SuggestedUpgrade (u : SuggestedUpgrade) : PSuggestedUpgrade :=
  {| psu_version := Version.to_string (upgrade_version u); psu_changelog := upgrade_changelog u;
     psu_verified_installer_path := p ← verified_installer_path u; path_to_str p |}.
(** Reading a version does not panic. *)
Definition SuggestedUpgrade_try_from (u : PSuggestedUpgrade) : converted SuggestedUpgrade :=
  version <-? match Version.from_str (psu_version u) with
              | Some (Ok v) => Ok v
              | _ => Err (invalid_argument "invalid Mullvad app version")
              end;
  Ok {| upgrade_version := version; upgrade_changelog := psu_changelog u;
        verified_installer_path := psu_verified_installer_path u |}.
Definition from_AppVersionInfo (info : AppVersionInfo) : PAppVersionInfo :=
  {| pav_supported := app_current_version_supported info; pav_suggested_upgrade := from_SuggestedUpgrade <$> suggested_upgrade info |}.
Definition AppVersionInfo_try_from (info : PAppVersionInfo) : converted AppVersionInfo :=
  upgrade <-? try_option SuggestedUpgrade_try_from (pav_suggested_upgrade info);
  Ok {| app_current_version_supported := pav_supported info; suggested_upgrade := upgrade |}.

(** [None] where [expect] panics: a duration that is too long, or below 0. *)
Definition from_AppUpgradeDownloadProgress (value : AppUpgradeDownloadProgress) : option PAppUpgradeDownloadProgress :=
  time_left ← match up_time_left value with Some d => Some <$> duration_of_std d | None => Some None end;
  Some {| pup_server := up_server value; pup_progress := up_progress value; pup_time_left := time_left |}.
Definition AppUpgradeDownloadProgress_try_from (value : PAppUpgradeDownloadProgress) : option (converted AppUpgradeDownloadProgress) :=
  time_left ← match pup_time_left value with Some d => Some <$> std_of_duration d | None => Some None end;
  Some (Ok {| up_server := pup_server value; up_progress := pup_progress value; up_time_left := time_left |}).

Definition from_AppUpgradeEvent (event : AppUpgradeEvent) : option PAppUpgradeEvent :=
  match event with
  | DownloadStarting => Some PDownloadStarting
  | DownloadProgress progress => PDownloadProgress <$> from_AppUpgradeDownloadProgress progress
  | VerifyingInstaller => Some PVerifyingInstaller
  | VerifiedInstaller => Some PVerifiedInstaller
  | UpgradeAborted => Some PUpgradeAborted
  | UpgradeFailed error => Some (PUpgradeError (to_i32 error))
  end.
Definition AppUpgradeEvent_try_from (event : option PAppUpgradeEvent) : option (converted AppUpgradeEvent) :=
  match event with
  | None => Some (Err (invalid_argument "Non-existent AppUpgradeEvent"))
  | Some PDownloadStarting => Some (Ok DownloadStarting)
  | Some (PDownloadProgress progress) =>
      progress ← AppUpgradeDownloadProgress_try_from progress;
      Some (progress <-? progress; Ok (DownloadProgress progress))
  | Some PVerifyingInstaller => Some (Ok VerifyingInstaller)
  | Some PVerifiedInstaller => Some (Ok VerifiedInstaller)
  | Some PUpgradeAborted => Some (Ok UpgradeAborted)
  | Some (PUpgradeError error) => Some (error <-? ok_or (of_i32 error) "invalid AppUpgradeError"; Ok (UpgradeFailed error))
  end.
End version.

Section state.
Context `{Formats} `{Dates}.

(** ** [net.rs] *)
Definition from_Endpoint (value : Endpoint) : PEndpoint :=
  {| pep_address := show_socket (address value); pep_protocol := to_i32 (protocol value) |}.
Definition Endpoint_try_from (endpoint : PEndpoint) : converted Endpoint :=
  address <-? arg_from_str parse_socket (pep_address endpoint) "invalid endpoint address";
  protocol <-? try_transport_protocol_from_i32 (pep_protocol endpoint);
  Ok {| address := address; protocol := protocol |}.

Definition from_ObfuscationEndpoint (endpoint : ObfuscationEndpoint) : PObfuscationEndpoint :=
  {| pob_endpoint := Some (from_Endpoint (oe_endpoint endpoint)); pob_obfuscation_type := to_i32 (obfuscation_type endpoint) |}.
Definition ObfuscationEndpoint_try_from (endpoint : PObfuscationEndpoint) : converted ObfuscationEndpoint :=
  e <-? ok_or (pob_endpoint endpoint) "missing obfuscation endpoint";
  e <-? Endpoint_try_from e;
  t <-? ok_or (of_i32 (pob_obfuscation_type endpoint)) "unknown obfuscation type";
  Ok {| oe_endpoint := e; obfuscation_type := t |}.

Definition from_ObfuscationInfo (info : ObfuscationInfo) : PObfuscationInfo :=
  {| info_type := Some match info with
                       | InfoSingle endpoint => PSingle (from_ObfuscationEndpoint endpoint)
                       | InfoMultiplexer direct obfuscators =>
                           PMultiple (from_Endpoint <$> direct) (map from_ObfuscationEndpoint obfuscators)
                       end |}.
Definition ObfuscationInfo_try_from (info : PObfuscationInfo) : converted ObfuscationInfo :=
  match info_type info with
  | Some (PSingle endpoint) => e <-? ObfuscationEndpoint_try_from endpoint; Ok (InfoSingle e)
  | Some (PMultiple direct obfuscators) =>
      direct <-? try_option Endpoint_try_from direct;
      obfuscators <-? try_map ObfuscationEndpoint_try_from obfuscators;
      Ok (InfoMultiplexer direct obfuscators)
  | None => Err (invalid_argument "unknown obfuscation info type")
  end.

Definition from_TunnelEndpoint (endpoint : TunnelEndpoint) : PTunnelEndpoint :=
  {| pte_address := show_socket (address (te_endpoint endpoint)); pte_protocol := to_i32 (protocol (te_endpoint endpoint));
     pte_quantum_resistant := te_quantum_resistant endpoint;
     pte_obfuscation := from_ObfuscationInfo <$> te_obfuscation endpoint;
     pte_entry_endpoint := from_Endpoint <$> entry_endpoint endpoint;
     pte_tunnel_metadata := tunnel_interface endpoint; pte_daita := te_daita endpoint |}.
Definition TunnelEndpoint_try_from (endpoint : PTunnelEndpoint) : converted TunnelEndpoint :=
  address <-? arg_from_str parse_socket (pte_address endpoint) "invalid endpoint address";
  protocol <-? try_transport_protocol_from_i32 (pte_protocol endpoint);
  obfuscation <-? try_option ObfuscationInfo_try_from (pte_obfuscation endpoint);
  entry <-? try_option (fun entry =>
                          address <-? arg_from_str parse_socket (pep_address entry) "invalid entry endpoint address";
                          protocol <-? try_transport_protocol_from_i32 (pep_protocol entry);
                          Ok {| address := address; protocol := protocol |}) (pte_entry_endpoint endpoint);
  Ok {| te_endpoint := {| address := address; protocol := protocol |};
        te_quantum_resistant := pte_quantum_resistant endpoint; te_obfuscation := obfuscation; entry_endpoint := entry;
        tunnel_interface := pte_tunnel_metadata endpoint; te_daita := pte_daita endpoint |}.

(** ** [features.rs]: numbers that are not known are passed over *)
Definition from_FeatureIndicators (features : list FeatureIndicator) : list Z := map to_i32 features.
Definition FeatureIndicators_from (features : list Z) : list FeatureIndicator := remove_dups (omap of_i32 features).

(** ** [location.rs] *)
Definition from_GeoIpLocation (geoip : GeoIpLocation) : PGeoIpLocation :=
  {| pgl_ipv4 := show_ipv4 <$> geo_ipv4 geoip; pgl_ipv6 := show_ipv6 <$> geo_ipv6 geoip; pgl_country := geo_country geoip;
     pgl_city := geo_city geoip; pgl_latitude := geo_latitude geoip; pgl_longitude := geo_longitude geoip;
     pgl_mullvad_exit_ip := mullvad_exit_ip geoip; pgl_hostname := geo_hostname geoip;
     pgl_entry_hostname := Daemon.entry_hostname geoip; pgl_obfuscator_hostname := Daemon.obfuscator_hostname geoip |}.
Definition GeoIpLocation_try_from (geoip : PGeoIpLocation) : converted GeoIpLocation :=
  ipv4 <-? try_option (fun addr => arg_from_str parse_ipv4 addr "invalid IPv4 address") (pgl_ipv4 geoip);
  ipv6 <-? try_option (fun addr => arg_from_str parse_ipv6 addr "invalid IPv6 address") (pgl_ipv6 geoip);
  Ok {| geo_ipv4 := ipv4; geo_ipv6 := ipv6; geo_country := pgl_country geoip; geo_city := pgl_city geoip;
        geo_latitude := pgl_latitude geoip; geo_longitude := pgl_longitude geoip;
        mullvad_exit_ip := pgl_mullvad_exit_ip geoip; geo_hostname := pgl_hostname geoip;
        Daemon.entry_hostname := pgl_entry_hostname geoip; Daemon.obfuscator_hostname := pgl_obfuscator_hostname geoip |}.

(** ** [states.rs] *)
Definition map_firewall_error (firewall_error : FirewallPolicyError) : PFirewallPolicyError :=
  {| pf_type := to_i32 firewall_error; pf_lock_pid := 0; pf_lock_name := None |}.
Definition try_firewall_policy_error_from_i32 (policy_error : Z) : converted FirewallPolicyError :=
  ok_or (of_i32 policy_error) "invalid firewall policy error".

Definition cause_kind (c : ErrorStateCause) : CauseKind :=
  match c with
  | AuthFailed _ => KAuthFailed
  | Ipv6Unavailable => KIpv6Unavailable
  | SetFirewallPolicyError _ => KSetFirewallPolicyError
  | SetDnsError => KSetDnsError
  | StartTunnelError => KStartTunnelError
  | TunnelParameterError _ => KTunnelParameterError
  | IsOffline => KIsOffline
  end.

Definition from_ErrorState (error_state : ErrorStateInfo) : PErrorState :=
  {| pes_cause := to_i32 (cause_kind (cause error_state));
     pes_blocking_error := map_firewall_error <$> block_failure error_state;
     pes_auth_failed_error := match auth_failed_of_cause (cause error_state) with Some a => to_i32 a | None => 0%Z end;
     pes_parameter_error := match cause error_state with TunnelParameterError reason => to_i32 reason | _ => 0%Z end;
     pes_policy_error :=
       match cause error_state with SetFirewallPolicyError reason => Some (map_firewall_error reason) | _ => None end;
     pes_create_tunnel_error := None |}.

Definition from_relay_info (endpoint : TunnelEndpoint) (location : option GeoIpLocation) : PRelayInfo :=
  {| pri_tunnel_endpoint := Some (from_TunnelEndpoint endpoint); pri_location := from_GeoIpLocation <$> location |}.

Definition from_TunnelState (state : Daemon.TunnelState) : PTunnelState :=
  {| p_state := Some match state with
                     | Disconnected disconnected_location locked_down =>
                         PDisconnected (from_GeoIpLocation <$> disconnected_location) locked_down
                     | Connecting endpoint location feature_indicators =>
                         PConnecting (Some (from_relay_info endpoint location)) (Some (from_FeatureIndicators feature_indicators))
                     | Connected endpoint location feature_indicators =>
                         PConnected (Some (from_relay_info endpoint location)) (Some (from_FeatureIndicators feature_indicators))
                     | Disconnecting after_disconnect => PDisconnecting (to_i32 after_disconnect)
                     | InError error_state => PError (Some (from_ErrorState error_state))
                     end |}.

Definition try_auth_failed_from_i32 (auth_failed_error : Z) : converted AuthFailedReason :=
  ok_or (of_i32 auth_failed_error) "invalid auth failed error".

Definition ErrorState_try_from (e : PErrorState) : converted ErrorStateInfo :=
  c <-? match of_i32 (pes_cause e) with
        | Some KAuthFailed =>
            auth_failed <-? try_auth_failed_from_i32 (pes_auth_failed_error e); Ok (AuthFailed (Some (as_str auth_failed)))
        | Some KIpv6Unavailable => Ok Ipv6Unavailable
        | Some KIsOffline => Ok IsOffline
        | Some KSetDnsError => Ok SetDnsError
        | Some KSetFirewallPolicyError =>
            policy_error <-? ok_or (pes_policy_error e) "missing firewall policy error";
            policy_error <-? try_firewall_policy_error_from_i32 (pf_type policy_error);
            Ok (SetFirewallPolicyError policy_error)
        | Some KStartTunnelError => Ok StartTunnelError
        | Some KTunnelParameterError =>
            parameter_error <-? ok_or (of_i32 (pes_parameter_error e)) "invalid parameter error";
            Ok (TunnelParameterError parameter_error)
        | None => Err (invalid_argument "invalid error cause")
        end;
  failure <-? try_option (fun b => try_firewall_policy_error_from_i32 (pf_type b)) (pes_blocking_error e);
  Ok {| cause := c; block_failure := failure |}.

Definition relay_info_try_from (tunnel_endpoint : PTunnelEndpoint) (location : option PGeoIpLocation)
    (feature_indicators : option (list Z)) : converted (TunnelEndpoint * option GeoIpLocation * list FeatureIndicator) :=
  endpoint <-? TunnelEndpoint_try_from tunnel_endpoint;
  location <-? try_option GeoIpLocation_try_from location;
  features <-? ok_or (FeatureIndicators_from <$> feature_indicators) "Missing feature indicators";
  Ok (endpoint, location, features).

Definition quoted (s : string) : string := String (Ascii.ascii_of_nat 34) (String.append s (String (Ascii.ascii_of_nat 34) EmptyString)).
Definition after_disconnect_message : string :=
  String.append "invalid " (String.append (quoted "after_disconnect") " action").

Definition TunnelState_try_from (state : PTunnelState) : converted Daemon.TunnelState :=
  match p_state state with
  | Some (PDisconnected disconnected_location locked_down) =>
      location <-? try_option GeoIpLocation_try_from disconnected_location; Ok (Disconnected location locked_down)
  | Some (PConnecting (Some {| pri_tunnel_endpoint := Some tunnel_endpoint; pri_location := location |}) feature_indicators) =>
      r <-? relay_info_try_from tunnel_endpoint location feature_indicators;
      let '(endpoint, location, features) := r in Ok (Connecting endpoint location features)
  | Some (PConnected (Some {| pri_tunnel_endpoint := Some tunnel_endpoint; pri_location := location |}) feature_indicators) =>
      r <-? relay_info_try_from tunnel_endpoint location feature_indicators;
      let '(endpoint, location, features) := r in Ok (Connected endpoint location features)
  | Some (PDisconnecting after_disconnect) =>
      a <-? ok_or (of_i32 after_disconnect) after_disconnect_message; Ok (Disconnecting a)
  | Some (PError (Some error_state)) => e <-? ErrorState_try_from error_state; Ok (InError e)
  | _ => Err (invalid_argument "invalid tunnel state")
  end.

(** ** [device.rs] *)
Definition key_of_bytes (bytes : Key) : converted Key :=
  if (length bytes =? WG_KEY_SIZE)%nat then Ok bytes else Err (invalid_argument "invalid public key").

Definition Device_try_from (device : PDevice) : converted Device :=
  created <-? ok_or (pdv_created device) "missing 'created' field";
  created <-? ok_or (from_timestamp (ts_seconds created) 0) "invalid timestamp";
  pubkey <-? key_of_bytes (pdv_pubkey device);
  Ok {| device_id := pdv_id device; device_name := pdv_name device; pubkey := pubkey;
        device_hijack_dns := pdv_hijack_dns device; device_created := created |}.
Definition from_Device (device : Device) : PDevice :=
  {| pdv_id := device_id device; pdv_name := device_name device; pdv_pubkey := pubkey device;
     pdv_hijack_dns := device_hijack_dns device;
     pdv_created := Some {| ts_seconds := timestamp (device_created device); ts_nanos := 0 |} |}.

Definition from_AccountAndDevice (d : AccountAndDevice) : PAccountAndDevice :=
  {| pad_account_number := ad_account_number d; pad_device := Some (from_Device (ad_device d)) |}.

Definition DeviceState_try_from (state : PDeviceState) : converted DeviceState :=
  k <-? ok_or (of_i32 (pds_state state)) "invalid device state";
  match k with
  | StateLoggedIn =>
      account <-? ok_or (pds_device state) "missing account data";
      device <-? ok_or (pad_device account) "missing device data";
      device <-? Device_try_from device;
      Ok (IsLoggedIn {| ad_account_number := pad_account_number account; ad_device := device |})
  | StateRevoked => Ok IsRevoked
  | StateLoggedOut => Ok IsLoggedOut
  end.
Definition state_kind (state : DeviceState) : DeviceStateKind :=
  match state with IsLoggedIn _ => StateLoggedIn | IsLoggedOut => StateLoggedOut | IsRevoked => StateRevoked end.
Definition from_DeviceState (state : DeviceState) : PDeviceState :=
  {| pds_state := to_i32 (state_kind state);
     pds_device := match state with IsLoggedIn client => Some (from_AccountAndDevice client) | _ => None end |}.

Definition from_DeviceEvent (event : DeviceEventInfo) : PDeviceEvent :=
  {| pde_cause := to_i32 (de_cause event); pde_new_state := Some (from_DeviceState (new_state event)) |}.
Definition DeviceEvent_try_from (event : PDeviceEvent) : converted DeviceEventInfo :=
  c <-? ok_or (of_i32 (pde_cause event)) "invalid event";
  s <-? ok_or (pde_new_state event) "missing device state";
  s <-? DeviceState_try_from s;
  Ok {| de_cause := c; new_state := s |}.

Definition from_RemoveDeviceEvent (event : RemoveDeviceEvent) : PRemoveDeviceEvent :=
  {| prd_account_number := rd_account_number event; prd_new_device_list := map from_Device (new_devices event) |}.
Definition RemoveDeviceEvent_try_from (event : PRemoveDeviceEvent) : converted RemoveDeviceEvent :=
  new_devices <-? try_map Device_try_from (prd_new_device_list event);
  Ok {| rd_account_number := prd_account_number event; new_devices := new_devices |}.

(** ** [account.rs]: [nanos as u32] *)
Definition date_of (t : PTimestamp) : converted Z :=
  ok_or (from_timestamp (ts_seconds t) (Z.modulo (ts_nanos t) (2 ^ 32))) "invalid timestamp".

Definition from_VoucherSubmission (submission : VoucherSubmission) : PVoucherSubmission :=
  {| pvs_seconds_added := time_added submission;
     pvs_new_expiry := Some {| ts_seconds := timestamp (new_expiry submission); ts_nanos := 0 |} |}.
Definition VoucherSubmission_try_from (submission : PVoucherSubmission) : converted VoucherSubmission :=
  t <-? ok_or (pvs_new_expiry submission) "missing expiry";
  t <-? date_of t;
  Ok {| new_expiry := t; time_added := pvs_seconds_added submission |}.

Definition from_AccountData (data : AccountData) : PAccountData :=
  {| pac_id := account_id data; pac_expiry := Some {| ts_seconds := timestamp (expiry data); ts_nanos := 0 |} |}.
Definition AccountData_try_from (data : PAccountData) : converted AccountData :=
  t <-? ok_or (pac_expiry data) "missing expiry";
  t <-? date_of t;
  Ok {| account_id := pac_id data; expiry := t |}.

(** ** [relay_list.rs] *)
Definition u16_try_from (n : Z) : option Z := if bool_decide (0 <= n < 2 ^ 16)%Z then Some n else None.

Definition from_Quic (quic : QuicData) : PQuic :=
  {| pq_domain := domain quic; pq_token := token quic; pq_addr_in := map show_ip (addr_in quic) |}.
Definition Quic_try_from (value : PQuic) : converted QuicData :=
  addr_in <-? try_map (fun a => ok_or (parse_ip a) "Invalid IP address") (pq_addr_in value);
  if bool_decide (addr_in = []) then Err (invalid_argument "Invalid QUIC object")
  else Ok {| addr_in := remove_dups addr_in; token := pq_token value; domain := pq_domain value |}.

Definition from_WireguardRelay (relay : WireguardRelay) : PRelay :=
  let inner := inner relay in
  let d := endpoint_data relay in
  {| prl_hostname := hostname inner; prl_ipv4_addr_in := show_ipv4 (ipv4_addr_in inner);
     prl_ipv6_addr_in := show_ipv6 <$> ipv6_addr_in inner; prl_include_in_country := include_in_country relay;
     prl_active := active inner; prl_owned := owned relay; prl_provider := provider relay; prl_weight := weight inner;
     prl_endpoint_data :=
       Some {| pwe_public_key := relay_public_key d; pwe_daita := relay_daita d; pwe_quic := from_Quic <$> relay_quic d;
               pwe_shadowsocks_extra_addr_in := map show_ip (shadowsocks_extra_addr_in d); pwe_lwo := relay_lwo d |};
     prl_location := Some (location inner) |}.

(** That an address is the user's is not sent. *)
Definition WireguardRelay_try_from (relay : PRelay) : converted WireguardRelay :=
  wireguard <-? ok_or (prl_endpoint_data relay) "invalid relay endpoint type";
  public_key <-? bytes_to_pubkey (pwe_public_key wireguard);
  quic <-? try_option Quic_try_from (pwe_quic wireguard);
  extra <-? try_map (fun a => ok_or (parse_ip a) "Invalid IP address") (pwe_shadowsocks_extra_addr_in wireguard);
  ipv4 <-? ok_or (parse_ipv4 (prl_ipv4_addr_in relay)) "invalid relay IPv4 address";
  ipv6 <-? try_option (fun a => ok_or (parse_ipv6 a) "invalid relay IPv6 address") (prl_ipv6_addr_in relay);
  location <-? ok_or (prl_location relay) "missing relay location";
  Ok {| overridden_ipv4 := false; overridden_ipv6 := false; include_in_country := prl_include_in_country relay;
        owned := prl_owned relay; provider := prl_provider relay;
        endpoint_data := {| relay_public_key := public_key; relay_daita := pwe_daita wireguard; relay_quic := quic;
                            relay_lwo := pwe_lwo wireguard; shadowsocks_extra_addr_in := remove_dups extra |};
        inner := {| hostname := prl_hostname relay; ipv4_addr_in := ipv4; ipv6_addr_in := ipv6; active := prl_active relay;
                    weight := prl_weight relay; location := location |} |}.

Definition from_RelayListCity (city : RelayListCity) : PRelayListCity :=
  {| pci_name := rc_name city; pci_code := rc_code city; pci_latitude := rc_latitude city; pci_longitude := rc_longitude city;
     pci_relays := map from_WireguardRelay (relays city) |}.
Definition RelayListCity_try_from (value : PRelayListCity) : converted RelayListCity :=
  relays <-? try_map WireguardRelay_try_from (pci_relays value);
  Ok {| rc_name := pci_name value; rc_code := pci_code value; rc_latitude := pci_latitude value;
        rc_longitude := pci_longitude value; relays := relays |}.
Definition from_RelayListCountry (country : RelayListCountry) : PRelayListCountry :=
  {| pco_name := rlc_name country; pco_code := rlc_code country; pco_cities := map from_RelayListCity (cities country) |}.
Definition RelayListCountry_try_from (value : PRelayListCountry) : converted RelayListCountry :=
  cities <-? try_map RelayListCity_try_from (pco_cities value);
  Ok {| rlc_name := pco_name value; rlc_code := pco_code value; cities := cities |}.

Definition from_PortRange (range : port_range) : PPortRange := {| pr_first := range.1; pr_last := range.2 |}.
Definition PortRange_try_from (range : PPortRange) : converted port_range :=
  first <-? ok_or (u16_try_from (pr_first range)) "invalid port";
  last <-? ok_or (u16_try_from (pr_last range)) "invalid port";
  Ok (first, last).

Definition from_EndpointData (wireguard : EndpointData) : PWireguardEndpointData :=
  {| pwd_port_ranges := map from_PortRange (port_ranges wireguard);
     pwd_ipv4_gateway := show_ipv4 (ed_ipv4_gateway wireguard); pwd_ipv6_gateway := show_ipv6 (ed_ipv6_gateway wireguard);
     pwd_shadowsocks_port_ranges := map from_PortRange (shadowsocks_port_ranges wireguard);
     pwd_udp2tcp_ports := udp2tcp_ports wireguard |}.
Definition EndpointData_try_from (wireguard : PWireguardEndpointData) : converted EndpointData :=
  port_ranges <-? try_map PortRange_try_from (pwd_port_ranges wireguard);
  ipv4_gateway <-? ok_or (parse_ipv4 (pwd_ipv4_gateway wireguard)) "Invalid IPv4 gateway";
  ipv6_gateway <-? ok_or (parse_ipv6 (pwd_ipv6_gateway wireguard)) "Invalid IPv6 gateway";
  shadowsocks <-? try_map PortRange_try_from (pwd_shadowsocks_port_ranges wireguard);
  udp2tcp <-? try_map (fun p => ok_or (u16_try_from p) "invalid udp2tcp port") (pwd_udp2tcp_ports wireguard);
  Ok {| port_ranges := port_ranges; ed_ipv4_gateway := ipv4_gateway; ed_ipv6_gateway := ipv6_gateway;
        shadowsocks_port_ranges := shadowsocks; udp2tcp_ports := udp2tcp |}.

Definition from_RelayList (relay_list : RelayList) : PRelayList :=
  {| prl_countries := map from_RelayListCountry (countries relay_list);
     prl_list_endpoint_data := Some (from_EndpointData (RelayTypes.wireguard relay_list)) |}.
Definition RelayList_try_from (value : PRelayList) : converted RelayList :=
  wireguard <-? ok_or (prl_list_endpoint_data value) "missing wireguard data";
  countries <-? try_map RelayListCountry_try_from (prl_countries value);
  wireguard <-? EndpointData_try_from wireguard;
  Ok {| countries := countries; RelayTypes.wireguard := wireguard |}.

(** *** Bridges *)
Definition from_ShadowsocksEndpointData (endpoint : ShadowsocksEndpointData) : PShadowsocksEndpointData :=
  {| pse_port := sed_port endpoint; pse_cipher := sed_cipher endpoint; pse_password := sed_password endpoint;
     pse_protocol := to_i32 (sed_protocol endpoint) |}.
Definition ShadowsocksEndpointData_try_from (shadowsocks : PShadowsocksEndpointData) : converted ShadowsocksEndpointData :=
  port <-? ok_or (u16_try_from (pse_port shadowsocks)) "invalid port";
  cipher <-? ok_or (parse_cipher (pse_cipher shadowsocks)) (String.append "invalid shadowsocks cipher: " (pse_cipher shadowsocks));
  protocol <-? try_transport_protocol_from_i32 (pse_protocol shadowsocks);
  Ok {| sed_port := port; sed_cipher := cipher; sed_password := pse_password shadowsocks; sed_protocol := protocol |}.

Definition from_Bridge (bridge : Relay) : PBridge :=
  {| pb_hostname := hostname bridge; pb_ipv4_addr_in := show_ipv4 (ipv4_addr_in bridge);
     pb_ipv6_addr_in := show_ipv6 <$> ipv6_addr_in bridge; pb_active := active bridge; pb_weight := weight bridge;
     pb_location := Some (location bridge) |}.
Definition Bridge_try_from (bridge : PBridge) : converted Relay :=
  ipv4 <-? ok_or (parse_ipv4 (pb_ipv4_addr_in bridge)) "invalid relay IPv4 address";
  ipv6 <-? try_option (fun a => ok_or (parse_ipv6 a) "invalid relay IPv6 address") (pb_ipv6_addr_in bridge);
  location <-? ok_or (pb_location bridge) "missing relay location";
  Ok {| hostname := pb_hostname bridge; ipv4_addr_in := ipv4; ipv6_addr_in := ipv6; active := pb_active bridge;
        weight := pb_weight bridge; location := location |}.

Definition from_BridgeList (bridge_list : BridgeList) : PBridgeList :=
  {| pb_bridges := map from_Bridge (bridges bridge_list);
     pb_endpoint_data := Some (map from_ShadowsocksEndpointData (bridge_endpoint bridge_list)) |}.
Definition BridgeList_try_from (bridge_list : PBridgeList) : converted BridgeList :=
  bridges <-? try_map Bridge_try_from (pb_bridges bridge_list);
  endpoint <-? ok_or (pb_endpoint_data bridge_list) "missing bridges";
  endpoint <-? try_map ShadowsocksEndpointData_try_from endpoint;
  Ok {| bridges := bridges; bridge_endpoint := endpoint |}.

(** ** [relay_selector.rs] *)
Definition ExitConstraints_try_from (c : PExitConstraints) : converted ExitConstraints :=
  location <-? try_option LocationConstraint_try_from (pex_location c);
  ownership <-? try_ownership_constraint_from_i32 (pex_ownership c);
  Ok {| ec_location := constraint_from location; ec_providers := providers_constraint_from_proto (pex_providers c);
        ec_ownership := ownership |}.
Definition ExitConstraints_default : ExitConstraints := {| ec_location := Any; ec_providers := Any; ec_ownership := Any |}.
Definition ObfuscationSettings_default : ObfuscationSettings := settings_with SelAuto.

Definition EntryConstraints_try_from (c : PEntryConstraints) : converted EntryConstraints :=
  general <-? try_option ExitConstraints_try_from (pen_general_constraints c);
  ip_version <-? ok_or (of_i32 (pen_ip_version c)) "invalid IP protocol version";
  settings <-? try_option ObfuscationSettings_try_from (pen_obfuscation_settings c);
  Ok {| general := default ExitConstraints_default general;
        entry_specific :=
          {| obfuscation := obfuscation_constraint_from_settings (default ObfuscationSettings_default settings);
             RelayTypes.daita := constraint_from (pd_enabled <$> pen_daita_settings c);
             ip_version := Only ip_version |} |}.

Definition MultihopConstraints_try_from (c : PMultiHopConstraints) : converted MultihopConstraints :=
  match pmh_entry c, pmh_exit c with
  | Some entry, Some exit =>
      entry <-? EntryConstraints_try_from entry;
      exit <-? ExitConstraints_try_from exit;
      Ok {| mh_entry := entry; mh_exit := exit |}
  | _, _ => Err (invalid_argument "entry + exit must be provided")
  end.

Definition Predicate_try_from (context : option PContext) : converted Predicate :=
  context <-? ok_or context "context must be provided";
  match context with
  | PSinglehopContext c => c <-? EntryConstraints_try_from c; Ok (RelaySelector.PSinglehop c)
  | PAutohopContext c => c <-? EntryConstraints_try_from c; Ok (RelaySelector.PAutohop c)
  | PEntryContext c => c <-? MultihopConstraints_try_from c; Ok (RelaySelector.PEntry c)
  | PExitContext c => c <-? MultihopConstraints_try_from c; Ok (RelaySelector.PExit c)
  end.

Definition compatible : PIncompatibleConstraints :=
  {| pic_inactive := false; pic_location := false; pic_providers := false; pic_ownership := false; pic_ip_version := false;
     pic_daita := false; pic_obfuscation := false; pic_port := false; pic_conflict_with_other_hop := false |}.
#[global] Instance Reason_eq_dec : EqDecision Reason.
Proof. solve_decision. Defined.
Definition add_reason (i : PIncompatibleConstraints) (reason : Reason) : PIncompatibleConstraints :=
  let why r := bool_decide (reason = r) in
  {| pic_inactive := pic_inactive i || why Inactive; pic_location := pic_location i || why ReasonLocation;
     pic_providers := pic_providers i || why ReasonProviders; pic_ownership := pic_ownership i || why ReasonOwnership;
     pic_ip_version := pic_ip_version i || why ReasonIpVersion; pic_daita := pic_daita i || why ReasonDaita;
     pic_obfuscation := pic_obfuscation i || why ReasonObfuscation; pic_port := pic_port i || why ReasonPort;
     pic_conflict_with_other_hop := pic_conflict_with_other_hop i || why Conflict |}.
Definition from_Reasons (reasons : list Reason) : PIncompatibleConstraints := foldl add_reason compatible reasons.

(** A relay that is not used for a whole country can still be selected, and is shown first. *)
Definition only_by_country (d : WireguardRelay * list Reason) : bool := bool_decide (d.2 = [ReasonIncludeInCountry]).
Definition from_RelayPartitions (p : RelayPartitions) : PRelayPartitions :=
  let '(fallbacks, true_discards) := List.partition only_by_country (p_discards p) in
  {| ppt_matches := map (fun relay => hostname (inner relay)) (map fst fallbacks ++ p_matches p);
     ppt_discards := map (fun d => (hostname (inner d.1), from_Reasons d.2)) true_discards |}.
End state.

(** ** What the daemon broadcasts ([src/mullvad-daemon/src/device/mod.rs], [src/mullvad-management-interface/src/client.rs]) *)
Definition Device_from `{Curve} (device : PrivateDevice) : Device :=
  {| device_id := DeviceService.id device; device_name := DeviceService.name device;
     pubkey := DeviceService.public_key (DeviceService.private_key (wg_data device)); device_hijack_dns := DeviceService.hijack_dns device;
     device_created := DeviceService.created device |}.
Definition AccountAndDevice_from `{Curve} (config : PrivateAccountAndDevice) : AccountAndDevice :=
  {| ad_account_number := DeviceService.account_number config; ad_device := Device_from (DeviceService.device config) |}.
Definition DeviceState_from `{Curve} (state : PrivateDeviceState) : DeviceState :=
  match state with
  | LoggedIn dev => IsLoggedIn (AccountAndDevice_from dev)
  | LoggedOut => IsLoggedOut
  | Revoked => IsRevoked
  end.
Definition DeviceEvent_from `{Curve} (event : PrivateDeviceEvent) : DeviceEventInfo :=
  {| de_cause := match event with
                 | Login _ => CauseLoggedIn
                 | Logout => CauseLoggedOut
                 | RevokedEvent => CauseRevoked
                 | Updated _ => CauseUpdated
                 | RotatedKey _ => CauseRotatedKey
                 end;
     new_state := DeviceState_from (event_state event) |}.

Record LeakInfo : Type := { reachable_nodes : list IpAddr; leak_interface : string }.

Inductive DaemonEvent : Type :=
| EventTunnelState (s : Daemon.TunnelState)
| EventSettings (s : DaemonSettings)
| EventRelayList (l : RelayList)
| EventVersionInfo (i : AppVersionInfo)
| EventDevice (e : DeviceEventInfo)
| EventRemoveDevice (e : RemoveDeviceEvent)
| EventNewAccessMethod (m : AccessMethodSetting)
| EventLeak (l : LeakInfo).

Inductive PDaemonEvent : Type :=
| PEventTunnelState (s : PTunnelState)
| PEventSettings (s : PSettings)
| PEventRelayList (l : PRelayList)
| PEventVersionInfo (i : PAppVersionInfo)
| PEventDevice (e : PDeviceEvent)
| PEventRemoveDevice (e : PRemoveDeviceEvent)
| PEventNewAccessMethod (m : PAccessMethodSetting)
| PEventLeakInfo (ip_addrs : list string) (interface : string).

(** The functions [notify_*] of the broadcaster; [None] is a panic. *)
Definition notify_event `{Formats} `{Paths} (e : DaemonEvent) : option PDaemonEvent :=
  match e with
  | EventTunnelState s => Some (PEventTunnelState (from_TunnelState s))
  | EventSettings s => PEventSettings <$> from_Settings s
  | EventRelayList l => Some (PEventRelayList (from_RelayList l))
  | EventVersionInfo i => Some (PEventVersionInfo (from_AppVersionInfo i))
  | EventDevice e => Some (PEventDevice (from_DeviceEvent e))
  | EventRemoveDevice e => Some (PEventRemoveDevice (from_RemoveDeviceEvent e))
  | EventNewAccessMethod m => Some (PEventNewAccessMethod (from_AccessMethodSetting m))
  | EventLeak l => Some (PEventLeakInfo (map show_ip (reachable_nodes l)) (leak_interface l))
  end.

Inductive ClientError : Type := InvalidResponse (e : FromProtobufTypeError) | IpAddrError.
Definition response {A} (f : A -> DaemonEvent) (r : converted A) : result DaemonEvent ClientError :=
  match r with Ok a => Ok (f a) | Err e => Err (InvalidResponse e) end.
Definition LeakInfo_try_from `{Formats} (ip_addrs : list string) (interface : string) : result LeakInfo ClientError :=
  match mapM parse_ip ip_addrs with
  | Some nodes => Ok {| reachable_nodes := nodes; leak_interface := interface |}
  | None => Err IpAddrError
  end.

Definition DaemonEvent_try_from `{Formats} `{Dates} `{VersionRegex} (value : PDaemonEvent) : result DaemonEvent ClientError :=
  match value with
  | PEventTunnelState s => response EventTunnelState (TunnelState_try_from s)
  | PEventSettings s => response EventSettings (Settings_try_from s)
  | PEventRelayList l => response EventRelayList (RelayList_try_from l)
  | PEventVersionInfo i => response EventVersionInfo (AppVersionInfo_try_from i)
  | PEventDevice e => response EventDevice (DeviceEvent_try_from e)
  | PEventRemoveDevice e => response EventRemoveDevice (RemoveDeviceEvent_try_from e)
  | PEventNewAccessMethod m => response EventNewAccessMethod (AccessMethodSetting_try_from m)
  | PEventLeakInfo ip_addrs interface => l <-? LeakInfo_try_from ip_addrs interface; Ok (EventLeak l)
  end.
