(* ===== verification/ProtoProps.v ===== *)
(** * Theorems about what clients send and are sent *)

From stdpp Require Import base list strings gmap option numbers sets.
From S2P Require Import Prelude Migrations Retry DeviceService DeviceManager AccessMethods NetTypes TunnelTypes FirewallPolicy.
From S2P Require Import RelayTypes RelaySelector Settings ParametersGenerator ProtoSettings.
Local Open Scope vpn_scope.

(** ** The values that the daemon's types can have *)
Definition key_ok (k : string) : Prop := String.length k = WG_KEY_SIZE.
Definition constraint_ok {A} (P : A -> Prop) (c : Constraint A) : Prop := match c with Any => True | Only a => P a end.
Definition option_ok {A} (P : A -> Prop) (x : option A) : Prop := match x with None => True | Some a => P a end.

Definition canonical (n : IpNetwork) : Prop := network_ok n /\ network_of n = net_ip n.

Definition providers_ok (c : Constraint Providers) : Prop := constraint_ok (fun p => p <> ∅) c.
Definition wireguard_constraints_ok (c : WireguardConstraints) : Prop :=
  constraint_ok (Forall canonical) (wc_allowed_ips c) /\ providers_ok (entry_providers c).
Definition relay_constraints_ok (c : RelayConstraints) : Prop :=
  providers_ok (rc_providers c) /\ wireguard_constraints_ok (wireguard_constraints c).
Definition connection_ok (c : ConnectionConfig) : Prop :=
  key_ok (NetTypes.private_key (cc_tunnel c)) /\ key_ok (NetTypes.public_key (peer c))
  /\ Forall ip_ok (NetTypes.addresses (cc_tunnel c)) /\ Forall network_ok (NetTypes.allowed_ips (peer c))
  /\ socket_ok (peer_endpoint (peer c)) /\ ipv4_ok (cc_ipv4_gateway c) /\ option_ok ipv6_ok (cc_ipv6_gateway c).
Definition relay_settings_ok (r : RelaySettings) : Prop :=
  match r with Normal c => relay_constraints_ok c | CustomEndpoint e => connection_ok (Settings.config e) end.

Definition port_settings_ok (s : PortSettings) : Prop := constraint_ok u16_ok (port s).
Definition obfuscation_settings_ok (s : ObfuscationSettings) : Prop :=
  port_settings_ok (os_udp2tcp s) /\ port_settings_ok (os_shadowsocks s) /\ port_settings_ok (os_wireguard_port s)
  /\ port_settings_ok (os_lwo s).
Definition override_ok (o : RelayOverride) : Prop :=
  option_ok ipv4_ok (ov_ipv4_addr_in o) /\ option_ok ipv6_ok (ov_ipv6_addr_in o).

(** The elements of a [BTreeSet] in order. *)
Fixpoint ordered (l : list GeographicLocationConstraint) : Prop :=
  match l with
  | x :: (y :: _) as l => geo_cmp x y = Lt /\ ordered l
  | _ => True
  end.
Definition custom_list_ok (l : CustomList) : Prop := ordered (cl_locations l).

Section ok.
Context `{Formats}.

Definition proxy_ok (p : CustomProxy) : Prop :=
  match p with
  | ProxyShadowsocks s => socket_ok (ss_endpoint s) /\ parse_cipher (ss_cipher s) = Some (ss_cipher s)
  | ProxySocks5Local s => socket_ok (address (remote_endpoint s)) /\ u16_ok (local_port s)
  | ProxySocks5Remote s =>
      socket_ok (s5_endpoint s) /\ option_ok (fun a => SocksAuth_new (username a) (password a) = Some a) (auth s)
  end.
Definition access_method_ok (m : AccessMethod) : Prop := match m with Custom p => proxy_ok p | BuiltIn _ => True end.
Definition method_ok (m : AccessMethodSetting) : Prop := access_method_ok (AccessMethods.access_method m).
Definition access_settings_ok_ (s : AccessSettings) : Prop := Forall method_ok (AccessMethods.iter s).

Definition rotation_ok (i : RotationInterval) : Prop := RotationInterval_new (as_duration i) = Ok i.
Definition tunnel_options_ok (o : DaemonTunnelOptions) : Prop :=
  option_ok u16_ok (wg_mtu (Settings.wireguard o)) /\ option_ok rotation_ok (wg_rotation_interval (Settings.wireguard o))
  /\ Forall ip_ok (custom_addresses (Settings.dns_options o)).

Definition settings_ok (s : DaemonSettings) : Prop :=
  relay_settings_ok (Settings.relay_settings s) /\ obfuscation_settings_ok (Settings.obfuscation_settings s)
  /\ Forall custom_list_ok (Settings.custom_lists s) /\ access_settings_ok_ (Settings.api_access_methods s)
  /\ tunnel_options_ok (Settings.tunnel_options s) /\ Forall override_ok (Settings.relay_overrides s).
End ok.

(** ** What clients see of the settings *)
Definition seen_allowed_ips (c : Constraint (list IpNetwork)) : Constraint (list IpNetwork) :=
  Only (resolve_from_constraint c None None).
Definition seen_wireguard (c : WireguardConstraints) : WireguardConstraints :=
  {| wc_ip_version := wc_ip_version c; wc_allowed_ips := seen_allowed_ips (wc_allowed_ips c); use_multihop := use_multihop c;
     entry_location := entry_location c; entry_providers := entry_providers c; entry_ownership := entry_ownership c |}.
Definition seen_connection (c : ConnectionConfig) : ConnectionConfig :=
  {| cc_tunnel := cc_tunnel c;
     peer := {| NetTypes.public_key := NetTypes.public_key (peer c); NetTypes.allowed_ips := NetTypes.allowed_ips (peer c);
                peer_endpoint := peer_endpoint (peer c); psk := None; constant_packet_size := false |};
     exit_peer := None; cc_ipv4_gateway := cc_ipv4_gateway c; cc_ipv6_gateway := cc_ipv6_gateway c;
     cc_fwmark := Some TUNNEL_FWMARK |}.
Definition seen_relay_settings (r : RelaySettings) : RelaySettings :=
  match r with
  | CustomEndpoint e => CustomEndpoint {| host := host e; Settings.config := seen_connection (Settings.config e) |}
  | Normal c =>
      Normal {| rc_location := rc_location c; rc_providers := rc_providers c; rc_ownership := rc_ownership c;
                wireguard_constraints :=
                  with_entry_filters (rc_ownership c) (rc_providers c) (seen_wireguard (wireguard_constraints c)) |}
  end.
Definition seen_settings (s : DaemonSettings) : DaemonSettings :=
  {| Settings.relay_settings := seen_relay_settings (Settings.relay_settings s);
     Settings.allow_lan := Settings.allow_lan s; Settings.lockdown_mode := Settings.lockdown_mode s;
     Settings.auto_connect := Settings.auto_connect s; Settings.tunnel_options := Settings.tunnel_options s;
     Settings.relay_overrides := Settings.relay_overrides s; Settings.show_beta_releases := Settings.show_beta_releases s;
     Settings.obfuscation_settings := Settings.obfuscation_settings s; Settings.settings_version := CURRENT_SETTINGS_VERSION;
     Settings.custom_lists := Settings.custom_lists s; Settings.api_access_methods := Settings.api_access_methods s;
     Settings.recents := Some []; Settings.update_default_location := Settings.update_default_location s;
     Settings.rollout_threshold_seed := None |}.

(** ** Generic conversions *)
Lemma ok_or_Some {A} (a : A) m : ok_or (Some a) m = Ok a.
Proof. done. Qed.

Lemma try_map_map {A B C} (f : A -> converted B) (g : C -> A) (h : C -> B) (l : list C) :
  Forall (fun c => f (g c) = Ok (h c)) l -> try_map f (map g l) = Ok (map h l).
Proof. induction 1 as [|c l Hc _ IH]; [done|]. simpl. rewrite Hc. simpl. by rewrite IH. Qed.

Lemma try_map_back {A B} (f : A -> converted B) (g : B -> A) (l : list B) :
  Forall (fun b => f (g b) = Ok b) l -> try_map f (map g l) = Ok l.
Proof. intros Hl. rewrite (try_map_map f g (fun b => b) l Hl). by rewrite map_id. Qed.

Lemma try_option_back {A B} (f : A -> converted B) (g : B -> A) (x : option B) :
  option_ok (fun b => f (g b) = Ok b) x -> try_option f (g <$> x) = Ok x.
Proof. destruct x as [b|]; [|done]. simpl. by intros ->. Qed.

Lemma option_ok_mono {A} (P Q : A -> Prop) x : (forall a, P a -> Q a) -> option_ok P x -> option_ok Q x.
Proof. destruct x; simpl; auto. Qed.

Lemma constraint_from_option {T} (c : Constraint T) : constraint_from (constraint_option c) = c.
Proof. by destruct c. Qed.

Lemma as_u16_ok n : u16_ok n -> as_u16 n = n.
Proof. apply Z.mod_small. Qed.

Lemma wg_key_ok k m : key_ok k -> bytes_to_wg_key k m = Ok k.
Proof. unfold key_ok, bytes_to_wg_key. intros ->. done. Qed.

(** Every value of an enumeration survives. *)
Class EnumLaws (A : Type) `{ProtoEnum A} `{EqDecision A} : Prop := of_to_i32 (a : A) : of_i32 (to_i32 a) = Some a.
#[global] Instance TransportProtocol_enum : EnumLaws TransportProtocol.
Proof. by intros []. Qed.
#[global] Instance IpVersion_enum : EnumLaws IpVersion.
Proof. by intros []. Qed.
#[global] Instance Ownership_enum : EnumLaws (Constraint Ownership).
Proof. by intros [|[]]. Qed.
#[global] Instance SelectedObfuscation_enum : EnumLaws SelectedObfuscation.
Proof. by intros []. Qed.
#[global] Instance QuantumResistantState_enum : EnumLaws QuantumResistantState.
Proof. by intros []. Qed.
#[global] Instance DnsState_enum : EnumLaws DnsState.
Proof. by intros []. Qed.

Lemma btree_set_ordered l : ordered l -> btree_set l = l.
Proof.
  induction l as [|x [|y l] IH]; [done..|]. intros [Hx Hl]. change (set_insert x (btree_set (y :: l)) = x :: y :: l).
  rewrite (IH Hl). simpl. by rewrite Hx.
Qed.

Section roundtrip.
Context `{FL : FormatsLaws}.

Lemma parse_networks_back l : Forall canonical l -> parse_networks (map show_network l) = Ok l.
Proof.
  induction 1 as [|n l [Hn Hc] _ IH]; [done|]. cbn [map parse_networks]. rewrite trim_network by done.
  rewrite bool_decide_eq_true_2 by (by apply show_network_nonempty). rewrite parse_show_network by done.
  rewrite bool_decide_eq_false_2 by (rewrite network_address_spec by done; intros Hx; by apply Hx). by rewrite IH.
Qed.

Lemma allow_all_canonical : Forall canonical allow_all_ips.
Proof.
  repeat constructor; by vm_compute.
Qed.

(** ** Round trips *)
Lemma geographic_back l : GeographicLocationConstraint_try_from (from_GeographicLocationConstraint l) = Ok l.
Proof. by destruct l. Qed.

Lemma location_back l : LocationConstraint_try_from (from_LocationConstraint l) = Ok l.
Proof.
  destruct l as [l|i]; unfold LocationConstraint_try_from; simpl; [by rewrite geographic_back|by rewrite parse_show_list_id].
Qed.

Lemma location_or_any_back c : location_or_any (from_LocationConstraint <$> constraint_option c) = c.
Proof. destruct c as [|l]; [done|]. unfold location_or_any. simpl. by rewrite location_back. Qed.

Lemma providers_back p : providers_ok p -> providers_constraint_from_proto (convert_providers_constraint p) = p.
Proof.
  destruct p as [|p]; [done|]. intros Hp. unfold providers_constraint_from_proto, convert_providers_constraint.
  rewrite bool_decide_eq_false_2 by (by rewrite elements_empty_iff, leibniz_equiv_iff). by rewrite list_to_set_elements_L.
Qed.

Lemma ownership_back o : try_ownership_constraint_from_i32 (convert_ownership_constraint o) = Ok o.
Proof. unfold try_ownership_constraint_from_i32, convert_ownership_constraint. by rewrite of_to_i32. Qed.

Lemma ip_version_back c :
  try_option (fun v => ok_or (of_i32 v) "invalid IP protocol version") (to_i32 <$> constraint_option c)
  = Ok (constraint_option (c : Constraint IpVersion)).
Proof. apply try_option_back. destruct c; [done|]. simpl. by rewrite of_to_i32. Qed.

Lemma resolved_canonical c : constraint_ok (Forall canonical) c -> Forall canonical (resolve_from_constraint c None None).
Proof.
  unfold resolve_from_constraint, resolve. rewrite !app_nil_r.
  destruct c as [|l]; [intros _; apply allow_all_canonical|]. simpl. by case_bool_decide; [intros _; apply allow_all_canonical|].
Qed.

Lemma resolved_nonempty c : resolve_from_constraint c None None <> [].
Proof. unfold resolve_from_constraint, resolve. rewrite !app_nil_r. destruct c; [done|]. by case_bool_decide. Qed.

Lemma wireguard_back c :
  wireguard_constraints_ok c -> WireguardConstraints_try_from (from_WireguardConstraints c) = Ok (seen_wireguard c).
Proof.
  intros [Hc Hp]. unfold WireguardConstraints_try_from, from_WireguardConstraints. cbn [pw_ip_version pw_allowed_ips pw_use_multihop pw_entry_location pw_entry_providers pw_entry_ownership].
  rewrite ip_version_back. cbn [bind_result]. rewrite parse_networks_back by (by apply resolved_canonical). cbn [bind_result].
  rewrite ownership_back. cbn [bind_result]. rewrite location_or_any_back, providers_back, constraint_from_option by done.
  unfold to_constraint. by rewrite bool_decide_eq_false_2 by apply resolved_nonempty.
Qed.

Lemma ok_or_list {A} (f : string -> option A) (g : A -> string) m (l : list A) :
  Forall (fun a => f (g a) = Some a) l -> try_map (fun s => ok_or (f s) m) (map g l) = Ok l.
Proof. intros Hl. apply try_map_back. eapply Forall_impl; [exact Hl|]. simpl. by intros a ->. Qed.

Lemma ok_or_option {A} (f : string -> option A) (g : A -> string) m (x : option A) :
  option_ok (fun a => f (g a) = Some a) x -> try_option (fun s => ok_or (f s) m) (g <$> x) = Ok x.
Proof. intros Hx. apply try_option_back. eapply option_ok_mono; [|exact Hx]. simpl. by intros a ->. Qed.

Lemma connection_back c : connection_ok c -> ConnectionConfig_try_from (from_ConnectionConfig c) = Ok (seen_connection c).
Proof.
  intros (Hk & Hp & Ha & Hn & Hs & H4 & H6). unfold ConnectionConfig_try_from, bytes_to_privkey, bytes_to_pubkey. simpl.
  rewrite !wg_key_ok by done. simpl. rewrite parse_show_ipv4 by done. simpl.
  rewrite ok_or_option by (revert H6; apply option_ok_mono, parse_show_ipv6). simpl.
  rewrite parse_show_socket by done. simpl.
  rewrite ok_or_list by (eapply Forall_impl; [done|apply parse_show_ip]). simpl.
  rewrite ok_or_list by (eapply Forall_impl; [done|apply parse_show_network]). unfold seen_connection. by destruct (cc_tunnel c).
Qed.

Lemma relay_settings_back r :
  relay_settings_ok r -> RelaySettings_try_from (from_RelaySettings r) = Ok (seen_relay_settings r).
Proof.
  destruct r as [e|c]; intros Hr; unfold RelaySettings_try_from; simpl.
  - by rewrite connection_back.
  - destruct Hr as [Hp Hw]. rewrite ownership_back. simpl. rewrite wireguard_back by done. simpl.
    by rewrite location_or_any_back, providers_back.
Qed.

Lemma port_back s : port_settings_ok s -> PortSettings_try_from (from_PortSettings s) = s.
Proof.
  destruct s as [[|p]]; [done|]. unfold port_settings_ok, PortSettings_try_from. simpl. intros Hp. by rewrite as_u16_ok.
Qed.

Lemma obfuscation_back s :
  obfuscation_settings_ok s -> ObfuscationSettings_try_from (from_ObfuscationSettings s) = Ok s.
Proof.
  intros (H1 & H2 & H3 & H4). unfold ObfuscationSettings_try_from. simpl. rewrite of_to_i32. simpl.
  rewrite !port_back by done. by destruct s.
Qed.

Lemma override_back o : override_ok o -> RelayOverride_try_from (from_RelayOverride o) = Ok o.
Proof.
  intros [H4 H6]. unfold RelayOverride_try_from. simpl.
  rewrite ok_or_option by (revert H4; apply option_ok_mono, parse_show_ipv4). simpl.
  rewrite ok_or_option by (revert H6; apply option_ok_mono, parse_show_ipv6). by destruct o.
Qed.

Lemma custom_list_back l : custom_list_ok l -> CustomList_try_from (from_CustomList l) = Ok l.
Proof.
  intros Hl. unfold CustomList_try_from. simpl.
  rewrite try_map_back by (apply Forall_true, geographic_back). simpl. rewrite parse_show_list_id. simpl.
  rewrite btree_set_ordered by done. by destruct l.
Qed.

Lemma protocol_back t : try_transport_protocol_from_i32 (to_i32 t) = Ok t.
Proof. unfold try_transport_protocol_from_i32. by rewrite of_to_i32. Qed.

Lemma proxy_back p : proxy_ok p -> CustomProxy_try_from (from_CustomProxy p) = Ok p.
Proof.
  destruct p as [s|s|s]; simpl; unfold CustomProxy_try_from; simpl.
  - intros [[Hi Hp] Hc]. unfold Shadowsocks_try_from. simpl. rewrite parse_show_ip by done. simpl. rewrite Hc. simpl.
    rewrite as_u16_ok by done. by destruct s as [[] ? ?].
  - intros [[Hi Hp] Hl]. unfold Socks5Local_try_from. simpl. rewrite parse_show_ip by done. simpl. rewrite protocol_back. simpl.
    rewrite !as_u16_ok by done. by destruct s as [[[] ?] ?].
  - intros [[Hi Hp] Ha]. unfold Socks5Remote_try_from. simpl. rewrite parse_show_ip by done. simpl. rewrite as_u16_ok by done.
    destruct s as [[i n] [a|]]; simpl in *; [|done]. unfold SocksAuth_try_from. simpl. by rewrite Ha.
Qed.

Lemma access_method_back m : access_method_ok m -> AccessMethod_try_from (from_AccessMethod m) = Ok m.
Proof. destruct m as [[]|q]; try done. intros Hq. unfold AccessMethod_try_from. simpl in *. by rewrite proxy_back. Qed.

Lemma method_back m : method_ok m -> AccessMethodSetting_try_from (from_AccessMethodSetting m) = Ok m.
Proof.
  intros Hm. unfold AccessMethodSetting_try_from, MethodId_try_from. simpl. rewrite parse_show_method_id. simpl.
  rewrite access_method_back by done. by destruct m.
Qed.

Lemma access_settings_back s : access_settings_ok_ s -> AccessSettings_try_from (from_AccessSettings s) = Ok s.
Proof.
  unfold access_settings_ok_, AccessMethods.iter. rewrite !Forall_cons. intros (H1 & H2 & H3 & H4 & Hc).
  unfold AccessSettings_try_from. simpl. rewrite !method_back by done. simpl.
  rewrite try_map_back by (eapply Forall_impl; [done|apply method_back]). by destruct s.
Qed.

Lemma dns_back o : Forall ip_ok (custom_addresses o) -> DnsOptions_try_from (from_DnsOptions o) = Ok o.
Proof.
  intros Ha. unfold DnsOptions_try_from. simpl. rewrite of_to_i32. simpl.
  rewrite ok_or_list by (eapply Forall_impl; [done|apply parse_show_ip]). by destruct o.
Qed.

Lemma rotation_in_range i : rotation_ok i -> (0 <= as_duration i < 2 ^ 63 * 10 ^ 9)%Z.
Proof.
  unfold rotation_ok, RotationInterval_new.
  assert (H1 : (0 <= MIN_ROTATION_INTERVAL)%Z) by (by vm_compute). assert (H2 : (MAX_ROTATION_INTERVAL < 2 ^ 63 * 10 ^ 9)%Z) by (by vm_compute).
  destruct (Z.ltb_spec (as_duration i) MIN_ROTATION_INTERVAL); [done|].
  destruct (Z.ltb_spec MAX_ROTATION_INTERVAL (as_duration i)); [done|]. lia.
Qed.

Lemma tunnel_options_back o :
  tunnel_options_ok o -> exists p, from_TunnelOptions o = Some p /\ TunnelOptions_try_from p = Ok o.
Proof.
  intros (Hm & Hr & Ha). unfold from_TunnelOptions.
  assert (Hd : exists d, match wg_rotation_interval (Settings.wireguard o) with
                         | Some ivl => d ← duration_of_std (as_duration ivl); Some (Some d) | None => Some None end = Some d
                         /\ try_option RotationInterval_try_from d = Ok (wg_rotation_interval (Settings.wireguard o))).
  { destruct (wg_rotation_interval _) as [i|]; [|by exists None].
    destruct (duration_round_trip (as_duration i)) as (p & Hp & Hp'); [by apply rotation_in_range|]. exists (Some p). rewrite Hp.
    split; [done|]. simpl. unfold RotationInterval_try_from. rewrite Hp'. simpl. by rewrite Hr. }
  destruct Hd as (d & -> & Hd). simpl. eexists. split; [done|]. unfold TunnelOptions_try_from, QuantumResistantState_try_from. simpl.
  rewrite Hd. simpl. rewrite of_to_i32. simpl. rewrite dns_back by done. simpl.
  assert (Hm' : as_u16 <$> wg_mtu (Settings.wireguard o) = wg_mtu (Settings.wireguard o)).
  { destruct (wg_mtu _); [|done]. simpl in *. by rewrite as_u16_ok. }
  rewrite Hm'. destruct o as [[? ? [? []] ? ?] [] ?]; done.
Qed.
End roundtrip.

Lemma settings_back `{FL : FormatsLaws} s :
  settings_ok s -> exists p, from_Settings s = Some p /\ Settings_try_from p = Ok (seen_settings s).
Proof.
  intros (H1 & H2 & H3 & H4 & H5 & H6). unfold from_Settings. destruct (tunnel_options_back _ H5) as (o & Ho & Ho').
  rewrite Ho. simpl. eexists. split; [done|]. unfold Settings_try_from. simpl.
  rewrite relay_settings_back by done. simpl. rewrite Ho'. simpl.
  rewrite try_map_back by (eapply Forall_impl; [done|apply override_back]). simpl. rewrite obfuscation_back by done. simpl.
  unfold CustomListsSettings_try_from. simpl. rewrite try_map_back by (eapply Forall_impl; [done|apply custom_list_back]). simpl.
  by rewrite access_settings_back.
Qed.

(** * What is broadcast is what clients read *)
From S2P Require Import Version VersionProps VersionUpdate VersionRouter Daemon ProtoState.

#[global] Instance FeatureIndicator_enum : EnumLaws FeatureIndicator.
Proof. by intros []. Qed.
#[global] Instance ActionAfterDisconnect_enum : EnumLaws ActionAfterDisconnect.
Proof. by intros []. Qed.
#[global] Instance CauseKind_enum : EnumLaws CauseKind.
Proof. by intros []. Qed.
#[global] Instance AuthFailedReason_enum : EnumLaws AuthFailedReason.
Proof. by intros []. Qed.
#[global] Instance GenerationError_enum : EnumLaws ParameterGenerationError.
Proof. by intros [| | | | |[]]. Qed.
#[global] Instance PolicyError_enum : EnumLaws FirewallPolicyError.
Proof. by intros []. Qed.
#[global] Instance ObfuscationType_enum : EnumLaws ObfuscationType.
Proof. by intros []. Qed.
#[global] Instance DeviceStateKind_enum : EnumLaws DeviceStateKind.
Proof. by intros []. Qed.
#[global] Instance DeviceEventCause_enum : EnumLaws DeviceEventCause.
Proof. by intros []. Qed.

(** ** The values of the types *)
Definition endpoint_ok (e : Endpoint) : Prop := socket_ok (address e).
Definition info_ok (i : ObfuscationInfo) : Prop :=
  match i with
  | InfoSingle e => endpoint_ok (oe_endpoint e)
  | InfoMultiplexer direct l => option_ok endpoint_ok direct /\ Forall (fun e => endpoint_ok (oe_endpoint e)) l
  end.
Definition tunnel_endpoint_ok (e : TunnelEndpoint) : Prop :=
  endpoint_ok (te_endpoint e) /\ option_ok info_ok (te_obfuscation e) /\ option_ok endpoint_ok (NetTypes.entry_endpoint e).
Definition geo_ok (g : GeoIpLocation) : Prop := option_ok ipv4_ok (geo_ipv4 g) /\ option_ok ipv6_ok (geo_ipv6 g).
Definition state_ok (s : Daemon.TunnelState) : Prop :=
  match s with
  | Disconnected l _ => option_ok geo_ok l
  | Connecting e l f | Connected e l f => tunnel_endpoint_ok e /\ option_ok geo_ok l /\ NoDup f
  | Disconnecting _ | InError _ => True
  end.

Definition quic_ok (q : QuicData) : Prop := addr_in q <> [] /\ NoDup (addr_in q) /\ Forall ip_ok (addr_in q).
Definition relay_inner_ok (r : Relay) : Prop := ipv4_ok (ipv4_addr_in r) /\ option_ok ipv6_ok (ipv6_addr_in r).
Definition relay_ok (r : WireguardRelay) : Prop :=
  let d := endpoint_data r in
  key_ok (relay_public_key d) /\ option_ok quic_ok (relay_quic d)
  /\ NoDup (shadowsocks_extra_addr_in d) /\ Forall ip_ok (shadowsocks_extra_addr_in d) /\ relay_inner_ok (inner r).
Definition range_ok (r : port_range) : Prop := u16_ok r.1 /\ u16_ok r.2.
Definition endpoint_data_ok (d : EndpointData) : Prop :=
  Forall range_ok (port_ranges d) /\ ipv4_ok (ed_ipv4_gateway d) /\ ipv6_ok (ed_ipv6_gateway d)
  /\ Forall range_ok (shadowsocks_port_ranges d) /\ Forall u16_ok (udp2tcp_ports d).
Definition relay_list_ok (l : RelayList) : Prop :=
  Forall (fun c => Forall (fun c => Forall relay_ok (RelayTypes.relays c)) (RelayTypes.cities c)) (RelayTypes.countries l)
  /\ endpoint_data_ok (RelayTypes.wireguard l).

(** The key of a device, and a date that can be told. *)
Definition device_ok (d : Device) : Prop := length (pubkey d) = WG_KEY_SIZE /\ seconds_ok (timestamp (device_created d)).
Definition device_state_ok (s : DeviceState) : Prop := match s with IsLoggedIn d => device_ok (ad_device d) | _ => True end.

(** The version of an upgrade has a year of four digits. *)
Definition upgrade_ok (u : SuggestedUpgrade) : Prop := version_ok (upgrade_version u) /\ (1000 <= year (upgrade_version u))%Z.
Definition info_of_app_ok (i : AppVersionInfo) : Prop := option_ok upgrade_ok (suggested_upgrade i).

Definition event_ok `{Formats} (e : DaemonEvent) : Prop :=
  match e with
  | EventTunnelState s => state_ok s
  | EventSettings s => settings_ok s
  | EventRelayList l => relay_list_ok l
  | EventVersionInfo i => info_of_app_ok i
  | EventDevice e => device_state_ok (ProtoState.new_state e)
  | EventRemoveDevice e => Forall device_ok (new_devices e)
  | EventNewAccessMethod m => method_ok m
  | EventLeak l => Forall ip_ok (reachable_nodes l)
  end.

(** ** What clients see *)
(** Only the kind of a failed authentication is sent. *)
Definition seen_cause (c : ErrorStateCause) : ErrorStateCause :=
  match c with AuthFailed r => AuthFailed (Some (as_str (default UnknownReason (auth_failed_of_cause c)))) | _ => c end.
Definition seen_state (s : Daemon.TunnelState) : Daemon.TunnelState :=
  match s with
  | InError e => InError {| cause := seen_cause (cause e); block_failure := block_failure e |}
  | _ => s
  end.
(** Not which addresses of a relay are the user's. *)
Definition seen_relay (r : WireguardRelay) : WireguardRelay :=
  {| overridden_ipv4 := false; overridden_ipv6 := false; include_in_country := include_in_country r; owned := owned r;
     provider := provider r; endpoint_data := endpoint_data r; inner := inner r |}.
Definition seen_city (c : RelayListCity) : RelayListCity :=
  {| rc_name := rc_name c; rc_code := rc_code c; rc_latitude := rc_latitude c; rc_longitude := rc_longitude c;
     RelayTypes.relays := map seen_relay (RelayTypes.relays c) |}.
Definition seen_relay_list (l : RelayList) : RelayList :=
  {| RelayTypes.countries := map (fun c => {| rlc_name := rlc_name c; rlc_code := rlc_code c; RelayTypes.cities := map seen_city (RelayTypes.cities c) |}) (RelayTypes.countries l);
     RelayTypes.wireguard := RelayTypes.wireguard l |}.
(** Dates in whole seconds. *)
Definition seen_device (d : Device) : Device :=
  {| device_id := device_id d; device_name := device_name d; pubkey := pubkey d; device_hijack_dns := device_hijack_dns d;
     device_created := (timestamp (device_created d) * NANOS_PER_SEC)%Z |}.
Definition seen_device_state (s : DeviceState) : DeviceState :=
  match s with
  | IsLoggedIn d => IsLoggedIn {| ad_account_number := ad_account_number d; ad_device := seen_device (ad_device d) |}
  | _ => s
  end.
(** No path that is not a text. *)
Definition seen_upgrade `{Paths} (u : SuggestedUpgrade) : SuggestedUpgrade :=
  {| upgrade_version := upgrade_version u; upgrade_changelog := upgrade_changelog u;
     verified_installer_path := p ← verified_installer_path u; path_to_str p |}.
Definition seen_info `{Paths} (i : AppVersionInfo) : AppVersionInfo :=
  {| app_current_version_supported := app_current_version_supported i; suggested_upgrade := seen_upgrade <$> suggested_upgrade i |}.
Definition seen_event `{Paths} (e : DaemonEvent) : DaemonEvent :=
  match e with
  | EventTunnelState s => EventTunnelState (seen_state s)
  | EventSettings s => EventSettings (seen_settings s)
  | EventRelayList l => EventRelayList (seen_relay_list l)
  | EventVersionInfo i => EventVersionInfo (seen_info i)
  | EventDevice e => EventDevice {| de_cause := de_cause e; new_state := seen_device_state (ProtoState.new_state e) |}
  | EventRemoveDevice e =>
      EventRemoveDevice {| rd_account_number := rd_account_number e; new_devices := map seen_device (new_devices e) |}
  | EventNewAccessMethod _ | EventLeak _ => e
  end.

Section roundtrip.
Context `{FL : FormatsLaws} `{DL : DatesLaws}.

(** ** The state of the tunnel *)
Lemma endpoint_back e : endpoint_ok e -> Endpoint_try_from (from_Endpoint e) = Ok e.
Proof.
  intros He. unfold Endpoint_try_from, arg_from_str. simpl. rewrite parse_show_socket by done. simpl. rewrite protocol_back. by destruct e.
Qed.

Lemma obfuscation_endpoint_back e :
  endpoint_ok (oe_endpoint e) -> ObfuscationEndpoint_try_from (from_ObfuscationEndpoint e) = Ok e.
Proof. intros He. unfold ObfuscationEndpoint_try_from. simpl. rewrite endpoint_back by done. simpl. rewrite of_to_i32. by destruct e. Qed.

Lemma info_back i : info_ok i -> ObfuscationInfo_try_from (from_ObfuscationInfo i) = Ok i.
Proof.
  destruct i as [e|d l]; unfold ObfuscationInfo_try_from; simpl.
  - intros He. by rewrite obfuscation_endpoint_back.
  - intros [Hd Hl]. rewrite try_option_back by (revert Hd; apply option_ok_mono, endpoint_back). simpl.
    by rewrite try_map_back by (eapply Forall_impl; [done|apply obfuscation_endpoint_back]).
Qed.

Lemma tunnel_endpoint_back e : tunnel_endpoint_ok e -> TunnelEndpoint_try_from (from_TunnelEndpoint e) = Ok e.
Proof.
  intros (He & Hi & Hn). unfold TunnelEndpoint_try_from, arg_from_str. simpl. rewrite parse_show_socket by done. simpl.
  rewrite protocol_back. simpl. rewrite try_option_back by (revert Hi; apply option_ok_mono, info_back). simpl.
  rewrite (try_option_back _ from_Endpoint).
  - destruct e as [[] ? ? ? ? ?]; done.
  - revert Hn. apply option_ok_mono. intros [a p] Ha. simpl. rewrite parse_show_socket by done. simpl. by rewrite protocol_back.
Qed.

Lemma geo_back g : geo_ok g -> GeoIpLocation_try_from (from_GeoIpLocation g) = Ok g.
Proof.
  intros [H4 H6]. unfold GeoIpLocation_try_from, arg_from_str. simpl.
  rewrite ok_or_option by (revert H4; apply option_ok_mono, parse_show_ipv4). simpl.
  rewrite ok_or_option by (revert H6; apply option_ok_mono, parse_show_ipv6). by destruct g.
Qed.

Lemma geo_option_back l : option_ok geo_ok l -> try_option GeoIpLocation_try_from (from_GeoIpLocation <$> l) = Ok l.
Proof. intros Hl. apply try_option_back. revert Hl. apply option_ok_mono, geo_back. Qed.

Lemma remove_dups_id {A} `{EqDecision A} (l : list A) : NoDup l -> remove_dups l = l.
Proof.
  induction 1 as [|x l Hx _ IH]; [done|]. simpl. destruct (decide_rel elem_of x l); [done|]. by rewrite IH.
Qed.

Lemma omap_back {A} `{EnumLaws A} (l : list A) : omap of_i32 (map to_i32 l) = l.
Proof.
  induction l as [|a l IH]; [done|].
  change (match of_i32 (to_i32 a) with Some b => b :: omap of_i32 (map to_i32 l) | None => omap of_i32 (map to_i32 l) end = a :: l).
  by rewrite of_to_i32, IH.
Qed.

Lemma features_back l : NoDup l -> FeatureIndicators_from (from_FeatureIndicators l) = l.
Proof. intros Hl. unfold FeatureIndicators_from, from_FeatureIndicators. rewrite omap_back. by apply remove_dups_id. Qed.

Lemma relay_info_back e l f :
  tunnel_endpoint_ok e -> option_ok geo_ok l -> NoDup f ->
  relay_info_try_from (from_TunnelEndpoint e) (from_GeoIpLocation <$> l) (Some (from_FeatureIndicators f)) = Ok (e, l, f).
Proof.
  intros He Hl Hf. unfold relay_info_try_from. rewrite tunnel_endpoint_back by done. simpl. rewrite geo_option_back by done. simpl.
  by rewrite features_back.
Qed.

Lemma policy_error_back x :
  try_option (fun b => try_firewall_policy_error_from_i32 (pf_type b)) (map_firewall_error <$> x) = Ok x.
Proof. apply try_option_back. destruct x; [|done]. simpl. unfold try_firewall_policy_error_from_i32. by rewrite of_to_i32. Qed.

Lemma error_state_back e :
  ErrorState_try_from (from_ErrorState e) = Ok {| cause := seen_cause (cause e); block_failure := block_failure e |}.
Proof.
  unfold ErrorState_try_from. cbn [pes_cause from_ErrorState pes_blocking_error pes_auth_failed_error pes_parameter_error pes_policy_error].
  rewrite of_to_i32, policy_error_back. destruct (cause e) as [[r|]| |p| | |p|]; simpl; try done.
  - unfold try_auth_failed_from_i32. by rewrite of_to_i32.
  - unfold try_firewall_policy_error_from_i32. by rewrite of_to_i32.
  - by rewrite of_to_i32.
Qed.

Lemma state_back s : state_ok s -> TunnelState_try_from (from_TunnelState s) = Ok (seen_state s).
Proof.
  destruct s as [l b|e l f|e l f|a|e]; unfold TunnelState_try_from; simpl.
  - intros Hl. by rewrite geo_option_back.
  - intros (He & Hl & Hf). by rewrite relay_info_back.
  - intros (He & Hl & Hf). by rewrite relay_info_back.
  - intros _. by rewrite of_to_i32.
  - intros _. by rewrite error_state_back.
Qed.

(** ** Relays *)
Lemma quic_back q : quic_ok q -> Quic_try_from (from_Quic q) = Ok q.
Proof.
  intros (Hn & Hd & Hi). unfold Quic_try_from. simpl. rewrite ok_or_list by (eapply Forall_impl; [done|apply parse_show_ip]). simpl.
  rewrite bool_decide_eq_false_2 by done. rewrite remove_dups_id by done. by destruct q.
Qed.

Lemma relay_back r : relay_ok r -> WireguardRelay_try_from (from_WireguardRelay r) = Ok (seen_relay r).
Proof.
  intros (Hk & Hq & Hd & Hs & H4 & H6). unfold WireguardRelay_try_from, bytes_to_pubkey. simpl. rewrite wg_key_ok by done. simpl.
  rewrite try_option_back by (revert Hq; apply option_ok_mono, quic_back). simpl.
  rewrite ok_or_list by (eapply Forall_impl; [done|apply parse_show_ip]). simpl. rewrite parse_show_ipv4 by done. simpl.
  rewrite ok_or_option by (revert H6; apply option_ok_mono, parse_show_ipv6). simpl. rewrite remove_dups_id by done.
  by destruct r as [? ? ? ? ? [] []].
Qed.

Lemma range_back r : range_ok r -> PortRange_try_from (from_PortRange r) = Ok r.
Proof.
  intros [H1 H2]. unfold PortRange_try_from, u16_try_from. simpl. rewrite !bool_decide_eq_true_2 by done. by destruct r.
Qed.

Lemma endpoint_data_back d : endpoint_data_ok d -> EndpointData_try_from (from_EndpointData d) = Ok d.
Proof.
  intros (Hp & H4 & H6 & Hs & Hu). unfold EndpointData_try_from. simpl.
  rewrite try_map_back by (eapply Forall_impl; [exact Hp|apply range_back]). simpl. rewrite parse_show_ipv4, parse_show_ipv6 by done. simpl.
  rewrite try_map_back by (eapply Forall_impl; [exact Hs|apply range_back]). simpl.
  assert (Hm : try_map (fun p => ok_or (u16_try_from p) "invalid udp2tcp port") (udp2tcp_ports d) = Ok (udp2tcp_ports d)).
  { rewrite <- (map_id (udp2tcp_ports d)) at 1. apply try_map_back. eapply Forall_impl; [done|]. intros p Hpt. unfold u16_try_from.
    by rewrite bool_decide_eq_true_2. }
  rewrite Hm. by destruct d.
Qed.

Lemma relay_list_back l : relay_list_ok l -> RelayList_try_from (from_RelayList l) = Ok (seen_relay_list l).
Proof.
  intros [Hc He]. unfold RelayList_try_from. simpl.
  rewrite (try_map_map _ _ (fun c => {| rlc_name := rlc_name c; rlc_code := rlc_code c; RelayTypes.cities := map seen_city (RelayTypes.cities c) |})).
  - simpl. by rewrite endpoint_data_back.
  - eapply Forall_impl; [done|]. intros c Hcs. unfold RelayListCountry_try_from. simpl. rewrite (try_map_map _ _ seen_city); [done|].
    eapply Forall_impl; [exact Hcs|]. intros y Hy. unfold RelayListCity_try_from. simpl. rewrite (try_map_map _ _ seen_relay); [done|].
    eapply Forall_impl; [exact Hy|apply relay_back].
Qed.

(** ** Devices *)
Lemma device_back d : device_ok d -> Device_try_from (from_Device d) = Ok (seen_device d).
Proof.
  intros [Hk Hs]. unfold Device_try_from, key_of_bytes. simpl. rewrite from_timestamp_ok by done. rewrite Hk. simpl.
  by rewrite Z.add_0_r.
Qed.

Lemma device_state_back s : device_state_ok s -> DeviceState_try_from (from_DeviceState s) = Ok (seen_device_state s).
Proof.
  intros Hs. unfold DeviceState_try_from. cbn [pds_state from_DeviceState]. rewrite of_to_i32. destruct s as [d| |]; simpl; [|done..].
  by rewrite device_back.
Qed.

(** ** Versions *)
Lemma version_info_back `{Paths} `{HR : VersionRegex} `{!VersionRegexLaws HR} i :
  info_of_app_ok i -> AppVersionInfo_try_from (from_AppVersionInfo i) = Ok (seen_info i).
Proof.
  destruct i as [s [u|]]; [|done]. simpl. intros [Hv Hy]. unfold AppVersionInfo_try_from, SuggestedUpgrade_try_from. simpl.
  assert (Hb : Version.from_str (Version.to_string (upgrade_version u)) = Some (Ok (upgrade_version u))).
  { rewrite <- canonical_to_string by done. apply from_captures; [done|]. by apply (captures_version []). }
  by rewrite Hb.
Qed.

Lemma upgrade_event_back e :
  match e with DownloadProgress p => option_ok (fun d => (0 <= d < 2 ^ 63 * 10 ^ 9)%Z) (up_time_left p) | _ => True end ->
  exists p, from_AppUpgradeEvent e = Some p /\ AppUpgradeEvent_try_from (Some p) = Some (Ok e).
Proof.
  destruct e as [|[s n [d|]]| | | |e]; simpl; intros Hd; try by eexists.
  - destruct (duration_round_trip d Hd) as (p & Hp & Hb). unfold from_AppUpgradeDownloadProgress. simpl. rewrite Hp. simpl.
    eexists. split; [done|]. simpl. unfold AppUpgradeDownloadProgress_try_from. simpl. by rewrite Hb.
  - eexists. split; [done|]. simpl. by destruct e.
Qed.

Lemma nodes_back l : Forall ip_ok l -> mapM parse_ip (map show_ip l) = Some l.
Proof. induction 1 as [|a l Ha _ IH]; [done|]. simpl. rewrite parse_show_ip by done. simpl. by rewrite IH. Qed.
End roundtrip.

(** Making the message of an event never panics, and a client that reads it gets the event, apart from: what
    [settings] leave out, the wording of a failed authentication, which addresses of relays are the user's, an
    installer's path that is not a text, and fractions of seconds. *)
Lemma event_back `{FL : FormatsLaws} `{DL : DatesLaws} `{Paths} `{HR : VersionRegex} `{!VersionRegexLaws HR} e :
  event_ok e -> exists p, notify_event e = Some p /\ DaemonEvent_try_from p = Ok (seen_event e).
Proof.
  destruct e as [s|s|l|i|e|e|m|l]; simpl; intros He.
  - eexists. split; [done|]. simpl. by rewrite state_back.
  - destruct (settings_back s He) as (p & Hp & Hb). exists (PEventSettings p). rewrite Hp. split; [done|]. simpl. by rewrite Hb.
  - eexists. split; [done|]. simpl. by rewrite relay_list_back.
  - eexists. split; [done|]. simpl. by rewrite version_info_back.
  - eexists. split; [done|]. simpl. unfold DeviceEvent_try_from. simpl. rewrite of_to_i32. simpl. by rewrite device_state_back.
  - eexists. split; [done|]. simpl. unfold RemoveDeviceEvent_try_from. simpl.
    by rewrite (try_map_map _ _ seen_device) by (eapply Forall_impl; [done|apply device_back]).
  - eexists. split; [done|]. simpl. by rewrite method_back.
  - eexists. split; [done|]. simpl. unfold LeakInfo_try_from. rewrite nodes_back by done. by destruct l.
Qed.
