(* ===== verification/ManagementInterface.v ===== *)
(** * The management interface

    [src/mullvad-daemon/src/management_interface.rs] and [relay_selector.rs] in the Linux build, the status
    of an error ([settings/mod.rs], [settings/patch.rs]), and the client of
    [src/mullvad-management-interface/src/client.rs].

    A remote procedure is a function of its request: it converts what it was sent, sends the daemon a command
    ([send_command_to_daemon]), and makes a response or a status of the answer.  The answer that a command's
    sender is for is its [Answer].  What is outside is an argument: whether the daemon's channel is open,
    what each command is answered, if it is, and whether a log filter is accepted.  A procedure that panics
    yields [None].  The logs and the events of upgrades are streams, and are left out. *)

From stdpp Require Import base list strings gmap option numbers sets.
From S2P Require Import Version VersionUpdate VersionRouter.
From S2P Require Import Prelude Migrations Retry DeviceService DeviceManager AccessMethods NetTypes TunnelTypes FirewallPolicy.
From S2P Require Import TargetState SettingsPatch RelayTypes RelaySelector Settings SettingsPersister Daemon ParametersGenerator.
From S2P Require Import ProtoSettings ProtoState.
Local Open Scope vpn_scope.

Notation Command := (@DaemonCommand CustomProxy).

(** ** The answers of commands *)
(** [split_tunnel::Error] of [talpid-core]. *)
Inductive SplitTunnelError : Type := PidManagerError.

Definition Answer (c : Command) : Type :=
  match c with
  | SetTargetState _ _ | Reconnect _ | IsPerformingPostUpgrade _ | SplitTunnelIsSupported _ => bool
  | GetState _ => Daemon.TunnelState
  | CreateNewAccount _ | GetWwwAuthToken _ => result string DaemonError
  | GetAccountData _ _ => result AccountData DeviceService.RestError
  | SubmitVoucherCode _ _ => result VoucherSubmission DaemonError
  | GetAccountHistory _ => option AccountNumber
  | GetRelayLocations _ => RelayList
  | GetBridges _ => BridgeList
  | GetDevice _ => result DeviceState DaemonError
  | ListDevices _ _ => result (list Device) DaemonError
  | ClearAccountHistory _ | LoginAccount _ _ | LogoutAccount _ | UpdateDevice _ | RemoveDevice _ _ _
  | RotateWireguardKey _ | DeleteCustomList _ _ | UpdateCustomList _ _ | ClearCustomLists _
  | RemoveApiAccessMethod _ _ | SetApiAccessMethod _ _ | UpdateApiAccessMethod _ _ | ClearCustomApiAccessMethods _
  | FactoryReset _ => result unit DaemonError
  | SetRelaySettings _ _ | SetAllowLan _ _ | SetShowBetaReleases _ _ | SetLockdownMode _ _ | SetAutoConnect _ _
  | SetEnableIpv6 _ _ | SetUserspaceWireguard _ _ | SetEnableRecents _ _ | SetQuantumResistantTunnel _ _
  | SetEnableDaita _ _ | SetDaitaUseMultihopIfNecessary _ _ | SetDaitaSettings _ _ | SetDnsOptions _ _
  | SetRelayOverride _ _ | ClearAllRelayOverrides _ | SetWireguardMtu _ _ | SetWireguardAllowedIps _ _
  | SetWireguardRotationInterval _ _ | ResetSettings _ | SetObfuscationSettings _ _
  | UpdateDefaultLocationCountry _ => result unit SettingsError
  | GetSettings _ => DaemonSettings
  | GetWireguardKey _ => result (option (Key * Z)) DaemonError
  | CreateCustomList _ _ _ => result Z DaemonError
  | AddApiAccessMethod _ _ _ _ => result nat DaemonError
  | GetCurrentAccessMethod _ => result AccessMethodSetting DaemonError
  | TestApiAccessMethodById _ _ | TestCustomApiAccessMethod _ _ => result bool DaemonError
  | GetVersionInfo _ => result AppVersionInfo DaemonError
  | GetCurrentVersion _ => Version
  | GetSplitTunnelProcesses _ => result (list Z) SplitTunnelError
  | AddSplitTunnelProcess _ _ | RemoveSplitTunnelProcess _ _ | ClearSplitTunnelProcesses _ => result unit SplitTunnelError
  | ApplyJsonSettings _ _ => result unit (PatchError + SettingsError)
  | ExportJsonSettings _ => result string (PatchError + SettingsError)
  | GetFeatureIndicators _ => list FeatureIndicator
  | DisableRelay _ _ | EnableRelay _ _ | SetRolloutThresholdSeed _ _ => unit
  | GetRolloutThreshold _ | GenerateNewRolloutSeed _ => f32
  | AppUpgrade _ | AppUpgradeAbort _ => result unit VersionError
  | GetAppUpgradeCacheDir _ => result text VersionError
  (** These have no sender. *)
  | UpdateRelayLocations | PrepareRestart _ => Empty_set
  end.

(** ** Statuses *)
Inductive Code : Type :=
| CodeUnknown | CodeInvalidArgument | CodeDeadlineExceeded | CodeNotFound | CodeAlreadyExists | CodeUnauthenticated
| CodeResourceExhausted | CodeFailedPrecondition | CodeInternal | CodeUnavailable.
#[global] Instance Code_eq_dec : EqDecision Code.
Proof. solve_decision. Defined.

(** A message is made of words, or is the text of an error, which is not spelled out. *)
Inductive StatusMessage : Type :=
| Words (s : string)
| DaemonText (e : DaemonError) | SettingsText (e : SettingsError) | PatchText (e : PatchError) | ListText (e : CustomListError)
| MethodText (e : AccessMethods.SettingsError) | DeviceText (e : DeviceService.Error) | RestText (e : DeviceService.RestError)
| HistoryText (e : HistoryError) | VersionText (e : VersionError) | IntervalText (e : RotationIntervalError)
| SplitTunnelText (e : SplitTunnelError) | AllowedIpsText (e : AllowedIpParseError).
Record Status : Type := { code : Code; message : StatusMessage; details : string }.
Definition Status_new (c : Code) (m : StatusMessage) : Status := {| code := c; message := m; details := EmptyString |}.

Definition API_ACCESS_METHOD_EXISTS_DETAILS : string := "api_access_method_exists".
Definition CUSTOM_LIST_LIST_NOT_FOUND_DETAILS : string := "custom_list_list_not_found".
Definition CUSTOM_LIST_LIST_EXISTS_DETAILS : string := "custom_list_list_exists".
Definition CUSTOM_LIST_LIST_NAME_TOO_LONG_DETAILS : string := "custom_list_list_name_too_long".

Definition INVALID_VOUCHER_MESSAGE : string := "This voucher code is invalid".
Definition USED_VOUCHER_MESSAGE : string := "This voucher code has already been used".

Definition map_protobuf_type_err (err : FromProtobufTypeError) : Status :=
  match err with InvalidArgument err => Status_new CodeInvalidArgument (Words err) end.

Definition handle_custom_list_error (e : CustomListError) : Status :=
  match e with
  | ListExists | RelayTypes.DuplicateName =>
      {| code := CodeAlreadyExists; message := ListText e; details := CUSTOM_LIST_LIST_EXISTS_DETAILS |}
  | NameTooLong => {| code := CodeInvalidArgument; message := ListText e; details := CUSTOM_LIST_LIST_NAME_TOO_LONG_DETAILS |}
  | ListNotFound => {| code := CodeNotFound; message := ListText e; details := CUSTOM_LIST_LIST_NOT_FOUND_DETAILS |}
  end.
Definition handle_api_access_method_error (e : AccessMethods.SettingsError) : Status :=
  match e with
  | AccessMethods.DuplicateName =>
      {| code := CodeAlreadyExists; message := MethodText e; details := API_ACCESS_METHOD_EXISTS_DETAILS |}
  | _ => Status_new CodeUnknown (MethodText e)
  end.
Definition Status_from_settings (error : SettingsError) : Status :=
  match error with
  | DeleteError | WriteError | SettingsPersister.ReadError _ => Status_new CodeFailedPrecondition (SettingsText error)
  | UpdateFailed (CustomListFailure err) => handle_custom_list_error err
  | UpdateFailed (AccessMethodFailure err) => handle_api_access_method_error err
  | SerializeError | ParseError | ParseIp => Status_new CodeInternal (SettingsText error)
  end.
Definition Status_from_patch (error : PatchError + SettingsError) : Status :=
  match error with
  | inl (SerializeSettings as e) | inl (SerializeValue as e) => Status_new CodeInternal (PatchText e)
  | inl e => Status_new CodeInvalidArgument (PatchText e)
  | inr e => Status_from_settings e
  end.

Definition UNAUTHORIZED : Z := 401.
Definition FORBIDDEN : Z := 403.
Definition BAD_REQUEST : Z := 400.
Definition TOO_MANY_REQUESTS : Z := 429.
Definition map_rest_error (error : DeviceService.RestError) : Status :=
  match error with
  | ApiError status message =>
      if bool_decide (status = UNAUTHORIZED \/ status = FORBIDDEN) then Status_new CodeUnauthenticated (Words message)
      else if bool_decide (status = BAD_REQUEST) then Status_new CodeInvalidArgument (Words message)
      else if bool_decide (status = TOO_MANY_REQUESTS) then Status_new CodeResourceExhausted (Words "429 Too Many Requests")
      else Status_new CodeUnknown (RestText error)
  | TimeoutError => Status_new CodeDeadlineExceeded (Words "API request timed out")
  | HyperError | LegacyHyperError => Status_new CodeUnavailable (Words "Cannot reach the API")
  | error => Status_new CodeUnknown (RestText error)
  end.

Definition map_device_error (error : DeviceService.Error) : Status :=
  match error with
  | MaxDevicesReached => Status_new CodeResourceExhausted (DeviceText error)
  | InvalidAccount => Status_new CodeUnauthenticated (DeviceText error)
  | InvalidDevice | NoDevice => Status_new CodeNotFound (DeviceText error)
  | InvalidVoucher => Status_new CodeNotFound (Words INVALID_VOUCHER_MESSAGE)
  | UsedVoucher => Status_new CodeResourceExhausted (Words USED_VOUCHER_MESSAGE)
  | DeviceIoError => Status_new CodeUnavailable (DeviceText error)
  | OtherRestError error => map_rest_error error
  | _ => Status_new CodeUnknown (DeviceText error)
  end.

Definition map_account_history_error (error : HistoryError) : Status :=
  match error with
  | HistoryRead | HistoryWrite => Status_new CodeFailedPrecondition (HistoryText error)
  | HistorySerialize | HistoryWriteCancelled => Status_new CodeInternal (HistoryText error)
  end.

Definition map_version_check_error (error : VersionError) : Status :=
  match error with
  | DownloadFailure | ReadVersionCache | ApiCheckFailure => Status_new CodeUnavailable (VersionText error)
  | _ => Status_new CodeUnknown (VersionText error)
  end.

Definition map_daemon_error (error : DaemonError) : Status :=
  match error with
  | RestFailure error => map_rest_error error
  | SettingsFailure error => Status_from_settings error
  | AlreadyLoggedIn => Status_new CodeAlreadyExists (DaemonText error)
  | LoginError error | LogoutError error | KeyRotationError error | ListDevicesError error | RemoveDeviceError error
  | UpdateDeviceError error | VoucherFailure error => map_device_error error
  | HistoryFailure error => map_account_history_error error
  | NoAccountNumber => Status_new CodeUnauthenticated (DaemonText error)
  | VersionCheckError error => map_version_check_error error
  | error => Status_new CodeUnknown (DaemonText error)
  end.

Definition map_split_tunnel_error (error : SplitTunnelError) : Status := Status_new CodeFailedPrecondition (SplitTunnelText error).

(** ** Requests and responses *)
Record PPublicKey : Type := { ppk_key : Key; ppk_created : option PTimestamp }.

Inductive Request : Type :=
| ReqConnectTunnel | ReqDisconnectTunnel (source : string) | ReqReconnectTunnel | ReqGetTunnelState
| ReqPrepareRestart | ReqPrepareRestartV2 (shutdown : bool) | ReqFactoryReset
| ReqGetCurrentVersion | ReqGetVersionInfo | ReqIsPerformingPostUpgrade
| ReqUpdateRelayLocations | ReqSetRelaySettings (s : PRelaySettings) | ReqGetRelayLocations | ReqGetBridges
| ReqSetObfuscationSettings (s : PObfuscationSettings)
| ReqGetSettings | ReqResetSettings
| ReqSetAllowLan (b : bool) | ReqSetShowBetaReleases (b : bool) | ReqSetLockdownMode (b : bool) | ReqSetAutoConnect (b : bool)
| ReqSetWireguardMtu (mtu : Z) | ReqSetEnableIpv6 (b : bool) | ReqSetUserspaceWireguard (b : bool)
| ReqSetQuantumResistantTunnel (state : Z)
| ReqSetEnableDaita (b : bool) | ReqSetDaitaDirectOnly (b : bool) | ReqSetDaitaSettings (s : PDaitaSettings)
| ReqSetDnsOptions (o : PDnsOptions) | ReqSetRelayOverride (o : PRelayOverride) | ReqClearAllRelayOverrides
| ReqCreateNewAccount | ReqLoginAccount (n : AccountNumber) | ReqLogoutAccount (source : string) | ReqDeleteAccount
| ReqGetAccountData (n : AccountNumber) | ReqGetAccountHistory | ReqClearAccountHistory | ReqGetWwwAuthToken
| ReqSubmitVoucher (voucher : string)
| ReqGetDevice | ReqUpdateDevice | ReqListDevices (n : AccountNumber) | ReqRemoveDevice (n : AccountNumber) (i : DeviceId)
| ReqSetWireguardRotationInterval (d : PDuration) | ReqResetWireguardRotationInterval
| ReqRotateWireguardKey | ReqGetWireguardKey | ReqSetWireguardAllowedIps (values : list string)
| ReqCreateCustomList (name : string) (locations : list PGeographicLocationConstraint) | ReqDeleteCustomList (i : string)
| ReqUpdateCustomList (l : PCustomList) | ReqClearCustomLists
| ReqAddApiAccessMethod (name : string) (enabled : bool) (m : option PAccessMethod)
| ReqRemoveApiAccessMethod (i : string) | ReqSetApiAccessMethod (i : string) | ReqUpdateApiAccessMethod (m : PAccessMethodSetting)
| ReqClearCustomApiAccessMethods | ReqGetCurrentApiAccessMethod
| ReqTestCustomApiAccessMethod (p : PCustomProxy) | ReqTestApiAccessMethodById (i : string)
| ReqSplitTunnelIsSupported | ReqGetSplitTunnelProcesses | ReqAddSplitTunnelProcess (pid : Z)
| ReqRemoveSplitTunnelProcess (pid : Z) | ReqClearSplitTunnelProcesses
| ReqAddSplitTunnelApp (path : text) | ReqRemoveSplitTunnelApp (path : text) | ReqClearSplitTunnelApps
| ReqSetSplitTunnelState (b : bool) | ReqGetExcludedProcesses | ReqNeedFullDiskPermissions | ReqCheckVolumes
| ReqApplyJsonSettings (blob : string) | ReqExportJsonSettings | ReqInitPlayPurchase | ReqVerifyPlayPurchase
| ReqGetFeatureIndicators | ReqSetLogFilter (log_filter : string) | ReqDisableRelay (relay : string) | ReqEnableRelay (relay : string)
| ReqGetRolloutThreshold | ReqSetRolloutThresholdSeed (seed : Z) | ReqRegenerateRolloutThreshold
| ReqAppUpgrade | ReqAppUpgradeAbort | ReqGetAppUpgradeCacheDir | ReqSetEnableRecents (b : bool)
| ReqGetMigrationEvent | ReqClearMigrationMessage.

(** What a procedure responds; the others respond nothing.  The split-filter migration is not a message with
    content yet. *)
Definition Reply_to (r : Request) : Type :=
  match r with
  | ReqConnectTunnel | ReqDisconnectTunnel _ | ReqReconnectTunnel | ReqIsPerformingPostUpgrade
  | ReqTestCustomApiAccessMethod _ | ReqTestApiAccessMethodById _ | ReqSplitTunnelIsSupported
  | ReqNeedFullDiskPermissions => bool
  | ReqGetTunnelState => PTunnelState
  | ReqCreateNewAccount | ReqGetWwwAuthToken | ReqCreateCustomList _ _ | ReqAddApiAccessMethod _ _ _
  | ReqExportJsonSettings | ReqInitPlayPurchase => string
  | ReqGetCurrentVersion | ReqGetAppUpgradeCacheDir => text
  | ReqGetVersionInfo => PAppVersionInfo
  | ReqGetRelayLocations => PRelayList
  | ReqGetBridges => PBridgeList
  | ReqGetSettings => PSettings
  | ReqGetAccountData _ => PAccountData
  | ReqGetAccountHistory => option AccountNumber
  | ReqSubmitVoucher _ => PVoucherSubmission
  | ReqGetDevice => PDeviceState
  | ReqListDevices _ => list PDevice
  | ReqGetWireguardKey => PPublicKey
  | ReqGetCurrentApiAccessMethod => PAccessMethodSetting
  | ReqGetSplitTunnelProcesses | ReqGetExcludedProcesses | ReqGetFeatureIndicators => list Z
  | ReqGetRolloutThreshold | ReqRegenerateRolloutThreshold => f32
  | _ => unit
  end.

(** ** Procedures *)
Record Outside : Type := {
  channel_open : bool;
  answer : forall c : Command, option (Answer c);
  log_filter_error : string -> option string;
}.

(** [None] is a panic. *)
Definition M (A : Type) : Type := Outside -> option (result A Status) * list Command.
#[global] Instance M_ret : MRet M := fun _ a _ => (Some (Ok a), []).
#[global] Instance M_bind : MBind M :=
  fun _ _ k m o =>
    match m o with
    | (Some (Ok a), cs) => let '(r, cs') := k a o in (r, cs ++ cs')
    | (Some (Err s), cs) => (Some (Err s), cs)
    | (None, cs) => (None, cs)
    end.
Definition or_status {A E} (f : E -> Status) (r : result A E) : M A := fun _ => (Some (map_err f r), []).
Definition fail {A} (s : Status) : M A := fun _ => (Some (Err s), []).
Definition unwrap {A} (x : option A) : M A := fun _ => match x with Some a => (Some (Ok a), []) | None => (None, []) end.

Definition send_command_to_daemon (c : Command) : M unit :=
  fun o => if channel_open o then (Some (Ok tt), [c])
           else (Some (Err (Status_new CodeInternal (Words "the daemon channel receiver has been dropped"))), []).
Definition wait_for_result (c : Command) : M (Answer c) :=
  fun o => match answer o c with
           | Some a => (Some (Ok a), [])
           | None => (Some (Err (Status_new CodeInternal (Words "sender was dropped"))), [])
           end.
(** Every procedure sends its command, and waits at once. *)
Definition call (c : Command) : M (Answer c) := send_command_to_daemon c;; wait_for_result c.

Module Service.
Section service.
Context `{Formats} `{Dates} `{Paths}.
Context (tx : Tx).

(** [self.wait_for_result(rx).await??] of a setting. *)
Definition changed (m : M (result unit SettingsError)) : M unit := r ← m; or_status Status_from_settings r.

Definition from_PublicKey (key : Key * Z) : PPublicKey :=
  {| ppk_key := key.1; ppk_created := Some {| ts_seconds := timestamp key.2; ts_nanos := 0 |} |}.

(** *** The tunnel *)
Definition connect_tunnel : M bool := call (SetTargetState tx Secured).
Definition disconnect_tunnel (source : string) : M bool := call (SetTargetState tx Unsecured).
Definition reconnect_tunnel : M bool := call (Reconnect tx).
Definition get_tunnel_state : M PTunnelState := state ← call (GetState tx); mret (from_TunnelState state).

(** *** The daemon *)
Definition prepare_restart : M unit := send_command_to_daemon (PrepareRestart false).
Definition prepare_restart_v2 (shutdown : bool) : M unit := send_command_to_daemon (PrepareRestart shutdown).
Definition factory_reset : M unit := r ← call (FactoryReset tx); or_status map_daemon_error r.
Definition get_current_version : M text := version ← call (GetCurrentVersion tx); mret (Version.to_string version).
Definition get_version_info : M PAppVersionInfo :=
  r ← call (GetVersionInfo tx); info ← or_status map_daemon_error r; mret (from_AppVersionInfo info).
Definition is_performing_post_upgrade : M bool := call (IsPerformingPostUpgrade tx).

(** *** Relays *)
Definition update_relay_locations : M unit := send_command_to_daemon UpdateRelayLocations.
Definition set_relay_settings (request : PRelaySettings) : M unit :=
  constraints_update ← or_status map_protobuf_type_err (RelaySettings_try_from request);
  changed (call (SetRelaySettings tx constraints_update)).
Definition get_relay_locations : M PRelayList := relays ← call (GetRelayLocations tx); mret (from_RelayList relays).
Definition get_bridges : M PBridgeList := bridges ← call (GetBridges tx); mret (from_BridgeList bridges).
Definition set_obfuscation_settings (request : PObfuscationSettings) : M unit :=
  settings ← or_status map_protobuf_type_err (ObfuscationSettings_try_from request);
  changed (call (SetObfuscationSettings tx settings)).

(** *** Settings *)
Definition get_settings : M PSettings := settings ← call (GetSettings tx); unwrap (from_Settings settings).
Definition reset_settings : M unit := changed (call (ResetSettings tx)).
Definition set_allow_lan (allow_lan : bool) : M unit := changed (call (SetAllowLan tx allow_lan)).
Definition set_show_beta_releases (enabled : bool) : M unit := changed (call (SetShowBetaReleases tx enabled)).
Definition set_lockdown_mode (lockdown_mode : bool) : M unit := changed (call (SetLockdownMode tx lockdown_mode)).
Definition set_auto_connect (auto_connect : bool) : M unit := changed (call (SetAutoConnect tx auto_connect)).
Definition set_wireguard_mtu (mtu : Z) : M unit :=
  let mtu := if (mtu =? 0)%Z then None else Some (as_u16 mtu) in
  changed (call (SetWireguardMtu tx mtu)).
Definition set_enable_ipv6 (enable_ipv6 : bool) : M unit := changed (call (SetEnableIpv6 tx enable_ipv6)).
Definition set_userspace_wireguard (userspace : bool) : M unit := changed (call (SetUserspaceWireguard tx userspace)).
Definition set_quantum_resistant_tunnel (request : Z) : M unit :=
  state ← or_status map_protobuf_type_err (QuantumResistantState_try_from request);
  changed (call (SetQuantumResistantTunnel tx state)).
Definition set_enable_daita (daita_enabled : bool) : M unit := changed (call (SetEnableDaita tx daita_enabled)).
Definition set_daita_direct_only (direct_only_enabled : bool) : M unit :=
  changed (call (SetDaitaUseMultihopIfNecessary tx (negb direct_only_enabled))).
Definition set_daita_settings (request : PDaitaSettings) : M unit := changed (call (SetDaitaSettings tx (DaitaSettings_from request))).
Definition set_dns_options (request : PDnsOptions) : M unit :=
  options ← or_status map_protobuf_type_err (DnsOptions_try_from request);
  changed (call (SetDnsOptions tx options)).
Definition set_relay_override (request : PRelayOverride) : M unit :=
  relay_override ← or_status map_protobuf_type_err (RelayOverride_try_from request);
  changed (call (SetRelayOverride tx relay_override)).
Definition clear_all_relay_overrides : M unit := changed (call (ClearAllRelayOverrides tx)).
Definition set_enable_recents (enable_recents : bool) : M unit := changed (call (SetEnableRecents tx enable_recents)).

(** *** Accounts *)
Definition create_new_account : M string := r ← call (CreateNewAccount tx); or_status map_daemon_error r.
Definition login_account (account_number : AccountNumber) : M unit :=
  r ← call (LoginAccount tx account_number); or_status map_daemon_error r.
Definition logout_account (source : string) : M unit := r ← call (LogoutAccount tx); or_status map_daemon_error r.
(** On other platforms than Android nothing is deleted. *)
Definition delete_account : M unit := mret tt.
Definition get_account_data (account_number : AccountNumber) : M PAccountData :=
  result ← call (GetAccountData tx account_number);
  account_data ← or_status map_rest_error result; mret (from_AccountData account_data).
Definition get_account_history : M (option AccountNumber) := call (GetAccountHistory tx).
Definition clear_account_history : M unit := r ← call (ClearAccountHistory tx); or_status map_daemon_error r.
Definition get_www_auth_token : M string := r ← call (GetWwwAuthToken tx); or_status map_daemon_error r.
Definition submit_voucher (voucher : string) : M PVoucherSubmission :=
  result ← call (SubmitVoucherCode tx voucher);
  submission ← or_status map_daemon_error result; mret (from_VoucherSubmission submission).

(** *** Devices *)
Definition get_device : M PDeviceState :=
  r ← call (GetDevice tx); device ← or_status map_daemon_error r; mret (from_DeviceState device).
Definition update_device : M unit := r ← call (UpdateDevice tx); or_status map_daemon_error r.
Definition list_devices (token : AccountNumber) : M (list PDevice) :=
  r ← call (ListDevices tx token); device ← or_status map_daemon_error r; mret (map from_Device device).
Definition remove_device (account_number : AccountNumber) (device_id : DeviceId) : M unit :=
  r ← call (RemoveDevice tx account_number device_id); or_status map_daemon_error r.

(** *** Keys *)
Definition set_wireguard_rotation_interval (request : PDuration) : M unit :=
  match std_of_duration request with
  | None => fail (Status_new CodeInvalidArgument (Words "unexpected negative rotation interval"))
  | Some d =>
      interval ← or_status (fun error => Status_new CodeInvalidArgument (IntervalText error)) (RotationInterval_new d);
      changed (call (SetWireguardRotationInterval tx (Some interval)))
  end.
Definition reset_wireguard_rotation_interval : M unit := changed (call (SetWireguardRotationInterval tx None)).
Definition rotate_wireguard_key : M unit := r ← call (RotateWireguardKey tx); or_status map_daemon_error r.
Definition get_wireguard_key : M PPublicKey :=
  r ← call (GetWireguardKey tx);
  key ← or_status map_daemon_error r;
  match key with
  | Some key => mret (from_PublicKey key)
  | None => fail (Status_new CodeNotFound (Words "no WireGuard key was found"))
  end.
Definition set_wireguard_allowed_ips (values : list string) : M unit :=
  allowed_ips ← or_status (fun e => Status_new CodeInvalidArgument (AllowedIpsText e)) (parse_networks values);
  changed (call (SetWireguardAllowedIps tx (to_constraint allowed_ips))).

(** *** Custom lists *)
Definition create_custom_list (name : string) (locations : list PGeographicLocationConstraint) : M string :=
  locations ← or_status map_protobuf_type_err (try_map GeographicLocationConstraint_try_from locations);
  r ← call (CreateCustomList tx name (btree_set locations));
  i ← or_status map_daemon_error r; mret (show_list_id i).
Definition delete_custom_list (request : string) : M unit :=
  match parse_list_id request with
  | None => fail (Status_new CodeInvalidArgument (Words "invalid ID"))
  | Some i => r ← call (DeleteCustomList tx i); or_status map_daemon_error r
  end.
Definition update_custom_list (request : PCustomList) : M unit :=
  custom_list ← or_status map_protobuf_type_err (CustomList_try_from request);
  r ← call (UpdateCustomList tx custom_list); or_status map_daemon_error r.
Definition clear_custom_lists : M unit := r ← call (ClearCustomLists tx); or_status map_daemon_error r.

(** *** Access methods *)
Definition add_api_access_method (name : string) (enabled : bool) (access_method : option PAccessMethod) : M string :=
  match access_method with
  | None => fail (Status_new CodeInvalidArgument (Words "Could not find access method"))
  | Some m =>
      m ← or_status map_protobuf_type_err (AccessMethod_try_from m);
      r ← call (AddApiAccessMethod tx name enabled m);
      i ← or_status map_daemon_error r; mret (show_method_id i)
  end.
Definition remove_api_access_method (request : string) : M unit :=
  api_access_method ← or_status map_protobuf_type_err (MethodId_try_from request);
  r ← call (RemoveApiAccessMethod tx api_access_method); or_status map_daemon_error r.
Definition set_api_access_method (request : string) : M unit :=
  api_access_method ← or_status map_protobuf_type_err (MethodId_try_from request);
  r ← call (SetApiAccessMethod tx api_access_method); or_status map_daemon_error r.
Definition update_api_access_method (request : PAccessMethodSetting) : M unit :=
  access_method_update ← or_status map_protobuf_type_err (AccessMethodSetting_try_from request);
  r ← call (UpdateApiAccessMethod tx access_method_update); or_status map_daemon_error r.
Definition clear_custom_api_access_methods : M unit := r ← call (ClearCustomApiAccessMethods tx); or_status map_daemon_error r.
Definition get_current_api_access_method : M PAccessMethodSetting :=
  r ← call (GetCurrentAccessMethod tx); m ← or_status map_daemon_error r; mret (from_AccessMethodSetting m).
Definition test_custom_api_access_method (config : PCustomProxy) : M bool :=
  proxy ← or_status map_protobuf_type_err (CustomProxy_try_from config);
  r ← call (TestCustomApiAccessMethod tx proxy); or_status map_daemon_error r.
Definition test_api_access_method_by_id (request : string) : M bool :=
  api_access_method ← or_status map_protobuf_type_err (MethodId_try_from request);
  r ← call (TestApiAccessMethodById tx api_access_method); or_status map_daemon_error r.

(** *** Split tunnelling: apps are excluded on other platforms *)
Definition split_tunnel_is_supported : M bool := call (SplitTunnelIsSupported tx).
Definition get_split_tunnel_processes : M (list Z) := r ← call (GetSplitTunnelProcesses tx); or_status map_split_tunnel_error r.
Definition add_split_tunnel_process (pid : Z) : M unit :=
  r ← call (AddSplitTunnelProcess tx pid); or_status map_split_tunnel_error r.
Definition remove_split_tunnel_process (pid : Z) : M unit :=
  r ← call (RemoveSplitTunnelProcess tx pid); or_status map_split_tunnel_error r.
Definition clear_split_tunnel_processes : M unit :=
  r ← call (ClearSplitTunnelProcesses tx); or_status map_split_tunnel_error r.
Definition add_split_tunnel_app (path : text) : M unit := mret tt.
Definition remove_split_tunnel_app (path : text) : M unit := mret tt.
Definition clear_split_tunnel_apps : M unit := mret tt.
Definition set_split_tunnel_state (b : bool) : M unit := mret tt.
Definition get_excluded_processes : M (list Z) := mret [].
Definition need_full_disk_permissions : M bool := mret false.
Definition check_volumes : M unit := mret tt.

(** *** The rest *)
Definition apply_json_settings (blob : string) : M unit := r ← call (ApplyJsonSettings tx blob); or_status Status_from_patch r.
Definition export_json_settings : M string := r ← call (ExportJsonSettings tx); or_status Status_from_patch r.
Definition init_play_purchase : M string := mret EmptyString.
Definition verify_play_purchase : M unit := mret tt.
Definition get_feature_indicators : M (list Z) := features ← call (GetFeatureIndicators tx); mret (from_FeatureIndicators features).
Definition set_log_filter (log_filter : string) : M unit :=
  fun o => match log_filter_error o log_filter with
           | Some error => (Some (Err (Status_new CodeInvalidArgument (Words error))), [])
           | None => (Some (Ok tt), [])
           end.
Definition disable_relay (relay : string) : M unit := call (DisableRelay relay tx).
Definition enable_relay (relay : string) : M unit := call (EnableRelay relay tx).
Definition get_rollout_threshold : M f32 := call (GetRolloutThreshold tx).
Definition set_rollout_threshold_seed (seed : Z) : M unit := call (SetRolloutThresholdSeed seed tx).
Definition regenerate_rollout_threshold : M f32 := call (GenerateNewRolloutSeed tx).
Definition app_upgrade : M unit := r ← call (AppUpgrade tx); or_status map_version_check_error r.
Definition app_upgrade_abort : M unit := r ← call (AppUpgradeAbort tx); or_status map_version_check_error r.
Definition get_app_upgrade_cache_dir : M text :=
  r ← call (GetAppUpgradeCacheDir tx);
  path ← or_status map_version_check_error r;
  match path_to_str path with
  | Some s => mret s
  | None => fail (Status_new CodeInternal (Words "Failed to convert OsString to String"))
  end.
Definition get_migration_event : M unit := mret tt.
Definition clear_migration_message : M unit := mret tt.
End service.
End Service.

Section server.
Context `{Formats} `{Dates} `{Paths}.

Definition handle (tx : Tx) (request : Request) : M (Reply_to request) :=
  match request as r return M (Reply_to r) with
  | ReqConnectTunnel => Service.connect_tunnel tx
  | ReqDisconnectTunnel source => Service.disconnect_tunnel tx source
  | ReqReconnectTunnel => Service.reconnect_tunnel tx
  | ReqGetTunnelState => Service.get_tunnel_state tx
  | ReqPrepareRestart => Service.prepare_restart
  | ReqPrepareRestartV2 shutdown => Service.prepare_restart_v2 shutdown
  | ReqFactoryReset => Service.factory_reset tx
  | ReqGetCurrentVersion => Service.get_current_version tx
  | ReqGetVersionInfo => Service.get_version_info tx
  | ReqIsPerformingPostUpgrade => Service.is_performing_post_upgrade tx
  | ReqUpdateRelayLocations => Service.update_relay_locations
  | ReqSetRelaySettings s => Service.set_relay_settings tx s
  | ReqGetRelayLocations => Service.get_relay_locations tx
  | ReqGetBridges => Service.get_bridges tx
  | ReqSetObfuscationSettings s => Service.set_obfuscation_settings tx s
  | ReqGetSettings => Service.get_settings tx
  | ReqResetSettings => Service.reset_settings tx
  | ReqSetAllowLan b => Service.set_allow_lan tx b
  | ReqSetShowBetaReleases b => Service.set_show_beta_releases tx b
  | ReqSetLockdownMode b => Service.set_lockdown_mode tx b
  | ReqSetAutoConnect b => Service.set_auto_connect tx b
  | ReqSetWireguardMtu mtu => Service.set_wireguard_mtu tx mtu
  | ReqSetEnableIpv6 b => Service.set_enable_ipv6 tx b
  | ReqSetUserspaceWireguard b => Service.set_userspace_wireguard tx b
  | ReqSetQuantumResistantTunnel state => Service.set_quantum_resistant_tunnel tx state
  | ReqSetEnableDaita b => Service.set_enable_daita tx b
  | ReqSetDaitaDirectOnly b => Service.set_daita_direct_only tx b
  | ReqSetDaitaSettings s => Service.set_daita_settings tx s
  | ReqSetDnsOptions o => Service.set_dns_options tx o
  | ReqSetRelayOverride o => Service.set_relay_override tx o
  | ReqClearAllRelayOverrides => Service.clear_all_relay_overrides tx
  | ReqCreateNewAccount => Service.create_new_account tx
  | ReqLoginAccount n => Service.login_account tx n
  | ReqLogoutAccount source => Service.logout_account tx source
  | ReqDeleteAccount => Service.delete_account
  | ReqGetAccountData n => Service.get_account_data tx n
  | ReqGetAccountHistory => Service.get_account_history tx
  | ReqClearAccountHistory => Service.clear_account_history tx
  | ReqGetWwwAuthToken => Service.get_www_auth_token tx
  | ReqSubmitVoucher voucher => Service.submit_voucher tx voucher
  | ReqGetDevice => Service.get_device tx
  | ReqUpdateDevice => Service.update_device tx
  | ReqListDevices n => Service.list_devices tx n
  | ReqRemoveDevice n i => Service.remove_device tx n i
  | ReqSetWireguardRotationInterval d => Service.set_wireguard_rotation_interval tx d
  | ReqResetWireguardRotationInterval => Service.reset_wireguard_rotation_interval tx
  | ReqRotateWireguardKey => Service.rotate_wireguard_key tx
  | ReqGetWireguardKey => Service.get_wireguard_key tx
  | ReqSetWireguardAllowedIps values => Service.set_wireguard_allowed_ips tx values
  | ReqCreateCustomList name locations => Service.create_custom_list tx name locations
  | ReqDeleteCustomList i => Service.delete_custom_list tx i
  | ReqUpdateCustomList l => Service.update_custom_list tx l
  | ReqClearCustomLists => Service.clear_custom_lists tx
  | ReqAddApiAccessMethod name enabled m => Service.add_api_access_method tx name enabled m
  | ReqRemoveApiAccessMethod i => Service.remove_api_access_method tx i
  | ReqSetApiAccessMethod i => Service.set_api_access_method tx i
  | ReqUpdateApiAccessMethod m => Service.update_api_access_method tx m
  | ReqClearCustomApiAccessMethods => Service.clear_custom_api_access_methods tx
  | ReqGetCurrentApiAccessMethod => Service.get_current_api_access_method tx
  | ReqTestCustomApiAccessMethod p => Service.test_custom_api_access_method tx p
  | ReqTestApiAccessMethodById i => Service.test_api_access_method_by_id tx i
  | ReqSplitTunnelIsSupported => Service.split_tunnel_is_supported tx
  | ReqGetSplitTunnelProcesses => Service.get_split_tunnel_processes tx
  | ReqAddSplitTunnelProcess pid => Service.add_split_tunnel_process tx pid
  | ReqRemoveSplitTunnelProcess pid => Service.remove_split_tunnel_process tx pid
  | ReqClearSplitTunnelProcesses => Service.clear_split_tunnel_processes tx
  | ReqAddSplitTunnelApp path => Service.add_split_tunnel_app path
  | ReqRemoveSplitTunnelApp path => Service.remove_split_tunnel_app path
  | ReqClearSplitTunnelApps => Service.clear_split_tunnel_apps
  | ReqSetSplitTunnelState b => Service.set_split_tunnel_state b
  | ReqGetExcludedProcesses => Service.get_excluded_processes
  | ReqNeedFullDiskPermissions => Service.need_full_disk_permissions
  | ReqCheckVolumes => Service.check_volumes
  | ReqApplyJsonSettings blob => Service.apply_json_settings tx blob
  | ReqExportJsonSettings => Service.export_json_settings tx
  | ReqInitPlayPurchase => Service.init_play_purchase
  | ReqVerifyPlayPurchase => Service.verify_play_purchase
  | ReqGetFeatureIndicators => Service.get_feature_indicators tx
  | ReqSetLogFilter log_filter => Service.set_log_filter log_filter
  | ReqDisableRelay relay => Service.disable_relay tx relay
  | ReqEnableRelay relay => Service.enable_relay tx relay
  | ReqGetRolloutThreshold => Service.get_rollout_threshold tx
  | ReqSetRolloutThresholdSeed seed => Service.set_rollout_threshold_seed tx seed
  | ReqRegenerateRolloutThreshold => Service.regenerate_rollout_threshold tx
  | ReqAppUpgrade => Service.app_upgrade tx
  | ReqAppUpgradeAbort => Service.app_upgrade_abort tx
  | ReqGetAppUpgradeCacheDir => Service.get_app_upgrade_cache_dir tx
  | ReqSetEnableRecents b => Service.set_enable_recents tx b
  | ReqGetMigrationEvent => Service.get_migration_event
  | ReqClearMigrationMessage => Service.clear_migration_message
  end.

(** *** Questions to the relay selector ([relay_selector.rs]) *)
Definition partition_relays (selector : Predicate -> RelayPartitions) (predicate : option PContext)
  : result PRelayPartitions Status :=
  predicate <-? map_err map_protobuf_type_err (Predicate_try_from predicate);
  Ok (from_RelayPartitions (selector predicate)).
End server.

(** ** Those who listen

    A subscription is a channel without bounds: what is in it, and whether its client still reads it. *)
Record Subscription : Type := { listener : nat; connected : bool; received : list PDaemonEvent }.
Definition events_listen (listener : nat) (subscriptions : list Subscription) : list Subscription :=
  subscriptions ++ [{| listener := listener; connected := true; received := [] |}].
(** [tx.send(Ok(value.clone()))]. *)
Definition send_event (value : PDaemonEvent) (tx : Subscription) : option Subscription :=
  if connected tx then Some {| listener := listener tx; connected := true; received := received tx ++ [value] |} else None.
(** [retain]. *)
Definition notify (value : PDaemonEvent) (subscriptions : list Subscription) : list Subscription :=
  omap (send_event value) subscriptions.
(** The client is gone: its channel is dropped with the next event. *)
Definition hang_up (who : nat) (subscriptions : list Subscription) : list Subscription :=
  map (fun s => if (listener s =? who)%nat then {| listener := listener s; connected := false; received := received s |} else s)
    subscriptions.

(** ** The client *)
Inductive Error : Type :=
| Rpc (status : Status) | InvalidResponse (e : FromProtobufTypeError) | DurationTooLarge | PathMustBeUtf8
| InvalidVoucherError | UsedVoucherError | TooManyDevices | AlreadyLoggedInError | InvalidAccountError | DeviceNotFound
| CustomListExists | CustomListListNotFound | ApiAccessMethodSettingsNotFound | ApiAccessMethodNotFound
| ApiAccessMethodExists.

Definition client_device_error (status : Status) : Error :=
  match code status with
  | CodeResourceExhausted => TooManyDevices
  | CodeUnauthenticated => InvalidAccountError
  | CodeAlreadyExists => AlreadyLoggedInError
  | CodeNotFound => DeviceNotFound
  | _ => Rpc status
  end.
Definition client_voucher_error (status : Status) : Error :=
  match code status with
  | CodeNotFound => InvalidVoucherError
  | CodeResourceExhausted => UsedVoucherError
  | _ => Rpc status
  end.
Definition client_custom_list_error (status : Status) : Error :=
  match code status with
  | CodeNotFound => if bool_decide (details status = CUSTOM_LIST_LIST_NOT_FOUND_DETAILS) then CustomListListNotFound else Rpc status
  | CodeAlreadyExists => if bool_decide (details status = CUSTOM_LIST_LIST_EXISTS_DETAILS) then CustomListExists else Rpc status
  | _ => Rpc status
  end.
Definition client_access_method_error (status : Status) : Error :=
  match code status with
  | CodeAlreadyExists => if bool_decide (details status = API_ACCESS_METHOD_EXISTS_DETAILS) then ApiAccessMethodExists else Rpc status
  | _ => Rpc status
  end.

(** A method of the client: it sends one request, and reads what comes back; or it fails before. *)
Inductive Method (A : Type) : Type :=
| Done (r : result A Error)
| Remote (request : Request) (read : result (Reply_to request) Status -> result A Error).
Arguments Done {A} _.
Arguments Remote {A} _ _.

Module Client.
Section client.
Context `{Formats} `{Dates} `{Paths} `{VersionRegex}.

(** [await?] of a request whose response is what the method returns. *)
Definition plain {A} (r : result A Status) : result A Error := map_err Rpc r.
(** The response is converted. *)
Definition converting {P A} (f : P -> converted A) (e : Status -> Error) (r : result P Status) : result A Error :=
  p <-? map_err e r; map_err InvalidResponse (f p).

Definition connect_tunnel : Method bool := Remote ReqConnectTunnel plain.
Definition disconnect_tunnel (source : string) : Method bool := Remote (ReqDisconnectTunnel source) plain.
Definition reconnect_tunnel : Method bool := Remote ReqReconnectTunnel plain.
Definition get_tunnel_state : Method Daemon.TunnelState := Remote ReqGetTunnelState (converting TunnelState_try_from Rpc).
Definition prepare_restart : Method unit := Remote ReqPrepareRestart plain.
Definition prepare_restart_v2 (shutdown : bool) : Method unit := Remote (ReqPrepareRestartV2 shutdown) plain.
Definition factory_reset : Method unit := Remote ReqFactoryReset plain.
Definition get_current_version : Method text := Remote ReqGetCurrentVersion plain.
Definition get_version_info : Method AppVersionInfo := Remote ReqGetVersionInfo (converting AppVersionInfo_try_from Rpc).
Definition get_relay_locations : Method RelayList := Remote ReqGetRelayLocations (converting RelayList_try_from Rpc).
Definition get_bridges : Method BridgeList := Remote ReqGetBridges (converting BridgeList_try_from Rpc).

(** *** Access methods *)
Definition methods_of (r : result PSettings Status) : result (list AccessMethodSetting) Error :=
  settings <-? map_err Rpc r;
  methods <-? match ps_api_access_methods settings with Some m => Ok m | None => Err ApiAccessMethodSettingsNotFound end;
  methods <-? map_err InvalidResponse (AccessSettings_try_from methods);
  Ok (iter methods).
Definition get_api_access_methods : Method (list AccessMethodSetting) := Remote ReqGetSettings methods_of.
Definition get_api_access_method (id : nat) : Method AccessMethodSetting :=
  Remote ReqGetSettings
    (fun r => l <-? methods_of r;
              match List.find (fun m => bool_decide (AccessMethods.id m = id)) l with
              | Some m => Ok m
              | None => Err ApiAccessMethodNotFound
              end).
Definition get_current_api_access_method : Method AccessMethodSetting :=
  Remote ReqGetCurrentApiAccessMethod (converting AccessMethodSetting_try_from Rpc).
Definition test_api_access_method (id : nat) : Method bool := Remote (ReqTestApiAccessMethodById (show_method_id id)) plain.
Definition test_custom_api_access_method (config : CustomProxy) : Method bool :=
  Remote (ReqTestCustomApiAccessMethod (from_CustomProxy config)) plain.
Definition add_access_method (name : string) (enabled : bool) (access_method : AccessMethod) : Method unit :=
  Remote (ReqAddApiAccessMethod name enabled (Some (from_AccessMethod access_method)))
    (fun r => _ <-? map_err client_access_method_error r; Ok tt).
Definition remove_access_method (api_access_method : nat) : Method unit :=
  Remote (ReqRemoveApiAccessMethod (show_method_id api_access_method)) plain.
Definition update_access_method (access_method_update : AccessMethodSetting) : Method unit :=
  Remote (ReqUpdateApiAccessMethod (from_AccessMethodSetting access_method_update)) (map_err client_access_method_error).
Definition clear_custom_access_methods : Method unit := Remote ReqClearCustomApiAccessMethods plain.
Definition set_access_method (api_access_method : nat) : Method unit :=
  Remote (ReqSetApiAccessMethod (show_method_id api_access_method)) plain.

(** *** Settings *)
Definition update_relay_locations : Method unit := Remote ReqUpdateRelayLocations plain.
Definition set_relay_settings (update : RelaySettings) : Method unit := Remote (ReqSetRelaySettings (from_RelaySettings update)) plain.
Definition set_obfuscation_settings (settings : ObfuscationSettings) : Method unit :=
  Remote (ReqSetObfuscationSettings (from_ObfuscationSettings settings)) plain.
Definition get_settings : Method DaemonSettings := Remote ReqGetSettings (converting Settings_try_from Rpc).
Definition reset_settings : Method unit := Remote ReqResetSettings plain.
Definition set_allow_lan (state : bool) : Method unit := Remote (ReqSetAllowLan state) plain.
Definition set_show_beta_releases (state : bool) : Method unit := Remote (ReqSetShowBetaReleases state) plain.
Definition set_lockdown_mode (state : bool) : Method unit := Remote (ReqSetLockdownMode state) plain.
Definition set_auto_connect (state : bool) : Method unit := Remote (ReqSetAutoConnect state) plain.
Definition set_wireguard_mtu (mtu : option Z) : Method unit := Remote (ReqSetWireguardMtu (default 0%Z mtu)) plain.
Definition set_enable_ipv6 (state : bool) : Method unit := Remote (ReqSetEnableIpv6 state) plain.
Definition set_userspace_wireguard (state : bool) : Method unit := Remote (ReqSetUserspaceWireguard state) plain.
Definition set_quantum_resistant_tunnel (state : QuantumResistantState) : Method unit :=
  Remote (ReqSetQuantumResistantTunnel (to_i32 state)) plain.
Definition set_enable_daita (value : bool) : Method unit := Remote (ReqSetEnableDaita value) plain.
Definition set_daita_direct_only (value : bool) : Method unit := Remote (ReqSetDaitaDirectOnly value) plain.
Definition set_daita_settings (settings : DaitaSettings) : Method unit := Remote (ReqSetDaitaSettings (from_DaitaSettings settings)) plain.
Definition set_dns_options (options : DnsOptions) : Method unit := Remote (ReqSetDnsOptions (from_DnsOptions options)) plain.
Definition set_relay_override (o : RelayOverride) : Method unit := Remote (ReqSetRelayOverride (from_RelayOverride o)) plain.
Definition clear_all_relay_overrides : Method unit := Remote ReqClearAllRelayOverrides plain.
Definition set_wireguard_allowed_ips (allowed_ips : list IpNetwork) : Method unit :=
  Remote (ReqSetWireguardAllowedIps (map show_network allowed_ips)) plain.
Definition apply_json_settings (blob : string) : Method unit := Remote (ReqApplyJsonSettings blob) plain.
Definition export_json_settings : Method string := Remote ReqExportJsonSettings plain.

(** *** Accounts and devices *)
Definition create_new_account : Method AccountNumber := Remote ReqCreateNewAccount (map_err client_device_error).
Definition login_account (account : AccountNumber) : Method unit := Remote (ReqLoginAccount account) (map_err client_device_error).
Definition logout_account (source : string) : Method unit := Remote (ReqLogoutAccount source) plain.
Definition get_account_data (account : AccountNumber) : Method AccountData :=
  Remote (ReqGetAccountData account) (converting AccountData_try_from Rpc).
Definition get_account_history : Method (option AccountNumber) := Remote ReqGetAccountHistory plain.
Definition clear_account_history : Method unit := Remote ReqClearAccountHistory plain.
Definition submit_voucher (voucher : string) : Method VoucherSubmission :=
  Remote (ReqSubmitVoucher voucher) (converting VoucherSubmission_try_from client_voucher_error).
Definition get_device : Method DeviceState := Remote ReqGetDevice (converting DeviceState_try_from client_device_error).
Definition update_device : Method unit := Remote ReqUpdateDevice (map_err client_device_error).
Definition list_devices (account : AccountNumber) : Method (list Device) :=
  Remote (ReqListDevices account) (converting (try_map Device_try_from) client_device_error).
Definition remove_device (account : AccountNumber) (device_id : DeviceId) : Method unit :=
  Remote (ReqRemoveDevice account device_id) (map_err client_device_error).

(** *** Keys *)
Definition PublicKey_try_from (key : PPublicKey) : converted (Key * Z) :=
  created <-? ok_or (ppk_created key) "missing 'created' timestamp";
  created <-? date_of created;
  if (length (ppk_key key) =? WG_KEY_SIZE)%nat then Ok (ppk_key key, created) else Err (invalid_argument "invalid wireguard key").
Definition set_wireguard_rotation_interval (interval : RotationInterval) : Method unit :=
  match duration_of_std (as_duration interval) with
  | Some duration => Remote (ReqSetWireguardRotationInterval duration) plain
  | None => Done (Err DurationTooLarge)
  end.
Definition reset_wireguard_rotation_interval : Method unit := Remote ReqResetWireguardRotationInterval plain.
Definition rotate_wireguard_key : Method unit := Remote ReqRotateWireguardKey plain.
Definition get_wireguard_key : Method (Key * Z) := Remote ReqGetWireguardKey (converting PublicKey_try_from Rpc).

(** *** Custom lists *)
Definition create_custom_list (name : string) : Method Z :=
  Remote (ReqCreateCustomList name [])
    (fun r => i <-? map_err client_custom_list_error r;
              match parse_list_id i with Some i => Ok i | None => Err CustomListListNotFound end).
Definition delete_custom_list (id : Z) : Method unit :=
  Remote (ReqDeleteCustomList (show_list_id id)) (map_err client_custom_list_error).
Definition update_custom_list (custom_list : CustomList) : Method unit :=
  Remote (ReqUpdateCustomList (from_CustomList custom_list)) (map_err client_custom_list_error).
Definition clear_custom_lists : Method unit := Remote ReqClearCustomLists (map_err client_custom_list_error).

(** *** The rest *)
Definition get_split_tunnel_processes : Method (list Z) := Remote ReqGetSplitTunnelProcesses plain.
Definition add_split_tunnel_process (pid : Z) : Method unit := Remote (ReqAddSplitTunnelProcess pid) plain.
Definition remove_split_tunnel_process (pid : Z) : Method unit := Remote (ReqRemoveSplitTunnelProcess pid) plain.
Definition clear_split_tunnel_processes : Method unit := Remote ReqClearSplitTunnelProcesses plain.
Definition add_split_tunnel_app (path : text) : Method unit :=
  match path_to_str path with Some path => Remote (ReqAddSplitTunnelApp path) plain | None => Done (Err PathMustBeUtf8) end.
Definition remove_split_tunnel_app (path : text) : Method unit :=
  match path_to_str path with Some path => Remote (ReqRemoveSplitTunnelApp path) plain | None => Done (Err PathMustBeUtf8) end.
Definition clear_split_tunnel_apps : Method unit := Remote ReqClearSplitTunnelApps plain.
Definition set_split_tunnel_state (state : bool) : Method unit := Remote (ReqSetSplitTunnelState state) plain.
Definition get_feature_indicators : Method (list FeatureIndicator) :=
  Remote ReqGetFeatureIndicators (fun r => features <-? map_err Rpc r; Ok (FeatureIndicators_from features)).
Definition disable_relay (relay : string) : Method unit := Remote (ReqDisableRelay relay) plain.
Definition enable_relay (relay : string) : Method unit := Remote (ReqEnableRelay relay) plain.
Definition get_rollout_threshold : Method f32 := Remote ReqGetRolloutThreshold plain.
Definition generate_new_rollout_threshold : Method f32 := Remote ReqRegenerateRolloutThreshold plain.
Definition set_new_rollout_threshold_seed (seed : Z) : Method unit := Remote (ReqSetRolloutThresholdSeed seed) plain.
Definition set_log_filter (level : string) : Method unit := Remote (ReqSetLogFilter level) plain.
End client.
End Client.

(** ** A method, end to end *)
Definition run `{Formats} `{Dates} `{Paths} {A} (tx : Tx) (o : Outside) (m : Method A) : option (result A Error) * list Command :=
  match m with
  | Done r => (Some r, [])
  | Remote request read => let '(r, sent) := handle tx request o in (read <$> r, sent)
  end.
