(* ===== verification/ManagementProps.v ===== *)
(** * Calling the daemon through the management interface

    A method of the client is the command of the daemon it stands for: [contract] says which, with which
    argument, for which answers, and what the client gets for an answer. *)

From stdpp Require Import base list strings gmap option numbers sets.
From S2P Require Import Version VersionProps VersionUpdate VersionRouter.
From S2P Require Import Prelude Migrations Retry DeviceService DeviceManager AccessMethods NetTypes TunnelTypes FirewallPolicy.
From S2P Require Import TunnelStateMachine TargetState SettingsPatch RelayTypes RelaySelector Settings SettingsPersister Daemon DaemonSteps.
From S2P Require Import DaemonReplies ParametersGenerator.
From S2P Require Import ProtoSettings ProtoProps ProtoState ManagementInterface.
Local Open Scope vpn_scope.

(** ** The values of the answers *)
Definition account_ok (d : AccountData) : Prop := seconds_ok (timestamp (expiry d)).
Definition voucher_ok (v : VoucherSubmission) : Prop := seconds_ok (timestamp (new_expiry v)).
Definition created_key_ok (k : Key * Z) : Prop := length k.1 = WG_KEY_SIZE /\ seconds_ok (timestamp k.2).
Definition ss_data_ok `{Formats} (d : ShadowsocksEndpointData) : Prop :=
  u16_ok (sed_port d) /\ parse_cipher (sed_cipher d) = Some (sed_cipher d).
Definition bridge_list_ok `{Formats} (l : BridgeList) : Prop :=
  Forall relay_inner_ok (bridges l) /\ Forall ss_data_ok (bridge_endpoint l).
Definition result_ok {A E} (P : A -> Prop) (r : result A E) : Prop := match r with Ok a => P a | Err _ => True end.

(** Dates are told in whole seconds. *)
Definition whole_seconds (date : Z) : Z := (timestamp date * NANOS_PER_SEC)%Z.
Definition seen_account (d : AccountData) : AccountData := {| account_id := account_id d; expiry := whole_seconds (expiry d) |}.
Definition seen_voucher (v : VoucherSubmission) : VoucherSubmission :=
  {| new_expiry := whole_seconds (new_expiry v); time_added := time_added v |}.
Definition seen_key (k : Key * Z) : Key * Z := (k.1, whole_seconds k.2).

(** ** What the client gets *)
Definition by_daemon {A B} (seen : A -> B) (e : Status -> Error) (r : result A DaemonError) : result B Error :=
  match r with Ok a => Ok (seen a) | Err x => Err (e (map_daemon_error x)) end.
Definition same {A} (a : A) : A := a.
Definition by_settings : result unit SettingsError -> result unit Error := map_err (fun x => Rpc (Status_from_settings x)).
Definition always {A B} (seen : A -> B) (a : A) : result B Error := Ok (seen a).
Definition by_split_tunnel {A} : result A SplitTunnelError -> result A Error := map_err (fun x => Rpc (map_split_tunnel_error x)).
Definition by_patch {A} : result A (PatchError + SettingsError) -> result A Error := map_err (fun x => Rpc (Status_from_patch x)).

Section contract.
Context `{Formats} `{Dates} `{Paths} `{VersionRegex}.
Context (tx : Tx).

(** [contract m c P k]: the method [m] stands for the command [c]; an answer with the values [P] is told as [k]
    says. *)
Inductive contract : forall A, Method A -> forall c : Command, (Answer c -> Prop) -> (Answer c -> result A Error) -> Prop :=
| c_connect : contract bool Client.connect_tunnel (SetTargetState tx Secured) (fun _ => True) (always same)
| c_disconnect s : contract bool (Client.disconnect_tunnel s) (SetTargetState tx Unsecured) (fun _ => True) (always same)
| c_reconnect : contract bool Client.reconnect_tunnel (Reconnect tx) (fun _ => True) (always same)
| c_state : contract Daemon.TunnelState Client.get_tunnel_state (GetState tx) state_ok (always seen_state)
| c_reset : contract unit Client.factory_reset (FactoryReset tx) (fun _ => True) (by_daemon same Rpc)
| c_version : contract text Client.get_current_version (GetCurrentVersion tx) (fun _ => True) (always Version.to_string)
| c_version_info :
    contract AppVersionInfo Client.get_version_info (GetVersionInfo tx) (result_ok info_of_app_ok) (by_daemon seen_info Rpc)
| c_relays : contract RelayList Client.get_relay_locations (GetRelayLocations tx) relay_list_ok (always seen_relay_list)
| c_bridges : contract BridgeList Client.get_bridges (GetBridges tx) bridge_list_ok (always same)
| c_relay_settings u : relay_settings_ok u ->
    contract unit (Client.set_relay_settings u) (SetRelaySettings tx (seen_relay_settings u)) (fun _ => True) by_settings
| c_obfuscation u : obfuscation_settings_ok u ->
    contract unit (Client.set_obfuscation_settings u) (SetObfuscationSettings tx u) (fun _ => True) by_settings
| c_get_settings : contract DaemonSettings Client.get_settings (GetSettings tx) settings_ok (always seen_settings)
| c_methods :
    contract (list AccessMethodSetting) Client.get_api_access_methods (GetSettings tx) settings_ok
      (always (fun s => iter (Settings.api_access_methods s)))
| c_reset_settings : contract unit Client.reset_settings (ResetSettings tx) (fun _ => True) by_settings
| c_allow_lan b : contract unit (Client.set_allow_lan b) (SetAllowLan tx b) (fun _ => True) by_settings
| c_beta b : contract unit (Client.set_show_beta_releases b) (SetShowBetaReleases tx b) (fun _ => True) by_settings
| c_lockdown b : contract unit (Client.set_lockdown_mode b) (SetLockdownMode tx b) (fun _ => True) by_settings
| c_auto_connect b : contract unit (Client.set_auto_connect b) (SetAutoConnect tx b) (fun _ => True) by_settings
| c_mtu m : option_ok u16_ok m -> m <> Some 0%Z ->
    contract unit (Client.set_wireguard_mtu m) (SetWireguardMtu tx m) (fun _ => True) by_settings
| c_ipv6 b : contract unit (Client.set_enable_ipv6 b) (SetEnableIpv6 tx b) (fun _ => True) by_settings
| c_userspace b : contract unit (Client.set_userspace_wireguard b) (SetUserspaceWireguard tx b) (fun _ => True) by_settings
| c_quantum q : contract unit (Client.set_quantum_resistant_tunnel q) (SetQuantumResistantTunnel tx q) (fun _ => True) by_settings
| c_daita b : contract unit (Client.set_enable_daita b) (SetEnableDaita tx b) (fun _ => True) by_settings
| c_direct_only b :
    contract unit (Client.set_daita_direct_only b) (SetDaitaUseMultihopIfNecessary tx (negb b)) (fun _ => True) by_settings
| c_daita_settings s : contract unit (Client.set_daita_settings s) (SetDaitaSettings tx s) (fun _ => True) by_settings
| c_dns o : Forall ip_ok (custom_addresses o) ->
    contract unit (Client.set_dns_options o) (SetDnsOptions tx o) (fun _ => True) by_settings
| c_override o : override_ok o -> contract unit (Client.set_relay_override o) (SetRelayOverride tx o) (fun _ => True) by_settings
| c_no_overrides : contract unit Client.clear_all_relay_overrides (ClearAllRelayOverrides tx) (fun _ => True) by_settings
| c_allowed_ips l : Forall canonical l ->
    contract unit (Client.set_wireguard_allowed_ips l) (SetWireguardAllowedIps tx (to_constraint l)) (fun _ => True) by_settings
| c_interval i : rotation_ok i ->
    contract unit (Client.set_wireguard_rotation_interval i) (SetWireguardRotationInterval tx (Some i)) (fun _ => True) by_settings
| c_no_interval :
    contract unit Client.reset_wireguard_rotation_interval (SetWireguardRotationInterval tx None) (fun _ => True) by_settings
| c_apply b : contract unit (Client.apply_json_settings b) (ApplyJsonSettings tx b) (fun _ => True) by_patch
| c_export : contract string Client.export_json_settings (ExportJsonSettings tx) (fun _ => True) by_patch
| c_create_account :
    contract AccountNumber Client.create_new_account (CreateNewAccount tx) (fun _ => True) (by_daemon same client_device_error)
| c_login n : contract unit (Client.login_account n) (LoginAccount tx n) (fun _ => True) (by_daemon same client_device_error)
| c_logout s : contract unit (Client.logout_account s) (LogoutAccount tx) (fun _ => True) (by_daemon same Rpc)
| c_account_data n :
    contract AccountData (Client.get_account_data n) (GetAccountData tx n) (result_ok account_ok)
      (fun r => match r with Ok d => Ok (seen_account d) | Err x => Err (Rpc (map_rest_error x)) end)
| c_history : contract (option AccountNumber) Client.get_account_history (GetAccountHistory tx) (fun _ => True) (always same)
| c_clear_history : contract unit Client.clear_account_history (ClearAccountHistory tx) (fun _ => True) (by_daemon same Rpc)
| c_voucher v :
    contract VoucherSubmission (Client.submit_voucher v) (SubmitVoucherCode tx v) (result_ok voucher_ok)
      (by_daemon seen_voucher client_voucher_error)
| c_device :
    contract DeviceState Client.get_device (GetDevice tx) (result_ok device_state_ok)
      (by_daemon seen_device_state client_device_error)
| c_update_device : contract unit Client.update_device (UpdateDevice tx) (fun _ => True) (by_daemon same client_device_error)
| c_devices n :
    contract (list Device) (Client.list_devices n) (ListDevices tx n) (result_ok (Forall device_ok))
      (by_daemon (map seen_device) client_device_error)
| c_remove_device n i :
    contract unit (Client.remove_device n i) (RemoveDevice tx n i) (fun _ => True) (by_daemon same client_device_error)
| c_rotate : contract unit Client.rotate_wireguard_key (RotateWireguardKey tx) (fun _ => True) (by_daemon same Rpc)
| c_key :
    contract (Key * Z) Client.get_wireguard_key (GetWireguardKey tx) (result_ok (option_ok created_key_ok))
      (fun r => match r with
                | Ok (Some k) => Ok (seen_key k)
                | Ok None => Err (Rpc (Status_new CodeNotFound (Words "no WireGuard key was found")))
                | Err x => Err (Rpc (map_daemon_error x))
                end)
| c_create_list name :
    contract Z (Client.create_custom_list name) (CreateCustomList tx name []) (fun _ => True)
      (by_daemon same client_custom_list_error)
| c_delete_list i :
    contract unit (Client.delete_custom_list i) (DeleteCustomList tx i) (fun _ => True) (by_daemon same client_custom_list_error)
| c_update_list l : custom_list_ok l ->
    contract unit (Client.update_custom_list l) (UpdateCustomList tx l) (fun _ => True) (by_daemon same client_custom_list_error)
| c_clear_lists :
    contract unit Client.clear_custom_lists (ClearCustomLists tx) (fun _ => True) (by_daemon same client_custom_list_error)
| c_add_method name b m : access_method_ok m ->
    contract unit (Client.add_access_method name b m) (AddApiAccessMethod tx name b m) (fun _ => True)
      (by_daemon (fun _ => tt) client_access_method_error)
| c_remove_method i :
    contract unit (Client.remove_access_method i) (RemoveApiAccessMethod tx i) (fun _ => True) (by_daemon same Rpc)
| c_set_method i : contract unit (Client.set_access_method i) (SetApiAccessMethod tx i) (fun _ => True) (by_daemon same Rpc)
| c_update_method m : method_ok m ->
    contract unit (Client.update_access_method m) (UpdateApiAccessMethod tx m) (fun _ => True)
      (by_daemon same client_access_method_error)
| c_clear_methods :
    contract unit Client.clear_custom_access_methods (ClearCustomApiAccessMethods tx) (fun _ => True) (by_daemon same Rpc)
| c_current_method :
    contract AccessMethodSetting Client.get_current_api_access_method (GetCurrentAccessMethod tx) (result_ok method_ok)
      (by_daemon same Rpc)
| c_test_method i : contract bool (Client.test_api_access_method i) (TestApiAccessMethodById tx i) (fun _ => True) (by_daemon same Rpc)
| c_test_proxy p : proxy_ok p ->
    contract bool (Client.test_custom_api_access_method p) (TestCustomApiAccessMethod tx p) (fun _ => True) (by_daemon same Rpc)
| c_pids : contract (list Z) Client.get_split_tunnel_processes (GetSplitTunnelProcesses tx) (fun _ => True) by_split_tunnel
| c_add_pid p : contract unit (Client.add_split_tunnel_process p) (AddSplitTunnelProcess tx p) (fun _ => True) by_split_tunnel
| c_remove_pid p : contract unit (Client.remove_split_tunnel_process p) (RemoveSplitTunnelProcess tx p) (fun _ => True) by_split_tunnel
| c_clear_pids : contract unit Client.clear_split_tunnel_processes (ClearSplitTunnelProcesses tx) (fun _ => True) by_split_tunnel
| c_features : contract (list FeatureIndicator) Client.get_feature_indicators (GetFeatureIndicators tx) (@NoDup _) (always same)
| c_disable r : contract unit (Client.disable_relay r) (DisableRelay r tx) (fun _ => True) (always same)
| c_enable r : contract unit (Client.enable_relay r) (EnableRelay r tx) (fun _ => True) (always same)
| c_threshold : contract f32 Client.get_rollout_threshold (GetRolloutThreshold tx) (fun _ => True) (always same)
| c_new_threshold : contract f32 Client.generate_new_rollout_threshold (GenerateNewRolloutSeed tx) (fun _ => True) (always same)
| c_seed n : contract unit (Client.set_new_rollout_threshold_seed n) (SetRolloutThresholdSeed n tx) (fun _ => True) (always same).
End contract.

(** What a client gets when the daemon is gone, or does not answer. *)
Definition daemon_gone : Status := Status_new CodeInternal (Words "the daemon channel receiver has been dropped").
Definition unanswered : Status := Status_new CodeInternal (Words "sender was dropped").

Section calls.
Context `{FL : FormatsLaws} `{DL : DatesLaws} `{Paths} `{HR : VersionRegex} `{HVL : !VersionRegexLaws HR}.

(** ** The other answers *)
Lemma date_back d : seconds_ok (timestamp d) -> date_of {| ts_seconds := timestamp d; ts_nanos := 0 |} = Ok (whole_seconds d).
Proof. intros Hd. unfold date_of. simpl. rewrite Zmod_0_l, from_timestamp_ok by done. simpl. by rewrite Z.add_0_r. Qed.

Lemma account_back d : account_ok d -> AccountData_try_from (from_AccountData d) = Ok (seen_account d).
Proof. intros Hd. unfold AccountData_try_from. simpl. by rewrite date_back. Qed.
Lemma voucher_back v : voucher_ok v -> VoucherSubmission_try_from (from_VoucherSubmission v) = Ok (seen_voucher v).
Proof. intros Hv. unfold VoucherSubmission_try_from. simpl. by rewrite date_back. Qed.
Lemma key_back k : created_key_ok k -> Client.PublicKey_try_from (Service.from_PublicKey k) = Ok (seen_key k).
Proof. intros [Hl Hk]. unfold Client.PublicKey_try_from. simpl. rewrite date_back by done. simpl. by rewrite Hl. Qed.

Lemma bridge_back b : relay_inner_ok b -> Bridge_try_from (from_Bridge b) = Ok b.
Proof.
  intros [H4 H6]. unfold Bridge_try_from. simpl. rewrite parse_show_ipv4 by done. simpl.
  rewrite ok_or_option by (revert H6; apply option_ok_mono, parse_show_ipv6). by destruct b.
Qed.
Lemma ss_data_back d : ss_data_ok d -> ShadowsocksEndpointData_try_from (from_ShadowsocksEndpointData d) = Ok d.
Proof.
  intros [Hp Hc]. unfold ShadowsocksEndpointData_try_from, u16_try_from. simpl. rewrite bool_decide_eq_true_2 by done. simpl.
  rewrite Hc. simpl. rewrite protocol_back. by destruct d.
Qed.
Lemma bridges_back l : bridge_list_ok l -> BridgeList_try_from (from_BridgeList l) = Ok l.
Proof.
  intros [Hb Hd]. unfold BridgeList_try_from. simpl. rewrite try_map_back by (eapply Forall_impl; [exact Hb|apply bridge_back]). simpl.
  rewrite try_map_back by (eapply Forall_impl; [exact Hd|apply ss_data_back]). by destruct l.
Qed.
Lemma devices_back l : Forall device_ok l -> try_map Device_try_from (map from_Device l) = Ok (map seen_device l).
Proof. intros Hl. apply try_map_map. eapply Forall_impl; [done|apply device_back]. Qed.

(** What the service makes of the daemon's settings. *)
Lemma methods_seen s :
  settings_ok s -> exists p, from_Settings s = Some p
    /\ Settings_try_from p = Ok (seen_settings s) /\ Client.methods_of (Ok p) = Ok (iter (Settings.api_access_methods s)).
Proof.
  intros Hs. destruct (settings_back s Hs) as (p & Hp & Hb). exists p. split_and!; [done..|].
  destruct Hs as (_ & _ & _ & Ha & _). unfold from_Settings in Hp.
  destruct (from_TunnelOptions _) as [t|]; [|done]. simplify_eq/=. unfold Client.methods_of. simpl. by rewrite access_settings_back.
Qed.

(** ** Calls *)
Lemma run_remote {A} tx o request (read : result (Reply_to request) Status -> result A Error) c
    (k : Answer c -> M (Reply_to request)) (after : Answer c -> result A Error) :
  handle tx request o = (call c ≫= k) o ->
  read (Err daemon_gone) = Err (Rpc daemon_gone) -> read (Err unanswered) = Err (Rpc unanswered) ->
  (forall a, answer o c = Some a -> exists r, k a o = (Some r, []) /\ read r = after a) ->
  run tx o (Remote request read)
  = if channel_open o then (Some match answer o c with Some a => after a | None => Err (Rpc unanswered) end, [c])
    else (Some (Err (Rpc daemon_gone)), []).
Proof.
  unfold daemon_gone, unanswered, Status_new. intros Hh Hg Hu Hk. unfold run. rewrite Hh.
  unfold call, send_command_to_daemon, wait_for_result, mbind, M_bind, Status_new.
  destruct (channel_open o); simpl; [|by rewrite Hg]. destruct (answer o c) as [a|] eqn:Ha; simpl; [|by rewrite Hu].
  destruct (Hk a eq_refl) as (r & Hr & Hread). rewrite Hr. simpl. by rewrite Hread.
Qed.

Lemma bind_ret {A} (m : M A) o : (m ≫= mret) o = m o.
Proof.
  unfold mbind, M_bind, mret, M_ret. destruct (m o) as [[[a|e]|] cs]; try done. by rewrite app_nil_r.
Qed.
Lemma bind_or_status {A B E} (f : E -> Status) (a : A) (k : A -> M B) o : (or_status f (Ok a) ≫= k) o = k a o.
Proof. unfold mbind, M_bind, or_status. simpl. by destruct (k a o). Qed.

(** A procedure that starts with a conversion does what it does with the result. *)
Ltac convert :=
  first [ reflexivity
        | symmetry; apply bind_ret
        | unfold handle, Service.set_relay_settings; rewrite relay_settings_back by done; by rewrite bind_or_status
        | unfold handle, Service.set_obfuscation_settings; rewrite obfuscation_back by done; by rewrite bind_or_status
        | unfold handle, Service.set_dns_options; rewrite dns_back by done; by rewrite bind_or_status
        | unfold handle, Service.set_relay_override; rewrite override_back by done; by rewrite bind_or_status
        | unfold handle, Service.set_quantum_resistant_tunnel, QuantumResistantState_try_from; rewrite of_to_i32; cbn [ok_or];
          by rewrite bind_or_status
        | unfold handle, Service.set_wireguard_allowed_ips; rewrite parse_networks_back by done; by rewrite bind_or_status
        | unfold handle, Service.update_custom_list; rewrite custom_list_back by done; by rewrite bind_or_status
        | unfold handle, Service.delete_custom_list; by rewrite parse_show_list_id
        | unfold handle, Service.add_api_access_method; rewrite access_method_back by done; by rewrite bind_or_status
        | unfold handle, Service.update_api_access_method; rewrite method_back by done; by rewrite bind_or_status
        | unfold handle, Service.test_custom_api_access_method; rewrite proxy_back by done; by rewrite bind_or_status
        | unfold handle, Service.remove_api_access_method, Service.set_api_access_method, Service.test_api_access_method_by_id,
            MethodId_try_from; rewrite parse_show_method_id; cbn [ok_or]; by rewrite bind_or_status ].

(** What comes back is converted again. *)
Ltac read_back :=
  unfold Client.converting, Client.plain; cbn [map_err bind_result fst snd];
  rewrite ?state_back, ?relay_list_back, ?bridges_back, ?version_info_back, ?account_back, ?voucher_back, ?device_state_back,
    ?devices_back, ?method_back, ?key_back, ?parse_show_list_id by done; cbn [map_err]; rewrite ?features_back by done; done.

Ltac remote :=
  let a := fresh "a" in let Ha := fresh "Ha" in
  eapply run_remote; [convert|done|done|]; intros a Ha; 
  match goal with HP : forall _, _ -> _ |- _ => specialize (HP a Ha); cbn in HP end;
  try destruct a as [a|a]; (eexists; split; [reflexivity|read_back]).

Lemma remote_calls_lemma tx A m c P k o :
  contract tx A m c P k -> (forall a, answer o c = Some a -> P a) ->
  run tx o m = if channel_open o then (Some match answer o c with Some a => k a | None => Err (Rpc unanswered) end, [c])
               else (Some (Err (Rpc daemon_gone)), []).
Proof.
  intros Hc. destruct Hc; intros HP. all: try solve [remote].
  - eapply run_remote; [reflexivity|done|done|]. intros a Ha. destruct (methods_seen a (HP a Ha)) as (p & Hp & Hb & _).
    unfold unwrap. rewrite Hp. eexists. split; [done|]. unfold Client.converting. simpl map_err. cbn [bind_result]. by rewrite Hb.
  - eapply run_remote; [reflexivity|done|done|]. intros a Ha. destruct (methods_seen a (HP a Ha)) as (p & Hp & _ & Hm).
    unfold unwrap. rewrite Hp. eexists. split; [done|]. exact Hm.
  - assert (E : Service.set_wireguard_mtu tx (default 0%Z m) = Service.changed (call (SetWireguardMtu tx m))).
    { unfold Service.set_wireguard_mtu. destruct m as [n|]; [|done]. simpl.
      destruct (n =? 0)%Z eqn:E; [apply Z.eqb_eq in E; by subst|]. by rewrite as_u16_ok. }
    eapply run_remote; [unfold handle; by rewrite E|done|done|intros [a|a] Ha; eexists; split; reflexivity].
  - assert (E : DaitaSettings_from (from_DaitaSettings s) = s).
    { destruct s as [d u]. unfold DaitaSettings_from. simpl. by rewrite negb_involutive. }
    eapply run_remote; [unfold handle, Service.set_daita_settings; by rewrite E|done|done|intros [a|a] Ha; eexists; split; reflexivity].
  - unfold Client.set_wireguard_rotation_interval. destruct (duration_round_trip _ (rotation_in_range i H2)) as (p & Hp & Hb).
    rewrite Hp. eapply run_remote; [|done|done|].
    + unfold handle, Service.set_wireguard_rotation_interval. rewrite Hb. unfold rotation_ok in *. rewrite H2. by rewrite bind_or_status.
    + intros [a|a] Ha; eexists; split; reflexivity.
  - eapply run_remote; [reflexivity|done|done|]. intros [[a|]|a] Ha; (eexists; split; [reflexivity|]); try done.
    specialize (HP _ Ha). unfold Client.converting. cbn [map_err bind_result]. by rewrite key_back.
  - eapply run_remote; [unfold handle, Service.create_custom_list; simpl try_map; by rewrite bind_or_status|done|done|].
    intros [a|a] Ha; (eexists; split; [reflexivity|]); [|done]. cbn. by rewrite parse_show_list_id.
Qed.
End calls.

(** C14. Calling the daemon through the management interface is giving it the command.  For each method of the client
    that has a [contract], with arguments that are values of their types (and an MTU that is not zero): the daemon is
    sent exactly the command the contract names, once.  Its argument is the client's, direct-only negated and no
    allowed addresses as no constraint, except that relay settings arrive as [seen_relay_settings]: the providers
    and the ownership of the entry are those of the exit, the allowed addresses are resolved, and an endpoint of the
    user's own comes without pre-shared key, constant packet size and exit peer and with the daemon's mark.  The
    client returns the daemon's answer, dates in whole seconds and settings, relays and states as they are seen, or
    the error that the daemon's error is mapped to; and if the daemon is gone or does not answer, the client is told
    so. *)
Theorem remote_calls `{FL : FormatsLaws} `{DL : DatesLaws} `{Paths} `{HR : VersionRegex} `{HVL : !VersionRegexLaws HR} tx A m c P k o :
  contract tx A m c P k -> (forall a, answer o c = Some a -> P a) ->
  run tx o m = if channel_open o then (Some match answer o c with Some a => k a | None => Err (Rpc unanswered) end, [c])
               else (Some (Err (Rpc daemon_gone)), []).
Proof. apply remote_calls_lemma. Qed.

(** ** No client is abandoned *)
Section waits.
Context `{Formats} `{Dates} `{Paths}.
Context (tx : Tx).

(** A procedure sends one command with its client's sender, or else what it does does not depend on answers. *)
Definition waits {A} (m : M A) : Prop :=
  forall o, channel_open o = true ->
    (exists c, (m o).2 = [c] /\ command_tx c = Some tx)
    \/ omap command_tx (m o).2 = []
       /\ forall o', channel_open o' = true -> (forall f, log_filter_error o' f = log_filter_error o f) -> m o' = m o.

Lemma waits_call {A} c (k : Answer c -> M A) :
  command_tx c = Some tx -> (forall a o, (k a o).2 = []) -> waits (call c ≫= k).
Proof.
  intros Hc Hk o Ho. left. exists c. split; [|done]. unfold call, send_command_to_daemon, wait_for_result, mbind, M_bind.
  rewrite Ho. destruct (answer o c) as [a|]; simpl; [|done]. specialize (Hk a o). destruct (k a o). simpl in *. by subst.
Qed.
Lemma waits_call_ret c : command_tx c = Some tx -> waits (call c).
Proof.
  intros Hc o Ho. left. exists c. split; [|done]. unfold call, send_command_to_daemon, wait_for_result, mbind, M_bind.
  rewrite Ho. by destruct (answer o c).
Qed.
Lemma waits_ret {A} (a : A) : waits (mret a).
Proof. intros o _. by right. Qed.
Lemma waits_fail {A} s : waits (A := A) (fail s).
Proof. intros o _. by right. Qed.
Lemma waits_or_status {A B E} (f : E -> Status) (r : result A E) (k : A -> M B) :
  (forall a, waits (k a)) -> waits (or_status f r ≫= k).
Proof.
  intros Hk o Ho. destruct r as [a|e]; [|by right]. destruct (Hk a o Ho) as [(c & Hc & Ht)|[Hn Ha]].
  - left. exists c. by rewrite bind_or_status.
  - right. rewrite bind_or_status. split; [done|]. intros o' Ho' Hl. rewrite bind_or_status. auto.
Qed.
Lemma waits_send c : command_tx c = None -> waits (send_command_to_daemon c).
Proof.
  intros Hc o Ho. right. unfold send_command_to_daemon. rewrite Ho. simpl. rewrite Hc. split; [done|]. intros o' Ho' _. by rewrite Ho'.
Qed.

Lemma silent_or_status {A E} (f : E -> Status) (r : result A E) o : (or_status f r o).2 = [].
Proof. done. Qed.
Lemma silent_bind {A B} (m : M A) (k : A -> M B) o : (m o).2 = [] -> (forall a, (k a o).2 = []) -> ((m ≫= k) o).2 = [].
Proof.
  intros Hm Hk. unfold mbind, M_bind. destruct (m o) as [[[a|s]|] cs]; simpl in *; subst; try done.
  specialize (Hk a). by destruct (k a o).
Qed.
Lemma silent_unwrap {A} (x : option A) o : (unwrap x o).2 = [].
Proof. by destruct x. Qed.

Ltac silent :=
  intros; repeat first [ apply silent_or_status | apply silent_unwrap | apply silent_bind; [|intros ?] | done
                       | match goal with |- context [match ?x with _ => _ end] => destruct x end ].
Ltac waits :=
  repeat first [ apply waits_ret | apply waits_fail | apply waits_or_status; intros ?
               | lazymatch goal with
                 | |- waits (call ?c ≫= ?k) => apply (waits_call c k); [done|solve [silent]]
                 | |- waits (call ?c) => by apply (waits_call_ret c)
                 | |- waits (send_command_to_daemon _) => by apply waits_send
                 end
               | match goal with |- waits (match ?x with _ => _ end) => destruct x end ].

Lemma handle_waits request : waits (handle tx request).
Proof.
  destruct request; cbn [handle]; 
    try lazymatch goal with |- waits (Service.set_log_filter _) => idtac | |- waits ?m => let h := head_of m in unfold h; unfold Service.changed; waits end.
  intros o _. right. unfold Service.set_log_filter. split; [cbn; by case_match|]. intros o' _ Hl. by rewrite Hl.
Qed.
End waits.

(** What the daemon does with what a procedure has sent it. *)
Definition deliver `{EqDecision CustomProxy} `{IpNetworkOps} `{Curve} `{SettingsJson CustomProxy} (env : @Env CustomProxy)
    (cs : list Command) : D unit :=
  foldr (fun c k => handle_command env c;; k) (mret tt) cs.

Lemma deliver_settles `{EqDecision CustomProxy} `{IpNetworkOps} `{Curve} `{SettingsJson CustomProxy} (env : @Env CustomProxy) cs :
  does (settles (omap command_tx cs)) (deliver env cs).
Proof.
  induction cs as [|c cs IH]; [intros d; unfold settles; simpl; by rewrite app_nil_r|]. simpl.
  assert (E : omap command_tx (c :: cs) = option_list (command_tx c) ++ omap command_tx cs) by (simpl; by destruct (command_tx c)).
  simpl in E. rewrite E. apply settles_bind; [apply handle_command_settles|done].
Qed.

(** C15. Who calls the daemon is not abandoned.  As long as the daemon's channel is open, each request, whatever it
    contains, either gives the daemon one command with the client's own sender, which the daemon's handler answers,
    hands to a task or to the tunnel, or keeps for the shutdown, exactly once; or it is answered at once, the same
    whatever the daemon would answer, and no sender waits. *)
Theorem clients_not_abandoned `{Formats} `{Dates} `{Paths} `{EqDecision CustomProxy} `{IpNetworkOps} `{Curve}
    `{SettingsJson CustomProxy} tx request o (env : @Env CustomProxy) d :
  tx <> NOBODY -> channel_open o = true ->
  let cs := (handle tx request o).2 in
  let '(d', es) := ((deliver env cs d).1.2, (deliver env cs d).2) in
  omap command_tx cs = [tx] /\ answered es ++ kept d' ≡ₚ kept d ++ [tx]
  \/ answered es ++ kept d' ≡ₚ kept d
     /\ forall o', channel_open o' = true -> (forall f, log_filter_error o' f = log_filter_error o f) ->
          handle tx request o' = handle tx request o.
Proof.
  intros Hn Ho cs. pose proof (deliver_settles env cs d) as Hs. unfold settles in Hs.
  destruct (handle_waits tx request o Ho) as [(c & Hc & Ht)|[Hc Ha]]; fold cs in Hc.
  - left. assert (E : omap command_tx cs = [tx]) by (rewrite Hc; simpl; by rewrite Ht). split; [done|]. rewrite Hs, E.
    unfold waited. by rewrite filter_cons_True.
  - right. split; [|done]. rewrite Hs, Hc. by rewrite app_nil_r.
Qed.

(** ** Listening *)
Inductive ListenStep : Type := Listen (who : nat) | HangUp (who : nat) | Broadcast (e : DaemonEvent).
(** [None] is a panic of the daemon. *)
Definition listen_step `{Formats} `{Paths} (s : ListenStep) (subs : list Subscription) : option (list Subscription) :=
  match s with
  | Listen who => Some (events_listen who subs)
  | HangUp who => Some (hang_up who subs)
  | Broadcast e => p ← notify_event e; Some (notify p subs)
  end.
Fixpoint listen_steps `{Formats} `{Paths} (l : list ListenStep) (subs : list Subscription) : option (list Subscription) :=
  match l with [] => Some subs | s :: l => subs ← listen_step s subs; listen_steps l subs end.
Definition broadcasts (l : list ListenStep) : list DaemonEvent := omap (fun s => match s with Broadcast e => Some e | _ => None end) l.
Definition mentions (who : nat) (s : ListenStep) : bool :=
  match s with Listen w | HangUp w => (w =? who)%nat | Broadcast _ => false end.
Definition of_client (who : nat) (subs : list Subscription) : list Subscription := List.filter (fun s => (listener s =? who)%nat) subs.
Definition step_ok `{Formats} (s : ListenStep) : Prop := match s with Broadcast e => event_ok e | _ => True end.

Section listening.
Context `{FL : FormatsLaws} `{DL : DatesLaws} `{Paths} `{HR : VersionRegex} `{HVL : !VersionRegexLaws HR}.

Lemma of_client_app who a b : of_client who (a ++ b) = of_client who a ++ of_client who b.
Proof. apply List.filter_app. Qed.

(** Hanging up is of one client, and a broadcast reaches those who are connected. *)
Lemma of_client_hang_up who w subs : w <> who -> of_client who (hang_up w subs) = of_client who subs.
Proof.
  intros Hw. induction subs as [|s subs IH]; [done|]. simpl. destruct (listener s =? w)%nat eqn:E; simpl; [|by rewrite IH].
  apply Nat.eqb_eq in E. subst. rewrite IH. by apply Nat.eqb_neq in Hw; rewrite Hw.
Qed.
Lemma notify_cons p s subs : notify p (s :: subs) = option_list (send_event p s) ++ notify p subs.
Proof. unfold notify. simpl. by destruct (send_event p s). Qed.
Lemma of_client_notify who p subs : of_client who (notify p subs) = notify p (of_client who subs).
Proof.
  induction subs as [|s subs IH]; [done|]. rewrite notify_cons, of_client_app, IH. unfold of_client at 3. simpl.
  fold (of_client who subs). unfold send_event. destruct (listener s =? who)%nat eqn:E.
  - rewrite notify_cons. unfold send_event. destruct (connected s); simpl; [by rewrite E|done].
  - destruct (connected s); simpl; [by rewrite E|done].
Qed.

Lemma listen_others who l subs :
  Forall step_ok l -> Forall (fun s => mentions who s = false) l ->
  exists subs' msgs, listen_steps l subs = Some subs'
    /\ Forall2 (fun m e => DaemonEvent_try_from m = Ok (seen_event e)) msgs (broadcasts l)
    /\ of_client who subs' = foldl (fun s m => notify m s) (of_client who subs) msgs.
Proof.
  revert subs. induction l as [|s l IH]; intros subs Hok Hm.
  - exists subs, []. by repeat split; constructor.
  - apply Forall_cons in Hok as [Hs Hok]. apply Forall_cons in Hm as [Hw Hm]. simpl. destruct s as [w|w|e]; simpl in *.
    + destruct (IH (events_listen w subs) Hok Hm) as (subs' & msgs & Hl & Hf & Ho). exists subs', msgs. split_and!; [done..|].
      rewrite Ho. unfold events_listen. rewrite of_client_app. simpl. rewrite Hw. by rewrite app_nil_r.
    + destruct (IH (hang_up w subs) Hok Hm) as (subs' & msgs & Hl & Hf & Ho). exists subs', msgs. split_and!; [done..|].
      rewrite Ho. f_equal. apply of_client_hang_up. by apply Nat.eqb_neq.
    + destruct (event_back e Hs) as (p & Hp & Hb). rewrite Hp. simpl.
      destruct (IH (notify p subs) Hok Hm) as (subs' & msgs & Hl & Hf & Ho). exists subs', (p :: msgs). split_and!; [done| |].
      * by constructor.
      * rewrite Ho. simpl. f_equal. apply of_client_notify.
Qed.

Lemma received_all who msgs got :
  foldl (fun s m => notify m s) [{| listener := who; connected := true; received := got |}] msgs
  = [{| listener := who; connected := true; received := got ++ msgs |}].
Proof. revert got. induction msgs as [|m msgs IH]; intros got; simpl; [by rewrite app_nil_r|]. rewrite IH. by rewrite <- app_assoc. Qed.
End listening.

(** C27. Who listens reads everything.  A client that starts to listen, and does not hang up, has in its channel the
    messages of all events that were broadcast since, in order and each once, whatever other clients do meanwhile and
    however long it takes to read them; it reads each as the event, as far as events are seen.  No broadcast
    panics. *)
Theorem listeners_read `{FL : FormatsLaws} `{DL : DatesLaws} `{Paths} `{HR : VersionRegex} `{HVL : !VersionRegexLaws HR}
    who before after :
  Forall step_ok (before ++ after) -> Forall (fun s => mentions who s = false) (before ++ after) ->
  exists subs msgs,
    listen_steps (before ++ Listen who :: after) [] = Some subs
    /\ of_client who subs = [{| listener := who; connected := true; received := msgs |}]
    /\ Forall2 (fun m e => DaemonEvent_try_from m = Ok (seen_event e)) msgs (broadcasts after).
Proof.
  intros [Hb Ha]%Forall_app [Mb Ma]%Forall_app. destruct (listen_others who before [] Hb Mb) as (subs1 & msgs1 & L1 & _ & O1).
  destruct (listen_others who after (events_listen who subs1) Ha Ma) as (subs2 & msgs2 & L2 & F2 & O2). exists subs2, msgs2.
  assert (Happ : forall l1 l2 subs, listen_steps (l1 ++ l2) subs = (s ← listen_steps l1 subs; listen_steps l2 s)).
  { induction l1 as [|s l1 IH]; intros l2 subs; [done|]. simpl. destruct (listen_step s subs) as [x|]; [|done]. apply IH. }
  split; [by rewrite Happ, L1|]. split; [|done]. rewrite O2. unfold events_listen. rewrite of_client_app, O1. simpl.
  rewrite Nat.eqb_refl. assert (E : foldl (fun s m => notify m s) [] msgs1 = []) by (clear; induction msgs1; done).
  rewrite E. apply received_all.
Qed.
