(* ===== verification/ClientCalls.v ===== *)
(** * A client's call, from the client to the daemon and back

    The service is connected to the daemon's handlers: what a command is answered is the reply its handler
    sends, or what a task that the handler starts will answer.  Then instances of the classes of texts, dates
    and paths, the theorems about the management interface applied, and what the model showed. *)

From stdpp Require Import base list strings gmap option numbers sets.
From S2P Require Import Version VersionProps VersionUpdate VersionRouter.
From S2P Require Import Prelude Migrations Retry DeviceService DeviceManager AccessMethods NetTypes TunnelTypes FirewallPolicy.
From S2P Require Import TunnelStateMachine TargetState SettingsPatch RelayTypes RelayTypesProps RelaySelector Settings SettingsPersister Daemon DaemonSteps.
From S2P Require Import ParametersGenerator ProtoSettings ProtoProps ProtoState ManagementInterface ManagementProps.
Local Open Scope vpn_scope.

(** ** The daemon's replies
    [None]: a reply of another type, or one whose content the handler only passes on. *)
Definition read_response (c : Command) (r : @Response CustomProxy) : option (Answer c) :=
  match c as c return option (Answer c) with
  | SetTargetState _ _ | Reconnect _ | IsPerformingPostUpgrade _ | SplitTunnelIsSupported _ =>
      match r with RBool b => Some b | _ => None end
  | GetState _ => match r with RState s => Some s | _ => None end
  | GetWwwAuthToken _ => match r with RToken t => Some t | _ => None end
  | GetAccountHistory _ => match r with RHistory n => Some n | _ => None end
  | GetRelayLocations _ => match r with RRelays l => Some l | _ => None end
  | ClearAccountHistory _ | DeleteCustomList _ _ | UpdateCustomList _ _ | ClearCustomLists _ | RemoveApiAccessMethod _ _
  | SetApiAccessMethod _ _ | UpdateApiAccessMethod _ _ | ClearCustomApiAccessMethods _ | FactoryReset _ =>
      match r with RResult r => Some r | _ => None end
  | SetRelaySettings _ _ | SetAllowLan _ _ | SetShowBetaReleases _ _ | SetLockdownMode _ _ | SetAutoConnect _ _
  | SetEnableIpv6 _ _ | SetUserspaceWireguard _ _ | SetEnableRecents _ _ | SetQuantumResistantTunnel _ _
  | SetEnableDaita _ _ | SetDaitaUseMultihopIfNecessary _ _ | SetDaitaSettings _ _ | SetDnsOptions _ _
  | SetRelayOverride _ _ | ClearAllRelayOverrides _ | SetWireguardMtu _ _ | SetWireguardAllowedIps _ _
  | SetWireguardRotationInterval _ _ | ResetSettings _ | SetObfuscationSettings _ _ =>
      match r with RSettingsResult r => Some r | _ => None end
  | GetSettings _ => match r with RSettings s => Some s | _ => None end
  | GetWireguardKey _ => match r with RKey k => Some k | _ => None end
  | CreateCustomList _ _ _ => match r with RListId r => Some r | _ => None end
  | AddApiAccessMethod _ _ _ _ => match r with RMethodId r => Some r | _ => None end
  | TestApiAccessMethodById _ _ => match r with RTested r => Some r | _ => None end
  | ApplyJsonSettings _ _ => match r with RPatch r => Some r | _ => None end
  | GetFeatureIndicators _ => match r with RFeatures l => Some l | _ => None end
  | DisableRelay _ _ | EnableRelay _ _ | SetRolloutThresholdSeed _ _ => match r with RUnit => Some tt | _ => None end
  | _ => None
  end.

Section calls.
Context `{EqDecision CustomProxy} `{IpNetworkOps} `{Curve} `{SettingsJson CustomProxy}.
Notation Daemon := (@Daemon CustomProxy).
Notation Effect := (@Effect CustomProxy).
Notation Env := (@Env CustomProxy).

Definition reply_of (tx : Tx) (e : Effect) : option (@Response CustomProxy) :=
  match e with Reply t r => if (t =? tx)%nat then Some r else None | _ => None end.
Definition replied (tx : Tx) (es : list Effect) : option (@Response CustomProxy) := head (omap (reply_of tx) es).

(** The daemon [d] behind the service; [elsewhere] is what is answered by tasks and by the rest of the program. *)
Definition serve (env : Env) (d : Daemon) (tx : Tx) (elsewhere : forall c, option (Answer c)) : Outside :=
  {| channel_open := true;
     answer := fun c => match r ← replied tx (handle_command env c d).2; read_response c r with
                        | Some a => Some a
                        | None => elsewhere c
                        end;
     log_filter_error := fun _ => None |}.

(** A call of the client: what it returns, and the daemon after it. *)
Definition after_commands (env : Env) (cs : list Command) (d : Daemon) : Daemon :=
  foldl (fun d c => (handle_command env c d).1.2) d cs.
End calls.

(** ** Custom lists as a client sees them

    The abstract lists: what each operation returns to the client, and the lists after it. *)
Definition has_id (i : Z) (l : CustomList) : bool := (cl_id l =? i)%Z.
Definition named (name : string) (l : CustomList) : bool := bool_decide (cl_name l = name).
Definition name_too_long : Error := Rpc (Status_new CodeUnknown (DaemonText (ListFailure NameTooLong))).

Inductive ListCall : Type := CreateList (name : string) | DeleteList (i : Z) | UpdateList (l : CustomList) | ClearLists.
(** [fresh] is the identifier of a new list, which is what its creation returns. *)
Definition lists_spec (fresh : Z) (call : ListCall) (ls : CustomListsSettings) : result (option Z) Error * CustomListsSettings :=
  match call with
  | CreateList name =>
      if (CUSTOM_LIST_NAME_MAX_SIZE <? chars_count name)%nat then (Err name_too_long, ls)
      else if existsb (named name) ls then (Err CustomListExists, ls)
      else (Ok (Some fresh), ls ++ [{| cl_id := fresh; cl_name := name; cl_locations := [] |}])
  | DeleteList i =>
      if existsb (has_id i) ls then (Ok None, List.filter (fun l => negb (has_id i l)) ls) else (Err CustomListListNotFound, ls)
  | UpdateList l =>
      if existsb (has_id (cl_id l)) ls then
        if existsb (fun x => named (cl_name l) x && negb (has_id (cl_id l) x)) ls then (Err CustomListExists, ls)
        else (Ok None, map (fun x => if has_id (cl_id l) x then l else x) ls)
      else (Err CustomListListNotFound, ls)
  | ClearLists => (Ok None, [])
  end.

(** The client's methods; only a creation returns something. *)
Definition told {A} (f : A -> option Z) (r : option (result A Error) * list Command) : option (result (option Z) Error) * list Command :=
  ((fun r : result A Error => match r with Ok a => Ok (f a) | Err e => Err e end) <$> r.1, r.2).
Definition run_list `{Formats} `{Dates} `{Paths} `{VersionRegex} (tx : Tx) (o : Outside) (call : ListCall)
  : option (result (option Z) Error) * list Command :=
  match call with
  | CreateList name => told Some (run tx o (Client.create_custom_list name))
  | DeleteList i => told (fun _ => None) (run tx o (Client.delete_custom_list i))
  | UpdateList l => told (fun _ => None) (run tx o (Client.update_custom_list l))
  | ClearLists => told (fun _ => None) (run tx o Client.clear_custom_lists)
  end.
Definition call_ok (call : ListCall) : Prop := match call with UpdateList l => custom_list_ok l | _ => True end.

(** ** The operations on lists *)
Lemma existsb_false_Forall {A} (p : A -> bool) l : existsb p l = false <-> Forall (fun x => p x = false) l.
Proof.
  induction l as [|x l IH]; simpl; [done|]. by rewrite orb_false_iff, IH, Forall_cons.
Qed.

Lemma has_id_true i l : has_id i l = true <-> cl_id l = i.
Proof. apply Z.eqb_eq. Qed.
Lemma has_id_false i l : has_id i l = false <-> cl_id l <> i.
Proof. apply Z.eqb_neq. Qed.

Lemma add_spec ls fresh name :
  Forall (fun l => cl_id l <> fresh) ls ->
  let new := {| cl_id := fresh; cl_name := name; cl_locations := [] |} in
  CustomLists_add ls new = if existsb (named name) ls then Err RelayTypes.DuplicateName else Ok (ls ++ [new]).
Proof.
  intros Hf new. unfold CustomLists_add.
  assert (check_if_id_is_unique ls new = Ok tt) as ->.
  { unfold check_if_id_is_unique. destruct (existsb _ ls) eqn:E; [|done]. apply existsb_exists in E as (l & Hl & E).
    rewrite Forall_forall in Hf. apply list_elem_of_In in Hl. by apply Z.eqb_eq, Hf in E. }
  assert (check_list_name_is_unique ls new = if existsb (named name) ls then Err RelayTypes.DuplicateName else Ok tt) as ->.
  { unfold check_list_name_is_unique. replace (existsb (named name) ls) with (existsb
      (fun l => bool_decide (cl_name l = name) && negb (cl_id l =? fresh)%Z) ls); [done|].
    induction Hf as [|l ls Hl _ IH]; [done|]. simpl. rewrite IH. apply Z.eqb_neq in Hl. rewrite Hl. by rewrite andb_true_r. }
  simpl. by destruct (existsb _ ls).
Qed.

Lemma find_list_index_cons l ls i :
  find_list_index (l :: ls) i = if has_id i l then Some 0%nat else S <$> find_list_index ls i.
Proof.
  unfold find_list_index. simpl. destruct (has_id i l) eqn:E; case_decide; try done.
  - by apply has_id_true in E.
  - by apply has_id_false in E.
  - by destruct (list_find _ ls) as [[]|].
Qed.

Lemma find_list_index_spec ls i : is_Some (find_list_index ls i) <-> existsb (has_id i) ls = true.
Proof.
  induction ls as [|l ls IH]; [by split; [intros []|]|]. rewrite find_list_index_cons. simpl.
  destruct (has_id i l); [by split|]. by rewrite fmap_is_Some.
Qed.

Lemma others_have_no_id i l ls : NoDup (map cl_id (l :: ls)) -> cl_id l = i -> Forall (fun x => has_id i x = false) ls.
Proof.
  intros [Hn _]%NoDup_cons <-. apply Forall_forall. intros x Hx. apply has_id_false. intros E. apply Hn. rewrite <- E.
  by apply list_elem_of_fmap_2.
Qed.

Lemma remove_spec ls i :
  NoDup (map cl_id ls) ->
  CustomLists_remove ls i
  = if existsb (has_id i) ls then Ok (List.filter (fun l => negb (has_id i l)) ls) else Err ListNotFound.
Proof.
  intros Hn. unfold CustomLists_remove.
  assert (Hf : forall n, find_list_index ls i = Some n -> delete n ls = List.filter (fun l => negb (has_id i l)) ls).
  { induction ls as [|l ls IH]; [done|]. intros n. rewrite find_list_index_cons. destruct (has_id i l) eqn:E; simpl; rewrite E; simpl.
    - intros [= <-]. simpl. apply has_id_true in E. pose proof (others_have_no_id _ _ _ Hn E) as Ho. clear -Ho.
      induction Ho as [|x ls Hx _ IH]; [done|]. simpl. rewrite Hx. simpl. by f_equal.
    - intros (m & Hm & ->)%fmap_Some. simpl. f_equal. apply IH; [|done]. by inversion Hn. }
  destruct (find_list_index ls i) as [n|] eqn:E.
  - assert (existsb (has_id i) ls = true) as -> by (apply find_list_index_spec; by rewrite E). by rewrite Hf.
  - destruct (existsb _ ls) eqn:E'; [|done]. apply find_list_index_spec in E' as [n Hs]. congruence.
Qed.

Lemma update_list_spec ls l :
  NoDup (map cl_id ls) ->
  CustomLists_update ls l
  = if existsb (has_id (cl_id l)) ls then
      if existsb (fun x => named (cl_name l) x && negb (has_id (cl_id l) x)) ls then Err RelayTypes.DuplicateName
      else Ok (map (fun x => if has_id (cl_id l) x then l else x) ls)
    else Err ListNotFound.
Proof.
  intros Hn. unfold CustomLists_update, check_list_name_is_unique.
  assert (Hf : forall n, find_list_index ls (cl_id l) = Some n -> <[n:=l]> ls = map (fun x => if has_id (cl_id l) x then l else x) ls).
  { induction ls as [|y ls IH]; [done|]. intros n. rewrite find_list_index_cons. destruct (has_id (cl_id l) y) eqn:E; simpl; rewrite E.
    - intros [= <-]. simpl. f_equal. apply has_id_true in E. pose proof (others_have_no_id _ _ _ Hn E) as Ho. clear -Ho.
      induction Ho as [|x ls Hx _ IH]; [done|]. simpl. rewrite Hx. by f_equal.
    - intros (m & Hm & ->)%fmap_Some. simpl. f_equal. apply IH; [|done]. by inversion Hn. }
  destruct (find_list_index ls (cl_id l)) as [n|] eqn:E.
  - assert (existsb (has_id (cl_id l)) ls = true) as -> by (apply find_list_index_spec; by rewrite E). rewrite Hf by done.
    unfold named, has_id. by destruct (existsb _ ls).
  - destruct (existsb (has_id _) ls) eqn:E'; [|done]. apply find_list_index_spec in E' as [n Hs]. congruence.
Qed.

Section refinement.
Context `{FL : FormatsLaws} `{DL : DatesLaws} `{Paths} `{HR : VersionRegex} `{HVL : !VersionRegexLaws HR}.
Context `{EqDecision CustomProxy} `{IpNetworkOps} `{Curve} `{SettingsJson CustomProxy}.
Notation Daemon := (@Daemon CustomProxy).
Notation Effect := (@Effect CustomProxy).
Notation Env := (@Env CustomProxy).

Definition is_reply (e : Effect) : bool := match e with Reply _ _ => true | _ => false end.

Lemma replied_none tx es : Forall (fun e => is_reply e = false) es -> replied tx es = None.
Proof. unfold replied. induction 1 as [|[] es He _ IH]; simpl; try done. Qed.

Lemma replied_after tx es es' : Forall (fun e => is_reply e = false) es -> replied tx (es ++ es') = replied tx es'.
Proof. unfold replied. induction 1 as [|[] es He _ IH]; simpl; try done. Qed.

(** A command whose handler works, and then replies. *)
Lemma call_reply {A} (m : D A) (f : A -> @Response CustomProxy) tx env c d :
  handle_command env c = (s ← reads tunnel_state; when (is_disconnected s) (emit ResetInactivityTimer);; reply_result tx f m) ->
  does (avoids is_reply) m ->
  replied tx (handle_command env c d).2 = Some (f (m d).1.1) /\ (handle_command env c d).1.2 = (m d).1.2.
Proof.
  intros Hc Hm. specialize (Hm d). rewrite Hc. unfold mbind, D_bind, reply_result, oneshot_send, emit, reads, when.
  unfold mbind, D_bind. destruct (is_disconnected _); simpl; destruct (m d) as [[a d'] es]; simpl in *; split; try done.
  - etrans; [apply (replied_after tx (ResetInactivityTimer :: es)); by constructor|]. unfold replied. simpl. by rewrite Nat.eqb_refl.
  - rewrite replied_after by done. unfold replied. simpl. by rewrite Nat.eqb_refl.
Qed.

(** Storing never fails. *)
Context (env : Env) (Hstore : forall s, store env s = None).

Lemma try_update_result f d :
  (try_update_settings env f d).1.1
  = match f (current_settings d) with
    | Err e => Err (UpdateFailed e)
    | Ok s => Ok (negb (bool_decide (current_settings d = s)))
    end
  /\ current_settings (try_update_settings env f d).1.2
     = match f (current_settings d) with Err _ => current_settings d | Ok s => s end.
Proof.
  unfold try_update_settings. rewrite persist_eq. unfold SettingsPersister.try_update, current_settings, save_inner.
  destruct (f _) as [s|e]; [|done]. destruct (decide _) as [E|E]; simpl.
  - by rewrite bool_decide_eq_true_2.
  - rewrite Hstore, bool_decide_eq_false_2 by done. done.
Qed.

Lemma lists_result g (d : Daemon) :
  let f := fun s => l <-? map_err CustomListFailure (g (Settings.custom_lists s)); Ok (set_custom_lists l s) in
  exists b, (try_update_settings env f d).1.1
            = match g (Settings.custom_lists (current_settings d)) with Err e => Err (UpdateFailed (CustomListFailure e)) | Ok _ => Ok b end
            /\ Settings.custom_lists (current_settings (try_update_settings env f d).1.2)
               = match g (Settings.custom_lists (current_settings d)) with Err _ => Settings.custom_lists (current_settings d) | Ok l => l end.
Proof.
  intros f. destruct (try_update_result f d) as [Hr Hd]. rewrite Hr, Hd. unfold f.
  destruct (g _) as [l|e]; simpl; [by eexists|by exists false].
Qed.

Lemma custom_lists_changed_result i r (d : Daemon) :
  (custom_lists_changed i r d).1.1 = match r with Ok _ => Ok tt | Err e => Err (SettingsFailure e) end
  /\ persister (custom_lists_changed i r d).1.2 = persister d.
Proof.
  unfold custom_lists_changed, reconnect_tunnel, connect_tunnel, send_tunnel_command, mbind, D_bind, emit, reads, when.
  destruct r as [[]|e]; simpl; [|done..]. destruct (change_should_cause_reconnect _ _); simpl; [|done].
  by destruct (is_secured _).
Qed.

(** A handler that changes the lists, and what its client is told. *)
Lemma lists_command g i (d : Daemon) :
  let m := r ← try_update_settings env
                 (fun s => l <-? map_err CustomListFailure (g (Settings.custom_lists s)); Ok (set_custom_lists l s));
           custom_lists_changed i r in
  (m d).1.1 = match g (Settings.custom_lists (current_settings d)) with
              | Err e => Err (SettingsFailure (UpdateFailed (CustomListFailure e)))
              | Ok _ => Ok tt
              end
  /\ Settings.custom_lists (current_settings (m d).1.2)
     = match g (Settings.custom_lists (current_settings d)) with Err _ => Settings.custom_lists (current_settings d) | Ok l => l end.
Proof.
  intros m. destruct (lists_result g d) as (b & Hr & Hd). unfold m, mbind, D_bind.
  destruct (try_update_settings _ _ d) as [[r d1] es]. simpl in Hr, Hd. 
  destruct (custom_lists_changed_result i r d1) as [Hc Hp]. unfold current_settings in *.
  destruct (custom_lists_changed i r d1) as [[x d2] es2]. simpl in *. rewrite Hc, Hp, Hd, Hr. by destruct (g _).
Qed.

Lemma avoids_lists f i : does (avoids is_reply) (r ← try_update_settings env f; custom_lists_changed i r).
Proof.
  repeat first [does_step | does_unfold]; unfold avoids; rewrite ?Forall_singleton, ?Forall_nil; done.
Qed.

(** A method of the client whose command's handler works, and then replies. *)
Lemma run_replied {A B} (m : D A) (f : A -> @Response CustomProxy) tx elsewhere c (method : Method B) P k a d :
  handle_command env c = (s ← reads tunnel_state; when (is_disconnected s) (emit ResetInactivityTimer);; reply_result tx f m) ->
  does (avoids is_reply) m -> contract tx B method c P k -> (forall a, P a) -> read_response c (f (m d).1.1) = Some a ->
  run tx (serve env d tx elsewhere) method = (Some (k a), [c]) /\ after_commands env [c] d = (m d).1.2.
Proof.
  intros Hh Hm Hc HP Hr. destruct (call_reply m f tx env c d Hh Hm) as [Hreply Hd]. split; [|done].
  rewrite (remote_calls_lemma _ _ _ _ _ _ _ Hc) by auto. simpl. rewrite Hreply. simpl. by rewrite Hr.
Qed.

(** C16. Custom lists through the whole interface.  As long as settings can be saved: a client that creates, deletes,
    updates or clears lists is told, through its request, the service, the daemon's handler, the status and the
    client's reading of it, exactly what the operation on the abstract lists returns: the new list's identifier,
    nothing, or the reason for a refusal.  The daemon's lists are then the abstract lists after it, unchanged if it
    was refused.  A list may be given another name, unless another list has it ([renaming_succeeds]). *)
Theorem lists_through_client tx d elsewhere call :
  custom_lists_ok (Settings.custom_lists (current_settings d)) -> call_ok call ->
  Forall (fun l => cl_id l <> fresh_list_id env) (Settings.custom_lists (current_settings d)) ->
  let '(r, cs) := run_list tx (serve env d tx elsewhere) call in
  let '(told, after) := lists_spec (fresh_list_id env) call (Settings.custom_lists (current_settings d)) in
  r = Some told /\ Settings.custom_lists (current_settings (after_commands env cs d)) = after.
Proof.
  intros [Hi _] Hc Hf. destruct call as [name|i|l|]; unfold run_list.
  - destruct (run_replied (create_custom_list env name []) RListId tx elsewhere (CreateCustomList tx name [])
      (Client.create_custom_list name) (fun _ => True) (by_daemon same client_custom_list_error)
      (create_custom_list env name [] d).1.1 d eq_refl) as [-> Hd]; [|constructor|done|done|].
    + unfold create_custom_list. destruct (CustomList_new _ _ _); repeat first [does_step | does_unfold]; unfold avoids; 
        rewrite ?Forall_singleton, ?Forall_nil; done.
    + unfold told; cbn [fst snd]; rewrite Hd. unfold create_custom_list, CustomList_new, lists_spec.
      destruct (_ <? _)%nat; [done|].
      destruct (lists_result (fun ls => CustomLists_add ls {| cl_id := fresh_list_id env; cl_name := name; cl_locations := [] |}) d)
        as (b & Hr & Hl). 
      rewrite add_spec in Hr, Hl by done. unfold mbind, D_bind. destruct (try_update_settings _ _ d) as [[r d1] es]. simpl in *.
      rewrite Hl, Hr. by destruct (existsb _ _).
  - destruct (lists_command (fun ls => CustomLists_remove ls i) (Some i) d) as [Hr Hl]. rewrite remove_spec in Hr, Hl by done.
    destruct (run_replied (delete_custom_list env i) RResult tx elsewhere (DeleteCustomList tx i)
      (Client.delete_custom_list i) (fun _ => True) (by_daemon same client_custom_list_error)
      (delete_custom_list env i d).1.1 d eq_refl) as [-> Hd]; [apply avoids_lists|constructor|done|done|].
    unfold told; cbn [fst snd]; rewrite Hd. unfold delete_custom_list, lists_spec. rewrite Hr, Hl. by destruct (existsb _ _).
  - destruct (lists_command (fun ls => CustomLists_update ls l) (Some (cl_id l)) d) as [Hr Hl]. rewrite update_list_spec in Hr, Hl by done.
    destruct (run_replied (update_custom_list env l) RResult tx elsewhere (UpdateCustomList tx l)
      (Client.update_custom_list l) (fun _ => True) (by_daemon same client_custom_list_error)
      (update_custom_list env l d).1.1 d eq_refl) as [-> Hd]; [apply avoids_lists|by constructor|done|done|].
    unfold told; cbn [fst snd]; rewrite Hd. unfold update_custom_list. rewrite Hr, Hl. unfold lists_spec.
    destruct (existsb (has_id _) _); [|done]. by destruct (existsb _ _).
  - destruct (lists_command (fun _ => Ok []) None d) as [Hr Hl].
    destruct (run_replied (clear_custom_lists env) RResult tx elsewhere (ClearCustomLists tx)
      Client.clear_custom_lists (fun _ => True) (by_daemon same client_custom_list_error)
      (clear_custom_lists env d).1.1 d eq_refl) as [-> Hd]; [apply avoids_lists|constructor|done|done|].
    unfold told; cbn [fst snd]; rewrite Hd. split; [|exact Hl]. assert (E : (clear_custom_lists env d).1.1 = Ok tt) by exact Hr. by rewrite E.
Qed.
End refinement.

(** * The management interface at work

    Texts, dates and paths that meet the laws, the theorems applied to a daemon, and calls that show behaviour the
    code does not mean to have. *)
From Stdlib Require Import Ascii.
From stdpp Require Import base list strings gmap option numbers sets countable.
From S2P Require Import DaemonReplies.

(** ** Texts
    A number in binary, which stands for a value that has a number. *)
Fixpoint show_bits (p : positive) : string :=
  match p with xH => "." | xO p => String "0"%char (show_bits p) | xI p => String "1"%char (show_bits p) end.
Fixpoint parse_bits (s : string) : option positive :=
  match s with
  | String "0"%char s => xO <$> parse_bits s
  | String "1"%char s => xI <$> parse_bits s
  | String "."%char EmptyString => Some xH
  | _ => None
  end.
Definition show_as {A} `{Countable A} (a : A) : string := show_bits (encode a).
Definition parse_as {A} `{Countable A} (s : string) : option A := p ← parse_bits s; decode p.

Lemma parse_show_bits p : parse_bits (show_bits p) = Some p.
Proof. induction p as [p IH|p IH|]; simpl; [by rewrite IH..|done]. Qed.
Lemma parse_show_as {A} `{Countable A} (a : A) : parse_as (show_as a) = Some a.
Proof. unfold parse_as, show_as. rewrite parse_show_bits. apply decode_encode. Qed.

#[local] Instance IpAddr_countable : Countable IpAddr.
Proof.
  refine (inj_countable' (fun a => match a with V4 a => inl a | V6 a => inr a end)
                         (fun x => match x with inl a => V4 a | inr a => V6 a end) _). by intros [].
Defined.
#[local] Instance SocketAddr_countable : Countable SocketAddr.
Proof.
  refine (inj_countable' (fun a => (sa_ip a, sa_port a)) (fun x => {| sa_ip := x.1; sa_port := x.2 |}) _). by intros [].
Defined.
#[local] Instance IpNetwork_countable : Countable IpNetwork.
Proof.
  refine (inj_countable' (fun a => (net_ip a, net_prefix a)) (fun x => {| net_ip := x.1; net_prefix := x.2 |}) _). by intros [].
Defined.

#[local] Instance example_formats : Formats := {
  show_ipv4 := show_as; parse_ipv4 := parse_as; show_ipv6 := show_as; parse_ipv6 := parse_as;
  show_ip := show_as; parse_ip := parse_as; show_socket := show_as; parse_socket := parse_as;
  show_network := show_as; parse_network := parse_as; network_address := network_of; trim := fun s => s;
  show_list_id := show_as; parse_list_id := parse_as; show_method_id := show_as; parse_method_id := parse_as;
  parse_cipher s := if decide (s = "aes-256-gcm"%string) then Some s else None;
  duration_of_std d :=
    if bool_decide (d < 2 ^ 63 * 10 ^ 9)%Z then Some {| seconds := d / 10 ^ 9; nanos := d mod 10 ^ 9 |} else None;
  std_of_duration p := if bool_decide (0 <= seconds p /\ 0 <= nanos p)%Z then Some (seconds p * 10 ^ 9 + nanos p)%Z else None;
}.
#[local] Instance example_formats_laws : FormatsLaws.
Proof.
  split; try (intros; simpl; apply parse_show_as); try done.
  - intros n _. simpl. unfold show_as. by destruct (encode n).
  - intros d [H0 H1]. simpl. rewrite bool_decide_eq_true_2 by done. eexists. split; [done|]. simpl.
    pose proof (Z.mod_pos_bound d (10 ^ 9) ltac:(done)). pose proof (Z.div_pos d (10 ^ 9) H0 ltac:(done)).
    rewrite bool_decide_eq_true_2 by lia. f_equal. rewrite (Z.div_mod d (10 ^ 9)) at 3 by done. lia.
Qed.

#[local] Instance example_dates : Dates := {
  from_timestamp s n := if bool_decide (seconds_ok s /\ 0 <= n < NANOS_PER_SEC)%Z then Some (s * NANOS_PER_SEC + n)%Z else None
}.
#[local] Instance example_dates_laws : DatesLaws.
Proof. split. intros s n Hs Hn. simpl. by rewrite bool_decide_eq_true_2. Qed.
#[local] Instance example_paths : Paths := { path_to_str p := Some p }.

(** ** A daemon *)
#[local] Instance example_curve : Curve := fun k => k.
#[local] Instance example_json : SettingsJson CustomProxy := {
  to_value _ := None; from_value _ := None; from_str _ := None
}.
Definition a_list : CustomList := {| cl_id := 1; cl_name := "north"; cl_locations := [Country "se"] |}.
Definition a_daemon : @Daemon CustomProxy := {|
  tunnel_state := Disconnected None false; target_state := {| TargetState.state := Unsecured; locked := false |};
  target_file := NotFound; reconnection_job := None; jobs := 0;
  persister := {| SettingsPersister.settings := set_custom_lists [a_list] (Settings_default (1, 2, 3, 4)); file := NoSettings |};
  account_history := {| history_file := None; number := None |}; device_checker := TunnelStateChangeHandler_new; request_id := 0;
  shutdown_tasks := [] |}.
Definition an_env : @Env CustomProxy := {|
  store := fun _ => None; removable := true; fresh_ids := (5, 6, 7, 8); beta := false; target_write_fails := None;
  history_write := HistoryWritten; now := 0; account_data := Ok LoggedOut; last_relay_was_overridden := false;
  last_location := None;
  relay_list := {| countries := []; RelayTypes.wireguard := {| port_ranges := []; ed_ipv4_gateway := 0; ed_ipv6_gateway := 0;
                                                               shadowsocks_port_ranges := []; udp2tcp_ports := [] |} |};
  distance := fun _ _ => 0%Z; use_access_method := true; resolved := Ok true; pids := None; pid_done := true; pids_supported := true;
  fresh_list_id := 7; fresh_method_id := 9; fresh_seed := 0; migration_complete := true |}.
Definition nothing_else (c : Command) : option (Answer c) := None.

(** ** The theorems applied *)
Definition an_override : RelayOverride := {| ov_hostname := "se-got-wg-001"; ov_ipv4_addr_in := Some 167772161; ov_ipv6_addr_in := None |}%Z.

Lemma remote_calls_witness :
  run 3 (serve an_env a_daemon 3 nothing_else) (Client.set_relay_override an_override)
  = (Some (Ok tt), [SetRelayOverride 3 an_override]).
Proof.
  rewrite (remote_calls 3 unit (Client.set_relay_override an_override) (SetRelayOverride 3 an_override) (fun _ => True) by_settings
    (serve an_env a_daemon 3 nothing_else)); [by vm_compute| |exact (fun _ _ => I)].
  apply c_override. by repeat split.
Defined.

Lemma clients_not_abandoned_witness :
  let cs := (handle 3 ReqConnectTunnel (serve an_env a_daemon 3 nothing_else)).2 in
  omap command_tx cs = [3%nat]
  /\ answered (deliver an_env cs a_daemon).2 ++ kept (deliver an_env cs a_daemon).1.2 ≡ₚ [3%nat].
Proof.
  destruct (clients_not_abandoned 3 ReqConnectTunnel (serve an_env a_daemon 3 nothing_else) an_env a_daemon ltac:(done) eq_refl)
    as [Hc|[Hc _]]; [exact Hc|].
  exfalso. apply Permutation_length in Hc. vm_compute in Hc. discriminate.
Defined.

Definition an_event : DaemonEvent := EventTunnelState (Disconnecting ActionReconnect).
Definition another_event : DaemonEvent := EventLeak {| reachable_nodes := [V4 16843009]; leak_interface := "eth0" |}%Z.
Lemma listeners_read_witness :
  exists subs msgs,
    listen_steps [Listen 8; Broadcast an_event; Listen 5; HangUp 8; Broadcast another_event] [] = Some subs
    /\ of_client 5 subs = [{| listener := 5; connected := true; received := msgs |}]
    /\ Forall2 (fun m e => DaemonEvent_try_from m = Ok (seen_event e)) msgs [another_event].
Proof.
  apply (listeners_read 5 [Listen 8; Broadcast an_event] [HangUp 8; Broadcast another_event]).
  - do 3 (constructor; [exact I|]). constructor; [|constructor]. constructor; [split; done|constructor].
  - repeat constructor.
Defined.

Lemma lists_through_client_witness :
  let lists cs := Settings.custom_lists (current_settings (after_commands an_env cs a_daemon)) in
  (let '(r, cs) := run_list 3 (serve an_env a_daemon 3 nothing_else) (CreateList "south") in
   r = Some (Ok (Some 7%Z)) /\ lists cs = [a_list; {| cl_id := 7; cl_name := "south"; cl_locations := [] |}])
  /\ (let '(r, cs) := run_list 3 (serve an_env a_daemon 3 nothing_else) (CreateList "north") in
      r = Some (Err CustomListExists) /\ lists cs = [a_list]).
Proof.
  assert (Hok : custom_lists_ok (Settings.custom_lists (current_settings a_daemon))) by (split; apply NoDup_singleton).
  assert (Hf : Forall (fun l => cl_id l <> fresh_list_id an_env) (Settings.custom_lists (current_settings a_daemon)))
    by (repeat constructor; done).
  intros lists. split.
  - exact (lists_through_client an_env ltac:(done) 3 a_daemon nothing_else (CreateList "south") Hok I Hf).
  - exact (lists_through_client an_env ltac:(done) 3 a_daemon nothing_else (CreateList "north") Hok I Hf).
Defined.

(** ** Findings *)
(** The API asks a client to slow down: logging in is told as having too many devices, and submitting a voucher as
    having used it. *)
Theorem throttled_login text :
  client_device_error (map_daemon_error (LoginError (OtherRestError (ApiError TOO_MANY_REQUESTS text)))) = TooManyDevices
  /\ client_voucher_error (map_daemon_error (VoucherFailure (OtherRestError (ApiError TOO_MANY_REQUESTS text)))) = UsedVoucherError.
Proof. done. Qed.

(** Updating a list under another name succeeds, although the comment of [update_custom_list] has it as an error. *)
Theorem renaming_succeeds :
  let renamed := {| cl_id := cl_id a_list; cl_name := "far north"; cl_locations := cl_locations a_list |} in
  let '(r, cs) := run_list 3 (serve an_env a_daemon 3 nothing_else) (UpdateList renamed) in
  cl_name a_list <> "far north" /\ r = Some (Ok None)
  /\ Settings.custom_lists (current_settings (after_commands an_env cs a_daemon)) = [renamed].
Proof. vm_compute. by repeat split. Qed.

(** Without a device, or with one that was removed, a good voucher is told to be invalid. *)
Theorem voucher_without_device :
  client_voucher_error (map_daemon_error (VoucherFailure NoDevice)) = InvalidVoucherError
  /\ client_voucher_error (map_daemon_error (VoucherFailure InvalidDevice)) = InvalidVoucherError.
Proof. done. Qed.

(** A location that cannot be read is any location. *)
Definition relays_in (location : PLocationConstraint) : PRelaySettings :=
  {| endpoint_type := Some (PNormal
       {| pn_location := Some location; pn_providers := []; pn_ownership := 0;
          pn_wireguard_constraints := Some {| pw_ip_version := None; pw_allowed_ips := []; pw_use_multihop := false;
                                              pw_entry_location := None; pw_entry_providers := []; pw_entry_ownership := 0 |} |}) |}.
Theorem unreadable_location_is_any :
  match RelaySettings_try_from (relays_in {| location_type := Some (PCustomListId "nordic") |}) with
  | Ok (Normal c) => rc_location c = Any
  | _ => False
  end
  /\ match RelaySettings_try_from
             (relays_in {| location_type := Some (PLocation {| pg_country := "se"; pg_city := None; pg_hostname := Some "se-got-wg-001" |}) |}) with
     | Ok (Normal c) => rc_location c = Any
     | _ => False
     end.
Proof. vm_compute. by split. Qed.

(** Ports and the MTU lose the bits above 16, where the relay list's are refused. *)
Theorem ports_wrap :
  PortSettings_try_from {| pp_port := Some 65589%Z |} = {| port := Only 53%Z |}
  /\ (handle 3 (ReqSetWireguardMtu 65536) (serve an_env a_daemon 3 nothing_else)).2 = [SetWireguardMtu 3 (Some 0%Z)]
  /\ PortRange_try_from {| pr_first := 65589; pr_last := 65590 |} = Err (InvalidArgument "invalid port").
Proof. vm_compute. by repeat split. Qed.

(** A name that is too long is refused without the details that are for it. *)
Theorem long_name_without_details (env : @Env CustomProxy) (d : @Daemon CustomProxy) name :
  (CUSTOM_LIST_NAME_MAX_SIZE < chars_count name)%nat ->
  (create_custom_list env name [] d).1.1 = Err (ListFailure NameTooLong)
  /\ details (map_daemon_error (ListFailure NameTooLong)) = EmptyString
  /\ details (Status_from_settings (UpdateFailed (CustomListFailure NameTooLong))) = CUSTOM_LIST_LIST_NAME_TOO_LONG_DETAILS.
Proof.
  intros Hl. split; [|done]. unfold create_custom_list, CustomList_new. apply Nat.ltb_lt in Hl. by rewrite Hl.
Qed.

(** Deleting the account is told to have succeeded, and nothing was done. *)
Theorem account_not_deleted o : handle 3 ReqDeleteAccount o = (Some (Ok tt), []).
Proof. done. Qed.

(** A negative duration in an event of an upgrade panics who reads it. *)
Theorem negative_duration_panics server n :
  AppUpgradeEvent_try_from (Some (PDownloadProgress {| pup_server := server; pup_progress := n;
                                                       pup_time_left := Some {| seconds := -1; nanos := 0 |} |})) = None.
Proof. done. Qed.

(** The address version of an entry cannot be left open: a question that does not name one is about IPv4. *)
Theorem unset_version_is_ipv4 c :
  EntryConstraints_try_from {| pen_general_constraints := None; pen_obfuscation_settings := None; pen_daita_settings := None; pen_ip_version := 0 |}
  = Ok c -> ip_version (entry_specific c) = Only IpVersion_V4.
Proof. vm_compute. by intros [= <-]. Qed.
